(* ===== verification/_CoqProject ===== *)
-Q . S2P
Prelude.v
JsMap.v
Text.v
JsDate.v
JsValue.v
Contracts.v
ContactPolicy.v
RuleRegistry.v
ScopeKey.v
Windows.v
Cg3Facts.v
PolicyCompiler.v
PolicyResolution.v
Temporal.v
PolicyDiff.v
ExceptionEval.v
Cg3Evaluator.v
PolicyPreview.v
PolicyChange.v
Authorization.v
Persistence.v
Callbacks.v
PolicyStore.v
PolicyLifecycle.v
PolicySystem.v
PolicyScenario.v
PolicyTheorems.v
PolicyReader.v
PolicyFindings.v
EventEnvelope.v
EventInbox.v
EventStream.v
Rollout.v
ExceptionStore.v
ExceptionSystem.v
ExceptionLedger.v
ExceptionTheorems.v
FactLoader.v
ReservationRuntime.v
DeliveryCommands.v
Governance.v
GovernanceSystem.v
GovernanceTheorems.v
Revalidation.v
GovernanceScenario.v
DeliveryTheorems.v
DeliveryScenario.v
Program.v
LineDelivery.v
LineControlPolicy.v
LineTables.v
LineStore.v
LineLedger.v
LineControlPlane.v
LineAdapter.v
LineInvariant.v
LineTransactions.v
LineMethods.v
LinePool.v
LineTheorems.v
LineScenario.v
LineInbox.v
LineWebhook.v
LineWebhookWorker.v
LineTouches.v
LineWebhookPool.v
LineWebhookTheorems.v
LineWebhookFaults.v
LineWebhookScenario.v
