(* ===== verification/Prelude.v ===== *)
(** * D-Contact contact governance and LINE delivery: a verified model of their core

    D-Contact decides, before any outbound contact, whether this customer may be contacted on
    this channel for this purpose now ([apps/contact-governance]). Policies say when contact is
    blocked; a policy is authored, compiled to a canonical form with a digest, and one version
    governs each scope. An approved exception lifts a policy rule for one contact: it is
    requested by a maker, voted on by checkers, moved through a lifecycle and pinned by the
    decisions it lets pass. A delivery channel ([apps/delivery]) then sends what was allowed, for
    LINE under an authority of its own: rollout states, kill switches, allowlists, runs approved by
    people, and caps. This library models that core as executable definitions and proves what makes
    it correct.

    ** Parts, files and sources (paths under [src/apps/contact-governance/src] unless given)

    - [Prelude]: thrown errors as [result], array operations ([map_result], [filter_result],
      [sort_by] for a stable sort, [set_to_array] for the elements of a [Set] in insertion order),
      [includes], [Math.max], shared tactics and permutation lemmas.
    - [JsMap], [Text], [JsDate]: the language's [Map], strings (code units below 256), numbers
      read from text, and dates as Z milliseconds since the epoch. [JsDate.Runtime] holds what the
      host decides: [Date.parse] of arbitrary text and the [Intl] time zone tables.
    - [JsValue]: JSON values and the canonical JSON of [packages/cxa-contracts/src/
      contact-governance-cg4.ts]. SHA-256 is an argument.
    - [Contracts]: the types of the two contract files of [packages/cxa-contracts/src].
    - [ContactPolicy]: [contact-policy.ts], [reservation.ts].
    - [RuleRegistry]: [cg4-rule-registry.ts]. - [ScopeKey], [PolicyCompiler]:
      [cg4-policy-compiler.ts]. - [Windows]: the windows of [cg3-persistence.ts] and their three
      readers.
    - [Cg3Facts], [Temporal], [Cg3Evaluator]: [cg3-policy-evaluator.ts], an early [return] being
      an [Err] of the outcome returned.
    - [PolicyDiff], [PolicyChange]: [cg4-policy-diff.ts], and what its classes mean at run time.
    - [PolicyResolution]: [cg4-policy-resolution.ts], [cg4-cache.ts] (what Redis answers is an
      argument).
    - [ExceptionEval]: [cg4-exception-evaluation.ts]. - [Authorization]:
      [cg4-authorization-engine.ts].
    - [Persistence]: what the stores share: the class [Host] (SHA-256, the order of
      [localeCompare], the identifiers [randomUUID] returns), [stableDigest], receipts and updates
      of rows. A tenant's tables are records of lists; a write that breaks a key, a check or a
      trigger is an error of the command.
    - Exceptions. [ExceptionStore]: [recordException] ([cg4-foundation-repository.ts]),
      [recordExceptionApproval] ([cg4-approval-repository.ts]), [transition]
      ([cg4-exception-lifecycle.ts]), [nextContactStreamVersion] ([cg4-contact-stream.ts]) and the
      route [decide] of [apps/api/src/contact-governance-cg4-api.ts]. [ExceptionSystem]: the
      commands as a step relation over a store and the transitions under way; [ExceptionLedger]:
      the event stream and the receipts; [ExceptionTheorems]: what holds in every store so reached.
    - Policies. [PolicyPreview]: [cg4-policy-preview.ts] with the packs of
      [cg4-policy-fixtures.ts]; [PolicyStore], [PolicyLifecycle]: the tables, triggers and commands
      of [cg4-policy-lifecycle.ts] (with [recordPolicyApproval] and [cg4-kill-switch-event.ts]),
      each read part before its lock apart from the rest, and the checks of a publish and an activation
      apart from their writes; [PolicySystem], [PolicyScenario], [PolicyTheorems], [PolicyFindings]: their
      histories; [PolicyReader]: [cg4-policy-reader.ts], its heads, jobs and rows of different moments.
    - Events. [EventEnvelope]: [cg4-event-envelope.ts]; [EventInbox]: [cg4-inbox.ts] and
      [cg4-consumer-inbox.ts], for any projection a consumer keeps; [EventStream]: the policy
      outbox met with that inbox.
    - [Rollout]: [cg4-rollout.ts] with the guards of its migration.
    - Authorizing a contact. [Callbacks]: [cg3-callback-persistence.ts]; [FactLoader]:
      [cg3-fact-loader.ts]; [Governance]: [contact-governance-service.ts], [authorizeAndReserve]
      and the commands on a reservation; [GovernanceSystem]: the histories of a tenant, in which
      every operation above and below is a step; [GovernanceTheorems], and [GovernanceScenario], a
      worked tenant; [Revalidation]: [revalidateAuthorizedAction].
    - Delivering on a reservation. [ReservationRuntime]: [reservation-runtime.ts] and
      [attempt-touch-repository.ts]; [DeliveryCommands]: the machine of phases that
      [packages/cxa-contracts/src/contact-governance.ts] promises, and the proof that each command
      moves a row along it; [DeliveryTheorems] and [DeliveryScenario] over the tenant's histories.
    - Sending over LINE ([apps/delivery/src]). [Program]: asynchronous methods as trees of calls,
      pools of them that interleave and die between any two calls, and the rule that proves an
      invariant of the store from what each method guarantees of its own calls. [LineDelivery]: the
      vocabulary of [packages/cxa-contracts/src/line-delivery.ts], [line-provider-transport.ts] and
      [line-push-request.ts]; [LineControlPolicy]: [line-control-policy.ts]; [LineTables]: the rows of
      the two LINE migrations of [packages/db/prisma/migrations] with their checks and triggers, and
      the world: these tables, the reservation tables, the provider, the keychain and the clock;
      [LineStore]: the transactions of [line-control-repository.ts], [line-audit-repository.ts],
      [line-attempt-repository.ts], [line-event-outbox.ts] and [outbox-repository.ts];
      [LineControlPlane]: every method of [line-control-plane.ts]; [LineAdapter]:
      [line-delivery-enqueue.ts], [line-outbound-adapter.ts] and the redaction of
      [line-credential-boundary.ts]. [LineLedger], [LineInvariant], [LineTransactions],
      [LineMethods], [LinePool]: the invariant of the tables, kept by each transaction, by each
      method and so by every interleaving; [LineTheorems] what it says of a tenant's histories, and
      [LineScenario] a worked tenant and what is not recovered after a crash.
    - Answers to what was sent over LINE ([apps/delivery/src]). [LineInbox]: the rows of the inbox, the
      correlations of responses, the messages and the encrypted payloads with their checks and triggers,
      and the transactions of [line-webhook-repository.ts]; [LineWebhook]: [line-webhook-signature.ts],
      [line-webhook-ingress.ts], [line-webhook-payload-vault.ts] and [line-touch-governance.ts];
      [LineWebhookWorker]: [line-webhook-worker.ts] and a turn of [line-webhook-worker-loop.ts].
      [LineTouches] is the invariant of these tables over those of LINE delivery, kept by each
      transaction, [LineWebhookPool] by each method; [LineWebhookTheorems] is what it says of the
      histories in which webhooks, workers and sends interleave, [LineWebhookFaults] what stops the worker
      and what a death loses, in any of them, and [LineWebhookScenario] a worked answer.

    ** How the parts interact

    [compileCg4Policy] (PolicyCompiler) makes the facts [evaluateCg3Policy] (Cg3Evaluator) reads;
    it normalizes windows (Windows) and admits rule codes by the registry (RuleRegistry). The
    evaluator asks [resolveCg4ExceptionCoverage] (ExceptionEval) whether an exception lifts the
    rule that blocked, and that asks the registry again. The commands of ExceptionStore bind a
    request to a stored policy version, ask the registry whether its rules may be lifted, and ask
    the authorization engine who may vote and whether the quorum is met; those of PolicyLifecycle
    compile, test, diff and move the head of a scope. [authorizeAndReserve] walks the baseline
    (ContactPolicy) and the kill switches, loads the exceptions, preferences, callback and CG3
    policy of the contact (FactLoader), lets the rollout choose the policy reader (Rollout), reads
    the CG4 heads (PolicyReader), evaluates (Cg3Evaluator), uses a callback up (Callbacks), and
    writes the reservation and the decision. A delivery claims that reservation, submits only while
    the contact is at the version of the decision (ExceptionStore), and settles it with an outcome,
    of which an attempt and perhaps a touch remain (ReservationRuntime). The LINE adapter claims,
    begins, confirms and settles through those commands ([LineAdapter.govern]), between the control
    plane's [beginRun], which consumes a run and takes its caps, and the provider's answer
    ([classifyLineResponse]). A response comes in signed ([LineWebhook.handle]), waits encrypted in the
    inbox, and the worker that claims it ([runOnce]) ties it to the accepted attempt of the delivery whose
    message it quotes ([findAcceptedAttemptByMessage] reads the receipts, the ledger and the gates of LINE
    and the attempts of Governance) and has Governance record the touch ([record_touch]).
    [LineWebhookTheorems.line_reaches_lift] makes a history of LINE delivery one of both.
    [GovernanceSystem.governed_components] says that the
    exceptions, policies and rollout of a tenant's history are histories of their own components,
    so that the theorems about those apply to what a decision reads.

    ** What the theorems show

    - Decisions (GovernanceTheorems): when a contact is allowed, one reservation for an action,
      idempotence, callbacks used once; every exception a decision applied was approved by its
      quorum, is of the very rule that blocked and was needed, and after the switch the policy it pins is
      the ACTIVE version of the most specific scope. The last two compose the reader, the loader and the evaluator with the histories.
    - Deliveries (DeliveryTheorems): reservations refine the contract's machine, a submission is
      that of a recent allowing decision the contact has not changed since, what began stays the
      delivery's, outcomes are final, attempts and touches follow them under every settlement
      policy, and commands are idempotent. Revalidation agrees with authorizing again.
    - LINE (LineTheorems, LineDelivery): over every interleaving of the methods, wherever they die,
      each request the provider receives was authorized and approved, a retry key is never used for
      anything else, the caps hold, outcomes are those of receipts and final, an authorization is used
      once, and a killed scope comes back state by state; acceptance is never guessed from an answer.
    - Webhooks (LineWebhookTheorems): a touch answers a delivery LINE took and is of the person it was for,
      events are kept once and end once, an answer of 200 with counts means the events are on record and any
      other leaves no trace, an entry in its lease is only its worker's until the lease runs out or it ends,
      whatever else runs, and the worker reads what was signed. Faults of any history (LineWebhookFaults): a
      second answer to a message stops whoever takes it, and a response bound by a worker that died is
      never told to Governance.
    - Exceptions (ExceptionTheorems): approved exceptions never overlap, none is approved without
      its quorum of other people, the lifecycle goes one way, a rejection is final, overtaken
      transitions fail, events are numbered without gaps, repeated commands are answered from
      their receipts and interrupted decisions resume.
    - Policies (PolicyTheorems, PolicyReader): a scope has one ACTIVE version and its head names
      it, what takes effect has its quorum and is what was submitted, publishing swaps the head it
      read, commands stay within the database's triggers, and the reader serves the active version or says
      why not. That two ACTIVE scopes are never ambiguous does not hold: the lock of a publish is its own
      scope's, so two publishes may each pass the check of the other's scope and both be written
      ([ambiguous_scopes_publish]); the reader then fails closed.
    - Events (EventEnvelope, EventInbox, EventStream): what the guard accepts, projections that
      are gapless and without repetition, redelivery that changes nothing, and a studio whose
      events its consumers accept.
    - Rollout: the history accounts for the state, the switch is final, and what it takes to switch.
    - Exactness of decisions: [exception_coverage_iff], [approval_authorized_iff],
      [override_eligibility_iff], [cg3_passes_iff], [active_policy_iff], [diff_class_iff] and
      others state when a decision is made, in terms that do not follow the code's branches.
    - Canonical forms: [canonical_json_injective], [scope_key_roundtrip], [recompile_roundtrip],
      [authoring_order_irrelevant], [normalized_windows_disjoint].
    - Time: [next_eligible_first] and [next_eligible_honoured] (the search ends and its answer
      holds), [zoned_round_trip]; [not_relaxation_blocks_more] relates the diff to run time;
      [probe_loop_terminates_iff].
    - Divergences ([*_divergence], the rest of PolicyChange, PolicyFindings,
      [rejected_vote_reported_met], [series_streams_start_anywhere], [narrow_pilot_unchecked],
      [sourced_callback_unusable], [callback_call_deferred], [sweep_races_submission],
      [http_never_reports_quota], the crashes at the end of LineScenario, and of LineWebhookScenario the events
      never kept, and late and early responses): where two parts of the code, or the code and its comments,
      disagree.

    ** Bounds and fuel

    [Temporal.scan_fuel] is 8642; the loop visits the 8641 offsets 0, 5, ..., 43200 of the thirty
    days the source looks ahead, so the search never runs out of it; [next_eligible_first] covers every answer.
    The probe loops of a preview take their fuel as an argument, because a tenant's pack can make
    them run for ever; [platform_pack_passes] names the fuel the platform's pack needs.
    [Text.show_fuel] gets the binary length of the number, more than its decimal digits.
    Methods of LINE delivery have no loop but the one over the recipients of a trial, so their programs
    need no fuel; [Program.run_until] takes the number of calls after which a process dies, and the
    worked tenant gives 200, more than any of its methods makes. The worker's loops are over the entries
    it claimed and the responses it listed, which are finite; of its endless loop one turn is modelled.
    Milliseconds, versions and revisions are unbounded Z: the code only compares, adds small
    constants and multiplies by 1000, far below the 2^53 where doubles lose integers.

    ** Assumptions

    [Runtime] with [TimeZoneLaws] says that the fields [Intl] gives are those of a local clock
    with an offset in whole minutes; [IsoDates] that [Date.parse] reads back [toISOString]; the
    hypotheses [fresh_inj] and [fresh_some] that [randomUUID] neither repeats nor is empty;
    [sha256_hex_format] that a digest has sixty-four lower case hexadecimal digits;
    [payload_round_trip] that AES-256-GCM opens what it sealed and that [JSON.parse] reads what
    [JSON.stringify] wrote of an event. Each is instantiated in a witness. A transaction that throws leaves the store unchanged, unique keys
    hold, and what follows an advisory lock is serialized: a command that reads before its lock is
    one step up to the lock and one after it. The locks of the policy commands are per scope, so a publish and
    an activation are three: what is read before the lock, the checks under it, and the writes, between any
    two of which commands on other scopes run. [authorizeAndReserve] takes no policy lock: what it reads of
    the policies are heads, jobs and rows of different moments. Votes and kill switches take no lock and run
    one at a time. So does the sweep of expired reservations: in the source it takes row locks only, a
    delivery command may have read its row before, and what then comes of it is [sweep_races_submission],
    outside the histories of a tenant, whose delivery commands and sweeps come one after another. Columns the database types, enumerates or stores as JSON are typed in the model, the
    texts of error messages are left out, and so is the fault injection hook of the rollout.

    ** Not modelled

    The triggers and locks on team references and the histories of attempts and touches; the expiry
    sweeper, the preference repository, delegation grants, the redaction of CG4 views and CG5, which
    feed the modelled tables or read them. Of LINE: the formats of identifiers, references and digests
    in the database's checks (the model takes any text) but those of what an event brings from outside,
    the publisher of the event outbox, the secret handle and the keychain, the HTTP application around the
    ingress, the vault's view for the pilot's pages, whatever makes postback tokens (nothing under src
    does), the doubles of simulations and the command line tools. Voice delivery has an outbox and a
    rollout of its own. Relays, HTTP parsing, user interfaces and the other services (journey,
    telephony, dialer, router, quality, cases, customer profile, platform control) are outside: they
    are input and output, or separate systems. *)
From stdpp Require Import base tactics list strings sorting.
From Stdlib Require Import ZArith Lia Sorting.Permutation Sorting.Sorted.

Declare Scope dc_scope.
Delimit Scope dc_scope with dc.
Open Scope dc_scope.
Open Scope Z_scope.
Open Scope list_scope.

(** ** Fallible code: a thrown exception is an [Err] *)

Inductive result (E A : Type) : Type :=
  | Ok (a : A)
  | Err (e : E).
Arguments Ok {E A} a.
Arguments Err {E A} e.

#[export] Instance result_ret {E} : MRet (result E) := fun A a => Ok a.
#[export] Instance result_bind {E} : MBind (result E) :=
  fun A B f r => match r with Ok a => f a | Err e => Err e end.
#[export] Instance result_fmap {E} : FMap (result E) :=
  fun A B f r => match r with Ok a => Ok (f a) | Err e => Err e end.

#[export] Instance result_eq_dec {E A} `{EqDecision E, EqDecision A} :
  EqDecision (result E A).
Proof. solve_decision. Defined.

(** [if (cond) throw e;] *)
Definition throw_if {E} (cond : bool) (e : E) : result E unit :=
  if cond then Err e else Ok tt.

Definition is_ok {E A} (r : result E A) : bool :=
  match r with Ok _ => true | Err _ => false end.

Section Result.
Context {E A B : Type}.

Lemma bind_ok (f : A -> result E B) r b :
  r ≫= f = Ok b <-> exists a, r = Ok a /\ f a = Ok b.
Proof.
  destruct r as [a|e]; cbn; split; try done; eauto.
  - by intros (?&[= ->]&?).
  - by intros (?&?&?).
Qed.

Lemma throw_if_ok (c : bool) (e : E) u : throw_if c e = Ok u <-> c = false.
Proof. destruct c, u; cbn; naive_solver. Qed.

Lemma fmap_ok (f : A -> B) (r : result E A) b :
  f <$> r = Ok b <-> exists a, r = Ok a /\ f a = b.
Proof.
  destruct r as [a|e]; cbn; split; try done.
  - intros [= <-]; eauto.
  - by intros (?&[= ->]&<-).
  - by intros (?&?&?).
Qed.

(** [array.map] with a throwing callback. *)
Fixpoint map_result (f : A -> result E B) (l : list A) : result E (list B) :=
  match l with
  | [] => Ok []
  | x :: l' => y ← f x; ys ← map_result f l'; Ok (y :: ys)
  end.

Lemma map_result_ok f l ys :
  map_result f l = Ok ys <-> Forall2 (fun x y => f x = Ok y) l ys.
Proof.
  revert ys; induction l as [|x l IH]; intros ys; cbn.
  - split; [intros [= <-]; constructor | intros H; inversion H; done].
  - split.
    + destruct (f x) as [y|] eqn:Hy; cbn; [|done].
      destruct (map_result f l) as [ys'|] eqn:Hys; cbn; [|done].
      intros [= <-]. constructor; [done | by apply IH].
    + intros H. inversion H as [|? y ? ys' Hy Hys]; subst.
      apply IH in Hys. rewrite Hy, Hys. done.
Qed.
End Result.

(** A check, a guard, and what follows. *)
Lemma bind_unit_ok {E A} (r : result E unit) (k : result E A) a : (r ;; k) = Ok a <-> r = Ok tt /\ k = Ok a.
Proof. destruct r as [[]|]; cbn; naive_solver. Qed.

Lemma bind_throw_if_ok {E A} (c : bool) (e : E) (k : result E A) a :
  (throw_if c e ;; k) = Ok a <-> c = false /\ k = Ok a.
Proof. destruct c; cbn; naive_solver. Qed.


(** The errors a computation can end in. *)
Definition errs_in {E A} (P : E -> Prop) (r : result E A) : Prop :=
  match r with Ok _ => True | Err e => P e end.

Lemma errs_in_bind {E A B} (P : E -> Prop) (r : result E A) (f : A -> result E B) :
  errs_in P r -> (forall a, r = Ok a -> errs_in P (f a)) -> errs_in P (r ≫= f).
Proof. destruct r; cbn; auto. Qed.

Lemma errs_in_throw {E} (P : E -> Prop) (c : bool) (e : E) : P e -> errs_in P (throw_if c e).
Proof. by destruct c. Qed.

Arguments map_result {E A B} f l.

(** [array.filter] with a throwing callback. *)
Fixpoint filter_result {E A} (f : A -> result E bool) (l : list A) : result E (list A) :=
  match l with
  | [] => Ok []
  | x :: l' => b ← f x; ys ← filter_result f l'; Ok (if b : bool then x :: ys else ys)
  end.

Lemma filter_result_ok {E A} (f : A -> result E bool) l ys :
  filter_result f l = Ok ys ->
  Forall (fun x => exists b, f x = Ok b) l /\
  forall x, In x ys <-> In x l /\ f x = Ok true.
Proof.
  revert ys; induction l as [|x l IH]; intros ys; cbn; [by intros [= <-]; split; [|cbn; tauto]|].
  intros H. apply bind_ok in H as (b & Hb & H). apply bind_ok in H as (zs & Hzs & [= <-]).
  destruct (IH _ Hzs) as [Hf Hin]. split; [constructor; eauto|]. intros y.
  destruct b; cbn; rewrite Hin; split; try tauto.
  - intros [->|[? ?]]; tauto.
  - intros [[->|?] ?]; [congruence|tauto].
Qed.

Lemma filter_result_total {E A} (f : A -> result E bool) l :
  Forall (fun x => exists b, f x = Ok b) l -> exists ys, filter_result f l = Ok ys.
Proof.
  induction 1 as [|x l [b Hb] _ [ys IH]]; cbn; [eauto|]. rewrite Hb, IH. cbn. eauto.
Qed.

Lemma filter_result_perm {E A} (f : A -> result E bool) l l' ys :
  Permutation l l' -> filter_result f l = Ok ys ->
  exists ys', filter_result f l' = Ok ys' /\ Permutation ys ys'.
Proof.
  intros Hp. revert ys; induction Hp as [|x l l' _ IH|x y l|l1 l2 l3 _ IH1 _ IH2]; intros ys H.
  - eauto.
  - cbn in *. apply bind_ok in H as (b & -> & H). apply bind_ok in H as (zs & Hz & [= <-]).
    destruct (IH _ Hz) as (zs' & -> & Hzs). eexists. split; [done|]. by destruct b; [constructor|].
  - cbn in *. apply bind_ok in H as (b & Hb & H). apply bind_ok in H as (zs & H & [= <-]).
    apply bind_ok in H as (b' & Hb' & H). apply bind_ok in H as (us & Hu & [= <-]).
    rewrite Hb'. cbn. rewrite Hb. cbn. rewrite Hu. cbn. eexists. split; [done|].
    destruct b, b'; try done. constructor.
  - destruct (IH1 _ H) as (ys' & H' & Hp1). destruct (IH2 _ H') as (ys'' & ? & ?).
    exists ys''. split; [done|by etrans].
Qed.

(** Destructs every [match] and [if] of a hypothesis or of the goal. *)
Ltac split_match :=
  repeat match goal with
  | |- context [match ?x with _ => _ end] => destruct x eqn:?; try done
  | H : context [match ?x with _ => _ end] |- _ => destruct x eqn:?; try done
  end.

Ltac inv_result :=
  repeat match goal with
  | H : Ok _ = Ok _ |- _ => injection H as H; subst
  | H : Err _ = Err _ |- _ => injection H as H; subst
  | H : Ok _ = Err _ |- _ => discriminate H
  | H : Err _ = Ok _ |- _ => discriminate H
  | H : _ ≫= _ = Ok _ |- _ => apply bind_ok in H as (? & ? & ?)
  | H : throw_if _ _ = Ok _ |- _ => apply throw_if_ok in H
  | H : _ <$> _ = Ok _ |- _ => apply fmap_ok in H as (? & ? & ?)
  end.

(** One bind of a hypothesis. *)
Ltac open_bind H x Hx := apply bind_ok in H as (x & Hx & H).

(** Boolean connectives of guards, as propositions. *)
Ltac bool_prop :=
  repeat match goal with
  | H : _ && _ = true |- _ => apply andb_prop in H as [? ?]
  | H : _ || _ = false |- _ => apply orb_false_elim in H as [? ?]
  | H : negb _ = true |- _ => apply negb_true_iff in H
  | H : negb _ = false |- _ => apply negb_false_iff in H
  | H : bool_decide _ = true |- _ => apply bool_decide_eq_true in H
  | H : bool_decide _ = false |- _ => apply bool_decide_eq_false in H
  | H : (_ <? _) = true |- _ => apply Z.ltb_lt in H
  | H : (_ <? _) = false |- _ => apply Z.ltb_ge in H
  | H : (_ <=? _) = true |- _ => apply Z.leb_le in H
  | H : (_ <=? _) = false |- _ => apply Z.leb_gt in H
  | H : (_ =? _) = true |- _ => apply Z.eqb_eq in H
  | H : (_ =? _) = false |- _ => apply Z.eqb_neq in H
  end.

(** ** Arrays *)

(** [array.includes(x)] *)
Definition includes {A} `{EqDecision A} (l : list A) (x : A) : bool :=
  existsb (fun y => bool_decide (y = x)) l.

(** [array.some(f)], [array.every(f)], [array.find(f)], [array.filter(f)] *)
Abbreviation js_some := existsb (only parsing).
Abbreviation js_every := forallb (only parsing).
Abbreviation js_find := List.find (only parsing).
Abbreviation js_filter := List.filter (only parsing).

Section Arrays.
Context {A : Type} `{EqDecision A}.
Implicit Types (l : list A) (x : A).

Lemma includes_spec l x : includes l x = true <-> In x l.
Proof.
  unfold includes. rewrite existsb_exists. split.
  - intros (y & Hy & Heq). bool_prop. by subst.
  - intros Hx. exists x. rewrite bool_decide_eq_true_2; done.
Qed.

Lemma includes_false l x : includes l x = false <-> ~ In x l.
Proof. rewrite <- includes_spec. destruct (includes l x); naive_solver. Qed.

(** [[...new Set(l)]]: first occurrences, in order. *)
Fixpoint dedupe_from (seen l : list A) : list A :=
  match l with
  | [] => []
  | x :: l' =>
      if includes seen x then dedupe_from seen l' else x :: dedupe_from (x :: seen) l'
  end.
Definition set_to_array l : list A := dedupe_from [] l.

Lemma dedupe_from_In seen l x :
  In x (dedupe_from seen l) <-> In x l /\ ~ In x seen.
Proof.
  revert seen; induction l as [|y l IH]; intros seen; cbn; [naive_solver|].
  destruct (includes seen y) eqn:Hy.
  - apply includes_spec in Hy. rewrite IH. naive_solver.
  - apply includes_false in Hy. cbn. rewrite IH. cbn.
    destruct (decide (y = x)); naive_solver.
Qed.

Lemma dedupe_from_NoDup seen l : List.NoDup (dedupe_from seen l).
Proof.
  revert seen; induction l as [|y l IH]; intros seen; cbn; [constructor|].
  destruct (includes seen y); [done|]. constructor; [|done].
  rewrite dedupe_from_In. cbn. naive_solver.
Qed.

Lemma set_to_array_In l x : In x (set_to_array l) <-> In x l.
Proof. unfold set_to_array. rewrite dedupe_from_In. cbn. tauto. Qed.

Lemma set_to_array_NoDup l : List.NoDup (set_to_array l).
Proof. apply dedupe_from_NoDup. Qed.

Lemma dedupe_from_incl_nodup seen l :
  List.NoDup l -> (forall x, In x l -> ~ In x seen) -> dedupe_from seen l = l.
Proof.
  intros Hnd. revert seen; induction Hnd as [|y l Hy _ IH]; intros seen Hs; [done|].
  cbn. destruct (includes seen y) eqn:E.
  - apply includes_spec in E. exfalso. apply (Hs y); [by left | done].
  - f_equal. apply IH. intros x Hx [->|Hx']; [done|]. apply (Hs x); [by right|done].
Qed.

Lemma set_to_array_id l : List.NoDup l -> set_to_array l = l.
Proof. intros H. apply dedupe_from_incl_nodup; [done | cbn; tauto]. Qed.

Lemma find_In (f : A -> bool) l x : List.find f l = Some x -> In x l /\ f x = true.
Proof. apply find_some. Qed.
End Arrays.

Arguments includes : simpl never.

Lemma forallb_map {A B} (f : B -> bool) (g : A -> B) l :
  forallb f (map g l) = forallb (fun x => f (g x)) l.
Proof. induction l as [|x l IH]; [done|]. cbn. by rewrite IH. Qed.

Lemma NoDup_map_inj {A B} (f : A -> B) l x y :
  List.NoDup (map f l) -> In x l -> In y l -> f x = f y -> x = y.
Proof.
  induction l as [|z l IH]; cbn; [done|]. intros Hnd Hx Hy Hf.
  inversion_clear Hnd as [|? ? Hni Hnd'].
  destruct Hx as [->|Hx], Hy as [->|Hy]; [done| | |by apply IH].
  - exfalso. apply Hni. rewrite Hf. by apply in_map.
  - exfalso. apply Hni. rewrite <- Hf. by apply in_map.
Qed.

Lemma filter_Permutation {A} (f : A -> bool) l l' :
  Permutation l l' -> Permutation (js_filter f l) (js_filter f l').
Proof.
  induction 1 as [|x l l' _ IH|x y l|]; cbn; [done|by destruct (f x); [constructor|]| |by etrans].
  destruct (f x), (f y); try done. constructor.
Qed.

Lemma Permutation_concat {A} (l l' : list (list A)) :
  Permutation l l' -> Permutation (concat l) (concat l').
Proof.
  induction 1 as [|x l l' _ IH|x y l|l1 l2 l3 _ IH1 _ IH2]; cbn; [done| | |by etrans].
  - by apply Permutation_app_head.
  - rewrite !app_assoc. apply Permutation_app_tail, Permutation_app_comm.
Qed.

Lemma filter_filter {A} (f g : A -> bool) l :
  js_filter f (js_filter g l) = js_filter (fun x => g x && f x) l.
Proof.
  induction l as [|x l IH]; [done|]. cbn. destruct (g x); cbn; [destruct (f x)|]; by rewrite IH.
Qed.

Lemma filter_nil {A} (f : A -> bool) l : js_filter f l = [] <-> forall x, In x l -> f x = false.
Proof.
  induction l as [|x l IH]; cbn; [naive_solver|]. destruct (f x) eqn:E.
  - split; [done|]. intros H. specialize (H x (or_introl eq_refl)). congruence.
  - rewrite IH. naive_solver.
Qed.

Lemma filter_singleton {A} (f : A -> bool) l x :
  js_filter f l = [x] <-> exists l1 l2, l = l1 ++ x :: l2 /\ f x = true /\
                            forall y, In y (l1 ++ l2) -> f y = false.
Proof.
  split.
  - induction l as [|y l IH]; cbn; [done|]. destruct (f y) eqn:E.
    + intros [= -> H]. exists [], l. repeat split; [done|]. by apply filter_nil.
    + intros H. destruct (IH H) as (l1 & l2 & -> & Hx & Hl). exists (y :: l1), l2.
      repeat split; [done|]. intros z [<-|Hz]; auto.
  - intros (l1 & l2 & -> & Hx & Hl). rewrite List.filter_app. cbn. rewrite Hx.
    rewrite (proj2 (filter_nil f l1)), (proj2 (filter_nil f l2)); [done|..];
      intros y Hy; apply Hl, in_app_iff; tauto.
Qed.

(** [Math.max(...l)] of a list that is not empty. *)
Definition math_max (l : list Z) : Z :=
  match l with [] => 0 | x :: l' => fold_left Z.max l' x end.

Lemma fold_max_spec l x : (In (fold_left Z.max l x) (x :: l)) /\
  forall y, In y (x :: l) -> y <= fold_left Z.max l x.
Proof.
  revert x; induction l as [|z l IH]; intros x; cbn [fold_left].
  - split; [by left|]. intros y [->|[]]. lia.
  - destruct (IH (Z.max x z)) as [Hin Hle]. split.
    + destruct Hin as [Heq|Hin]; [|cbn; tauto]. rewrite <- Heq.
      destruct (Z.max_spec x z) as [[_ ->]|[_ ->]]; cbn; tauto.
    + intros y Hy. assert (Hm : Z.max x z <= fold_left Z.max l (Z.max x z)) by (apply Hle; by left).
      destruct Hy as [->|[->|Hy]]; [lia|lia|]. apply Hle. by right.
Qed.

Lemma math_max_spec l : l <> [] -> In (math_max l) l /\ forall y, In y l -> y <= math_max l.
Proof. destruct l as [|x l]; [done|]. intros _. apply fold_max_spec. Qed.

(** The elements of greatest rank. *)
Definition of_max_rank {A} (rank : A -> Z) (l : list A) : list A :=
  js_filter (fun x => rank x =? math_max (map rank l)) l.

Section MaxRank.
Context {A : Type} (rank : A -> Z).

Lemma of_max_rank_In x l :
  In x (of_max_rank rank l) <-> In x l /\ forall y, In y l -> rank y <= rank x.
Proof.
  unfold of_max_rank. rewrite filter_In, Z.eqb_eq. split.
  - intros [Hx ->]. split; [done|]. intros y Hy. apply math_max_spec; [|by apply in_map].
    by destruct l.
  - intros [Hx Hle]. split; [done|].
    destruct (math_max_spec (map rank l)) as [Hin Hmax]; [by destruct l|].
    apply in_map_iff in Hin as (y & Hy & Hin). specialize (Hle y Hin).
    specialize (Hmax (rank x) (in_map rank l x Hx)). lia.
Qed.

(** One element ranks above all others, among those of the list that pass a test. *)
Lemma of_max_rank_singleton (p : A -> bool) l x :
  of_max_rank rank (js_filter p l) = [x] <->
  exists l1 l2, l = l1 ++ x :: l2 /\ p x = true /\
    forall y, In y (l1 ++ l2) -> p y = true -> rank y < rank x.
Proof.
  unfold of_max_rank. rewrite filter_filter, filter_singleton. set (m := js_filter p l).
  assert (Hm : forall y, In y m <-> In y l /\ p y = true) by (intros y; apply filter_In).
  assert (Hmax : m <> [] -> In (math_max (map rank m)) (map rank m) /\
                   forall y, In y m -> rank y <= math_max (map rank m)).
  { intros Hne. destruct (math_max_spec (map rank m)) as [H1 H2]; [by destruct m|].
    split; [done|]. intros y Hy. by apply H2, in_map. }
  split; intros (l1 & l2 & Hl & Hx & Hy); exists l1, l2; (split; [done|]).
  - bool_prop. split; [done|]. intros y Hin Hp. specialize (Hy y Hin). rewrite Hp in Hy. cbn in Hy.
    bool_prop. assert (Hym : In y m).
    { apply Hm. split; [|done]. rewrite Hl, in_app_iff. cbn. apply in_app_iff in Hin. tauto. }
    destruct Hmax as [_ Hle]; [by destruct m|]. specialize (Hle y Hym). lia.
  - assert (Hxm : In x m) by (apply Hm; split; [rewrite Hl; apply in_elt|done]).
    destruct Hmax as [Hin Hle]; [by destruct m|]. apply in_map_iff in Hin as (z & Hz & Hzm).
    apply Hm in Hzm as [Hzl Hzp]. specialize (Hle x Hxm).
    assert (Hxz : rank x = rank z).
    { rewrite Hl in Hzl. apply in_app_iff in Hzl as [?|[->|?]]; [|done|];
        (assert (rank z < rank x) by (apply Hy; [apply in_app_iff; tauto|done])); lia. }
    split; [rewrite Hx; cbn; apply Z.eqb_eq; lia|]. intros y Hin.
    destruct (p y) eqn:Hp; [|done]. cbn. apply Z.eqb_neq. specialize (Hy y Hin Hp). lia.
Qed.

Lemma of_max_rank_nonempty l : l <> [] -> of_max_rank rank l <> [].
Proof.
  intros Hl. destruct (math_max_spec (map rank l)) as [Hin Hmax]; [by destruct l|].
  apply in_map_iff in Hin as (y & Hy & Hin).
  assert (Hy' : In y (of_max_rank rank l)).
  { apply of_max_rank_In. split; [done|]. intros z Hz. rewrite Hy. by apply Hmax, in_map. }
  by destruct (of_max_rank rank l).
Qed.

Lemma math_max_perm l l' : Permutation l l' -> math_max l = math_max l'.
Proof.
  intros Hp. destruct l as [|x l].
  - by apply Permutation_nil in Hp as ->.
  - destruct (math_max_spec (x :: l)) as [H1 H2]; [done|].
    destruct (math_max_spec l') as [H3 H4]; [intros ->; symmetry in Hp; by apply Permutation_nil in Hp|].
    apply (Permutation_in _ Hp) in H1. apply (Permutation_in _ (Permutation_sym Hp)) in H3.
    specialize (H2 _ H3). specialize (H4 _ H1). lia.
Qed.

Lemma of_max_rank_perm l l' : Permutation l l' ->
  Permutation (of_max_rank rank l) (of_max_rank rank l').
Proof.
  intros Hp. unfold of_max_rank. rewrite (math_max_perm _ _ (Permutation_map rank Hp)).
  by apply filter_Permutation.
Qed.
End MaxRank.

(** A stable insertion sort: what [Array.prototype.sort] does with a comparator
    that is a total preorder, [le x y] standing for [compare(x, y) <= 0]. *)
Section Sort.
Context {A : Type} (le : A -> A -> bool).

Fixpoint insert_sorted (x : A) (l : list A) : list A :=
  match l with
  | [] => [x]
  | y :: l' => if le x y then x :: l else y :: insert_sorted x l'
  end.
Fixpoint sort_by (l : list A) : list A :=
  match l with
  | [] => []
  | x :: l' => insert_sorted x (sort_by l')
  end.

Lemma insert_sorted_perm x l : Permutation (x :: l) (insert_sorted x l).
Proof.
  induction l as [|y l IH]; cbn; [done|]. destruct (le x y); [done|].
  rewrite perm_swap. by constructor.
Qed.
Lemma sort_by_perm l : Permutation l (sort_by l).
Proof.
  induction l as [|x l IH]; cbn; [done|].
  rewrite <- insert_sorted_perm. by constructor.
Qed.
Lemma sort_by_In x l : In x (sort_by l) <-> In x l.
Proof.
  split; apply Permutation_in; [symmetry|]; apply sort_by_perm.
Qed.

Context (le_total : forall x y, le x y = true \/ le y x = true).
Context (le_trans : forall x y z, le x y = true -> le y z = true -> le x z = true).

Lemma insert_sorted_sorted x l :
  StronglySorted (fun a b => le a b = true) l ->
  StronglySorted (fun a b => le a b = true) (insert_sorted x l).
Proof.
  induction 1 as [|y l Hl IH Hy]; cbn; [repeat constructor|].
  destruct (le x y) eqn:E.
  - constructor; [by constructor|]. constructor; [done|].
    rewrite List.Forall_forall in *. eauto.
  - constructor; [done|]. rewrite List.Forall_forall in *. intros z Hz.
    apply (Permutation_in z (Permutation_sym (insert_sorted_perm x l))) in Hz.
    destruct Hz as [<-|Hz]; [|eauto]. destruct (le_total x y); congruence.
Qed.
Lemma sort_by_sorted l : StronglySorted (fun a b => le a b = true) (sort_by l).
Proof. induction l; cbn; [constructor | by apply insert_sorted_sorted]. Qed.
End Sort.

(** Sorting forgets the order of its input, where the order is antisymmetric on it. *)
Lemma sort_by_canonical {A} (le : A -> A -> bool) l l' :
  (forall x y, le x y = true \/ le y x = true) ->
  (forall x y z, le x y = true -> le y z = true -> le x z = true) ->
  (forall x y, In x l -> In y l -> le x y = true -> le y x = true -> x = y) ->
  Permutation l l' -> sort_by le l = sort_by le l'.
Proof.
  intros Htot Htr Hanti Hp.
  apply (StronglySorted_unique_strong (fun a b => le a b = true)).
  - intros x y Hx Hy. rewrite list_elem_of_In, sort_by_In in Hx, Hy.
    apply Hanti; [done|]. by apply (Permutation_in y (Permutation_sym Hp)).
  - by apply sort_by_sorted.
  - by apply sort_by_sorted.
  - by rewrite <- !sort_by_perm.
Qed.

(** A sorted list is left as it is. *)
Lemma sort_by_sorted_id {A} (le : A -> A -> bool) l :
  StronglySorted (fun a b => le a b = true) l -> sort_by le l = l.
Proof.
  induction 1 as [|x l _ IH Hx]; [done|]. cbn. rewrite IH.
  destruct Hx as [|y l Hxy _]; [done|]. cbn. by rewrite Hxy.
Qed.
