(* ===== verification/JsMap.v ===== *)
(** * JsMap: the ECMAScript [Map] as an insertion-ordered association list

    [set] on a present key keeps the key's position, [set] on a new key appends, as the
    language prescribes; [values()] and [entries()] enumerate in that order, which
    [evaluateCg4Quorum] and the LINE trackers observe. *)
From stdpp Require Import base tactics list.
From Stdlib Require Import ZArith Lia.
From S2P Require Import Prelude.

Ltac map_cases := repeat (cbn in *; case_bool_decide; subst); cbn in *; try naive_solver.

Section JsMap.
Context {K V : Type} `{EqDecision K}.
Implicit Types (m : list (K * V)) (k : K) (v : V).

Fixpoint map_get k m : option V :=
  match m with
  | [] => None
  | (k', v) :: m' => if bool_decide (k' = k) then Some v else map_get k m'
  end.

Definition map_has k m : bool :=
  match map_get k m with Some _ => true | None => false end.

Fixpoint map_set k v m : list (K * V) :=
  match m with
  | [] => [(k, v)]
  | (k', v') :: m' =>
      if bool_decide (k' = k) then (k', v) :: m' else (k', v') :: map_set k v m'
  end.

Fixpoint map_delete k m : list (K * V) :=
  match m with
  | [] => []
  | (k', v') :: m' => if bool_decide (k' = k) then map_delete k m' else (k', v') :: map_delete k m'
  end.

Definition map_keys m : list K := map fst m.
Definition map_values m : list V := map snd m.
Definition map_size m : Z := Z.of_nat (length m).

Lemma map_get_set_eq k v m : map_get k (map_set k v m) = Some v.
Proof. induction m as [|[k' v'] m IH]; cbn; map_cases. Qed.

Lemma map_get_set_ne k k' v m : k <> k' -> map_get k' (map_set k v m) = map_get k' m.
Proof.
  intros Hne. induction m as [|[k1 v1] m IH]; cbn; map_cases.
Qed.

Lemma map_get_delete_eq k m : map_get k (map_delete k m) = None.
Proof. induction m as [|[k' v'] m IH]; cbn; map_cases. Qed.

Lemma map_get_delete_ne k k' m : k <> k' -> map_get k' (map_delete k m) = map_get k' m.
Proof.
  intros Hne. induction m as [|[k1 v1] m IH]; cbn; map_cases.
Qed.

Lemma map_get_In k v m : map_get k m = Some v -> In (k, v) m.
Proof. induction m as [|[k' v'] m IH]; cbn; [done|]; map_cases. Qed.

Lemma map_get_None k m : map_get k m = None <-> ~ In k (map_keys m).
Proof. induction m as [|[k' v'] m IH]; cbn; [tauto|]; map_cases. Qed.

Lemma map_set_keys_In k v m k' : In k' (map_keys (map_set k v m)) <-> k' = k \/ In k' (map_keys m).
Proof.
  induction m as [|[k1 v1] m IH]; cbn; [naive_solver|]; map_cases.
Qed.

Lemma map_set_In k v m k' v' :
  In (k', v') (map_set k v m) -> (k' = k /\ v' = v) \/ In (k', v') m.
Proof.
  induction m as [|[k1 v1] m IH]; cbn; [naive_solver|]; map_cases.
Qed.

Lemma map_delete_In k m k' v' : In (k', v') (map_delete k m) -> In (k', v') m /\ k' <> k.
Proof. induction m as [|[k1 v1] m IH]; cbn; [done|]; map_cases. Qed.

Lemma map_delete_keys_In k m k' :
  In k' (map_keys (map_delete k m)) -> In k' (map_keys m) /\ k' <> k.
Proof. induction m as [|[k1 v1] m IH]; cbn; [done|]; map_cases. Qed.

(** A [Map] never holds a key twice. *)
Definition map_wf m : Prop := List.NoDup (map_keys m).

Lemma map_set_wf k v m : map_wf m -> map_wf (map_set k v m).
Proof.
  unfold map_wf. induction m as [|[k1 v1] m IH]; cbn; intros H.
  - repeat constructor. cbn. tauto.
  - inversion H as [|? ? Hni Hnd]; subst. case_bool_decide; cbn; [done|].
    constructor; [|by apply IH]. fold (map_keys (map_set k v m)).
    rewrite map_set_keys_In. naive_solver.
Qed.

Lemma map_delete_wf k m : map_wf m -> map_wf (map_delete k m).
Proof.
  unfold map_wf. induction m as [|[k1 v1] m IH]; cbn; intros H; [done|].
  inversion H as [|? ? Hni Hnd]; subst. case_bool_decide; cbn; [by apply IH|].
  constructor; [|by apply IH]. intros Hin. apply map_delete_keys_In in Hin. naive_solver.
Qed.

Lemma map_get_wf k v m : map_wf m -> In (k, v) m -> map_get k m = Some v.
Proof.
  unfold map_wf. induction m as [|[k1 v1] m IH]; cbn; intros H Hin; [done|].
  inversion H as [|? ? Hni Hnd]; subst. destruct Hin as [[= -> ->]|Hin].
  - by rewrite bool_decide_eq_true_2.
  - rewrite bool_decide_eq_false_2; [by apply IH|]. intros ->.
    apply Hni. apply in_map_iff. by exists (k, v).
Qed.

Lemma map_has_spec k m : map_has k m = true <-> In k (map_keys m).
Proof.
  unfold map_has. destruct (map_get k m) eqn:E.
  - split; [|done]. intros _. apply map_get_In in E. apply in_map_iff. by eexists (_, _).
  - apply map_get_None in E. split; [done|tauto].
Qed.

Lemma map_set_size_new k v m : map_has k m = false -> map_size (map_set k v m) = map_size m + 1.
Proof.
  unfold map_has, map_size. induction m as [|[k1 v1] m IH]; cbn; [done|].
  case_bool_decide; cbn; [done|]. intros Hh. specialize (IH Hh). lia.
Qed.

Lemma map_set_size_old k v m : map_has k m = true -> map_size (map_set k v m) = map_size m.
Proof.
  unfold map_has, map_size. induction m as [|[k1 v1] m IH]; cbn; [done|].
  case_bool_decide; cbn; [done|]. intros Hh. specialize (IH Hh). lia.
Qed.

Lemma map_delete_size k m : map_size (map_delete k m) <= map_size m.
Proof.
  unfold map_size. induction m as [|[k1 v1] m IH]; cbn; [done|].
  case_bool_decide; cbn; lia.
Qed.
End JsMap.

Create HintDb jsmap discriminated.
#[export] Hint Resolve map_set_wf map_delete_wf map_get_set_eq map_get_delete_eq : jsmap.
#[export] Hint Rewrite @map_get_set_eq @map_get_delete_eq : jsmap.
