(* ===== verification/Text.v ===== *)
(** * Text: the string operations the sources use

    A [string] is a sequence of UTF-16 code units below 256, one [ascii] each; every
    identifier, rule code, scope key and time of day of the modelled code lives there.
    [trim] removes the ECMAScript white space of that range. *)
From stdpp Require Import base tactics list strings.
From Stdlib Require Import ZArith Lia Ascii.
From S2P Require Import Prelude.

Open Scope string_scope.
Open Scope Z_scope.
Open Scope list_scope.

Definition code (c : ascii) : Z := Z.of_N (N_of_ascii c).

(** [TAB] [LF] [VT] [FF] [CR] [SP] [NBSP] *)
Definition is_space (c : ascii) : bool :=
  ((9 <=? code c) && (code c <=? 13)) || (code c =? 32) || (code c =? 160).

Fixpoint trim_start (s : string) : string :=
  match s with
  | String c s' => if is_space c then trim_start s' else s
  | EmptyString => s
  end.

Fixpoint trim_end (s : string) : string :=
  match s with
  | EmptyString => EmptyString
  | String c s' =>
      match trim_end s' with
      | EmptyString => if is_space c then EmptyString else String c EmptyString
      | t => String c t
      end
  end.

(** [s.trim()] *)
Definition trim (s : string) : string := trim_end (trim_start s).

(** [s.trim().length > 0] *)
Definition nonblank (s : string) : bool :=
  match trim s with EmptyString => false | _ => true end.

Fixpoint string_forall (p : ascii -> bool) (s : string) : bool :=
  match s with EmptyString => true | String c s' => p c && string_forall p s' end.

(** [s.split(sep)] for a one-character separator *)
Fixpoint split_char (sep : ascii) (s : string) : list string :=
  match s with
  | EmptyString => [EmptyString]
  | String c s' =>
      if Ascii.eqb c sep then EmptyString :: split_char sep s'
      else match split_char sep s' with
           | w :: ws => String c w :: ws
           | [] => [String c EmptyString]
           end
  end.

(** [parts.join(sep)] *)
Fixpoint join (sep : string) (l : list string) : string :=
  match l with
  | [] => EmptyString
  | [w] => w
  | w :: l' => w +:+ sep +:+ join sep l'
  end.

(** [s.slice(0, i)] and [s.slice(i + 1)] for [i = s.indexOf(c)]; [None] when [i < 0] *)
Fixpoint cut_at (c : ascii) (s : string) : option (string * string) :=
  match s with
  | EmptyString => None
  | String d s' =>
      if Ascii.eqb d c then Some (EmptyString, s')
      else match cut_at c s' with
           | Some (a, b) => Some (String d a, b)
           | None => None
           end
  end.

(** [s < t] on strings: by code unit. *)
Fixpoint str_lt (s t : string) : bool :=
  match s, t with
  | EmptyString, String _ _ => true
  | String a s', String b t' =>
      if Ascii.eqb a b then str_lt s' t' else code a <? code b
  | _, EmptyString => false
  end.

(** [Number(s)] on a string of decimal digits ([0] on the empty one); any other text is
    [NaN], [None] here. Fractions, exponents and hexadecimal literals do not occur in the
    texts the sources convert. *)
Definition is_digit (c : ascii) : bool := (48 <=? code c) && (code c <=? 57).
Fixpoint digits_value (acc : Z) (s : string) : option Z :=
  match s with
  | EmptyString => Some acc
  | String c s' => if is_digit c then digits_value (acc * 10 + (code c - 48)) s' else None
  end.
Definition js_number (s : string) : option Z := digits_value 0 (trim s).

(** Relational operators on numbers of which some may be [NaN]. *)
Definition num_ge (a b : option Z) : bool :=
  match a, b with Some x, Some y => y <=? x | _, _ => false end.
Definition num_gt (a b : option Z) : bool :=
  match a, b with Some x, Some y => y <? x | _, _ => false end.
Definition num_lt (a b : option Z) : bool := num_gt b a.
Definition num_le (a b : option Z) : bool := num_ge b a.

(** [String(n)] of an integer, and [padStart(w, '0')]. *)
Definition digit (d : Z) : ascii := ascii_of_N (Z.to_N (48 + d)).
Fixpoint show_fuel (fuel : nat) (n : Z) (acc : string) : string :=
  match fuel with
  | O => acc
  | S f =>
      let acc' := String (digit (n mod 10)) acc in
      if n / 10 =? 0 then acc' else show_fuel f (n / 10) acc'
  end.
Definition show_nonneg (n : Z) : string := show_fuel (S (Z.to_nat (Z.log2 n))) n "".
Definition show (n : Z) : string :=
  if n <? 0 then String "-"%char (show_nonneg (- n)) else show_nonneg n.
Fixpoint zeros (n : nat) : string :=
  match n with O => EmptyString | S n' => String "0"%char (zeros n') end.
Definition pad_start (w : nat) (s : string) : string := zeros (w - String.length s) +:+ s.

(** [toLowerCase] of ASCII text: its upper case letters are those of A to Z. *)
Definition lower_char (c : ascii) : ascii :=
  if (65 <=? code c) && (code c <=? 90) then ascii_of_N (Z.to_N (code c + 32)) else c.
Fixpoint toLowerCase (s : string) : string :=
  match s with EmptyString => EmptyString | String c s' => String (lower_char c) (toLowerCase s') end.

(** [/[set]/.test(s)] for a character class *)
Definition contains_any (p : ascii -> bool) (s : string) : bool :=
  negb (string_forall (fun c => negb (p c)) s).

Lemma append_cons c s t : String c s +:+ t = String c (s +:+ t).
Proof. done. Qed.

Lemma append_nil_l s : EmptyString +:+ s = s.
Proof. done. Qed.

Lemma append_nil_r s : s +:+ EmptyString = s.
Proof. induction s as [|c s IH]; [done|]. by rewrite append_cons, IH. Qed.

Lemma split_char_free sep s :
  string_forall (fun c => negb (Ascii.eqb c sep)) s = true -> split_char sep s = [s].
Proof.
  induction s as [|c s IH]; cbn; [done|]. intros H. bool_prop.
  rewrite H. rewrite IH; done.
Qed.

Lemma split_char_app sep s t :
  string_forall (fun c => negb (Ascii.eqb c sep)) s = true ->
  split_char sep (s +:+ String sep t) = s :: split_char sep t.
Proof.
  induction s as [|c s IH].
  - intros _. rewrite append_nil_l. cbn. by rewrite Ascii.eqb_refl.
  - rewrite append_cons. cbn. intros H. bool_prop. rewrite H, IH; done.
Qed.

(** Splitting undoes joining when no part holds the separator. *)
Lemma split_join sep l :
  l <> [] ->
  Forall (fun w => string_forall (fun c => negb (Ascii.eqb c sep)) w = true) l ->
  split_char sep (join (String sep EmptyString) l) = l.
Proof.
  intros Hne Hl. induction Hl as [|w l Hw Hl IH]; [done|].
  destruct l as [|w' l']; [by apply split_char_free|].
  change (join ?x (w :: w' :: l')) with (w +:+ x +:+ join x (w' :: l')).
  rewrite (append_cons sep), append_nil_l, split_char_app by done. f_equal. by apply IH.
Qed.

Lemma cut_at_app c s t :
  string_forall (fun d => negb (Ascii.eqb d c)) s = true ->
  cut_at c (s +:+ String c t) = Some (s, t).
Proof.
  induction s as [|d s IH].
  - intros _. rewrite append_nil_l. cbn. by rewrite Ascii.eqb_refl.
  - rewrite append_cons. cbn. intros H. bool_prop. rewrite H, IH; done.
Qed.

Lemma cut_at_eq c s a b : cut_at c s = Some (a, b) -> s = a +:+ String c b.
Proof.
  revert a; induction s as [|d s IH]; intros a; cbn; [done|].
  destruct (Ascii.eqb_spec d c) as [->|].
  - by intros [= <- <-].
  - destruct (cut_at c s) as [[a' b']|] eqn:E; [|done]. intros [= <- <-].
    rewrite append_cons. f_equal. by apply IH.
Qed.

Lemma append_assoc s t u : (s +:+ t) +:+ u = s +:+ (t +:+ u).
Proof. induction s as [|c s IH]; [done|]. by rewrite !append_cons, IH. Qed.

Lemma append_inj s t u : s +:+ t = s +:+ u -> t = u.
Proof. induction s as [|c s IH]; [done|]. rewrite !append_cons. intros [=]. by apply IH. Qed.

Lemma string_forall_app p s t :
  string_forall p (s +:+ t) = string_forall p s && string_forall p t.
Proof.
  induction s as [|c s IH]; [done|]. rewrite append_cons. cbn. rewrite IH. by rewrite andb_assoc.
Qed.

(** ** Decimal text *)

Lemma code_digit d : 0 <= d < 10 -> code (digit d) = 48 + d.
Proof.
  intros H. unfold code, digit. rewrite N_ascii_embedding by lia. lia.
Qed.

Lemma is_digit_digit d : 0 <= d < 10 -> is_digit (digit d) = true.
Proof.
  intros H. unfold is_digit. rewrite code_digit by done. apply andb_true_intro.
  split; apply Z.leb_le; lia.
Qed.

Lemma digit_is_space d : 0 <= d < 10 -> is_space (digit d) = false.
Proof.
  intros H. unfold is_space. rewrite code_digit by done.
  destruct (Z.leb_spec (48 + d) 13), (Z.eqb_spec (48 + d) 32), (Z.eqb_spec (48 + d) 160); try lia.
Qed.

Definition all_digits (s : string) : Prop := string_forall is_digit s = true.

Lemma show_fuel_digits f n acc : 0 <= n -> all_digits acc -> all_digits (show_fuel f n acc).
Proof.
  unfold all_digits. revert n acc; induction f as [|f IH]; intros n acc Hn Ha; [done|].
  pose proof (Z.mod_pos_bound n 10 ltac:(lia)).
  cbn [show_fuel]. destruct (n / 10 =? 0); [|apply IH; [apply Z.div_pos; lia|]];
    cbn [string_forall]; by rewrite is_digit_digit, Ha by lia.
Qed.

Lemma show_fuel_value f n acc :
  0 <= n < 10 ^ Z.of_nat f -> digits_value 0 (show_fuel f n acc) = digits_value n acc.
Proof.
  revert n acc; induction f as [|f IH]; intros n acc Hn.
  - cbn in *. f_equal. lia.
  - cbn [show_fuel]. pose proof (Z.mod_pos_bound n 10 ltac:(lia)).
    pose proof (Z.div_mod n 10 ltac:(lia)) as Hdm.
    assert (Hd : forall a, digits_value a (String (digit (n mod 10)) acc)
                           = digits_value (a * 10 + n mod 10) acc).
    { intros a. cbn [digits_value]. rewrite is_digit_digit, code_digit by lia. f_equal. lia. }
    destruct (Z.eqb_spec (n / 10) 0).
    + rewrite Hd. f_equal. lia.
    + rewrite IH, Hd; [f_equal; lia|]. split; [apply Z.div_pos; lia|].
      apply Z.div_lt_upper_bound; [lia|]. rewrite Nat2Z.inj_succ, Z.pow_succ_r in Hn; lia.
Qed.

Lemma show_nonneg_value n : 0 <= n -> digits_value 0 (show_nonneg n) = Some n.
Proof.
  intros Hn. unfold show_nonneg. rewrite show_fuel_value; [done|]. split; [done|].
  rewrite Nat2Z.inj_succ, Z2Nat.id by apply Z.log2_nonneg.
  destruct (Z.eq_dec n 0) as [->|]; [cbn; lia|].
  apply Z.lt_le_trans with (2 ^ Z.succ (Z.log2 n)); [apply Z.log2_spec; lia|].
  apply Z.pow_le_mono_l. lia.
Qed.

Lemma trim_all_digits s : all_digits s -> trim s = s.
Proof.
  unfold all_digits, trim. intros H.
  assert (Hns : forall c, is_digit c = true -> is_space c = false).
  { intros c Hc. unfold is_digit, is_space in *. bool_prop.
    destruct (Z.leb_spec (code c) 13), (Z.eqb_spec (code c) 32), (Z.eqb_spec (code c) 160);
      try lia; done. }
  replace (trim_start s) with s.
  - induction s as [|c s IH]; [done|]. cbn in H. bool_prop. cbn. rewrite IH by done.
    destruct s; [by rewrite Hns|done].
  - destruct s as [|c s]; [done|]. cbn in H. bool_prop. cbn. by rewrite Hns.
Qed.

Lemma zeros_digits n : all_digits (zeros n).
Proof. induction n; [done|]. unfold all_digits. cbn. done. Qed.

Lemma zeros_value n s : digits_value 0 (zeros n +:+ s) = digits_value 0 s.
Proof. induction n as [|n IH]; [done|]. cbn [zeros]. rewrite append_cons. cbn. done. Qed.

Lemma show_digits n : 0 <= n -> all_digits (show n).
Proof.
  intros H. unfold show. destruct (Z.ltb_spec n 0); [lia|]. by apply show_fuel_digits.
Qed.

Lemma pad_show_digits w n : 0 <= n -> all_digits (pad_start w (show n)).
Proof.
  intros H. unfold all_digits, pad_start. rewrite string_forall_app.
  by rewrite (zeros_digits _), (show_digits n H).
Qed.

(** [Number(String(n)) = n], padded or not. *)
Lemma js_number_show n : 0 <= n -> js_number (show n) = Some n.
Proof.
  intros H. unfold js_number. rewrite trim_all_digits by by apply show_digits.
  unfold show. destruct (Z.ltb_spec n 0); [lia|]. by apply show_nonneg_value.
Qed.

Lemma js_number_pad_show w n : 0 <= n -> js_number (pad_start w (show n)) = Some n.
Proof.
  intros H. unfold js_number. rewrite trim_all_digits by by apply pad_show_digits.
  unfold pad_start. rewrite zeros_value.
  unfold show. destruct (Z.ltb_spec n 0); [lia|]. by apply show_nonneg_value.
Qed.

Lemma all_digits_free s c : all_digits s -> is_digit c = false ->
  string_forall (fun d => negb (Ascii.eqb d c)) s = true.
Proof.
  unfold all_digits. intros H Hc. induction s as [|d s IH]; [done|]. cbn in *. bool_prop.
  rewrite IH by done. destruct (Ascii.eqb_spec d c); [congruence|done].
Qed.

(** ** The order of strings *)

Lemma code_inj a b : code a = code b -> a = b.
Proof.
  unfold code. intros H. apply N2Z.inj in H.
  by rewrite <- (ascii_N_embedding a), H, ascii_N_embedding.
Qed.

Lemma str_lt_irrefl s : str_lt s s = false.
Proof. induction s as [|a s IH]; [done|]. cbn. by rewrite Ascii.eqb_refl. Qed.

Lemma str_lt_trans s t u : str_lt s t = true -> str_lt t u = true -> str_lt s u = true.
Proof.
  revert t u; induction s as [|a s IH]; intros [|b t] [|c u]; cbn; try done.
  destruct (Ascii.eqb_spec a b) as [->|Hab], (Ascii.eqb_spec b c) as [->|Hbc];
    rewrite ?Ascii.eqb_refl; try done.
  - eauto.
  - by destruct (Ascii.eqb_spec a c).
  - rewrite !Z.ltb_lt. intros H1 H2. destruct (Ascii.eqb_spec a c) as [->|]; [lia|].
    apply Z.ltb_lt. lia.
Qed.

Lemma str_lt_total s t : str_lt s t = true \/ s = t \/ str_lt t s = true.
Proof.
  revert t; induction s as [|a s IH]; intros [|b t]; cbn; auto.
  destruct (Ascii.eqb_spec a b) as [->|Hab].
  - rewrite Ascii.eqb_refl. destruct (IH t) as [?|[->|?]]; auto.
  - destruct (Ascii.eqb_spec b a) as [->|_]; [done|]. rewrite !Z.ltb_lt.
    destruct (Z.lt_total (code a) (code b)) as [?|[E|?]]; auto. by apply code_inj in E.
Qed.

(** [s <= t], the negation of [t < s] *)
Definition str_le (s t : string) : bool := negb (str_lt t s).

Lemma str_le_total s t : str_le s t = true \/ str_le t s = true.
Proof.
  unfold str_le. destruct (str_lt t s) eqn:E1, (str_lt s t) eqn:E2; auto.
  pose proof (str_lt_trans _ _ _ E1 E2) as H. by rewrite str_lt_irrefl in H.
Qed.

Lemma str_le_trans s t u : str_le s t = true -> str_le t u = true -> str_le s u = true.
Proof.
  unfold str_le. rewrite !negb_true_iff. intros H1 H2.
  destruct (str_lt u s) eqn:E; [|done]. exfalso.
  destruct (str_lt_total s t) as [Hst|[->|Hst]]; [|congruence|congruence].
  pose proof (str_lt_trans _ _ _ E Hst). congruence.
Qed.

Lemma str_le_antisym s t : str_le s t = true -> str_le t s = true -> s = t.
Proof.
  unfold str_le. rewrite !negb_true_iff. intros H1 H2.
  destruct (str_lt_total s t) as [?|[?|?]]; congruence.
Qed.

(** ** Trimming twice *)

Lemma trim_end_idem s : trim_end (trim_end s) = trim_end s.
Proof.
  induction s as [|c s IH]; [done|]. cbn. destruct (trim_end s) as [|d t] eqn:E.
  - destruct (is_space c) eqn:Ec; [done|]. cbn. by rewrite Ec.
  - change (trim_end (String c (String d t))) with
      (match trim_end (String d t) with
       | EmptyString => if is_space c then EmptyString else String c EmptyString
       | t' => String c t' end).
    by rewrite IH.
Qed.

Lemma trim_end_head c s : is_space c = false -> exists t, trim_end (String c s) = String c t.
Proof. intros Hc. cbn. destruct (trim_end s); [rewrite Hc|]; eauto. Qed.

Lemma trim_start_head s :
  trim_start s = EmptyString \/ exists c t, trim_start s = String c t /\ is_space c = false.
Proof.
  induction s as [|c s IH]; [by left|]. cbn. destruct (is_space c) eqn:E; [done|].
  right. by exists c, s.
Qed.

Lemma trim_idem s : trim (trim s) = trim s.
Proof.
  unfold trim. destruct (trim_start_head s) as [->|(c & t & -> & Hc)]; [done|].
  assert (Hi := trim_end_idem (String c t)).
  destruct (trim_end_head c t Hc) as [u Hu]. rewrite Hu in *. cbn [trim_start]. by rewrite Hc.
Qed.

Lemma string_forall_join p sep l :
  string_forall p sep = true -> Forall (fun s => string_forall p s = true) l ->
  string_forall p (join sep l) = true.
Proof.
  intros Hs. induction 1 as [|s l Hx Hl IH]; [done|].
  destruct l as [|s' l]; [done|]. change (join sep (s :: s' :: l)) with (s +:+ (sep +:+ join sep (s' :: l))).
  by rewrite !string_forall_app, Hx, Hs, IH.
Qed.

Lemma join_inj sep l l' :
  l <> [] -> l' <> [] ->
  Forall (fun w => string_forall (fun c => negb (Ascii.eqb c sep)) w = true) l ->
  Forall (fun w => string_forall (fun c => negb (Ascii.eqb c sep)) w = true) l' ->
  join (String sep EmptyString) l = join (String sep EmptyString) l' -> l = l'.
Proof.
  intros Hl Hl' Hf Hf' H. apply (f_equal (split_char sep)) in H. by rewrite !split_join in H.
Qed.

Lemma string_forall_impl (p q : ascii -> bool) s :
  (forall c, p c = true -> q c = true) -> string_forall p s = true -> string_forall q s = true.
Proof.
  intros H. induction s as [|c s IH]; [done|]. cbn. intros Hs. bool_prop. rewrite H, IH; done.
Qed.

(** ** Decimal texts of any integer *)

Definition int_char (c : ascii) : bool := is_digit c || Ascii.eqb c "-".

Lemma show_int z : string_forall int_char (show z) = true.
Proof.
  assert (Hd : forall n, 0 <= n -> string_forall int_char (show_nonneg n) = true).
  { intros n Hn. eapply string_forall_impl; [|apply (show_fuel_digits _ n ""); [done|reflexivity]].
    intros c Hc. unfold int_char. by rewrite Hc. }
  unfold show. destruct (Z.ltb_spec z 0); [cbn|]; apply Hd; lia.
Qed.

Lemma show_inj z w : show z = show w -> z = w.
Proof.
  assert (Hd : forall n m, 0 <= n -> 0 <= m -> show_nonneg n = show_nonneg m -> n = m).
  { intros n m Hn Hm H. apply (f_equal (digits_value 0)) in H.
    rewrite !show_nonneg_value in H by done. congruence. }
  assert (Hm : forall n t, 0 <= n -> show_nonneg n <> String "-" t).
  { intros n t Hn H. apply (f_equal (digits_value 0)) in H. by rewrite show_nonneg_value in H. }
  unfold show. destruct (Z.ltb_spec z 0), (Z.ltb_spec w 0); intros H'.
  - injection H' as H'. apply Hd in H'; lia.
  - symmetry in H'. by apply Hm in H'.
  - by apply Hm in H'.
  - by apply Hd.
Qed.
