(* ===== verification/JsDate.v ===== *)
(** * JsDate: instants, the proleptic Gregorian calendar and time zones

    A [Date] is its time value in milliseconds since the epoch. The calendar functions are
    those of ECMAScript ([Date.UTC], [getUTCDay], [toISOString]). What is not fixed by the
    language, the time zone database behind [Intl.DateTimeFormat] and the text formats
    [Date.parse] accepts, is the class [Runtime]; [TimeZoneLaws] states the documented
    behaviour of the former that the theorems rely on. *)
From stdpp Require Import base tactics list strings.
From Stdlib Require Import ZArith Lia Ascii.
From S2P Require Import Prelude Text.

Open Scope string_scope.
Open Scope Z_scope.
Open Scope list_scope.

Definition MS_PER_MINUTE : Z := 60000.
Definition MS_PER_DAY : Z := 86400000.

(** Days from 1970-01-01 to a date of the proleptic Gregorian calendar, month in 1..12. *)
Definition days_from_civil (y m d : Z) : Z :=
  let y' := if m <=? 2 then y - 1 else y in
  let era := y' / 400 in
  let yoe := y' - era * 400 in
  let mp := if 2 <? m then m - 3 else m + 9 in
  let doy := (153 * mp + 2) / 5 + d - 1 in
  let doe := yoe * 365 + yoe / 4 - yoe / 100 + doy in
  era * 146097 + doe - 719468.

Definition civil_from_days (z0 : Z) : Z * Z * Z :=
  let z := z0 + 719468 in
  let era := z / 146097 in
  let doe := z - era * 146097 in
  let yoe := (doe - doe / 1460 + doe / 36524 - doe / 146096) / 365 in
  let doy := doe - (365 * yoe + yoe / 4 - yoe / 100) in
  let mp := (5 * doy + 2) / 153 in
  let d := doy - (153 * mp + 2) / 5 + 1 in
  let m := if mp <? 10 then mp + 3 else mp - 9 in
  (yoe + era * 400 + (if m <=? 2 then 1 else 0), m, d).

(** [Date.UTC(year, monthIndex, day, hour, minute, 0)] *)
Definition Date_UTC (year monthIndex day hour minute : Z) : Z :=
  let y := if (0 <=? year) && (year <=? 99) then 1900 + year else year in
  let y' := y + monthIndex / 12 in
  let m := monthIndex mod 12 + 1 in
  (days_from_civil y' m 1 + (day - 1)) * MS_PER_DAY + (hour * 60 + minute) * MS_PER_MINUTE.

(** [new Date(t).getUTCDay()], Sunday = 0 *)
Definition getUTCDay (t : Z) : Z := (t / MS_PER_DAY + 4) mod 7.

(** [toISOString()] for the years 0 to 9999 *)
Definition toISOString (t : Z) : string :=
  let '(y, m, d) := civil_from_days (t / MS_PER_DAY) in
  let ms := t mod MS_PER_DAY in
  pad_start 4 (show y) +:+ "-" +:+ pad_start 2 (show m) +:+ "-" +:+ pad_start 2 (show d) +:+ "T" +:+
  pad_start 2 (show (ms / 3600000)) +:+ ":" +:+ pad_start 2 (show (ms / 60000 mod 60)) +:+ ":" +:+
  pad_start 2 (show (ms / 1000 mod 60)) +:+ "." +:+ pad_start 3 (show (ms mod 1000)) +:+ "Z".

Lemma div_range a b lo hi : 0 < b -> lo * b <= a -> a < hi * b -> lo <= a / b < hi.
Proof.
  intros Hb Hlo Hhi. split; [apply Z.div_le_lower_bound; lia | apply Z.div_lt_upper_bound; lia].
Qed.

Section Calendar.
#[local] Ltac Zify.zify_post_hook ::= Z.div_mod_to_equations.

Lemma yoe_range doe : 0 <= doe < 146097 ->
  0 <= (doe - doe / 1460 + doe / 36524 - doe / 146096) / 365 < 400.
Proof. intros H. lia. Qed.

Lemma doy_range doe : 0 <= doe < 146097 ->
  let yoe := (doe - doe / 1460 + doe / 36524 - doe / 146096) / 365 in
  0 <= doe - (365 * yoe + yoe / 4 - yoe / 100) <= 365.
Proof. intros H. cbn. lia. Qed.

Lemma civil_round_trip z :
  let '(y, m, d) := civil_from_days z in
  days_from_civil y m d = z /\ 1 <= m <= 12 /\ 1 <= d <= 31.
Proof.
  unfold civil_from_days, days_from_civil.
  set (z' := z + 719468). set (era := z' / 146097). set (doe := z' - era * 146097).
  assert (Hdoe : 0 <= doe < 146097) by (subst doe era; lia).
  pose proof (yoe_range doe Hdoe) as Hyoe. pose proof (doy_range doe Hdoe) as Hdoy.
  cbv zeta in Hdoy.
  set (yoe := (doe - doe / 1460 + doe / 36524 - doe / 146096) / 365) in *.
  set (doy := doe - (365 * yoe + yoe / 4 - yoe / 100)) in *.
  set (mp := (5 * doy + 2) / 153).
  assert (Hmp : 0 <= mp <= 11) by (subst mp; lia).
  assert (Hd : 0 <= doy - (153 * mp + 2) / 5 <= 30) by (subst mp; lia).
  assert (Hz : z = era * 146097 + doe - 719468) by (subst doe; lia).
  clearbody era doe. clear z'.
  destruct (Z.ltb_spec mp 10).
  - destruct (Z.leb_spec (mp + 3) 2), (Z.ltb_spec 2 (mp + 3)); lia.
  - destruct (Z.leb_spec (mp - 9) 2), (Z.ltb_spec 2 (mp - 9)); lia.
Qed.
End Calendar.

(** The wall-clock minute of a local time, as [Date.UTC] of its fields gives it back. *)
Definition floor_minute (t : Z) : Z := t / MS_PER_MINUTE * MS_PER_MINUTE.

Record CivilParts := Civil {
  cv_year : Z; cv_month : Z; cv_day : Z; cv_hour : Z; cv_minute : Z; cv_weekday : Z;
}.

(** The calendar fields of a local time, Monday = 1 .. Sunday = 7. *)
Definition civil_parts (t : Z) : CivilParts :=
  let days := t / MS_PER_DAY in
  let '(y, m, d) := civil_from_days days in
  let minutes := t mod MS_PER_DAY / MS_PER_MINUTE in
  Civil y m d (minutes / 60) (minutes mod 60) ((days + 3) mod 7 + 1).

(** Instants from 1970 on have a year past 1600. *)
Lemma civil_year_after_epoch t : 0 <= t -> 1600 <= cv_year (civil_parts t).
Proof.
  intros Ht. unfold civil_parts, civil_from_days.
  assert (Hz : 0 <= t / MS_PER_DAY) by (apply Z.div_pos; [done|reflexivity]).
  set (z := t / MS_PER_DAY + 719468). set (era := z / 146097). set (doe := z - era * 146097).
  assert (Hera : 4 <= era) by (subst era z; apply Z.div_le_lower_bound; lia).
  assert (Hdoe : 0 <= doe < 146097).
  { subst doe era. pose proof (Z.div_mod z 146097 ltac:(lia)).
    pose proof (Z.mod_pos_bound z 146097 ltac:(lia)). lia. }
  pose proof (yoe_range doe Hdoe). cbn [cv_year]. destruct (_ <=? 2); lia.
Qed.

Lemma Date_UTC_plain y m d h mi :
  99 < y -> 1 <= m <= 12 ->
  Date_UTC y (m - 1) d h mi = days_from_civil y m d * MS_PER_DAY + (h * 60 + mi) * MS_PER_MINUTE.
Proof.
  intros Hy Hm. unfold Date_UTC. destruct (Z.leb_spec y 99); [lia|]. rewrite andb_false_r.
  replace ((m - 1) / 12) with 0 by (symmetry; apply Z.div_small; lia).
  rewrite Z.mod_small, Z.add_0_r by lia. replace (m - 1 + 1) with m by lia.
  f_equal. f_equal. unfold days_from_civil. cbv zeta. lia.
Qed.

Lemma Date_UTC_civil_parts t :
  99 < cv_year (civil_parts t) ->
  let p := civil_parts t in
  Date_UTC (cv_year p) (cv_month p - 1) (cv_day p) (cv_hour p) (cv_minute p) = floor_minute t.
Proof.
  unfold civil_parts. pose proof (civil_round_trip (t / MS_PER_DAY)) as H.
  destruct (civil_from_days (t / MS_PER_DAY)) as [[y m] d]. destruct H as (Hd & Hm & _).
  cbn. intros Hy. rewrite Date_UTC_plain by lia. rewrite Hd. unfold floor_minute.
  unfold MS_PER_DAY, MS_PER_MINUTE. clear.
  pose proof (Z.div_mod t 86400000 ltac:(lia)). pose proof (Z.mod_pos_bound t 86400000 ltac:(lia)).
  set (q := t / 86400000) in *. set (r := t mod 86400000) in *.
  rewrite (Z.mul_comm (r / 60000 / 60)), <- Z.div_mod by lia.
  replace t with (r + q * 1440 * 60000) by lia. rewrite Z.div_add by lia. lia.
Qed.

(** ** The host *)

(** What [formatToParts] yields, its numerals converted: [hour] may read 24 at midnight, and
    [weekday] is the English abbreviation. *)
Record IntlParts := Intl {
  in_year : Z; in_month : Z; in_day : Z; in_hour : Z; in_minute : Z; in_weekday : string;
}.

Class Runtime := {
  date_parse : string -> option Z;          (* [new Date(s).getTime()], [None] for [NaN] *)
  intl_time_zone_ok : string -> bool;       (* [new Intl.DateTimeFormat(.., {timeZone})] does not throw *)
  intl_parts : string -> Z -> IntlParts;
}.

Definition weekday_names : list string := ["Mon"; "Tue"; "Wed"; "Thu"; "Fri"; "Sat"; "Sun"].

Definition intl_of_civil (c : CivilParts) : IntlParts :=
  Intl (cv_year c) (cv_month c) (cv_day c) (cv_hour c) (cv_minute c)
       (nth (Z.to_nat (cv_weekday c - 1)) weekday_names "Mon").

(** A known zone shows the calendar fields of the instant shifted by the zone's offset at that
    instant, a whole number of minutes. *)
Class TimeZoneLaws (R : Runtime) := {
  tz_offset : string -> Z -> Z;
  tz_offset_minutes : forall tz t, intl_time_zone_ok tz = true ->
    tz_offset tz t mod MS_PER_MINUTE = 0;
  tz_parts : forall tz t, intl_time_zone_ok tz = true ->
    let c := civil_parts (t + tz_offset tz t) in
    intl_parts tz t = intl_of_civil c \/
    cv_hour c = 0 /\
    intl_parts tz t = intl_of_civil (Civil (cv_year c) (cv_month c) (cv_day c) 24
                                           (cv_minute c) (cv_weekday c));
}.

(** The years [toISOString] writes with four digits. *)
Definition iso_range (t : Z) : Prop := 0 <= cv_year (civil_parts t) <= 9999.

(** Parsing the format [toISOString] writes is fixed by the language: it gives the instant back. *)
Class IsoDates (R : Runtime) :=
  iso_dates : forall t, iso_range t -> date_parse (toISOString t) = Some t.

(** ** A host for the witnesses *)

(** Reads the text [toISOString] writes. *)
Definition parse_iso (s : string) : option Z :=
  '(y, s1) ← cut_at "-" s; '(m, s2) ← cut_at "-" s1; '(d, s3) ← cut_at "T" s2;
  '(h, s4) ← cut_at ":" s3; '(mi, s5) ← cut_at ":" s4; '(sec, s6) ← cut_at "." s5;
  '(ms, _) ← cut_at "Z" s6;
  y' ← js_number y; m' ← js_number m; d' ← js_number d; h' ← js_number h; mi' ← js_number mi;
  sec' ← js_number sec; ms' ← js_number ms;
  Some (days_from_civil y' m' d' * MS_PER_DAY + h' * 3600000 + mi' * 60000 + sec' * 1000 + ms').

Lemma cut_at_pad c w n s : 0 <= n -> is_digit c = false ->
  cut_at c (pad_start w (show n) +:+ String c s) = Some (pad_start w (show n), s).
Proof. intros Hn Hc. apply cut_at_app, all_digits_free; [|done]. by apply pad_show_digits. Qed.

Lemma time_of_day_split r : 0 <= r ->
  r / 3600000 * 3600000 + r / 60000 mod 60 * 60000 + r / 1000 mod 60 * 1000 + r mod 1000 = r.
Proof.
  intros Hr. replace 3600000 with (60000 * 60) by done. replace 60000 with (1000 * 60) by done.
  rewrite <- !Z.div_div by lia.
  pose proof (Z.div_mod r 1000 ltac:(lia)). pose proof (Z.div_mod (r / 1000) 60 ltac:(lia)).
  pose proof (Z.div_mod (r / 1000 / 60) 60 ltac:(lia)). lia.
Qed.

Lemma parse_iso_toISOString t : iso_range t -> parse_iso (toISOString t) = Some t.
Proof.
  unfold iso_range, civil_parts, toISOString. pose proof (civil_round_trip (t / MS_PER_DAY)) as H.
  destruct (civil_from_days (t / MS_PER_DAY)) as [[y m] d]. destruct H as (Hz & Hm & Hd).
  cbn [cv_year]. intros Hy. pose proof (Z.mod_pos_bound t MS_PER_DAY ltac:(done)) as Hr.
  set (r := t mod MS_PER_DAY) in *.
  assert (0 <= r / 3600000) by (apply Z.div_pos; lia).
  assert (0 <= r / 60000 mod 60) by (apply Z.mod_pos_bound; lia).
  assert (0 <= r / 1000 mod 60) by (apply Z.mod_pos_bound; lia).
  assert (0 <= r mod 1000) by (apply Z.mod_pos_bound; lia).
  unfold parse_iso.
  repeat (rewrite ?append_cons, ?append_nil_l, cut_at_pad by (lia || done); cbn [mbind option_bind]).
  rewrite !js_number_pad_show by lia. cbn [mbind option_bind]. f_equal. rewrite Hz.
  pose proof (time_of_day_split r ltac:(lia)). pose proof (Z.div_mod t MS_PER_DAY ltac:(done)). lia.
Qed.

(** A host with one fixed-offset zone, used by the witnesses. Its [date_parse] reads the texts
    of a given table and those of [toISOString]. *)
Definition fixed_runtime (zone : string) (offset : Z) (dates : list (string * Z)) : Runtime :=
  {| date_parse s := match js_find (fun p => bool_decide (fst p = s)) dates with
                    | Some p => Some (snd p)
                    | None => parse_iso s
                    end;
     intl_time_zone_ok tz := bool_decide (tz = zone);
     intl_parts tz t := intl_of_civil (civil_parts (t + offset)) |}.

#[export, refine] Instance fixed_runtime_laws zone offset dates
  (H : offset mod MS_PER_MINUTE = 0) : TimeZoneLaws (fixed_runtime zone offset dates) :=
  {| tz_offset tz t := offset |}.
Proof.
  - done.
  - intros tz t _ c. by left.
Defined.

#[export] Instance fixed_runtime_iso zone offset : IsoDates (fixed_runtime zone offset []).
Proof. intros t Ht. by apply parse_iso_toISOString. Defined.
