(* ===== verification/JsValue.v ===== *)
(** * JsValue: values of type [unknown] and the canonical JSON of CG4

    The values a JSON payload can hold, property access, and [canonicalValue],
    [canonicalCg4Json], [canonicalCg4Digest] of
    [packages/cxa-contracts/src/contact-governance-cg4.ts]. *)
From stdpp Require Import base tactics list strings.
From Stdlib Require Import ZArith Lia Ascii Sorting.Permutation Sorting.Sorted.
From S2P Require Import Prelude Text.

Open Scope string_scope.
Open Scope Z_scope.
Open Scope list_scope.

(** A number is an integer, another finite number, written as the text [String] gives it (that
    text determines it), or not finite. *)
Inductive jsnum :=
  | NInt (z : Z)
  | NFrac (text : string)
  | NNaN
  | NInfinity (negative : bool).
#[export] Instance jsnum_eq_dec : EqDecision jsnum.
Proof. solve_decision. Defined.

(** [JObj] is a plain object, its own enumerable fields in order; [JInstance] an object of
    another prototype. *)
Inductive jsval :=
  | JUndefined
  | JNull
  | JBool (b : bool)
  | JNum (n : jsnum)
  | JStr (s : string)
  | JArr (l : list jsval)
  | JObj (fields : list (string * jsval))
  | JInstance (fields : list (string * jsval)).

Section jsval_ind.
Variable P : jsval -> Prop.
Hypothesis HU : P JUndefined.
Hypothesis HN : P JNull.
Hypothesis HB : forall b, P (JBool b).
Hypothesis HM : forall n, P (JNum n).
Hypothesis HS : forall s, P (JStr s).
Hypothesis HA : forall l, Forall P l -> P (JArr l).
Hypothesis HO : forall fs, Forall (fun f => P (snd f)) fs -> P (JObj fs).
Hypothesis HI : forall fs, Forall (fun f => P (snd f)) fs -> P (JInstance fs).

Fixpoint jsval_nested_ind (v : jsval) : P v :=
  let fields := fix go (fs : list (string * jsval)) : Forall (fun f => P (snd f)) fs :=
    match fs with
    | [] => List.Forall_nil _
    | f :: fs' => @List.Forall_cons _ _ f fs' (jsval_nested_ind (snd f)) (go fs')
    end in
  match v with
  | JUndefined => HU
  | JNull => HN
  | JBool b => HB b
  | JNum n => HM n
  | JStr s => HS s
  | JArr l => HA l ((fix go (l : list jsval) : Forall P l :=
      match l with
      | [] => List.Forall_nil _
      | x :: l' => @List.Forall_cons _ _ x l' (jsval_nested_ind x) (go l')
      end) l)
  | JObj fs => HO fs (fields fs)
  | JInstance fs => HI fs (fields fs)
  end.
End jsval_ind.

(** [entries.find(([k]) => k === key)?.[1]] *)
Definition field (key : string) (fs : list (string * jsval)) : jsval :=
  match js_find (fun f => bool_decide (fst f = key)) fs with
  | Some f => snd f
  | None => JUndefined
  end.

Lemma field_eq k v fs : field k ((k, v) :: fs) = v.
Proof. unfold field. cbn. by rewrite bool_decide_eq_true_2. Qed.

Lemma field_ne k k' v fs : k' <> k -> field k ((k', v) :: fs) = field k fs.
Proof. intros H. unfold field. cbn. by rewrite bool_decide_eq_false_2. Qed.

(** Reads the fields of an object literal. *)
Ltac read_fields := repeat (rewrite field_eq || rewrite field_ne by done).

(** [value ?? fallback] *)
Definition nullish (value fallback : jsval) : jsval :=
  match value with JUndefined | JNull => fallback | _ => value end.

Definition is_undefined (v : jsval) : bool := match v with JUndefined => true | _ => false end.

(** ** [JSON.stringify] of a string *)

Definition hex_digit (d : Z) : ascii := if d <? 10 then digit d else ascii_of_N (Z.to_N (87 + d)).

Definition escape_char (c : ascii) : string :=
  let n := code c in
  if n =? 34 then "\" +:+ String c ""
  else if n =? 92 then "\\"
  else if n =? 8 then "\b"
  else if n =? 9 then "\t"
  else if n =? 10 then "\n"
  else if n =? 12 then "\f"
  else if n =? 13 then "\r"
  else if n <? 32 then "\u00" +:+ String (hex_digit (n / 16)) (String (hex_digit (n mod 16)) "")
  else String c "".

Fixpoint escape (s : string) : string :=
  match s with
  | EmptyString => EmptyString
  | String c s' => escape_char c +:+ escape s'
  end.

Definition quote_char : ascii := ascii_of_N 34.
Definition json_string (s : string) : string :=
  String quote_char (escape s +:+ String quote_char "").

(** ** Canonical JSON *)

Inductive Cg4ContractError := CANONICAL_VALUE_INVALID | DIGEST_INVALID.
#[export] Instance Cg4ContractError_eq_dec : EqDecision Cg4ContractError.
Proof. solve_decision. Defined.

(** [left < right ? -1 : left > right ? 1 : 0] on keys, negative or zero *)
Definition key_le {A} (left right : string * A) : bool := str_le (fst left) (fst right).

(** The array [parts] computed by a callback that may throw. *)
Definition parts {A} (l : list (result Cg4ContractError A)) : result Cg4ContractError (list A) :=
  map_result (fun r => r) l.

Definition member (f : string * result Cg4ContractError string) : result Cg4ContractError string :=
  (fun text => json_string (fst f) +:+ ":" +:+ text) <$> snd f.

Fixpoint canonicalValue (value : jsval) : result Cg4ContractError string :=
  match value with
  | JNull => Ok "null"
  | JStr s => Ok (json_string s)
  | JBool b => Ok (if b then "true" else "false")
  | JNum (NInt z) => Ok (show z)
  | JNum (NFrac text) => Ok text
  | JNum _ => Err CANONICAL_VALUE_INVALID
  | JArr l =>
      (fun texts => "[" +:+ join "," texts +:+ "]") <$> parts (map canonicalValue l)
  | JInstance _ => Err CANONICAL_VALUE_INVALID
  | JObj fs =>
      let entries := flat_map (fun f =>
        if is_undefined (snd f) then [] else [(fst f, canonicalValue (snd f))]) fs in
      (fun texts => "{" +:+ join "," texts +:+ "}")
        <$> parts (map member (sort_by key_le entries))
  | JUndefined => Err CANONICAL_VALUE_INVALID
  end.

Definition canonicalCg4Json (value : jsval) : result Cg4ContractError string :=
  canonicalValue value.

(** [sha256] stands for [createHash('sha256').update(_).digest('hex')] of [node:crypto]. *)
Definition canonicalCg4Digest (sha256 : string -> string) (value : jsval)
  : result Cg4ContractError string :=
  sha256 <$> canonicalCg4Json value.

(** [/^[a-f0-9]{64}$/] *)
Definition is_lower_hex (c : ascii) : bool :=
  is_digit c || ((97 <=? code c) && (code c <=? 102)).
Definition assertCg4Digest (value : string) : result Cg4ContractError unit :=
  throw_if (negb (Nat.eqb (String.length value) 64 && string_forall is_lower_hex value)) DIGEST_INVALID.

(** ** Normal forms: undefined fields dropped, keys sorted *)

Fixpoint json_norm (value : jsval) : jsval :=
  match value with
  | JArr l => JArr (map json_norm l)
  | JObj fs =>
      JObj (sort_by key_le (flat_map (fun f =>
        if is_undefined (snd f) then [] else [(fst f, json_norm (snd f))]) fs))
  | _ => value
  end.

Fixpoint json_print (value : jsval) : string :=
  match value with
  | JNull => "null"
  | JStr s => json_string s
  | JBool b => if b then "true" else "false"
  | JNum (NInt z) => show z
  | JNum (NFrac text) => text
  | JArr l => "[" +:+ (join "," (map json_print l) +:+ "]")
  | JObj fs =>
      "{" +:+ (join "," (map (fun f => json_string (fst f) +:+ (":" +:+ json_print (snd f))) fs) +:+ "}")
  | _ => ""
  end.

Definition num_char (c : ascii) : bool :=
  int_char c || Ascii.eqb c "." || Ascii.eqb c "e" || Ascii.eqb c "+".

(** The texts of non-integers: only numeral characters, among them a point or an exponent. *)
Definition frac_text (s : string) : bool :=
  string_forall num_char s && negb (string_forall int_char s).

Fixpoint json_ok (value : jsval) : bool :=
  match value with
  | JNull | JStr _ | JBool _ | JNum (NInt _) => true
  | JNum (NFrac text) => frac_text text
  | JArr l => forallb json_ok l
  | JObj fs => forallb (fun f => json_ok (snd f)) fs
  | _ => false
  end.

(** Non-integers anywhere in a value carry the text of one. *)
Fixpoint json_wf (value : jsval) : bool :=
  match value with
  | JNum (NFrac text) => frac_text text
  | JArr l => forallb json_wf l
  | JObj fs | JInstance fs => forallb (fun f => json_wf (snd f)) fs
  | _ => true
  end.

Lemma insert_sorted_map {A B} (le : A -> A -> bool) (le' : B -> B -> bool) (g : A -> B) x l :
  (forall a b, le' (g a) (g b) = le a b) ->
  insert_sorted le' (g x) (map g l) = map g (insert_sorted le x l).
Proof.
  intros H. induction l as [|y l IH]; [done|]. cbn. rewrite H.
  destruct (le x y); cbn; [done|]. by rewrite IH.
Qed.

Lemma sort_by_map {A B} (le : A -> A -> bool) (le' : B -> B -> bool) (g : A -> B) l :
  (forall a b, le' (g a) (g b) = le a b) ->
  sort_by le' (map g l) = map g (sort_by le l).
Proof.
  intros H. induction l as [|x l IH]; [done|]. cbn. rewrite IH. by apply insert_sorted_map.
Qed.

Definition prints (v : jsval) (s : string) : Prop :=
  s = json_print (json_norm v) /\ json_ok (json_norm v) = true.

Lemma parts_prints l texts :
  Forall (fun v => forall s, json_wf v = true -> canonicalValue v = Ok s -> prints v s) l ->
  forallb json_wf l = true ->
  parts (map canonicalValue l) = Ok texts ->
  texts = map (fun v => json_print (json_norm v)) l /\ forallb (fun v => json_ok (json_norm v)) l = true.
Proof.
  intros Hl. revert texts. unfold parts.
  induction Hl as [|v l Hv _ IH]; intros texts Hwf; cbn in *; [by intros [= <-]|].
  bool_prop. intros H'. apply bind_ok in H' as (s & Hs & H').
  apply bind_ok in H' as (ss & Hss & [= <-]).
  destruct (Hv s) as [-> ->]; [done..|]. by destruct (IH ss) as [-> ->].
Qed.

Definition defined_fields (fs : list (string * jsval)) : list (string * jsval) :=
  js_filter (fun f => negb (is_undefined (snd f))) fs.

Lemma flat_map_defined {B} (h : jsval -> B) fs :
  flat_map (fun f : string * jsval => if is_undefined (snd f) then [] else [(fst f, h (snd f))]) fs
  = map (fun f => (fst f, h (snd f))) (defined_fields fs).
Proof.
  unfold defined_fields. induction fs as [|f fs IH]; [done|]. cbn. rewrite IH.
  by destruct (is_undefined (snd f)).
Qed.

Lemma sort_defined {B} (h : jsval -> B) fs :
  sort_by key_le (flat_map (fun f : string * jsval =>
    if is_undefined (snd f) then [] else [(fst f, h (snd f))]) fs)
  = map (fun f => (fst f, h (snd f))) (sort_by key_le (defined_fields fs)).
Proof. rewrite flat_map_defined. by apply sort_by_map. Qed.

Lemma members_print fs texts :
  Forall (fun f => forall s, json_wf (snd f) = true -> canonicalValue (snd f) = Ok s -> prints (snd f) s) fs ->
  forallb (fun f => json_wf (snd f)) fs = true ->
  parts (map member (map (fun f => (fst f, canonicalValue (snd f))) fs)) = Ok texts ->
  texts = map (fun f => json_string (fst f) +:+ (":" +:+ json_print (snd f)))
              (map (fun f => (fst f, json_norm (snd f))) fs) /\
  forallb (fun f => json_ok (json_norm (snd f))) fs = true.
Proof.
  unfold parts. intros Hl. revert texts.
  induction Hl as [|f fs Hv _ IH]; intros texts Hwf; cbn in *; [by intros [= <-]|].
  bool_prop. intros H'. apply bind_ok in H' as (s & Hs & H').
  apply bind_ok in H' as (ss & Hss & [= <-]). unfold member in Hs. cbn in Hs.
  apply fmap_ok in Hs as (s' & Hs & <-).
  destruct (Hv s') as [-> ->]; [done..|]. destruct (IH ss) as [-> ->]; done.
Qed.

(** The canonical text is the printed normal form. *)
Lemma canonical_prints v s : json_wf v = true -> canonicalValue v = Ok s -> prints v s.
Proof.
  revert s; induction v as [| |b|n|t|l IH|fs IH|fs IH] using jsval_nested_ind; intros s Hwf; cbn;
    unfold prints; try done; try (by intros [= <-]).
  - by destruct n; cbn in *; intros [= <-].
  - intros H. apply fmap_ok in H as (texts & H & <-).
    destruct (parts_prints _ _ IH Hwf H) as [-> Hok]. split.
    + cbn. by rewrite map_map.
    + cbn. by rewrite forallb_map.
  - rewrite (sort_defined canonicalValue). cbn [json_norm]. rewrite (sort_defined json_norm).
    intros H. apply fmap_ok in H as (texts & H & <-).
    set (ds := sort_by key_le (defined_fields fs)) in *.
    assert (Hin : forall f, In f ds -> In f fs).
    { intros f Hf. apply sort_by_In in Hf. by apply filter_In in Hf as []. }
    rewrite List.Forall_forall in IH. cbn in Hwf. rewrite forallb_forall in Hwf.
    apply members_print in H as [-> Hok]; cbn.
    + split; [done|]. by rewrite forallb_map.
    + rewrite List.Forall_forall. auto.
    + rewrite forallb_forall. auto.
Qed.

(** ** The printed normal form is uniquely readable *)

(** Reads one escaped character back. *)
Definition hex_value (c : ascii) : Z := if is_digit c then code c - 48 else code c - 87.
Definition unescape (s : string) : option (ascii * string) :=
  match s with
  | String c s' =>
      if code c =? 34 then None
      else if code c =? 92 then
        match s' with
        | String d t =>
            if Ascii.eqb d "b" then Some (ascii_of_N 8, t)
            else if Ascii.eqb d "t" then Some (ascii_of_N 9, t)
            else if Ascii.eqb d "n" then Some (ascii_of_N 10, t)
            else if Ascii.eqb d "f" then Some (ascii_of_N 12, t)
            else if Ascii.eqb d "r" then Some (ascii_of_N 13, t)
            else if Ascii.eqb d "u" then
              match t with
              | String _ (String _ (String h (String l t'))) =>
                  Some (ascii_of_N (Z.to_N (hex_value h * 16 + hex_value l)), t')
              | _ => None
              end
            else Some (d, t)
        | EmptyString => None
        end
      else Some (c, s')
  | EmptyString => None
  end.

Lemma unescape_escape c t : unescape (escape_char c +:+ t) = Some (c, t).
Proof. destruct c as [[] [] [] [] [] [] [] []]; reflexivity. Qed.

Lemma escape_read s t r r' :
  escape s +:+ String quote_char r = escape t +:+ String quote_char r' -> s = t /\ r = r'.
Proof.
  revert t; induction s as [|c s IH]; intros [|d t]; cbn [escape];
    rewrite ?append_nil_l, ?append_assoc; intros H.
  - by injection H.
  - apply (f_equal unescape) in H. by rewrite unescape_escape in H.
  - apply (f_equal unescape) in H. by rewrite unescape_escape in H.
  - apply (f_equal unescape) in H. rewrite !unescape_escape in H. injection H as <- H.
    by destruct (IH _ H) as [-> ->].
Qed.

Lemma json_string_read s t r r' :
  json_string s +:+ r = json_string t +:+ r' -> s = t /\ r = r'.
Proof.
  unfold json_string. rewrite !append_cons, !append_assoc, !append_cons, !append_nil_l.
  intros [= H]. by apply escape_read.
Qed.

(** What may follow a value. *)
Definition closing (r : string) : bool :=
  match r with
  | EmptyString => true
  | String c _ => Ascii.eqb c "," || Ascii.eqb c "]" || Ascii.eqb c "}"
  end.

Lemma charset_read p s t r r' :
  string_forall p s = true -> string_forall p t = true ->
  (forall c u, r = String c u -> p c = false) -> (forall c u, r' = String c u -> p c = false) ->
  s +:+ r = t +:+ r' -> s = t /\ r = r'.
Proof.
  revert t; induction s as [|c s IH]; intros [|d t]; cbn; rewrite ?append_nil_l, ?append_cons;
    intros Hs Ht Hr Hr' H; bool_prop.
  - done.
  - rewrite (Hr d _ H) in *. congruence.
  - rewrite (Hr' c _ (eq_sym H)) in *. congruence.
  - injection H as <- H. by destruct (IH t) as [-> ->].
Qed.

Lemma closing_num r c u : closing r = true -> r = String c u -> num_char c = false.
Proof.
  intros H ->. cbn in H. apply orb_true_iff in H as [H|H]; [apply orb_true_iff in H as [H|H]|];
    by apply Ascii.eqb_eq in H as ->.
Qed.

Section Elements.
Context {A : Type} (pr : A -> string) (ok : A -> bool) (close : ascii).
Context (close_ok : forall r, closing (String close r) = true).
Context (close_comma : close <> ","%char).
Context (pr_close : forall a r u, ok a = true -> pr a +:+ r <> String close u).

Definition reads (a : A) : Prop := forall b r r', ok b = true ->
  closing r = true -> closing r' = true -> pr a +:+ r = pr b +:+ r' -> a = b /\ r = r'.

Fixpoint tails (l : list A) : string :=
  match l with [] => EmptyString | x :: l' => "," +:+ (pr x +:+ tails l') end.

Lemma join_tails a l : join "," (map pr (a :: l)) = pr a +:+ tails l.
Proof.
  revert a; induction l as [|b l IH]; intros a; [cbn; by rewrite append_nil_r|].
  change (join "," (map pr (a :: b :: l))) with (pr a +:+ ("," +:+ join "," (map pr (b :: l)))).
  by rewrite IH.
Qed.

Lemma closing_tails l r : closing (tails l +:+ String close r) = true.
Proof. destruct l; cbn [tails]; [apply close_ok|reflexivity]. Qed.

Lemma tails_read l l' r r' :
  Forall reads l -> forallb ok l' = true ->
  tails l +:+ String close r = tails l' +:+ String close r' -> l = l' /\ r = r'.
Proof using close_ok close_comma.
  intros Hl. revert l'; induction Hl as [|a l Ha _ IH]; intros [|b l'] Hok; cbn [tails];
    rewrite ?append_assoc, ?append_nil_l, ?(append_cons ","), ?append_nil_l.
  - intros [= ->]. done.
  - intros [= ? ?]. congruence.
  - intros [= ? ?]. congruence.
  - cbn in Hok. bool_prop. intros [= H']. rewrite ?append_assoc in H'.
    apply Ha in H' as [-> H']; [|done|apply closing_tails..].
    by destruct (IH l' ltac:(done) H') as [-> ->].
Qed.

Lemma elements_read l l' r r' :
  Forall reads l -> forallb ok l = true -> forallb ok l' = true ->
  join "," (map pr l) +:+ String close r = join "," (map pr l') +:+ String close r' ->
  l = l' /\ r = r'.
Proof using close_ok close_comma pr_close.
  intros Hl Hk Hk'. destruct l as [|a l], l' as [|b l']; cbn in Hk, Hk'; bool_prop.
  - cbn. by intros [= ->].
  - rewrite join_tails, append_assoc. intros H'. symmetry in H'. by apply pr_close in H'.
  - rewrite join_tails, append_assoc. intros H'. by apply pr_close in H'.
  - rewrite !join_tails, !append_assoc. inversion Hl as [|? ? Ha Hl']; subst. intros H'.
    apply Ha in H' as [-> H']; [|done|apply closing_tails..].
    by destruct (tails_read l l' r r' Hl' ltac:(done) H') as [-> ->].
Qed.
End Elements.

Definition kind (v : jsval) : nat :=
  match v with
  | JNull => 0 | JStr _ => 1 | JBool true => 2 | JBool false => 3 | JArr _ => 4 | JObj _ => 5 | _ => 6
  end.

Definition kind_char (c : ascii) : nat :=
  let n := code c in
  if n =? 110 then 0 else if n =? 34 then 1 else if n =? 116 then 2 else if n =? 102 then 3
  else if n =? 91 then 4 else if n =? 123 then 5 else 6.

Lemma num_char_kind c : num_char c = true -> kind_char c = 6%nat.
Proof. destruct c as [[] [] [] [] [] [] [] []]; by vm_compute. Qed.

Lemma int_char_num c : int_char c = true -> num_char c = true.
Proof. intros H. unfold num_char. by rewrite H. Qed.

Lemma show_cons z : exists c t, show z = String c t.
Proof.
  destruct (show z) as [|c t] eqn:E; [|eauto]. exfalso. unfold show in E.
  destruct (Z.ltb_spec z 0); [done|]. unfold show_nonneg in E.
  assert (Hs : forall f n acc, show_fuel f n acc = "" -> acc = "").
  { induction f as [|f IH]; intros n acc; [done|]. cbn. destruct (n / 10 =? 0); [done|].
    intros Ht. by apply IH in Ht. }
  cbn in E. destruct (z / 10 =? 0); [done|]. by apply Hs in E.
Qed.

Lemma json_print_kind v : json_ok v = true -> exists c t, json_print v = String c t /\ kind_char c = kind v.
Proof.
  destruct v as [| |[]|[z|text| |]|s|l|fs|fs]; cbn [json_ok json_print kind]; intros Hok; try done;
    try (do 2 eexists; split; reflexivity).
  - destruct (show_cons z) as (c & t & E). rewrite E. do 2 eexists; split; [done|].
    pose proof (show_int z) as Hi. rewrite E in Hi. cbn in Hi. bool_prop.
    by apply num_char_kind, int_char_num.
  - unfold frac_text in Hok. bool_prop. destruct text as [|c t]; [done|].
    do 2 eexists; split; [done|]. cbn in *. bool_prop. by apply num_char_kind.
Qed.

Lemma json_print_same_kind v w r r' : json_ok v = true -> json_ok w = true ->
  json_print v +:+ r = json_print w +:+ r' -> kind v = kind w.
Proof.
  intros (c & t & -> & <-)%json_print_kind (d & u & -> & <-)%json_print_kind.
  rewrite !append_cons. by intros [= -> _].
Qed.

Definition num_text (n : jsnum) : string :=
  match n with NInt z => show z | NFrac text => text | _ => "" end.

Lemma num_text_read n m r r' :
  json_ok (JNum n) = true -> json_ok (JNum m) = true -> closing r = true -> closing r' = true ->
  num_text n +:+ r = num_text m +:+ r' -> n = m /\ r = r'.
Proof.
  assert (Hc : forall k, json_ok (JNum k) = true -> string_forall num_char (num_text k) = true).
  { intros [z|text| |]; cbn; try done.
    - intros _. apply (string_forall_impl int_char); [apply int_char_num|apply show_int].
    - unfold frac_text. intros. by bool_prop. }
  intros Hn Hm Hr Hr' H.
  destruct (charset_read num_char _ _ _ _ (Hc _ Hn) (Hc _ Hm)
              (fun c u => closing_num r c u Hr) (fun c u => closing_num r' c u Hr') H) as [Ht ->].
  split; [|done]. destruct n as [z|s| |], m as [z'|s'| |]; cbn in *; try done; try congruence.
  - apply show_inj in Ht. congruence.
  - unfold frac_text in Hm. bool_prop. subst. by rewrite show_int in *.
  - unfold frac_text in Hn. bool_prop. subst. by rewrite show_int in *.
Qed.

Lemma print_not_close v r c u : json_ok v = true -> kind_char c = 6%nat -> num_char c = false ->
  json_print v +:+ r <> String c u.
Proof.
  intros Hok Hk Hn H. destruct (json_print_kind v Hok) as (d & t & E & Hd).
  rewrite E, append_cons in H. injection H as -> H.
  destruct v as [| |[]|n|s|l|fs|fs]; cbn in Hd; try congruence; try done.
  destruct n as [z|s| |]; cbn in *; try done.
  - pose proof (show_int z) as Hi. rewrite E in Hi. cbn in Hi. bool_prop.
    apply int_char_num in H0. congruence.
  - subst. unfold frac_text in Hok. bool_prop. cbn in *. bool_prop. congruence.
Qed.

(** No text is the beginning of the texts of two values. *)
Lemma json_read v w r r' : json_ok v = true -> json_ok w = true ->
  closing r = true -> closing r' = true ->
  json_print v +:+ r = json_print w +:+ r' -> v = w /\ r = r'.
Proof.
  revert w r r'; induction v as [| |b|n|s|l IH|fs IH|fs IH] using jsval_nested_ind;
    intros w r r' Hv Hw Hr Hr' H; try done;
    pose proof (json_print_same_kind _ _ _ _ Hv Hw H) as Hk;
    destruct w as [| |b'|n'|s'|l'|fs'|fs']; try done; try (by destruct b); try (by destruct b').
  - split; [done|]. cbn in H. rewrite !append_cons, !append_nil_l in H. by injection H.
  - destruct b, b'; try done; (split; [done|]); cbn in H;
      rewrite !append_cons, !append_nil_l in H; by injection H.
  - destruct (num_text_read n n' r r') as [-> ->]; [done..| |done].
    by destruct n, n'.
  - apply json_string_read in H as [-> ->]. done.
  - cbn [json_print] in H. rewrite !append_assoc, !append_cons, !append_nil_l in H.
    injection H as H. cbn in Hv, Hw.
    apply (elements_read json_print json_ok) in H as [-> ->]; try done.
    + intros. by apply print_not_close.
    + rewrite forallb_forall in Hv. rewrite List.Forall_forall in *. unfold reads. eauto.
  - cbn [json_print] in H. rewrite !append_assoc, !append_cons, !append_nil_l in H.
    injection H as H. cbn in Hv, Hw.
    apply (elements_read _ (fun f => json_ok (snd f))) in H as [-> ->]; try done.
    rewrite forallb_forall in Hv. rewrite List.Forall_forall in *.
    intros [k x] Hin [k' x'] ra rb Hb Hra Hrb Heq. cbn in *.
    rewrite !append_assoc in Heq. apply json_string_read in Heq as [-> Heq].
    rewrite !append_cons, !append_nil_l in Heq. injection Heq as Heq.
    destruct (IH _ Hin x' ra rb (Hv _ Hin) Hb Hra Hrb Heq) as [Hx ->]. cbn in Hx. by subst.
Qed.

(** Values made of null, booleans, strings, finite numbers, arrays and plain objects. *)
Fixpoint json_plain (value : jsval) : bool :=
  match value with
  | JNull | JBool _ | JStr _ | JNum (NInt _) | JNum (NFrac _) => true
  | JArr l => forallb json_plain l
  | JObj fs => forallb (fun f => json_plain (snd f)) fs
  | _ => false
  end.

Lemma parts_total {A} (l : list (result Cg4ContractError A)) :
  Forall (fun r => exists a, r = Ok a) l -> exists xs, parts l = Ok xs.
Proof.
  unfold parts. induction 1 as [|r l [a ->] _ [xs IH]]; cbn; [eauto|].
  unfold parts in IH. rewrite IH. cbn. eauto.
Qed.

(** Plain values have a canonical text. *)
Lemma canonical_plain v : json_plain v = true -> exists s, canonicalCg4Json v = Ok s.
Proof.
  unfold canonicalCg4Json.
  induction v as [| |b|n|t|l IH|fs IH|fs IH] using jsval_nested_ind; cbn; intros Hp; try done; eauto.
  - destruct n; try done; eauto.
  - rewrite forallb_forall in Hp. rewrite List.Forall_forall in IH.
    destruct (parts_total (map canonicalValue l)) as [xs Hxs]; [|rewrite Hxs; cbn; eauto].
    rewrite List.Forall_forall. intros r Hr. apply in_map_iff in Hr as (x & <- & Hx). auto.
  - rewrite forallb_forall in Hp. rewrite List.Forall_forall in IH. rewrite (sort_defined canonicalValue).
    match goal with |- context [parts ?l] => destruct (parts_total l) as [xs Hxs] end;
      [|rewrite Hxs; cbn; eauto].
    rewrite List.Forall_forall. intros r Hr. apply in_map_iff in Hr as (x & <- & Hx).
    apply in_map_iff in Hx as (f & <- & Hf). apply sort_by_In, filter_In in Hf as [Hf _].
    destruct (IH f Hf (Hp f Hf)) as [s Hs]. unfold member. cbn [fst snd]. rewrite Hs. cbn. eauto.
Qed.

(** The canonical text does not depend on the order the fields were written in. *)
Lemma canonical_key_order fs fs' :
  List.NoDup (map fst fs) -> Permutation fs fs' ->
  canonicalCg4Json (JObj fs) = canonicalCg4Json (JObj fs').
Proof.
  intros Hnd Hp. cbn. rewrite !(flat_map_defined canonicalValue).
  set (g := fun f : string * jsval => (fst f, canonicalValue (snd f))).
  rewrite (sort_by_canonical key_le (map g (defined_fields fs)) (map g (defined_fields fs')));
    [done|..].
  - intros x y. apply str_le_total.
  - intros x y z. apply str_le_trans.
  - intros x y Hx Hy H1 H2. apply in_map_iff in Hx as (f & <- & Hf).
    apply in_map_iff in Hy as (f' & <- & Hf'). apply filter_In in Hf as [Hf _].
    apply filter_In in Hf' as [Hf' _]. cbn in *.
    enough (f = f') as -> by done. apply (NoDup_map_inj fst fs); try done.
    by apply str_le_antisym.
  - apply Permutation_map. unfold defined_fields. by apply filter_Permutation.
Qed.

(** C39: canonical JSON determines the value: two JSON values (every non-integer among them
    carrying the text of one) with the same canonical text are equal once undefined fields are
    dropped and the keys sorted. Two artifacts can therefore share a content digest only when
    they hold the same content or when SHA-256 collides on their texts. *)
Theorem canonical_json_injective (v w : jsval) (text : string)
  (Hv : json_wf v = true) (Hw : json_wf w = true)
  (Hcv : canonicalCg4Json v = Ok text) (Hcw : canonicalCg4Json w = Ok text) :
  json_norm v = json_norm w.
Proof.
  apply canonical_prints in Hcv as [Hpv Hv']; [|done].
  apply canonical_prints in Hcw as [Hpw Hw']; [|done].
  destruct (json_read (json_norm v) (json_norm w) "" "") as [-> _]; try done.
  rewrite !append_nil_r. congruence.
Qed.

Example canonical_json_injective_witness :
  let v := JObj [("b", JArr [JNum (NInt (-3)); JStr "x"]); ("a", JUndefined); ("A", JNull)] in
  let w := JObj [("A", JNull); ("b", JArr [JNum (NInt (-3)); JStr "x"])] in
  json_norm v = json_norm w.
Proof. intros v w. eapply canonical_json_injective; vm_compute; reflexivity. Defined.
