(* ===== verification/Contracts.v ===== *)
(** * Contracts: the wire types of Contact Governance

    The closed string unions of [packages/cxa-contracts] as inductive types (each constructor
    carries a prefix for its union, the source's literal follows), its interfaces as records,
    its optional fields as [option]. Identifiers are branded strings in the source, [string]
    here. Instants the source holds as [Date] are milliseconds since the epoch in [Z]; instants
    it holds as ISO text are [string] and go through [date_parse] of [JsDate]. *)
From stdpp Require Import base tactics list strings.
From Stdlib Require Import ZArith Lia.
From S2P Require Import Prelude.

Open Scope string_scope.
Open Scope Z_scope.
Open Scope list_scope.

(** ** [contact-governance.ts] *)

Inductive ContactChannel := VOICE | WEBCHAT | LINE | FACEBOOK | WHATSAPP | EMAIL.
#[export] Instance ContactChannel_eq_dec : EqDecision ContactChannel.
Proof. solve_decision. Defined.

Definition channel_name (c : ContactChannel) : string :=
  match c with
  | VOICE => "VOICE" | WEBCHAT => "WEBCHAT" | LINE => "LINE"
  | FACEBOOK => "FACEBOOK" | WHATSAPP => "WHATSAPP" | EMAIL => "EMAIL"
  end.

Inductive ContactDecision := ALLOW | BLOCK | DEFER | REVIEW.
#[export] Instance ContactDecision_eq_dec : EqDecision ContactDecision.
Proof. solve_decision. Defined.

Inductive ContactPolicyGate :=
  | G_IDENTITY | G_HARD_RESTRICTION | G_CONSENT | G_PREFERENCE | G_MODULE_RULE
  | G_TEMPORAL_POLICY | G_ATTEMPT_TOUCH_CAP | G_CALLBACK_EXCEPTION | G_APPROVED_EXCEPTION
  | G_SENDER_IDENTITY | G_KILL_SWITCH | G_POLICY_HEAD | G_MIGRATION_SHADOW | G_RESERVATION.
#[export] Instance ContactPolicyGate_eq_dec : EqDecision ContactPolicyGate.
Proof. solve_decision. Defined.

(** [outcome: 'PASS' | 'ALLOW' | 'BLOCK' | 'DEFER' | 'REVIEW'] *)
Inductive GateOutcome := O_PASS | O_ALLOW | O_BLOCK | O_DEFER | O_REVIEW.
#[export] Instance GateOutcome_eq_dec : EqDecision GateOutcome.
Proof. solve_decision. Defined.

Record ContactPolicyTraceEntry := TraceEntry {
  te_gate : ContactPolicyGate;
  te_outcome : GateOutcome;
  te_reasonCode : option string;
}.
#[export] Instance ContactPolicyTraceEntry_eq_dec : EqDecision ContactPolicyTraceEntry.
Proof. solve_decision. Defined.

Inductive ReservationState := RESERVED | CONFIRMED | RELEASED | REFUNDED.
#[export] Instance ReservationState_eq_dec : EqDecision ReservationState.
Proof. solve_decision. Defined.

Inductive RefundOutcome := RO_DELIVERY_FAILED | RO_DELIVERED.
#[export] Instance RefundOutcome_eq_dec : EqDecision RefundOutcome.
Proof. solve_decision. Defined.

(** ['CONFIRM' | 'RELEASE' | RefundReservationCommand] *)
Inductive ReservationCommand :=
  | CONFIRM
  | RELEASE
  | REFUND (outcome : RefundOutcome).
#[export] Instance ReservationCommand_eq_dec : EqDecision ReservationCommand.
Proof. solve_decision. Defined.

Record ReservationSnapshot := Reservation {
  rs_id : string;
  rs_state : ReservationState;
}.
#[export] Instance ReservationSnapshot_eq_dec : EqDecision ReservationSnapshot.
Proof. solve_decision. Defined.

(** ** [contact-governance-cg4.ts] *)

Definition CG4_CONTRACT_VERSION : Z := 1.
Definition CG4_POLICY_SCHEMA_VERSION : Z := 1.
Definition CG4_RULE_REGISTRY_VERSION : string := "CG4_RULE_REGISTRY_V1".
Definition CG4_EVALUATOR_VERSION : string := "CG4_EVALUATOR_V1".

Inductive Cg4RuleClass :=
  | NON_OVERRIDABLE | CUSTOMER_REQUEST_SCOPED | APPROVAL_REQUIRED_OPERATIONAL.
#[export] Instance Cg4RuleClass_eq_dec : EqDecision Cg4RuleClass.
Proof. solve_decision. Defined.

Inductive Cg4OverrideMechanism := CUSTOMER_CALLBACK | APPROVED_EXCEPTION.
#[export] Instance Cg4OverrideMechanism_eq_dec : EqDecision Cg4OverrideMechanism.
Proof. solve_decision. Defined.

Inductive Cg4IdentityScopeKind := EXACT_IDENTITY | CONTACT_WIDE.
#[export] Instance Cg4IdentityScopeKind_eq_dec : EqDecision Cg4IdentityScopeKind.
Proof. solve_decision. Defined.

Inductive Cg4ExceptionRiskTier := STANDARD | HIGH | EMERGENCY.
#[export] Instance Cg4ExceptionRiskTier_eq_dec : EqDecision Cg4ExceptionRiskTier.
Proof. solve_decision. Defined.

(** [Readonly<Record<Cg4ExceptionRiskTier, number>>] is the function of its three keys. *)
Record Cg4RuleMetadata := RuleMetadata {
  rm_ruleCode : string;
  rm_ruleClass : Cg4RuleClass;
  rm_overridable : bool;
  rm_allowedOverrideMechanisms : list Cg4OverrideMechanism;
  rm_supportedExceptionScopes : list Cg4IdentityScopeKind;
  rm_riskFloor : option Cg4ExceptionRiskTier;
  rm_platformLifetimeCapSeconds : Cg4ExceptionRiskTier -> Z;
  rm_registryVersion : string;
}.

Inductive Cg4ExceptionWorkflowState :=
  | W_PENDING | W_APPROVED | W_REJECTED | W_CANCELLED | W_REVOKED.
#[export] Instance Cg4ExceptionWorkflowState_eq_dec : EqDecision Cg4ExceptionWorkflowState.
Proof. solve_decision. Defined.

Inductive Cg4ExceptionEffectiveState := E_SCHEDULED | E_ACTIVE | E_EXPIRED | E_INACTIVE.
#[export] Instance Cg4ExceptionEffectiveState_eq_dec : EqDecision Cg4ExceptionEffectiveState.
Proof. solve_decision. Defined.

Inductive Cg4PolicyDiffClass := C_TIGHTENING | C_NEUTRAL | C_RELAXATION.
#[export] Instance Cg4PolicyDiffClass_eq_dec : EqDecision Cg4PolicyDiffClass.
Proof. solve_decision. Defined.

Record Cg4PolicyBinding := PolicyBinding {
  pb_policyId : string;
  pb_policyVersionId : string;
  pb_policyVersion : Z;
  pb_policyContentDigest : string;
  pb_policySchemaVersion : Z;
  pb_ruleRegistryVersion : string;
  pb_evaluatorVersion : string;
}.

Record Cg4AppliedExceptionPin := AppliedExceptionPin {
  pin_seriesId : string;
  pin_revisionId : string;
  pin_version : Z;
  pin_contentDigest : string;
  pin_approvalDigest : string;
  pin_matchedRuleCode : string;
}.
#[export] Instance Cg4AppliedExceptionPin_eq_dec : EqDecision Cg4AppliedExceptionPin.
Proof. solve_decision. Defined.

Inductive Cg4AuthorizationReviewReason :=
  | GOVERNANCE_VERSION_STALE | POLICY_ACTIVATION_PENDING | POLICY_ACTIVATION_CONFLICT
  | GOVERNANCE_POLICY_VERSION_UNSUPPORTED | GOVERNANCE_STATE_UNAVAILABLE
  | GOVERNANCE_SHADOW_MISMATCH.
#[export] Instance Cg4AuthorizationReviewReason_eq_dec : EqDecision Cg4AuthorizationReviewReason.
Proof. solve_decision. Defined.

Inductive Cg4VersionFailureCode :=
  | UNSUPPORTED_CONTRACT_VERSION | UNSUPPORTED_POLICY_SCHEMA_VERSION
  | UNSUPPORTED_RULE_REGISTRY_VERSION | UNSUPPORTED_EVALUATOR_VERSION.
#[export] Instance Cg4VersionFailureCode_eq_dec : EqDecision Cg4VersionFailureCode.
Proof. solve_decision. Defined.

Record Cg4ArtifactVersions := ArtifactVersions {
  av_contractVersion : Z;
  av_policySchemaVersion : Z;
  av_ruleRegistryVersion : string;
  av_evaluatorVersion : string;
}.

Definition assertSupportedCg4ArtifactVersions (v : Cg4ArtifactVersions)
  : result Cg4VersionFailureCode unit :=
  throw_if (negb (bool_decide (av_contractVersion v = CG4_CONTRACT_VERSION)))
    UNSUPPORTED_CONTRACT_VERSION ;;
  throw_if (negb (bool_decide (av_policySchemaVersion v = CG4_POLICY_SCHEMA_VERSION)))
    UNSUPPORTED_POLICY_SCHEMA_VERSION ;;
  throw_if (negb (bool_decide (av_ruleRegistryVersion v = CG4_RULE_REGISTRY_VERSION)))
    UNSUPPORTED_RULE_REGISTRY_VERSION ;;
  throw_if (negb (bool_decide (av_evaluatorVersion v = CG4_EVALUATOR_VERSION)))
    UNSUPPORTED_EVALUATOR_VERSION.

(** ** [contact-governance-cg4-authorization.ts] *)

Inductive Cg4Capability :=
  | CG_EXCEPTION_REQUEST | CG_EXCEPTION_AMEND | CG_EXCEPTION_APPROVE_STANDARD
  | CG_EXCEPTION_APPROVE_HIGH | CG_EXCEPTION_REVOKE | CG_POLICY_DRAFT | CG_POLICY_PUBLISH
  | CG_POLICY_PUBLISH_RELAXATION | CG_POLICY_ROLLBACK.
#[export] Instance Cg4Capability_eq_dec : EqDecision Cg4Capability.
Proof. solve_decision. Defined.

Definition CG4_DELEGABLE_CAPABILITIES : list Cg4Capability :=
  [CG_EXCEPTION_REQUEST; CG_EXCEPTION_APPROVE_STANDARD].

Inductive Cg4CapabilityGrantSource := DIRECT | DELEGATED.
#[export] Instance Cg4CapabilityGrantSource_eq_dec : EqDecision Cg4CapabilityGrantSource.
Proof. solve_decision. Defined.

Record Cg4CapabilityGrant := CapabilityGrant {
  cgr_capability : Cg4Capability;
  cgr_scopeKey : string;
  cgr_source : Cg4CapabilityGrantSource;
  cgr_delegationId : option string;
  cgr_expiresAt : option string;
}.
#[export] Instance Cg4CapabilityGrant_eq_dec : EqDecision Cg4CapabilityGrant.
Proof. solve_decision. Defined.

Inductive Cg4AuthenticationStrength := AUTH_STANDARD | AUTH_STRONG.

Record Cg4AuthorizationSubject := AuthorizationSubject {
  sub_subjectId : string;
  sub_tenantId : string;
  sub_authenticationStrength : Cg4AuthenticationStrength;
  sub_capabilities : list Cg4CapabilityGrant;
  sub_directComplianceAuthority : bool;
  sub_emergencyAuthority : bool;
  sub_authorizationEpoch : Z;
  sub_scopeVersion : Z;
  sub_evaluatedAt : string;
}.

Record Cg4RecordedApproval := RecordedApproval {
  ra_checkerSubjectId : string;
  ra_capability : Cg4Capability;
  ra_directComplianceAuthority : bool;
  ra_emergencyAuthority : bool;
  ra_source : Cg4CapabilityGrantSource;
  ra_delegationId : option string;
  ra_authorizationEpoch : Z;
  ra_scopeVersion : Z;
  ra_decidedAt : string;
}.
#[export] Instance Cg4RecordedApproval_eq_dec : EqDecision Cg4RecordedApproval.
Proof. solve_decision. Defined.

Record Cg4QuorumRequirement := QuorumRequirement {
  qr_requiredApprovers : Z;
  qr_requireDirectCompliance : Z;
  qr_requireEmergencyAuthority : Z;
  qr_emergencyAcknowledgementWindowSeconds : option Z;
}.

Inductive Cg4QuorumStatus :=
  | Q_PENDING | Q_MET | Q_REJECTED | Q_EMERGENCY_ACTIVATED_ACK_PENDING | Q_EMERGENCY_ACK_EXPIRED.
#[export] Instance Cg4QuorumStatus_eq_dec : EqDecision Cg4QuorumStatus.
Proof. solve_decision. Defined.

Record Cg4QuorumEvaluation := QuorumEvaluation {
  qe_status : Cg4QuorumStatus;
  qe_required : Z;
  qe_current : Z;
  qe_distinctApprovers : list string;
}.
#[export] Instance Cg4QuorumEvaluation_eq_dec : EqDecision Cg4QuorumEvaluation.
Proof. solve_decision. Defined.

Definition resolveCg4ExceptionQuorum (tier : Cg4ExceptionRiskTier) : Cg4QuorumRequirement :=
  match tier with
  | STANDARD => QuorumRequirement 1 0 0 None
  | HIGH => QuorumRequirement 2 1 0 None
  | EMERGENCY => QuorumRequirement 2 1 1 (Some (15 * 60))
  end.

Definition resolveCg4PolicyQuorum (diffClass : Cg4PolicyDiffClass) : Cg4QuorumRequirement :=
  if bool_decide (diffClass = C_RELAXATION) then QuorumRequirement 2 1 0 None
  else QuorumRequirement 1 1 0 None.
