(* ===== verification/ContactPolicy.v ===== *)
(** * ContactPolicy: the first gate and the reservation state machine

    [apps/contact-governance/src/contact-policy.ts] decides IDENTITY, HARD_RESTRICTION and
    CONSENT in that order; [reservation.ts] moves a reservation. *)
From stdpp Require Import base tactics list strings relations.
From Stdlib Require Import ZArith Lia.
From S2P Require Import Prelude Contracts.

Open Scope string_scope.
Open Scope Z_scope.
Open Scope list_scope.

(** ** [contact-policy.ts] *)

Inductive IdentityResolution :=
  | ID_RESOLVED | ID_AMBIGUOUS | ID_NOT_FOUND | ID_IDENTITY_MAPPING_PENDING.
#[export] Instance IdentityResolution_eq_dec : EqDecision IdentityResolution.
Proof. solve_decision. Defined.

Inductive RestrictionType :=
  | R_DNC | R_OBJECTION | R_CONSENT_REVOKED | R_INBOUND_SAFETY | R_REGULATORY.

Record ActiveRestriction := Restriction {
  ar_type : RestrictionType;
  ar_reasonCode : string;
  ar_overridable : bool;
}.

Inductive ConsentStatus := GRANTED | REVOKED | EXPIRED.
#[export] Instance ConsentStatus_eq_dec : EqDecision ConsentStatus.
Proof. solve_decision. Defined.

Record ConsentFacts := Consent {
  co_status : ConsentStatus;
  co_lawfulBasis : string;
}.

Record ContactPolicyFacts := PolicyFacts {
  cpf_policyVersion : Z;
  cpf_identityResolution : IdentityResolution;
  cpf_activeRestriction : option ActiveRestriction;
  cpf_consent : option ConsentFacts;
}.

Record ContactPolicyResult := PolicyResult {
  cpr_decision : ContactDecision;
  cpr_reasonCode : string;
  cpr_policyVersion : Z;
  cpr_trace : list ContactPolicyTraceEntry;
}.

Definition evaluateContactPolicy (facts : ContactPolicyFacts) : ContactPolicyResult :=
  let v := cpf_policyVersion facts in
  let review code :=
    PolicyResult REVIEW code v [TraceEntry G_IDENTITY O_REVIEW (Some code)] in
  match cpf_identityResolution facts with
  | ID_AMBIGUOUS => review "IDENTITY_AMBIGUOUS"
  | ID_NOT_FOUND => review "IDENTITY_NOT_FOUND"
  | ID_IDENTITY_MAPPING_PENDING => review "IDENTITY_MAPPING_PENDING"
  | ID_RESOLVED =>
      let trace := [TraceEntry G_IDENTITY O_PASS None] in
      match cpf_activeRestriction facts with
      | Some r =>
          PolicyResult BLOCK (ar_reasonCode r) v
            (trace ++ [TraceEntry G_HARD_RESTRICTION O_BLOCK (Some (ar_reasonCode r))])
      | None =>
          let trace := trace ++ [TraceEntry G_HARD_RESTRICTION O_PASS None] in
          let block code :=
            PolicyResult BLOCK code v (trace ++ [TraceEntry G_CONSENT O_BLOCK (Some code)]) in
          match co_status <$> cpf_consent facts with
          | Some REVOKED => block "CONSENT_REVOKED"
          | Some EXPIRED => block "CONSENT_EXPIRED"
          | Some GRANTED =>
              PolicyResult ALLOW "POLICY_PASSED" v
                (trace ++ [TraceEntry G_CONSENT O_ALLOW (Some "POLICY_PASSED")])
          | None => block "CONSENT_REQUIRED"
          end
      end
  end.

(** ** [reservation.ts] *)

Inductive ReservationError :=
  | InvalidReservationTransitionError (state : ReservationState) (command : ReservationCommand)
  | RefundNotAllowedError (outcome : RefundOutcome).
#[export] Instance ReservationError_eq_dec : EqDecision ReservationError.
Proof. solve_decision. Defined.

Definition with_state (r : ReservationSnapshot) (s : ReservationState) : ReservationSnapshot :=
  Reservation (rs_id r) s.

Definition transitionReservation (reservation : ReservationSnapshot)
    (command : ReservationCommand) : result ReservationError ReservationSnapshot :=
  match command with
  | REFUND RO_DELIVERED => Err (RefundNotAllowedError RO_DELIVERED)
  | _ =>
      match command, rs_state reservation with
      | CONFIRM, RESERVED => Ok (with_state reservation CONFIRMED)
      | CONFIRM, CONFIRMED => Ok reservation
      | RELEASE, RESERVED => Ok (with_state reservation RELEASED)
      | RELEASE, RELEASED => Ok reservation
      | REFUND _, CONFIRMED => Ok (with_state reservation REFUNDED)
      | REFUND _, REFUNDED => Ok reservation
      | _, s => Err (InvalidReservationTransitionError s command)
      end
  end.

(** One accepted command. *)
Inductive reservation_step : ReservationSnapshot -> ReservationSnapshot -> Prop :=
  | reservation_step_intro r c r' :
      transitionReservation r c = Ok r' -> reservation_step r r'.

(** A replayed command list, as the reservation repository applies it. *)
Fixpoint replayReservation (r : ReservationSnapshot) (cs : list ReservationCommand)
  : result ReservationError ReservationSnapshot :=
  match cs with
  | [] => Ok r
  | c :: cs' => r' ← transitionReservation r c; replayReservation r' cs'
  end.

(** The life cycle the contract promises: RESERVED may go either way, CONFIRMED may only be
    refunded, RELEASED and REFUNDED are final. *)
Definition lifecycle_le (s t : ReservationState) : Prop :=
  match s, t with
  | RESERVED, _ => True
  | CONFIRMED, (CONFIRMED | REFUNDED) => True
  | RELEASED, RELEASED => True
  | REFUNDED, REFUNDED => True
  | _, _ => False
  end.

#[export] Instance lifecycle_le_preorder : PreOrder lifecycle_le.
Proof.
  split; [by intros [] | by intros [] [] []].
Qed.

Lemma transition_lifecycle r c r' :
  transitionReservation r c = Ok r' ->
  rs_id r' = rs_id r /\ lifecycle_le (rs_state r) (rs_state r').
Proof.
  destruct r as [i []], c as [| |[]]; cbn; intros H; by simplify_eq.
Qed.

Lemma transition_idempotent r c r' :
  transitionReservation r c = Ok r' -> transitionReservation r' c = Ok r'.
Proof. destruct r as [i []], c as [| |[]]; cbn; intros H; by simplify_eq. Qed.

Create HintDb governance discriminated.
#[export] Hint Resolve transition_idempotent : governance.

Definition decision_outcome (d : ContactDecision) : GateOutcome :=
  match d with ALLOW => O_ALLOW | BLOCK => O_BLOCK | DEFER => O_DEFER | REVIEW => O_REVIEW end.

(** A trace explains a decision when its last entry carries it and every earlier gate passed. *)
Definition trace_explains (d : ContactDecision) (code : string)
    (trace : list ContactPolicyTraceEntry) : Prop :=
  exists gates g,
    trace = map (fun g => TraceEntry g O_PASS None) gates ++
            [TraceEntry g (decision_outcome d) (Some code)].

(** The first gate allows a contact exactly when the identity is resolved, no restriction
    is active and consent is granted; otherwise it blocks or sends to review, and the trace
    always ends with the gate that decided, all earlier gates having passed. *)
Theorem contact_policy_fail_closed facts :
  let r := evaluateContactPolicy facts in
  (cpr_decision r = ALLOW <->
     cpf_identityResolution facts = ID_RESOLVED /\
     cpf_activeRestriction facts = None /\
     exists c, cpf_consent facts = Some c /\ co_status c = GRANTED) /\
  (cpr_decision r = REVIEW <-> cpf_identityResolution facts <> ID_RESOLVED) /\
  cpr_decision r <> DEFER /\
  trace_explains (cpr_decision r) (cpr_reasonCode r) (cpr_trace r).
Proof.
  destruct facts as [v [] [r|] [[[] b]|]]; cbn;
    (split; [split; [try done | intros (?&?&?&?&?)]; simplify_eq/=; eauto 10|];
     split; [by split|]; split; [done|]);
    solve [ by exists [], G_IDENTITY | by exists [G_IDENTITY], G_HARD_RESTRICTION
          | by exists [G_IDENTITY; G_HARD_RESTRICTION], G_CONSENT ].
Qed.

(** Whatever commands are replayed on a reservation, its identifier never changes and its
    state only moves forward along RESERVED, then CONFIRMED or RELEASED, then (from CONFIRMED)
    REFUNDED; so a released reservation is never confirmed and a refunded one stays refunded. *)
Theorem reservation_replay_lifecycle r cs r' :
  replayReservation r cs = Ok r' ->
  rs_id r' = rs_id r /\ lifecycle_le (rs_state r) (rs_state r').
Proof.
  revert r; induction cs as [|c cs IH]; intros r; cbn; intros H; [by inv_result|].
  apply bind_ok in H as (r1 & E & H).
  apply transition_lifecycle in E as [<- E]. apply IH in H as [-> H].
  split; [done | by etrans].
Qed.

Lemma reservation_replay_lifecycle_witness :
  rs_state (Reservation "r1" REFUNDED) = REFUNDED /\
  (rs_id (Reservation "r1" REFUNDED) = "r1" /\ lifecycle_le RESERVED REFUNDED).
Proof.
  split; [done|].
  exact (reservation_replay_lifecycle (Reservation "r1" RESERVED)
           [CONFIRM; CONFIRM; REFUND RO_DELIVERY_FAILED] (Reservation "r1" REFUNDED) eq_refl).
Defined.
