(* ===== verification/RuleRegistry.v ===== *)
(** * RuleRegistry: the closed CG4 rule registry and override eligibility

    [apps/contact-governance/src/cg4-rule-registry.ts]. The registry is an object literal, so
    an unregistered code that names a member of [Object.prototype] is looked up there: the
    lookup is modelled with that fallback. *)
From stdpp Require Import base tactics list strings.
From Stdlib Require Import ZArith Lia.
From S2P Require Import Prelude JsMap Contracts.

Open Scope string_scope.
Open Scope Z_scope.
Open Scope list_scope.

(** [Readonly<Record<Cg4ExceptionRiskTier, number>>] *)
Definition CG4_PLATFORM_LIFETIME_CAP_SECONDS (tier : Cg4ExceptionRiskTier) : Z :=
  match tier with
  | STANDARD => 4 * 60 * 60
  | HIGH => 24 * 60 * 60
  | EMERGENCY => 30 * 60
  end.

Definition NO_LIFETIME (tier : Cg4ExceptionRiskTier) : Z := 0.
Definition ALL_SCOPES : list Cg4IdentityScopeKind := [EXACT_IDENTITY; CONTACT_WIDE].

Record RuleOptions := RuleOpts {
  ro_ruleClass : Cg4RuleClass;
  ro_mechanisms : option (list Cg4OverrideMechanism);
  ro_scopes : option (list Cg4IdentityScopeKind);
  ro_riskFloor : option Cg4ExceptionRiskTier;
  ro_lifetimeCapSeconds : option (Cg4ExceptionRiskTier -> Z);
}.

Definition rule (ruleCode : string) (options : RuleOptions) : Cg4RuleMetadata :=
  let mechanisms := default [] (ro_mechanisms options) in
  {| rm_ruleCode := ruleCode;
     rm_ruleClass := ro_ruleClass options;
     rm_overridable := bool_decide (0 < Z.of_nat (length mechanisms));
     rm_allowedOverrideMechanisms := mechanisms;
     rm_supportedExceptionScopes := default [] (ro_scopes options);
     rm_riskFloor := ro_riskFloor options;
     rm_platformLifetimeCapSeconds := default NO_LIFETIME (ro_lifetimeCapSeconds options);
     rm_registryVersion := CG4_RULE_REGISTRY_VERSION |}.

Definition hard (ruleCode : string) : Cg4RuleMetadata :=
  rule ruleCode (RuleOpts NON_OVERRIDABLE None None None None).

Definition callbackScoped (ruleCode : string) : Cg4RuleMetadata :=
  rule ruleCode (RuleOpts CUSTOMER_REQUEST_SCOPED (Some [CUSTOMER_CALLBACK]) (Some ALL_SCOPES)
                   (Some STANDARD) (Some CG4_PLATFORM_LIFETIME_CAP_SECONDS)).

Definition operational (ruleCode : string) (riskFloor : Cg4ExceptionRiskTier)
    (mechanisms : list Cg4OverrideMechanism) : Cg4RuleMetadata :=
  rule ruleCode (RuleOpts APPROVAL_REQUIRED_OPERATIONAL (Some mechanisms) (Some ALL_SCOPES)
                   (Some riskFloor) (Some CG4_PLATFORM_LIFETIME_CAP_SECONDS)).

(** [CG4_RULE_CODES], the codes registered through [hard] first. *)
Definition HARD_RULE_CODES : list string :=
  ["IDENTITY_AMBIGUOUS"; "IDENTITY_NOT_FOUND"; "TENANT_SCOPE_NOT_ALLOWED";
   "TEAM_SEGMENT_NOT_ALLOWED"; "CAPABILITY_REQUIRED"; "AUTHORIZATION_CONTEXT_UNAVAILABLE";
   "DNC_GLOBAL"; "PURPOSE_OBJECTED"; "CONSENT_REVOKED"; "CONSENT_REQUIRED"; "CONSENT_EXPIRED";
   "LAWFUL_BASIS_REQUIRED"; "REGULATORY_RESTRICTION"; "SAFETY_RESTRICTION";
   "PREFERENCE_BLOCKED"; "PREFERENCE_DEFERRED"; "TIMEZONE_UNKNOWN";
   "SENDER_IDENTITY_REQUIRED"; "SENDER_IDENTITY_INVALID"; "GOVERNANCE_KILL_SWITCH_ACTIVE";
   "OUTBOUND_TRAFFIC_DISABLED"; "GOVERNANCE_VERSION_STALE"; "GOVERNANCE_STATE_UNAVAILABLE";
   "GOVERNANCE_POLICY_VERSION_UNSUPPORTED"; "CALLBACK_OVERRIDE_NOT_ALLOWED";
   "CALLBACK_OVERRIDE_EXPIRED"].

Definition CG4_RULE_CODES : list string :=
  HARD_RULE_CODES ++
  ["PREFERENCE_WINDOW_CLOSED"; "QUIET_HOURS"; "TENANT_HOLIDAY"; "MIN_GAP";
   "DAILY_ATTEMPT_CAP"; "DAILY_TOUCH_CAP"].

Definition CG4_RULE_REGISTRY : list (string * Cg4RuleMetadata) :=
  map (fun c => (c, hard c)) HARD_RULE_CODES ++
  [("PREFERENCE_WINDOW_CLOSED", callbackScoped "PREFERENCE_WINDOW_CLOSED");
   ("QUIET_HOURS", operational "QUIET_HOURS" STANDARD [CUSTOMER_CALLBACK; APPROVED_EXCEPTION]);
   ("TENANT_HOLIDAY",
      operational "TENANT_HOLIDAY" STANDARD [CUSTOMER_CALLBACK; APPROVED_EXCEPTION]);
   ("MIN_GAP", operational "MIN_GAP" HIGH [APPROVED_EXCEPTION]);
   ("DAILY_ATTEMPT_CAP", operational "DAILY_ATTEMPT_CAP" HIGH [APPROVED_EXCEPTION]);
   ("DAILY_TOUCH_CAP", operational "DAILY_TOUCH_CAP" HIGH [APPROVED_EXCEPTION])].

(** What [registry[ruleCode]] yields: the entry, or a member of [Object.prototype], on which
    every field of [Cg4RuleMetadata] reads [undefined]. *)
Definition object_prototype_members : list string :=
  ["constructor"; "__defineGetter__"; "__defineSetter__"; "hasOwnProperty";
   "__lookupGetter__"; "__lookupSetter__"; "isPrototypeOf"; "propertyIsEnumerable";
   "toString"; "valueOf"; "__proto__"; "toLocaleString"].

Inductive ResolvedMetadata :=
  | Declared (m : Cg4RuleMetadata)
  | InheritedMember.

Record Cg4RuleResolution := RuleResolution {
  rr_known : bool;
  rr_metadata : ResolvedMetadata;
}.

Definition unknownRule (ruleCode : string) : Cg4RuleMetadata :=
  {| rm_ruleCode := ruleCode;
     rm_ruleClass := NON_OVERRIDABLE;
     rm_overridable := false;
     rm_allowedOverrideMechanisms := [];
     rm_supportedExceptionScopes := [];
     rm_riskFloor := None;
     rm_platformLifetimeCapSeconds := NO_LIFETIME;
     rm_registryVersion := CG4_RULE_REGISTRY_VERSION |}.

Definition resolveCg4RuleMetadata (ruleCode : string) : Cg4RuleResolution :=
  match map_get ruleCode CG4_RULE_REGISTRY with
  | Some m => RuleResolution true (Declared m)
  | None =>
      if includes object_prototype_members ruleCode
      then RuleResolution true InheritedMember
      else RuleResolution false (Declared (unknownRule ruleCode))
  end.

Inductive Cg4OverrideIneligibilityReason :=
  | RULE_NOT_REGISTERED | NON_OVERRIDABLE_RULE | OVERRIDE_MECHANISM_NOT_ALLOWED
  | SCOPE_NOT_SUPPORTED | RULE_NOT_ENABLED_BY_POLICY | RULE_SET_INVALID
  | RISK_TIER_UNSUPPORTED | RISK_TIER_TOO_LOW | LIFETIME_EXCEEDS_CAP.
#[export] Instance Cg4OverrideIneligibilityReason_eq_dec :
  EqDecision Cg4OverrideIneligibilityReason.
Proof. solve_decision. Defined.

Inductive Cg4OverrideEligibility :=
  | Eligible (metadata : Cg4RuleMetadata) (lifetimeCapSeconds : Z)
  | Ineligible (reason : Cg4OverrideIneligibilityReason) (metadata : ResolvedMetadata).

Definition RISK_RANK (tier : Cg4ExceptionRiskTier) : Z :=
  match tier with STANDARD => 0 | HIGH => 1 | EMERGENCY => 2 end.

Record Cg4OverrideEligibilityInput := EligibilityInput {
  oe_ruleCode : string;
  oe_mechanism : Cg4OverrideMechanism;
  oe_identityScope : Cg4IdentityScopeKind;
  oe_policyAllowedRuleCodes : list string;
  oe_riskTier : Cg4ExceptionRiskTier;
  oe_requestedRuleCount : Z;
  oe_lifetimeSeconds : Z;
}.

(** [effectiveRiskFloor] *)
Definition effectiveRiskFloor (i : Cg4OverrideEligibilityInput) (m : Cg4RuleMetadata)
  : option Cg4ExceptionRiskTier :=
  if bool_decide (oe_identityScope i = CONTACT_WIDE) || (1 <? oe_requestedRuleCount i)
  then Some HIGH else rm_riskFloor m.

Definition below_floor (tier : Cg4ExceptionRiskTier) (floor : option Cg4ExceptionRiskTier) : bool :=
  match floor with Some f => RISK_RANK tier <? RISK_RANK f | None => false end.

(** The guards after [metadata] is known to be a declared entry. The tier is one of the three
    literals and both counts are integers, so [Object.hasOwn] and [Number.isInteger] hold. *)
Definition eligibility_of (i : Cg4OverrideEligibilityInput) (m : Cg4RuleMetadata)
  : Cg4OverrideEligibility :=
  if negb (rm_overridable m) then Ineligible NON_OVERRIDABLE_RULE (Declared m)
  else if negb (includes (rm_allowedOverrideMechanisms m) (oe_mechanism i))
  then Ineligible OVERRIDE_MECHANISM_NOT_ALLOWED (Declared m)
  else if negb (includes (rm_supportedExceptionScopes m) (oe_identityScope i))
  then Ineligible SCOPE_NOT_SUPPORTED (Declared m)
  else if negb (includes (oe_policyAllowedRuleCodes i) (oe_ruleCode i))
  then Ineligible RULE_NOT_ENABLED_BY_POLICY (Declared m)
  else if oe_requestedRuleCount i <=? 0 then Ineligible RULE_SET_INVALID (Declared m)
  else if below_floor (oe_riskTier i) (effectiveRiskFloor i m)
  then Ineligible RISK_TIER_TOO_LOW (Declared m)
  else
    let cap := rm_platformLifetimeCapSeconds m (oe_riskTier i) in
    if (oe_lifetimeSeconds i <=? 0) || (cap <? oe_lifetimeSeconds i)
    then Ineligible LIFETIME_EXCEEDS_CAP (Declared m)
    else Eligible m cap.

Definition resolveCg4OverrideEligibility (i : Cg4OverrideEligibilityInput)
  : Cg4OverrideEligibility :=
  let resolution := resolveCg4RuleMetadata (oe_ruleCode i) in
  if negb (rr_known resolution) then Ineligible RULE_NOT_REGISTERED (rr_metadata resolution)
  else match rr_metadata resolution with
       | InheritedMember => Ineligible NON_OVERRIDABLE_RULE InheritedMember
       | Declared m => eligibility_of i m
       end.

Definition eligible (e : Cg4OverrideEligibility) : bool :=
  match e with Eligible _ _ => true | Ineligible _ _ => false end.

(** ** The override policy, stated on its own

    Which mechanism may lift which rule, and the lowest tier that may ask for it. *)
Inductive may_override : string -> Cg4OverrideMechanism -> Cg4ExceptionRiskTier -> Prop :=
  | mo_window : may_override "PREFERENCE_WINDOW_CLOSED" CUSTOMER_CALLBACK STANDARD
  | mo_quiet m : may_override "QUIET_HOURS" m STANDARD
  | mo_holiday m : may_override "TENANT_HOLIDAY" m STANDARD
  | mo_gap : may_override "MIN_GAP" APPROVED_EXCEPTION HIGH
  | mo_attempt : may_override "DAILY_ATTEMPT_CAP" APPROVED_EXCEPTION HIGH
  | mo_touch : may_override "DAILY_TOUCH_CAP" APPROVED_EXCEPTION HIGH.

Definition override_spec (i : Cg4OverrideEligibilityInput) : Prop :=
  exists floor,
    may_override (oe_ruleCode i) (oe_mechanism i) floor /\
    In (oe_ruleCode i) (oe_policyAllowedRuleCodes i) /\
    0 < oe_requestedRuleCount i /\
    RISK_RANK floor <= RISK_RANK (oe_riskTier i) /\
    (oe_identityScope i = CONTACT_WIDE \/ 1 < oe_requestedRuleCount i ->
       oe_riskTier i <> STANDARD) /\
    0 < oe_lifetimeSeconds i <= CG4_PLATFORM_LIFETIME_CAP_SECONDS (oe_riskTier i).

Lemma registry_hard c : In c HARD_RULE_CODES -> map_get c CG4_RULE_REGISTRY = Some (hard c).
Proof.
  intros H. cbn in H.
  repeat (destruct H as [<-|H]; [reflexivity|]). done.
Qed.

Lemma registry_overridable c m :
  map_get c CG4_RULE_REGISTRY = Some m -> rm_overridable m = true ->
  c = rm_ruleCode m /\
  rm_supportedExceptionScopes m = ALL_SCOPES /\
  rm_platformLifetimeCapSeconds m = CG4_PLATFORM_LIFETIME_CAP_SECONDS /\
  exists floor, rm_riskFloor m = Some floor /\
    forall mech, In mech (rm_allowedOverrideMechanisms m) <-> may_override c mech floor.
Proof.
  intros Hget Hov. apply map_get_In in Hget. cbn in Hget.
  repeat (destruct Hget as [[= <- <-]|Hget]; [|]); try done; cbn in Hov; try discriminate Hov;
    (split; [done|]); (split; [done|]); (split; [done|]);
    eexists; (split; [done|]); intros []; cbn; (split; [intros H|inversion 1]);
    first [ by constructor | by tauto | naive_solver ].
Qed.

Lemma may_override_registered c mech floor :
  may_override c mech floor ->
  exists m, map_get c CG4_RULE_REGISTRY = Some m /\ rm_overridable m = true /\
    rm_riskFloor m = Some floor.
Proof. destruct 1; eexists; (split; [reflexivity|]); done. Qed.

Lemma may_override_code c mech floor : may_override c mech floor -> In c CG4_RULE_CODES.
Proof.
  intros H. apply includes_spec. destruct H; reflexivity.
Qed.

Lemma may_override_not_hard c mech floor : may_override c mech floor -> ~ In c HARD_RULE_CODES.
Proof.
  intros H Hin. apply registry_hard in Hin.
  destruct (may_override_registered _ _ _ H) as (m & Hm & Hov & _).
  rewrite Hin in Hm. injection Hm as <-. discriminate Hov.
Qed.

Lemma below_floor_spec i m floor :
  rm_riskFloor m = Some floor -> (floor = STANDARD \/ floor = HIGH) ->
  below_floor (oe_riskTier i) (effectiveRiskFloor i m) = false <->
  RISK_RANK floor <= RISK_RANK (oe_riskTier i) /\
  (oe_identityScope i = CONTACT_WIDE \/ 1 < oe_requestedRuleCount i -> oe_riskTier i <> STANDARD).
Proof.
  intros Hf Hfl. unfold effectiveRiskFloor. rewrite Hf.
  destruct (bool_decide_reflect (oe_identityScope i = CONTACT_WIDE)) as [Hw|Hw]; cbn;
    [|destruct (Z.ltb_spec 1 (oe_requestedRuleCount i))]; cbn;
    rewrite Z.ltb_ge; destruct (oe_riskTier i), Hfl as [-> | ->]; cbn; intuition (try lia; try done).
Qed.

Lemma may_override_floor c mech floor :
  may_override c mech floor -> floor = STANDARD \/ floor = HIGH.
Proof. destruct 1; tauto. Qed.

Lemma all_scopes k : In k ALL_SCOPES.
Proof. destruct k; cbn; tauto. Qed.

Lemma eligibility_of_spec i m :
  map_get (oe_ruleCode i) CG4_RULE_REGISTRY = Some m ->
  eligible (eligibility_of i m) = true <-> override_spec i.
Proof.
  intros Hm. unfold eligibility_of, override_spec.
  destruct (rm_overridable m) eqn:Hov; cbn.
  2:{ split; [done|]. intros (fl & Ho & _).
      destruct (may_override_registered _ _ _ Ho) as (m' & ? & ? & _). congruence. }
  destruct (registry_overridable _ _ Hm Hov) as (_ & Hsc & Hcap & floor & Hfl & Hmech).
  rewrite Hsc, Hcap.
  assert (Huniq : forall f, may_override (oe_ruleCode i) (oe_mechanism i) f -> f = floor).
  { intros f Hf. destruct (may_override_registered _ _ _ Hf) as (m' & ? & ? & ?). congruence. }
  destruct (includes (rm_allowedOverrideMechanisms m) (oe_mechanism i)) eqn:E1; cbn.
  2:{ apply includes_false in E1. split; [done|]. intros (f & Ho & _).
      pose proof (Huniq _ Ho) as ->. apply Hmech in Ho. done. }
  apply includes_spec, Hmech in E1.
  replace (includes ALL_SCOPES (oe_identityScope i)) with true
    by (symmetry; apply includes_spec, all_scopes). cbn.
  destruct (includes (oe_policyAllowedRuleCodes i) (oe_ruleCode i)) eqn:E2; cbn.
  2:{ apply includes_false in E2. split; [done|]. naive_solver. }
  apply includes_spec in E2.
  destruct (Z.leb_spec (oe_requestedRuleCount i) 0); cbn; [split; [done|]; intros (?&?&?&?&?); lia|].
  pose proof (below_floor_spec i m floor Hfl (may_override_floor _ _ _ E1)) as Hb.
  destruct (below_floor (oe_riskTier i) (effectiveRiskFloor i m)); cbn.
  - split; [done|]. intros (f & Ho & _ & _ & H1 & H2 & _). pose proof (Huniq _ Ho) as ->.
    by pose proof (proj2 Hb (conj H1 H2)).
  - destruct (proj1 Hb eq_refl) as [? ?].
    destruct (Z.leb_spec (oe_lifetimeSeconds i) 0),
      (Z.ltb_spec (CG4_PLATFORM_LIFETIME_CAP_SECONDS (oe_riskTier i)) (oe_lifetimeSeconds i)); cbn;
      (split; [try done|]); try (intros (?&?&?&?&?&?&?&?); lia); [].
    intros _. exists floor. repeat split; try done; lia.
Qed.

Lemma eligible_spec i : eligible (resolveCg4OverrideEligibility i) = true <-> override_spec i.
Proof.
  unfold resolveCg4OverrideEligibility, resolveCg4RuleMetadata.
  destruct (map_get (oe_ruleCode i) CG4_RULE_REGISTRY) as [m|] eqn:E; cbn.
  - by apply eligibility_of_spec.
  - assert (~ override_spec i).
    { intros (f & Ho & _). destruct (may_override_registered _ _ _ Ho) as (? & ? & _). congruence. }
    destruct (includes _ _); cbn; (split; [done|tauto]).
Qed.

(** An override request is granted exactly when the override policy allows it: the rule is
    one the mechanism may lift, the tenant policy enables it, the tier reaches the rule's floor
    (HIGH as soon as the exception is contact-wide or names several rules) and the lifetime is
    positive and within the tier's platform cap. Hard rules and unregistered codes, names of
    [Object.prototype] members among them, are never granted. *)
Theorem override_eligibility_iff i :
  (eligible (resolveCg4OverrideEligibility i) = true <-> override_spec i) /\
  (In (oe_ruleCode i) HARD_RULE_CODES \/ ~ In (oe_ruleCode i) CG4_RULE_CODES ->
     eligible (resolveCg4OverrideEligibility i) = false).
Proof.
  split; [apply eligible_spec|]. intros Hc. apply not_true_is_false. rewrite eligible_spec. intros (f & Ho & _).
  pose proof (may_override_not_hard _ _ _ Ho). destruct Hc as [Hc|Hc]; [done|].
  apply Hc. by eapply may_override_code.
Qed.

Lemma override_eligibility_iff_witness :
  let i := EligibilityInput "toString" APPROVED_EXCEPTION CONTACT_WIDE ["toString"] HIGH 1 3600 in
  ~ In "toString" CG4_RULE_CODES /\ eligible (resolveCg4OverrideEligibility i) = false.
Proof.
  split; [cbn; intuition discriminate|].
  apply (override_eligibility_iff
           (EligibilityInput "toString" APPROVED_EXCEPTION CONTACT_WIDE ["toString"] HIGH 1 3600)).
  right. cbn. intuition discriminate.
Defined.
