(* ===== verification/ScopeKey.v ===== *)
(** * ScopeKey: canonical policy scope keys

    The scope-key half of [apps/contact-governance/src/cg4-policy-compiler.ts]: building,
    parsing, specificity, ambiguity and matching. *)
From stdpp Require Import base tactics list strings.
From Stdlib Require Import ZArith Lia Ascii.
From S2P Require Import Prelude Text Contracts.

Open Scope string_scope.
Open Scope Z_scope.
Open Scope list_scope.

Inductive Cg4PolicyValidationError :=
  | VALIDATION_FAILED | SCOPE_INVALID | PV_RULE_NOT_REGISTERED | PV_NON_OVERRIDABLE_RULE
  | POLICY_VERSION_UNSUPPORTED.
#[export] Instance Cg4PolicyValidationError_eq_dec : EqDecision Cg4PolicyValidationError.
Proof. solve_decision. Defined.

Inductive Cg4PolicyScopeDimension := D_channel | D_contactKind | D_purpose | D_sourceType.
#[export] Instance Cg4PolicyScopeDimension_eq_dec : EqDecision Cg4PolicyScopeDimension.
Proof. solve_decision. Defined.

Definition CG4_POLICY_SCOPE_DIMENSIONS : list Cg4PolicyScopeDimension :=
  [D_channel; D_contactKind; D_purpose; D_sourceType].

Definition dimension_name (d : Cg4PolicyScopeDimension) : string :=
  match d with
  | D_channel => "channel"
  | D_contactKind => "contactKind"
  | D_purpose => "purpose"
  | D_sourceType => "sourceType"
  end.

(** [Readonly<Partial<Record<Cg4PolicyScopeDimension, string>>>], also the shape of the request
    a scope is matched against. *)
Record Cg4PolicyScopeDimensions := Dimensions {
  sd_channel : option string;
  sd_contactKind : option string;
  sd_purpose : option string;
  sd_sourceType : option string;
}.
#[export] Instance Cg4PolicyScopeDimensions_eq_dec : EqDecision Cg4PolicyScopeDimensions.
Proof. solve_decision. Defined.

(** [dimensions[dimension]] *)
Definition dim_get (ds : Cg4PolicyScopeDimensions) (d : Cg4PolicyScopeDimension) : option string :=
  match d with
  | D_channel => sd_channel ds
  | D_contactKind => sd_contactKind ds
  | D_purpose => sd_purpose ds
  | D_sourceType => sd_sourceType ds
  end.

Definition UNBOUND : string := "*".

Definition is_bar (c : ascii) : bool := Ascii.eqb c "|".
Definition is_equals (c : ascii) : bool := Ascii.eqb c "=".

Definition scopeValue (value : option string) : result Cg4PolicyValidationError string :=
  match value with
  | None => Ok UNBOUND
  | Some v =>
      let normalized := trim v in
      if bool_decide (normalized = "") || bool_decide (normalized = UNBOUND) ||
         contains_any (fun c => is_bar c || is_equals c) normalized
      then Err SCOPE_INVALID else Ok normalized
  end.

Definition scope_part (ds : Cg4PolicyScopeDimensions) (d : Cg4PolicyScopeDimension)
  : result Cg4PolicyValidationError string :=
  v ← scopeValue (dim_get ds d); Ok (dimension_name d +:+ "=" +:+ v).

Definition buildCg4PolicyScopeKey (ds : Cg4PolicyScopeDimensions)
  : result Cg4PolicyValidationError string :=
  join "|" <$> map_result (scope_part ds) CG4_POLICY_SCOPE_DIMENSIONS.

(** The body of the [parts.forEach] callback. *)
Definition parse_part (expected : Cg4PolicyScopeDimension) (part : string)
  : result Cg4PolicyValidationError (option string) :=
  match cut_at "="%char part with
  | None => Err SCOPE_INVALID
  | Some (name, value) =>
      if negb (bool_decide (name = dimension_name expected)) then Err SCOPE_INVALID
      else if bool_decide (value = "") then Err SCOPE_INVALID
      else Ok (if bool_decide (value = UNBOUND) then None else Some value)
  end.

Definition parseCg4PolicyScopeKey (scopeKey : string)
  : result Cg4PolicyValidationError Cg4PolicyScopeDimensions :=
  match split_char "|"%char scopeKey with
  | [p1; p2; p3; p4] =>
      channel ← parse_part D_channel p1;
      contactKind ← parse_part D_contactKind p2;
      purpose ← parse_part D_purpose p3;
      sourceType ← parse_part D_sourceType p4;
      Ok (Dimensions channel contactKind purpose sourceType)
  | _ => Err SCOPE_INVALID
  end.

Definition no_dimensions : Cg4PolicyScopeDimensions := Dimensions None None None None.

(** [cg4EventScopeDimensions]: any key that is not canonical carries no dimension. *)
Definition cg4EventScopeDimensions (scopeKey : string) : Cg4PolicyScopeDimensions :=
  match parseCg4PolicyScopeKey scopeKey with Ok ds => ds | Err _ => no_dimensions end.

Definition bound_count (ds : Cg4PolicyScopeDimensions) : Z :=
  Z.of_nat (length (js_filter (fun d => bool_decide (is_Some (dim_get ds d)))
                      CG4_POLICY_SCOPE_DIMENSIONS)).

Definition cg4PolicyScopeSpecificity (scopeKey : string) : result Cg4PolicyValidationError Z :=
  bound_count <$> parseCg4PolicyScopeKey scopeKey.

(** The [every] of [cg4PolicyScopesAmbiguous]: the two agree wherever both bind. *)
Definition dims_compatible (a b : Cg4PolicyScopeDimensions) : bool :=
  js_every (fun d =>
    match dim_get a d, dim_get b d with
    | Some l, Some r => bool_decide (l = r)
    | _, _ => true
    end) CG4_POLICY_SCOPE_DIMENSIONS.

Definition cg4PolicyScopesAmbiguous (left right : string)
  : result Cg4PolicyValidationError bool :=
  if bool_decide (left = right) then Ok false
  else
    sl ← cg4PolicyScopeSpecificity left;
    sr ← cg4PolicyScopeSpecificity right;
    if negb (sl =? sr) then Ok false
    else
      a ← parseCg4PolicyScopeKey left;
      b ← parseCg4PolicyScopeKey right;
      Ok (dims_compatible a b).

(** The [every] of [cg4PolicyScopeMatches]: unbound is a wildcard. *)
Definition dims_match (ds request : Cg4PolicyScopeDimensions) : bool :=
  js_every (fun d =>
    match dim_get ds d with
    | None => true
    | Some bound => bool_decide (Some bound = dim_get request d)
    end) CG4_POLICY_SCOPE_DIMENSIONS.

Definition cg4PolicyScopeMatches (scopeKey : string) (request : Cg4PolicyScopeDimensions)
  : result Cg4PolicyValidationError bool :=
  ds ← parseCg4PolicyScopeKey scopeKey; Ok (dims_match ds request).

(** [scope.x ? { x: scope.x } : {}]: an empty string is falsy. *)
Definition truthy (s : option string) : option string :=
  match s with Some "" => None | _ => s end.

Definition cg4PolicyScopeKeyFor (scope : Cg4PolicyScopeDimensions)
  : result Cg4PolicyValidationError string :=
  buildCg4PolicyScopeKey
    (Dimensions (truthy (sd_channel scope)) (truthy (sd_contactKind scope))
                (truthy (sd_purpose scope)) (truthy (sd_sourceType scope))).

(** ** Lemmas *)

Definition free_of (c : ascii) (s : string) : Prop :=
  string_forall (fun d => negb (Ascii.eqb d c)) s = true.

Lemma scopeValue_ok v s :
  scopeValue v = Ok s ->
  free_of "|" s /\ s <> "" /\ (if bool_decide (s = UNBOUND) then None else Some s) = trim <$> v.
Proof.
  destruct v as [v|]; cbn; [|by intros [= <-]].
  destruct (bool_decide (trim v = "") || bool_decide (trim v = UNBOUND)) eqn:E; cbn; [done|].
  destruct (contains_any _ (trim v)) eqn:C; cbn; [done|]. intros [= <-]. bool_prop.
  split; [|split; [done | by rewrite bool_decide_eq_false_2]].
  unfold contains_any in C. apply negb_false_iff in C. unfold free_of.
  clear -C. induction (trim v) as [|c s IH]; cbn in *; [done|].
  unfold is_bar, is_equals in C. destruct (Ascii.eqb c "|"), (Ascii.eqb c "="); cbn in *; try done.
  by apply IH.
Qed.

Lemma dimension_name_free d c : (c = "|" \/ c = "=")%char -> free_of c (dimension_name d).
Proof. intros [-> | ->]; destruct d; reflexivity. Qed.

Lemma scope_part_spec ds d p :
  scope_part ds d = Ok p -> free_of "|" p /\ parse_part d p = Ok (trim <$> dim_get ds d).
Proof.
  unfold scope_part. intros H. apply bind_ok in H as (v & Hv & [= <-]).
  apply scopeValue_ok in Hv as (Hfree & Hne & Hval). split.
  - unfold free_of in *. rewrite !string_forall_app, Hfree.
    rewrite (dimension_name_free d "|") by tauto. done.
  - unfold parse_part. rewrite (append_cons "="), append_nil_l.
    rewrite cut_at_app by (apply dimension_name_free; tauto).
    rewrite bool_decide_eq_true_2 by done. cbn. rewrite bool_decide_eq_false_2 by done.
    by rewrite Hval.
Qed.

Lemma split_join_parts l :
  l <> [] -> Forall (free_of "|") l -> split_char "|"%char (join "|" l) = l.
Proof. apply split_join. Qed.

Lemma parse_part_inj d p v : parse_part d p = Ok v ->
  p = dimension_name d +:+ String "=" (default UNBOUND v).
Proof.
  unfold parse_part. destruct (cut_at "=" p) as [[n w]|] eqn:E; [|done].
  apply cut_at_eq in E as ->. repeat case_bool_decide; cbn; try done; intros [= <-]; by subst.
Qed.

Lemma join_split c s : join (String c "") (split_char c s) = s.
Proof.
  induction s as [|d s IH]; [done|]. cbn [split_char].
  destruct (Ascii.eqb_spec d c) as [->|Hne].
  - destruct (split_char c s) as [|w ws] eqn:E.
    + destruct s; cbn in E; [done|]. destruct (Ascii.eqb a c); [done|]. by destruct (split_char c s).
    + change (join (String c "") ("" :: w :: ws)) with ("" +:+ String c "" +:+ join (String c "") (w :: ws)).
      by rewrite IH.
  - destruct (split_char c s) as [|w ws] eqn:E.
    + destruct s; cbn in E; [done|]. destruct (Ascii.eqb a c); [done|]. by destruct (split_char c s).
    + rewrite <- IH. destruct ws; [done|]. cbn. by rewrite append_cons.
Qed.

(** The text of a key is determined by its dimensions. *)
Definition scope_text (ds : Cg4PolicyScopeDimensions) : string :=
  join "|" (map (fun d => dimension_name d +:+ String "=" (default UNBOUND (dim_get ds d)))
              CG4_POLICY_SCOPE_DIMENSIONS).

Lemma parse_scope_text k ds : parseCg4PolicyScopeKey k = Ok ds -> k = scope_text ds.
Proof.
  unfold parseCg4PolicyScopeKey. rewrite <- (join_split "|" k) at 2.
  destruct (split_char "|" k) as [|p1 [|p2 [|p3 [|p4 []]]]]; try done.
  intros H. inv_result. repeat match goal with
  | H : parse_part _ _ = Ok _ |- _ => apply parse_part_inj in H; subst
  end. done.
Qed.

Lemma dims_compatible_iff a b :
  dims_compatible a b = true <-> exists r, dims_match a r = true /\ dims_match b r = true.
Proof.
  unfold dims_compatible, dims_match. destruct a as [a1 a2 a3 a4], b as [b1 b2 b3 b4]. split.
  - intros H. exists (Dimensions (union a1 b1) (union a2 b2) (union a3 b3) (union a4 b4)).
    cbn in *. bool_prop.
    destruct a1, b1, a2, b2, a3, b3, a4, b4; cbn in *; bool_prop; subst;
      repeat rewrite bool_decide_eq_true_2 by done; done.
  - intros ([r1 r2 r3 r4] & Ha & Hb). cbn in *. bool_prop.
    destruct a1, b1; cbn in *; bool_prop; simplify_eq; try rewrite bool_decide_eq_true_2 by done;
    destruct a2, b2; cbn in *; bool_prop; simplify_eq; try rewrite bool_decide_eq_true_2 by done;
    destruct a3, b3; cbn in *; bool_prop; simplify_eq; try rewrite bool_decide_eq_true_2 by done;
    destruct a4, b4; cbn in *; bool_prop; simplify_eq; try rewrite bool_decide_eq_true_2 by done;
    done.
Qed.

Definition trim_dims (ds : Cg4PolicyScopeDimensions) : Cg4PolicyScopeDimensions :=
  Dimensions (trim <$> sd_channel ds) (trim <$> sd_contactKind ds)
             (trim <$> sd_purpose ds) (trim <$> sd_sourceType ds).

Lemma build_parse ds k :
  buildCg4PolicyScopeKey ds = Ok k -> parseCg4PolicyScopeKey k = Ok (trim_dims ds).
Proof.
  unfold buildCg4PolicyScopeKey. intros H. apply fmap_ok in H as (ps & Hps & <-).
  apply map_result_ok in Hps. unfold CG4_POLICY_SCOPE_DIMENSIONS in Hps.
  repeat match goal with H : Forall2 _ (_ :: _) _ |- _ => inversion H; clear H; subst end.
  repeat match goal with H : Forall2 _ [] _ |- _ => inversion H; clear H; subst end.
  repeat match goal with H : scope_part _ _ = Ok _ |- _ => apply scope_part_spec in H as [? ?] end.
  unfold parseCg4PolicyScopeKey. rewrite split_join_parts by (try done; repeat constructor; done).
  by repeat match goal with H : parse_part _ _ = Ok _ |- _ => rewrite H; clear H end.
Qed.

(** C40: a scope key that can be built parses back to the dimensions it was built from (their
    white space trimmed), and a parsed key whose dimensions can be built again is rebuilt
    letter for letter, so a canonical key and its dimensions determine each other. *)
Theorem scope_key_roundtrip ds k :
  (buildCg4PolicyScopeKey ds = Ok k -> parseCg4PolicyScopeKey k = Ok (trim_dims ds)) /\
  (forall k', parseCg4PolicyScopeKey k = Ok ds -> trim_dims ds = ds ->
     buildCg4PolicyScopeKey ds = Ok k' -> k' = k).
Proof.
  split; [apply build_parse|]. intros k' Hp Ht Hb.
  apply build_parse in Hb. rewrite Ht in Hb.
  by rewrite (parse_scope_text _ _ Hp), (parse_scope_text _ _ Hb).
Qed.

Lemma scope_key_roundtrip_witness :
  let ds := Dimensions (Some " LINE ") None (Some "MARKETING") None in
  let k := "channel=LINE|contactKind=*|purpose=MARKETING|sourceType=*" in
  buildCg4PolicyScopeKey ds = Ok k /\
  parseCg4PolicyScopeKey k = Ok (Dimensions (Some "LINE") None (Some "MARKETING") None).
Proof.
  split; [reflexivity|].
  exact (proj1 (scope_key_roundtrip (Dimensions (Some " LINE ") None (Some "MARKETING") None)
           "channel=LINE|contactKind=*|purpose=MARKETING|sourceType=*") eq_refl).
Defined.

Lemma bound_sets_differ a b :
  bound_count a = bound_count b -> dims_compatible a b = true -> a <> b ->
  exists d, is_Some (dim_get a d) /\ dim_get b d = None.
Proof.
  destruct a as [a1 a2 a3 a4], b as [b1 b2 b3 b4]. unfold bound_count, dims_compatible. cbn.
  intros Hc H Hne. bool_prop.
  destruct a1; [destruct b1; [|by exists D_channel]|];
  (destruct a2; [destruct b2; [|by exists D_contactKind]|]);
  (destruct a3; [destruct b3; [|by exists D_purpose]|]);
  (destruct a4; [destruct b4; [|by exists D_sourceType]|]);
  bool_prop; subst; try done;
  repeat match goal with
  | H : context [bool_decide (is_Some (Some ?x))] |- _ =>
      rewrite (bool_decide_eq_true_2 (is_Some (Some x))) in H by done
  | H : context [bool_decide (is_Some None)] |- _ =>
      rewrite (bool_decide_eq_false_2 (is_Some None)) in H by (by intros [? ?])
  | b : option string |- _ => destruct b
  end; cbn in *; try lia; done.
Qed.

Lemma specificity_parse k ds :
  parseCg4PolicyScopeKey k = Ok ds -> cg4PolicyScopeSpecificity k = Ok (bound_count ds).
Proof. intros H. unfold cg4PolicyScopeSpecificity. by rewrite H. Qed.

(** Two canonical scope keys are reported ambiguous exactly when they are different keys of
    the same specificity that some one request falls under both; and then each of them binds a
    dimension the other leaves open. *)
Theorem scopes_ambiguous_iff l r a b :
  parseCg4PolicyScopeKey l = Ok a -> parseCg4PolicyScopeKey r = Ok b ->
  (cg4PolicyScopesAmbiguous l r = Ok true <->
     l <> r /\ bound_count a = bound_count b /\
     exists req, cg4PolicyScopeMatches l req = Ok true /\ cg4PolicyScopeMatches r req = Ok true) /\
  (cg4PolicyScopesAmbiguous l r = Ok true ->
     (exists d, is_Some (dim_get a d) /\ dim_get b d = None) /\
     (exists d, is_Some (dim_get b d) /\ dim_get a d = None)).
Proof.
  intros Ha Hb.
  assert (Hm : forall req, (cg4PolicyScopeMatches l req = Ok true /\
                            cg4PolicyScopeMatches r req = Ok true) <->
               dims_match a req = true /\ dims_match b req = true).
  { intros req. unfold cg4PolicyScopeMatches. rewrite Ha, Hb. cbn.
    split; [intros [[= ->] [= ->]]; done | by intros [-> ->]]. }
  assert (Hiff : cg4PolicyScopesAmbiguous l r = Ok true <->
    l <> r /\ bound_count a = bound_count b /\ dims_compatible a b = true).
  { unfold cg4PolicyScopesAmbiguous. rewrite (specificity_parse _ _ Ha), (specificity_parse _ _ Hb).
    rewrite Ha, Hb. cbn. case_bool_decide; [naive_solver|].
    destruct (Z.eqb_spec (bound_count a) (bound_count b)); cbn; [|naive_solver].
    split; [by intros [= ->] | by intros (_ & _ & ->)]. }
  rewrite Hiff. split.
  - rewrite dims_compatible_iff. setoid_rewrite Hm. done.
  - intros (Hne & Hc & Hd).
    assert (a <> b) by (intros ->; apply Hne; by rewrite (parse_scope_text _ _ Ha), (parse_scope_text _ _ Hb)).
    split; [by apply bound_sets_differ|]. apply bound_sets_differ; [done| |by apply not_eq_sym].
    apply dims_compatible_iff. apply dims_compatible_iff in Hd as (q & ? & ?). by exists q.
Qed.

Lemma scopes_ambiguous_iff_witness :
  let l := "channel=LINE|contactKind=*|purpose=*|sourceType=*" in
  let r := "channel=*|contactKind=*|purpose=MARKETING|sourceType=*" in
  cg4PolicyScopesAmbiguous l r = Ok true /\
  exists d, is_Some (dim_get (Dimensions (Some "LINE") None None None) d) /\
            dim_get (Dimensions None None (Some "MARKETING") None) d = None.
Proof.
  split; [reflexivity|].
  apply (scopes_ambiguous_iff "channel=LINE|contactKind=*|purpose=*|sourceType=*"
           "channel=*|contactKind=*|purpose=MARKETING|sourceType=*"
           (Dimensions (Some "LINE") None None None)
           (Dimensions None None (Some "MARKETING") None)); reflexivity.
Defined.
