(* ===== verification/Windows.v ===== *)
(** * Windows: local-time windows

    [LocalTimeWindow], [localMinute] and [normalizeLocalTimeWindows] of
    [apps/contact-governance/src/cg3-persistence.ts], and the two window predicates that read
    them: [withinWindow] of [cg3-policy-evaluator.ts] and that of [cg4-policy-diff.ts]. *)
From stdpp Require Import base tactics list strings.
From Stdlib Require Import ZArith Lia Ascii Sorting.Permutation Sorting.Sorted.
From S2P Require Import Prelude Text.

Open Scope string_scope.
Open Scope Z_scope.
Open Scope list_scope.

Record LocalTimeWindow := Window {
  daysOfWeek : list Z;
  startLocal : string;
  endLocal : string;
}.
#[export] Instance LocalTimeWindow_eq_dec : EqDecision LocalTimeWindow.
Proof. solve_decision. Defined.

(** [value.split(':').map(Number)] *)
Definition clock_fields (value : string) : list (option Z) :=
  map js_number (split_char ":"%char value).

(** [hour * 60 + minute], [NaN] as soon as one of them is. *)
Definition minutes_of (hour minute : option Z) : option Z :=
  match hour, minute with Some h, Some m => Some (h * 60 + m) | _, _ => None end.

(** A destructured element that is missing reads [undefined], hence [NaN] in arithmetic. *)
Definition clock_minutes (value : string) : option Z :=
  let fields := clock_fields value in
  minutes_of (nth 0 fields None) (nth 1 fields None).

(** The [diff] reads a missing element as 0: [[hour = 0, minute = 0]]. *)
Definition clock_minutes0 (value : string) : option Z :=
  let fields := clock_fields value in
  minutes_of (nth 0 fields (Some 0)) (nth 1 fields (Some 0)).

Definition window_test (start stop : option Z) (minuteOfDay : Z) : bool :=
  if num_gt stop start
  then num_ge (Some minuteOfDay) start && num_lt (Some minuteOfDay) stop
  else num_ge (Some minuteOfDay) start || num_lt (Some minuteOfDay) stop.

(** [cg3-policy-evaluator.ts] *)
Definition withinWindow (window : LocalTimeWindow) (weekday minuteOfDay : Z) : bool :=
  if negb (includes (daysOfWeek window) weekday) then false
  else window_test (clock_minutes (startLocal window)) (clock_minutes (endLocal window)) minuteOfDay.

Definition anyWindowMatches (windows : list LocalTimeWindow) (weekday minuteOfDay : Z) : bool :=
  js_some (fun window => withinWindow window weekday minuteOfDay) windows.

(** [cg4-policy-diff.ts] *)
Definition diff_withinWindow (window : LocalTimeWindow) (weekday minuteOfDay : Z) : bool :=
  if negb (includes (daysOfWeek window) weekday) then false
  else window_test (clock_minutes0 (startLocal window)) (clock_minutes0 (endLocal window)) minuteOfDay.

Definition covers (windows : list LocalTimeWindow) (weekday minute : Z) : bool :=
  js_some (fun window => diff_withinWindow window weekday minute) windows.

(** ** [normalizeLocalTimeWindows] *)

Inductive WindowError := WindowTypeError | WindowRangeError.
#[export] Instance WindowError_eq_dec : EqDecision WindowError.
Proof. solve_decision. Defined.

(** [/^(?:[01]\d|2[0-3]):[0-5]\d$/] *)
Definition clock_shape (value : string) : bool :=
  match value with
  | String a (String b (String c (String d (String e EmptyString)))) =>
      is_digit b && is_digit e && Ascii.eqb c ":" &&
      ((48 <=? code d) && (code d <=? 53)) &&
      ((code a =? 48) || (code a =? 49) || ((code a =? 50) && (code b <=? 51)))
  | _ => false
  end.

Definition localMinute (value : string) : result WindowError Z :=
  if negb (clock_shape value) then Err WindowTypeError
  else match clock_minutes value with
       | Some m => Ok m
       | None => Err WindowTypeError
       end.

(** The body of the first [windows.map]. *)
Definition normalizeWindow (window : LocalTimeWindow) : result WindowError LocalTimeWindow :=
  let days := sort_by Z.leb (set_to_array (daysOfWeek window)) in
  throw_if (bool_decide (days = []) || js_some (fun day => (day <? 1) || (7 <? day)) days)
    WindowTypeError ;;
  _ ← localMinute (startLocal window);
  _ ← localMinute (endLocal window);
  Ok (Window days (startLocal window) (endLocal window)).

Definition weekMinutes : Z := 7 * 24 * 60.

Definition interval : Type := Z * Z.

(** The minutes of the week one window claims on one of its days. *)
Definition dayIntervals (startMinute endMinute day : Z) : list interval :=
  let start := (day - 1) * 24 * 60 + startMinute in
  let unwrappedEnd :=
    (day - 1) * 24 * 60 + endMinute + (if endMinute <=? startMinute then 24 * 60 else 0) in
  if unwrappedEnd <=? weekMinutes then [(start, unwrappedEnd)]
  else [(start, weekMinutes); (0, unwrappedEnd - weekMinutes)].

Definition windowIntervals (window : LocalTimeWindow) : result WindowError (list interval) :=
  startMinute ← localMinute (startLocal window);
  endMinute ← localMinute (endLocal window);
  Ok (flat_map (dayIntervals startMinute endMinute) (daysOfWeek window)).

(** [left.start - right.start || left.end - right.end] *)
Definition interval_le (a b : interval) : bool :=
  if fst a =? fst b then snd a <=? snd b else fst a <? fst b.

(** The overlap loop over the sorted intervals. *)
Fixpoint overlapping (intervals : list interval) : bool :=
  match intervals with
  | a :: (b :: _) as rest => (fst b <? snd a) || overlapping rest
  | _ => false
  end.

(** [localeCompare] on the digits, commas and colons of normalized windows is code-unit order. *)
Definition window_le (a b : LocalTimeWindow) : bool :=
  let da := join "," (map show (daysOfWeek a)) in
  let db := join "," (map show (daysOfWeek b)) in
  if bool_decide (da = db)
  then if bool_decide (startLocal a = startLocal b) then str_le (endLocal a) (endLocal b)
       else str_le (startLocal a) (startLocal b)
  else str_le da db.

Definition normalizeLocalTimeWindows (windows : list LocalTimeWindow)
  : result WindowError (list LocalTimeWindow) :=
  normalized ← map_result normalizeWindow windows;
  perWindow ← map_result windowIntervals normalized;
  let intervals := sort_by interval_le (concat perWindow) in
  throw_if (overlapping intervals) WindowRangeError ;;
  Ok (sort_by window_le normalized).

(** ** Well-formed windows *)

Definition window_ok (w : LocalTimeWindow) : Prop :=
  List.NoDup (daysOfWeek w) /\ daysOfWeek w <> [] /\
  (forall d, In d (daysOfWeek w) -> 1 <= d <= 7) /\
  clock_shape (startLocal w) = true /\ clock_shape (endLocal w) = true.

Lemma digit_value c : is_digit c = true -> js_number (String c EmptyString) = Some (code c - 48).
Proof.
  intros H. unfold js_number. rewrite trim_all_digits by (unfold all_digits; cbn; by rewrite H).
  cbn. by rewrite H.
Qed.

Lemma two_digits a b : is_digit a = true -> is_digit b = true ->
  js_number (String a (String b EmptyString)) = Some ((code a - 48) * 10 + (code b - 48)).
Proof.
  intros Ha Hb. unfold js_number.
  rewrite trim_all_digits by (unfold all_digits; cbn; by rewrite Ha, Hb).
  cbn. rewrite Ha, Hb. f_equal; lia.
Qed.

Lemma clock_shape_minutes s : clock_shape s = true ->
  exists m, clock_minutes s = Some m /\ clock_minutes0 s = Some m /\ localMinute s = Ok m /\
            0 <= m < 1440.
Proof.
  intros Hs. assert (Hs' := Hs). unfold localMinute. rewrite Hs'. cbn [negb].
  destruct s as [|a [|b [|c [|d [|e []]]]]]; try done. cbn in Hs.
  assert (is_digit b = true /\ is_digit e = true) as [Hb He] by (clear -Hs; bool_prop; done).
  bool_prop.
  match goal with H : Ascii.eqb c _ = true |- _ => apply Ascii.eqb_eq in H; subst c end.
  assert (Ha : is_digit a = true).
  { unfold is_digit. destruct (Z.eqb_spec (code a) 48) as [->|]; [done|].
    destruct (Z.eqb_spec (code a) 49) as [->|]; [done|]. cbn in *. bool_prop.
    by replace (code a) with 50. }
  assert (Hd : is_digit d = true).
  { unfold is_digit. apply andb_true_intro. split; apply Z.leb_le; lia. }
  assert (Hf : clock_fields (String a (String b (String ":" (String d (String e "")))))
               = [Some ((code a - 48) * 10 + (code b - 48)); Some ((code d - 48) * 10 + (code e - 48))]).
  { unfold clock_fields.
    change (String a (String b (String ":" ?t))) with (String a (String b "") +:+ String ":" t).
    rewrite (split_char_app ":" (String a (String b "")) (String d (String e ""))).
    - rewrite (split_char_free ":" (String d (String e ""))).
      + cbn [map]. by rewrite !two_digits.
      + apply all_digits_free; [|done]. unfold all_digits. cbn. by rewrite Hd, He.
    - apply all_digits_free; [|done]. unfold all_digits. cbn. by rewrite Ha, Hb. }
  unfold clock_minutes, clock_minutes0. rewrite Hf. cbn [nth minutes_of]. eexists.
  repeat (split; [reflexivity|]). unfold is_digit in *. bool_prop.
  destruct (Z.eqb_spec (code a) 48), (Z.eqb_spec (code a) 49); cbn in *; bool_prop; lia.
Qed.

Lemma normalizeWindow_ok w n : normalizeWindow w = Ok n ->
  window_ok n /\ startLocal n = startLocal w /\ endLocal n = endLocal w /\
  (forall d, In d (daysOfWeek n) <-> In d (daysOfWeek w)).
Proof.
  unfold normalizeWindow. intros H. apply bind_ok in H as ([] & Ht & H). inv_result. cbn.
  apply orb_false_elim in Ht as [Hne Hd].
  assert (Hlm : forall s m, localMinute s = Ok m -> clock_shape s = true).
  { intros s m. unfold localMinute. by destruct (clock_shape s). }
  split; [|split; [done|split; [done|]]].
  2:{ intros d'. by rewrite sort_by_In, set_to_array_In. }
  split; [|split; [|split; [|split; cbn; eauto]]]; cbn.
  - apply (Permutation_NoDup (sort_by_perm Z.leb _)). apply set_to_array_NoDup.
  - by apply bool_decide_eq_false in Hne.
  - intros d Hin. rewrite <- not_true_iff_false, existsb_exists in Hd.
    destruct (Z.ltb_spec d 1) as [Hl|Hl], (Z.ltb_spec 7 d) as [Hg|Hg]; [lia| | |lia];
      exfalso; apply Hd; exists d; (split; [done|]); apply orb_true_iff; rewrite !Z.ltb_lt; tauto.
Qed.

(** A well-formed window with its two times read. *)
Lemma window_ok_clock w : window_ok w -> exists s e,
  localMinute (startLocal w) = Ok s /\ localMinute (endLocal w) = Ok e /\
  0 <= s < 1440 /\ 0 <= e < 1440 /\
  (forall d m, withinWindow w d m =
     includes (daysOfWeek w) d &&
     (if s <? e then (s <=? m) && (m <? e) else (s <=? m) || (m <? e))) /\
  (forall d m, diff_withinWindow w d m = withinWindow w d m).
Proof.
  intros (_ & _ & _ & Hs & He).
  apply clock_shape_minutes in Hs as (s & Hs1 & Hs2 & Hs3 & Hs4).
  apply clock_shape_minutes in He as (e & He1 & He2 & He3 & He4).
  exists s, e. repeat (split; [done|]). unfold withinWindow, diff_withinWindow, window_test.
  rewrite Hs1, He1, Hs2, He2. split; intros d m; destruct (includes _ _); cbn; done.
Qed.

(** The two window predicates of the sources agree on well-formed windows. *)
Lemma covers_anyWindowMatches ws d m :
  Forall window_ok ws -> covers ws d m = anyWindowMatches ws d m.
Proof.
  unfold covers, anyWindowMatches. induction 1 as [|w ws Hw _ IH]; [done|]. cbn.
  destruct (window_ok_clock w Hw) as (? & ? & _ & _ & _ & _ & _ & ->). by rewrite IH.
Qed.

(** ** Disjointness *)

Definition in_interval (x : Z) (iv : interval) : bool := (fst iv <=? x) && (x <? snd iv).
Definition claims (x : Z) (ivs : list interval) : nat := length (js_filter (in_interval x) ivs).

Lemma claims_perm x l l' : Permutation l l' -> claims x l = claims x l'.
Proof.
  unfold claims. induction 1; cbn; auto; repeat destruct (in_interval x _); cbn; auto; congruence.
Qed.

Lemma claims_app x l l' : claims x (l ++ l') = (claims x l + claims x l')%nat.
Proof. unfold claims. by rewrite List.filter_app, List.length_app. Qed.

Lemma dayIntervals_nonempty s e d : 0 <= s < 1440 -> 0 <= e < 1440 -> 1 <= d <= 7 ->
  Forall (fun iv => fst iv < snd iv) (dayIntervals s e d).
Proof.
  intros Hs He Hd. unfold dayIntervals, weekMinutes.
  destruct (Z.leb_spec e s), (Z.leb_spec ((d - 1) * 24 * 60 + e + 24 * 60) (7 * 24 * 60)),
    (Z.leb_spec ((d - 1) * 24 * 60 + e + 0) (7 * 24 * 60)); repeat constructor; cbn; lia.
Qed.

Lemma windowIntervals_ok w ivs : window_ok w -> windowIntervals w = Ok ivs ->
  exists s e, localMinute (startLocal w) = Ok s /\ localMinute (endLocal w) = Ok e /\
    0 <= s < 1440 /\ 0 <= e < 1440 /\
    ivs = flat_map (dayIntervals s e) (daysOfWeek w) /\
    Forall (fun iv => fst iv < snd iv) ivs.
Proof.
  intros Hw. destruct (window_ok_clock w Hw) as (s & e & Hs & He & Hsr & Her & _).
  unfold windowIntervals. rewrite Hs, He. cbn. intros [= <-].
  exists s, e. repeat (split; [done|]).
  rewrite List.Forall_forall. intros iv Hiv. apply in_flat_map in Hiv as (d & Hd & Hiv).
  destruct Hw as (_ & _ & Hr & _). specialize (dayIntervals_nonempty s e d Hsr Her (Hr d Hd)).
  rewrite List.Forall_forall. auto.
Qed.

Lemma interval_le_total a b : interval_le a b = true \/ interval_le b a = true.
Proof.
  unfold interval_le. destruct a as [a1 a2], b as [b1 b2]; cbn.
  destruct (Z.eqb_spec a1 b1), (Z.eqb_spec b1 a1); rewrite ?Z.leb_le, ?Z.ltb_lt; lia.
Qed.

Lemma interval_le_trans a b c :
  interval_le a b = true -> interval_le b c = true -> interval_le a c = true.
Proof.
  unfold interval_le. destruct a as [a1 a2], b as [b1 b2], c as [c1 c2]; cbn.
  destruct (Z.eqb_spec a1 b1), (Z.eqb_spec b1 c1), (Z.eqb_spec a1 c1);
    rewrite ?Z.leb_le, ?Z.ltb_lt; lia.
Qed.

(** Once sorted, non-overlap of neighbours is non-overlap of all. *)
Lemma overlapping_false_below l a :
  Forall (fun iv => fst iv < snd iv) (a :: l) -> overlapping (a :: l) = false ->
  Forall (fun iv => snd a <= fst iv) l.
Proof.
  revert a; induction l as [|b l IH]; intros a Hne Ho; [constructor|].
  cbn [overlapping] in Ho. apply orb_false_elim in Ho as [Hab Ho]. bool_prop.
  inversion Hne as [|? ? Ha Hne']; subst. constructor; [done|].
  specialize (IH b Hne' Ho). inversion Hne'; subst.
  eapply List.Forall_impl; [|exact IH]. cbn. intros; lia.
Qed.

Lemma overlapping_false_claims l x :
  Forall (fun iv => fst iv < snd iv) l -> overlapping l = false -> (claims x l <= 1)%nat.
Proof.
  induction l as [|a l IH]; intros Hne Ho; [cbn; lia|].
  assert (Hb := overlapping_false_below _ _ Hne Ho).
  assert (Ho' : overlapping l = false) by (destruct l as [|b l]; [done|]; cbn [overlapping] in Ho; apply orb_false_elim in Ho; tauto).
  inversion Hne; subst. specialize (IH ltac:(done) Ho').
  unfold claims in *. cbn. destruct (in_interval x a) eqn:E; [|done]. cbn.
  replace (js_filter (in_interval x) l) with (@nil interval); [cbn; lia|].
  symmetry. clear -Hb E. unfold in_interval in E. bool_prop.
  induction Hb as [|b l Hb _ IH]; [done|]. cbn. unfold in_interval at 1.
  destruct (Z.leb_spec (fst b) x); [lia|]. exact IH.
Qed.

Lemma perWindow_nonempty ns per :
  Forall window_ok ns -> Forall2 (fun w ivs => windowIntervals w = Ok ivs) ns per ->
  Forall (fun iv => fst iv < snd iv) (concat per).
Proof.
  intros Hok Hper. induction Hper as [|w ivs ns per Hw _ IH]; [constructor|].
  inversion Hok; subst. cbn. apply Forall_app. split; [|by apply IH].
  by apply windowIntervals_ok in Hw as (_ & _ & _ & _ & _ & _ & _ & ?).
Qed.

(** *** What normalization returns *)

Lemma normalizeLocalTimeWindows_ok ws ns :
  normalizeLocalTimeWindows ws = Ok ns <-> exists nz per,
    Forall2 (fun w n => normalizeWindow w = Ok n) ws nz /\
    Forall2 (fun n ivs => windowIntervals n = Ok ivs) nz per /\
    overlapping (sort_by interval_le (concat per)) = false /\ ns = sort_by window_le nz.
Proof.
  unfold normalizeLocalTimeWindows. split.
  - intros H. apply bind_ok in H as (nz & Hnz & H). apply bind_ok in H as (per & Hper & H).
    apply bind_ok in H as ([] & Ho & [= <-]). apply throw_if_ok in Ho.
    apply map_result_ok in Hnz, Hper. eauto 10.
  - intros (nz & per & Hnz & Hper & Ho & ->). apply map_result_ok in Hnz, Hper.
    rewrite Hnz; cbn. rewrite Hper; cbn. by rewrite Ho.
Qed.

Lemma interval_le_antisym a b : interval_le a b = true -> interval_le b a = true -> a = b.
Proof.
  unfold interval_le. destruct a as [a1 a2], b as [b1 b2]; cbn.
  destruct (Z.eqb_spec a1 b1), (Z.eqb_spec b1 a1); rewrite ?Z.leb_le, ?Z.ltb_lt; try lia.
  intros. f_equal; lia.
Qed.

Lemma overlapping_perm l l' : Permutation l l' ->
  overlapping (sort_by interval_le l) = overlapping (sort_by interval_le l').
Proof.
  intros Hp. f_equal. apply sort_by_canonical; [apply interval_le_total|apply interval_le_trans| |done].
  intros. by apply interval_le_antisym.
Qed.

Lemma normalizeWindow_idem w n : normalizeWindow w = Ok n -> normalizeWindow n = Ok n.
Proof.
  unfold normalizeWindow. intros H. apply bind_ok in H as ([] & Ht & H).
  apply bind_ok in H as (s & Hs & H). apply bind_ok in H as (e & He & [= <-]). cbn [daysOfWeek startLocal endLocal].
  set (days := set_to_array (daysOfWeek w)) in *.
  rewrite set_to_array_id, (sort_by_sorted_id Z.leb (sort_by _ _)), Ht, Hs, He; [done| |].
  - apply sort_by_sorted; intros; rewrite ?Z.leb_le in *; lia.
  - eapply Permutation_NoDup; [apply sort_by_perm|apply set_to_array_NoDup].
Qed.

(** Normalization does not depend on the order of the windows. *)
Lemma normalize_windows_perm ws ws' ns :
  Permutation ws ws' -> normalizeLocalTimeWindows ws = Ok ns ->
  exists ns', normalizeLocalTimeWindows ws' = Ok ns' /\ Permutation ns ns'.
Proof.
  intros Hp. rewrite normalizeLocalTimeWindows_ok. intros (nz & per & Hnz & Hper & Ho & ->).
  destruct (Permutation_Forall2 Hp Hnz) as (nz' & Hpz & Hnz').
  destruct (Permutation_Forall2 Hpz Hper) as (per' & Hpp & Hper').
  exists (sort_by window_le nz'). split; [|by rewrite <- !sort_by_perm].
  apply normalizeLocalTimeWindows_ok. exists nz', per'. repeat (split; [done|]).
  split; [|done]. rewrite <- Ho. symmetry. apply overlapping_perm. by apply Permutation_concat.
Qed.

(** Normal windows are only reordered. *)
Lemma normalize_windows_again ws ns :
  normalizeLocalTimeWindows ws = Ok ns ->
  exists ns', normalizeLocalTimeWindows ns = Ok ns' /\ Permutation ns ns'.
Proof.
  rewrite normalizeLocalTimeWindows_ok. intros (nz & per & Hnz & Hper & Ho & ->).
  assert (Hz : normalizeLocalTimeWindows nz = Ok (sort_by window_le nz)).
  { apply normalizeLocalTimeWindows_ok. exists nz, per. split; [|done].
    clear -Hnz. induction Hnz; constructor; [by eapply normalizeWindow_idem|done]. }
  destruct (normalize_windows_perm _ _ _ (sort_by_perm window_le nz) Hz) as (ns' & H' & Hp).
  by exists ns'.
Qed.

Lemma normalized_ok ws ns : normalizeLocalTimeWindows ws = Ok ns -> Forall window_ok ns.
Proof.
  rewrite normalizeLocalTimeWindows_ok. intros (nz & per & Hnz & _ & _ & ->).
  eapply Permutation_Forall; [apply sort_by_perm|].
  induction Hnz as [|w n ws nz Hw _ IH]; constructor; [|done].
  by apply normalizeWindow_ok in Hw as [? _].
Qed.

(** A window that does not cross midnight claims exactly the minutes it matches. *)
Lemma window_claims w ivs d m :
  window_ok w -> windowIntervals w = Ok ivs -> 1 <= d <= 7 -> 0 <= m < 1440 ->
  (forall s e, localMinute (startLocal w) = Ok s -> localMinute (endLocal w) = Ok e -> s < e) ->
  withinWindow w d m = true -> (1 <= claims ((d - 1) * 1440 + m) ivs)%nat.
Proof.
  intros Hw Hivs Hd Hm Hlt. apply windowIntervals_ok in Hivs; [|done].
  destruct Hivs as (s & e & Hs & He & Hsr & Her & -> & _).
  destruct (window_ok_clock w Hw) as (s' & e' & Hs' & He' & _ & _ & Hin & _).
  rewrite Hs in Hs'. rewrite He in He'. inv_result. rewrite Hin.
  specialize (Hlt _ _ Hs He). destruct (Z.ltb_spec s' e'); [|lia]. intros H'. bool_prop.
  unfold claims. destruct (js_filter _ _) as [|iv l] eqn:E; [|cbn; lia]. exfalso.
  enough (In ((d - 1) * 1440 + s', (d - 1) * 1440 + e')
            (js_filter (in_interval ((d - 1) * 1440 + m)) (flat_map (dayIntervals s' e') (daysOfWeek w))))
    as Hc by (rewrite E in Hc; done).
  apply filter_In. split.
  - apply in_flat_map. exists d. split; [by apply includes_spec|].
    unfold dayIntervals, weekMinutes. destruct (Z.leb_spec e' s'); [lia|].
    destruct (Z.leb_spec ((d - 1) * 24 * 60 + e' + 0) (7 * 24 * 60)); [|lia].
    left. f_equal; lia.
  - unfold in_interval; cbn. apply andb_true_intro. rewrite Z.leb_le, Z.ltb_lt. lia.
Qed.

(** No window of the list crosses midnight. *)
Definition same_day (w : LocalTimeWindow) : Prop :=
  forall s e, localMinute (startLocal w) = Ok s -> localMinute (endLocal w) = Ok e -> s < e.

Lemma matches_le_claims ns per d m :
  Forall window_ok ns -> Forall same_day ns ->
  Forall2 (fun w ivs => windowIntervals w = Ok ivs) ns per ->
  1 <= d <= 7 -> 0 <= m < 1440 ->
  (length (js_filter (fun w => withinWindow w d m) ns) <=
   claims ((d - 1) * 1440 + m) (concat per))%nat.
Proof.
  intros Hok Hsd Hper Hd Hm. induction Hper as [|w ivs ns per Hw _ IH]; [cbn; lia|].
  inversion Hok; inversion Hsd; subst. specialize (IH ltac:(done) ltac:(done)).
  cbn [concat]. rewrite claims_app. cbn. destruct (withinWindow w d m) eqn:E; cbn; [|lia].
  pose proof (window_claims w ivs d m ltac:(done) Hw Hd Hm ltac:(done) E). lia.
Qed.

Definition next_day (d : Z) : Z := d mod 7 + 1.
Definition prev_day (d : Z) : Z := (d + 5) mod 7 + 1.

(** The minutes of the week a cross-midnight window claims on day [d]: from [s] on that day to
    [e] on the following one. *)
Lemma dayIntervals_cross s e d d' m :
  0 <= s < 1440 -> 0 <= e <= s -> 1 <= d <= 7 -> 1 <= d' <= 7 -> 0 <= m < 1440 ->
  (1 <= claims ((d' - 1) * 1440 + m) (dayIntervals s e d))%nat <->
  (d' = d /\ s <= m) \/ (d' = next_day d /\ m < e).
Proof.
  intros Hs He Hd Hd' Hm. unfold dayIntervals, weekMinutes, next_day, claims, in_interval.
  destruct (Z.leb_spec e s); [|lia].
  assert (Hn : d mod 7 = if d =? 7 then 0 else d).
  { destruct (Z.eqb_spec d 7) as [->|]; [done|]. apply Z.mod_small. lia. }
  rewrite Hn.
  destruct (Z.leb_spec ((d - 1) * 24 * 60 + e + 24 * 60) (7 * 24 * 60)); cbn;
    repeat match goal with |- context [?a <=? ?b] => destruct (Z.leb_spec a b)
                         | |- context [?a <? ?b] => destruct (Z.ltb_spec a b) end; cbn;
    destruct (Z.eqb_spec d 7); lia.
Qed.

Lemma claims_flat_map x (f : Z -> list interval) days :
  (1 <= claims x (flat_map f days))%nat <-> exists d, In d days /\ (1 <= claims x (f d))%nat.
Proof.
  induction days as [|d days IH]; [cbn; split; [lia | by intros (?&[]&?)]|].
  cbn [flat_map]. rewrite claims_app. split.
  - intros H. destruct (Nat.le_gt_cases 1 (claims x (f d))); [exists d; cbn; tauto|].
    destruct (proj1 IH ltac:(lia)) as (d' & ? & ?). exists d'. cbn. tauto.
  - intros (d' & [<-|Hin] & H); [lia|]. enough (1 <= claims x (flat_map f days))%nat by lia.
    apply IH. eauto.
Qed.

(** The windows a policy or preference may carry are well formed (ISO weekdays, each once,
    two 24-hour clock times) and no minute of the week is claimed twice; when none of them
    crosses midnight the evaluator matches at most one of them at any time. *)
Theorem normalized_windows_disjoint ws ns :
  normalizeLocalTimeWindows ws = Ok ns ->
  Forall window_ok ns /\ length ns = length ws /\
  (exists per, Forall2 (fun w ivs => windowIntervals w = Ok ivs) ns per /\
     forall x, (claims x (concat per) <= 1)%nat) /\
  (Forall same_day ns -> forall d m, 1 <= d <= 7 -> 0 <= m < 1440 ->
     (length (js_filter (fun w => withinWindow w d m) ns) <= 1)%nat).
Proof.
  intros H. assert (Hok' := normalized_ok _ _ H).
  apply normalizeLocalTimeWindows_ok in H as (nz & per & Hnz & Hper & Ho & ->).
  assert (Hperm := sort_by_perm window_le nz).
  destruct (Permutation_Forall2 Hperm Hper) as (per' & Hpp & Hper').
  assert (Hcl : forall x, (claims x (concat per') <= 1)%nat).
  { intros x. rewrite <- (claims_perm x (concat per)) by by apply Permutation_concat.
    rewrite (claims_perm x _ _ (sort_by_perm interval_le _)).
    apply overlapping_false_claims; [|done].
    eapply Permutation_Forall; [apply sort_by_perm|]. eapply perWindow_nonempty; [|done].
    by eapply Permutation_Forall; [symmetry; exact Hperm|]. }
  repeat split; [done| |by exists per'|].
  - rewrite <- (Permutation_length Hperm). symmetry. by eapply Forall2_length.
  - intros Hsd d m Hd Hm. etrans; [by apply (matches_le_claims _ per')|]. apply Hcl.
Qed.

Lemma normalized_windows_disjoint_witness :
  let ws := [Window [3; 1; 3] "09:00" "12:00"; Window [1] "12:00" "18:30"] in
  let ns := [Window [1] "12:00" "18:30"; Window [1; 3] "09:00" "12:00"] in
  normalizeLocalTimeWindows ws = Ok ns /\ Forall window_ok ns.
Proof.
  split; [vm_compute; reflexivity|].
  apply (normalized_windows_disjoint
           [Window [3; 1; 3] "09:00" "12:00"; Window [1] "12:00" "18:30"]).
  vm_compute. reflexivity.
Defined.

(** A window that crosses midnight means two different things: validation lets it run into
    the following day, the evaluator applies its small hours to the same day. So in the small
    hours after a window's day the claimed time is not matched, and in the small hours before
    it unclaimed time is matched. *)
Theorem cross_midnight_divergence w ivs s e d m :
  window_ok w -> windowIntervals w = Ok ivs ->
  localMinute (startLocal w) = Ok s -> localMinute (endLocal w) = Ok e -> e <= s ->
  In d (daysOfWeek w) -> 0 <= m < e ->
  (~ In (next_day d) (daysOfWeek w) ->
     (1 <= claims ((next_day d - 1) * 1440 + m) ivs)%nat /\
     withinWindow w (next_day d) m = false) /\
  (~ In (prev_day d) (daysOfWeek w) ->
     claims ((d - 1) * 1440 + m) ivs = 0%nat /\ withinWindow w d m = true).
Proof.
  intros Hw Hivs Hs He Hes Hd Hm.
  apply windowIntervals_ok in Hivs as (s' & e' & Hs' & He' & Hsr & Her & -> & _); [|done].
  destruct (window_ok_clock w Hw) as (s2 & e2 & Hs2 & He2 & _ & _ & Hin & _).
  rewrite Hs in Hs', Hs2. rewrite He in He', He2.
  injection Hs' as <-. injection Hs2 as <-. injection He' as <-. injection He2 as <-.
  destruct Hw as (_ & _ & Hr & _). assert (Hdr := Hr d Hd).
  split; intros Hni.
  - split.
    + apply claims_flat_map. exists d. split; [done|]. apply dayIntervals_cross; try lia.
      unfold next_day. pose proof (Z.mod_pos_bound d 7). lia.
    + rewrite Hin. by rewrite (proj2 (includes_false _ _) Hni).
  - split.
    + destruct (claims _ _) eqn:E; [done|]. exfalso.
      assert (Hc : (1 <= claims ((d - 1) * 1440 + m) (flat_map (dayIntervals s e) (daysOfWeek w)))%nat)
        by (rewrite E; lia).
      apply claims_flat_map in Hc as (d' & Hd' & Hc). specialize (Hr d' Hd').
      apply dayIntervals_cross in Hc; try lia. destruct Hc as [[-> ?]|[Heq ?]]; [lia|].
      apply Hni. replace (prev_day d) with d'; [done|]. unfold prev_day, next_day in *.
      clear -Heq Hr. assert (d' = 1 \/ d' = 2 \/ d' = 3 \/ d' = 4 \/ d' = 5 \/ d' = 6 \/ d' = 7)
        as Hc by lia. repeat destruct Hc as [->|Hc]; subst; reflexivity.
    + rewrite Hin, (proj2 (includes_spec _ _) Hd). destruct (Z.ltb_spec s e); [lia|].
      destruct (Z.ltb_spec m e); [by rewrite orb_true_r|lia].
Qed.

(** A Friday 22:00-06:00 quiet-hours window: Saturday 03:00 is outside, Friday 03:00 inside. *)
Lemma cross_midnight_divergence_witness :
  let w := Window [5] "22:00" "06:00" in
  (withinWindow w 6 180 = false /\ withinWindow w 5 180 = true) /\
  exists ivs, windowIntervals w = Ok ivs /\
    (1 <= claims ((next_day 5 - 1) * 1440 + 180) ivs)%nat.
Proof.
  split; [vm_compute; split; reflexivity|]. eexists. split; [vm_compute; reflexivity|].
  apply (cross_midnight_divergence (Window [5] "22:00" "06:00") _ 1320 360 5 180);
    try (vm_compute; intuition congruence).
  - repeat split; cbn; try lia; try done; [repeat constructor; cbn; tauto|..];
      destruct H as [<-|[]]; lia.
Defined.
