(* ===== verification/Cg3Facts.v ===== *)
(** * Cg3Facts: the facts the CG3 evaluator reads

    The fact types of [apps/contact-governance/src/cg3-policy-evaluator.ts] that the policy
    compiler, the policy diff and the evaluator share. *)
From stdpp Require Import base tactics list strings.
From Stdlib Require Import ZArith.
From S2P Require Import Prelude Contracts Windows.

Open Scope string_scope.
Open Scope Z_scope.
Open Scope list_scope.

Inductive Cg3PreferenceDecision := P_ALLOW | P_BLOCK | P_DEFER.
#[export] Instance Cg3PreferenceDecision_eq_dec : EqDecision Cg3PreferenceDecision.
Proof. solve_decision. Defined.

Inductive Cg3CallbackMode := NO_OVERRIDE | SCOPED_OVERRIDE | TIME_POLICY_OVERRIDE.
#[export] Instance Cg3CallbackMode_eq_dec : EqDecision Cg3CallbackMode.
Proof. solve_decision. Defined.

Record Cg3PreferenceCandidate := PreferenceCandidate {
  pc_version : Z;
  pc_identityId : option string;
  pc_channel : option ContactChannel;
  pc_purpose : option string;
  pc_contactKind : option string;
  pc_decision : option Cg3PreferenceDecision;
  pc_timezone : option string;
  pc_preferredWindows : list LocalTimeWindow;
}.

Inductive HolidayEffect := CLOSED | WINDOWS.
#[export] Instance HolidayEffect_eq_dec : EqDecision HolidayEffect.
Proof. solve_decision. Defined.

Record Cg3HolidayEntry := Holiday {
  localDate : string;
  effect : HolidayEffect;
  windows : list LocalTimeWindow;
}.
#[export] Instance Cg3HolidayEntry_eq_dec : EqDecision Cg3HolidayEntry.
Proof. solve_decision. Defined.

Record Cg3PolicyFacts := Cg3Policy {
  pf_version : Z;
  pf_timezoneFallback : option string;
  pf_quietHours : list LocalTimeWindow;
  pf_callbackMode : Cg3CallbackMode;
  pf_overridableRules : list string;
  pf_holidays : list Cg3HolidayEntry;
}.
#[export] Instance Cg3PolicyFacts_eq_dec : EqDecision Cg3PolicyFacts.
Proof. solve_decision. Defined.

Record Cg3CallbackFacts := CallbackFacts {
  cb_requestId : string;
  cb_identityId : option string;
  cb_channel : ContactChannel;
  cb_purpose : string;
  cb_expiresAt : string;
  cb_approvedExceptionId : option string;
}.
