(* ===== verification/PolicyCompiler.v ===== *)
(** * PolicyCompiler: from authoring input to the compiled policy

    The content half of [apps/contact-governance/src/cg4-policy-compiler.ts]: normalization,
    the registry check and [compileCg4Policy]. Authoring input is a [jsval]; the two hosts the
    source calls, the time zone table of [Intl] and SHA-256, are arguments. *)
From stdpp Require Import base tactics list strings.
From Stdlib Require Import ZArith Lia Ascii Sorting.Permutation Sorting.Sorted.
From S2P Require Import Prelude JsMap Text JsDate JsValue Contracts RuleRegistry ScopeKey Windows Cg3Facts.

Open Scope string_scope.
Open Scope Z_scope.
Open Scope list_scope.

(** What compiling may throw. *)
Inductive CompileError :=
  | Invalid (code : Cg4PolicyValidationError)
  | InvalidWindow (e : WindowError)
  | NotCanonical (e : Cg4ContractError).
#[export] Instance CompileError_eq_dec : EqDecision CompileError.
Proof. solve_decision. Defined.

Abbreviation compiles := (result CompileError).

(** An error of a callee, unchanged but for its place in [CompileError]. *)
Definition rethrow {E A} (f : E -> CompileError) (r : result E A) : compiles A :=
  match r with Ok a => Ok a | Err e => Err (f e) end.

Definition CALLBACK_MODES : list (string * Cg3CallbackMode) :=
  [("NO_OVERRIDE", NO_OVERRIDE); ("SCOPED_OVERRIDE", SCOPED_OVERRIDE);
   ("TIME_POLICY_OVERRIDE", TIME_POLICY_OVERRIDE)].

Record Cg4PolicyContentV1 := PolicyContent {
  timezoneFallback : option string;
  quietHours : list LocalTimeWindow;
  callbackMode : Cg3CallbackMode;
  overridableRules : list string;
  allowedOperationalRuleCodes : list string;
  holidays : list Cg3HolidayEntry;
}.
#[export] Instance Cg4PolicyContentV1_eq_dec : EqDecision Cg4PolicyContentV1.
Proof. solve_decision. Defined.

(** [record(value)]: any object that is not an array. *)
Definition record (value : jsval) : compiles (list (string * jsval)) :=
  match value with
  | JObj fs | JInstance fs => Ok fs
  | _ => Err (Invalid VALIDATION_FAILED)
  end.

Definition rule_code (entry : jsval) : compiles string :=
  match entry with
  | JStr s => if bool_decide (trim s = "") then Err (Invalid VALIDATION_FAILED) else Ok (trim s)
  | _ => Err (Invalid VALIDATION_FAILED)
  end.

Definition ruleCodeList (value : jsval) : compiles (list string) :=
  match value with
  | JArr l => codes ← map_result rule_code l; Ok (sort_by str_le (set_to_array codes))
  | _ => Err (Invalid VALIDATION_FAILED)
  end.

Definition timezone `{Runtime} (value : jsval) : compiles (option string) :=
  match value with
  | JNull | JUndefined => Ok None
  | JStr s =>
      let normalized := trim s in
      throw_if (bool_decide (normalized = "")) (Invalid VALIDATION_FAILED) ;;
      throw_if (negb (intl_time_zone_ok normalized)) (Invalid VALIDATION_FAILED) ;;
      Ok (Some normalized)
  | _ => Err (Invalid VALIDATION_FAILED)
  end.

Definition windowKey (window : LocalTimeWindow) : string :=
  join "," (map show (daysOfWeek window)) +:+ "|" +:+ startLocal window +:+ "|" +:+ endLocal window.

Definition windowKey_le (left right : LocalTimeWindow) : bool :=
  str_le (windowKey left) (windowKey right).

Definition sortWindows (windows : list LocalTimeWindow) : list LocalTimeWindow :=
  sort_by windowKey_le windows.

(** The unchecked casts [as LocalTimeWindow[]]: what [normalizeLocalTimeWindows] does on a value
    that is not an array of windows is to throw a [TypeError] (no [map], no [daysOfWeek] of null,
    a day that is not an integer, a time that is not a matching string). *)
Definition day_of (value : jsval) : compiles Z :=
  match value with JNum (NInt d) => Ok d | _ => Err (InvalidWindow WindowTypeError) end.

Definition time_of (value : jsval) : compiles string :=
  match value with JStr s => Ok s | _ => Err (InvalidWindow WindowTypeError) end.

Definition window_of (value : jsval) : compiles LocalTimeWindow :=
  match value with
  | JObj fs | JInstance fs =>
      match field "daysOfWeek" fs with
      | JArr days =>
          ds ← map_result day_of days;
          s ← time_of (field "startLocal" fs);
          e ← time_of (field "endLocal" fs);
          Ok (Window ds s e)
      | _ => Err (InvalidWindow WindowTypeError)
      end
  | _ => Err (InvalidWindow WindowTypeError)
  end.

Definition normalizeRawWindows (value : jsval) : compiles (list LocalTimeWindow) :=
  match value with
  | JArr l =>
      ws ← map_result window_of l;
      rethrow InvalidWindow (normalizeLocalTimeWindows ws)
  | _ => Err (InvalidWindow WindowTypeError)
  end.

(** [/^\d{4}-\d{2}-\d{2}$/] *)
Definition date_shape (s : string) : bool :=
  match s with
  | String a (String b (String c (String d (String m (String e (String f (String n
      (String g (String h EmptyString))))))))) =>
      forallb is_digit [a; b; c; d; e; f; g; h] && Ascii.eqb m "-" && Ascii.eqb n "-"
  | _ => false
  end.

Definition effect_of (value : jsval) : compiles HolidayEffect :=
  match value with
  | JStr s =>
      if bool_decide (s = "CLOSED") then Ok CLOSED
      else if bool_decide (s = "WINDOWS") then Ok WINDOWS
      else Err (Invalid VALIDATION_FAILED)
  | _ => Err (Invalid VALIDATION_FAILED)
  end.

(** The body of [value.map] in [holidays]. *)
Definition holiday_entry (raw : jsval) : compiles Cg3HolidayEntry :=
  entry ← record raw;
  date ← match field "localDate" entry with
         | JStr s => if date_shape s then Ok s else Err (Invalid VALIDATION_FAILED)
         | _ => Err (Invalid VALIDATION_FAILED)
         end;
  eff ← effect_of (field "effect" entry);
  ws ← match eff with
       | CLOSED => Ok []
       | WINDOWS => sortWindows <$> normalizeRawWindows (nullish (field "windows" entry) (JArr []))
       end;
  throw_if (bool_decide (eff = WINDOWS) && bool_decide (ws = [])) (Invalid VALIDATION_FAILED) ;;
  Ok (Holiday date eff ws).

Definition date_le (left right : Cg3HolidayEntry) : bool := str_le (localDate left) (localDate right).

Definition holidays_of (value : jsval) : compiles (list Cg3HolidayEntry) :=
  match value with
  | JArr l =>
      entries ← map_result holiday_entry l;
      let dates := set_to_array (map localDate entries) in
      throw_if (negb (Nat.eqb (length dates) (length entries))) (Invalid VALIDATION_FAILED) ;;
      Ok (sort_by date_le entries)
  | _ => Err (Invalid VALIDATION_FAILED)
  end.

Definition content_keys : list string :=
  ["timezoneFallback"; "quietHours"; "callbackMode"; "overridableRules";
   "allowedOperationalRuleCodes"; "holidays"].

Definition callback_mode_of (value : jsval) : compiles Cg3CallbackMode :=
  match value with
  | JStr s =>
      match js_find (fun m => bool_decide (fst m = s)) CALLBACK_MODES with
      | Some m => Ok (snd m)
      | None => Err (Invalid VALIDATION_FAILED)
      end
  | _ => Err (Invalid VALIDATION_FAILED)
  end.

Definition normalizeCg4PolicyContent `{Runtime} (raw : jsval) : compiles Cg4PolicyContentV1 :=
  content ← record raw;
  let unknown := js_filter (fun key => negb (includes content_keys key)) (map fst content) in
  throw_if (negb (bool_decide (unknown = []))) (Invalid VALIDATION_FAILED) ;;
  mode ← callback_mode_of (field "callbackMode" content);
  zone ← timezone (field "timezoneFallback" content);
  quiet ← sortWindows <$> normalizeRawWindows (nullish (field "quietHours" content) (JArr []));
  overridable ← ruleCodeList (nullish (field "overridableRules" content) (JArr []));
  operational ← ruleCodeList (nullish (field "allowedOperationalRuleCodes" content) (JArr []));
  calendar ← holidays_of (nullish (field "holidays" content) (JArr []));
  Ok (PolicyContent zone quiet mode overridable operational calendar).

(** One rule code of one of the two allowlists. *)
Definition assert_rule (mechanism : Cg4OverrideMechanism) (ruleCode : string) : compiles unit :=
  let resolution := resolveCg4RuleMetadata ruleCode in
  throw_if (negb (rr_known resolution)) (Invalid PV_RULE_NOT_REGISTERED) ;;
  match rr_metadata resolution with
  | InheritedMember => Err (Invalid PV_NON_OVERRIDABLE_RULE)
  | Declared metadata =>
      throw_if (negb (rm_overridable metadata)) (Invalid PV_NON_OVERRIDABLE_RULE) ;;
      throw_if (negb (includes (rm_allowedOverrideMechanisms metadata) mechanism))
        (Invalid PV_NON_OVERRIDABLE_RULE)
  end.

Definition assertCg4PolicyRegistryConsistent (content : Cg4PolicyContentV1) : compiles unit :=
  map_result (assert_rule CUSTOMER_CALLBACK) (overridableRules content) ;;
  map_result (assert_rule APPROVED_EXCEPTION) (allowedOperationalRuleCodes content) ;;
  Ok tt.

(** The content as the object that is digested and stored. *)
Definition window_json (w : LocalTimeWindow) : jsval :=
  JObj [("daysOfWeek", JArr (map (fun d => JNum (NInt d)) (daysOfWeek w)));
        ("startLocal", JStr (startLocal w)); ("endLocal", JStr (endLocal w))].

Definition effect_name (e : HolidayEffect) : string :=
  match e with CLOSED => "CLOSED" | WINDOWS => "WINDOWS" end.

Definition holiday_json (h : Cg3HolidayEntry) : jsval :=
  JObj [("localDate", JStr (localDate h)); ("effect", JStr (effect_name (effect h)));
        ("windows", JArr (map window_json (windows h)))].

Definition mode_name (m : Cg3CallbackMode) : string :=
  match m with
  | NO_OVERRIDE => "NO_OVERRIDE"
  | SCOPED_OVERRIDE => "SCOPED_OVERRIDE"
  | TIME_POLICY_OVERRIDE => "TIME_POLICY_OVERRIDE"
  end.

Definition content_json (c : Cg4PolicyContentV1) : jsval :=
  JObj [("timezoneFallback", match timezoneFallback c with Some z => JStr z | None => JNull end);
        ("quietHours", JArr (map window_json (quietHours c)));
        ("callbackMode", JStr (mode_name (callbackMode c)));
        ("overridableRules", JArr (map JStr (overridableRules c)));
        ("allowedOperationalRuleCodes", JArr (map JStr (allowedOperationalRuleCodes c)));
        ("holidays", JArr (map holiday_json (holidays c)))].

Lemma windows_json_plain ws : forallb json_plain (map window_json ws) = true.
Proof.
  rewrite forallb_map, forallb_forall. intros w _. cbn. rewrite forallb_map.
  by rewrite (proj2 (forallb_forall _ _)).
Qed.

Lemma content_json_plain c : json_plain (content_json c) = true.
Proof.
  unfold content_json. cbn [json_plain forallb snd].
  rewrite windows_json_plain, !forallb_map.
  rewrite (proj2 (forallb_forall _ (overridableRules c))) by done.
  rewrite (proj2 (forallb_forall _ (allowedOperationalRuleCodes c))) by done.
  rewrite (proj2 (forallb_forall _ (holidays c))).
  - by destruct (timezoneFallback c).
  - intros h _. unfold holiday_json. cbn [json_plain forallb snd]. by rewrite windows_json_plain.
Qed.

Record Cg4CompiledPolicy := CompiledPolicy {
  cp_schemaVersion : Z;
  cp_registryVersion : string;
  cp_evaluatorVersion : string;
  cp_content : Cg4PolicyContentV1;
  cp_contentDigest : string;
  cp_facts : Cg3PolicyFacts;
}.
#[export] Instance Cg4CompiledPolicy_eq_dec : EqDecision Cg4CompiledPolicy.
Proof. solve_decision. Defined.

(** [version] is a [number], not necessarily an integer one. *)
Record CompileCg4PolicyInput := CompileInput {
  ci_content : jsval;
  ci_version : jsnum;
  ci_schemaVersion : option Z;
  ci_registryVersion : option string;
  ci_evaluatorVersion : option string;
}.

Definition policy_version (version : jsnum) : compiles Z :=
  match version with
  | NInt v => if v <=? 0 then Err (Invalid VALIDATION_FAILED) else Ok v
  | _ => Err (Invalid VALIDATION_FAILED)
  end.

Definition digest_input (content : Cg4PolicyContentV1) : jsval :=
  JObj [("schemaVersion", JNum (NInt CG4_POLICY_SCHEMA_VERSION));
        ("registryVersion", JStr CG4_RULE_REGISTRY_VERSION);
        ("evaluatorVersion", JStr CG4_EVALUATOR_VERSION);
        ("content", content_json content)].

Definition compileCg4Policy `{Runtime} (sha256 : string -> string) (input : CompileCg4PolicyInput)
  : compiles Cg4CompiledPolicy :=
  version ← policy_version (ci_version input);
  throw_if (negb (bool_decide
    (default CG4_POLICY_SCHEMA_VERSION (ci_schemaVersion input) = CG4_POLICY_SCHEMA_VERSION)))
    (Invalid POLICY_VERSION_UNSUPPORTED) ;;
  throw_if (negb (bool_decide
    (default CG4_RULE_REGISTRY_VERSION (ci_registryVersion input) = CG4_RULE_REGISTRY_VERSION)))
    (Invalid POLICY_VERSION_UNSUPPORTED) ;;
  throw_if (negb (bool_decide
    (default CG4_EVALUATOR_VERSION (ci_evaluatorVersion input) = CG4_EVALUATOR_VERSION)))
    (Invalid POLICY_VERSION_UNSUPPORTED) ;;
  content ← normalizeCg4PolicyContent (ci_content input);
  assertCg4PolicyRegistryConsistent content ;;
  digest ← rethrow NotCanonical (canonicalCg4Digest sha256 (digest_input content));
  Ok {| cp_schemaVersion := CG4_POLICY_SCHEMA_VERSION;
        cp_registryVersion := CG4_RULE_REGISTRY_VERSION;
        cp_evaluatorVersion := CG4_EVALUATOR_VERSION;
        cp_content := content;
        cp_contentDigest := digest;
        cp_facts :=
          {| pf_version := version;
             pf_timezoneFallback := timezoneFallback content;
             pf_quietHours := quietHours content;
             pf_callbackMode := callbackMode content;
             pf_overridableRules := overridableRules content;
             pf_holidays := holidays content |} |}.

(** ** Windows *)

Lemma clock_shape_free s c : clock_shape s = true -> is_digit c = false -> Ascii.eqb c ":" = false ->
  string_forall (fun d => negb (Ascii.eqb d c)) s = true.
Proof.
  intros Hs Hc Hcol. destruct s as [|a [|b [|k [|d [|e []]]]]]; try done. cbn in Hs.
  apply andb_prop in Hs as [Hs Ha]. bool_prop.
  match goal with H : Ascii.eqb k _ = true |- _ => apply Ascii.eqb_eq in H; subst k end.
  assert (is_digit a = true /\ is_digit d = true) as [Ha' Hd'].
  { unfold is_digit. rewrite !andb_true_iff, !Z.leb_le. split; [|lia].
    apply orb_true_iff in Ha as [Ha|Ha]; [apply orb_true_iff in Ha as [Ha|Ha]|]; bool_prop; lia. }
  assert (Hd : forall x, is_digit x = true -> negb (Ascii.eqb x c) = true).
  { intros x Hx. destruct (Ascii.eqb_spec x c); [congruence|done]. }
  cbn [string_forall]. rewrite (Hd a), (Hd b), (Hd d), (Hd e) by done. rewrite Ascii.eqb_sym in Hcol.
  by rewrite Hcol.
Qed.

Lemma days_text_free w :
  string_forall (fun d => negb (Ascii.eqb d "|")) (join "," (map show (daysOfWeek w))) = true.
Proof.
  apply string_forall_join; [done|]. rewrite List.Forall_forall. intros s Hs.
  apply in_map_iff in Hs as (d & <- & _). eapply string_forall_impl; [|apply show_int].
  intros c Hc. destruct (Ascii.eqb_spec c "|") as [->|]; done.
Qed.

Lemma windowKey_inj w w' : window_ok w -> window_ok w' -> windowKey w = windowKey w' -> w = w'.
Proof.
  intros (_ & Hne & _ & Hs & He) (_ & Hne' & _ & Hs' & He') H.
  assert (Hj : forall x, windowKey x =
    join "|" [join "," (map show (daysOfWeek x)); startLocal x; endLocal x]) by done.
  rewrite !Hj in H. apply join_inj in H; [|done|done| |].
  2, 3: repeat constructor; [apply days_text_free| |]; by apply clock_shape_free.
  injection H as Hd Hst Hen.
  apply join_inj in Hd.
  2, 3: by intros ?%map_eq_nil.
  2, 3: rewrite List.Forall_forall; intros t Ht; apply in_map_iff in Ht as (n & <- & _);
    eapply string_forall_impl; [|apply show_int]; intros c Hc;
    by destruct (Ascii.eqb_spec c ",") as [->|].
  destruct w as [ds s e], w' as [ds' s' e']; cbn in *. subst. f_equal.
  clear -Hd. revert ds' Hd. induction ds as [|d ds IH]; intros [|d' ds']; cbn; try done.
  intros [= Hd Hds]. f_equal; [by apply show_inj|by apply IH].
Qed.

Lemma sortWindows_perm ws ws' :
  Forall window_ok ws -> Permutation ws ws' -> sortWindows ws = sortWindows ws'.
Proof.
  intros Hok Hp. rewrite List.Forall_forall in Hok. unfold sortWindows.
  apply sort_by_canonical; [| | |done]; unfold windowKey_le.
  - intros. apply str_le_total.
  - intros x y z. apply str_le_trans.
  - intros x y Hx Hy H1 H2. apply windowKey_inj; [auto..|]. by apply str_le_antisym.
Qed.

(** The windows of a policy, validated and ordered. *)
Definition policy_windows (ws : list LocalTimeWindow) : compiles (list LocalTimeWindow) :=
  sortWindows <$> rethrow InvalidWindow (normalizeLocalTimeWindows ws).

Lemma policy_windows_ok ws out : policy_windows ws = Ok out <->
  exists ns, normalizeLocalTimeWindows ws = Ok ns /\ out = sortWindows ns.
Proof.
  unfold policy_windows. destruct (normalizeLocalTimeWindows ws) as [ns|e]; cbn; split.
  - intros [= <-]. eauto.
  - by intros (? & [= <-] & ->).
  - done.
  - by intros (? & ? & ?).
Qed.

Lemma policy_windows_perm ws ws' out :
  Permutation ws ws' -> policy_windows ws = Ok out -> policy_windows ws' = Ok out.
Proof.
  rewrite !policy_windows_ok. intros Hp (ns & Hns & ->). assert (Hok := normalized_ok _ _ Hns).
  destruct (normalize_windows_perm _ _ _ Hp Hns) as (ns' & Hns' & Hp').
  exists ns'. split; [done|]. by apply sortWindows_perm.
Qed.

Lemma policy_windows_again ws out : policy_windows ws = Ok out -> policy_windows out = Ok out.
Proof.
  intros H. assert (H' := H). apply policy_windows_ok in H' as (ns & Hns & ->).
  assert (Hok := normalized_ok _ _ Hns).
  apply (policy_windows_perm ns); [apply sort_by_perm|]. apply policy_windows_ok.
  destruct (normalize_windows_again _ _ Hns) as (ns' & Hns' & Hp). exists ns'.
  split; [done|]. by apply sortWindows_perm.
Qed.

Lemma policy_windows_valid ws out : policy_windows ws = Ok out -> Forall window_ok out.
Proof.
  rewrite policy_windows_ok. intros (ns & Hns & ->).
  eapply Permutation_Forall; [apply sort_by_perm|]. by eapply normalized_ok.
Qed.

Lemma map_result_map {E A B C} (f : B -> result E C) (g : A -> B) l :
  map_result f (map g l) = map_result (fun x => f (g x)) l.
Proof. induction l as [|x l IH]; [done|]. cbn. by rewrite IH. Qed.

Lemma map_result_all {E A} (f : A -> result E A) l :
  Forall (fun x => f x = Ok x) l -> map_result f l = Ok l.
Proof. induction 1 as [|x l Hx _ IH]; [done|]. cbn. by rewrite Hx, IH. Qed.

Lemma window_of_json w : window_of (window_json w) = Ok w.
Proof.
  destruct w as [ds s e]. unfold window_of, window_json. read_fields. cbn [daysOfWeek startLocal endLocal].
  rewrite map_result_map, (map_result_all (fun d => day_of (JNum (NInt d)))) by (rewrite List.Forall_forall; done).
  done.
Qed.

Lemma raw_windows_json ws :
  sortWindows <$> normalizeRawWindows (JArr (map window_json ws)) = policy_windows ws.
Proof.
  unfold policy_windows, normalizeRawWindows. rewrite map_result_map.
  rewrite (map_result_all (fun w => window_of (window_json w))); [done|].
  rewrite List.Forall_forall. intros. apply window_of_json.
Qed.

Lemma raw_windows_ok v out :
  sortWindows <$> normalizeRawWindows v = Ok out -> exists ws, policy_windows ws = Ok out.
Proof.
  unfold normalizeRawWindows. destruct v; try done. intros H.
  apply fmap_ok in H as (ns & H & <-). apply bind_ok in H as (ws & _ & H).
  exists ws. unfold policy_windows. by rewrite H.
Qed.

(** ** Rule codes, zone and calendar *)

Definition canonical_codes (codes : list string) : Prop :=
  List.NoDup codes /\ StronglySorted (fun a b => str_le a b = true) codes /\
  Forall (fun c => rule_code (JStr c) = Ok c) codes.

Lemma sort_codes_sorted l : StronglySorted (fun a b => str_le a b = true) (sort_by str_le l).
Proof. apply sort_by_sorted; [apply str_le_total|apply str_le_trans]. Qed.

Lemma rule_code_ok v c : rule_code v = Ok c -> exists s, v = JStr s /\ c = trim s /\ c <> "".
Proof.
  unfold rule_code. destruct v; try done. case_bool_decide; [done|]. intros [= <-]. eauto.
Qed.

Lemma rule_code_canonical v c : rule_code v = Ok c -> rule_code (JStr c) = Ok c.
Proof.
  intros (s & -> & -> & Hne)%rule_code_ok. unfold rule_code. rewrite trim_idem.
  by rewrite bool_decide_eq_false_2.
Qed.

Lemma ruleCodeList_ok v codes : ruleCodeList v = Ok codes -> canonical_codes codes.
Proof.
  unfold ruleCodeList. destruct v; try done. intros H.
  apply bind_ok in H as (cs & Hcs & [= <-]). apply map_result_ok in Hcs. split; [|split].
  - eapply Permutation_NoDup; [apply sort_by_perm|apply set_to_array_NoDup].
  - apply sort_codes_sorted.
  - rewrite List.Forall_forall. intros c Hc. rewrite sort_by_In, set_to_array_In in Hc.
    induction Hcs as [|x y xs ys Hxy _ IH]; [done|].
    destruct Hc as [<-|Hc]; [by eapply rule_code_canonical|auto].
Qed.

Lemma ruleCodeList_again codes : canonical_codes codes ->
  ruleCodeList (JArr (map JStr codes)) = Ok codes.
Proof.
  intros (Hnd & Hs & Hf). unfold ruleCodeList. rewrite map_result_map, map_result_all by done.
  cbn. by rewrite set_to_array_id, sort_by_sorted_id.
Qed.

Lemma timezone_again `{Runtime} v z : timezone v = Ok z ->
  timezone (match z with Some s => JStr s | None => JNull end) = Ok z.
Proof.
  unfold timezone. destruct v; try done; try (by intros [= <-]).
  intros H'. apply bind_ok in H' as ([] & Hne & H'). apply bind_ok in H' as ([] & Hok & [= <-]).
  rewrite trim_idem, Hne. cbn. by rewrite Hok.
Qed.

Definition valid_holiday (h : Cg3HolidayEntry) : Prop :=
  date_shape (localDate h) = true /\ Forall window_ok (windows h) /\
  (effect h = CLOSED <-> windows h = []).

Lemma holiday_entry_ok raw h : holiday_entry raw = Ok h ->
  valid_holiday h /\ holiday_entry (holiday_json h) = Ok h.
Proof.
  unfold holiday_entry. intros H. apply bind_ok in H as (entry & _ & H).
  apply bind_ok in H as (date & Hdate & H). apply bind_ok in H as (eff & _ & H).
  apply bind_ok in H as (ws & Hws & H). apply bind_ok in H as ([] & Ht & [= <-]).
  assert (Hd : date_shape date = true).
  { destruct (field "localDate" entry); try done. destruct (date_shape s) eqn:E; [|done].
    by injection Hdate as <-. }
  unfold valid_holiday, holiday_json, record. cbn [localDate effect windows]. read_fields.
  cbn [mbind result_bind]. read_fields. rewrite Hd. cbn [mbind result_bind].
  apply throw_if_ok in Ht. destruct eff.
  - injection Hws as <-. done.
  - apply raw_windows_ok in Hws as [ws0 Hws]. assert (Hne : ws <> []).
    { intros ->. by rewrite bool_decide_eq_true_2 in Ht. }
    split; [split; [done|split; [by eapply policy_windows_valid|naive_solver]]|].
    change (effect_of (JStr (effect_name WINDOWS))) with (@Ok CompileError _ WINDOWS). cbn [mbind result_bind].
    change (nullish (JArr ?l) _) with (JArr l). rewrite raw_windows_json.
    rewrite (policy_windows_again _ _ Hws). cbn [mbind result_bind].
    by rewrite (bool_decide_eq_false_2 (ws = [])).
Qed.

Lemma length_set_to_array_NoDup {A} `{EqDecision A} (l : list A) :
  length (set_to_array l) = length l <-> List.NoDup l.
Proof.
  split; [|by intros ->%set_to_array_id]. intros H.
  eapply List.NoDup_incl_NoDup; [apply (set_to_array_NoDup l)|lia|].
  intros x. by rewrite set_to_array_In.
Qed.

Lemma dates_ok (entries : list Cg3HolidayEntry) :
  negb (Nat.eqb (length (set_to_array (map localDate entries))) (length entries)) = false
  <-> List.NoDup (map localDate entries).
Proof.
  rewrite <- length_set_to_array_NoDup, length_map, negb_false_iff. apply Nat.eqb_eq.
Qed.

Definition valid_calendar (hs : list Cg3HolidayEntry) : Prop :=
  Forall valid_holiday hs /\ List.NoDup (map localDate hs) /\
  StronglySorted (fun a b => str_le (localDate a) (localDate b) = true) hs.

Lemma sort_dates_sorted l : StronglySorted (fun a b => date_le a b = true) (sort_by date_le l).
Proof.
  apply sort_by_sorted; [intros x y; apply str_le_total|intros x y z; apply str_le_trans].
Qed.

Lemma holidays_of_ok v hs : holidays_of v = Ok hs ->
  valid_calendar hs /\ Forall (fun h => holiday_entry (holiday_json h) = Ok h) hs.
Proof.
  unfold holidays_of. destruct v; try done. intros H.
  apply bind_ok in H as (es & Hes & H). apply bind_ok in H as ([] & Ht & [= <-]).
  apply throw_if_ok, dates_ok in Ht. apply map_result_ok in Hes.
  assert (Hf : Forall (fun h => valid_holiday h /\ holiday_entry (holiday_json h) = Ok h) es).
  { clear Ht. induction Hes; constructor; [by eapply holiday_entry_ok|done]. }
  apply (Permutation_Forall (sort_by_perm date_le es)) in Hf.
  apply Forall_and in Hf as [Hv Hj]. split; [split; [done|split]|done].
  - eapply Permutation_NoDup; [apply Permutation_map, sort_by_perm|done].
  - apply sort_dates_sorted.
Qed.

Lemma holidays_again hs : valid_calendar hs ->
  Forall (fun h => holiday_entry (holiday_json h) = Ok h) hs ->
  holidays_of (JArr (map holiday_json hs)) = Ok hs.
Proof.
  intros (_ & Hnd & Hs) Hj. unfold holidays_of. rewrite map_result_map, map_result_all by done.
  cbn. rewrite (proj2 (dates_ok hs) Hnd). cbn. by rewrite sort_by_sorted_id.
Qed.

(** ** Normalized content *)

Record valid_content (c : Cg4PolicyContentV1) : Prop := {
  vc_quiet : Forall window_ok (quietHours c);
  vc_overridable : canonical_codes (overridableRules c);
  vc_operational : canonical_codes (allowedOperationalRuleCodes c);
  vc_calendar : valid_calendar (holidays c);
}.

Section Content.
Context `{Runtime}.

Lemma normalize_content_ok raw c : normalizeCg4PolicyContent raw = Ok c <->
  exists fs, record raw = Ok fs /\
    js_filter (fun key => negb (includes content_keys key)) (map fst fs) = [] /\
    callback_mode_of (field "callbackMode" fs) = Ok (callbackMode c) /\
    timezone (field "timezoneFallback" fs) = Ok (timezoneFallback c) /\
    sortWindows <$> normalizeRawWindows (nullish (field "quietHours" fs) (JArr []))
      = Ok (quietHours c) /\
    ruleCodeList (nullish (field "overridableRules" fs) (JArr [])) = Ok (overridableRules c) /\
    ruleCodeList (nullish (field "allowedOperationalRuleCodes" fs) (JArr []))
      = Ok (allowedOperationalRuleCodes c) /\
    holidays_of (nullish (field "holidays" fs) (JArr [])) = Ok (holidays c).
Proof.
  unfold normalizeCg4PolicyContent. split.
  - intros Hc. apply bind_ok in Hc as (fs & Hr & Hc). apply bind_ok in Hc as ([] & Hk & Hc).
    apply bind_ok in Hc as (mode & Hm & Hc). apply bind_ok in Hc as (zone & Hz & Hc).
    apply bind_ok in Hc as (quiet & Hq & Hc). apply bind_ok in Hc as (over & Ho & Hc).
    apply bind_ok in Hc as (oper & Hp & Hc). apply bind_ok in Hc as (cal & Hh & [= <-]).
    apply throw_if_ok in Hk. bool_prop. eauto 10.
  - intros (fs & -> & Hk & Hm & Hz & Hq & Ho & Hp & Hh). cbn [mbind result_bind].
    rewrite Hk. change (throw_if _ _) with (@Ok CompileError unit tt). cbn [mbind result_bind].
    rewrite Hm; cbn [mbind result_bind]. rewrite Hz; cbn [mbind result_bind].
    rewrite Hq; cbn [mbind result_bind]. rewrite Ho; cbn [mbind result_bind].
    rewrite Hp; cbn [mbind result_bind]. rewrite Hh; cbn [mbind result_bind]. by destruct c.
Qed.

Lemma normalize_content_valid raw c : normalizeCg4PolicyContent raw = Ok c -> valid_content c.
Proof.
  rewrite normalize_content_ok. intros (fs & _ & _ & _ & _ & Hq & Ho & Hp & Hh).
  apply raw_windows_ok in Hq as [ws Hq].
  constructor; [by eapply policy_windows_valid|by eapply ruleCodeList_ok..|].
  by eapply holidays_of_ok.
Qed.

Lemma callback_mode_name m : callback_mode_of (JStr (mode_name m)) = Ok m.
Proof. by destruct m. Qed.

(** Normal content, stored as JSON and read back, is unchanged. *)
Lemma normalize_content_again raw c :
  normalizeCg4PolicyContent raw = Ok c -> normalizeCg4PolicyContent (content_json c) = Ok c.
Proof.
  rewrite !normalize_content_ok. intros (fs & _ & _ & _ & Hz & Hq & Ho & Hp & Hh).
  apply raw_windows_ok in Hq as [ws Hq]. destruct (holidays_of_ok _ _ Hh) as [Hv Hj].
  unfold content_json. eexists. split; [done|]. split; [done|]. read_fields.
  rewrite callback_mode_name. change (nullish (JArr ?l) _) with (JArr l).
  rewrite (timezone_again _ _ Hz), raw_windows_json, (policy_windows_again _ _ Hq).
  rewrite (ruleCodeList_again _ (ruleCodeList_ok _ _ Ho)).
  rewrite (ruleCodeList_again _ (ruleCodeList_ok _ _ Hp)), (holidays_again _ Hv Hj). done.
Qed.

Lemma assert_rule_ok mech c u : assert_rule mech c = Ok u -> exists floor, may_override c mech floor.
Proof.
  unfold assert_rule, resolveCg4RuleMetadata.
  destruct (map_get c CG4_RULE_REGISTRY) as [m|] eqn:E; cbn.
  - intros Hu. inv_result. bool_prop.
    destruct (registry_overridable c m E) as (_ & _ & _ & floor & _ & Hmech); [done|].
    exists floor. apply Hmech. by apply includes_spec.
  - by destruct (includes object_prototype_members c).
Qed.

Lemma map_result_unit {A} (f : A -> compiles unit) l us :
  map_result f l = Ok us -> Forall (fun x => exists u, f x = Ok u) l.
Proof. rewrite map_result_ok. induction 1; constructor; eauto. Qed.

Lemma registry_consistent_ok c u : assertCg4PolicyRegistryConsistent c = Ok u ->
  Forall (fun r => exists floor, may_override r CUSTOMER_CALLBACK floor) (overridableRules c) /\
  Forall (fun r => exists floor, may_override r APPROVED_EXCEPTION floor)
    (allowedOperationalRuleCodes c).
Proof.
  unfold assertCg4PolicyRegistryConsistent. intros Hu. inv_result.
  split; (eapply List.Forall_impl; [|by eapply map_result_unit]);
    intros r [v Hv]; by eapply assert_rule_ok.
Qed.
End Content.

(** ** Authoring order *)

(** Two authored values of a field that differ only in the order of an array, or for rule codes
    in order, repetitions and surrounding blanks. *)
Inductive reordered (R : list jsval -> list jsval -> Prop) : jsval -> jsval -> Prop :=
  | reordered_same v : reordered R v v
  | reordered_array l l' : R l l' -> reordered R (JArr l) (JArr l').

Definition same_codes (l l' : list jsval) : Prop :=
  exists t t', l = map JStr t /\ l' = map JStr t' /\
    forall c, In c (map trim t) <-> In c (map trim t').

Record reauthored (fs fs' : list (string * jsval)) : Prop := {
  ra_keys : forall k, In k (map fst fs) <-> In k (map fst fs');
  ra_mode : field "callbackMode" fs = field "callbackMode" fs';
  ra_zone : field "timezoneFallback" fs = field "timezoneFallback" fs';
  ra_quiet : reordered (@Permutation jsval) (field "quietHours" fs) (field "quietHours" fs');
  ra_overridable : reordered same_codes (field "overridableRules" fs) (field "overridableRules" fs');
  ra_operational : reordered same_codes (field "allowedOperationalRuleCodes" fs)
                                        (field "allowedOperationalRuleCodes" fs');
  ra_holidays : reordered (@Permutation jsval) (field "holidays" fs) (field "holidays" fs');
}.

Lemma nullish_reordered R v v' : reordered R v v' -> v <> v' ->
  exists l l', R l l' /\ nullish v (JArr []) = JArr l /\ nullish v' (JArr []) = JArr l'.
Proof. destruct 1 as [|l l' H]; [done|]. eauto. Qed.

Lemma reordered_transfer {A} R (f : jsval -> compiles A) v v' a :
  (forall l l', R l l' -> f (JArr l) = Ok a -> f (JArr l') = Ok a) ->
  reordered R v v' -> f (nullish v (JArr [])) = Ok a -> f (nullish v' (JArr [])) = Ok a.
Proof. intros Hf [|l l' H]; [done|]. by apply Hf. Qed.

Lemma raw_windows_perm l l' out : Permutation l l' ->
  sortWindows <$> normalizeRawWindows (JArr l) = Ok out ->
  sortWindows <$> normalizeRawWindows (JArr l') = Ok out.
Proof.
  intros Hp H. unfold normalizeRawWindows in *. cbv beta iota in *.
  apply fmap_ok in H as (ns & H & Hout). apply bind_ok in H as (ws & Hws & H).
  apply map_result_ok in Hws. destruct (Permutation_Forall2 Hp Hws) as (ws' & Hp' & Hws').
  apply map_result_ok in Hws'. rewrite Hws'. cbn [mbind result_bind].
  assert (Hpw : policy_windows ws = Ok out) by (unfold policy_windows; rewrite H; cbn; congruence).
  exact (policy_windows_perm _ _ _ Hp' Hpw).
Qed.

Lemma ruleCodeList_same_codes l l' codes : same_codes l l' ->
  ruleCodeList (JArr l) = Ok codes -> ruleCodeList (JArr l') = Ok codes.
Proof.
  intros (t & t' & -> & -> & Hsame). unfold ruleCodeList. rewrite !map_result_map.
  intros H. apply bind_ok in H as (cs & Hcs & [= <-]).
  assert (Hmap : forall u, (forall c, In c (map trim u) -> c <> "") ->
                   map_result (fun s => rule_code (JStr s)) u = Ok (map trim u)).
  { induction u as [|s u IH]; intros Hu; [done|]. cbn in *. rewrite IH by auto.
    by rewrite bool_decide_eq_false_2 by auto. }
  assert (Hne : forall c, In c (map trim t) -> c <> "").
  { apply map_result_ok in Hcs. clear -Hcs. induction Hcs as [|s c u cs Hs _ IH]; [done|].
    intros d [<-|Hd]; [|auto]. apply rule_code_ok in Hs as (s' & [= <-] & -> & ?). done. }
  assert (cs = map trim t) as -> by (rewrite (Hmap t Hne) in Hcs; congruence).
  rewrite (Hmap t') by (intros c Hc; apply Hne; by apply Hsame). cbn. f_equal.
  apply sort_by_canonical; [apply str_le_total|apply str_le_trans|intros; by apply str_le_antisym|].
  apply Permutation.NoDup_Permutation; [apply set_to_array_NoDup..|].
  intros c. by rewrite !set_to_array_In.
Qed.

Lemma holidays_perm l l' hs : Permutation l l' ->
  holidays_of (JArr l) = Ok hs -> holidays_of (JArr l') = Ok hs.
Proof.
  intros Hp. unfold holidays_of. intros H. apply bind_ok in H as (es & Hes & H).
  apply bind_ok in H as ([] & Ht & [= <-]). apply throw_if_ok, dates_ok in Ht.
  apply map_result_ok in Hes. destruct (Permutation_Forall2 Hp Hes) as (es' & Hpe & Hes').
  apply map_result_ok in Hes'. rewrite Hes'. cbn [mbind result_bind].
  rewrite (proj2 (dates_ok es')); cbn.
  - f_equal. apply sort_by_canonical.
    + intros x y. apply str_le_total.
    + intros x y z. apply str_le_trans.
    + intros x y Hx Hy H1 H2. apply (NoDup_map_inj localDate es).
      1: done. 1, 2: by apply (Permutation_in _ (Permutation_sym Hpe)). by apply str_le_antisym.
    + by symmetry.
  - eapply Permutation_NoDup; [apply Permutation_map, Hpe|done].
Qed.

Lemma unknown_keys_same (ks ks' : list string) :
  (forall k, In k ks <-> In k ks') ->
  js_filter (fun key => negb (includes content_keys key)) ks = [] ->
  js_filter (fun key => negb (includes content_keys key)) ks' = [].
Proof.
  intros Hk H. destruct (js_filter _ ks') as [|k l] eqn:E; [done|]. exfalso.
  assert (Hin : In k (js_filter (fun key => negb (includes content_keys key)) ks')) by (rewrite E; by left).
  apply filter_In in Hin as [Hin Hf]. apply Hk in Hin.
  assert (Hk' : In k []) by (rewrite <- H; by apply filter_In). done.
Qed.

(** The content of a compiled policy, stored as JSON, compiles again under any version and the
    versions the build supports, to the same content and digest. *)
Lemma compile_again `{Runtime} sha256 input p v' sv rv ev :
  compileCg4Policy sha256 input = Ok p -> 0 < v' ->
  default CG4_POLICY_SCHEMA_VERSION sv = CG4_POLICY_SCHEMA_VERSION ->
  default CG4_RULE_REGISTRY_VERSION rv = CG4_RULE_REGISTRY_VERSION ->
  default CG4_EVALUATOR_VERSION ev = CG4_EVALUATOR_VERSION ->
  exists p', compileCg4Policy sha256 (CompileInput (content_json (cp_content p)) (NInt v') sv rv ev) = Ok p' /\
    cp_content p' = cp_content p /\ cp_contentDigest p' = cp_contentDigest p /\
    pf_version (cp_facts p') = v'.
Proof.
  unfold compileCg4Policy. cbn [ci_version ci_content ci_schemaVersion ci_registryVersion ci_evaluatorVersion].
  intros Hc Hv Hs Hr He. apply bind_ok in Hc as (v & _ & Hc).
  apply bind_ok in Hc as ([] & _ & Hc). apply bind_ok in Hc as ([] & _ & Hc).
  apply bind_ok in Hc as ([] & _ & Hc). apply bind_ok in Hc as (c & Hn & Hc).
  apply bind_ok in Hc as (u & Hu & Hc). apply bind_ok in Hc as (d & Hd & [= <-]).
  cbn [cp_content cp_contentDigest]. rewrite (normalize_content_again _ _ Hn).
  unfold policy_version. destruct (Z.leb_spec v' 0); [lia|].
  rewrite !bool_decide_eq_true_2 by done. cbn [mbind result_bind negb throw_if].
  rewrite Hu. cbn [mbind result_bind]. rewrite Hd. cbn [mbind result_bind]. eexists. by split_and!.
Qed.

(** ** The compiler *)

(** What a compiled policy promises. Its versions are the supported ones; the evaluator's
    facts are exactly the normalized content under the given version; quiet hours are
    well-formed windows; both allowlists are sorted, free of repetitions, and name only rules
    that their mechanism may lift (a callback for the temporal rules, an approved exception for
    the operational ones), so no hard rule is ever listed; the calendar is ordered, with one
    entry per date, closed exactly when it lists no window; and the digest is that of the
    canonical text of versions and content. *)
Theorem compiled_policy_sound `{Runtime} sha256 input p :
  compileCg4Policy sha256 input = Ok p ->
  let c := cp_content p in
  (cp_schemaVersion p, cp_registryVersion p, cp_evaluatorVersion p)
    = (CG4_POLICY_SCHEMA_VERSION, CG4_RULE_REGISTRY_VERSION, CG4_EVALUATOR_VERSION) /\
  (exists v, ci_version input = NInt v /\ 0 < v /\
     cp_facts p = Cg3Policy v (timezoneFallback c) (quietHours c) (callbackMode c)
                            (overridableRules c) (holidays c)) /\
  valid_content c /\
  Forall (fun r => exists floor, may_override r CUSTOMER_CALLBACK floor) (overridableRules c) /\
  Forall (fun r => (exists floor, may_override r APPROVED_EXCEPTION floor) /\ ~ In r HARD_RULE_CODES)
    (allowedOperationalRuleCodes c) /\
  canonicalCg4Digest sha256 (digest_input c) = Ok (cp_contentDigest p).
Proof.
  unfold compileCg4Policy. intros Hc. apply bind_ok in Hc as (v & Hv & Hc).
  apply bind_ok in Hc as ([] & _ & Hc). apply bind_ok in Hc as ([] & _ & Hc).
  apply bind_ok in Hc as ([] & _ & Hc). apply bind_ok in Hc as (c & Hn & Hc).
  apply bind_ok in Hc as (u & Hr & Hc). apply bind_ok in Hc as (d & Hd & [= <-]).
  cbv zeta. cbn [cp_content cp_schemaVersion cp_registryVersion cp_evaluatorVersion cp_facts
    cp_contentDigest].
  split; [done|]. split.
  - exists v. unfold policy_version in Hv. destruct (ci_version input); try done.
    destruct (Z.leb_spec z 0); [done|]. injection Hv as <-. done.
  - split; [by eapply normalize_content_valid|].
    destruct (registry_consistent_ok _ _ Hr) as [Hov Hop]. split; [done|]. split.
    + eapply List.Forall_impl; [|exact Hop]. intros r [floor Hm].
      split; [by exists floor|by eapply may_override_not_hard].
    + unfold rethrow in Hd. destruct (canonicalCg4Digest _ _); [by injection Hd as ->|done].
Qed.

(** A stored policy recompiles to itself: compiling the JSON of a compiled policy's content,
    under the same version, gives the same artifact, facts and digest included. *)
Theorem recompile_roundtrip `{Runtime} sha256 input p :
  compileCg4Policy sha256 input = Ok p ->
  compileCg4Policy sha256 (CompileInput (content_json (cp_content p)) (ci_version input)
                             (ci_schemaVersion input) (ci_registryVersion input)
                             (ci_evaluatorVersion input)) = Ok p.
Proof.
  unfold compileCg4Policy. cbn [ci_version ci_content ci_schemaVersion ci_registryVersion ci_evaluatorVersion].
  intros Hc. apply bind_ok in Hc as (v & -> & Hc).
  apply bind_ok in Hc as ([] & -> & Hc). apply bind_ok in Hc as ([] & -> & Hc).
  apply bind_ok in Hc as ([] & -> & Hc). apply bind_ok in Hc as (c & Hn & Hc).
  assert (cp_content p = c) as ->.
  { apply bind_ok in Hc as (u & _ & Hc). by apply bind_ok in Hc as (d & _ & [= <-]). }
  cbn [mbind result_bind]. by rewrite (normalize_content_again _ _ Hn).
Qed.

(** Authoring order never matters. When authored content normalizes, so does any content
    with the same keys in another order, its quiet hours and holidays listed in another order,
    its rule codes reordered, repeated or padded with blanks, and to the same result: hence the
    same digest. *)
Theorem authoring_order_irrelevant `{Runtime} fs fs' c :
  reauthored fs fs' ->
  normalizeCg4PolicyContent (JObj fs) = Ok c -> normalizeCg4PolicyContent (JObj fs') = Ok c.
Proof.
  intros [Hk Hm Hz Hq Ho Hp Hh]. rewrite !normalize_content_ok.
  intros (? & [= <-] & Hunk & Hmode & Hzone & Hquiet & Hover & Hoper & Hcal).
  exists fs'. split; [done|]. split; [by eapply unknown_keys_same|].
  rewrite <- Hm, <- Hz. split; [done|]. split; [done|].
  split; [exact (reordered_transfer _ (fun v => sortWindows <$> normalizeRawWindows v) _ _ _ (fun l l' => raw_windows_perm l l' _) Hq Hquiet)|].
  split; [exact (reordered_transfer _ _ _ _ _ (fun l l' => ruleCodeList_same_codes l l' _) Ho Hover)|].
  split; [exact (reordered_transfer _ _ _ _ _ (fun l l' => ruleCodeList_same_codes l l' _) Hp Hoper)|].
  exact (reordered_transfer _ _ _ _ _ (fun l l' => holidays_perm l l' _) Hh Hcal).
Qed.

(** ** A concrete policy *)

Definition sample_windows : jsval :=
  JArr [JObj [("daysOfWeek", JArr [JNum (NInt 6); JNum (NInt 7)]);
              ("startLocal", JStr "00:00"); ("endLocal", JStr "09:00")];
        JObj [("daysOfWeek", JArr [JNum (NInt 5); JNum (NInt 1); JNum (NInt 5)]);
              ("startLocal", JStr "20:00"); ("endLocal", JStr "23:30")]].

Definition sample_fields : list (string * jsval) :=
  [("callbackMode", JStr "SCOPED_OVERRIDE"); ("quietHours", sample_windows);
   ("timezoneFallback", JStr " Asia/Bangkok ");
   ("overridableRules", JArr [JStr "QUIET_HOURS"; JStr " PREFERENCE_WINDOW_CLOSED"; JStr "QUIET_HOURS"]);
   ("allowedOperationalRuleCodes", JArr [JStr "MIN_GAP"]);
   ("holidays", JArr [JObj [("localDate", JStr "2026-04-13"); ("effect", JStr "CLOSED")]])].

Definition sample_runtime : Runtime := fixed_runtime "Asia/Bangkok" 25200000 [].

Definition sample_input (fs : list (string * jsval)) : CompileCg4PolicyInput :=
  CompileInput (JObj fs) (NInt 3) None None None.

(** The identity stands in for SHA-256. *)
Definition sample_policy : Cg4CompiledPolicy :=
  match @compileCg4Policy sample_runtime (fun s => s) (sample_input sample_fields) with
  | Ok p => p
  | Err _ => CompiledPolicy 0 "" "" (PolicyContent None [] NO_OVERRIDE [] [] []) ""
               (Cg3Policy 0 None [] NO_OVERRIDE [] [])
  end.

Lemma compiled_policy_sound_witness :
  overridableRules (cp_content sample_policy) = ["PREFERENCE_WINDOW_CLOSED"; "QUIET_HOURS"] /\
  valid_content (cp_content sample_policy).
Proof.
  split; [vm_compute; reflexivity|].
  apply (@compiled_policy_sound sample_runtime (fun s => s) (sample_input sample_fields)).
  vm_compute. reflexivity.
Defined.

Lemma recompile_roundtrip_witness :
  @compileCg4Policy sample_runtime (fun s => s)
    (CompileInput (content_json (cp_content sample_policy)) (NInt 3) None None None)
  = Ok sample_policy.
Proof.
  apply (@recompile_roundtrip sample_runtime (fun s => s) (sample_input sample_fields)).
  vm_compute. reflexivity.
Defined.

Definition resorted_fields : list (string * jsval) :=
  [("overridableRules", JArr [JStr "PREFERENCE_WINDOW_CLOSED"; JStr "QUIET_HOURS"]);
   ("callbackMode", JStr "SCOPED_OVERRIDE"); ("quietHours", sample_windows);
   ("timezoneFallback", JStr " Asia/Bangkok ");
   ("allowedOperationalRuleCodes", JArr [JStr "MIN_GAP"]);
   ("holidays", JArr [JObj [("localDate", JStr "2026-04-13"); ("effect", JStr "CLOSED")]])].

Lemma authoring_order_irrelevant_witness :
  @normalizeCg4PolicyContent sample_runtime (JObj resorted_fields)
  = Ok (cp_content sample_policy).
Proof.
  apply (@authoring_order_irrelevant sample_runtime sample_fields); [|vm_compute; reflexivity].
  constructor; try (vm_compute; tauto); try (apply reordered_same).
  apply reordered_array.
  exists ["QUIET_HOURS"; " PREFERENCE_WINDOW_CLOSED"; "QUIET_HOURS"],
         ["PREFERENCE_WINDOW_CLOSED"; "QUIET_HOURS"].
  split; [reflexivity|]. split; [reflexivity|]. vm_compute. tauto.
Defined.
