(* ===== verification/PolicyResolution.v ===== *)
(** * PolicyResolution: which policy version governs a request

    [resolveCg4ActivePolicy] of [apps/contact-governance/src/cg4-policy-resolution.ts] and the
    head cache of [cg4-cache.ts]. The Redis client is not part of the sources: what a read of it
    yields is an argument, and what is written to it a result. *)
From stdpp Require Import base tactics list strings.
From Stdlib Require Import ZArith Lia Sorting.Permutation.
From S2P Require Import Prelude Text JsDate Contracts ScopeKey.

Open Scope string_scope.
Open Scope Z_scope.
Open Scope list_scope.

Record Cg4ScopeHeadFacts := ScopeHead {
  sh_scopeKey : string;
  sh_policyId : string;
  sh_policyVersionId : string;
  sh_policyVersion : Z;
  sh_policyContentDigest : string;
  sh_schemaVersion : Z;
  sh_registryVersion : string;
  sh_evaluatorVersion : string;
  sh_headVersion : Z;
  sh_headDigest : string;
  sh_nextActivationAt : option Z;
}.
#[export] Instance Cg4ScopeHeadFacts_eq_dec : EqDecision Cg4ScopeHeadFacts.
Proof. solve_decision. Defined.

(** The text of [detail], by the branch that writes it. *)
Inductive FailDetail :=
  | AmbiguousScopes (first second : string)
  | SeveralHeads
  | UnsupportedHead (schemaVersion : Z) (registryVersion evaluatorVersion : string)
  | ActivationDue (at_ : string).

Inductive Cg4PolicyResolution :=
  | RESOLVED (head : Cg4ScopeHeadFacts) (validUntil : Z)
  | UNCONFIGURED
  | FAIL_CLOSED (reason : Cg4AuthorizationReviewReason) (detail : FailDetail).

Record ResolveCg4ActivePolicyInput := ResolveInput {
  ri_heads : list Cg4ScopeHeadFacts;
  ri_request : Cg4PolicyScopeDimensions;
  ri_now : Z;
  ri_cacheTtlSeconds : Z;
}.

Definition supported_head (head : Cg4ScopeHeadFacts) : bool :=
  bool_decide (sh_schemaVersion head = CG4_POLICY_SCHEMA_VERSION) &&
  bool_decide (sh_registryVersion head = CG4_RULE_REGISTRY_VERSION) &&
  bool_decide (sh_evaluatorVersion head = CG4_EVALUATOR_VERSION).

(** [nextActivationAt ? Math.min(ttlBound, nextActivationAt.getTime()) : ttlBound] *)
Definition bounded_validity (ttlBound : Z) (nextActivationAt : option Z) : Z :=
  match nextActivationAt with Some t => Z.min ttlBound t | None => ttlBound end.

(** The checks on the one winner. *)
Definition resolve_winner (head : Cg4ScopeHeadFacts) (now cacheTtlSeconds : Z) : Cg4PolicyResolution :=
  if negb (supported_head head) then
    FAIL_CLOSED GOVERNANCE_POLICY_VERSION_UNSUPPORTED
      (UnsupportedHead (sh_schemaVersion head) (sh_registryVersion head) (sh_evaluatorVersion head))
  else
    let resolved :=
      RESOLVED head (bounded_validity (now + cacheTtlSeconds * 1000) (sh_nextActivationAt head)) in
    match sh_nextActivationAt head with
    | Some t =>
        if t <=? now then FAIL_CLOSED POLICY_ACTIVATION_PENDING (ActivationDue (toISOString t))
        else resolved
    | None => resolved
    end.

(** A head with its specificity, which the source computes twice. *)
Definition ranked (head : Cg4ScopeHeadFacts)
  : result Cg4PolicyValidationError (Cg4ScopeHeadFacts * Z) :=
  specificity ← cg4PolicyScopeSpecificity (sh_scopeKey head); Ok (head, specificity).

Definition resolveCg4ActivePolicy (input : ResolveCg4ActivePolicyInput)
  : result Cg4PolicyValidationError Cg4PolicyResolution :=
  matching ← filter_result (fun head => cg4PolicyScopeMatches (sh_scopeKey head) (ri_request input))
               (ri_heads input);
  if bool_decide (matching = []) then Ok UNCONFIGURED
  else
    scored ← map_result ranked matching;
    let winners := map fst (of_max_rank snd scored) in
    match winners with
    | first :: second :: _ =>
        ambiguous ← cg4PolicyScopesAmbiguous (sh_scopeKey first) (sh_scopeKey second);
        Ok (FAIL_CLOSED GOVERNANCE_STATE_UNAVAILABLE
              (if ambiguous : bool
               then AmbiguousScopes (sh_scopeKey first) (sh_scopeKey second) else SeveralHeads))
    | [head] => Ok (resolve_winner head (ri_now input) (ri_cacheTtlSeconds input))
    | [] => Ok UNCONFIGURED
    end.

(** ** The head cache *)

(** Instants as the cache stores them: ISO text. *)
Record Cg4CachedHead := CachedHead {
  ch_version : Z;
  ch_digest : string;
  ch_validUntil : string;
  ch_nextActivationAt : option string;
}.
#[export] Instance Cg4CachedHead_eq_dec : EqDecision Cg4CachedHead.
Proof. solve_decision. Defined.

Inductive CacheMiss := MISS | CACHE_EXPIRED | MALFORMED | UNAVAILABLE.
#[export] Instance CacheMiss_eq_dec : EqDecision CacheMiss.
Proof. solve_decision. Defined.

Inductive Cg4CachedHeadResolution :=
  | Usable (head : Cg4CachedHead)
  | Unusable (reason : CacheMiss).
#[export] Instance Cg4CachedHeadResolution_eq_dec : EqDecision Cg4CachedHeadResolution.
Proof. solve_decision. Defined.

Definition resolveCg4CachedHead `{Runtime} (entry : option Cg4CachedHead) (now : Z)
  : Cg4CachedHeadResolution :=
  match entry with
  | None => Unusable MISS
  | Some head =>
      match date_parse (ch_validUntil head) with
      | None => Unusable MALFORMED
      | Some validUntil => if validUntil <=? now then Unusable CACHE_EXPIRED else Usable head
      end
  end.

Definition cg4HeadValidUntil (now ttlSeconds : Z) (nextActivationAt : option Z) : Z :=
  bounded_validity (now + ttlSeconds * 1000) nextActivationAt.

Record Cg4CacheStats := CacheStats { hits : Z; misses : Z; expired : Z; unavailable : Z }.
#[export] Instance Cg4CacheStats_eq_dec : EqDecision Cg4CacheStats.
Proof. solve_decision. Defined.

Record Cg4Cache := Cache {
  cc_snapshotTtlSeconds : Z;
  cc_headTtlSeconds : Z;
  cc_stats : Cg4CacheStats;
}.

(** [Cg4Cache.constructor] *)
Definition new_cache (snapshotTtlSeconds headTtlSeconds : option Z) : Cg4Cache :=
  Cache (default 3600 snapshotTtlSeconds) (default 30 headTtlSeconds) (CacheStats 0 0 0 0).

(** What [client.get] answered and [JSON.parse] made of it. *)
Inductive CacheRead (A : Type) :=
  | ClientFailed
  | KeyAbsent
  | NotJson
  | Parsed (value : A).
Arguments ClientFailed {A}.
Arguments KeyAbsent {A}.
Arguments NotJson {A}.
Arguments Parsed {A} value.

Definition count_hit (s : Cg4CacheStats) := CacheStats (hits s + 1) (misses s) (expired s) (unavailable s).
Definition count_miss (s : Cg4CacheStats) := CacheStats (hits s) (misses s + 1) (expired s) (unavailable s).
Definition count_expired (s : Cg4CacheStats) :=
  CacheStats (hits s) (misses s) (expired s + 1) (unavailable s).
Definition count_unavailable (s : Cg4CacheStats) :=
  CacheStats (hits s) (misses s) (expired s) (unavailable s + 1).

Definition with_stats (c : Cg4Cache) (f : Cg4CacheStats -> Cg4CacheStats) : Cg4Cache :=
  Cache (cc_snapshotTtlSeconds c) (cc_headTtlSeconds c) (f (cc_stats c)).

Definition getHead `{Runtime} (c : Cg4Cache) (read : CacheRead (option Cg4CachedHead)) (now : Z)
  : Cg4CachedHeadResolution * Cg4Cache :=
  match read with
  | ClientFailed => (Unusable UNAVAILABLE, with_stats c count_unavailable)
  | KeyAbsent => (Unusable MISS, with_stats c count_miss)
  | NotJson => (Unusable MALFORMED, with_stats c count_miss)
  | Parsed entry =>
      let resolution := resolveCg4CachedHead entry now in
      (resolution,
       with_stats c (match resolution with
                     | Usable _ => count_hit
                     | Unusable CACHE_EXPIRED => count_expired
                     | Unusable _ => count_miss
                     end))
  end.

Definition getSnapshot {A} (c : Cg4Cache) (read : CacheRead A) : option A * Cg4Cache :=
  match read with
  | ClientFailed => (None, with_stats c count_unavailable)
  | KeyAbsent | NotJson => (None, with_stats c count_miss)
  | Parsed value => (Some value, with_stats c count_hit)
  end.

(** [Math.ceil(ms / 1_000)] *)
Definition ceil_seconds (ms : Z) : Z := - (- ms / 1000).

(** The entry returned, the TTL in seconds it is written with, and the cache after the write,
    which [failed] when the client threw. *)
Definition setHead (c : Cg4Cache) (version : Z) (digest : string) (nextActivationAt : option Z)
  (now : Z) (failed : bool) : Cg4CachedHead * Z * Cg4Cache :=
  let validUntil := cg4HeadValidUntil now (cc_headTtlSeconds c) nextActivationAt in
  let entry := CachedHead version digest (toISOString validUntil)
                 (toISOString <$> nextActivationAt) in
  let ttlSeconds := Z.max 1 (ceil_seconds (validUntil - now)) in
  (entry, ttlSeconds, if failed then with_stats c count_unavailable else c).

Definition setSnapshot (c : Cg4Cache) (failed : bool) : Z * Cg4Cache :=
  (cc_snapshotTtlSeconds c, if failed then with_stats c count_unavailable else c).

(** [drop] *)
Definition drop_keys (c : Cg4Cache) (failed : bool) : Cg4Cache :=
  if failed then with_stats c count_unavailable else c.

Definition policySnapshotKey (tenantId policyId : string) (version : Z) (digest : string) : string :=
  "cg:policy:" +:+ tenantId +:+ ":" +:+ policyId +:+ ":" +:+ show version +:+ ":" +:+ digest.
Definition policyHeadKey (tenantId policyId : string) : string :=
  "cg:policy:" +:+ tenantId +:+ ":" +:+ policyId +:+ ":head".
Definition exceptionSnapshotKey (tenantId seriesId : string) (version : Z) (digest : string) : string :=
  "cg:exception:" +:+ tenantId +:+ ":" +:+ seriesId +:+ ":" +:+ show version +:+ ":" +:+ digest.
Definition exceptionHeadKey (tenantId seriesId : string) : string :=
  "cg:exception:" +:+ tenantId +:+ ":" +:+ seriesId +:+ ":head".
Definition contactSnapshotKey (tenantId contactId : string) (aggregateVersion : Z) : string :=
  "cg:contact:" +:+ tenantId +:+ ":" +:+ contactId +:+ ":" +:+ show aggregateVersion.
Definition contactHeadKey (tenantId contactId : string) : string :=
  "cg:contact:" +:+ tenantId +:+ ":" +:+ contactId +:+ ":head".
Definition authorizationKey (tenantId subjectId : string) (authorizationEpoch scopeVersion : Z) : string :=
  "cg:authz:" +:+ tenantId +:+ ":" +:+ subjectId +:+ ":" +:+ show authorizationEpoch +:+ ":" +:+
  show scopeVersion.

Definition invalidatePolicyHead (c : Cg4Cache) (tenantId policyId : string) (failed : bool)
  : list string * Cg4Cache := ([policyHeadKey tenantId policyId], drop_keys c failed).
Definition invalidateExceptionHead (c : Cg4Cache) (tenantId seriesId : string) (failed : bool)
  : list string * Cg4Cache := ([exceptionHeadKey tenantId seriesId], drop_keys c failed).
Definition invalidateContactHead (c : Cg4Cache) (tenantId contactId : string) (failed : bool)
  : list string * Cg4Cache := ([contactHeadKey tenantId contactId], drop_keys c failed).

(** ** The resolution, stated on its own *)

Definition key_ok (head : Cg4ScopeHeadFacts) : Prop :=
  exists ds, parseCg4PolicyScopeKey (sh_scopeKey head) = Ok ds.

Definition specificity (head : Cg4ScopeHeadFacts) : Z :=
  match parseCg4PolicyScopeKey (sh_scopeKey head) with Ok ds => bound_count ds | Err _ => 0 end.

Definition matches (request : Cg4PolicyScopeDimensions) (head : Cg4ScopeHeadFacts) : bool :=
  match cg4PolicyScopeMatches (sh_scopeKey head) request with Ok b => b | Err _ => false end.

(** The winners, once every key parses. *)
Definition winners (input : ResolveCg4ActivePolicyInput) : list Cg4ScopeHeadFacts :=
  of_max_rank specificity (js_filter (matches (ri_request input)) (ri_heads input)).

(** [head] governs the request: it matches, and every other match is less specific. *)
Definition governs (input : ResolveCg4ActivePolicyInput) (head : Cg4ScopeHeadFacts) : Prop :=
  exists before after, ri_heads input = before ++ head :: after /\
    matches (ri_request input) head = true /\
    forall other, In other (before ++ after) -> matches (ri_request input) other = true ->
      specificity other < specificity head.

Lemma filter_result_matches request heads : Forall key_ok heads ->
  filter_result (fun head => cg4PolicyScopeMatches (sh_scopeKey head) request) heads
  = Ok (js_filter (matches request) heads).
Proof.
  induction 1 as [|h heads [ds Hds] _ IH]; [done|]. cbn [filter_result]. rewrite IH.
  cbn [List.filter]. unfold matches at 2, cg4PolicyScopeMatches. rewrite Hds. cbn. done.
Qed.

Lemma map_result_ranked heads : Forall key_ok heads ->
  map_result ranked heads = Ok (map (fun h => (h, specificity h)) heads).
Proof.
  induction 1 as [|h heads [ds Hds] _ IH]; [done|]. cbn. rewrite IH.
  unfold ranked, specificity, cg4PolicyScopeSpecificity. rewrite Hds. done.
Qed.

Lemma of_max_rank_scored {A} (rank : A -> Z) l :
  map fst (of_max_rank snd (map (fun x => (x, rank x)) l)) = of_max_rank rank l.
Proof.
  unfold of_max_rank. rewrite map_map. cbn [snd].
  change (map (fun x => rank x) l) with (map rank l). generalize (math_max (map rank l)) as M.
  intros M. induction l as [|x l IH]; [done|]. cbn. by destruct (rank x =? M); cbn; rewrite IH.
Qed.

(** The resolution in terms of its winners; it cannot throw. *)
Lemma resolve_winners input : Forall key_ok (ri_heads input) -> exists r,
  resolveCg4ActivePolicy input = Ok r /\
  match winners input with
  | [] => js_filter (matches (ri_request input)) (ri_heads input) = [] /\ r = UNCONFIGURED
  | [head] => r = resolve_winner head (ri_now input) (ri_cacheTtlSeconds input)
  | _ => exists detail, r = FAIL_CLOSED GOVERNANCE_STATE_UNAVAILABLE detail
  end.
Proof.
  intros Hok. unfold resolveCg4ActivePolicy, winners.
  rewrite filter_result_matches by done. cbn [mbind result_bind].
  set (m := js_filter (matches (ri_request input)) (ri_heads input)).
  assert (Hm : Forall key_ok m).
  { rewrite List.Forall_forall in *. intros h Hh. apply filter_In in Hh as [Hh _]. auto. }
  case_bool_decide as Hnil; [rewrite Hnil; by exists UNCONFIGURED|].
  rewrite map_result_ranked by done. cbn [mbind result_bind]. rewrite of_max_rank_scored.
  pose proof (of_max_rank_nonempty specificity m Hnil) as Hw.
  assert (Hwin : Forall key_ok (of_max_rank specificity m)).
  { rewrite List.Forall_forall in *. intros h Hh. apply of_max_rank_In in Hh as [Hh _]. auto. }
  destruct (of_max_rank specificity m) as [|h [|h' ws]]; [done|by eexists|].
  inversion_clear Hwin as [|? ? [ds Hds] Hwin']. inversion_clear Hwin' as [|? ? [ds' Hds'] _].
  unfold cg4PolicyScopesAmbiguous, cg4PolicyScopeSpecificity. rewrite Hds, Hds'. cbn.
  case_bool_decide; [by eauto|]. destruct (negb _); cbn; by eauto.
Qed.

Lemma winners_governs input head : winners input = [head] <-> governs input head.
Proof. apply of_max_rank_singleton. Qed.

Lemma governs_unique input h h' : governs input h -> governs input h' -> h = h'.
Proof. rewrite <- !winners_governs. congruence. Qed.

Lemma resolve_winner_resolved head now ttl h u :
  resolve_winner head now ttl = RESOLVED h u <->
  h = head /\ supported_head head = true /\
  (forall t, sh_nextActivationAt head = Some t -> now < t) /\
  u = bounded_validity (now + ttl * 1000) (sh_nextActivationAt head).
Proof.
  unfold resolve_winner. destruct (supported_head head); cbn; [|naive_solver].
  destruct (sh_nextActivationAt head) as [t|]; cbn; [|naive_solver].
  destruct (Z.leb_spec t now).
  - split; [done|]. intros (_ & _ & Ht & _). specialize (Ht t eq_refl). lia.
  - split; [|by intros (-> & _ & _ & ->)]. intros [= <- <-].
    repeat split. by intros ? [= <-].
Qed.

(** Which policy governs. When every stored scope key parses, the resolution never throws,
    and it resolves to a head exactly when that head governs the request (it matches, and every
    other matching head is less specific), is of the supported versions, and has no scheduled
    activation that is already due; its cache bound is then the TTL or the next activation,
    whichever is first. Nothing matching is [UNCONFIGURED]; every other case fails closed. *)
Theorem active_policy_iff input :
  Forall key_ok (ri_heads input) ->
  exists r, resolveCg4ActivePolicy input = Ok r /\
  (forall h u, r = RESOLVED h u <->
     governs input h /\ supported_head h = true /\
     (forall t, sh_nextActivationAt h = Some t -> ri_now input < t) /\
     u = bounded_validity (ri_now input + ri_cacheTtlSeconds input * 1000) (sh_nextActivationAt h)) /\
  (r = UNCONFIGURED <-> forall h, In h (ri_heads input) -> matches (ri_request input) h = false) /\
  (forall reason detail, r = FAIL_CLOSED reason detail ->
     (reason = GOVERNANCE_STATE_UNAVAILABLE /\ forall h, ~ governs input h) \/
     (exists h, governs input h /\
        (reason = GOVERNANCE_POLICY_VERSION_UNSUPPORTED /\ supported_head h = false \/
         reason = POLICY_ACTIVATION_PENDING /\
           exists t, sh_nextActivationAt h = Some t /\ t <= ri_now input))).
Proof.
  intros Hok. destruct (resolve_winners input Hok) as (r & Hr & Hw). exists r. split; [done|].
  assert (Hnil : winners input <> [] -> ~ forall h, In h (ri_heads input) -> matches (ri_request input) h = false).
  { intros Hne Hall. apply Hne. unfold winners. by rewrite (proj2 (filter_nil _ _) Hall). }
  setoid_rewrite <- winners_governs. destruct (winners input) as [|h [|h2 ws]] eqn:Ewin.
  - destruct Hw as [Hf ->]. rewrite <- filter_nil, Hf. naive_solver.
  - split; [|split].
    + intros h' u. rewrite Hw, resolve_winner_resolved. naive_solver.
    + split; [|intros Hall; by destruct Hnil]. intros ->. unfold resolve_winner in Hw.
      destruct (negb _); [done|]. destruct (sh_nextActivationAt h); [by destruct (_ <=? _)|done].
    + intros reason detail ->. right. exists h. split; [done|]. unfold resolve_winner in Hw.
      destruct (supported_head h); cbn in Hw; [|left; by injection Hw as -> _].
      destruct (sh_nextActivationAt h) as [t|]; [|done].
      destruct (Z.leb_spec t (ri_now input)); [|done]. right. injection Hw as -> _. eauto.
  - destruct Hw as [detail ->]. split; [naive_solver|]. split.
    + split; [done|]. intros Hall. by destruct Hnil.
    + intros reason d [= <- _]. left. split; [done|]. naive_solver.
Qed.

(** What two resolutions have in common when they differ at most in the text of a failure. *)
Definition same_resolution (r r' : Cg4PolicyResolution) : Prop :=
  match r, r' with
  | FAIL_CLOSED reason _, FAIL_CLOSED reason' _ => reason = reason'
  | _, _ => r = r'
  end.

(** The order in which heads are loaded never decides: permuting them changes at most the
    text of a failure. *)
Theorem resolution_order_irrelevant heads heads' request now ttl :
  Permutation heads heads' -> Forall key_ok heads ->
  exists r r', resolveCg4ActivePolicy (ResolveInput heads request now ttl) = Ok r /\
    resolveCg4ActivePolicy (ResolveInput heads' request now ttl) = Ok r' /\ same_resolution r r'.
Proof.
  intros Hp Hok. assert (Hok' : Forall key_ok heads') by by eapply Permutation_Forall.
  destruct (resolve_winners (ResolveInput heads request now ttl) Hok) as (r & Hr & Hw).
  destruct (resolve_winners (ResolveInput heads' request now ttl) Hok') as (r' & Hr' & Hw').
  exists r, r'. split; [done|]. split; [done|].
  assert (Hpw : Permutation (winners (ResolveInput heads request now ttl))
                            (winners (ResolveInput heads' request now ttl)))
    by by apply of_max_rank_perm, filter_Permutation.
  pose proof (Permutation_length Hpw) as Hlen.
  destruct (winners (ResolveInput heads request now ttl)) as [|h [|h2 ws]],
    (winners (ResolveInput heads' request now ttl)) as [|h' [|h2' ws']]; try done.
  - destruct Hw as [_ ->], Hw' as [_ ->]. done.
  - apply Permutation_length_1 in Hpw as <-. rewrite Hw, Hw'. cbn.
    by destruct (resolve_winner h now ttl).
  - destruct Hw as [? ->], Hw' as [? ->]. done.
Qed.

(** A cached head never resurrects a superseded policy. A head that [setHead] wrote at
    [now] is usable at [t] exactly while [t] is before both the TTL and the scheduled activation
    it was written under; at the boundary it is already expired. Each read counts in exactly one
    of the four statistics. *)
Theorem cached_head_expires `{Runtime, !IsoDates _} c c' version digest next now t failed :
  let until := cg4HeadValidUntil now (cc_headTtlSeconds c) next in
  let '(entry, ttlSeconds, _) := setHead c version digest next now failed in
  let '(resolution, after) := getHead c' (Parsed (Some entry)) t in
  iso_range until ->
  (resolution = Usable entry <->
     t < now + cc_headTtlSeconds c * 1000 /\ (forall a, next = Some a -> t < a)) /\
  (resolution <> Usable entry -> resolution = Unusable CACHE_EXPIRED) /\
  hits (cc_stats after) + misses (cc_stats after) + expired (cc_stats after)
    + unavailable (cc_stats after)
  = hits (cc_stats c') + misses (cc_stats c') + expired (cc_stats c')
    + unavailable (cc_stats c') + 1.
Proof.
  unfold setHead, getHead. cbv zeta. intros Hr. unfold resolveCg4CachedHead. cbn [ch_validUntil]. rewrite iso_dates by done.
  set (u := cg4HeadValidUntil now (cc_headTtlSeconds c) next).
  assert (Hu : t < u <-> t < now + cc_headTtlSeconds c * 1000 /\ (forall a, next = Some a -> t < a)).
  { subst u. unfold cg4HeadValidUntil, bounded_validity. destruct next as [a|].
    - split; [intros; split; [lia|intros ? [= <-]; lia]|]. intros [? Ha]. specialize (Ha a eq_refl). lia.
    - split; [by split|tauto]. }
  rewrite <- Hu. destruct (Z.leb_spec u t); cbn; (split; [|split; [|lia]]).
  - split; [done|lia].
  - done.
  - done.
  - by intros [].
Qed.

(** The Redis TTL of a head. It never ends before the declared validity, so an entry does
    outlive its [validUntil], by less than a second; one that is invalid when written (its
    activation already due) still stays for a second. *)
Theorem head_ttl_bounds c version digest next now failed :
  let until := cg4HeadValidUntil now (cc_headTtlSeconds c) next in
  let '(_, ttlSeconds, _) := setHead c version digest next now failed in
  until - now <= ttlSeconds * 1000 /\
  (now < until -> ttlSeconds * 1000 < until - now + 1000) /\
  (until <= now -> ttlSeconds = 1).
Proof.
  unfold setHead, ceil_seconds. cbv zeta. set (u := cg4HeadValidUntil _ _ _).
  pose proof (Z.div_mod (- (u - now)) 1000 ltac:(lia)).
  pose proof (Z.mod_pos_bound (- (u - now)) 1000 ltac:(lia)).
  split; [lia|]. split; lia.
Qed.

(** ** A concrete resolution *)

Definition sample_head (scopeKey id : string) (next : option Z) : Cg4ScopeHeadFacts :=
  ScopeHead scopeKey id "v" 1 "d" CG4_POLICY_SCHEMA_VERSION CG4_RULE_REGISTRY_VERSION
    CG4_EVALUATOR_VERSION 1 "h" next.

Definition sample_heads : list Cg4ScopeHeadFacts :=
  [sample_head "channel=*|contactKind=*|purpose=*|sourceType=*" "tenant" None;
   sample_head "channel=LINE|contactKind=*|purpose=*|sourceType=*" "line" (Some 50000);
   sample_head "channel=EMAIL|contactKind=*|purpose=*|sourceType=*" "email" None].

Definition sample_request : Cg4PolicyScopeDimensions :=
  Dimensions (Some "LINE") None (Some "MARKETING") (Some "JOURNEY").

Lemma sample_heads_ok : Forall key_ok sample_heads.
Proof. repeat constructor; eexists; vm_compute; reflexivity. Qed.

Lemma active_policy_iff_witness :
  Forall key_ok sample_heads /\
  resolveCg4ActivePolicy (ResolveInput sample_heads sample_request 20000 60)
  = Ok (RESOLVED (sample_head "channel=LINE|contactKind=*|purpose=*|sourceType=*" "line" (Some 50000)) 50000) /\
  exists r, resolveCg4ActivePolicy (ResolveInput sample_heads sample_request 20000 60) = Ok r.
Proof.
  split; [apply sample_heads_ok|]. split; [vm_compute; reflexivity|].
  destruct (active_policy_iff (ResolveInput sample_heads sample_request 20000 60) sample_heads_ok)
    as (r & Hr & _).
  exists r. exact Hr.
Defined.

Lemma resolution_order_irrelevant_witness :
  exists r r',
    resolveCg4ActivePolicy (ResolveInput sample_heads sample_request 20000 60) = Ok r /\
    resolveCg4ActivePolicy (ResolveInput (rev sample_heads) sample_request 20000 60) = Ok r' /\
    same_resolution r r'.
Proof.
  apply (resolution_order_irrelevant sample_heads (rev sample_heads)).
  - apply Permutation_rev.
  - apply sample_heads_ok.
Defined.

Definition sample_host : Runtime := fixed_runtime "Asia/Bangkok" 25200000 [].

(** Written at noon with a 30 s TTL and an activation ten seconds later. *)
Lemma cached_head_expires_witness :
  let c := new_cache None None in
  let now := 1767225600000 in
  let entry := CachedHead 7 "d" "2026-01-01T00:00:10.000Z" (Some "2026-01-01T00:00:10.000Z") in
  fst (fst (setHead c 7 "d" (Some (now + 10000)) now false)) = entry /\
  (fst (@getHead sample_host c (Parsed (Some entry)) (now + 10000)) = Usable entry <->
   now + 10000 < now + 30 * 1000 /\ (forall a, Some (now + 10000) = Some a -> now + 10000 < a)).
Proof.
  split; [vm_compute; reflexivity|].
  apply (@cached_head_expires sample_host _ (new_cache None None) (new_cache None None) 7 "d"
           (Some (1767225600000 + 10000)) 1767225600000 (1767225600000 + 10000) false).
  vm_compute. split; discriminate.
Defined.
