(* ===== verification/Temporal.v ===== *)
(** * Temporal: local time and the temporal gate of one instant

    The time half of [apps/contact-governance/src/cg3-policy-evaluator.ts]: [zonedPartsAt],
    [zonedToUtc], [localDateKey], [evaluateInstant] and [findNextEligibleAt]. *)
From stdpp Require Import base tactics list strings.
From Stdlib Require Import ZArith Lia.
From S2P Require Import Prelude Text JsDate Contracts Windows Cg3Facts.

Open Scope string_scope.
Open Scope Z_scope.
Open Scope list_scope.

Record ZonedParts := Zoned {
  zp_year : Z; zp_month : Z; zp_day : Z; zp_weekday : Z; zp_hour : Z; zp_minute : Z;
}.
#[export] Instance ZonedParts_eq_dec : EqDecision ZonedParts.
Proof. solve_decision. Defined.

Definition WEEKDAY_MAP : list (string * Z) :=
  [("Mon", 1); ("Tue", 2); ("Wed", 3); ("Thu", 4); ("Fri", 5); ("Sat", 6); ("Sun", 7)].

(** [WEEKDAY_MAP[name] ?? 1] *)
Definition weekday_number (name : string) : Z :=
  match js_find (fun p => bool_decide (fst p = name)) WEEKDAY_MAP with
  | Some p => snd p
  | None => 1
  end.

Definition isValidTimeZone `{Runtime} (timeZone : string) : bool := intl_time_zone_ok timeZone.

Definition zonedPartsAt `{Runtime} (instant : Z) (timeZone : string) : ZonedParts :=
  let parts := intl_parts timeZone instant in
  Zoned (in_year parts) (in_month parts) (in_day parts) (weekday_number (in_weekday parts))
    (if in_hour parts =? 24 then 0 else in_hour parts) (in_minute parts).

(** [Date.UTC] of a wall-clock minute. *)
Definition wall_utc (parts : ZonedParts) : Z :=
  Date_UTC (zp_year parts) (zp_month parts - 1) (zp_day parts) (zp_hour parts) (zp_minute parts).

(** One correction of the guess. *)
Definition correct_guess `{Runtime} (target : Z) (timeZone : string) (guess : Z) : Z :=
  guess + (target - wall_utc (zonedPartsAt guess timeZone)).

(** The wall-clock fields of [parts], the weekday ignored, as an instant. *)
Definition zonedToUtc `{Runtime} (parts : ZonedParts) (timeZone : string) : Z :=
  let target := wall_utc parts in
  Nat.iter 2 (correct_guess target timeZone) target.

Definition localDateKey (parts : ZonedParts) : string :=
  show (zp_year parts) +:+ "-" +:+ pad_start 2 (show (zp_month parts)) +:+ "-" +:+
  pad_start 2 (show (zp_day parts)).

Inductive TemporalReason := PREFERENCE_WINDOW_CLOSED | QUIET_HOURS | TENANT_HOLIDAY.
#[export] Instance TemporalReason_eq_dec : EqDecision TemporalReason.
Proof. solve_decision. Defined.

Definition reason_code (r : TemporalReason) : string :=
  match r with
  | PREFERENCE_WINDOW_CLOSED => "PREFERENCE_WINDOW_CLOSED"
  | QUIET_HOURS => "QUIET_HOURS"
  | TENANT_HOLIDAY => "TENANT_HOLIDAY"
  end.

Inductive TemporalEvaluation :=
  | T_eligible
  | T_blocked (reasonCode : TemporalReason) (matchedWindowRef : string).
#[export] Instance TemporalEvaluation_eq_dec : EqDecision TemporalEvaluation.
Proof. solve_decision. Defined.

Definition minute_of_day (parts : ZonedParts) : Z := zp_hour parts * 60 + zp_minute parts.

Definition holiday_of (holidays : list Cg3HolidayEntry) (dateKey : string) : option Cg3HolidayEntry :=
  js_find (fun entry => bool_decide (localDate entry = dateKey)) holidays.

(** The holiday gate: closed that day, or outside the day's windows. *)
Definition holiday_blocks (holidays : list Cg3HolidayEntry) (parts : ZonedParts) : bool :=
  match holiday_of holidays (localDateKey parts) with
  | Some holiday =>
      match effect holiday with
      | CLOSED => true
      | WINDOWS => negb (anyWindowMatches (windows holiday) (zp_weekday parts) (minute_of_day parts))
      end
  | None => false
  end.

Definition evaluateInstant (parts : ZonedParts) (preferredWindows quietHours : list LocalTimeWindow)
  (holidays : list Cg3HolidayEntry) : TemporalEvaluation :=
  if holiday_blocks holidays parts
  then T_blocked TENANT_HOLIDAY ("holiday:" +:+ localDateKey parts)
  else if anyWindowMatches quietHours (zp_weekday parts) (minute_of_day parts)
  then T_blocked QUIET_HOURS "policy:quietHours"
  else if negb (bool_decide (preferredWindows = [])) &&
          negb (anyWindowMatches preferredWindows (zp_weekday parts) (minute_of_day parts))
  then T_blocked PREFERENCE_WINDOW_CLOSED "preference:preferredWindows"
  else T_eligible.

Definition eligible_instant (e : TemporalEvaluation) : bool :=
  match e with T_eligible => true | T_blocked _ _ => false end.

Definition NEXT_ELIGIBLE_MAX_LOOKAHEAD_DAYS : Z := 30.
Definition NEXT_ELIGIBLE_STEP_MINUTES : Z := 5.
Definition horizon : Z := NEXT_ELIGIBLE_MAX_LOOKAHEAD_DAYS * 24 * 60.

Section NextEligible.
Context `{Runtime}.
Variables (timeZone : string) (preferredWindows quietHours : list LocalTimeWindow)
          (holidays : list Cg3HolidayEntry).

Definition eligible_at (instant : Z) : bool :=
  eligible_instant (evaluateInstant (zonedPartsAt instant timeZone) preferredWindows quietHours holidays).

(** The [for] loop; [fuel] bounds the number of its steps. *)
Fixpoint scan (now : Z) (fuel : nat) (offsetMinutes : Z) : option Z :=
  match fuel with
  | O => None
  | S fuel' =>
      if horizon <? offsetMinutes then None
      else
        let candidate := now + offsetMinutes * 60000 in
        if eligible_at candidate
        then Some (zonedToUtc (zonedPartsAt candidate timeZone) timeZone)
        else scan now fuel' (offsetMinutes + NEXT_ELIGIBLE_STEP_MINUTES)
  end.

Definition scan_fuel : nat := Z.to_nat (horizon / NEXT_ELIGIBLE_STEP_MINUTES + 2).

Definition findNextEligibleAt (now : Z) : option Z := scan now scan_fuel 0.
End NextEligible.

(** ** Local time under the time zone laws *)

Section LocalTime.
Context {R : Runtime} {L : TimeZoneLaws R}.

(** The local time of an instant, as if it were UTC. *)
Definition local (timeZone : string) (t : Z) : Z := t + tz_offset timeZone t.

Definition zoned_of_civil (c : CivilParts) : ZonedParts :=
  Zoned (cv_year c) (cv_month c) (cv_day c) (cv_weekday c) (cv_hour c) (cv_minute c).

Lemma weekday_number_name n : 1 <= n <= 7 ->
  weekday_number (nth (Z.to_nat (n - 1)) weekday_names "Mon") = n.
Proof.
  intros Hn. assert (n = 1 \/ n = 2 \/ n = 3 \/ n = 4 \/ n = 5 \/ n = 6 \/ n = 7) as Hc by lia.
  repeat destruct Hc as [->|Hc]; subst; reflexivity.
Qed.

Lemma civil_weekday_range t : 1 <= cv_weekday (civil_parts t) <= 7.
Proof.
  unfold civil_parts. destruct (civil_from_days _) as [[y m] d]. cbn.
  pose proof (Z.mod_pos_bound (t / MS_PER_DAY + 3) 7 ltac:(lia)). lia.
Qed.

Lemma civil_hour_range t : 0 <= cv_hour (civil_parts t) < 24.
Proof.
  unfold civil_parts. destruct (civil_from_days _) as [[y m] d]. cbn.
  pose proof (Z.mod_pos_bound t MS_PER_DAY ltac:(done)).
  assert (0 <= t mod MS_PER_DAY / MS_PER_MINUTE < 1440)
    by (unfold MS_PER_DAY, MS_PER_MINUTE in *; apply div_range; lia).
  apply div_range; lia.
Qed.

Lemma zonedPartsAt_civil tz t : isValidTimeZone tz = true ->
  zonedPartsAt t tz = zoned_of_civil (civil_parts (local tz t)).
Proof.
  intros Hz. unfold zonedPartsAt, local. pose proof (tz_parts tz t Hz) as Hp. cbv zeta in Hp.
  set (c := civil_parts (t + tz_offset tz t)) in *.
  pose proof (civil_weekday_range (t + tz_offset tz t)) as Hw. fold c in Hw.
  pose proof (civil_hour_range (t + tz_offset tz t)) as Hh. fold c in Hh.
  destruct Hp as [->|[H0 ->]]; unfold intl_of_civil, zoned_of_civil;
    cbn [in_year in_month in_day in_hour in_minute in_weekday cv_year cv_month cv_day cv_hour
      cv_minute cv_weekday];
    rewrite weekday_number_name by done.
  - destruct (Z.eqb_spec (cv_hour c) 24); [lia|done].
  - by rewrite H0.
Qed.

(** Local years from 100 on: below, [Date.UTC] reads a two-digit year. *)
Definition modern (tz : string) (t : Z) : Prop := 99 < cv_year (civil_parts (local tz t)).

Lemma wall_utc_local tz t : isValidTimeZone tz = true -> modern tz t ->
  wall_utc (zonedPartsAt t tz) = floor_minute (local tz t).
Proof.
  intros Hz Hm. rewrite zonedPartsAt_civil by done. by apply Date_UTC_civil_parts.
Qed.

Lemma floor_minute_mod t : floor_minute t mod MS_PER_MINUTE = 0.
Proof. apply Z_mod_mult. Qed.

Lemma floor_minute_fixed t : t mod MS_PER_MINUTE = 0 -> floor_minute t = t.
Proof.
  intros H. unfold floor_minute. pose proof (Z.div_mod t MS_PER_MINUTE ltac:(done)). lia.
Qed.

Lemma floor_minute_add t o : o mod MS_PER_MINUTE = 0 -> floor_minute (t + o) = floor_minute t + o.
Proof.
  intros H. unfold floor_minute. pose proof (Z.div_mod o MS_PER_MINUTE ltac:(done)) as Ho.
  rewrite H in Ho. replace (t + o) with (t + o / MS_PER_MINUTE * MS_PER_MINUTE) by lia.
  rewrite Z.div_add by done. lia.
Qed.

Lemma floor_minute_local tz t : isValidTimeZone tz = true ->
  floor_minute (local tz t) = floor_minute t + tz_offset tz t.
Proof. intros Hz. apply floor_minute_add. by apply tz_offset_minutes. Qed.
End LocalTime.

Section WallClock.
Context {R : Runtime} {L : TimeZoneLaws R}.
Variables (tz : string) (t : Z).
Hypothesis tz_known : isValidTimeZone tz = true.
Hypothesis t_modern : modern tz t.

(** The wall-clock minute that [t] shows, taken as an instant, and the first corrected guess. *)
Let target : Z := floor_minute t + tz_offset tz t.
Let guess : Z := target - tz_offset tz target.

Lemma target_aligned : floor_minute target = target.
Proof using L tz_known.
  apply floor_minute_fixed. unfold target.
  rewrite Z.add_mod, floor_minute_mod, tz_offset_minutes by done. reflexivity.
Qed.

Lemma guess_aligned : floor_minute guess = guess.
Proof using L tz_known.
  unfold guess, Z.sub. rewrite floor_minute_add, target_aligned; [done|].
  rewrite Z_mod_zero_opp_full; [done|]. by apply tz_offset_minutes.
Qed.

Lemma correct_guess_aligned g : floor_minute g = g -> modern tz g ->
  correct_guess target tz g = target - tz_offset tz g.
Proof using L tz_known.
  intros Hg Hm. unfold correct_guess. rewrite wall_utc_local, floor_minute_local, Hg by done. lia.
Qed.

(** The two corrections, in closed form. *)
Lemma zonedToUtc_offsets : modern tz target -> modern tz guess ->
  zonedToUtc (zonedPartsAt t tz) tz
  = floor_minute t + tz_offset tz t - tz_offset tz (target - tz_offset tz target).
Proof using L tz_known t_modern.
  intros Ht Hg. unfold zonedToUtc. rewrite wall_utc_local, floor_minute_local by done.
  fold target. cbn [Nat.iter nat_rect].
  rewrite (correct_guess_aligned target) by (try apply target_aligned; done).
  fold guess. rewrite correct_guess_aligned by (try apply guess_aligned; done). done.
Qed.
End WallClock.

(** ** The forward scan *)

Section Scan.
Context `{Runtime}.
Variables (tz : string) (preferred quiet : list LocalTimeWindow) (holidays : list Cg3HolidayEntry).

Abbreviation ok_at := (eligible_at tz preferred quiet holidays).
Abbreviation scanning := (scan tz preferred quiet holidays).

(** The [k]-th instant the loop looks at, counted from offset [o]. *)
Definition grid (now o : Z) (k : nat) : Z :=
  now + (o + Z.of_nat k * NEXT_ELIGIBLE_STEP_MINUTES) * 60000.

Lemma grid_succ now o k : grid now o (S k) = grid now (o + NEXT_ELIGIBLE_STEP_MINUTES) k.
Proof. unfold grid, NEXT_ELIGIBLE_STEP_MINUTES. lia. Qed.

Lemma grid_0 now o : grid now o 0 = now + o * 60000.
Proof. unfold grid. f_equal. lia. Qed.

Lemma scan_some now fuel o r : scanning now fuel o = Some r -> exists k,
  o + Z.of_nat k * NEXT_ELIGIBLE_STEP_MINUTES <= horizon /\
  ok_at (grid now o k) = true /\ (forall j, (j < k)%nat -> ok_at (grid now o j) = false) /\
  r = zonedToUtc (zonedPartsAt (grid now o k) tz) tz.
Proof.
  revert o; induction fuel as [|fuel IH]; intros o; cbn [scan]; [done|].
  destruct (Z.ltb_spec horizon o); [done|]. rewrite <- grid_0.
  destruct (ok_at (grid now o 0)) eqn:E.
  - intros [= <-]. exists 0%nat. cbn. rewrite Z.add_0_r. repeat split; [lia|done|lia].
  - intros Hs. apply IH in Hs as (k & Hk & He & Hj & ->). exists (S k).
    rewrite grid_succ. repeat split; [lia|done|].
    intros [|j] Hlt; [done|]. rewrite grid_succ. apply Hj. lia.
Qed.

Lemma scan_none now fuel o : scanning now fuel o = None -> forall k, (k < fuel)%nat ->
  o + Z.of_nat k * NEXT_ELIGIBLE_STEP_MINUTES <= horizon -> ok_at (grid now o k) = false.
Proof.
  revert o; induction fuel as [|fuel IH]; intros o; cbn [scan]; [lia|].
  unfold NEXT_ELIGIBLE_STEP_MINUTES in *.
  destruct (Z.ltb_spec horizon o); [intros _ k; lia|]. rewrite <- grid_0.
  destruct (ok_at (grid now o 0)) eqn:E; [done|]. intros Hs [|k] Hk Hh; [done|].
  rewrite grid_succ. apply (IH _ Hs); unfold NEXT_ELIGIBLE_STEP_MINUTES; lia.
Qed.

Lemma scan_fuel_enough k :
  0 + Z.of_nat k * NEXT_ELIGIBLE_STEP_MINUTES <= horizon -> (k < scan_fuel)%nat.
Proof.
  unfold scan_fuel. change (horizon / NEXT_ELIGIBLE_STEP_MINUTES + 2) with 8642.
  change horizon with 43200. unfold NEXT_ELIGIBLE_STEP_MINUTES. lia.
Qed.

(** The scan fails exactly when all instants of its grid are blocked: its fuel never ends it. *)
Lemma findNextEligibleAt_none now :
  findNextEligibleAt tz preferred quiet holidays now = None <->
  forall k, Z.of_nat k * NEXT_ELIGIBLE_STEP_MINUTES <= horizon -> ok_at (grid now 0 k) = false.
Proof.
  unfold findNextEligibleAt. split.
  - intros Hs k Hk. apply (scan_none _ _ _ Hs k); [|done]. by apply scan_fuel_enough.
  - intros Hall. destruct (scanning now scan_fuel 0) as [r|] eqn:E; [|done].
    apply scan_some in E as (k & Hk & He & _). rewrite Hall in He; [done|lia].
Qed.
End Scan.

(** The zone keeps one offset over the scanned month (and a margin), in years the calendar
    functions read plainly. *)
Definition steady {R : Runtime} {L : TimeZoneLaws R} (tz : string) (now o : Z) : Prop :=
  forall u, now - Z.abs o - MS_PER_MINUTE <= u <= now + horizon * 60000 + Z.abs o ->
    tz_offset tz u = o /\ modern tz u.

Lemma floor_minute_range t : t - MS_PER_MINUTE < floor_minute t <= t.
Proof.
  unfold floor_minute. pose proof (Z.div_mod t MS_PER_MINUTE ltac:(done)).
  pose proof (Z.mod_pos_bound t MS_PER_MINUTE ltac:(done)). lia.
Qed.

Lemma floor_minute_idem t : floor_minute (floor_minute t) = floor_minute t.
Proof. apply floor_minute_fixed, floor_minute_mod. Qed.

(** All instants of a local minute show the same fields. *)
Lemma civil_parts_floor t : civil_parts (floor_minute t) = civil_parts t.
Proof.
  assert (Hd : floor_minute t / MS_PER_DAY = t / MS_PER_DAY).
  { unfold floor_minute. change MS_PER_DAY with (MS_PER_MINUTE * 1440).
    rewrite <- !Z.div_div, Z.div_mul by done. done. }
  assert (Hm : forall u, u mod MS_PER_DAY / MS_PER_MINUTE = (u / MS_PER_MINUTE) mod 1440).
  { intros u. change MS_PER_DAY with (MS_PER_MINUTE * 1440). rewrite Z.rem_mul_r by done.
    rewrite (Z.mul_comm MS_PER_MINUTE), Z.div_add by done.
    rewrite Z.div_small by (apply Z.mod_pos_bound; done). lia. }
  unfold civil_parts. rewrite !Hm, Hd. unfold floor_minute. by rewrite Z.div_mul by done.
Qed.

Section NextEligibleSpec.
Context {R : Runtime} {L : TimeZoneLaws R}.

Lemma steady_round_trip tz now o t : isValidTimeZone tz = true -> steady tz now o ->
  now <= t <= now + horizon * 60000 -> zonedToUtc (zonedPartsAt t tz) tz = floor_minute t.
Proof.
  intros Hz Hs Ht. pose proof (floor_minute_range t) as Hf. unfold MS_PER_MINUTE in Hf.
  assert (Hoff : forall u, now - Z.abs o - 60000 <= u <= now + horizon * 60000 + Z.abs o ->
                   tz_offset tz u = o) by (intros u Hu; by apply Hs).
  assert (Ho : tz_offset tz t = o) by (apply Hoff; lia).
  assert (Hg : tz_offset tz (floor_minute t + o) = o) by (apply Hoff; lia).
  rewrite zonedToUtc_offsets; rewrite ?Ho, ?Hg; try done.
  - rewrite Hoff; lia.
  - apply Hs. unfold MS_PER_MINUTE. lia.
  - apply Hs. unfold MS_PER_MINUTE. lia.
  - apply Hs. unfold MS_PER_MINUTE. lia.
Qed.

Lemma eligible_at_floor tz pw q h t o :
  isValidTimeZone tz = true -> tz_offset tz t = o -> tz_offset tz (floor_minute t) = o ->
  eligible_at tz pw q h (floor_minute t) = eligible_at tz pw q h t.
Proof.
  intros Hz Ho Hf. unfold eligible_at. rewrite !zonedPartsAt_civil by done. unfold local.
  rewrite Ho, Hf, <- (civil_parts_floor (t + o)), floor_minute_add; [done|].
  rewrite <- Ho. by apply tz_offset_minutes.
Qed.

(** The first open instant of the grid, as the scan reports it. *)
Lemma find_next_some tz preferred quiet holidays now r :
  findNextEligibleAt tz preferred quiet holidays now = Some r ->
  exists k, Z.of_nat k * NEXT_ELIGIBLE_STEP_MINUTES <= horizon /\
    (forall j, (j < k)%nat -> eligible_at tz preferred quiet holidays (grid now 0 j) = false) /\
    eligible_at tz preferred quiet holidays (grid now 0 k) = true /\
    r = zonedToUtc (zonedPartsAt (grid now 0 k) tz) tz /\
    forall o, isValidTimeZone tz = true -> steady tz now o ->
      r = floor_minute (grid now 0 k) /\
      eligible_at tz preferred quiet holidays r = true /\
      (eligible_at tz preferred quiet holidays now = false -> now < r).
Proof.
  intros E.
  apply scan_some in E as (k & Hk & He & Hj & ->). exists k. do 4 (split; [lia || done|]).
  intros o Hz Hs. set (x := grid now 0 k) in *.
  assert (Hx : now <= x <= now + horizon * 60000)
    by (unfold x, grid, NEXT_ELIGIBLE_STEP_MINUTES in *; lia).
  pose proof (floor_minute_range x) as Hf.
  rewrite (steady_round_trip _ _ _ _ Hz Hs Hx). split; [done|]. split.
  - rewrite (eligible_at_floor _ _ _ _ _ o); [done|done|apply Hs; lia..].
  - intros Hnow. destruct k as [|k].
    + subst x. rewrite grid_0, Z.mul_0_l, Z.add_0_r in *. congruence.
    + subst x. unfold grid, NEXT_ELIGIBLE_STEP_MINUTES, MS_PER_MINUTE in *. lia.
Qed.

(** C38: the next eligible instant. [None] is answered exactly when every instant of the five-minute grid
    over the next thirty days is blocked. Otherwise there is a first grid instant that is not blocked, and
    the answer is its wall-clock time read back in the zone. In a valid zone whose offset does not change
    over that month, that is the start of the minute of this instant: it is itself not blocked, and lies
    strictly after [now] when [now] is blocked. *)
Theorem next_eligible_first tz preferred quiet holidays now :
  match findNextEligibleAt tz preferred quiet holidays now with
  | None => forall k, Z.of_nat k * NEXT_ELIGIBLE_STEP_MINUTES <= horizon ->
              eligible_at tz preferred quiet holidays (grid now 0 k) = false
  | Some r => exists k, Z.of_nat k * NEXT_ELIGIBLE_STEP_MINUTES <= horizon /\
      (forall j, (j < k)%nat -> eligible_at tz preferred quiet holidays (grid now 0 j) = false) /\
      eligible_at tz preferred quiet holidays (grid now 0 k) = true /\
      r = zonedToUtc (zonedPartsAt (grid now 0 k) tz) tz /\
      forall o, isValidTimeZone tz = true -> steady tz now o ->
        r = floor_minute (grid now 0 k) /\
        eligible_at tz preferred quiet holidays r = true /\
        (eligible_at tz preferred quiet holidays now = false -> now < r)
  end.
Proof.
  destruct (findNextEligibleAt tz preferred quiet holidays now) as [r|] eqn:E;
    [by apply find_next_some|by apply findNextEligibleAt_none].
Qed.

(** Reading a local wall-clock time back. Two corrections bring the fields [zonedPartsAt]
    shows for [t] back to the start of the minute of [t] whenever the zone has the same offset
    at [t] and at the first corrected guess (that is, unless a transition lies between). *)
Theorem zoned_round_trip tz t :
  let target := floor_minute t + tz_offset tz t in
  let guess := target - tz_offset tz target in
  isValidTimeZone tz = true -> modern tz t -> modern tz target -> modern tz guess ->
  tz_offset tz guess = tz_offset tz t ->
  zonedToUtc (zonedPartsAt t tz) tz = floor_minute t.
Proof.
  intros target guess Hz Ht Hta Hg Ho. rewrite zonedToUtc_offsets by done.
  fold target. fold guess. rewrite Ho. lia.
Qed.
End NextEligibleSpec.

(** Bangkok, blocked at 03:00 on a working day by quiet hours until 09:00. *)
Definition bangkok : Runtime := fixed_runtime "Asia/Bangkok" 25200000 [].
#[export] Instance bangkok_laws : TimeZoneLaws bangkok := fixed_runtime_laws "Asia/Bangkok" 25200000 [] eq_refl.

Lemma bangkok_steady now : 0 <= now - 40000000 -> steady (L := bangkok_laws) "Asia/Bangkok" now 25200000.
Proof.
  intros Hn u Hu. split; [reflexivity|]. unfold modern, local. change (tz_offset "Asia/Bangkok" u) with 25200000.
  pose proof (civil_year_after_epoch (u + 25200000)). unfold MS_PER_MINUTE in Hu. lia.
Qed.

Lemma next_eligible_first_witness :
  let quiet := [Window [1; 2; 3; 4; 5] "00:00" "09:00"] in
  exists k, Z.of_nat k * NEXT_ELIGIBLE_STEP_MINUTES <= horizon /\
    1767232800000 = floor_minute (grid 1767211230000 0 k).
Proof.
  intros quiet.
  assert (E : @findNextEligibleAt bangkok "Asia/Bangkok" [] quiet [] 1767211230000
              = Some 1767232800000) by (vm_compute; reflexivity).
  pose proof (next_eligible_first (R := bangkok) (L := bangkok_laws) "Asia/Bangkok" [] quiet []
                1767211230000) as H.
  rewrite E in H. destruct H as (k & Hk & _ & _ & _ & H). exists k. split; [exact Hk|].
  apply (H 25200000); [reflexivity|]. apply bangkok_steady. lia.
Defined.

Lemma next_eligible_example :
  @findNextEligibleAt bangkok "Asia/Bangkok" [] [Window [1; 2; 3; 4; 5] "00:00" "09:00"] [] 1767211230000
  = Some 1767232800000.
Proof. vm_compute. reflexivity. Qed.

Lemma zoned_round_trip_witness :
  @zonedToUtc bangkok (@zonedPartsAt bangkok 1767211230000 "Asia/Bangkok") "Asia/Bangkok"
  = floor_minute 1767211230000.
Proof.
  apply (zoned_round_trip (L := bangkok_laws) "Asia/Bangkok" 1767211230000);
    vm_compute; reflexivity.
Defined.
