(* ===== verification/PolicyDiff.v ===== *)
(** * PolicyDiff: the semantic class of a policy change

    [apps/contact-governance/src/cg4-policy-diff.ts]. The sets of blocked minutes the source
    keys by text ([weekday:minute], [date:minute]) are finite sets of the pairs those texts
    spell. *)
From stdpp Require Import base tactics list strings gmap sets.
From Stdlib Require Import ZArith Lia Ascii.
From S2P Require Import Prelude Text JsDate JsValue Contracts Windows Cg3Facts PolicyCompiler Temporal.

Open Scope string_scope.
Open Scope Z_scope.
Open Scope list_scope.

Inductive Cg4PolicyDiffDirection := EQUAL | TIGHTENING | RELAXATION.
#[export] Instance Cg4PolicyDiffDirection_eq_dec : EqDecision Cg4PolicyDiffDirection.
Proof. solve_decision. Defined.

Inductive Cg4PolicyDiffDimension :=
  | DD_quietHours | DD_holidays | DD_callbackMode | DD_overridableRules
  | DD_allowedOperationalRuleCodes | DD_timezoneFallback.
#[export] Instance Cg4PolicyDiffDimension_eq_dec : EqDecision Cg4PolicyDiffDimension.
Proof. solve_decision. Defined.

Record Cg4PolicyDiffChange := DiffChange {
  dc_dimension : Cg4PolicyDiffDimension;
  dc_direction : Cg4PolicyDiffDirection;
}.
#[export] Instance Cg4PolicyDiffChange_eq_dec : EqDecision Cg4PolicyDiffChange.
Proof. solve_decision. Defined.

Record Cg4PolicyDiff := Diff {
  diffClass : Cg4PolicyDiffClass;
  diffDigest : string;
  changes : list Cg4PolicyDiffChange;
}.

Definition CG4_EMPTY_POLICY_CONTENT : Cg4PolicyContentV1 :=
  PolicyContent None [] NO_OVERRIDE [] [] [].

Definition MINUTES_PER_DAY : Z := 1440.

(** Blocked minutes per ISO weekday. *)
Definition quietMinutes (content : Cg4PolicyContentV1) : gset (Z * Z) :=
  list_to_set (flat_map (fun weekday =>
    map (fun minute => (weekday, minute))
      (js_filter (covers (quietHours content) weekday) (seqZ 0 MINUTES_PER_DAY))) (seqZ 1 7)).

(** [localDate.split('-').map(Number)] with the defaults of the destructuring; [None] is [NaN],
    which no [daysOfWeek] includes. *)
Definition isoWeekday (localDate : string) : option Z :=
  let fields := map js_number (split_char "-"%char localDate) in
  match nth 0 fields (Some 0), nth 1 fields (Some 1), nth 2 fields (Some 1) with
  | Some year, Some month, Some day =>
      Some ((getUTCDay (Date_UTC year (month - 1) day 0 0) + 6) mod 7 + 1)
  | _, _, _ => None
  end.

(** The minutes a holiday entry leaves open. *)
Definition holiday_open (entry : Cg3HolidayEntry) (minute : Z) : bool :=
  bool_decide (effect entry = WINDOWS) &&
  match isoWeekday (localDate entry) with
  | Some weekday => covers (windows entry) weekday minute
  | None => false
  end.

Definition holidayMinutes (content : Cg4PolicyContentV1) : gset (string * Z) :=
  list_to_set (flat_map (fun entry =>
    map (fun minute => (localDate entry, minute))
      (js_filter (fun minute => negb (holiday_open entry minute)) (seqZ 0 MINUTES_PER_DAY)))
    (holidays content)).

Section Sets.
Context {A : Type} `{Countable A}.

Definition isSubset (left right : gset A) : bool :=
  js_every (fun entry => bool_decide (entry ∈ right)) (elements left).

Definition blockedDirection (base candidate : gset A) : Cg4PolicyDiffDirection :=
  let baseInCandidate := isSubset base candidate in
  let candidateInBase := isSubset candidate base in
  if baseInCandidate && candidateInBase then EQUAL
  else if baseInCandidate then TIGHTENING
  else if candidateInBase then RELAXATION
  else RELAXATION.
End Sets.

Definition allowlistDirection (base candidate : list string) : Cg4PolicyDiffDirection :=
  blockedDirection (list_to_set candidate : gset string) (list_to_set base).

Definition hasTemporalConstraint (content : Cg4PolicyContentV1) : bool :=
  negb (bool_decide (quietHours content = [])) || negb (bool_decide (holidays content = [])).

Definition CALLBACK_MODE_RANK (m : Cg3CallbackMode) : Z :=
  match m with NO_OVERRIDE => 0 | SCOPED_OVERRIDE => 1 | TIME_POLICY_OVERRIDE => 2 end.

Definition callbackDirection (base candidate : Cg3CallbackMode) : Cg4PolicyDiffDirection :=
  let delta := CALLBACK_MODE_RANK candidate - CALLBACK_MODE_RANK base in
  if delta =? 0 then EQUAL else if 0 <? delta then RELAXATION else TIGHTENING.

Definition timezoneDirection (from candidate : Cg4PolicyContentV1) : Cg4PolicyDiffDirection :=
  if bool_decide (timezoneFallback from = timezoneFallback candidate) ||
     negb (hasTemporalConstraint from) || negb (hasTemporalConstraint candidate)
  then EQUAL else RELAXATION.

Definition diff_changes (from candidate : Cg4PolicyContentV1) : list Cg4PolicyDiffChange :=
  [DiffChange DD_quietHours (blockedDirection (quietMinutes from) (quietMinutes candidate));
   DiffChange DD_holidays (blockedDirection (holidayMinutes from) (holidayMinutes candidate));
   DiffChange DD_callbackMode (callbackDirection (callbackMode from) (callbackMode candidate));
   DiffChange DD_overridableRules
     (allowlistDirection (overridableRules from) (overridableRules candidate));
   DiffChange DD_allowedOperationalRuleCodes
     (allowlistDirection (allowedOperationalRuleCodes from) (allowedOperationalRuleCodes candidate));
   DiffChange DD_timezoneFallback (timezoneDirection from candidate)].

Definition class_of (cs : list Cg4PolicyDiffChange) : Cg4PolicyDiffClass :=
  if js_some (fun c => bool_decide (dc_direction c = RELAXATION)) cs then C_RELAXATION
  else if js_every (fun c => bool_decide (dc_direction c = EQUAL)) cs then C_NEUTRAL
  else C_TIGHTENING.

(** The object that is digested. *)
Definition dimension_text (d : Cg4PolicyDiffDimension) : string :=
  match d with
  | DD_quietHours => "quietHours"
  | DD_holidays => "holidays"
  | DD_callbackMode => "callbackMode"
  | DD_overridableRules => "overridableRules"
  | DD_allowedOperationalRuleCodes => "allowedOperationalRuleCodes"
  | DD_timezoneFallback => "timezoneFallback"
  end.
Definition direction_text (d : Cg4PolicyDiffDirection) : string :=
  match d with EQUAL => "EQUAL" | TIGHTENING => "TIGHTENING" | RELAXATION => "RELAXATION" end.
Definition class_text (c : Cg4PolicyDiffClass) : string :=
  match c with
  | C_TIGHTENING => "TIGHTENING" | C_NEUTRAL => "NEUTRAL" | C_RELAXATION => "RELAXATION"
  end.

Definition diff_json (base : option Cg4PolicyContentV1) (candidate : Cg4PolicyContentV1)
  (cls : Cg4PolicyDiffClass) (cs : list Cg4PolicyDiffChange) : jsval :=
  JObj [("base", match base with Some b => content_json b | None => JNull end);
        ("candidate", content_json candidate);
        ("diffClass", JStr (class_text cls));
        ("changes", JArr (map (fun c =>
           JObj [("dimension", JStr (dimension_text (dc_dimension c)));
                 ("direction", JStr (direction_text (dc_direction c)))]) cs))].

Definition classifyCg4PolicyDiff (sha256 : string -> string) (base : option Cg4PolicyContentV1)
  (candidate : Cg4PolicyContentV1) : result Cg4ContractError Cg4PolicyDiff :=
  let from := default CG4_EMPTY_POLICY_CONTENT base in
  let cs := diff_changes from candidate in
  let cls := class_of cs in
  digest ← canonicalCg4Digest sha256 (diff_json base candidate cls cs);
  Ok (Diff cls digest cs).

(** ** What the directions mean *)

Lemma isSubset_spec `{Countable A} (X Y : gset A) : isSubset X Y = true <-> X ⊆ Y.
Proof.
  unfold isSubset. rewrite forallb_forall. split.
  - intros Hs x Hx. apply (bool_decide_eq_true (x ∈ Y)), Hs. apply list_elem_of_In. set_solver.
  - intros Hs x Hx. apply bool_decide_eq_true, Hs. apply list_elem_of_In in Hx. set_solver.
Qed.

Lemma blockedDirection_relax `{Countable A} (X Y : gset A) :
  blockedDirection X Y <> RELAXATION <-> X ⊆ Y.
Proof.
  rewrite <- isSubset_spec. unfold blockedDirection.
  destruct (isSubset X Y), (isSubset Y X); cbn; naive_solver.
Qed.

Lemma blockedDirection_equal `{Countable A} (X Y : gset A) :
  blockedDirection X Y = EQUAL <-> X ⊆ Y /\ Y ⊆ X.
Proof.
  rewrite <- !isSubset_spec. unfold blockedDirection.
  destruct (isSubset X Y), (isSubset Y X); cbn; naive_solver.
Qed.

Lemma elem_of_seq x n : 0 <= n -> In x (seqZ 0 n) <-> 0 <= x < n.
Proof. intros Hn. rewrite <- list_elem_of_In, elem_of_seqZ. lia. Qed.

Lemma quietMinutes_spec c weekday minute : (weekday, minute) ∈ quietMinutes c <->
  1 <= weekday <= 7 /\ 0 <= minute < MINUTES_PER_DAY /\ covers (quietHours c) weekday minute = true.
Proof.
  unfold quietMinutes. rewrite elem_of_list_to_set, list_elem_of_In, in_flat_map. split.
  - intros (w & Hw & Hm). apply in_map_iff in Hm as (m & [= -> ->] & Hm).
    apply filter_In in Hm as [Hm Hc]. rewrite elem_of_seq in Hm by done.
    rewrite <- list_elem_of_In, elem_of_seqZ in Hw. repeat split; try lia. done.
  - intros (Hw & Hm & Hc). exists weekday. split; [apply list_elem_of_In, elem_of_seqZ; lia|].
    apply in_map_iff. exists minute. split; [done|]. apply filter_In. split; [|done].
    by apply elem_of_seq.
Qed.

(** A date is closed at a minute: some entry for it leaves the minute out. *)
Definition closed_on (hs : list Cg3HolidayEntry) (date : string) (minute : Z) : Prop :=
  exists entry, In entry hs /\ localDate entry = date /\ holiday_open entry minute = false.

Lemma holidayMinutes_spec c date minute : (date, minute) ∈ holidayMinutes c <->
  0 <= minute < MINUTES_PER_DAY /\ closed_on (holidays c) date minute.
Proof.
  unfold holidayMinutes, closed_on. rewrite elem_of_list_to_set, list_elem_of_In, in_flat_map. split.
  - intros (h & Hh & Hm). apply in_map_iff in Hm as (m & [= <- ->] & Hm).
    apply filter_In in Hm as [Hm Hc]. rewrite elem_of_seq in Hm by done. bool_prop. eauto 6.
  - intros (Hm & h & Hh & <- & Hc). exists h. split; [done|]. apply in_map_iff. exists minute.
    split; [done|]. apply filter_In. rewrite Hc. split; [|done]. by apply elem_of_seq.
Qed.

Lemma allowlist_relax base candidate :
  allowlistDirection base candidate <> RELAXATION <-> forall r, In r candidate -> In r base.
Proof.
  unfold allowlistDirection. rewrite blockedDirection_relax. split.
  - intros Hs r Hr. specialize (Hs r). rewrite !elem_of_list_to_set, !list_elem_of_In in Hs. auto.
  - intros Hs r. rewrite !elem_of_list_to_set, !list_elem_of_In. apply Hs.
Qed.

Lemma class_of_relax cs :
  class_of cs <> C_RELAXATION <-> forall c, In c cs -> dc_direction c <> RELAXATION.
Proof.
  unfold class_of. destruct (js_some _ cs) eqn:E.
  - split; [done|]. intros Hall. apply existsb_exists in E as (c & Hc & Hd). bool_prop.
    by apply Hall in Hc.
  - split; [|by destruct (js_every _ _)]. intros _ c Hc Hd.
    rewrite <- not_true_iff_false, existsb_exists in E. apply E. exists c.
    by rewrite bool_decide_eq_true.
Qed.

(** The change is provably narrower or equal in every dimension. *)
Record narrower (base candidate : Cg4PolicyContentV1) : Prop := {
  na_quiet : forall weekday minute, 1 <= weekday <= 7 -> 0 <= minute < MINUTES_PER_DAY ->
    covers (quietHours base) weekday minute = true ->
    covers (quietHours candidate) weekday minute = true;
  na_holidays : forall date minute, 0 <= minute < MINUTES_PER_DAY ->
    closed_on (holidays base) date minute -> closed_on (holidays candidate) date minute;
  na_mode : CALLBACK_MODE_RANK (callbackMode candidate) <= CALLBACK_MODE_RANK (callbackMode base);
  na_overridable : forall r, In r (overridableRules candidate) -> In r (overridableRules base);
  na_operational : forall r, In r (allowedOperationalRuleCodes candidate) ->
    In r (allowedOperationalRuleCodes base);
  na_zone : timezoneFallback base = timezoneFallback candidate \/
    hasTemporalConstraint base = false \/ hasTemporalConstraint candidate = false;
}.

Lemma callbackDirection_relax base candidate :
  callbackDirection base candidate <> RELAXATION <->
  CALLBACK_MODE_RANK candidate <= CALLBACK_MODE_RANK base.
Proof. by destruct base, candidate. Qed.

Lemma timezoneDirection_relax base candidate :
  timezoneDirection base candidate <> RELAXATION <->
  timezoneFallback base = timezoneFallback candidate \/
  hasTemporalConstraint base = false \/ hasTemporalConstraint candidate = false.
Proof.
  unfold timezoneDirection. case_bool_decide; cbn; [naive_solver|].
  destruct (hasTemporalConstraint base), (hasTemporalConstraint candidate); cbn; naive_solver.
Qed.

Lemma class_of_six q h m o p z :
  class_of [DiffChange DD_quietHours q; DiffChange DD_holidays h; DiffChange DD_callbackMode m;
            DiffChange DD_overridableRules o; DiffChange DD_allowedOperationalRuleCodes p;
            DiffChange DD_timezoneFallback z] <> C_RELAXATION <->
  q <> RELAXATION /\ h <> RELAXATION /\ m <> RELAXATION /\ o <> RELAXATION /\ p <> RELAXATION /\
  z <> RELAXATION.
Proof.
  rewrite class_of_relax. split.
  - intros Hall. split; [|split; [|split; [|split; [|split]]]];
      eapply (Hall (DiffChange _ _)); cbn; tauto.
  - intros (H1 & H2 & H3 & H4 & H5 & H6) c Hc. cbn in Hc. repeat destruct Hc as [<-|Hc]; done.
Qed.

Lemma class_narrower base candidate :
  class_of (diff_changes base candidate) <> C_RELAXATION <-> narrower base candidate.
Proof.
  unfold diff_changes. rewrite class_of_six.
  rewrite !blockedDirection_relax, callbackDirection_relax, !allowlist_relax, timezoneDirection_relax.
  split.
  - intros (Hq & Hh & Hm & Ho & Hp & Hz). constructor; try done.
    + intros w m Hw Hr Hc. by eapply quietMinutes_spec, Hq, quietMinutes_spec.
    + intros d m Hr Hc. by eapply holidayMinutes_spec, Hh, holidayMinutes_spec.
  - intros [Hq Hh Hm Ho Hp Hz]. repeat split; try done.
    + intros [w m] Hc. apply quietMinutes_spec in Hc as (? & ? & ?). apply quietMinutes_spec. auto.
    + intros [d m] Hc. apply holidayMinutes_spec in Hc as (? & ?). apply holidayMinutes_spec. auto.
Qed.

Lemma classify_total sha256 base candidate : exists digest,
  classifyCg4PolicyDiff sha256 base candidate =
  Ok (Diff (class_of (diff_changes (default CG4_EMPTY_POLICY_CONTENT base) candidate)) digest
           (diff_changes (default CG4_EMPTY_POLICY_CONTENT base) candidate)).
Proof.
  unfold classifyCg4PolicyDiff. set (cs := diff_changes _ _).
  assert (Hp : json_plain (diff_json base candidate (class_of cs) cs) = true).
  { clearbody cs. unfold diff_json. cbn [json_plain forallb snd].
    rewrite content_json_plain. rewrite forallb_map.
    rewrite (proj2 (forallb_forall (fun c => json_plain _) cs)) by done.
    destruct base; [by rewrite content_json_plain|done]. }
  destruct (canonical_plain _ Hp) as [text Ht]. unfold canonicalCg4Digest. rewrite Ht. cbn. by eexists.
Qed.

Lemma classify_class sha256 base candidate d :
  classifyCg4PolicyDiff sha256 (Some base) candidate = Ok d ->
  diffClass d = class_of (diff_changes base candidate).
Proof.
  destruct (classify_total sha256 (Some base) candidate) as [digest ->].
  by intros [= <-].
Qed.

(** ** The evaluator's view of a policy's blocked time *)

Section Runtime.
Context {R : Runtime} {L : TimeZoneLaws R}.

Lemma isoWeekday_local c : 99 < cv_year c -> 1 <= cv_month c <= 12 -> 1 <= cv_day c ->
  isoWeekday (localDateKey (zoned_of_civil c)) =
  Some ((days_from_civil (cv_year c) (cv_month c) (cv_day c) + 3) mod 7 + 1).
Proof.
  intros Hy Hm Hd. unfold isoWeekday, localDateKey, zoned_of_civil.
  cbn [zp_year zp_month zp_day].
  assert (Hfree : forall s, all_digits s ->
            string_forall (fun d => negb (Ascii.eqb d "-"%char)) s = true)
    by (intros s Hs; by apply all_digits_free).
  rewrite !(append_cons "-"), !append_nil_l, !split_char_app, split_char_free
    by (apply Hfree; first [apply show_digits | apply pad_show_digits]; lia).
  cbn [map nth]. rewrite js_number_show, !js_number_pad_show by lia.
  rewrite Date_UTC_plain by lia. unfold getUTCDay.
  change ((0 * 60 + 0) * MS_PER_MINUTE) with 0. rewrite Z.add_0_r, Z.div_mul by done.
  set (days := days_from_civil _ _ _). do 2 f_equal.
  rewrite Zplus_mod_idemp_l. replace (days + 4 + 6) with (days + 3 + 1 * 7) by lia.
  by rewrite Z_mod_plus_full.
Qed.

Lemma isoWeekday_zoned tz t : isValidTimeZone tz = true -> modern tz t ->
  isoWeekday (localDateKey (zonedPartsAt t tz)) = Some (zp_weekday (zonedPartsAt t tz)).
Proof.
  intros Hz Hm. rewrite zonedPartsAt_civil by done. unfold modern in Hm.
  assert (Hc : let c := civil_parts (local tz t) in 1 <= cv_month c <= 12 /\ 1 <= cv_day c /\
    cv_weekday c = (days_from_civil (cv_year c) (cv_month c) (cv_day c) + 3) mod 7 + 1).
  { unfold civil_parts. pose proof (civil_round_trip (local tz t / MS_PER_DAY)) as Hr.
    destruct (civil_from_days _) as [[y m] d]. destruct Hr as (Hr & Hm' & Hd). cbn. rewrite Hr. lia. }
  cbv zeta in Hc. destruct Hc as (Hmo & Hd & Hw). rewrite isoWeekday_local by (done || lia).
  by rewrite <- Hw.
Qed.

Lemma minute_of_day_range tz t : isValidTimeZone tz = true ->
  0 <= minute_of_day (zonedPartsAt t tz) < MINUTES_PER_DAY.
Proof.
  intros Hz. rewrite zonedPartsAt_civil by done. unfold minute_of_day, zoned_of_civil.
  cbn [zp_hour zp_minute]. unfold civil_parts. destruct (civil_from_days _) as [[y m] d].
  cbn [cv_hour cv_minute]. set (k := _ / MS_PER_MINUTE).
  assert (Hk : 0 <= k < 1440).
  { subst k. pose proof (Z.mod_pos_bound (local tz t) MS_PER_DAY ltac:(done)).
    unfold MS_PER_DAY, MS_PER_MINUTE in *. apply div_range; lia. }
  pose proof (Z.div_mod k 60 ltac:(lia)). unfold MINUTES_PER_DAY. lia.
Qed.

(** The evaluator's holiday gate blocks exactly the minutes the diff counts as closed. *)
Lemma holiday_blocks_closed hs tz t :
  valid_calendar hs -> isValidTimeZone tz = true -> modern tz t ->
  let parts := zonedPartsAt t tz in
  holiday_blocks hs parts = true <-> closed_on hs (localDateKey parts) (minute_of_day parts).
Proof.
  intros (Hv & Hnd & _) Hz Hm parts. unfold holiday_blocks, holiday_of.
  assert (Hw := isoWeekday_zoned tz t Hz Hm). fold parts in Hw.
  assert (Hopen : forall h, In h hs -> localDate h = localDateKey parts ->
    holiday_open h (minute_of_day parts) =
    negb (match effect h with CLOSED => true
          | WINDOWS => negb (anyWindowMatches (windows h) (zp_weekday parts) (minute_of_day parts)) end)).
  { intros h Hh Hd. unfold holiday_open. rewrite Hd, Hw.
    rewrite List.Forall_forall in Hv. destruct (Hv h Hh) as (_ & Hok & _).
    destruct (effect h); cbn; [done|]. by rewrite covers_anyWindowMatches, negb_involutive. }
  destruct (js_find _ hs) as [h|] eqn:E.
  - apply find_some in E as [Hh Hd]. bool_prop. split.
    + intros Hb. exists h. rewrite Hopen by done. by rewrite Hb.
    + intros (h' & Hh' & Hd' & Ho). assert (h' = h) as ->
        by (apply (NoDup_map_inj localDate hs); congruence).
      rewrite Hopen in Ho by done. by apply negb_false_iff in Ho.
  - split; [done|]. intros (h & Hh & Hd & _).
    pose proof (find_none _ _ E h Hh) as Hf. cbn in Hf. by rewrite bool_decide_eq_true_2 in Hf.
Qed.
End Runtime.

(** The diff classifies every change, without failing, and avoids [RELAXATION] exactly when
    the candidate is narrower or equal in every dimension: it blocks every quiet minute and every
    closed holiday minute the base blocks, ranks its callback mode no higher, allows no rule the
    base does not, and keeps the fallback zone unless one side has no temporal constraint. Two
    equal contents are [NEUTRAL]. *)
Theorem diff_class_iff sha256 base candidate :
  exists digest cs,
    classifyCg4PolicyDiff sha256 base candidate = Ok (Diff (class_of cs) digest cs) /\
    (class_of cs <> C_RELAXATION <-> narrower (default CG4_EMPTY_POLICY_CONTENT base) candidate) /\
    (base = Some candidate -> class_of cs = C_NEUTRAL).
Proof.
  destruct (classify_total sha256 base candidate) as [digest Hd]. do 2 eexists. split; [exact Hd|].
  split; [apply class_narrower|]. intros ->.
  change (default CG4_EMPTY_POLICY_CONTENT (Some candidate)) with candidate.
  unfold diff_changes, allowlistDirection.
  assert (Hb : forall A `{Countable A} (X : gset A), blockedDirection X X = EQUAL)
    by (intros; by apply blockedDirection_equal).
  rewrite !Hb. replace (timezoneDirection candidate candidate) with EQUAL
    by (unfold timezoneDirection; by rewrite bool_decide_eq_true_2).
  by destruct (callbackMode candidate).
Qed.

(** A policy without a temporal constraint leaves the preferred windows alone to decide. *)
Lemma unconstrained_opens policy parts preferred : hasTemporalConstraint policy = false ->
  evaluateInstant parts preferred (quietHours policy) (holidays policy) = evaluateInstant parts preferred [] [].
Proof. unfold hasTemporalConstraint. intros Hn. apply orb_false_elim in Hn as [Hq Hh]. bool_prop. by rewrite Hq, Hh. Qed.

(** What the candidate leaves open at an instant of a zone was open under the base in the same zone. *)
Lemma narrower_same_zone {R : Runtime} {L : TimeZoneLaws R} base candidate tz t preferred :
  valid_content base -> valid_content candidate -> narrower base candidate -> isValidTimeZone tz = true -> modern tz t ->
  let parts := zonedPartsAt t tz in
  evaluateInstant parts preferred (quietHours candidate) (holidays candidate) = T_eligible ->
  evaluateInstant parts preferred (quietHours base) (holidays base) = T_eligible.
Proof.
  intros [Hqb _ _ Hcb] [Hqc _ _ Hcc] [Hq Hh _ _ _ _] Hz Hm parts.
  assert (Hw : 1 <= zp_weekday parts <= 7).
  { unfold parts. rewrite zonedPartsAt_civil by done. apply civil_weekday_range. }
  assert (Hr := minute_of_day_range tz t Hz). fold parts in Hr.
  unfold evaluateInstant. destruct (holiday_blocks (holidays candidate) parts) eqn:Ehc; [done|].
  destruct (anyWindowMatches (quietHours candidate) _ _) eqn:Eqc; [done|]. intros Hpref.
  destruct (holiday_blocks (holidays base) parts) eqn:Ehb.
  { apply (holiday_blocks_closed _ tz t Hcb Hz Hm) in Ehb. apply Hh in Ehb; [|done].
    apply (holiday_blocks_closed _ tz t Hcc Hz Hm) in Ehb. fold parts in Ehb. congruence. }
  destruct (anyWindowMatches (quietHours base) _ _) eqn:Eqb; [|done].
  rewrite <- covers_anyWindowMatches in Eqb, Eqc by done. rewrite Hq in Eqc; done.
Qed.

(** The zones two policies read an instant in: one zone, the customer's, or each its own fallback, and then
    without preferred windows where the two may differ. *)
Definition zones_of (base candidate : Cg4PolicyContentV1) (preferred : list LocalTimeWindow) (base_zone candidate_zone : string) : Prop :=
  base_zone = candidate_zone \/
  (timezoneFallback base = Some base_zone /\ timezoneFallback candidate = Some candidate_zone /\
   (preferred = [] \/ (hasTemporalConstraint base = true /\ hasTemporalConstraint candidate = true))).

(** C31: what a change that is not a relaxation does at run time. Let the diff of two valid contents not be
    a relaxation, and let both be read at one instant in known zones: in one zone, such as the customer's
    own, with whatever preferred windows; or each in its own fallback zone, where the customer has no
    preferred windows or both contents have quiet hours or holidays. Then an instant the candidate leaves
    open was open under the base: the diff's own reading of windows and dates is the evaluator's. In the
    remaining case, preferred windows read in two fallback zones of which one policy constrains nothing,
    it need not be (PolicyChange.neutral_zone_divergence). *)
Theorem not_relaxation_blocks_more {R : Runtime} {L : TimeZoneLaws R} sha256 base candidate d base_zone candidate_zone t preferred :
  valid_content base -> valid_content candidate ->
  classifyCg4PolicyDiff sha256 (Some base) candidate = Ok d -> diffClass d <> C_RELAXATION ->
  zones_of base candidate preferred base_zone candidate_zone ->
  isValidTimeZone base_zone = true -> isValidTimeZone candidate_zone = true -> modern base_zone t ->
  evaluateInstant (zonedPartsAt t candidate_zone) preferred (quietHours candidate) (holidays candidate) = T_eligible ->
  evaluateInstant (zonedPartsAt t base_zone) preferred (quietHours base) (holidays base) = T_eligible.
Proof.
  intros Hvb Hvc Hd Hcls Hzones Hzb Hzc Hm He. rewrite (classify_class _ _ _ _ Hd) in Hcls. apply class_narrower in Hcls.
  assert (Hsame : base_zone = candidate_zone -> evaluateInstant (zonedPartsAt t base_zone) preferred (quietHours base) (holidays base) = T_eligible).
  { intros ->. by eapply narrower_same_zone. }
  destruct Hzones as [Hz|(Hb & Hc & Hcase)]; [by apply Hsame|].
  destruct (na_zone _ _ Hcls) as [Hz|Hfree]; [apply Hsame; congruence|].
  destruct Hcase as [->|[Hbc Hcc]]; [|by destruct Hfree; congruence].
  destruct Hfree as [Hfree|Hfree]; [by rewrite unconstrained_opens|].
  eapply narrower_same_zone; [exact Hvb|exact Hvc|exact Hcls|exact Hzb|exact Hm|]. by rewrite unconstrained_opens.
Qed.

(** Monday 00:00-01:00 widened to 02:00, and a holiday added that closes at 23:50. *)
Definition diff_base : Cg4PolicyContentV1 :=
  PolicyContent (Some "Asia/Bangkok") [Window [1] "00:00" "00:30"] SCOPED_OVERRIDE ["QUIET_HOURS"] [] [].
Definition diff_candidate : Cg4PolicyContentV1 :=
  PolicyContent (Some "Asia/Bangkok") [Window [1] "00:00" "01:00"] SCOPED_OVERRIDE [] []
    [Holiday "2026-04-13" WINDOWS [Window [1] "00:00" "23:50"]].

Lemma diff_contents_valid : valid_content diff_base /\ valid_content diff_candidate.
Proof.
  assert (Hw : forall s e, clock_shape s = true -> clock_shape e = true -> window_ok (Window [1] s e)).
  { intros s e Hs He. split; [repeat constructor; cbn; tauto|]. split; [done|].
    split; [|done]. intros d [<-|[]]. lia. }
  assert (Hn : canonical_codes []) by repeat constructor.
  assert (Hq : canonical_codes ["QUIET_HOURS"]).
  { split; [repeat constructor; cbn; tauto|]. split; repeat constructor. }
  assert (He : valid_calendar []) by repeat constructor.
  split; constructor; cbn; try done.
  - constructor; [by apply Hw|constructor].
  - constructor; [by apply Hw|constructor].
  - split; [|split; [repeat constructor; cbn; tauto|repeat constructor]].
    constructor; [|constructor]. split; [done|]. split; [constructor; [by apply Hw|constructor]|done].
Qed.

Lemma not_relaxation_blocks_more_witness :
  let parts := @zonedPartsAt bangkok 1767592800000 "Asia/Bangkok" in
  evaluateInstant parts [] (quietHours diff_base) (holidays diff_base) = T_eligible.
Proof.
  destruct (classify_total (fun s => s) (Some diff_base) diff_candidate) as [digest Hd].
  apply (not_relaxation_blocks_more (L := bangkok_laws) (fun s => s) diff_base diff_candidate _
           "Asia/Bangkok" "Asia/Bangkok" 1767592800000 [] (proj1 diff_contents_valid) (proj2 diff_contents_valid) Hd).
  - vm_compute. discriminate.
  - right. split; [reflexivity|]. split; [reflexivity|]. left. reflexivity.
  - reflexivity.
  - reflexivity.
  - vm_compute. reflexivity.
  - vm_compute. reflexivity.
Defined.
