(* ===== verification/ExceptionEval.v ===== *)
(** * ExceptionEval: when an approved exception covers a blocked rule

    [apps/contact-governance/src/cg4-exception-evaluation.ts]. *)
From stdpp Require Import base tactics list strings.
From Stdlib Require Import ZArith Lia.
From S2P Require Import Prelude JsMap Contracts RuleRegistry.

Open Scope string_scope.
Open Scope Z_scope.
Open Scope list_scope.

Record Cg4ExceptionFacts := ExceptionFacts {
  ef_seriesId : string;
  ef_revisionId : string;
  ef_revision : Z;
  ef_workflowState : Cg4ExceptionWorkflowState;
  ef_identityId : option string;
  ef_scopeKind : Cg4IdentityScopeKind;
  ef_channel : ContactChannel;
  ef_purpose : string;
  ef_sourceType : string;
  ef_sourceId : string;
  ef_allowedRuleCodes : list string;
  ef_policyId : string;
  ef_policyVersionId : string;
  ef_policyVersion : Z;
  ef_policyContentDigest : string;
  ef_currentPolicyContentDigest : option string;
  ef_policyAllowedRuleCodes : list string;
  ef_registryVersion : string;
  ef_startsAt : Z;
  ef_expiresAt : Z;
  ef_tier : Cg4ExceptionRiskTier;
  ef_contentDigest : string;
  ef_approvalDigest : string;
}.

Record Cg4ExceptionMatchContext := MatchContext {
  mc_identityId : option string;
  mc_channel : ContactChannel;
  mc_purpose : string;
  mc_source : string;
  mc_sourceId : string;
  mc_now : Z;
}.

Definition resolveCg4EffectiveState (workflowState : Cg4ExceptionWorkflowState)
  (startsAt expiresAt now : Z) : Cg4ExceptionEffectiveState :=
  if negb (bool_decide (workflowState = W_APPROVED)) then E_INACTIVE
  else if now <? startsAt then E_SCHEDULED
  else if expiresAt <=? now then E_EXPIRED
  else E_ACTIVE.

Inductive Cg4ExceptionMismatchReason :=
  | NOT_ACTIVE | SCOPE_MISMATCH | RULE_NOT_COVERED | POLICY_BINDING_STALE
  | REGISTRY_VERSION_STALE | RULE_NOT_OVERRIDABLE.
#[export] Instance Cg4ExceptionMismatchReason_eq_dec : EqDecision Cg4ExceptionMismatchReason.
Proof. solve_decision. Defined.

Inductive Cg4ExceptionCoverage :=
  | Covered (exception : Cg4ExceptionFacts) (pin : Cg4AppliedExceptionPin)
  | NotCovered (reason : Cg4ExceptionMismatchReason).

Definition scopeMatches (e : Cg4ExceptionFacts) (context : Cg4ExceptionMatchContext) : bool :=
  let identityMatches :=
    if bool_decide (ef_scopeKind e = CONTACT_WIDE) then bool_decide (ef_identityId e = None)
    else negb (bool_decide (ef_identityId e = None)) &&
         bool_decide (ef_identityId e = mc_identityId context) in
  identityMatches &&
  bool_decide (ef_channel e = mc_channel context) &&
  bool_decide (ef_purpose e = mc_purpose context) &&
  bool_decide (ef_sourceType e = mc_source context) &&
  bool_decide (ef_sourceId e = mc_sourceId context).

Definition binding_current (e : Cg4ExceptionFacts) : bool :=
  match ef_currentPolicyContentDigest e with
  | None => false
  | Some digest => bool_decide (digest = ef_policyContentDigest e)
  end.

Definition eligibility_input (e : Cg4ExceptionFacts) (reasonCode : string) : Cg4OverrideEligibilityInput :=
  EligibilityInput reasonCode APPROVED_EXCEPTION (ef_scopeKind e) (ef_policyAllowedRuleCodes e)
    (ef_tier e) (Z.of_nat (length (ef_allowedRuleCodes e)))
    ((ef_expiresAt e - ef_startsAt e) / 1000).

Definition exception_pin (e : Cg4ExceptionFacts) (reasonCode : string) : Cg4AppliedExceptionPin :=
  AppliedExceptionPin (ef_seriesId e) (ef_revisionId e) (ef_revision e) (ef_contentDigest e)
    (ef_approvalDigest e) reasonCode.

Definition coversRule (e : Cg4ExceptionFacts) (context : Cg4ExceptionMatchContext)
  (reasonCode : string) : Cg4ExceptionCoverage :=
  let effectiveState :=
    resolveCg4EffectiveState (ef_workflowState e) (ef_startsAt e) (ef_expiresAt e) (mc_now context) in
  if negb (bool_decide (effectiveState = E_ACTIVE)) then NotCovered NOT_ACTIVE
  else if negb (scopeMatches e context) then NotCovered SCOPE_MISMATCH
  else if negb (includes (ef_allowedRuleCodes e) reasonCode) then NotCovered RULE_NOT_COVERED
  else if negb (bool_decide (ef_registryVersion e = CG4_RULE_REGISTRY_VERSION))
  then NotCovered REGISTRY_VERSION_STALE
  else if negb (binding_current e) then NotCovered POLICY_BINDING_STALE
  else if negb (eligible (resolveCg4OverrideEligibility (eligibility_input e reasonCode)))
  then NotCovered RULE_NOT_OVERRIDABLE
  else Covered e (exception_pin e reasonCode).

(** The loop, with [lastReason]. *)
Fixpoint coverage_loop (context : Cg4ExceptionMatchContext) (reasonCode : string)
  (lastReason : Cg4ExceptionMismatchReason) (exceptions : list Cg4ExceptionFacts)
  : Cg4ExceptionCoverage :=
  match exceptions with
  | [] => NotCovered lastReason
  | e :: rest =>
      match coversRule e context reasonCode with
      | Covered e' pin => Covered e' pin
      | NotCovered reason => coverage_loop context reasonCode reason rest
      end
  end.

Definition resolveCg4ExceptionCoverage (exceptions : list Cg4ExceptionFacts)
  (context : Cg4ExceptionMatchContext) (reasonCode : string) : Cg4ExceptionCoverage :=
  coverage_loop context reasonCode RULE_NOT_COVERED exceptions.

Definition toCg4PolicyBinding (e : Cg4ExceptionFacts) : Cg4PolicyBinding :=
  PolicyBinding (ef_policyId e) (ef_policyVersionId e) (ef_policyVersion e)
    (ef_policyContentDigest e) CG4_POLICY_SCHEMA_VERSION CG4_RULE_REGISTRY_VERSION
    CG4_EVALUATOR_VERSION.

(** ** Coverage, stated on its own *)

(** An exact identity matches that identity only; a contact-wide exception names none. *)
Definition in_scope (e : Cg4ExceptionFacts) (c : Cg4ExceptionMatchContext) : Prop :=
  match ef_scopeKind e with
  | CONTACT_WIDE => ef_identityId e = None
  | EXACT_IDENTITY => exists i, ef_identityId e = Some i /\ mc_identityId c = Some i
  end /\
  ef_channel e = mc_channel c /\ ef_purpose e = mc_purpose c /\
  ef_sourceType e = mc_source c /\ ef_sourceId e = mc_sourceId c.

Record lifts (e : Cg4ExceptionFacts) (c : Cg4ExceptionMatchContext) (rule : string) : Prop := {
  li_approved : ef_workflowState e = W_APPROVED;
  li_window : ef_startsAt e <= mc_now c < ef_expiresAt e;
  li_scope : in_scope e c;
  li_rule : In rule (ef_allowedRuleCodes e);
  li_registry : ef_registryVersion e = CG4_RULE_REGISTRY_VERSION;
  li_binding : ef_currentPolicyContentDigest e = Some (ef_policyContentDigest e);
  li_eligible : override_spec (eligibility_input e rule);
}.

Lemma effective_active w s e now :
  resolveCg4EffectiveState w s e now = E_ACTIVE <-> w = W_APPROVED /\ s <= now < e.
Proof.
  unfold resolveCg4EffectiveState. case_bool_decide; cbn; [|naive_solver].
  destruct (Z.ltb_spec now s); [split; [done|intros [_ ?]; lia]|].
  destruct (Z.leb_spec e now); [split; [done|intros [_ ?]; lia]|].
  split; [intros _; split; [done|lia]|done].
Qed.

Lemma scopeMatches_spec e c : scopeMatches e c = true <-> in_scope e c.
Proof.
  unfold scopeMatches, in_scope. rewrite !andb_true_iff, !bool_decide_eq_true.
  assert (Hi : (if bool_decide (ef_scopeKind e = CONTACT_WIDE) then bool_decide (ef_identityId e = None)
    else negb (bool_decide (ef_identityId e = None)) &&
         bool_decide (ef_identityId e = mc_identityId c)) = true <->
    match ef_scopeKind e with
    | CONTACT_WIDE => ef_identityId e = None
    | EXACT_IDENTITY => exists i, ef_identityId e = Some i /\ mc_identityId c = Some i end).
  { destruct (ef_scopeKind e).
    - rewrite bool_decide_eq_false_2 by done. destruct (ef_identityId e) as [i|].
      + rewrite bool_decide_eq_false_2 by done. cbn. rewrite bool_decide_eq_true. naive_solver.
      + rewrite bool_decide_eq_true_2 by done. cbn. naive_solver.
    - rewrite bool_decide_eq_true_2 by done. apply bool_decide_eq_true. }
  rewrite Hi. tauto.
Qed.

Lemma binding_current_spec e :
  binding_current e = true <-> ef_currentPolicyContentDigest e = Some (ef_policyContentDigest e).
Proof.
  unfold binding_current. destruct (ef_currentPolicyContentDigest e); [|done].
  rewrite bool_decide_eq_true. split; congruence.
Qed.

Lemma coversRule_spec e c rule :
  (lifts e c rule /\ coversRule e c rule = Covered e (exception_pin e rule)) \/
  (~ lifts e c rule /\ exists reason, coversRule e c rule = NotCovered reason).
Proof.
  unfold coversRule. pose proof (effective_active (ef_workflowState e) (ef_startsAt e) (ef_expiresAt e) (mc_now c)) as Ha.
  case_bool_decide as Hst; cbn; [|right; split; [intros []; tauto|eauto]].
  apply Ha in Hst as [Hw Ht].
  destruct (scopeMatches e c) eqn:Es; cbn.
  2:{ right. split; [|eauto]. intros []. apply not_true_iff_false in Es. by rewrite scopeMatches_spec in Es. }
  apply scopeMatches_spec in Es.
  destruct (includes _ rule) eqn:Er; cbn.
  2:{ right. split; [|eauto]. intros []. by apply includes_false in Er. }
  apply includes_spec in Er.
  case_bool_decide as Hv; cbn; [|right; split; [by intros []|eauto]].
  destruct (binding_current e) eqn:Eb; cbn.
  2:{ right. split; [|eauto]. intros []. apply not_true_iff_false in Eb. by rewrite binding_current_spec in Eb. }
  apply binding_current_spec in Eb.
  destruct (eligible _) eqn:El; cbn.
  - left. split; [|done]. constructor; try done. by apply eligible_spec.
  - right. split; [|eauto]. intros []. apply not_true_iff_false in El. by rewrite eligible_spec in El.
Qed.

Lemma coverage_loop_covered c rule r es e pin :
  coverage_loop c rule r es = Covered e pin <->
  exists before after, es = before ++ e :: after /\ lifts e c rule /\
    Forall (fun x => ~ lifts x c rule) before /\ pin = exception_pin e rule.
Proof.
  revert r; induction es as [|x es IH]; intros r; cbn.
  - split; [done|]. by intros ([] & ? & ? & _).
  - destruct (coversRule_spec x c rule) as [[Hl ->]|[Hl [reason ->]]].
    + split.
      * intros [= <- <-]. by exists [], es.
      * intros ([|y b] & a & [= -> ->] & He & Hb & ->); [done|]. by inversion_clear Hb.
    + rewrite IH. split.
      * intros (b & a & -> & He & Hb & ->). exists (x :: b), a. eauto.
      * intros ([|y b] & a & [= -> ->] & He & Hb & ->); [done|].
        inversion_clear Hb. by exists b, a.
Qed.

(** Whether some exception of the list lifts the rule. *)
Lemma coverage_some es c rule :
  (exists e pin, resolveCg4ExceptionCoverage es c rule = Covered e pin) <->
  exists e, In e es /\ lifts e c rule.
Proof.
  unfold resolveCg4ExceptionCoverage. split.
  - intros (e & pin & H). apply coverage_loop_covered in H as (b & a & -> & He & _).
    exists e. split; [apply in_elt|done].
  - intros (e & He & Hl). generalize RULE_NOT_COVERED as r.
    induction es as [|x es IH]; intros r; [done|]. cbn.
    destruct (coversRule_spec x c rule) as [[_ ->]|[Hx [reason ->]]]; [eauto|].
    destruct He as [->|He]; [done|]. by apply IH.
Qed.

(** The exception that lifts a blocked rule is the first of the list that covers it, and one
    covers it exactly when it is approved and within its window (the end excluded), matches the
    request in every scope dimension with no wildcard, lists the rule, is bound to the current
    registry and to the digest its policy still carries, and is today still within what the
    override policy allows its tier, scope, rule count and lifetime. The pin names that very
    revision and rule. No exception lifts a hard rule. *)
Theorem exception_coverage_iff es c rule :
  (forall e pin, resolveCg4ExceptionCoverage es c rule = Covered e pin <->
     exists before after, es = before ++ e :: after /\ lifts e c rule /\
       Forall (fun x => ~ lifts x c rule) before /\ pin = exception_pin e rule) /\
  (In rule HARD_RULE_CODES -> exists reason, resolveCg4ExceptionCoverage es c rule = NotCovered reason).
Proof.
  split; [intros; apply coverage_loop_covered|]. intros Hh.
  destruct (resolveCg4ExceptionCoverage es c rule) as [e pin|reason] eqn:E; [|eauto]. exfalso.
  apply coverage_loop_covered in E as (_ & _ & _ & [_ _ _ _ _ _ (f & Ho & _)] & _).
  by apply may_override_not_hard in Ho.
Qed.

Definition sample_exception (seriesId : string) (startsAt : Z) : Cg4ExceptionFacts :=
  ExceptionFacts seriesId "rev" 2 W_APPROVED (Some "identity-1") EXACT_IDENTITY LINE "MARKETING"
    "JOURNEY" "journey-1" ["QUIET_HOURS"] "policy-1" "pv-1" 3 "digest" (Some "digest")
    ["QUIET_HOURS"; "MIN_GAP"] CG4_RULE_REGISTRY_VERSION startsAt (startsAt + 3600000) STANDARD
    "content" "approval".

Definition sample_context : Cg4ExceptionMatchContext :=
  MatchContext (Some "identity-1") LINE "MARKETING" "JOURNEY" "journey-1" 5000000.

Lemma exception_coverage_iff_witness :
  In "CONSENT_REVOKED" HARD_RULE_CODES /\
  (exists reason, resolveCg4ExceptionCoverage [sample_exception "s" 4000000] sample_context "CONSENT_REVOKED"
                  = NotCovered reason) /\
  exists before after,
    [sample_exception "old" 1000000; sample_exception "new" 4000000]
      = before ++ sample_exception "new" 4000000 :: after /\
    lifts (sample_exception "new" 4000000) sample_context "QUIET_HOURS".
Proof.
  assert (Hh : In "CONSENT_REVOKED" HARD_RULE_CODES) by (apply includes_spec; reflexivity).
  split; [exact Hh|]. split.
  - apply (exception_coverage_iff [sample_exception "s" 4000000] sample_context "CONSENT_REVOKED"). exact Hh.
  - destruct (proj1 (proj1 (exception_coverage_iff
      [sample_exception "old" 1000000; sample_exception "new" 4000000] sample_context "QUIET_HOURS")
      (sample_exception "new" 4000000) (exception_pin (sample_exception "new" 4000000) "QUIET_HOURS"))
      eq_refl) as (b & a & H1 & H2 & _).
    exists b, a. split; [exact H1|exact H2].
Defined.
