(* ===== verification/Cg3Evaluator.v ===== *)
(** * Cg3Evaluator: the gate evaluator

    The gates of [apps/contact-governance/src/cg3-policy-evaluator.ts], in the order
    [evaluateCg3Policy] walks them. An early [return] is an [Err] of the outcome returned, so the
    whole evaluator is a sequence of steps of which the first to fail decides. *)
From stdpp Require Import base tactics list strings.
From Stdlib Require Import ZArith Lia Sorting.Permutation Sorting.Sorted.
From S2P Require Import Prelude JsMap Text JsDate Contracts RuleRegistry Windows Cg3Facts Temporal ExceptionEval.

Open Scope string_scope.
Open Scope Z_scope.
Open Scope list_scope.

(** A field that may be [undefined] or [null] is [None] in both cases. *)
Record Cg3EvaluationInput := EvaluationInput {
  in_now : Z;
  in_identityId : option string;
  in_channel : ContactChannel;
  in_purpose : string;
  in_contactKind : option string;
  in_senderIdentityId : option string;
  in_customerExplicitTimezone : option string;
  in_customer360Timezone : option string;
  in_tenantDefaultTimezone : option string;
  in_preferences : list Cg3PreferenceCandidate;
  in_policy : option Cg3PolicyFacts;
  in_activeCallback : option Cg3CallbackFacts;
  in_source : option string;
  in_sourceId : option string;
  in_activeExceptions : list Cg4ExceptionFacts;
}.

Record MatchedScope := Scope_ {
  ms_identityId : option string;
  ms_channel : option ContactChannel;
  ms_purpose : option string;
  ms_contactKind : option string;
}.
#[export] Instance MatchedScope_eq_dec : EqDecision MatchedScope.
Proof. solve_decision. Defined.

Record Cg3GateOutcome := GateOutcome_ {
  go_trace : list ContactPolicyTraceEntry;
  go_decision : option ContactDecision;
  go_reasonCode : option string;
  go_preferenceVersion : option Z;
  go_nextEligibleAt : option string;
  go_timezoneSource : option string;
  go_matchedScope : option MatchedScope;
  go_matchedWindowRef : option string;
  go_exceptionMode : option Cg3CallbackMode;
  go_exceptionRef : option string;
  go_consumedCallbackRequestId : option string;
  go_appliedExceptions : list Cg4AppliedExceptionPin;
}.
#[export] Instance Cg3GateOutcome_eq_dec : EqDecision Cg3GateOutcome.
Proof. solve_decision. Defined.

(** ** Preference gate *)

Definition bound_to {A} `{EqDecision A} (bound actual : option A) : bool :=
  match bound with None => true | Some b => bool_decide (actual = Some b) end.

Definition preferenceMatches (candidate : Cg3PreferenceCandidate) (input : Cg3EvaluationInput) : bool :=
  bound_to (pc_identityId candidate) (in_identityId input) &&
  bound_to (pc_channel candidate) (Some (in_channel input)) &&
  bound_to (pc_purpose candidate) (Some (in_purpose input)) &&
  bound_to (pc_contactKind candidate) (in_contactKind input).

Definition one_if_bound {A} (x : option A) : Z := match x with Some _ => 1 | None => 0 end.

Definition specificityOf (candidate : Cg3PreferenceCandidate) : Z :=
  one_if_bound (pc_identityId candidate) + one_if_bound (pc_channel candidate) +
  one_if_bound (pc_purpose candidate) + one_if_bound (pc_contactKind candidate).

Definition DECISION_RESTRICTIVENESS (d : Cg3PreferenceDecision) : Z :=
  match d with P_BLOCK => 0 | P_DEFER => 1 | P_ALLOW => 2 end.

Definition restrictiveness (candidate : Cg3PreferenceCandidate) : Z :=
  DECISION_RESTRICTIVENESS (default P_ALLOW (pc_decision candidate)).

Definition restrictive_le (left right : Cg3PreferenceCandidate) : bool :=
  restrictiveness left <=? restrictiveness right.

Definition resolveEffectivePreference (candidates : list Cg3PreferenceCandidate)
  (input : Cg3EvaluationInput) : option Cg3PreferenceCandidate :=
  let matches := js_filter (fun candidate => preferenceMatches candidate input) candidates in
  if bool_decide (length matches = 0%nat) then None
  else
    let winners := of_max_rank specificityOf matches in
    match winners with
    | [winner] => Some winner
    | _ => head (sort_by restrictive_le winners)
    end.

(** ** Overrides *)

Definition exception_context (input : Cg3EvaluationInput) (source sourceId : string)
  : Cg4ExceptionMatchContext :=
  MatchContext (in_identityId input) (in_channel input) (in_purpose input) source sourceId (in_now input).

(** [seriesId ? candidates.filter(..) : candidates] *)
Definition exception_candidates (input : Cg3EvaluationInput) (seriesId : option string)
  : list Cg4ExceptionFacts :=
  match seriesId with
  | None | Some "" => in_activeExceptions input
  | Some s => js_filter (fun entry => bool_decide (ef_seriesId entry = s)) (in_activeExceptions input)
  end.

Definition approvedExceptionFor (input : Cg3EvaluationInput) (reasonCode : string)
  (seriesId : option string) : option Cg4AppliedExceptionPin :=
  match in_activeExceptions input, in_source input, in_sourceId input with
  | _ :: _, Some source, Some sourceId =>
      match resolveCg4ExceptionCoverage (exception_candidates input seriesId)
              (exception_context input source sourceId) reasonCode with
      | Covered _ pin => Some pin
      | NotCovered _ => None
      end
  | _, _, _ => None
  end.

Definition callbackIsExactScopeMatch (callback : Cg3CallbackFacts) (input : Cg3EvaluationInput) : bool :=
  bool_decide (cb_identityId callback = in_identityId input) &&
  bool_decide (cb_channel callback = in_channel input) &&
  bool_decide (cb_purpose callback = in_purpose input).

(** [new Date(expiresAt) > now], [new Date(expiresAt) <= now]: both false on [NaN] *)
Definition expires_after `{Runtime} (callback : Cg3CallbackFacts) (now : Z) : bool :=
  match date_parse (cb_expiresAt callback) with Some t => now <? t | None => false end.
Definition expires_by `{Runtime} (callback : Cg3CallbackFacts) (now : Z) : bool :=
  match date_parse (cb_expiresAt callback) with Some t => t <=? now | None => false end.

(** [input.policy?.callbackMode ?? 'SCOPED_OVERRIDE'] *)
Definition callback_mode (input : Cg3EvaluationInput) : Cg3CallbackMode :=
  match in_policy input with Some p => pf_callbackMode p | None => SCOPED_OVERRIDE end.

(** [input.policy?.overridableRules.includes(reasonCode) ?? false] *)
Definition overridable (input : Cg3EvaluationInput) (reason : TemporalReason) : bool :=
  match in_policy input with
  | Some p => includes (pf_overridableRules p) (reason_code reason)
  | None => false
  end.

Definition callbackWillOverride `{Runtime} (input : Cg3EvaluationInput) (reason : TemporalReason) : bool :=
  match in_activeCallback input with
  | None => false
  | Some callback =>
      negb (bool_decide (callback_mode input = NO_OVERRIDE)) &&
      callbackIsExactScopeMatch callback input &&
      expires_after callback (in_now input) &&
      overridable input reason &&
      (negb (bool_decide (callback_mode input = TIME_POLICY_OVERRIDE)) ||
       bool_decide (is_Some (approvedExceptionFor input (reason_code reason)
                               (cb_approvedExceptionId callback))))
  end.

(** [callback.approvedExceptionId ? approvedExceptionFor(..) : undefined] *)
Definition referencedException (input : Cg3EvaluationInput) (reason : TemporalReason)
  (callback : Cg3CallbackFacts) : option Cg4AppliedExceptionPin :=
  match cb_approvedExceptionId callback with
  | None | Some "" => None
  | Some s => approvedExceptionFor input (reason_code reason) (Some s)
  end.

(** ** Temporal gate *)

Record TimezoneLink := Link { tl_value : option string; tl_source : string }.

Definition timezone_chain (input : Cg3EvaluationInput) (winner : option Cg3PreferenceCandidate)
  : list TimezoneLink :=
  [Link (w ← winner; pc_timezone w) "PREFERENCE";
   Link (in_customerExplicitTimezone input) "CUSTOMER_EXPLICIT";
   Link (in_customer360Timezone input) "CUSTOMER_360";
   Link (p ← in_policy input; pf_timezoneFallback p) "POLICY_FALLBACK";
   Link (in_tenantDefaultTimezone input) "TENANT_DEFAULT"].

(** [candidate.value && isValidTimeZone(candidate.value)] *)
Definition usable_zone `{Runtime} (value : option string) : bool :=
  match value with
  | None | Some "" => false
  | Some tz => isValidTimeZone tz
  end.

(** The first usable zone of the chain, with its source. *)
Definition resolvedTimezone `{Runtime} (input : Cg3EvaluationInput)
  (winner : option Cg3PreferenceCandidate) : option (string * string) :=
  match js_find (fun link => usable_zone (tl_value link)) (timezone_chain input winner) with
  | Some link => Some (default "" (tl_value link), tl_source link)
  | None => None
  end.

Definition preferredWindows (winner : option Cg3PreferenceCandidate) : list LocalTimeWindow :=
  match winner with Some w => pc_preferredWindows w | None => [] end.
Definition policy_quietHours (input : Cg3EvaluationInput) : list LocalTimeWindow :=
  match in_policy input with Some p => pf_quietHours p | None => [] end.
Definition policy_holidays (input : Cg3EvaluationInput) : list Cg3HolidayEntry :=
  match in_policy input with Some p => pf_holidays p | None => [] end.

Definition hasTemporalConstraint (input : Cg3EvaluationInput) (winner : option Cg3PreferenceCandidate)
  : bool :=
  negb (bool_decide (preferredWindows winner = [])) ||
  negb (bool_decide (policy_quietHours input = [])) ||
  negb (bool_decide (policy_holidays input = [])).

Record TemporalBlock := Block {
  tb_reason : TemporalReason;
  tb_matchedWindowRef : string;
  tb_nextEligibleAt : option string;
}.

(** [temporalBlock] and [nextEligibleAt]. *)
Definition temporal_block `{Runtime} (input : Cg3EvaluationInput)
  (winner : option Cg3PreferenceCandidate) : option TemporalBlock :=
  if negb (hasTemporalConstraint input winner) then None
  else
    match resolvedTimezone input winner with
    | None => None
    | Some (tz, _) =>
        match evaluateInstant (zonedPartsAt (in_now input) tz) (preferredWindows winner)
                (policy_quietHours input) (policy_holidays input) with
        | T_eligible => None
        | T_blocked reason ref =>
            Some (Block reason ref
                    (toISOString <$> findNextEligibleAt tz (preferredWindows winner)
                                       (policy_quietHours input) (policy_holidays input) (in_now input)))
        end
    end.

Definition entry (gate : ContactPolicyGate) (outcome : GateOutcome) (reasonCode : string)
  : ContactPolicyTraceEntry := TraceEntry gate outcome (Some reasonCode).
Definition pass (gate : ContactPolicyGate) : ContactPolicyTraceEntry := TraceEntry gate O_PASS None.

(** The outcome of a gate that stops the evaluation. *)
Definition stopped (trace : list ContactPolicyTraceEntry) (decision : ContactDecision)
  (reasonCode : string) (winner : option Cg3PreferenceCandidate) : Cg3GateOutcome :=
  GateOutcome_ trace (Some decision) (Some reasonCode) (pc_version <$> winner)
    None None None None None None None [].

(** The same, with the fields of a temporal block. *)
Definition stopped_by_block (trace : list ContactPolicyTraceEntry) (decision : ContactDecision)
  (reasonCode : string) (winner : option Cg3PreferenceCandidate) (zone : option (string * string))
  (block : TemporalBlock) : Cg3GateOutcome :=
  GateOutcome_ trace (Some decision) (Some reasonCode) (pc_version <$> winner)
    (tb_nextEligibleAt block) (snd <$> zone) None (Some (tb_matchedWindowRef block)) None None None [].

Abbreviation step := (result Cg3GateOutcome).

Definition preference_outcome (d : Cg3PreferenceDecision) : ContactDecision * GateOutcome :=
  match d with P_ALLOW => (ALLOW, O_ALLOW) | P_BLOCK => (BLOCK, O_BLOCK) | P_DEFER => (DEFER, O_DEFER) end.

Definition preference_gate (winner : option Cg3PreferenceCandidate)
  : step (list ContactPolicyTraceEntry) :=
  match winner with
  | Some w =>
      match pc_decision w with
      | Some (P_BLOCK as d) | Some (P_DEFER as d) =>
          Err (GateOutcome_ [entry G_PREFERENCE (snd (preference_outcome d)) "PREFERENCE_BLOCKED"]
                 (Some (fst (preference_outcome d))) (Some "PREFERENCE_BLOCKED") (Some (pc_version w))
                 None None
                 (Some (Scope_ (pc_identityId w) (pc_channel w) (pc_purpose w) (pc_contactKind w)))
                 None None None None [])
      | _ => Ok [pass G_PREFERENCE]
      end
  | None => Ok [pass G_PREFERENCE]
  end.

(** What the temporal gates leave behind when they let the request pass. *)
Record Passed := PassedGates {
  pg_trace : list ContactPolicyTraceEntry;
  pg_callbackOverrode : bool;
  pg_applied : list Cg4AppliedExceptionPin;
}.

(** The callback branch, for a block no exception of its own lifts. *)
Definition callback_gate `{Runtime} (input : Cg3EvaluationInput)
  (winner : option Cg3PreferenceCandidate) (zone : option (string * string)) (block : TemporalBlock)
  (trace : list ContactPolicyTraceEntry) : step Passed :=
  let reason := reason_code (tb_reason block) in
  let stop decision gateOutcome code :=
    Err (stopped_by_block (trace ++ [entry G_CALLBACK_EXCEPTION gateOutcome code]) decision code
           winner zone block) in
  match in_activeCallback input with
  | None => stop DEFER O_DEFER reason
  | Some callback =>
      if bool_decide (callback_mode input = NO_OVERRIDE)
      then stop DEFER O_DEFER "CALLBACK_OVERRIDE_NOT_ALLOWED"
      else if negb (callbackIsExactScopeMatch callback input)
      then stop DEFER O_DEFER "CALLBACK_OVERRIDE_NOT_ALLOWED"
      else if expires_by callback (in_now input)
      then stop DEFER O_DEFER "CALLBACK_OVERRIDE_EXPIRED"
      else
        let referenced := referencedException input (tb_reason block) callback in
        if bool_decide (callback_mode input = TIME_POLICY_OVERRIDE) && bool_decide (referenced = None)
        then stop REVIEW O_REVIEW "EXCEPTION_APPROVAL_REQUIRED"
        else Ok (PassedGates
                   (trace ++ [entry G_CALLBACK_EXCEPTION O_PASS "CUSTOMER_REQUESTED_CALLBACK"]) true
                   (match referenced with Some pin => [pin] | None => [] end))
  end.

(** A provisional block: lifted by an exception, by a callback, or final. *)
Definition block_gate `{Runtime} (input : Cg3EvaluationInput)
  (winner : option Cg3PreferenceCandidate) (zone : option (string * string)) (block : TemporalBlock)
  (trace : list ContactPolicyTraceEntry) : step Passed :=
  let reason := reason_code (tb_reason block) in
  let appliedException :=
    if callbackWillOverride input (tb_reason block) then None
    else approvedExceptionFor input reason None in
  let trace := trace ++ [entry G_TEMPORAL_POLICY O_DEFER reason] in
  match appliedException with
  | Some pin =>
      Ok (PassedGates (trace ++ [entry G_APPROVED_EXCEPTION O_PASS "APPROVED_EXCEPTION_APPLIED"]) false [pin])
  | None =>
      if negb (overridable input (tb_reason block))
      then Err (stopped_by_block trace DEFER reason winner zone block)
      else callback_gate input winner zone block trace
  end.

Definition temporal_gate `{Runtime} (input : Cg3EvaluationInput)
  (winner : option Cg3PreferenceCandidate) (trace : list ContactPolicyTraceEntry) : step Passed :=
  let zone := resolvedTimezone input winner in
  throw_if (hasTemporalConstraint input winner && bool_decide (zone = None))
    (stopped (trace ++ [entry G_TEMPORAL_POLICY O_DEFER "TIMEZONE_UNKNOWN"]) DEFER "TIMEZONE_UNKNOWN" winner) ;;
  match temporal_block input winner with
  | Some block => block_gate input winner zone block trace
  | None => Ok (PassedGates (trace ++ [pass G_TEMPORAL_POLICY]) false [])
  end.

Definition sender_invalid (input : Cg3EvaluationInput) : bool :=
  match in_senderIdentityId input with Some s => negb (nonblank s) | None => false end.

Definition sender_gate `{Runtime} (input : Cg3EvaluationInput)
  (winner : option Cg3PreferenceCandidate) (trace : list ContactPolicyTraceEntry)
  : step (list ContactPolicyTraceEntry) :=
  if sender_invalid input
  then Err (GateOutcome_ (trace ++ [entry G_SENDER_IDENTITY O_BLOCK "SENDER_IDENTITY_INVALID"])
              (Some BLOCK) (Some "SENDER_IDENTITY_INVALID") (pc_version <$> winner) None
              (snd <$> resolvedTimezone input winner) None None None None None [])
  else Ok (trace ++ [pass G_SENDER_IDENTITY]).

(** The outcome once every gate has passed. *)
Definition passed_outcome `{Runtime} (input : Cg3EvaluationInput)
  (winner : option Cg3PreferenceCandidate) (passed : Passed) (trace : list ContactPolicyTraceEntry)
  : Cg3GateOutcome :=
  let block := temporal_block input winner in
  let with_policy := match in_policy input, block with Some p, Some _ => Some p | _, _ => None end in
  {| go_trace := trace;
     go_decision := None;
     go_reasonCode := None;
     go_preferenceVersion := pc_version <$> winner;
     go_nextEligibleAt := None;
     go_timezoneSource :=
       if hasTemporalConstraint input winner then snd <$> resolvedTimezone input winner else None;
     go_matchedScope := None;
     go_matchedWindowRef := tb_matchedWindowRef <$> block;
     go_exceptionMode := pf_callbackMode <$> with_policy;
     go_exceptionRef :=
       match with_policy with Some _ => cb_requestId <$> in_activeCallback input | None => None end;
     go_consumedCallbackRequestId :=
       if pg_callbackOverrode passed then cb_requestId <$> in_activeCallback input else None;
     go_appliedExceptions := pg_applied passed |}.

(** An outcome either way: what the early returns gave, or the final one. *)
Definition returned {A} (r : result A A) : A := match r with Ok a => a | Err a => a end.

Definition evaluateCg3Policy `{Runtime} (input : Cg3EvaluationInput) : Cg3GateOutcome :=
  let winner := resolveEffectivePreference (in_preferences input) input in
  returned (
    trace ← preference_gate winner;
    passed ← temporal_gate input winner trace;
    trace ← sender_gate input winner (pg_trace passed ++ [pass G_ATTEMPT_TOUCH_CAP]);
    Ok (passed_outcome input winner passed trace)).

(** ** The effective preference *)

Lemma restrictive_le_total x y : restrictive_le x y = true \/ restrictive_le y x = true.
Proof. unfold restrictive_le. rewrite !Z.leb_le. lia. Qed.

Lemma restrictive_le_trans x y z :
  restrictive_le x y = true -> restrictive_le y z = true -> restrictive_le x z = true.
Proof. unfold restrictive_le. rewrite !Z.leb_le. lia. Qed.

(** [w] is the preference in force: of the matching candidates it has the greatest specificity,
    and among those of that specificity the most restrictive decision. *)
Definition in_force (cs : list Cg3PreferenceCandidate) (input : Cg3EvaluationInput)
  (w : Cg3PreferenceCandidate) : Prop :=
  In w cs /\ preferenceMatches w input = true /\
  forall c, In c cs -> preferenceMatches c input = true ->
    specificityOf c <= specificityOf w /\
    (specificityOf c = specificityOf w -> restrictiveness w <= restrictiveness c).

Lemma most_restrictive l w : head (sort_by restrictive_le l) = Some w ->
  In w l /\ forall c, In c l -> restrictiveness w <= restrictiveness c.
Proof.
  intros Hh. pose proof (sort_by_sorted restrictive_le restrictive_le_total restrictive_le_trans l) as Hs.
  destruct (sort_by restrictive_le l) as [|x s] eqn:E; [done|]. injection Hh as ->.
  assert (Hin : forall c, In c l <-> In c (w :: s)) by (intros c; by rewrite <- E, sort_by_In).
  split; [by apply Hin; left|]. intros c Hc. apply Hin in Hc.
  inversion Hs as [|? ? _ Hf]; subst. rewrite List.Forall_forall in Hf.
  destruct Hc as [->|Hc]; [lia|]. specialize (Hf c Hc). unfold restrictive_le in Hf. lia.
Qed.

Lemma effective_spec cs input :
  match resolveEffectivePreference cs input with
  | Some w => in_force cs input w
  | None => forall c, In c cs -> preferenceMatches c input = false
  end.
Proof.
  unfold resolveEffectivePreference. set (ms := js_filter _ cs).
  assert (Hms : forall c, In c ms <-> In c cs /\ preferenceMatches c input = true)
    by (intros; apply filter_In).
  case_bool_decide as Hlen.
  { apply length_zero_iff_nil in Hlen. by apply filter_nil. }
  assert (Hw : forall w, In w (of_max_rank specificityOf ms) ->
    (forall c, In c (of_max_rank specificityOf ms) -> restrictiveness w <= restrictiveness c) ->
    in_force cs input w).
  { intros w Hin Hr. pose proof Hin as Hin'. apply of_max_rank_In in Hin' as [Hwm Hmax].
    apply Hms in Hwm as [Hwc Hwp]. split; [done|]. split; [done|]. intros c Hc Hp.
    assert (Hcm : In c ms) by by apply Hms. split; [by apply Hmax|]. intros Heq. apply Hr.
    apply of_max_rank_In. split; [done|]. intros y Hy. rewrite Heq. by apply Hmax. }
  destruct (of_max_rank specificityOf ms) as [|w [|w' ws]] eqn:E.
  - exfalso. apply (of_max_rank_nonempty specificityOf ms); [by intros ->|done].
  - apply Hw; [by left|]. intros c [<-|[]]. lia.
  - rewrite <- E in *. destruct (head _) as [h|] eqn:Eh.
    + apply most_restrictive in Eh as [Hin Hr]. by apply Hw.
    + exfalso. assert (Hin : In w (sort_by restrictive_le (of_max_rank specificityOf ms)))
        by (apply sort_by_In; rewrite E; by left).
      by destruct (sort_by _ _).
Qed.

Lemma in_force_rank cs input w w' :
  in_force cs input w -> in_force cs input w' ->
  specificityOf w = specificityOf w' /\ restrictiveness w = restrictiveness w'.
Proof.
  intros (Hw & Hp & Hall) (Hw' & Hp' & Hall'). specialize (Hall w' Hw' Hp').
  specialize (Hall' w Hw Hp). lia.
Qed.

(** The preference in force. No candidate matching the request is no preference; otherwise
    the winner matches, no matching candidate is more specific, and none as specific is more
    restrictive (BLOCK before DEFER before ALLOW). The decision therefore does not depend on the
    order in which preferences were loaded. *)
Theorem effective_preference cs cs' input :
  match resolveEffectivePreference cs input with
  | Some w => in_force cs input w
  | None => forall c, In c cs -> preferenceMatches c input = false
  end /\
  (Permutation cs cs' ->
   restrictiveness <$> resolveEffectivePreference cs' input
   = restrictiveness <$> resolveEffectivePreference cs input).
Proof.
  split; [apply effective_spec|]. intros Hp.
  pose proof (effective_spec cs input) as H. pose proof (effective_spec cs' input) as H'.
  assert (Hin : forall c, In c cs <-> In c cs')
    by (intros c; split; apply Permutation_in; [done|by symmetry]).
  destruct (resolveEffectivePreference cs input) as [w|],
    (resolveEffectivePreference cs' input) as [w'|]; cbn; try done.
  - assert (Hw' : in_force cs input w').
    { destruct H' as (H1 & H2 & H3). split; [by apply Hin|]. split; [done|]. intros c Hc. by apply H3, Hin. }
    f_equal. by destruct (in_force_rank cs input w w').
  - destruct H as (H1 & H2 & _). apply Hin in H1. rewrite H' in H2; done.
  - destruct H' as (H1 & H2 & _). apply Hin in H1. rewrite H in H2; done.
Qed.

Definition sample_candidate (purpose : option string) (d : Cg3PreferenceDecision) : Cg3PreferenceCandidate :=
  PreferenceCandidate 1 None (Some LINE) purpose None (Some d) None [].

Definition sample_evaluation : Cg3EvaluationInput :=
  EvaluationInput 1767592800000 (Some "identity-1") LINE "MARKETING" None (Some "line-oa") None None None
    [] None None (Some "JOURNEY") (Some "journey-1") [].

Lemma effective_preference_witness :
  let cs := [sample_candidate None P_BLOCK; sample_candidate (Some "MARKETING") P_ALLOW;
             sample_candidate (Some "MARKETING") P_DEFER] in
  restrictiveness <$> resolveEffectivePreference (rev cs) sample_evaluation
  = restrictiveness <$> resolveEffectivePreference cs sample_evaluation.
Proof.
  intros cs. apply (effective_preference cs (rev cs) sample_evaluation). apply Permutation_rev.
Defined.

(** ** Overrides, stated on their own *)

(** Some exception of a list that [approvedExceptionFor] searches lifts the rule for this request. *)
Definition exception_lifts (input : Cg3EvaluationInput) (series : option string) (rule : string)
  (e : Cg4ExceptionFacts) : Prop :=
  In e (exception_candidates input series) /\
  exists source sourceId, in_source input = Some source /\ in_sourceId input = Some sourceId /\
    lifts e (exception_context input source sourceId) rule.

Lemma exception_candidates_In input series e :
  In e (exception_candidates input series) -> In e (in_activeExceptions input).
Proof.
  unfold exception_candidates. destruct series as [[|c s]|]; try done.
  intros H. by apply filter_In in H as [].
Qed.

Lemma approvedExceptionFor_some input rule series pin :
  approvedExceptionFor input rule series = Some pin ->
  exists e, exception_lifts input series rule e /\ pin = exception_pin e rule.
Proof.
  unfold approvedExceptionFor. destruct (in_activeExceptions input) as [|x xs] eqn:Ex; [done|].
  destruct (in_source input) as [src|] eqn:Es; [|done].
  destruct (in_sourceId input) as [sid|] eqn:Ei; [|done].
  destruct (resolveCg4ExceptionCoverage _ _ rule) as [e p|] eqn:Ec; [|done]. intros [= <-].
  apply coverage_loop_covered in Ec as (b & a & Hl & He & _ & ->).
  exists e. split; [|done]. split; [rewrite Hl; apply in_elt|]. by exists src, sid.
Qed.

Lemma approvedExceptionFor_spec input rule series :
  is_Some (approvedExceptionFor input rule series) <-> exists e, exception_lifts input series rule e.
Proof.
  split.
  - intros [pin Hp]. apply approvedExceptionFor_some in Hp as (e & He & _). eauto.
  - intros (e & Hin & src & sid & Hs & Hi & Hl). unfold approvedExceptionFor.
    pose proof (exception_candidates_In _ _ _ Hin) as Hin'.
    destruct (in_activeExceptions input); [done|]. rewrite Hs, Hi.
    destruct (proj2 (coverage_some (exception_candidates input series)
                (exception_context input src sid) rule)) as (e' & pin & Hc); [eauto|].
    rewrite Hc. eauto.
Qed.

Section Gates.
Context `{Runtime}.

(** A callback that may override: a live mode, this very scope, not expired at [now], and a rule
    the policy lets a callback override. *)
Definition callback_live (input : Cg3EvaluationInput) (reason : TemporalReason)
  (cb : Cg3CallbackFacts) : Prop :=
  in_activeCallback input = Some cb /\ callback_mode input <> NO_OVERRIDE /\
  cb_identityId cb = in_identityId input /\ cb_channel cb = in_channel input /\
  cb_purpose cb = in_purpose input /\ expires_by cb (in_now input) = false /\
  overridable input reason = true.

(** In [TIME_POLICY_OVERRIDE] the callback must name a series of which an exception lifts the rule. *)
Definition callback_backed (input : Cg3EvaluationInput) (reason : TemporalReason)
  (cb : Cg3CallbackFacts) : Prop :=
  callback_mode input = TIME_POLICY_OVERRIDE ->
  exists s e, cb_approvedExceptionId cb = Some s /\ s <> "" /\
    exception_lifts input (Some s) (reason_code reason) e.

Definition lifted (input : Cg3EvaluationInput) (reason : TemporalReason) : Prop :=
  (callbackWillOverride input reason = false /\
     exists e, exception_lifts input None (reason_code reason) e) \/
  (exists cb, callback_live input reason cb /\ callback_backed input reason cb).

Lemma exact_scope_spec cb input : callbackIsExactScopeMatch cb input = true <->
  cb_identityId cb = in_identityId input /\ cb_channel cb = in_channel input /\
  cb_purpose cb = in_purpose input.
Proof. unfold callbackIsExactScopeMatch. rewrite !andb_true_iff, !bool_decide_eq_true. tauto. Qed.

Lemma referencedException_some input reason cb pin :
  referencedException input reason cb = Some pin ->
  exists s e, cb_approvedExceptionId cb = Some s /\ s <> "" /\
    exception_lifts input (Some s) (reason_code reason) e /\ pin = exception_pin e (reason_code reason).
Proof.
  unfold referencedException. destruct (cb_approvedExceptionId cb) as [[|c s]|]; try done.
  intros Hp. apply approvedExceptionFor_some in Hp as (e & He & ->).
  exists (String c s), e. by repeat (split; [done|]).
Qed.

Lemma referencedException_none input reason cb :
  referencedException input reason cb = None <->
  ~ exists s e, cb_approvedExceptionId cb = Some s /\ s <> "" /\
      exception_lifts input (Some s) (reason_code reason) e.
Proof.
  destruct (referencedException input reason cb) as [pin|] eqn:E.
  - split; [done|]. intros Hn. exfalso. apply Hn.
    apply referencedException_some in E as (s & e & ? & ? & ? & _). eauto.
  - split; [|done]. intros _ (s & e & Hs & Hne & He). unfold referencedException in E.
    rewrite Hs in E. destruct s; [done|].
    destruct (proj2 (approvedExceptionFor_spec input (reason_code reason) (Some (String a s)))); [eauto|].
    congruence.
Qed.

(** When the callback gate lets the request pass. *)
Lemma callback_gate_ok input winner zone block trace p :
  overridable input (tb_reason block) = true ->
  callback_gate input winner zone block trace = Ok p <->
  exists cb, callback_live input (tb_reason block) cb /\ callback_backed input (tb_reason block) cb /\
    p = PassedGates (trace ++ [entry G_CALLBACK_EXCEPTION O_PASS "CUSTOMER_REQUESTED_CALLBACK"]) true
          (match referencedException input (tb_reason block) cb with Some pin => [pin] | None => [] end).
Proof.
  intros Ho. unfold callback_gate, callback_live, callback_backed.
  destruct (in_activeCallback input) as [cb|]; [|by split; [|intros (? & [? _] & _)]].
  case_bool_decide as Hm; [by split; [|intros (? & (_ & ? & _) & _)]|].
  destruct (callbackIsExactScopeMatch cb input) eqn:Es; cbn.
  2:{ split; [done|]. intros (cb' & ([= <-] & _ & H1 & H2 & H3 & _) & _).
      rewrite (proj2 (exact_scope_spec cb input)) in Es; done. }
  apply exact_scope_spec in Es as (H1 & H2 & H3).
  destruct (expires_by cb (in_now input)) eqn:Ee; cbn.
  { split; [done|]. intros (cb' & ([= <-] & _ & _ & _ & _ & Hx & _) & _). congruence. }
  pose proof (referencedException_none input (tb_reason block) cb) as Hr.
  case_bool_decide as Ht; cbn; [case_bool_decide as Hn|].
  - apply Hr in Hn. split; [done|]. intros (cb' & ([= <-] & _) & Hb & _).
    exfalso. by apply Hn, Hb.
  - split.
    + intros [= <-]. exists cb. repeat (split; [done|]). split; [|done]. intros _.
      destruct (referencedException input (tb_reason block) cb) eqn:E; [|done].
      apply referencedException_some in E as (s & e & ? & ? & ? & _). eauto.
    + intros (cb' & ([= <-] & _) & _ & ->). done.
  - split.
    + intros [= <-]. exists cb. repeat (split; [done|]). done.
    + intros (cb' & ([= <-] & _) & _ & ->). done.
Qed.
End Gates.

Section Decision.
Context `{Runtime}.

(** Which pins and which callback a passed block leaves. *)
Definition block_passed (input : Cg3EvaluationInput) (block : TemporalBlock) (p : Passed) : Prop :=
  let code := reason_code (tb_reason block) in
  (pg_callbackOverrode p = false /\ callbackWillOverride input (tb_reason block) = false /\
     exists e, exception_lifts input None code e /\ pg_applied p = [exception_pin e code]) \/
  (pg_callbackOverrode p = true /\ exists cb,
     callback_live input (tb_reason block) cb /\ callback_backed input (tb_reason block) cb /\
     (pg_applied p = [] /\ callback_mode input <> TIME_POLICY_OVERRIDE \/
      exists s e, cb_approvedExceptionId cb = Some s /\ exception_lifts input (Some s) code e /\
        pg_applied p = [exception_pin e code])).

Lemma block_gate_passed input winner zone block trace p :
  block_gate input winner zone block trace = Ok p -> block_passed input block p.
Proof.
  unfold block_gate, block_passed.
  destruct (if callbackWillOverride input (tb_reason block) then None
            else approvedExceptionFor input (reason_code (tb_reason block)) None) as [pin|] eqn:Ea.
  - intros [= <-]. left. destruct (callbackWillOverride _ _); [done|].
    apply approvedExceptionFor_some in Ea as (e & He & ->). eauto.
  - destruct (overridable input (tb_reason block)) eqn:Eo; cbn; [|done].
    intros Hp. apply callback_gate_ok in Hp as (cb & Hl & Hb & ->); [|done]. right.
    split; [done|]. exists cb. split; [done|]. split; [done|]. cbn.
    destruct (referencedException input (tb_reason block) cb) as [pin|] eqn:Er.
    + apply referencedException_some in Er as (s & e & ? & ? & ? & ->). right. by exists s, e.
    + left. split; [done|]. intros Hm. apply referencedException_none in Er. by apply Er, Hb.
Qed.

Lemma block_gate_lifted input winner zone block trace :
  is_ok (block_gate input winner zone block trace) = true <-> lifted input (tb_reason block).
Proof.
  split.
  - destruct (block_gate input winner zone block trace) as [p|] eqn:E; [|done]. intros _.
    apply block_gate_passed in E as [(_ & Hw & e & He & _)|(_ & cb & Hl & Hb & _)]; [left|right]; eauto.
  - intros Hl. unfold block_gate.
    destruct (if callbackWillOverride input (tb_reason block) then None
              else approvedExceptionFor input (reason_code (tb_reason block)) None) eqn:Ea; [done|].
    destruct Hl as [[Hw He]|(cb & Hl & Hb)].
    + rewrite Hw in Ea. apply approvedExceptionFor_spec in He as [pin Hp]. congruence.
    + assert (Ho : overridable input (tb_reason block) = true) by apply Hl. rewrite Ho. cbn [negb].
      by rewrite (proj2 (callback_gate_ok _ _ _ _ _ _ Ho) (ex_intro _ cb (conj Hl (conj Hb eq_refl)))).
Qed.

(** Early returns carry a decision that is not [ALLOW], no consumption and no pin. *)
Definition refusal (o : Cg3GateOutcome) : Prop :=
  (go_decision o = Some BLOCK \/ go_decision o = Some DEFER \/ go_decision o = Some REVIEW) /\
  is_Some (go_reasonCode o) /\ go_consumedCallbackRequestId o = None /\ go_appliedExceptions o = [].

Lemma preference_gate_err winner o : preference_gate winner = Err o -> refusal o.
Proof.
  unfold preference_gate. destruct winner as [w|]; [|done].
  destruct (pc_decision w) as [[]|]; try done; intros [= <-]; unfold refusal; cbn; eauto 10.
Qed.

Lemma preference_gate_ok winner t : preference_gate winner = Ok t <->
  t = [pass G_PREFERENCE] /\
  forall w, winner = Some w -> pc_decision w <> Some P_BLOCK /\ pc_decision w <> Some P_DEFER.
Proof.
  unfold preference_gate. destruct winner as [w|]; [|naive_solver].
  destruct (pc_decision w) as [[]|] eqn:E; cbn; naive_solver.
Qed.

Lemma callback_gate_err input winner zone block trace o :
  callback_gate input winner zone block trace = Err o -> refusal o.
Proof.
  unfold callback_gate, refusal. destruct (in_activeCallback input) as [cb|].
  - repeat (case_match; try done); intros [= <-]; cbn; eauto 10.
  - intros [= <-]. cbn. eauto 10.
Qed.

Lemma temporal_gate_err input winner trace o :
  temporal_gate input winner trace = Err o -> refusal o.
Proof.
  unfold temporal_gate. destruct (throw_if _ _) as [u|e] eqn:Et; cbn.
  - destruct (temporal_block input winner) as [b|]; [|done]. unfold block_gate.
    destruct (if callbackWillOverride input (tb_reason b) then None else _); [done|].
    destruct (overridable input (tb_reason b)); cbn; [apply callback_gate_err|].
    intros [= <-]. unfold refusal. cbn. eauto 10.
  - intros [= <-]. unfold throw_if in Et. destruct (_ && _); [|done]. injection Et as <-.
    unfold refusal. cbn. eauto 10.
Qed.

(** The temporal gate: it passes a request that nothing blocks, or whose block is lifted. *)
Lemma temporal_gate_ok input winner trace :
  is_ok (temporal_gate input winner trace) = true <->
  (hasTemporalConstraint input winner = true -> resolvedTimezone input winner <> None) /\
  (forall b, temporal_block input winner = Some b -> lifted input (tb_reason b)).
Proof.
  unfold temporal_gate. destruct (hasTemporalConstraint input winner) eqn:Eh; cbn.
  - case_bool_decide as Hz; cbn; [split; [done|]; intros [Ht _]; by specialize (Ht eq_refl)|].
    destruct (temporal_block input winner) as [b|]; cbn.
    + rewrite block_gate_lifted. split; [|naive_solver]. intros Hl. split; [done|]. by intros ? [= <-].
    + naive_solver.
  - unfold temporal_block. rewrite Eh. cbn. naive_solver.
Qed.

Definition winner_of (input : Cg3EvaluationInput) : option Cg3PreferenceCandidate :=
  resolveEffectivePreference (in_preferences input) input.

(** The three ways an evaluation ends. *)
Lemma evaluate_cases input : let winner := winner_of input in let o := evaluateCg3Policy input in
  (exists p trace, temporal_gate input winner [pass G_PREFERENCE] = Ok p /\
     (forall w, winner = Some w -> pc_decision w <> Some P_BLOCK /\ pc_decision w <> Some P_DEFER) /\
     sender_invalid input = false /\ o = passed_outcome input winner p trace) \/
  (refusal o /\
   ((exists w, winner = Some w /\ (pc_decision w = Some P_BLOCK \/ pc_decision w = Some P_DEFER)) \/
    is_ok (temporal_gate input winner [pass G_PREFERENCE]) = false \/
    sender_invalid input = true)).
Proof.
  intros winner o. unfold o, evaluateCg3Policy. fold (winner_of input). fold winner.
  destruct (preference_gate winner) as [t|e] eqn:Ep; cbn [mbind result_bind returned].
  - apply preference_gate_ok in Ep as [-> Hp].
    destruct (temporal_gate input winner [pass G_PREFERENCE]) as [p|e] eqn:Et;
      cbn [mbind result_bind returned].
    + unfold sender_gate. destruct (sender_invalid input) eqn:Es; cbn [mbind result_bind returned].
      * right. split; [|tauto]. unfold refusal. cbn. eauto 10.
      * left. eauto 10.
    + right. split; [by eapply temporal_gate_err|]. cbn. tauto.
  - right. split; [by eapply preference_gate_err|]. left. unfold preference_gate in Ep.
    destruct winner as [w|]; [|done]. exists w. split; [done|].
    destruct (pc_decision w) as [[]|]; try done; tauto.
Qed.

Lemma temporal_gate_passed input winner trace p :
  temporal_gate input winner trace = Ok p ->
  (exists b, temporal_block input winner = Some b /\ block_passed input b p) \/
  (temporal_block input winner = None /\ pg_callbackOverrode p = false /\ pg_applied p = []).
Proof.
  unfold temporal_gate. intros Hp. apply bind_ok in Hp as ([] & _ & Hp).
  destruct (temporal_block input winner) as [b|].
  - left. exists b. split; [done|]. by eapply block_gate_passed.
  - injection Hp as <-. by right.
Qed.
End Decision.

Section Theorems.
Context `{Runtime}.

(** C29: when a request passes the CG3 gates. It passes (no decision of its own, the caller says
    ALLOW) exactly when the preference in force does not say BLOCK or DEFER, a usable time zone
    is known whenever a temporal constraint exists, whatever rule blocks the local instant is
    lifted, and the sender identity, if given, is not blank. Every other request is refused
    with BLOCK, DEFER or REVIEW and a reason code; the evaluator itself never says ALLOW. *)
Theorem cg3_passes_iff input :
  let winner := winner_of input in
  let o := evaluateCg3Policy input in
  (go_decision o = None <->
     (forall w, winner = Some w -> pc_decision w <> Some P_BLOCK /\ pc_decision w <> Some P_DEFER) /\
     (hasTemporalConstraint input winner = true -> resolvedTimezone input winner <> None) /\
     (forall b, temporal_block input winner = Some b -> lifted input (tb_reason b)) /\
     sender_invalid input = false) /\
  go_decision o <> Some ALLOW /\
  (go_decision o <> None -> is_Some (go_reasonCode o)).
Proof.
  intros winner o. pose proof (evaluate_cases input) as Hc. cbv zeta in Hc. fold winner o in Hc.
  destruct Hc as [(p & t & Ht & Hp & Hs & Ho)|[(Hd & Hr & _ & _) Hc]].
  - rewrite Ho. cbn. split; [|done]. split; [|done]. intros _. split; [done|].
    assert (Hok : is_ok (temporal_gate input winner [pass G_PREFERENCE]) = true) by by rewrite Ht.
    apply temporal_gate_ok in Hok as [Hz Hl]. done.
  - assert (Hn : go_decision o <> None) by (destruct Hd as [->|[->| ->]]; done).
    split; [|split; [by destruct Hd as [->|[->| ->]]|done]]. split; [done|].
    intros (Hp & Hz & Hl & Hs). exfalso.
    destruct Hc as [(w & Hw & Hwd)|[Hc|Hc]].
    + destruct (Hp w Hw). tauto.
    + apply not_true_iff_false in Hc. apply Hc. by apply temporal_gate_ok.
    + congruence.
Qed.

(** Override evidence: a callback is consumed only by a request that passed because that
    callback lifted its block: it is the active callback, live for this very scope and rule,
    and backed by an exception where the mode asks for one. Every pin names an exception of
    the input that lifts the very rule that blocked. A refused request consumes nothing and
    pins nothing. *)
Lemma override_evidence input :
  let winner := winner_of input in
  let o := evaluateCg3Policy input in
  (forall id, go_consumedCallbackRequestId o = Some id ->
     go_decision o = None /\ exists b cb, temporal_block input winner = Some b /\
       id = cb_requestId cb /\ callback_live input (tb_reason b) cb /\
       callback_backed input (tb_reason b) cb) /\
  (forall pin, In pin (go_appliedExceptions o) ->
     go_decision o = None /\ exists b e series, temporal_block input winner = Some b /\
       pin = exception_pin e (reason_code (tb_reason b)) /\
       exception_lifts input series (reason_code (tb_reason b)) e) /\
  (go_decision o <> None -> go_consumedCallbackRequestId o = None /\ go_appliedExceptions o = []).
Proof.
  intros winner o. pose proof (evaluate_cases input) as Hc. cbv zeta in Hc. fold winner o in Hc.
  destruct Hc as [(p & t & Ht & _ & _ & ->)|[(Hd & _ & Hcons & Happ) _]].
  2:{ rewrite Hcons, Happ. split; [done|]. split; [done|]. done. }
  unfold passed_outcome. cbn [go_consumedCallbackRequestId go_appliedExceptions go_decision].
  apply temporal_gate_passed in Ht as [(b & Hb & Hp)|(Hb & -> & ->)]; [|by split].
  destruct Hp as [(-> & Hw & e & He & ->)|(-> & cb & Hl & Hbk & Hpins)].
  - split; [done|]. split; [|done]. intros pin [<-|[]]. split; [done|]. exists b, e, None. done.
  - assert (Hcb : in_activeCallback input = Some cb) by apply Hl. split; [|split; [|done]].
    + intros id Hid. rewrite Hcb in Hid. injection Hid as <-. split; [done|]. by exists b, cb.
    + destruct Hpins as [[-> _]|(s & e & Hs & He & ->)]; [done|].
      intros pin [<-|[]]. split; [done|]. by exists b, e, (Some s).
Qed.
(** The same request where no exception is in force. *)
Definition without_exceptions (input : Cg3EvaluationInput) : Cg3EvaluationInput :=
  EvaluationInput (in_now input) (in_identityId input) (in_channel input) (in_purpose input) (in_contactKind input)
    (in_senderIdentityId input) (in_customerExplicitTimezone input) (in_customer360Timezone input)
    (in_tenantDefaultTimezone input) (in_preferences input) (in_policy input) (in_activeCallback input)
    (in_source input) (in_sourceId input) [].

(** A block that only exceptions lift stops the request without them. *)
Lemma exception_needed input b : temporal_block input (winner_of input) = Some b ->
  go_decision (evaluateCg3Policy (without_exceptions input)) <> None \/
  exists cb, callback_live input (tb_reason b) cb.
Proof.
  intros Hb. pose proof (evaluate_cases (without_exceptions input)) as Hc. cbv zeta in Hc.
  destruct Hc as [(p & t & Ht & _)|[(Hd & _) _]].
  - right. assert (Hok : is_ok (temporal_gate (without_exceptions input) (winner_of (without_exceptions input))
      [pass G_PREFERENCE]) = true) by by rewrite Ht.
    apply temporal_gate_ok in Hok as [_ Hl]. destruct (Hl b Hb) as [(_ & e & He & _)|(cb & Hcb & _)]; [|by exists cb].
    by apply exception_candidates_In in He.
  - left. by destruct Hd as [->|[-> | ->]].
Qed.
End Theorems.

(** ** Evaluating again at the announced time *)

Definition at_time (input : Cg3EvaluationInput) (now : Z) : Cg3EvaluationInput :=
  EvaluationInput now (in_identityId input) (in_channel input) (in_purpose input) (in_contactKind input)
    (in_senderIdentityId input) (in_customerExplicitTimezone input) (in_customer360Timezone input)
    (in_tenantDefaultTimezone input) (in_preferences input) (in_policy input) (in_activeCallback input)
    (in_source input) (in_sourceId input) (in_activeExceptions input).

Lemma winner_at_time input now : winner_of (at_time input now) = winner_of input.
Proof. reflexivity. Qed.

Lemma resolvedTimezone_at_time `{Runtime} input winner now :
  resolvedTimezone (at_time input now) winner = resolvedTimezone input winner.
Proof. reflexivity. Qed.

Lemma usable_zone_valid `{Runtime} input winner tz source :
  resolvedTimezone input winner = Some (tz, source) -> isValidTimeZone tz = true.
Proof.
  unfold resolvedTimezone. destruct (js_find _ _) as [l|] eqn:E; [|done]. intros [= <- _].
  apply find_some in E as [_ Hu]. unfold usable_zone in Hu.
  by destruct (tl_value l) as [[|c s]|].
Qed.

Lemma callback_gate_next `{Runtime} input winner zone block trace o :
  callback_gate input winner zone block trace = Err o -> go_nextEligibleAt o = tb_nextEligibleAt block.
Proof.
  unfold callback_gate. destruct (in_activeCallback input) as [cb|].
  - repeat (case_match; try done); by intros [= <-].
  - by intros [= <-].
Qed.

(** An announced time comes from a block, after the preference gate let the request through. *)
Lemma evaluate_next `{Runtime} input s :
  go_nextEligibleAt (evaluateCg3Policy input) = Some s ->
  exists b, temporal_block input (winner_of input) = Some b /\ tb_nextEligibleAt b = Some s /\
    forall w, winner_of input = Some w -> pc_decision w <> Some P_BLOCK /\ pc_decision w <> Some P_DEFER.
Proof.
  unfold evaluateCg3Policy. fold (winner_of input).
  destruct (preference_gate (winner_of input)) as [t|e] eqn:Ep; cbn [mbind result_bind returned].
  - apply preference_gate_ok in Ep as [-> Hp].
    destruct (temporal_gate input (winner_of input) [pass G_PREFERENCE]) as [p|e] eqn:Et;
      cbn [mbind result_bind returned].
    + unfold sender_gate. by destruct (sender_invalid input).
    + unfold temporal_gate in Et. destruct (throw_if _ _) as [u|e'] eqn:Eth; cbn in Et.
      * destruct (temporal_block input (winner_of input)) as [b|]; [|done]. unfold block_gate in Et.
        destruct (if callbackWillOverride input (tb_reason b) then None else _); [done|].
        intros Hn. exists b. split; [done|]. split; [|done].
        destruct (overridable input (tb_reason b)); cbn in Et.
        -- apply callback_gate_next in Et. congruence.
        -- by injection Et as <-.
      * injection Et as ->. unfold throw_if in Eth. destruct (_ && _); [|done]. by injection Eth as <-.
  - unfold preference_gate in Ep. destruct (winner_of input) as [w|]; [|done].
    destruct (pc_decision w) as [[]|]; try done; by injection Ep as <-.
Qed.

Section NextEligible.
Context {R : Runtime} {L : TimeZoneLaws R}.

Lemma temporal_block_zone input winner b : temporal_block input winner = Some b ->
  exists tz source, resolvedTimezone input winner = Some (tz, source) /\
    eligible_at tz (preferredWindows winner) (policy_quietHours input) (policy_holidays input)
      (in_now input) = false /\
    tb_nextEligibleAt b = toISOString <$>
      findNextEligibleAt tz (preferredWindows winner) (policy_quietHours input)
        (policy_holidays input) (in_now input).
Proof.
  unfold temporal_block, eligible_at. destruct (hasTemporalConstraint input winner); cbn; [|done].
  destruct (resolvedTimezone input winner) as [[tz src]|]; [|done].
  destruct (evaluateInstant _ _ _ _) as [|r ref] eqn:E; [done|]. intros [= <-]. exists tz, src.
  by rewrite E.
Qed.

Lemma temporal_block_open input winner tz source :
  resolvedTimezone input winner = Some (tz, source) ->
  eligible_at tz (preferredWindows winner) (policy_quietHours input) (policy_holidays input)
    (in_now input) = true ->
  temporal_block input winner = None.
Proof.
  unfold temporal_block, eligible_at. intros -> He.
  destruct (hasTemporalConstraint input winner); cbn; [|done].
  by destruct (evaluateInstant _ _ _ _).
Qed.

(** The announced time is honoured. When an evaluation is refused with a [nextEligibleAt],
    that text denotes an instant strictly later than [now] and at most thirty days away, at
    which no temporal rule blocks the same request; so, its sender being valid, the same
    request evaluated then passes. (In a zone whose offset does not change over that month.) *)
Theorem next_eligible_honoured input text :
  go_nextEligibleAt (evaluateCg3Policy input) = Some text ->
  (forall tz source, resolvedTimezone input (winner_of input) = Some (tz, source) ->
     exists o, steady tz (in_now input) o) ->
  exists r, text = toISOString r /\ in_now input < r <= in_now input + horizon * 60000 /\
    temporal_block (at_time input r) (winner_of input) = None /\
    (sender_invalid input = false -> go_decision (evaluateCg3Policy (at_time input r)) = None).
Proof.
  intros Hn Hst. apply evaluate_next in Hn as (b & Hb & Hnext & Hpref).
  apply temporal_block_zone in Hb as (tz & src & Hz & Hnow & Hb). rewrite Hnext in Hb.
  destruct (findNextEligibleAt tz _ _ _ _) as [r|] eqn:Ef; [|done]. injection Hb as ->.
  apply find_next_some in Ef as (k & Hk & _ & _ & _ & Hr). destruct (Hst tz src Hz) as [o Ho].
  destruct (Hr o (usable_zone_valid _ _ _ _ Hz) Ho) as (Hrk & He & Hlt). exists r.
  assert (Hb : temporal_block (at_time input r) (winner_of input) = None)
    by (apply (temporal_block_open _ _ tz src); [by rewrite resolvedTimezone_at_time|done]).
  split; [done|]. split.
  - split; [by apply Hlt|]. pose proof (floor_minute_range (grid (in_now input) 0 k)).
    unfold grid, NEXT_ELIGIBLE_STEP_MINUTES in *. lia.
  - split; [done|]. intros Hs.
    pose proof (evaluate_cases (at_time input r)) as Hc. cbv zeta in Hc. rewrite winner_at_time in Hc.
    destruct Hc as [(p & t & _ & _ & _ & ->)|[_ Hc]]; [done|]. exfalso.
    destruct Hc as [(w & Hw & Hwd)|[Hc|Hc]].
    + destruct (Hpref w Hw). tauto.
    + apply not_true_iff_false in Hc. apply Hc, temporal_gate_ok.
      rewrite resolvedTimezone_at_time, Hb, Hz. split; [done|done].
    + assert (Hsr : sender_invalid (at_time input r) = sender_invalid input) by done. congruence.
Qed.
End NextEligible.

(** Quiet hours until 09:00 on working days, 03:00 Bangkok time on a Thursday. *)
Definition quiet_policy : Cg3PolicyFacts :=
  Cg3Policy 1 (Some "Asia/Bangkok") [Window [1; 2; 3; 4; 5] "00:00" "09:00"] SCOPED_OVERRIDE [] [].

Definition quiet_input : Cg3EvaluationInput :=
  EvaluationInput 1767211230000 (Some "identity-1") LINE "MARKETING" None (Some "line-oa") None None None
    [] (Some quiet_policy) None (Some "JOURNEY") (Some "journey-1") [].

Lemma next_eligible_honoured_witness :
  let text := "2026-01-01T02:00:00.000Z" in
  go_decision (@evaluateCg3Policy bangkok quiet_input) = Some DEFER /\
  exists r, text = toISOString r /\ in_now quiet_input < r <= in_now quiet_input + horizon * 60000 /\
    @temporal_block bangkok (at_time quiet_input r) (winner_of quiet_input) = None.
Proof.
  split; [vm_compute; reflexivity|].
  destruct (next_eligible_honoured (R := bangkok) (L := bangkok_laws) quiet_input
              "2026-01-01T02:00:00.000Z") as (r & H1 & H2 & H3 & _).
  - vm_compute. reflexivity.
  - intros tz source Hz. exists 25200000. vm_compute in Hz. injection Hz as <- _.
    apply bangkok_steady. vm_compute. discriminate.
  - exists r. split; [exact H1|]. split; [exact H2|exact H3].
Defined.
