(* ===== verification/PolicyPreview.v ===== *)
(** * PolicyPreview: fixture packs and the deterministic preview of a policy

    [apps/contact-governance/src/cg4-policy-fixtures.ts] and [cg4-policy-preview.ts]: the check
    kinds, the mandatory platform pack, the runner of each check over the CG3 evaluator, and the
    artifact an approval binds to. A probe loop runs on fuel, and running out of it is an error of
    its own ([STILL_RUNNING]): [probe_minutes_enough] gives the fuel a positive step needs and
    [probe_step_stuck] shows that no fuel is enough for a step that is not positive. Minutes, hours and
    steps are integers; a [fromInstant] that does not parse ([INVALID_DATE]) is not followed
    further. *)
From stdpp Require Import base tactics list strings.
From Stdlib Require Import ZArith Lia Ascii.
From S2P Require Import Prelude JsMap Text JsDate JsValue Contracts RuleRegistry ScopeKey Windows Cg3Facts Temporal PolicyCompiler PolicyDiff ExceptionEval Cg3Evaluator.

Open Scope string_scope.
Open Scope Z_scope.
Open Scope list_scope.

(** ** Fixture packs *)

Inductive Cg4PolicyCheckKind :=
  | HARD_RULE_NOT_OVERRIDABLE | CAP_RULE_RISK_FLOOR | PREFERENCE_BLOCK_NOT_LIFTABLE
  | EXCEPTION_OUT_OF_SCOPE_IS_INERT | EXCEPTION_EXPIRED_IS_INERT | EXCEPTION_STALE_BINDING_IS_INERT
  | EXCEPTION_OUTSIDE_ALLOWLIST_IS_INERT | EXCEPTION_UNKNOWN_REGISTRY_IS_INERT
  | EXCEPTION_IN_SCOPE_LIFTS_ALLOWED_RULE | QUIET_HOURS_FOLLOW_LOCAL_CLOCK
  | CLOSED_HOLIDAY_BLOCKS_WHOLE_LOCAL_DAY | WINDOWS_HOLIDAY_BLOCKS_OUTSIDE_WINDOWS
  | DETERMINISTIC_REPLAY.
#[export] Instance Cg4PolicyCheckKind_eq_dec : EqDecision Cg4PolicyCheckKind.
Proof. solve_decision. Defined.

Definition kind_name (k : Cg4PolicyCheckKind) : string :=
  match k with
  | HARD_RULE_NOT_OVERRIDABLE => "HARD_RULE_NOT_OVERRIDABLE"
  | CAP_RULE_RISK_FLOOR => "CAP_RULE_RISK_FLOOR"
  | PREFERENCE_BLOCK_NOT_LIFTABLE => "PREFERENCE_BLOCK_NOT_LIFTABLE"
  | EXCEPTION_OUT_OF_SCOPE_IS_INERT => "EXCEPTION_OUT_OF_SCOPE_IS_INERT"
  | EXCEPTION_EXPIRED_IS_INERT => "EXCEPTION_EXPIRED_IS_INERT"
  | EXCEPTION_STALE_BINDING_IS_INERT => "EXCEPTION_STALE_BINDING_IS_INERT"
  | EXCEPTION_OUTSIDE_ALLOWLIST_IS_INERT => "EXCEPTION_OUTSIDE_ALLOWLIST_IS_INERT"
  | EXCEPTION_UNKNOWN_REGISTRY_IS_INERT => "EXCEPTION_UNKNOWN_REGISTRY_IS_INERT"
  | EXCEPTION_IN_SCOPE_LIFTS_ALLOWED_RULE => "EXCEPTION_IN_SCOPE_LIFTS_ALLOWED_RULE"
  | QUIET_HOURS_FOLLOW_LOCAL_CLOCK => "QUIET_HOURS_FOLLOW_LOCAL_CLOCK"
  | CLOSED_HOLIDAY_BLOCKS_WHOLE_LOCAL_DAY => "CLOSED_HOLIDAY_BLOCKS_WHOLE_LOCAL_DAY"
  | WINDOWS_HOLIDAY_BLOCKS_OUTSIDE_WINDOWS => "WINDOWS_HOLIDAY_BLOCKS_OUTSIDE_WINDOWS"
  | DETERMINISTIC_REPLAY => "DETERMINISTIC_REPLAY"
  end.

(** A tenant's pack comes from a request and only its shape is checked there: the kind is text. *)
Record Cg4PolicyCheck := PolicyCheck {
  ck_id : string;
  ck_kind : string;
  ck_ruleCode : option string;
  ck_riskFloor : option Cg4ExceptionRiskTier;
  ck_timezone : option string;
  ck_fromInstant : option string;
  ck_probeHours : option Z;
  ck_stepMinutes : option Z;
}.

Record Cg4PolicyFixturePack := FixturePack {
  fp_packId : string;
  fp_suiteVersion : string;
  fp_checks : list Cg4PolicyCheck;
}.

Definition tier_text (t : Cg4ExceptionRiskTier) : string :=
  match t with STANDARD => "STANDARD" | HIGH => "HIGH" | EMERGENCY => "EMERGENCY" end.

Definition optional {A} (f : A -> jsval) (o : option A) : jsval :=
  match o with Some a => f a | None => JUndefined end.

Definition check_json (c : Cg4PolicyCheck) : jsval :=
  JObj [("id", JStr (ck_id c)); ("kind", JStr (ck_kind c));
        ("ruleCode", optional JStr (ck_ruleCode c));
        ("riskFloor", optional (fun t => JStr (tier_text t)) (ck_riskFloor c));
        ("timezone", optional JStr (ck_timezone c)); ("fromInstant", optional JStr (ck_fromInstant c));
        ("probeHours", optional (fun n => JNum (NInt n)) (ck_probeHours c));
        ("stepMinutes", optional (fun n => JNum (NInt n)) (ck_stepMinutes c))].

Definition digestCg4FixturePack (sha256 : string -> string) (pack : Cg4PolicyFixturePack)
  : result Cg4ContractError string :=
  canonicalCg4Digest sha256
    (JObj [("packId", JStr (fp_packId pack)); ("suiteVersion", JStr (fp_suiteVersion pack));
           ("registryVersion", JStr CG4_RULE_REGISTRY_VERSION);
           ("checks", JArr (map check_json (fp_checks pack)))]).

Definition BANGKOK : string := "Asia/Bangkok".
Definition NEW_YORK : string := "America/New_York".

Definition HARD_RULES : list string :=
  ["DNC_GLOBAL"; "PURPOSE_OBJECTED"; "CONSENT_REVOKED"; "CONSENT_REQUIRED"; "CONSENT_EXPIRED";
   "LAWFUL_BASIS_REQUIRED"; "REGULATORY_RESTRICTION"; "SAFETY_RESTRICTION"; "PREFERENCE_BLOCKED";
   "PREFERENCE_DEFERRED"; "SENDER_IDENTITY_REQUIRED"; "SENDER_IDENTITY_INVALID";
   "GOVERNANCE_KILL_SWITCH_ACTIVE"; "OUTBOUND_TRAFFIC_DISABLED"; "NOT_A_REGISTERED_RULE"].

Definition INERT_EXCEPTION_CHECKS : list (Cg4PolicyCheckKind * string) :=
  [(EXCEPTION_OUT_OF_SCOPE_IS_INERT, "out-of-scope");
   (EXCEPTION_EXPIRED_IS_INERT, "expired");
   (EXCEPTION_STALE_BINDING_IS_INERT, "stale-policy-binding");
   (EXCEPTION_OUTSIDE_ALLOWLIST_IS_INERT, "outside-policy-allowlist");
   (EXCEPTION_UNKNOWN_REGISTRY_IS_INERT, "unknown-registry-version")].

Definition CG4_PLATFORM_FIXTURE_PACK : Cg4PolicyFixturePack :=
  {| fp_packId := "CG4_PLATFORM_FIXTURES";
     fp_suiteVersion := "CG4_PLATFORM_FIXTURES_V1";
     fp_checks :=
       map (fun ruleCode => PolicyCheck ("hard-rule-not-overridable:" +:+ ruleCode)
              (kind_name HARD_RULE_NOT_OVERRIDABLE) (Some ruleCode) None None None None None) HARD_RULES ++
       map (fun ruleCode => PolicyCheck ("cap-rule-risk-floor:" +:+ ruleCode)
              (kind_name CAP_RULE_RISK_FLOOR) (Some ruleCode) (Some HIGH) None None None None)
           ["MIN_GAP"; "DAILY_ATTEMPT_CAP"; "DAILY_TOUCH_CAP"] ++
       [PolicyCheck "preference-block-not-liftable" (kind_name PREFERENCE_BLOCK_NOT_LIFTABLE)
          None None None None None None] ++
       map (fun p => PolicyCheck ("exception-inert:" +:+ snd p) (kind_name (fst p))
              None None None None None None) INERT_EXCEPTION_CHECKS ++
       [PolicyCheck "exception-in-scope-lifts-allowed-rule"
          (kind_name EXCEPTION_IN_SCOPE_LIFTS_ALLOWED_RULE) None None None None None None;
        PolicyCheck "quiet-hours-local-clock:bangkok" (kind_name QUIET_HOURS_FOLLOW_LOCAL_CLOCK)
          None None (Some BANGKOK) (Some "2026-01-05T00:00:00.000Z") (Some 48) (Some 15);
        PolicyCheck "quiet-hours-local-clock:new-york-dst" (kind_name QUIET_HOURS_FOLLOW_LOCAL_CLOCK)
          None None (Some NEW_YORK) (Some "2026-03-07T12:00:00.000Z") (Some 36) (Some 15);
        PolicyCheck "closed-holiday-blocks-whole-day:bangkok"
          (kind_name CLOSED_HOLIDAY_BLOCKS_WHOLE_LOCAL_DAY) None None (Some BANGKOK) None None (Some 30);
        PolicyCheck "windows-holiday-blocks-outside-windows:bangkok"
          (kind_name WINDOWS_HOLIDAY_BLOCKS_OUTSIDE_WINDOWS) None None (Some BANGKOK) None None (Some 30);
        PolicyCheck "deterministic-replay" (kind_name DETERMINISTIC_REPLAY) None None (Some BANGKOK)
          (Some "2026-01-05T00:00:00.000Z") (Some 24) (Some 60)] |}.

(** ** Probes *)

Inductive PreviewError :=
  | STILL_RUNNING
  | INVALID_DATE
  | RANGE_ERROR
  | TYPE_ERROR
  | CONTRACT (e : Cg4ContractError).
#[export] Instance PreviewError_eq_dec : EqDecision PreviewError.
Proof. solve_decision. Defined.

Abbreviation previewed := (result PreviewError).

Definition contract {A} (r : result Cg4ContractError A) : previewed A :=
  match r with Ok a => Ok a | Err e => Err (CONTRACT e) end.

Definition PROBE_CHANNEL : ContactChannel := VOICE.
Definition PROBE_PURPOSE : string := "SERVICE_NOTIFICATION".
Definition PROBE_IDENTITY : string := "cg4-preview-identity".
Definition PROBE_SOURCE_TYPE : string := "DIALER".
Definition PROBE_SOURCE_ID : string := "cg4-preview-source".
Fixpoint repeat_char (c : Ascii.ascii) (n : nat) : string :=
  match n with O => "" | S n' => String c (repeat_char c n') end.
Definition PROBE_DIGEST : string := repeat_char "f"%char 64.

(** [baseInput] with the overrides the checks use: preferences and active exceptions. *)
Definition baseInput (compiled : Cg4CompiledPolicy) (now : Z) (timezone : string)
  (preferences : list Cg3PreferenceCandidate) (activeExceptions : list Cg4ExceptionFacts)
  : Cg3EvaluationInput :=
  {| in_now := now;
     in_identityId := Some PROBE_IDENTITY;
     in_channel := PROBE_CHANNEL;
     in_purpose := PROBE_PURPOSE;
     in_contactKind := None;
     in_senderIdentityId := None;
     in_customerExplicitTimezone := Some timezone;
     in_customer360Timezone := None;
     in_tenantDefaultTimezone := Some timezone;
     in_preferences := preferences;
     in_policy := Some (cp_facts compiled);
     in_activeCallback := None;
     in_source := Some PROBE_SOURCE_TYPE;
     in_sourceId := Some PROBE_SOURCE_ID;
     in_activeExceptions := activeExceptions |}.

Definition exceptionFor (compiled : Cg4CompiledPolicy) (ruleCode : string) (now : Z)
  : Cg4ExceptionFacts :=
  {| ef_seriesId := "cg4-preview-exception";
     ef_revisionId := "cg4-preview-exception-revision";
     ef_revision := 1;
     ef_workflowState := W_APPROVED;
     ef_identityId := Some PROBE_IDENTITY;
     ef_scopeKind := EXACT_IDENTITY;
     ef_channel := PROBE_CHANNEL;
     ef_purpose := PROBE_PURPOSE;
     ef_sourceType := PROBE_SOURCE_TYPE;
     ef_sourceId := PROBE_SOURCE_ID;
     ef_allowedRuleCodes := [ruleCode];
     ef_policyId := "cg4-preview-policy";
     ef_policyVersionId := "cg4-preview-policy-version";
     ef_policyVersion := pf_version (cp_facts compiled);
     ef_policyContentDigest := cp_contentDigest compiled;
     ef_currentPolicyContentDigest := Some (cp_contentDigest compiled);
     ef_policyAllowedRuleCodes := allowedOperationalRuleCodes (cp_content compiled);
     ef_registryVersion := CG4_RULE_REGISTRY_VERSION;
     ef_startsAt := now - 60000;
     ef_expiresAt := now + 60000;
     ef_tier := STANDARD;
     ef_contentDigest := PROBE_DIGEST;
     ef_approvalDigest := PROBE_DIGEST |}.

Definition decision_text (d : ContactDecision) : string :=
  match d with ALLOW => "ALLOW" | BLOCK => "BLOCK" | DEFER => "DEFER" | REVIEW => "REVIEW" end.

(** [decision ?? 'PASSED'] *)
Definition decision_or_passed (o : Cg3GateOutcome) : string :=
  match go_decision o with Some d => decision_text d | None => "PASSED" end.

Definition outcomeShape (outcome : Cg3GateOutcome) : jsval :=
  JObj [("decision", JStr (decision_or_passed outcome));
        ("reasonCode", match go_reasonCode outcome with Some r => JStr r | None => JNull end);
        ("appliedExceptions",
           JArr (map JStr (sort_by str_le (map pin_matchedRuleCode (go_appliedExceptions outcome)))))].

Definition sameOutcome (sha256 : string -> string) (left right : Cg3GateOutcome) : previewed bool :=
  l ← contract (canonicalCg4Digest sha256 (outcomeShape left));
  r ← contract (canonicalCg4Digest sha256 (outcomeShape right));
  Ok (bool_decide (l = r)).

(** [for (let minute = 0; minute < stop; minute += step)] *)
Fixpoint probe_minutes (fuel : nat) (minute stop step : Z) : previewed (list Z) :=
  if negb (minute <? stop) then Ok []
  else
    match fuel with
    | O => Err STILL_RUNNING
    | S fuel' => rest ← probe_minutes fuel' (minute + step) stop step; Ok (minute :: rest)
    end.

Definition probeInstants `{Runtime} (fuel : nat) (check : Cg4PolicyCheck) (fallbackFrom : Z)
  : previewed (list Z) :=
  from ← match truthy (ck_fromInstant check) with
         | Some s => match date_parse s with Some t => Ok t | None => Err INVALID_DATE end
         | None => Ok fallbackFrom
         end;
  minutes ← probe_minutes fuel 0 (default 24 (ck_probeHours check) * 60)
              (default 60 (ck_stepMinutes check));
  Ok (map (fun minute => from + minute * 60000) minutes).

(** ** Checks *)

Record CheckRun := CheckRun_ { cr_assertions : Z; cr_failures : list string }.

(** The loop of a check over its probes: [None] skips one ([continue]), [Some None] is an
    assertion that held, [Some (Some text)] one that failed. *)
Fixpoint probe_each (f : Z -> previewed (option (option string))) (probes : list Z)
  : previewed CheckRun :=
  match probes with
  | [] => Ok (CheckRun_ 0 [])
  | p :: rest =>
      verdict ← f p;
      run ← probe_each f rest;
      Ok match verdict with
         | None => run
         | Some failure =>
             CheckRun_ (cr_assertions run + 1)
               (match failure with Some text => text :: cr_failures run | None => cr_failures run end)
         end
  end.

Definition verdict_of (ok : bool) (text : string) : option (option string) :=
  Some (if ok then None else Some text).

Definition shape_text (o : Cg3GateOutcome) : string := json_print (outcomeShape o).

(** [decision !== 'DEFER' || !reasonCode] stops, otherwise the reason code. *)
Definition provisional (o : Cg3GateOutcome) : option string :=
  if bool_decide (go_decision o = Some DEFER) then truthy (go_reasonCode o) else None.

Record CheckContext := CheckContext_ {
  cx_compiled : Cg4CompiledPolicy;
  cx_pinnedNow : Z;
  cx_pinnedTimezone : string;
}.

Section Checks.
Context `{Runtime}.
Variables (sha256 : string -> string) (fuel : nat) (check : Cg4PolicyCheck) (context : CheckContext).

Definition check_timezone : string := default (cx_pinnedTimezone context) (ck_timezone check).

Definition evaluate_probe (instant : Z) (preferences : list Cg3PreferenceCandidate)
  (exceptions : list Cg4ExceptionFacts) : Cg3GateOutcome :=
  evaluateCg3Policy (baseInput (cx_compiled context) instant check_timezone preferences exceptions).

Definition inertExceptionCheck (label : string) (mutate : Z -> Cg4ExceptionFacts -> Cg4ExceptionFacts)
  : previewed CheckRun :=
  instants ← probeInstants fuel check (cx_pinnedNow context);
  probe_each (fun instant =>
    let baseline := evaluate_probe instant [] [] in
    match provisional baseline with
    | None => Ok None
    | Some ruleCode =>
        let variant := evaluate_probe instant []
          [mutate instant (exceptionFor (cx_compiled context) ruleCode instant)] in
        same ← sameOutcome sha256 baseline variant;
        Ok (verdict_of same
              (label +:+ " exception เปลี่ยนผลที่ " +:+ toISOString instant +:+ ": " +:+
               shape_text baseline +:+ " -> " +:+ shape_text variant))
    end) instants.

Definition hardRuleCheck : previewed CheckRun :=
  let ruleCode := default "" (ck_ruleCode check) in
  let content := cp_content (cx_compiled context) in
  let overridable :=
    match rr_metadata (resolveCg4RuleMetadata ruleCode) with
    | Declared m => rm_overridable m
    | InheritedMember => false
    end in
  Ok (CheckRun_ 3
    ((if overridable then ["registry ประกาศว่า " +:+ ruleCode +:+ " override ได้"] else []) ++
     (if includes (overridableRules content) ruleCode
      then ["overridableRules มี " +:+ ruleCode] else []) ++
     (if includes (allowedOperationalRuleCodes content) ruleCode
      then ["allowedOperationalRuleCodes มี " +:+ ruleCode] else []))).

(** The text a template literal gives a risk floor: [null], or [undefined] on an inherited member. *)
Definition floor_of (m : ResolvedMetadata) : option Cg4ExceptionRiskTier :=
  match m with Declared m => rm_riskFloor m | InheritedMember => None end.
Definition floor_text (m : ResolvedMetadata) : string :=
  match m with
  | Declared m => match rm_riskFloor m with Some t => tier_text t | None => "null" end
  | InheritedMember => "undefined"
  end.

Definition capFloorCheck : previewed CheckRun :=
  let ruleCode := default "" (ck_ruleCode check) in
  let metadata := rr_metadata (resolveCg4RuleMetadata ruleCode) in
  Ok (CheckRun_ 1
    (if bool_decide (floor_of metadata = Some (default HIGH (ck_riskFloor check))) then []
     else [ruleCode +:+ " riskFloor เป็น " +:+ floor_text metadata +:+ " ไม่ใช่ " +:+
           (match ck_riskFloor check with Some t => tier_text t | None => "undefined" end)])).

Definition probe_preference : Cg3PreferenceCandidate :=
  PreferenceCandidate 1 (Some PROBE_IDENTITY) (Some PROBE_CHANNEL) (Some PROBE_PURPOSE) None
    (Some P_BLOCK) None [].

Definition preferenceBlockCheck : previewed CheckRun :=
  instants ← probeInstants fuel check (cx_pinnedNow context);
  probe_each (fun instant =>
    let outcome := evaluate_probe instant [probe_preference]
      (map (fun ruleCode => exceptionFor (cx_compiled context) ruleCode instant)
         (allowedOperationalRuleCodes (cp_content (cx_compiled context)))) in
    Ok (verdict_of
          (bool_decide (go_decision outcome = Some BLOCK) &&
           bool_decide (go_reasonCode outcome = Some "PREFERENCE_BLOCKED"))
          ("preference BLOCK ถูกยกที่ " +:+ toISOString instant +:+ ": " +:+ shape_text outcome)))
    instants.

Definition inScopeExceptionCheck : previewed CheckRun :=
  instants ← probeInstants fuel check (cx_pinnedNow context);
  probe_each (fun instant =>
    let baseline := evaluate_probe instant [] [] in
    match provisional baseline with
    | None => Ok None
    | Some ruleCode =>
        let variant := evaluate_probe instant [] [exceptionFor (cx_compiled context) ruleCode instant] in
        if includes (allowedOperationalRuleCodes (cp_content (cx_compiled context))) ruleCode
        then
          let pinned := js_some (fun pin => bool_decide (pin_matchedRuleCode pin = ruleCode))
                          (go_appliedExceptions variant) in
          Ok (verdict_of (bool_decide (go_decision variant = None) && pinned)
                ("exception ที่ครอบ " +:+ ruleCode +:+ " ไม่ยก provisional failure ที่ " +:+
                 toISOString instant))
        else
          same ← sameOutcome sha256 baseline variant;
          Ok (verdict_of same
                (ruleCode +:+ " ไม่อยู่ใน allowlist แต่ exception เปลี่ยนผลที่ " +:+ toISOString instant))
    end) instants.

Definition withinDeclaredQuietHours (content : Cg4PolicyContentV1) (weekday minute : Z) : bool :=
  js_some (fun window => diff_withinWindow window weekday minute) (quietHours content).

Definition bool_text (b : bool) : string := if b then "true" else "false".

(** [zonedPartsAt] throws a [RangeError] when Intl does not know the zone. *)
Definition checked_parts (instant : Z) : previewed ZonedParts :=
  throw_if (negb (isValidTimeZone check_timezone)) RANGE_ERROR ;;
  Ok (zonedPartsAt instant check_timezone).

Definition quietHoursCheck : previewed CheckRun :=
  instants ← probeInstants fuel check (cx_pinnedNow context);
  let content := cp_content (cx_compiled context) in
  probe_each (fun instant =>
    parts ← checked_parts instant;
    let dateKey := localDateKey parts in
    if js_some (fun entry => bool_decide (localDate entry = dateKey)) (holidays content)
    then Ok None
    else
      let expectedQuiet := withinDeclaredQuietHours content (zp_weekday parts)
                             (zp_hour parts * 60 + zp_minute parts) in
      let outcome := evaluate_probe instant [] [] in
      let observedQuiet := bool_decide (go_reasonCode outcome = Some "QUIET_HOURS") in
      Ok (verdict_of (bool_decide (expectedQuiet = observedQuiet))
            ("quiet hours ไม่ตรง local clock ที่ " +:+ toISOString instant +:+ " (" +:+ check_timezone +:+
             " " +:+ dateKey +:+ " " +:+ pad_start 2 (show (zp_hour parts)) +:+ ":" +:+
             pad_start 2 (show (zp_minute parts)) +:+ "): " +:+ "ประกาศ " +:+ bool_text expectedQuiet +:+
             " แต่ประเมินได้ " +:+ bool_text observedQuiet))) instants.

(** [const [year = 0, month = 1, day = 1] = localDate.split('-').map(Number)] and the wall clock
    of a minute of that day; a field that is not a number makes the date invalid. *)
Definition holiday_instant (entry : Cg3HolidayEntry) (minute : Z) : previewed Z :=
  let fields := map js_number (split_char "-"%char (localDate entry)) in
  match nth 0 fields (Some 0), nth 1 fields (Some 1), nth 2 fields (Some 1) with
  | Some year, Some month, Some day =>
      throw_if (negb (isValidTimeZone check_timezone)) RANGE_ERROR ;;
      Ok (zonedToUtc (Zoned year month day 1 (minute / 60) (minute mod 60)) check_timezone)
  | _, _, _ => Err RANGE_ERROR
  end.

(** The nested loops of the holiday checks, one run per entry. *)
Fixpoint each_entry (f : Cg3HolidayEntry -> previewed CheckRun) (entries : list Cg3HolidayEntry)
  : previewed CheckRun :=
  match entries with
  | [] => Ok (CheckRun_ 0 [])
  | entry :: rest =>
      run ← f entry;
      more ← each_entry f rest;
      Ok (CheckRun_ (cr_assertions run + cr_assertions more) (cr_failures run ++ cr_failures more))
  end.

Definition entries_of (e : HolidayEffect) : list Cg3HolidayEntry :=
  js_filter (fun row => bool_decide (effect row = e)) (holidays (cp_content (cx_compiled context))).

Definition closedHolidayCheck : previewed CheckRun :=
  each_entry (fun entry =>
    minutes ← probe_minutes fuel 0 1440 (default 30 (ck_stepMinutes check));
    probe_each (fun minute =>
      instant ← holiday_instant entry minute;
      let outcome := evaluate_probe instant [] [] in
      Ok (verdict_of (bool_decide (go_reasonCode outcome = Some "TENANT_HOLIDAY"))
            ("วันหยุด CLOSED " +:+ localDate entry +:+ " ไม่ block ที่นาที " +:+ show minute +:+ " (" +:+
             default "PASSED" (go_reasonCode outcome) +:+ ")"))) minutes) (entries_of CLOSED).

Definition windowsHolidayCheck : previewed CheckRun :=
  each_entry (fun entry =>
    minutes ← probe_minutes fuel 0 1440 (default 30 (ck_stepMinutes check));
    probe_each (fun minute =>
      instant ← holiday_instant entry minute;
      let parts := zonedPartsAt instant check_timezone in
      let insideWindow := js_some (fun window =>
        diff_withinWindow window (zp_weekday parts) (zp_hour parts * 60 + zp_minute parts)) (windows entry) in
      let outcome := evaluate_probe instant [] [] in
      let blocked := bool_decide (go_reasonCode outcome = Some "TENANT_HOLIDAY") in
      Ok (Some (if negb insideWindow && negb blocked
                then Some ("วันหยุด WINDOWS " +:+ localDate entry +:+ " ไม่ block นอก window ที่นาที " +:+
                           show minute)
                else if insideWindow && blocked
                then Some ("วันหยุด WINDOWS " +:+ localDate entry +:+ " block ใน window ที่นาที " +:+
                           show minute)
                else None))) minutes) (entries_of WINDOWS).

Definition replayCheck : previewed CheckRun :=
  instants ← probeInstants fuel check (cx_pinnedNow context);
  probe_each (fun instant =>
    let first := evaluate_probe instant [] [] in
    let second := evaluate_probe instant [] [] in
    same ← sameOutcome sha256 first second;
    Ok (verdict_of same ("ประเมินซ้ำที่ " +:+ toISOString instant +:+ " ให้ผลต่างกัน"))) instants.

(** The five defects, as [mutate] overrides them. *)
Definition out_of_scope (e : Cg4ExceptionFacts) : Cg4ExceptionFacts :=
  {| ef_seriesId := ef_seriesId e; ef_revisionId := ef_revisionId e; ef_revision := ef_revision e;
     ef_workflowState := ef_workflowState e; ef_identityId := ef_identityId e;
     ef_scopeKind := ef_scopeKind e; ef_channel := ef_channel e; ef_purpose := ef_purpose e;
     ef_sourceType := ef_sourceType e; ef_sourceId := "a-different-source";
     ef_allowedRuleCodes := ef_allowedRuleCodes e; ef_policyId := ef_policyId e;
     ef_policyVersionId := ef_policyVersionId e; ef_policyVersion := ef_policyVersion e;
     ef_policyContentDigest := ef_policyContentDigest e;
     ef_currentPolicyContentDigest := ef_currentPolicyContentDigest e;
     ef_policyAllowedRuleCodes := ef_policyAllowedRuleCodes e; ef_registryVersion := ef_registryVersion e;
     ef_startsAt := ef_startsAt e; ef_expiresAt := ef_expiresAt e; ef_tier := ef_tier e;
     ef_contentDigest := ef_contentDigest e; ef_approvalDigest := ef_approvalDigest e |}.

Definition with_period (startsAt expiresAt : Z) (e : Cg4ExceptionFacts) : Cg4ExceptionFacts :=
  {| ef_seriesId := ef_seriesId e; ef_revisionId := ef_revisionId e; ef_revision := ef_revision e;
     ef_workflowState := ef_workflowState e; ef_identityId := ef_identityId e;
     ef_scopeKind := ef_scopeKind e; ef_channel := ef_channel e; ef_purpose := ef_purpose e;
     ef_sourceType := ef_sourceType e; ef_sourceId := ef_sourceId e;
     ef_allowedRuleCodes := ef_allowedRuleCodes e; ef_policyId := ef_policyId e;
     ef_policyVersionId := ef_policyVersionId e; ef_policyVersion := ef_policyVersion e;
     ef_policyContentDigest := ef_policyContentDigest e;
     ef_currentPolicyContentDigest := ef_currentPolicyContentDigest e;
     ef_policyAllowedRuleCodes := ef_policyAllowedRuleCodes e; ef_registryVersion := ef_registryVersion e;
     ef_startsAt := startsAt; ef_expiresAt := expiresAt; ef_tier := ef_tier e;
     ef_contentDigest := ef_contentDigest e; ef_approvalDigest := ef_approvalDigest e |}.

Definition with_binding (current : option string) (allowed : list string) (registry : string)
  (e : Cg4ExceptionFacts) : Cg4ExceptionFacts :=
  {| ef_seriesId := ef_seriesId e; ef_revisionId := ef_revisionId e; ef_revision := ef_revision e;
     ef_workflowState := ef_workflowState e; ef_identityId := ef_identityId e;
     ef_scopeKind := ef_scopeKind e; ef_channel := ef_channel e; ef_purpose := ef_purpose e;
     ef_sourceType := ef_sourceType e; ef_sourceId := ef_sourceId e;
     ef_allowedRuleCodes := ef_allowedRuleCodes e; ef_policyId := ef_policyId e;
     ef_policyVersionId := ef_policyVersionId e; ef_policyVersion := ef_policyVersion e;
     ef_policyContentDigest := ef_policyContentDigest e;
     ef_currentPolicyContentDigest := current; ef_policyAllowedRuleCodes := allowed;
     ef_registryVersion := registry; ef_startsAt := ef_startsAt e; ef_expiresAt := ef_expiresAt e;
     ef_tier := ef_tier e; ef_contentDigest := ef_contentDigest e; ef_approvalDigest := ef_approvalDigest e |}.

Definition expired (now : Z) (e : Cg4ExceptionFacts) : Cg4ExceptionFacts :=
  with_period (now - 7200000) (now - 3600000) e.
Definition stale_binding (e : Cg4ExceptionFacts) : Cg4ExceptionFacts :=
  with_binding (Some (repeat_char "0"%char 64)) (ef_policyAllowedRuleCodes e) (ef_registryVersion e) e.
Definition outside_allowlist (e : Cg4ExceptionFacts) : Cg4ExceptionFacts :=
  with_binding (ef_currentPolicyContentDigest e) [] (ef_registryVersion e) e.
Definition unknown_registry (e : Cg4ExceptionFacts) : Cg4ExceptionFacts :=
  with_binding (ef_currentPolicyContentDigest e) (ef_policyAllowedRuleCodes e) "CG4_RULE_REGISTRY_V0" e.

(** [CHECK_RUNNERS[kind]] on a known kind. *)
Definition CHECK_RUNNERS (kind : Cg4PolicyCheckKind) : previewed CheckRun :=
  match kind with
  | HARD_RULE_NOT_OVERRIDABLE => hardRuleCheck
  | CAP_RULE_RISK_FLOOR => capFloorCheck
  | PREFERENCE_BLOCK_NOT_LIFTABLE => preferenceBlockCheck
  | EXCEPTION_OUT_OF_SCOPE_IS_INERT => inertExceptionCheck "out-of-scope" (fun _ => out_of_scope)
  | EXCEPTION_EXPIRED_IS_INERT => inertExceptionCheck "expired" expired
  | EXCEPTION_STALE_BINDING_IS_INERT => inertExceptionCheck "stale-binding" (fun _ => stale_binding)
  | EXCEPTION_OUTSIDE_ALLOWLIST_IS_INERT =>
      inertExceptionCheck "outside-allowlist" (fun _ => outside_allowlist)
  | EXCEPTION_UNKNOWN_REGISTRY_IS_INERT =>
      inertExceptionCheck "unknown-registry" (fun _ => unknown_registry)
  | EXCEPTION_IN_SCOPE_LIFTS_ALLOWED_RULE => inScopeExceptionCheck
  | QUIET_HOURS_FOLLOW_LOCAL_CLOCK => quietHoursCheck
  | CLOSED_HOLIDAY_BLOCKS_WHOLE_LOCAL_DAY => closedHolidayCheck
  | WINDOWS_HOLIDAY_BLOCKS_OUTSIDE_WINDOWS => windowsHolidayCheck
  | DETERMINISTIC_REPLAY => replayCheck
  end.
End Checks.

Definition check_kinds : list Cg4PolicyCheckKind :=
  [HARD_RULE_NOT_OVERRIDABLE; CAP_RULE_RISK_FLOOR; PREFERENCE_BLOCK_NOT_LIFTABLE;
   EXCEPTION_OUT_OF_SCOPE_IS_INERT; EXCEPTION_EXPIRED_IS_INERT; EXCEPTION_STALE_BINDING_IS_INERT;
   EXCEPTION_OUTSIDE_ALLOWLIST_IS_INERT; EXCEPTION_UNKNOWN_REGISTRY_IS_INERT;
   EXCEPTION_IN_SCOPE_LIFTS_ALLOWED_RULE; QUIET_HOURS_FOLLOW_LOCAL_CLOCK;
   CLOSED_HOLIDAY_BLOCKS_WHOLE_LOCAL_DAY; WINDOWS_HOLIDAY_BLOCKS_OUTSIDE_WINDOWS; DETERMINISTIC_REPLAY].

Definition kind_of (name : string) : option Cg4PolicyCheckKind :=
  js_find (fun k => bool_decide (kind_name k = name)) check_kinds.

(** ** The test run *)

Record Cg4PolicyCheckResult := CheckResult {
  cr_id : string;
  cr_kind : string;
  cr_pass : bool;
  cr_run : CheckRun;
}.

Definition outcome_text (pass : bool) : string := if pass then "PASS" else "FAIL".

(** A kind no runner has fails; one that names a member of [Object.prototype] finds that member
    and the destructuring of its result throws. *)
Definition run_check `{Runtime} (sha256 : string -> string) (fuel : nat) (context : CheckContext)
  (check : Cg4PolicyCheck) : previewed Cg4PolicyCheckResult :=
  match kind_of (ck_kind check) with
  | Some kind =>
      run ← CHECK_RUNNERS sha256 fuel check context kind;
      Ok (CheckResult (ck_id check) (ck_kind check) (bool_decide (cr_failures run = [])) run)
  | None =>
      throw_if (includes object_prototype_members (ck_kind check)) TYPE_ERROR ;;
      Ok (CheckResult (ck_id check) (ck_kind check) false
            (CheckRun_ 0 ["ไม่รู้จัก check kind " +:+ ck_kind check]))
  end.

Definition runPack `{Runtime} (sha256 : string -> string) (fuel : nat) (pack : Cg4PolicyFixturePack)
  (context : CheckContext) : previewed (list Cg4PolicyCheckResult) :=
  map_result (run_check sha256 fuel context) (fp_checks pack).

Record Cg4PolicyTestRun := TestRun {
  tn_suiteVersion : string;
  tn_platformFixtureDigest : string;
  tn_tenantFixtureDigest : string;
  tn_pass : bool;
  tn_passed : Z;
  tn_failed : Z;
  tn_checks : list Cg4PolicyCheckResult;
  tn_resultDigest : string;
}.

Record RunCg4PolicyTestsInput := TestsInput {
  ti_compiled : Cg4CompiledPolicy;
  ti_tenantPack : Cg4PolicyFixturePack;
  ti_platformPack : option Cg4PolicyFixturePack;
  ti_pinnedEvaluationTime : string;
  ti_pinnedTimezone : string;
}.

Definition result_json (r : Cg4PolicyCheckResult) : jsval :=
  JObj [("id", JStr (cr_id r)); ("kind", JStr (cr_kind r));
        ("outcome", JStr (outcome_text (cr_pass r)));
        ("assertions", JNum (NInt (cr_assertions (cr_run r))));
        ("failures", JArr (map JStr (cr_failures (cr_run r))))].

Definition suite_version (platformPack tenantPack : Cg4PolicyFixturePack) : string :=
  fp_suiteVersion platformPack +:+ "+" +:+ fp_suiteVersion tenantPack.

Definition runCg4PolicyTests `{Runtime} (sha256 : string -> string) (fuel : nat)
  (input : RunCg4PolicyTestsInput) : previewed Cg4PolicyTestRun :=
  pinnedNow ← match date_parse (ti_pinnedEvaluationTime input) with
              | Some t => Ok t
              | None => Err TYPE_ERROR
              end;
  let platformPack := default CG4_PLATFORM_FIXTURE_PACK (ti_platformPack input) in
  let context := CheckContext_ (ti_compiled input) pinnedNow (ti_pinnedTimezone input) in
  platform ← runPack sha256 fuel platformPack context;
  tenant ← runPack sha256 fuel (ti_tenantPack input) context;
  let checks := platform ++ tenant in
  let failed := Z.of_nat (length (js_filter (fun c => negb (cr_pass c)) checks)) in
  let passed := Z.of_nat (length checks) - failed in
  let suiteVersion := suite_version platformPack (ti_tenantPack input) in
  platformDigest ← contract (digestCg4FixturePack sha256 platformPack);
  tenantDigest ← contract (digestCg4FixturePack sha256 (ti_tenantPack input));
  resultDigest ← contract (canonicalCg4Digest sha256
    (JObj [("suiteVersion", JStr suiteVersion); ("platformFixtureDigest", JStr platformDigest);
           ("tenantFixtureDigest", JStr tenantDigest);
           ("outcome", JStr (outcome_text (failed =? 0))); ("passed", JNum (NInt passed));
           ("failed", JNum (NInt failed)); ("checks", JArr (map result_json checks));
           ("contentDigest", JStr (cp_contentDigest (ti_compiled input)));
           ("pinnedEvaluationTime", JStr (toISOString pinnedNow));
           ("pinnedTimezone", JStr (ti_pinnedTimezone input))]));
  Ok (TestRun suiteVersion platformDigest tenantDigest (failed =? 0) passed failed checks resultDigest).

(** ** The preview *)

(** The counters of [resultCounts]. *)
Record ResultCounts := Counts {
  rc_ALLOW : Z; rc_BLOCK : Z; rc_DEFER : Z; rc_REVIEW : Z; rc_PASSED : Z;
}.

Definition count_outcome (counts : ResultCounts) (o : Cg3GateOutcome) : ResultCounts :=
  let '(Counts a b d r p) := counts in
  match go_decision o with
  | Some ALLOW => Counts (a + 1) b d r p
  | Some BLOCK => Counts a (b + 1) d r p
  | Some DEFER => Counts a b (d + 1) r p
  | Some REVIEW => Counts a b d (r + 1) p
  | None => Counts a b d r (p + 1)
  end.

Definition counts_json (c : ResultCounts) : jsval :=
  JObj [("ALLOW", JNum (NInt (rc_ALLOW c))); ("BLOCK", JNum (NInt (rc_BLOCK c)));
        ("DEFER", JNum (NInt (rc_DEFER c))); ("REVIEW", JNum (NInt (rc_REVIEW c)));
        ("PASSED", JNum (NInt (rc_PASSED c)))].

(** [for (minute = 0; minute < 24 * 60; minute += 30)] *)
Definition preview_minutes : list Z := map (fun k => k * 30) (seqZ 0 48).

Definition count_day `{Runtime} (compiled : Cg4CompiledPolicy) (now : Z) (timezone : string) : ResultCounts :=
  fold_left (fun counts minute =>
    count_outcome counts (evaluateCg3Policy (baseInput compiled (now + minute * 60000) timezone [] [])))
    preview_minutes (Counts 0 0 0 0 0).

Record Cg4PolicyPreview := Preview {
  pv_policyContentDigest : string;
  pv_platformFixturePackDigest : string;
  pv_tenantFixturePackDigest : string;
  pv_baseHeadVersion : Z;
  pv_baseHeadDigest : string;
  pv_diffClass : Cg4PolicyDiffClass;
  pv_diffDigest : string;
  pv_diff : Cg4PolicyDiff;
  pv_tests : Cg4PolicyTestRun;
  pv_resultCounts : ResultCounts;
  pv_artifactDigest : string;
  pv_previewDigest : string;
}.

(** [binding], spread before the test result. *)
Definition binding_fields (contentDigest platformDigest tenantDigest : string) (baseHeadVersion : Z)
  (baseHeadDigest : string) (cls : Cg4PolicyDiffClass) (diffDigest : string) : list (string * jsval) :=
  [("contractVersion", JNum (NInt CG4_CONTRACT_VERSION));
   ("policySchemaVersion", JNum (NInt CG4_POLICY_SCHEMA_VERSION));
   ("ruleRegistryVersion", JStr CG4_RULE_REGISTRY_VERSION);
   ("evaluatorVersion", JStr CG4_EVALUATOR_VERSION);
   ("policyContentDigest", JStr contentDigest);
   ("platformFixturePackDigest", JStr platformDigest);
   ("tenantFixturePackDigest", JStr tenantDigest);
   ("baseHeadVersion", JNum (NInt baseHeadVersion));
   ("baseHeadDigest", JStr baseHeadDigest);
   ("diffClass", JStr (class_text cls));
   ("diffDigest", JStr diffDigest)].

Definition artifact_json (binding : list (string * jsval)) (tests : Cg4PolicyTestRun) : jsval :=
  JObj (binding ++
    [("testResultDigest", JStr (tn_resultDigest tests)); ("outcome", JStr (outcome_text (tn_pass tests)));
     ("passed", JNum (NInt (tn_passed tests))); ("failed", JNum (NInt (tn_failed tests)))]).

Definition previewCg4Policy `{Runtime} (sha256 : string -> string) (fuel : nat)
  (input : RunCg4PolicyTestsInput) (baseContent : option Cg4PolicyContentV1) (baseHeadVersion : Z)
  (baseHeadDigest : string) : previewed Cg4PolicyPreview :=
  let compiled := ti_compiled input in
  diff ← contract (classifyCg4PolicyDiff sha256 baseContent (cp_content compiled));
  tests ← runCg4PolicyTests sha256 fuel input;
  pinnedNow ← match date_parse (ti_pinnedEvaluationTime input) with
              | Some t => Ok t
              | None => Err TYPE_ERROR
              end;
  let counts := count_day compiled pinnedNow (ti_pinnedTimezone input) in
  let binding := binding_fields (cp_contentDigest compiled) (tn_platformFixtureDigest tests)
                   (tn_tenantFixtureDigest tests) baseHeadVersion baseHeadDigest (diffClass diff)
                   (diffDigest diff) in
  artifactDigest ← contract (canonicalCg4Digest sha256 (artifact_json binding tests));
  previewDigest ← contract (canonicalCg4Digest sha256
    (JObj [("artifactDigest", JStr artifactDigest); ("resultCounts", counts_json counts);
           ("pinnedEvaluationTime", JStr (toISOString pinnedNow));
           ("pinnedTimezone", JStr (ti_pinnedTimezone input))]));
  Ok (Preview (cp_contentDigest compiled) (tn_platformFixtureDigest tests)
        (tn_tenantFixtureDigest tests) baseHeadVersion baseHeadDigest (diffClass diff)
        (diffDigest diff) diff tests counts artifactDigest previewDigest).

(** ** Probe loops *)

(** With a positive step the probes are the multiples of the step below [stop]; and [stop] steps
    of fuel are enough. *)
Lemma probe_minutes_spec fuel minute stop step l : 0 < step ->
  probe_minutes fuel minute stop step = Ok l ->
  forall m, In m l <-> exists k : nat, m = minute + Z.of_nat k * step /\ m < stop.
Proof.
  intros Hs. revert minute l; induction fuel as [|fuel IH]; intros minute l; cbn;
    destruct (Z.ltb_spec minute stop); cbn; try done;
    try (intros [= <-] m; split; [done|intros (k & -> & Hk); cbn; lia]).
  intros Hl m. inv_result. cbn. rewrite IH by done. split.
  - intros [<-|(k & -> & Hk)]; [exists 0%nat; lia|exists (S k); lia].
  - intros (k & -> & Hk). destruct k as [|k]; [left; lia|right; exists k; lia].
Qed.

Lemma probe_minutes_enough fuel minute stop step : 0 < step -> stop - minute <= Z.of_nat fuel ->
  exists l, probe_minutes fuel minute stop step = Ok l.
Proof.
  intros Hs. revert minute; induction fuel as [|fuel IH]; intros minute Hf; cbn;
    destruct (Z.ltb_spec minute stop); cbn; try lia; eauto.
  destruct (IH (minute + step)) as (l & ->); [lia|]. cbn. eauto.
Qed.

Lemma probe_step_stuck fuel minute stop step : step <= 0 -> minute < stop ->
  probe_minutes fuel minute stop step = Err STILL_RUNNING.
Proof.
  intros Hs. revert minute; induction fuel as [|fuel IH]; intros minute Hm; cbn;
    destruct (Z.ltb_spec minute stop); cbn; try lia; [done|].
  rewrite IH by lia. done.
Qed.

Lemma probe_each_pass f probes :
  (forall p, In p probes -> f p = Ok None \/ f p = Ok (Some None)) ->
  exists run, probe_each f probes = Ok run /\ cr_failures run = [].
Proof.
  induction probes as [|p probes IH]; intros Hp; cbn; [by eexists|].
  destruct IH as (run & -> & Hr); [intros q Hq; apply Hp; by right|].
  destruct (Hp p) as [->| ->]; [by left| |]; cbn; eauto.
Qed.

(** ** Probes of a policy *)

Definition probe_result (o : Cg3GateOutcome)
  : option ContactDecision * option string * list Cg4AppliedExceptionPin :=
  (go_decision o, go_reasonCode o, go_appliedExceptions o).

Lemma outcomeShape_result o o' : probe_result o = probe_result o' -> outcomeShape o = outcomeShape o'.
Proof.
  unfold probe_result, outcomeShape, decision_or_passed. by intros [= -> -> ->].
Qed.

Lemma outcomeShape_plain o : json_plain (outcomeShape o) = true.
Proof.
  unfold outcomeShape. cbn [json_plain forallb snd]. rewrite forallb_map.
  rewrite (proj2 (forallb_forall _ _)) by done. by destruct (go_reasonCode o).
Qed.

Lemma sameOutcome_result sha256 o o' :
  probe_result o = probe_result o' -> sameOutcome sha256 o o' = Ok true.
Proof.
  intros Hr. unfold sameOutcome, canonicalCg4Digest. rewrite (outcomeShape_result _ _ Hr).
  destruct (canonical_plain _ (outcomeShape_plain o')) as [s ->]. cbn. by rewrite bool_decide_eq_true_2.
Qed.

Section Probes.
Context `{Runtime}.
Variables (compiled : Cg4CompiledPolicy) (now : Z) (tz : string).

Abbreviation probe es := (baseInput compiled now tz [] es).

Definition unzoned : bool :=
  hasTemporalConstraint (probe []) None && bool_decide (resolvedTimezone (probe []) None = None).

(** What a probe without preferences gives. *)
Lemma probe_evaluates es :
  probe_result (evaluateCg3Policy (probe es)) =
  if unzoned then (Some DEFER, Some "TIMEZONE_UNKNOWN", [])
  else match temporal_block (probe []) None with
       | None => (None, None, [])
       | Some b =>
           match approvedExceptionFor (probe es) (reason_code (tb_reason b)) None with
           | Some pin => (None, None, [pin])
           | None => (Some DEFER, Some (reason_code (tb_reason b)), [])
           end
       end.
Proof.
  unfold evaluateCg3Policy, temporal_gate.
  change (resolveEffectivePreference (in_preferences (probe es)) (probe es))
    with (@None Cg3PreferenceCandidate). cbn [mbind result_bind preference_gate].
  change (resolvedTimezone (probe es) None) with (resolvedTimezone (probe []) None).
  change (hasTemporalConstraint (probe es) None) with (hasTemporalConstraint (probe []) None).
  fold unzoned. destruct unzoned; [done|]. cbn [throw_if mbind result_bind].
  change (temporal_block (probe es) None) with (temporal_block (probe []) None).
  destruct (temporal_block (probe []) None) as [b|] eqn:Eb; [|done].
  unfold block_gate. cbn [callbackWillOverride in_activeCallback baseInput].
  destruct (approvedExceptionFor (probe es) _ None) as [pin|]; [done|].
  unfold callback_gate. cbn [in_activeCallback baseInput]. by destruct (overridable _ _).
Qed.

Lemma probe_plain :
  probe_result (evaluateCg3Policy (probe [])) =
  if unzoned then (Some DEFER, Some "TIMEZONE_UNKNOWN", [])
  else match temporal_block (probe []) None with
       | None => (None, None, [])
       | Some b => (Some DEFER, Some (reason_code (tb_reason b)), [])
       end.
Proof. rewrite probe_evaluates. destruct unzoned; [done|]. by destruct (temporal_block (probe []) None). Qed.

(** An exception that does not lift the rule changes nothing. *)
Lemma probe_inert e :
  (forall rule, ~ lifts e (exception_context (probe []) PROBE_SOURCE_TYPE PROBE_SOURCE_ID) rule) ->
  probe_result (evaluateCg3Policy (probe [])) = probe_result (evaluateCg3Policy (probe [e])).
Proof.
  intros He. rewrite probe_plain, probe_evaluates. destruct unzoned; [done|].
  destruct (temporal_block (probe []) None) as [b|]; [|done].
  destruct (approvedExceptionFor (probe [e]) _ None) as [pin|] eqn:Ea; [|done]. exfalso.
  apply approvedExceptionFor_some in Ea as (x & (Hin & src & sid & Hs & Hi & Hl) & _).
  destruct Hin as [<-|[]]. injection Hs as <-. injection Hi as <-. by eapply He.
Qed.

Lemma provisional_cases ruleCode : provisional (evaluateCg3Policy (probe [])) = Some ruleCode ->
  (unzoned = true /\ ruleCode = "TIMEZONE_UNKNOWN") \/
  (unzoned = false /\ exists b, temporal_block (probe []) None = Some b /\ ruleCode = reason_code (tb_reason b)).
Proof.
  unfold provisional. pose proof probe_plain as Hp. unfold probe_result in Hp.
  destruct unzoned; [injection Hp as -> -> _; cbn; intros [= <-]; by left|].
  destruct (temporal_block (probe []) None) as [b|]; injection Hp as -> -> _; [|done].
  rewrite bool_decide_eq_true_2 by done. intros Hr. right. split; [done|]. exists b. split; [done|].
  by destruct (tb_reason b); injection Hr as <-.
Qed.
End Probes.

(** ** The platform pack *)

(** The content and the facts of a compiled policy. *)
Lemma compiled_parts `{Runtime} sha256 input c : compileCg4Policy sha256 input = Ok c ->
  valid_content (cp_content c) /\
  Forall (fun r => exists floor, may_override r CUSTOMER_CALLBACK floor) (overridableRules (cp_content c)) /\
  Forall (fun r => exists floor, may_override r APPROVED_EXCEPTION floor)
    (allowedOperationalRuleCodes (cp_content c)) /\
  pf_quietHours (cp_facts c) = quietHours (cp_content c) /\
  pf_holidays (cp_facts c) = holidays (cp_content c).
Proof.
  unfold compileCg4Policy. intros Hc. inv_result.
  match goal with Hn : normalizeCg4PolicyContent _ = Ok ?content,
                  Hr : assertCg4PolicyRegistryConsistent ?content = Ok _ |- _ =>
    pose proof (normalize_content_valid _ _ Hn); destruct (registry_consistent_ok _ _ Hr) end.
  done.
Qed.

Section PlatformPack.
Context `{Runtime}.
Variables (sha256 : string -> string) (fuel : nat) (input : CompileCg4PolicyInput)
          (compiled : Cg4CompiledPolicy) (now : Z) (tz : string).
Hypothesis compiles_to : compileCg4Policy sha256 input = Ok compiled.

Abbreviation context := (CheckContext_ compiled now tz).
Abbreviation probe_at check t es := (baseInput compiled t (check_timezone check context) [] es).

(** The loop of a check ends with no failure. *)
Definition passes (r : previewed CheckRun) : Prop := exists run, r = Ok run /\ cr_failures run = [].

Lemma passes_loop check f :
  (exists probes, probeInstants fuel check now = Ok probes) ->
  (forall p, f p = Ok None \/ f p = Ok (Some None)) ->
  passes (instants ← probeInstants fuel check now; probe_each f instants).
Proof using. intros [probes ->] Hf. cbn. apply probe_each_pass. intros p _. apply Hf. Qed.

Lemma inert_passes check label mutate :
  (exists probes, probeInstants fuel check now = Ok probes) ->
  (forall t e rule, ~ lifts (mutate t (exceptionFor compiled e t))
     (exception_context (probe_at check t []) PROBE_SOURCE_TYPE PROBE_SOURCE_ID) rule) ->
  passes (inertExceptionCheck sha256 fuel check context label mutate).
Proof using.
  intros Hp Hm. apply passes_loop; [done|]. intros t.
  unfold evaluate_probe. cbn [cx_compiled]. cbv beta zeta.
  destruct (provisional (evaluateCg3Policy (probe_at check t []))) as [ruleCode|]; [right|by left].
  rewrite sameOutcome_result; [done|].
  apply probe_inert. intros rule. apply Hm.
Qed.

Lemma out_of_scope_inert check t e rule : ~ lifts (out_of_scope (exceptionFor compiled e t))
  (exception_context (probe_at check t []) PROBE_SOURCE_TYPE PROBE_SOURCE_ID) rule.
Proof using. intros [_ _ (_ & _ & _ & _ & Hs) _ _ _ _]. discriminate Hs. Qed.

Lemma expired_inert check t e rule : ~ lifts (expired t (exceptionFor compiled e t))
  (exception_context (probe_at check t []) PROBE_SOURCE_TYPE PROBE_SOURCE_ID) rule.
Proof using. intros [_ Hw _ _ _ _ _]. cbn in Hw. lia. Qed.

Lemma stale_binding_inert check t e rule : cp_contentDigest compiled <> repeat_char "0"%char 64 ->
  ~ lifts (stale_binding (exceptionFor compiled e t))
  (exception_context (probe_at check t []) PROBE_SOURCE_TYPE PROBE_SOURCE_ID) rule.
Proof using.
  intros Hd [_ _ _ _ _ Hb _]. cbn [ef_currentPolicyContentDigest ef_policyContentDigest
    stale_binding with_binding exceptionFor] in Hb. congruence.
Qed.

Lemma outside_allowlist_inert check t e rule : ~ lifts (outside_allowlist (exceptionFor compiled e t))
  (exception_context (probe_at check t []) PROBE_SOURCE_TYPE PROBE_SOURCE_ID) rule.
Proof using. intros [_ _ _ _ _ _ (f & _ & [] & _)]. Qed.

Lemma unknown_registry_inert check t e rule : ~ lifts (unknown_registry (exceptionFor compiled e t))
  (exception_context (probe_at check t []) PROBE_SOURCE_TYPE PROBE_SOURCE_ID) rule.
Proof using. intros [_ _ _ _ Hr _ _]. discriminate Hr. Qed.

Lemma hard_passes check : In (default "" (ck_ruleCode check)) HARD_RULES ->
  passes (hardRuleCheck check context).
Proof using compiles_to.
  intros Hin. destruct (compiled_parts _ _ _ compiles_to) as (_ & Ho & Ha & _).
  set (code := default "" (ck_ruleCode check)) in *.
  assert (Hno : forall mech floor, ~ may_override code mech floor).
  { intros mech floor Hm. destruct Hm; cbn in Hin; intuition discriminate. }
  assert (Hl : forall mech l, Forall (fun r => exists floor, may_override r mech floor) l -> includes l code = false).
  { intros mech l Hf. apply includes_false. intros Hc. rewrite List.Forall_forall in Hf.
    destruct (Hf _ Hc) as [floor Hm]. by eapply Hno. }
  assert (Hmeta : match rr_metadata (resolveCg4RuleMetadata code) with
                  | Declared m => rm_overridable m | InheritedMember => false end = false).
  { cbn in Hin. repeat (destruct Hin as [Hin|Hin]; [rewrite <- Hin; reflexivity|]). done. }
  unfold passes, hardRuleCheck. fold code. cbn [cx_compiled].
  rewrite Hmeta, (Hl _ _ Ho), (Hl _ _ Ha). by eexists.
Qed.

Lemma cap_passes check : In (default "" (ck_ruleCode check)) ["MIN_GAP"; "DAILY_ATTEMPT_CAP"; "DAILY_TOUCH_CAP"] ->
  ck_riskFloor check = Some HIGH -> passes (capFloorCheck check).
Proof using.
  intros Hin Hf. unfold passes, capFloorCheck. rewrite Hf. cbn in Hin.
  repeat (destruct Hin as [<-|Hin]; [by eexists|]). done.
Qed.

Lemma preference_passes check : (exists probes, probeInstants fuel check now = Ok probes) ->
  passes (preferenceBlockCheck fuel check context).
Proof using. intros Hp. apply passes_loop; [done|]. by right. Qed.

Lemma replay_passes check : (exists probes, probeInstants fuel check now = Ok probes) ->
  passes (replayCheck sha256 fuel check context).
Proof using. intros Hp. apply passes_loop; [done|]. intros t. right. cbv beta zeta. by rewrite sameOutcome_result. Qed.

Lemma may_lift_reason mech floor (reason : TemporalReason) :
  may_override (reason_code reason) mech floor -> floor = STANDARD.
Proof using. destruct reason; by inversion 1. Qed.

(** The allowed exception of the in-scope check lifts the rule it names. *)
Lemma in_scope_lifts check t reason :
  In (reason_code reason) (allowedOperationalRuleCodes (cp_content compiled)) ->
  lifts (exceptionFor compiled (reason_code reason) t)
    (exception_context (probe_at check t []) PROBE_SOURCE_TYPE PROBE_SOURCE_ID) (reason_code reason).
Proof using compiles_to.
  intros Hin. destruct (compiled_parts _ _ _ compiles_to) as (_ & _ & Ha & _).
  rewrite List.Forall_forall in Ha. destruct (Ha _ Hin) as [floor Hm].
  pose proof (may_lift_reason _ _ _ Hm) as ->.
  constructor; try done; [cbn; lia|by split; [eexists|]|by left|].
  exists STANDARD. unfold eligibility_input. cbn [oe_ruleCode oe_mechanism oe_policyAllowedRuleCodes
    oe_requestedRuleCount oe_riskTier oe_identityScope oe_lifetimeSeconds exceptionFor ef_allowedRuleCodes
    ef_policyAllowedRuleCodes ef_scopeKind ef_tier ef_expiresAt ef_startsAt length].
  replace ((t + 60000 - (t - 60000)) / 1000) with 120
    by (replace (t + 60000 - (t - 60000)) with 120000 by lia; done).
  split; [done|]. split; [done|]. split; [done|]. split; [done|].
  split; [intros [Hc|Hc]; [discriminate Hc|cbn in Hc; lia]|]. cbn. lia.
Qed.

Lemma in_scope_passes check : (exists probes, probeInstants fuel check now = Ok probes) ->
  passes (inScopeExceptionCheck sha256 fuel check context).
Proof using compiles_to.
  intros Hp. apply passes_loop; [done|]. intros t. unfold evaluate_probe. cbn [cx_compiled].
  cbv beta zeta.
  destruct (provisional (evaluateCg3Policy (probe_at check t []))) as [ruleCode|] eqn:Ep; [right|by left].
  apply provisional_cases in Ep. set (tz' := check_timezone check context) in *.
  assert (Hz : ruleCode = "TIMEZONE_UNKNOWN" ->
     includes (allowedOperationalRuleCodes (cp_content compiled)) ruleCode = false).
  { intros ->. apply includes_false. intros Hc.
    destruct (compiled_parts _ _ _ compiles_to) as (_ & _ & Ha & _).
    rewrite List.Forall_forall in Ha. destruct (Ha _ Hc) as [floor Hm]. inversion Hm. }
  destruct Ep as [[Hu Hr]|(Hu & b & Hb & ->)].
  - rewrite (Hz Hr), sameOutcome_result; [done|]. rewrite !probe_evaluates, Hu. done.
  - destruct (includes _ _) eqn:Ei.
    + apply includes_spec in Ei. pose proof (in_scope_lifts check t _ Ei) as Hl. fold tz' in Hl.
      pose proof (probe_evaluates compiled t tz' [exceptionFor compiled (reason_code (tb_reason b)) t]) as Hev.
      rewrite Hu, Hb in Hev.
      destruct (approvedExceptionFor (baseInput compiled t tz' [] [exceptionFor compiled (reason_code (tb_reason b)) t])
        (reason_code (tb_reason b)) None) as [pin|] eqn:Ea.
      * apply approvedExceptionFor_some in Ea as (x & _ & ->).
        unfold probe_result in Hev. injection Hev as -> _ ->. cbn [js_some existsb pin_matchedRuleCode exception_pin].
        rewrite !bool_decide_eq_true_2 by done. done.
      * exfalso. assert (Hx : is_Some (@None Cg4AppliedExceptionPin)); [|by destruct Hx].
        rewrite <- Ea. apply approvedExceptionFor_spec. eexists. split; [by left|]. by exists PROBE_SOURCE_TYPE, PROBE_SOURCE_ID.
    + rewrite sameOutcome_result; [done|]. rewrite !probe_evaluates, Hu, Hb.
      destruct (approvedExceptionFor (baseInput compiled t tz' [] [exceptionFor compiled (reason_code (tb_reason b)) t])
        (reason_code (tb_reason b)) None) as [pin|] eqn:Ea; [exfalso|done].
      apply approvedExceptionFor_some in Ea as (x & ([<-|[]] & src & sid & _ & _ & Hl) & _).
      destruct Hl as [_ _ _ _ _ _ (f & _ & Hin & _)]. by apply includes_false in Ei.
Qed.

(** The local clock of the quiet-hours check is the one the evaluator reads. *)
Lemma quiet_passes check : isValidTimeZone (check_timezone check context) = true ->
  check_timezone check context <> "" ->
  (exists probes, probeInstants fuel check now = Ok probes) ->
  passes (quietHoursCheck fuel check context).
Proof using compiles_to.
  intros Hz Hne Hp. apply passes_loop; [done|]. intros t. unfold checked_parts. rewrite Hz.
  cbn [throw_if negb mbind result_bind cx_compiled]. set (tz' := check_timezone check context) in *.
  destruct (js_some _ _) eqn:Eh; [by left|right].
  destruct (compiled_parts _ _ _ compiles_to) as (Hv & _ & _ & Hq & Hh).
  assert (Hzone : resolvedTimezone (baseInput compiled t tz' [] []) None = Some (tz', "CUSTOMER_EXPLICIT")).
  { unfold resolvedTimezone, timezone_chain. cbn [js_find List.find tl_value usable_zone mbind option_bind
      in_customerExplicitTimezone baseInput]. destruct tz' as [|c s]; [done|]. cbn [usable_zone]. by rewrite Hz. }
  assert (Hquiet : withinDeclaredQuietHours (cp_content compiled) (zp_weekday (zonedPartsAt t tz'))
     (zp_hour (zonedPartsAt t tz') * 60 + zp_minute (zonedPartsAt t tz')) =
     anyWindowMatches (quietHours (cp_content compiled)) (zp_weekday (zonedPartsAt t tz'))
       (minute_of_day (zonedPartsAt t tz'))).
  { apply covers_anyWindowMatches. by destruct Hv. }
  rewrite Hquiet. pose proof (probe_plain compiled t tz') as Hpl. unfold probe_result, unzoned in Hpl.
  rewrite Hzone, (bool_decide_eq_false_2 (Some _ = None)), andb_false_r in Hpl by done.
  unfold evaluate_probe. cbn [cx_compiled]. fold tz'. unfold temporal_block in Hpl. rewrite Hzone in Hpl.
  unfold evaluateInstant in Hpl.
  assert (Hn : holiday_blocks (policy_holidays (baseInput compiled t tz' [] []))
     (zonedPartsAt (in_now (baseInput compiled t tz' [] [])) tz') = false).
  { unfold holiday_blocks, policy_holidays, holiday_of. cbn [in_policy in_now baseInput]. rewrite Hh.
    destruct (List.find _ _) as [hol|] eqn:Ef; [|done]. exfalso. apply find_some in Ef as [Hin Hd].
    apply not_true_iff_false in Eh. apply Eh, existsb_exists. eauto. }
  rewrite Hn in Hpl. unfold policy_quietHours in Hpl. cbn [in_policy in_now baseInput preferredWindows] in Hpl.
  rewrite Hq in Hpl.
  destruct (anyWindowMatches (quietHours (cp_content compiled)) _ _) eqn:Ea.
  - assert (Hc : hasTemporalConstraint (baseInput compiled t tz' [] []) None = true).
    { unfold hasTemporalConstraint, policy_quietHours. cbn [in_policy baseInput]. rewrite Hq.
      destruct (quietHours (cp_content compiled)); [done|]. by rewrite (bool_decide_eq_false_2 (_ :: _ = [])), orb_true_r by done. }
    rewrite Hc in Hpl. cbn [negb] in Hpl. injection Hpl as _ -> _.
    rewrite !bool_decide_eq_true_2 by done. done.
  - assert (Hr : go_reasonCode (evaluateCg3Policy (baseInput compiled t tz' [] [])) = None).
    { destruct (negb (hasTemporalConstraint _ _)); cbn in Hpl; by injection Hpl as _ -> _. }
    rewrite Hr. rewrite (bool_decide_eq_false_2 (None = Some _)) by done.
    by rewrite bool_decide_eq_true_2 by done.
Qed.
End PlatformPack.

(** ** Properties *)

Definition probe_stop (check : Cg4PolicyCheck) : Z := default 24 (ck_probeHours check) * 60.
Definition probe_step (check : Cg4PolicyCheck) : Z := default 60 (ck_stepMinutes check).

Definition probe_start `{Runtime} (check : Cg4PolicyCheck) (fallbackFrom : Z) : option Z :=
  match truthy (ck_fromInstant check) with Some s => date_parse s | None => Some fallbackFrom end.

Lemma probeInstants_from `{Runtime} fuel check now from : probe_start check now = Some from ->
  probeInstants fuel check now =
  (fun minutes => map (fun minute => from + minute * 60000) minutes)
    <$> probe_minutes fuel 0 (probe_stop check) (probe_step check).
Proof.
  unfold probe_start, probeInstants, probe_stop, probe_step.
  destruct (truthy _) as [s|]; [destruct (date_parse s)|]; intros [= ->]; cbn [mbind result_bind];
    by destruct (probe_minutes _ _ _ _).
Qed.

(** The probe loop of a fixture check stops exactly when its step is positive or it has
    nothing to probe; a tenant's pack whose step is zero or negative, which nothing refuses, keeps
    it running for ever. When it stops, the probes are the instants at the multiples of the step
    from the start of the check, up to its hours. *)
Theorem probe_loop_terminates_iff `{Runtime} check now from : probe_start check now = Some from ->
  ((exists fuel probes, probeInstants fuel check now = Ok probes) <->
   0 < probe_step check \/ probe_stop check <= 0) /\
  (forall fuel probes, 0 < probe_step check -> probeInstants fuel check now = Ok probes ->
     forall t, In t probes <->
       exists k : nat, Z.of_nat k * probe_step check < probe_stop check /\
         t = from + Z.of_nat k * probe_step check * 60000).
Proof.
  intros Hf. assert (Hp : forall fuel, probeInstants fuel check now = _)
    by (intros fuel; by apply probeInstants_from). split.
  - split.
    + intros (fuel & probes & Hok). rewrite Hp in Hok. inv_result.
      destruct (Z.ltb_spec 0 (probe_step check)); [by left|right].
      destruct (Z.leb_spec (probe_stop check) 0); [done|]. by rewrite probe_step_stuck in *.
    + intros Hs. destruct (Z.leb_spec (probe_stop check) 0).
      * exists 0%nat. rewrite Hp. cbn. destruct (Z.ltb_spec 0 (probe_stop check)); [lia|]. by eexists.
      * destruct Hs as [Hs|Hs]; [|lia].
        destruct (probe_minutes_enough (Z.to_nat (probe_stop check)) 0 (probe_stop check)
          (probe_step check) Hs) as [l Hl]; [lia|].
        exists (Z.to_nat (probe_stop check)). rewrite Hp, Hl. by eexists.
  - intros fuel probes Hs Hok t. rewrite Hp in Hok. inv_result. subst. rewrite in_map_iff.
    match goal with Hm : probe_minutes _ _ _ _ = Ok _ |- _ =>
      setoid_rewrite (probe_minutes_spec _ _ _ _ _ Hs Hm) end. split.
    + intros (m & <- & k & -> & Hk). exists k. split; lia.
    + intros (k & Hk & ->). exists (0 + Z.of_nat k * probe_step check). split; [lia|]. exists k. lia.
Qed.

Definition holiday_kinds : list string :=
  [kind_name CLOSED_HOLIDAY_BLOCKS_WHOLE_LOCAL_DAY; kind_name WINDOWS_HOLIDAY_BLOCKS_OUTSIDE_WINDOWS].

(** What the platform pack needs of the host: its two zones and its two instants. *)
Record platform_host `{Runtime} : Prop := {
  ph_bangkok : isValidTimeZone BANGKOK = true;
  ph_new_york : isValidTimeZone NEW_YORK = true;
  ph_january : is_Some (date_parse "2026-01-05T00:00:00.000Z");
  ph_march : is_Some (date_parse "2026-03-07T12:00:00.000Z");
}.

Lemma probes_found `{Runtime} fuel check now from : probe_start check now = Some from ->
  0 < probe_step check -> probe_stop check <= Z.of_nat fuel ->
  exists probes, probeInstants fuel check now = Ok probes.
Proof.
  intros Hf Hs Hfuel. rewrite (probeInstants_from _ _ _ _ Hf).
  destruct (probe_minutes_enough fuel 0 (probe_stop check) (probe_step check) Hs) as [l ->]; [lia|].
  by eexists.
Qed.

Lemma run_check_passes `{Runtime} sha256 fuel context check kind :
  kind_of (ck_kind check) = Some kind -> passes (CHECK_RUNNERS sha256 fuel check context kind) ->
  exists r, run_check sha256 fuel context check = Ok r /\ cr_pass r = true.
Proof.
  intros Hk (run & Hr & Hf). unfold run_check. rewrite Hk, Hr. cbn. eexists. split; [done|].
  cbn. by rewrite Hf.
Qed.

(** A policy the compiler accepts passes every check of the platform pack that is not about
    its holidays, whatever the pinned time and zone: no hard rule is overridable, a customer's
    BLOCK stands against any approved exception, a defective exception changes nothing, an exact
    one lifts precisely the rules the policy allows, quiet hours follow the local clock and the
    evaluation is reproducible. (The digest of all zeros, which the stale-binding check uses, is
    assumed not to be the policy's own.) *)
Theorem platform_pack_passes `{Runtime} sha256 fuel input compiled now tz check :
  compileCg4Policy sha256 input = Ok compiled ->
  cp_contentDigest compiled <> repeat_char "0"%char 64 ->
  platform_host -> 2880 <= Z.of_nat fuel ->
  In check (fp_checks CG4_PLATFORM_FIXTURE_PACK) -> ~ In (ck_kind check) holiday_kinds ->
  exists r, run_check sha256 fuel (CheckContext_ compiled now tz) check = Ok r /\ cr_pass r = true.
Proof.
  intros Hc Hd [Hb Hn [jan Hj] [mar Hm]] Hfuel Hin Hhol.
  assert (Hpl : forall c, ck_fromInstant c = None -> ck_probeHours c = None -> ck_stepMinutes c = None ->
    exists probes, probeInstants fuel c now = Ok probes).
  { intros c H1 H2 H3. apply (probes_found _ _ _ now); unfold probe_start, probe_step, probe_stop;
      rewrite ?H1, ?H2, ?H3; cbn; [done|lia|lia]. }
  unfold CG4_PLATFORM_FIXTURE_PACK in Hin. cbn [fp_checks] in Hin. rewrite !in_app_iff, !in_map_iff in Hin.
  destruct Hin as [(r & <- & Hr)|[(r & <- & Hr)|[[<-|[]]|[(p & <- & Hp)|Hin]]]].
  - apply (run_check_passes _ _ _ _ HARD_RULE_NOT_OVERRIDABLE); [done|]. by eapply hard_passes.
  - apply (run_check_passes _ _ _ _ CAP_RULE_RISK_FLOOR); [done|]. by apply cap_passes.
  - apply (run_check_passes _ _ _ _ PREFERENCE_BLOCK_NOT_LIFTABLE); [done|].
    apply preference_passes. by apply Hpl.
  - cbn in Hp. destruct Hp as [<-|[<-|[<-|[<-|[<-|[]]]]]]; (eapply run_check_passes; [done|]);
      (apply inert_passes; [by apply Hpl|]); intros t e rule.
    + apply out_of_scope_inert.
    + apply expired_inert.
    + by apply stale_binding_inert.
    + apply outside_allowlist_inert.
    + apply unknown_registry_inert.
  - destruct Hin as [<-|[<-|[<-|[<-|[<-|[<-|[]]]]]]].
    + apply (run_check_passes _ _ _ _ EXCEPTION_IN_SCOPE_LIFTS_ALLOWED_RULE); [done|].
      eapply in_scope_passes; [done|]. by apply Hpl.
    + apply (run_check_passes _ _ _ _ QUIET_HOURS_FOLLOW_LOCAL_CLOCK); [done|].
      eapply quiet_passes; [done..|]. by apply (probes_found _ _ _ jan).
    + apply (run_check_passes _ _ _ _ QUIET_HOURS_FOLLOW_LOCAL_CLOCK); [done|].
      eapply quiet_passes; [done..|]. apply (probes_found _ _ _ mar); cbn; [done|done|].
      unfold probe_stop. cbn. lia.
    + exfalso. apply Hhol. by left.
    + exfalso. apply Hhol. right. by left.
    + apply (run_check_passes _ _ _ _ DETERMINISTIC_REPLAY); [done|]. apply replay_passes.
      apply (probes_found _ _ _ jan); cbn; [done|done|]. unfold probe_stop. cbn. lia.
Qed.

(** ** Witnesses *)

(** A host that knows the two zones of the platform pack, at one offset. *)
Definition two_zone_host : Runtime :=
  {| date_parse := parse_iso;
     intl_time_zone_ok tz := includes [BANGKOK; NEW_YORK] tz;
     intl_parts tz t := intl_of_civil (civil_parts (t + 25200000)) |}.

Definition hanging_check : Cg4PolicyCheck :=
  PolicyCheck "tenant" (kind_name DETERMINISTIC_REPLAY) None None None None None (Some 0).

Lemma probe_loop_terminates_iff_witness :
  probe_start (H := two_zone_host) hanging_check 0 = Some 0 /\
  ~ exists fuel probes, probeInstants (H := two_zone_host) fuel hanging_check 0 = Ok probes.
Proof.
  split; [reflexivity|]. intros Hp.
  destruct (proj1 (proj1 (@probe_loop_terminates_iff two_zone_host hanging_check 0 0 eq_refl)) Hp)
    as [Hs|Hs]; vm_compute in Hs; [discriminate Hs|by apply Hs].
Defined.

Definition preview_sample : Cg4CompiledPolicy := Eval vm_compute in
  match @compileCg4Policy two_zone_host (fun s => "digest") (sample_input sample_fields) with
  | Ok c => c
  | Err _ => sample_policy
  end.

Lemma platform_pack_passes_witness :
  @compileCg4Policy two_zone_host (fun s => "digest") (sample_input sample_fields) = Ok preview_sample /\
  exists r, @run_check two_zone_host (fun s => "digest") 2880 (CheckContext_ preview_sample 0 BANGKOK)
    (PolicyCheck "exception-in-scope-lifts-allowed-rule"
       (kind_name EXCEPTION_IN_SCOPE_LIFTS_ALLOWED_RULE) None None None None None None) = Ok r /\
    cr_pass r = true.
Proof.
  split; [vm_compute; reflexivity|].
  apply (@platform_pack_passes two_zone_host (fun s => "digest") 2880 (sample_input sample_fields)).
  - vm_compute. reflexivity.
  - vm_compute. discriminate.
  - constructor; vm_compute; eauto.
  - vm_compute. discriminate.
  - cbn. do 24 right. by left.
  - vm_compute. intuition discriminate.
Defined.
