(* ===== verification/PolicyChange.v ===== *)
(** * PolicyChange: policy changes seen by the evaluator

    Where the class [classifyCg4PolicyDiff] gives a change and what the change does to decisions of
    [evaluateCg3Policy] part ways. *)
From stdpp Require Import base tactics list strings gmap.
From Stdlib Require Import ZArith Lia.
From S2P Require Import Prelude Text JsDate Contracts RuleRegistry Windows Cg3Facts PolicyCompiler Temporal PolicyDiff ExceptionEval Cg3Evaluator.

Open Scope string_scope.
Open Scope Z_scope.
Open Scope list_scope.

(** The facts a compiled content gives the evaluator. *)
Definition facts_of (version : Z) (c : Cg4PolicyContentV1) : Cg3PolicyFacts :=
  Cg3Policy version (timezoneFallback c) (quietHours c) (callbackMode c) (overridableRules c) (holidays c).

Definition class_between (base candidate : Cg4PolicyContentV1) : Cg4PolicyDiffClass :=
  class_of (diff_changes base candidate).

(** Monday 00:30 in a zone without offset, and another zone seven hours ahead. *)
Definition two_zones : Runtime :=
  {| date_parse := @date_parse (fixed_runtime "UTC" 0 []);
     intl_time_zone_ok tz := bool_decide (tz = "UTC") || bool_decide (tz = "Asia/Bangkok");
     intl_parts tz t :=
       intl_of_civil (civil_parts (t + if bool_decide (tz = "Asia/Bangkok") then 25200000 else 0)) |}.

Definition monday_0030 : Z := 1767573000000.

Definition request (policy : Cg4PolicyContentV1) (preferred : list LocalTimeWindow)
  (callback : option Cg3CallbackFacts) (exceptions : list Cg4ExceptionFacts) : Cg3EvaluationInput :=
  EvaluationInput monday_0030 (Some "identity-1") LINE "MARKETING" None (Some "line-oa") None None None
    [PreferenceCandidate 1 None None None None (Some P_ALLOW) None preferred]
    (Some (facts_of 1 policy)) callback (Some "JOURNEY") (Some "journey-1") exceptions.

Definition callback (approvedExceptionId : option string) (expiresAt : string) : Cg3CallbackFacts :=
  CallbackFacts "callback-1" (Some "identity-1") LINE "MARKETING" expiresAt approvedExceptionId.

Definition live_callback : Cg3CallbackFacts := callback None "2026-01-06T00:00:00.000Z".

Definition monday_quiet (zone : string) (mode : Cg3CallbackMode) : Cg4PolicyContentV1 :=
  PolicyContent (Some zone) [Window [1] "00:00" "01:00"] mode ["QUIET_HOURS"] [] [].

Definition decides `{Runtime} (input : Cg3EvaluationInput) : option ContactDecision * option string :=
  (go_decision (evaluateCg3Policy input), go_reasonCode (evaluateCg3Policy input)).

(** Replacing [TIME_POLICY_OVERRIDE] by [SCOPED_OVERRIDE] is classified as a tightening, yet a
    request that the former sends to review (its callback names no exception) passes under the
    latter: the diff ranks the mode that also demands an approved exception as the looser one. *)
Theorem callback_rank_divergence :
  let base := monday_quiet "UTC" TIME_POLICY_OVERRIDE in
  let candidate := monday_quiet "UTC" SCOPED_OVERRIDE in
  class_between base candidate = C_TIGHTENING /\
  @decides two_zones (request base [] (Some live_callback) [])
    = (Some REVIEW, Some "EXCEPTION_APPROVAL_REQUIRED") /\
  @decides two_zones (request candidate [] (Some live_callback) []) = (None, None).
Proof. vm_compute. repeat split. Qed.

(** Adding quiet hours is classified as a tightening, yet it can let a request pass that was
    refused: the evaluator reports the first blocking rule only, so the new quiet hours, which a
    callback may override, hide the closed preference window, which it may not. *)
Theorem quiet_hours_mask_preference :
  let base := PolicyContent (Some "UTC") [] SCOPED_OVERRIDE ["QUIET_HOURS"] [] [] in
  let candidate := monday_quiet "UTC" SCOPED_OVERRIDE in
  let preferred := [Window [1] "09:00" "10:00"] in
  class_between base candidate = C_TIGHTENING /\
  @decides two_zones (request base preferred (Some live_callback) [])
    = (Some DEFER, Some "PREFERENCE_WINDOW_CLOSED") /\
  @decides two_zones (request candidate preferred (Some live_callback) []) = (None, None).
Proof. vm_compute. repeat split. Qed.

(** With neither quiet hours nor holidays a change of the fallback zone is classified as
    neutral, yet it decides: the zone is also the one preferred windows are read in. *)
Theorem neutral_zone_divergence :
  let base := PolicyContent (Some "UTC") [] NO_OVERRIDE [] [] [] in
  let candidate := PolicyContent (Some "Asia/Bangkok") [] NO_OVERRIDE [] [] [] in
  let preferred := [Window [1] "07:00" "08:00"] in
  class_between base candidate = C_NEUTRAL /\
  @decides two_zones (request base preferred None [])
    = (Some DEFER, Some "PREFERENCE_WINDOW_CLOSED") /\
  @decides two_zones (request candidate preferred None []) = (None, None).
Proof. vm_compute. repeat split. Qed.

Definition quiet_exception : Cg4ExceptionFacts :=
  ExceptionFacts "series-1" "rev-1" 1 W_APPROVED (Some "identity-1") EXACT_IDENTITY LINE "MARKETING"
    "JOURNEY" "journey-1" ["QUIET_HOURS"] "policy-1" "pv-1" 1 "digest" (Some "digest") ["QUIET_HOURS"]
    CG4_RULE_REGISTRY_VERSION (monday_0030 - 1000) (monday_0030 + 3600000) STANDARD "content" "approval".

(** In [TIME_POLICY_OVERRIDE] a customer callback can cost the request the exception it
    already had. The exception alone lifts the block; with a callback that names no series the
    evaluator counts on the callback (finding the exception), skips the exception, and then asks
    the callback for the series it never named. And an expiry that is no date never expires. *)
Theorem callback_blocks_exception :
  let policy := monday_quiet "UTC" TIME_POLICY_OVERRIDE in
  @decides two_zones (request policy [] None [quiet_exception]) = (None, None) /\
  @decides two_zones (request policy [] (Some live_callback) [quiet_exception])
    = (Some REVIEW, Some "EXCEPTION_APPROVAL_REQUIRED") /\
  @decides two_zones (request (monday_quiet "UTC" SCOPED_OVERRIDE) [] (Some (callback None "soon")) [])
    = (None, None).
Proof. vm_compute. repeat split. Qed.
