(* ===== verification/Authorization.v ===== *)
(** * Authorization: maker-checker authorization and quorum

    [apps/contact-governance/src/cg4-authorization-engine.ts]. *)
From stdpp Require Import base tactics list strings.
From Stdlib Require Import ZArith Lia Sorting.Permutation.
From S2P Require Import Prelude JsMap Text JsDate Contracts.

Open Scope string_scope.
Open Scope Z_scope.
Open Scope list_scope.

Inductive AuthorizationError :=
  | CAPABILITY_REQUIRED (capability : Cg4Capability)
  | SELF_APPROVAL_FORBIDDEN
  | FORBIDDEN_DUPLICATE_CHECKER
  | DELEGATION_NOT_ALLOWED
  | APPROVAL_STALE
  | QUORUM_NOT_MET (required current : Z)
  | WINDOW_RANGE_ERROR.
#[export] Instance AuthorizationError_eq_dec : EqDecision AuthorizationError.
Proof. solve_decision. Defined.

Abbreviation authorized := (result AuthorizationError).

(** [!grant.expiresAt || new Date(grant.expiresAt) > now] *)
Definition grant_live `{Runtime} (grant : Cg4CapabilityGrant) (now : Z) : bool :=
  match cgr_expiresAt grant with
  | None | Some "" => true
  | Some s => match date_parse s with Some t => now <? t | None => false end
  end.

Definition findActiveGrant `{Runtime} (subject : Cg4AuthorizationSubject) (capability : Cg4Capability)
  (scopeKey : string) (now : Z) : option Cg4CapabilityGrant :=
  js_find (fun grant => bool_decide (cgr_capability grant = capability) &&
                        bool_decide (cgr_scopeKey grant = scopeKey) &&
                        grant_live grant now) (sub_capabilities subject).

Definition assertDelegationAllowed (capability : Cg4Capability) (grant : Cg4CapabilityGrant)
  : authorized unit :=
  throw_if (bool_decide (cgr_source grant = DELEGATED) &&
            negb (includes CG4_DELEGABLE_CAPABILITIES capability)) DELEGATION_NOT_ALLOWED.

Definition required_grant `{Runtime} (subject : Cg4AuthorizationSubject) (capability : Cg4Capability)
  (scopeKey : string) (now : Z) : authorized Cg4CapabilityGrant :=
  match findActiveGrant subject capability scopeKey now with
  | None => Err (CAPABILITY_REQUIRED capability)
  | Some grant => assertDelegationAllowed capability grant ;; Ok grant
  end.

Definition assertCg4RequestAuthorization `{Runtime} (subject : Cg4AuthorizationSubject)
  (capability : Cg4Capability) (scopeKey : string) (now : Z) : authorized unit :=
  required_grant subject capability scopeKey now ;; Ok tt.

Record AssertCg4ApprovalAuthorizationInput := ApprovalInput {
  ai_requiredCapability : Cg4Capability;
  ai_checker : Cg4AuthorizationSubject;
  ai_scopeKey : string;
  ai_makerSubjectId : string;
  ai_existingApprovals : list Cg4RecordedApproval;
  ai_now : Z;
}.

Definition assertCg4ApprovalAuthorization `{Runtime} (input : AssertCg4ApprovalAuthorizationInput)
  : authorized Cg4CapabilityGrant :=
  let checker := sub_subjectId (ai_checker input) in
  throw_if (bool_decide (checker = ai_makerSubjectId input)) SELF_APPROVAL_FORBIDDEN ;;
  throw_if (js_some (fun a => bool_decide (ra_checkerSubjectId a = checker))
              (ai_existingApprovals input)) FORBIDDEN_DUPLICATE_CHECKER ;;
  required_grant (ai_checker input) (ai_requiredCapability input) (ai_scopeKey input) (ai_now input).

Definition isCg4ApprovalStale (approval : Cg4RecordedApproval) (currentSubject : Cg4AuthorizationSubject)
  : bool :=
  negb (ra_authorizationEpoch approval =? sub_authorizationEpoch currentSubject) ||
  negb (ra_scopeVersion approval =? sub_scopeVersion currentSubject).

Definition assertCg4ApprovalFresh (approval : Cg4RecordedApproval)
  (currentSubject : Cg4AuthorizationSubject) : authorized unit :=
  throw_if (isCg4ApprovalStale approval currentSubject) APPROVAL_STALE.

Definition resolveCg4RequiredExceptionCapability (tier : Cg4ExceptionRiskTier) : Cg4Capability :=
  if bool_decide (tier = STANDARD) then CG_EXCEPTION_APPROVE_STANDARD else CG_EXCEPTION_APPROVE_HIGH.

Definition resolveCg4RequiredPolicyCapability (diffClass : Cg4PolicyDiffClass) : Cg4Capability :=
  if bool_decide (diffClass = C_RELAXATION) then CG_POLICY_PUBLISH_RELAXATION else CG_POLICY_PUBLISH.

(** The [Map] keyed by checker: the last vote of each, in the order of their first votes. *)
Definition distinctBySubject (approvals : list Cg4RecordedApproval)
  : list (string * Cg4RecordedApproval) :=
  fold_left (fun m approval => map_set (ra_checkerSubjectId approval) approval m) approvals [].

Definition count_if {A} (f : A -> bool) (l : list A) : Z := Z.of_nat (length (js_filter f l)).

(** [new Date(decidedAt).getTime() + window * 1000] *)
Definition ack_deadline `{Runtime} (activation : Cg4RecordedApproval) (windowSeconds : Z) : option Z :=
  (fun t => t + windowSeconds * 1000) <$> date_parse (ra_decidedAt activation).

Definition evaluateCg4Quorum `{Runtime} (requirement : Cg4QuorumRequirement)
  (approvals : list Cg4RecordedApproval) (rejected : bool) (now : Z) : Cg4QuorumEvaluation :=
  let distinct := map_values (distinctBySubject approvals) in
  let current := Z.of_nat (length distinct) in
  let evaluation status :=
    QuorumEvaluation status (qr_requiredApprovers requirement) current
      (map ra_checkerSubjectId distinct) in
  let quorumSizeMet := qr_requiredApprovers requirement <=? current in
  let complianceMet :=
    qr_requireDirectCompliance requirement <=? count_if ra_directComplianceAuthority distinct in
  let emergencyMet :=
    qr_requireEmergencyAuthority requirement <=? count_if ra_emergencyAuthority distinct in
  if rejected then evaluation Q_REJECTED
  else
    match qr_emergencyAcknowledgementWindowSeconds requirement with
    | Some windowSeconds =>
        match js_find ra_emergencyAuthority distinct with
        | None => evaluation Q_PENDING
        | Some activation =>
            if quorumSizeMet && complianceMet && emergencyMet then evaluation Q_MET
            else if num_gt (Some now) (ack_deadline activation windowSeconds)
            then evaluation Q_EMERGENCY_ACK_EXPIRED
            else evaluation Q_EMERGENCY_ACTIVATED_ACK_PENDING
        end
    | None => evaluation (if quorumSizeMet && complianceMet then Q_MET else Q_PENDING)
    end.

Definition assertCg4QuorumMet (evaluation : Cg4QuorumEvaluation) : authorized unit :=
  throw_if (negb (bool_decide (qe_status evaluation = Q_MET)))
    (QUORUM_NOT_MET (qe_required evaluation) (qe_current evaluation)).

Definition CG4_DELEGATION_MAX_WINDOW_MS : Z := 8 * 60 * 60 * 1000.

Record AssertCg4DelegationGrantAllowedInput := DelegationInput {
  di_capability : Cg4Capability;
  di_delegatorSubjectId : string;
  di_delegateSubjectId : string;
  di_delegatorHoldsCapabilityDirectly : bool;
  di_delegateIsServicePrincipal : bool;
  di_startsAt : Z;
  di_expiresAt : Z;
}.

Definition assertCg4DelegationGrantAllowed (input : AssertCg4DelegationGrantAllowedInput)
  : authorized unit :=
  throw_if (negb (includes CG4_DELEGABLE_CAPABILITIES (di_capability input))) DELEGATION_NOT_ALLOWED ;;
  throw_if (bool_decide (di_delegatorSubjectId input = di_delegateSubjectId input))
    DELEGATION_NOT_ALLOWED ;;
  throw_if (negb (di_delegatorHoldsCapabilityDirectly input)) DELEGATION_NOT_ALLOWED ;;
  throw_if (di_delegateIsServicePrincipal input) DELEGATION_NOT_ALLOWED ;;
  throw_if (di_expiresAt input <=? di_startsAt input) WINDOW_RANGE_ERROR ;;
  throw_if (CG4_DELEGATION_MAX_WINDOW_MS <? di_expiresAt input - di_startsAt input)
    DELEGATION_NOT_ALLOWED.

(** ** Votes *)

(** The last vote of a checker. *)
Definition last_vote (approvals : list Cg4RecordedApproval) (subject : string)
  : option Cg4RecordedApproval :=
  js_find (fun a => bool_decide (ra_checkerSubjectId a = subject)) (rev approvals).

Lemma distinctBySubject_app approvals a :
  distinctBySubject (approvals ++ [a]) = map_set (ra_checkerSubjectId a) a (distinctBySubject approvals).
Proof. unfold distinctBySubject. by rewrite fold_left_app. Qed.

Lemma distinctBySubject_spec approvals :
  map_wf (distinctBySubject approvals) /\
  (forall s, map_get s (distinctBySubject approvals) = last_vote approvals s) /\
  (forall s, In s (map_keys (distinctBySubject approvals)) <->
             In s (map ra_checkerSubjectId approvals)).
Proof.
  induction approvals as [|a approvals (Hwf & Hget & Hkeys)] using rev_ind.
  - repeat split; [constructor|done|done].
  - rewrite distinctBySubject_app. split; [by apply map_set_wf|]. split.
    + intros s. unfold last_vote. rewrite rev_app_distr. cbn. fold (last_vote approvals s).
      case_bool_decide as Hs; [subst; apply map_get_set_eq|].
      rewrite map_get_set_ne by done. apply Hget.
    + intros s. rewrite map_set_keys_In, Hkeys, map_app, in_app_iff. cbn. naive_solver.
Qed.

Lemma distinctBySubject_keys approvals k a :
  In (k, a) (distinctBySubject approvals) -> k = ra_checkerSubjectId a.
Proof.
  induction approvals as [|b approvals IH] using rev_ind; [done|].
  rewrite distinctBySubject_app. intros Hin. apply map_set_In in Hin as [[-> ->]|Hin]; auto.
Qed.

(** The votes that count: one per checker, the last. *)
Definition counted (approvals : list Cg4RecordedApproval) : list Cg4RecordedApproval :=
  map_values (distinctBySubject approvals).

Lemma counted_subjects approvals :
  map ra_checkerSubjectId (counted approvals) = map_keys (distinctBySubject approvals).
Proof.
  unfold counted, map_values, map_keys. rewrite map_map. apply map_ext_in.
  intros [k a] Hin. symmetry. by eapply distinctBySubject_keys.
Qed.

Lemma counted_In approvals a :
  In a (counted approvals) <-> last_vote approvals (ra_checkerSubjectId a) = Some a.
Proof.
  destruct (distinctBySubject_spec approvals) as (Hwf & Hget & _). rewrite <- Hget.
  unfold counted, map_values. rewrite in_map_iff. split.
  - intros ([k b] & <- & Hin). pose proof (distinctBySubject_keys _ _ _ Hin) as ->.
    by apply map_get_wf.
  - intros H. apply map_get_In in H. by eexists (_, _).
Qed.

Lemma counted_NoDup approvals : List.NoDup (map ra_checkerSubjectId (counted approvals)).
Proof. rewrite counted_subjects. apply distinctBySubject_spec. Qed.

Lemma counted_members approvals s :
  In s (map ra_checkerSubjectId (counted approvals)) <-> In s (map ra_checkerSubjectId approvals).
Proof. rewrite counted_subjects. apply distinctBySubject_spec. Qed.

(** When no checker votes twice, every vote counts. *)
Lemma distinctBySubject_fresh approvals :
  List.NoDup (map ra_checkerSubjectId approvals) ->
  distinctBySubject approvals = map (fun a => (ra_checkerSubjectId a, a)) approvals.
Proof.
  induction approvals as [|a approvals IH] using rev_ind; [done|].
  rewrite map_app. intros Hnd. rewrite distinctBySubject_app, map_app. cbn.
  assert (Hnd' : List.NoDup (map ra_checkerSubjectId approvals)) by by eapply NoDup_app_remove_r.
  assert (Hni : ~ In (ra_checkerSubjectId a) (map ra_checkerSubjectId approvals)).
  { intros Hin. apply (NoDup_remove_2 _ [] _ Hnd). by rewrite app_nil_r. }
  rewrite IH by done. clear -Hni. induction approvals as [|b approvals IH]; [done|]. cbn in *.
  rewrite bool_decide_eq_false_2 by tauto. f_equal. apply IH. tauto.
Qed.

Lemma counted_fresh approvals :
  List.NoDup (map ra_checkerSubjectId approvals) -> counted approvals = approvals.
Proof.
  intros Hnd. unfold counted. rewrite distinctBySubject_fresh by done.
  unfold map_values. rewrite map_map. cbn. apply map_id.
Qed.

(** The status of a quorum without an acknowledgement window, and with one. *)
Definition enough (requirement : Cg4QuorumRequirement) (votes : list Cg4RecordedApproval) : Prop :=
  qr_requiredApprovers requirement <= Z.of_nat (length votes) /\
  qr_requireDirectCompliance requirement <= count_if ra_directComplianceAuthority votes /\
  (qr_emergencyAcknowledgementWindowSeconds requirement <> None ->
     qr_requireEmergencyAuthority requirement <= count_if ra_emergencyAuthority votes /\
     exists a, In a votes /\ ra_emergencyAuthority a = true).

Lemma count_if_witness {A} (p : A -> bool) l : 1 <= count_if p l -> exists a, In a l /\ p a = true.
Proof.
  unfold count_if. destruct (js_filter p l) as [|a l'] eqn:E; cbn; [lia|]. intros _.
  exists a. apply filter_In. rewrite E. by left.
Qed.

Lemma quorum_met_iff `{Runtime} requirement approvals rejected now :
  qe_status (evaluateCg4Quorum requirement approvals rejected now) = Q_MET <->
  rejected = false /\ enough requirement (counted approvals).
Proof.
  unfold evaluateCg4Quorum, enough. fold (counted approvals). set (votes := counted approvals).
  cbv zeta. destruct rejected; [by split; [|intros [? _]]|].
  destruct (qr_emergencyAcknowledgementWindowSeconds requirement) as [w|].
  - destruct (js_find ra_emergencyAuthority votes) as [a|] eqn:Ef.
    + apply find_some in Ef as [Ha He]. generalize (num_gt (Some now) (ack_deadline a w)) as late.
      intros late.
      destruct (Z.leb_spec (qr_requiredApprovers requirement) (Z.of_nat (length votes))),
        (Z.leb_spec (qr_requireDirectCompliance requirement) (count_if ra_directComplianceAuthority votes)),
        (Z.leb_spec (qr_requireEmergencyAuthority requirement) (count_if ra_emergencyAuthority votes));
        cbn; try (by destruct late; (split; [done|]); intros (_ & ? & ? & Hw);
                     destruct (Hw ltac:(done)); lia).
      split; [|done]. intros _. repeat split; eauto; lia.
    + cbn. split; [done|]. intros (_ & _ & _ & Hw). destruct Hw as (_ & a & Ha & He); [done|].
      pose proof (find_none _ _ Ef a Ha). congruence.
  - destruct (Z.leb_spec (qr_requiredApprovers requirement) (Z.of_nat (length votes))),
      (Z.leb_spec (qr_requireDirectCompliance requirement) (count_if ra_directComplianceAuthority votes));
      cbn; (split; [try done|]); try (intros (_ & ? & ? & _); lia); try done.
Qed.

(** ** Grants *)

(** A grant that covers the capability in exactly the scope, and has not expired. *)
Definition covers_now `{Runtime} (capability : Cg4Capability) (scopeKey : string) (now : Z)
  (g : Cg4CapabilityGrant) : Prop :=
  cgr_capability g = capability /\ cgr_scopeKey g = scopeKey /\ grant_live g now = true.

Lemma find_first {A} (f : A -> bool) l x : js_find f l = Some x <->
  exists before after, l = before ++ x :: after /\ f x = true /\ forall y, In y before -> f y = false.
Proof.
  split.
  - induction l as [|y l IH]; cbn; [done|]. destruct (f y) eqn:E.
    + intros [= <-]. by exists [], l.
    + intros Hf. destruct (IH Hf) as (b & a & -> & Hx & Hb). exists (y :: b), a.
      split; [done|]. split; [done|]. intros z [<-|Hz]; auto.
  - intros (b & a & -> & Hx & Hb). induction b as [|y b IH]; cbn; [by rewrite Hx|].
    rewrite Hb by (by left). apply IH. intros z Hz. apply Hb. by right.
Qed.

Lemma findActiveGrant_spec `{Runtime} subject capability scopeKey now g :
  findActiveGrant subject capability scopeKey now = Some g <->
  exists before after, sub_capabilities subject = before ++ g :: after /\
    covers_now capability scopeKey now g /\
    forall g', In g' before -> ~ covers_now capability scopeKey now g'.
Proof.
  unfold findActiveGrant, covers_now. rewrite find_first.
  assert (Hc : forall g, bool_decide (cgr_capability g = capability) &&
    bool_decide (cgr_scopeKey g = scopeKey) && grant_live g now = true <->
    cgr_capability g = capability /\ cgr_scopeKey g = scopeKey /\ grant_live g now = true).
  { intros x. rewrite !andb_true_iff, !bool_decide_eq_true. tauto. }
  split; intros (b & a & Hl & Hg & Hb); exists b, a; (split; [done|]); (split; [by apply Hc|]);
    intros y Hy.
  - rewrite <- Hc. rewrite (Hb y Hy). done.
  - apply not_true_is_false. rewrite Hc. by apply Hb.
Qed.

Lemma required_grant_ok `{Runtime} subject capability scopeKey now g :
  required_grant subject capability scopeKey now = Ok g <->
  findActiveGrant subject capability scopeKey now = Some g /\
  (cgr_source g = DELEGATED -> In capability CG4_DELEGABLE_CAPABILITIES).
Proof.
  unfold required_grant. destruct (findActiveGrant _ _ _ _) as [g'|]; [|naive_solver].
  unfold assertDelegationAllowed. case_bool_decide as Ed; cbn; [|naive_solver].
  destruct (includes CG4_DELEGABLE_CAPABILITIES capability) eqn:Ei; cbn.
  - apply includes_spec in Ei. naive_solver.
  - apply includes_false in Ei. split; [done|]. intros [[= ->] Hd]. by destruct Ei; apply Hd.
Qed.

(** Who may vote. A checker's vote is authorized exactly when the checker is not the maker,
    has not voted on this revision before, and the first of the checker's grants that covers the
    required capability in exactly this scope and has not expired may back it: a delegated
    grant only where the capability is delegable, hence never above the STANDARD tier. *)
Theorem approval_authorized_iff `{Runtime} i g :
  (assertCg4ApprovalAuthorization i = Ok g <->
     sub_subjectId (ai_checker i) <> ai_makerSubjectId i /\
     ~ In (sub_subjectId (ai_checker i)) (map ra_checkerSubjectId (ai_existingApprovals i)) /\
     (exists before after, sub_capabilities (ai_checker i) = before ++ g :: after /\
        covers_now (ai_requiredCapability i) (ai_scopeKey i) (ai_now i) g /\
        forall g', In g' before -> ~ covers_now (ai_requiredCapability i) (ai_scopeKey i) (ai_now i) g') /\
     (cgr_source g = DELEGATED -> In (ai_requiredCapability i) CG4_DELEGABLE_CAPABILITIES)) /\
  (forall tier, assertCg4ApprovalAuthorization i = Ok g ->
     ai_requiredCapability i = resolveCg4RequiredExceptionCapability tier ->
     cgr_source g = DELEGATED -> tier = STANDARD).
Proof.
  assert (Hiff : assertCg4ApprovalAuthorization i = Ok g <->
     sub_subjectId (ai_checker i) <> ai_makerSubjectId i /\
     ~ In (sub_subjectId (ai_checker i)) (map ra_checkerSubjectId (ai_existingApprovals i)) /\
     required_grant (ai_checker i) (ai_requiredCapability i) (ai_scopeKey i) (ai_now i) = Ok g).
  { unfold assertCg4ApprovalAuthorization. case_bool_decide; cbn; [naive_solver|].
    assert (Hs : js_some (fun a => bool_decide (ra_checkerSubjectId a = sub_subjectId (ai_checker i)))
                   (ai_existingApprovals i) = true <->
                 In (sub_subjectId (ai_checker i)) (map ra_checkerSubjectId (ai_existingApprovals i))).
    { rewrite existsb_exists, in_map_iff. setoid_rewrite bool_decide_eq_true. naive_solver. }
    destruct (js_some _ _); cbn; naive_solver. }
  rewrite required_grant_ok, findActiveGrant_spec in Hiff. split; [done|].
  intros tier Hok Hcap Hd. apply Hiff in Hok as (_ & _ & _ & Hdel). specialize (Hdel Hd).
  rewrite Hcap in Hdel. unfold resolveCg4RequiredExceptionCapability in Hdel.
  case_bool_decide; [done|]. by destruct Hdel as [|[|[]]].
Qed.

(** The quorum counts people. Whatever the votes and their order, each checker appears once
    and counts with the last vote only; the quorum is met exactly when no rejection stands and
    the votes that count reach the required number, the required number with direct Compliance
    authority and, for an emergency, the required number with emergency authority. *)
Theorem quorum_counts_people `{Runtime} requirement approvals rejected now :
  let e := evaluateCg4Quorum requirement approvals rejected now in
  List.NoDup (qe_distinctApprovers e) /\
  (forall s, In s (qe_distinctApprovers e) <-> In s (map ra_checkerSubjectId approvals)) /\
  qe_current e = Z.of_nat (length (qe_distinctApprovers e)) /\
  (forall a, In a (counted approvals) <-> last_vote approvals (ra_checkerSubjectId a) = Some a) /\
  (qe_status e = Q_MET <-> rejected = false /\ enough requirement (counted approvals)) /\
  (assertCg4QuorumMet e = Ok tt <-> qe_status e = Q_MET).
Proof.
  intros e.
  assert (Ha : qe_distinctApprovers e = map ra_checkerSubjectId (counted approvals) /\
               qe_current e = Z.of_nat (length (counted approvals))).
  { unfold e, evaluateCg4Quorum. fold (counted approvals). repeat case_match; done. }
  destruct Ha as [-> ->]. split; [apply counted_NoDup|]. split; [apply counted_members|].
  split; [by rewrite length_map|]. split; [intros; apply counted_In|].
  split; [apply quorum_met_iff|]. unfold assertCg4QuorumMet. case_bool_decide; cbn; naive_solver.
Qed.

(** A delegation is granted exactly when its capability is delegable, its two subjects
    differ, the delegator holds the capability directly, the delegate is a person, and it lasts
    more than nothing and at most eight hours. *)
Theorem delegation_granted_iff i :
  assertCg4DelegationGrantAllowed i = Ok tt <->
  In (di_capability i) CG4_DELEGABLE_CAPABILITIES /\
  di_delegatorSubjectId i <> di_delegateSubjectId i /\
  di_delegatorHoldsCapabilityDirectly i = true /\ di_delegateIsServicePrincipal i = false /\
  0 < di_expiresAt i - di_startsAt i <= 8 * 60 * 60 * 1000.
Proof.
  unfold assertCg4DelegationGrantAllowed, CG4_DELEGATION_MAX_WINDOW_MS.
  destruct (includes CG4_DELEGABLE_CAPABILITIES (di_capability i)) eqn:E; cbn.
  2:{ apply includes_false in E. naive_solver. }
  apply includes_spec in E. case_bool_decide; cbn; [naive_solver|].
  destruct (di_delegatorHoldsCapabilityDirectly i); cbn; [|naive_solver].
  destruct (di_delegateIsServicePrincipal i); cbn; [naive_solver|].
  destruct (Z.leb_spec (di_expiresAt i) (di_startsAt i)); cbn.
  - split; [done|]. intros (_ & _ & _ & _ & Hr). lia.
  - change (8 * 60 * 60 * 1000) with 28800000.
    destruct (Z.ltb_spec 28800000 (di_expiresAt i - di_startsAt i)); cbn.
    + split; [done|]. intros (_ & _ & _ & _ & Hr). lia.
    + split; [|done]. intros _. repeat split; try done; lia.
Qed.

Definition vote (subject : string) (compliance emergency : bool) (decidedAt : string) : Cg4RecordedApproval :=
  RecordedApproval subject CG_EXCEPTION_APPROVE_HIGH compliance emergency DIRECT None 1 1 decidedAt.

Definition noon : Runtime := fixed_runtime "UTC" 0 [].

(** The emergency acknowledgement is not what the comment of [evaluateCg4Quorum] says. A
    second vote a day after the activation, far past the fifteen-minute window, still meets the
    quorum; and the Compliance authority it should bring may be the activator's own, the second
    voter having none. *)
Theorem emergency_acknowledgement_divergence :
  let activation := vote "activator" true true "2026-01-01T00:00:00.000Z" in
  let late := vote "bystander" false false "2026-01-02T00:00:00.000Z" in
  let requirement := resolveCg4ExceptionQuorum EMERGENCY in
  let deadline := 1767225600000 + 15 * 60 * 1000 in
  let after := 1767312000000 in
  qe_status (@evaluateCg4Quorum noon requirement [activation] false (deadline + 1)) = Q_EMERGENCY_ACK_EXPIRED /\
  qe_status (@evaluateCg4Quorum noon requirement [activation; late] false after) = Q_MET.
Proof. vm_compute. repeat split. Qed.
