(* ===== verification/Persistence.v ===== *)
(** * Persistence: what every repository of Contact Governance uses

    The digest of [apps/contact-governance/src/cg3-persistence.ts], the identifiers and the
    collation the source takes from its host, the command receipts, [updateMany] over the rows of a
    table, and a concrete host for worked histories. *)
From stdpp Require Import base tactics list strings.
From Stdlib Require Import ZArith Lia Ascii Sorting.Permutation.
From S2P Require Import Prelude JsMap Text JsValue.

Open Scope string_scope.
Open Scope Z_scope.
Open Scope list_scope.

(** ** Digests *)

(** What the source takes from its host: SHA-256, the order of [localeCompare], [randomUUID] as
    the sequence of the identifiers it returns. *)
Class Host := {
  sha256_hex : string -> string;
  locale_le : string -> string -> bool;
  fresh : nat -> string;
}.

(** [stableValue] and [stableDigest] of [cg3-persistence.ts], on values without undefined fields. *)
Fixpoint stableValue `{Host} (value : jsval) : jsval :=
  match value with
  | JArr l => JArr (map stableValue l)
  | JObj fs | JInstance fs =>
      JObj (sort_by (fun a b => locale_le (fst a) (fst b))
              (map (fun f => (fst f, stableValue (snd f))) fs))
  | _ => value
  end.

Definition stableDigest `{Host} (value : jsval) : string := sha256_hex (json_print (stableValue value)).

(** A command receipt: the hash of the request that made it and the response it got. *)
Definition receipts (R : Type) : Type := list (string * (string * R)).

(** [if (!value) throw e;] on what a query found. *)
Definition from_option {E A} (o : option A) (e : E) : result E A :=
  match o with Some a => Ok a | None => Err e end.

Lemma from_option_ok {E A} (o : option A) (e : E) a : from_option o e = Ok a <-> o = Some a.
Proof. destruct o; cbn; naive_solver. Qed.

Definition text_or_null (o : option string) : jsval :=
  match o with Some s => JStr s | None => JNull end.

(** ** [updateMany]: the rows that match are rewritten, and counted *)

Definition update_where {A} (p : A -> bool) (f : A -> A) (rows : list A) : list A :=
  map (fun r => if p r then f r else r) rows.

Definition count_where {A} (p : A -> bool) (rows : list A) : Z := Z.of_nat (length (js_filter p rows)).

Section UpdateWhere.
Context {A : Type}.
Implicit Types (p q : A -> bool) (f : A -> A) (rows : list A).

Lemma update_where_In p f rows x : In x (update_where p f rows) <->
  exists r, In r rows /\ x = if p r then f r else r.
Proof. unfold update_where. rewrite in_map_iff. naive_solver. Qed.

Lemma update_where_keep p f rows r : In r rows -> p r = false -> In r (update_where p f rows).
Proof. intros Hr Hp. apply update_where_In. exists r. by rewrite Hp. Qed.

Lemma update_where_hit p f rows r : In r rows -> p r = true -> In (f r) (update_where p f rows).
Proof. intros Hr Hp. apply update_where_In. exists r. by rewrite Hp. Qed.

(** A projection the update does not touch. *)
Lemma update_where_map {B} (g : A -> B) p f rows : (forall r, g (f r) = g r) ->
  map g (update_where p f rows) = map g rows.
Proof.
  intros Hg. unfold update_where. rewrite map_map. apply map_ext. intros r.
  by destruct (p r).
Qed.

Lemma count_where_pos p rows : 0 < count_where p rows <-> exists r, In r rows /\ p r = true.
Proof.
  unfold count_where. split.
  - intros H. destruct (js_filter p rows) as [|r l] eqn:E; [cbn in H; lia|]. exists r.
    apply filter_In. rewrite E. by left.
  - intros (r & Hr & Hp). assert (Hin : In r (js_filter p rows)) by by apply filter_In.
    destruct (js_filter p rows); [done|cbn; lia].
Qed.

Lemma count_where_one p rows : count_where p rows = 1 -> exists r, In r rows /\ p r = true /\
  forall r', In r' rows -> p r' = true -> r' = r.
Proof.
  unfold count_where. intros H. destruct (js_filter p rows) as [|r [|r2 l]] eqn:E; cbn in H; try lia.
  assert (Hf : forall x, In x rows /\ p x = true <-> x = r).
  { intros x. rewrite <- filter_In, E. cbn. naive_solver. }
  exists r. destruct (proj2 (Hf r) eq_refl). split; [done|]. split; [done|].
  intros r' Hr' Hp'. by apply Hf.
Qed.
End UpdateWhere.

(** ** A concrete host *)

(** A checksum stands for SHA-256. *)
Fixpoint checksum (s : string) (acc : Z) : Z :=
  match s with
  | EmptyString => acc
  | String c s' => checksum s' ((acc * 31 + Z.of_nat (nat_of_ascii c)) mod 2 ^ 61)
  end.

Definition demo_host : Host :=
  {| sha256_hex s := show (checksum s 7); locale_le := str_le; fresh n := show (Z.of_nat n) |}.

Lemma demo_fresh_inj m n : @fresh demo_host m = @fresh demo_host n -> m = n.
Proof. cbn. intros Hs. apply show_inj in Hs. lia. Qed.

Lemma demo_fresh_some n : @fresh demo_host n <> "".
Proof.
  assert (Hs : forall f m acc, acc <> "" -> show_fuel f m acc <> "").
  { induction f as [|f IH]; intros m acc Hacc; cbn; [done|].
    destruct (m / 10 =? 0); [done|by apply IH]. }
  cbn. unfold show. destruct (Z.ltb_spec (Z.of_nat n) 0); [done|]. unfold show_nonneg. cbn.
  destruct (_ =? 0); [done|by apply Hs].
Qed.

(** ** Rows that a table keeps in place *)

(** Lists related row by row agree on what the relation keeps, and each row has its counterpart. *)
Lemma Forall2_map_eq {A B} (R : A -> A -> Prop) (f : A -> B) l l' : (forall x y, R x y -> f y = f x) ->
  Forall2 R l l' -> map f l' = map f l.
Proof. intros Hf. induction 1 as [|x y l l' Hxy _ IH]; [done|]. cbn. by rewrite IH, (Hf x y). Qed.

Lemma Forall2_In_l {A} (R : A -> A -> Prop) l l' x : Forall2 R l l' -> In x l -> exists y, In y l' /\ R x y.
Proof. induction 1 as [|a b l l' Hab _ IH]; cbn; [done|]. intros [->|Hx]; [eauto|]. destruct (IH Hx) as (y & ? & ?). eauto. Qed.

Lemma Forall2_In_r {A} (R : A -> A -> Prop) l l' y : Forall2 R l l' -> In y l' -> exists x, In x l /\ R x y.
Proof. induction 1 as [|a b l l' Hab _ IH]; cbn; [done|]. intros [->|Hx]; [eauto|]. destruct (IH Hx) as (x & ? & ?). eauto. Qed.

(** A new key keeps a table's keys distinct. *)
Lemma NoDup_snoc {A} (l : list A) x : List.NoDup l -> ~ In x l -> List.NoDup (l ++ [x]).
Proof.
  intros Hl Hx. apply (Permutation_NoDup (l := x :: l)); [apply Permutation_cons_append|by constructor].
Qed.

Lemma NoDup_snoc_map {A B} (f : A -> B) l x : List.NoDup (map f l) -> ~ In (f x) (map f l) -> List.NoDup (map f (l ++ [x])).
Proof. intros Hl Hx. rewrite map_app. by apply NoDup_snoc. Qed.

Lemma some_clash {A B} (f : A -> B) `{EqDecision B} (l : list A) x : ~ In (f x) (map f l) <->
  (forall y, In y l -> bool_decide (f y = f x) = false).
Proof.
  rewrite in_map_iff. split.
  - intros Hn y Hy. apply bool_decide_eq_false. intros He. apply Hn. eauto.
  - intros Hall (y & He & Hy). specialize (Hall y Hy). by apply bool_decide_eq_false in Hall.
Qed.
