(* ===== verification/Callbacks.v ===== *)
(** * Callbacks: the callback requests of a contact

    [apps/contact-governance/src/cg3-callback-persistence.ts] over the table [cg_callback_requests]
    of one tenant, and the row [authorizeAndReserve] of [contact-governance-service.ts] appends when
    a decision uses a request up. *)
From stdpp Require Import base tactics list strings relations.
From Stdlib Require Import ZArith Lia.
From S2P Require Import Prelude JsMap Text JsDate JsValue Contracts Windows Cg3Facts Temporal Persistence.

Open Scope string_scope.
Open Scope Z_scope.
Open Scope list_scope.

Inductive CallbackMutationKind := CB_REQUEST | CB_CONSUME | CB_REVOKE.
#[export] Instance CallbackMutationKind_eq_dec : EqDecision CallbackMutationKind.
Proof. solve_decision. Defined.

(** A row of [cg_callback_requests]. *)
Record CallbackRow := CallbackRow_ {
  cq_id : string;
  cq_seriesId : string;
  cq_version : Z;
  cq_contactId : string;
  cq_identityId : option string;
  cq_channel : ContactChannel;
  cq_purpose : string;
  cq_requestedAt : Z;
  cq_requestedTimezone : string;
  cq_expiresAt : Z;
  cq_sourceKind : string;
  cq_sourceVersion : option string;
  cq_oneUseTokenHash : string;
  cq_approvedExceptionId : option string;
  cq_mutationKind : CallbackMutationKind;
  cq_supersedesId : option string;
  cq_evidenceRef : string;
  cq_requestHash : string;
  cq_actorClass : string;
}.

Record CallbackAudit := CallbackAudit_ {
  ca_mutationId : string;
  ca_aggregateId : string;
  ca_aggregateVersion : Z;
  ca_action : string;
  ca_actorClass : string;
  ca_actorRef : string;
  ca_sourceKind : string;
  ca_evidenceRef : string;
  ca_afterDigest : string;
  ca_occurredAt : Z;
}.

Record RequestCallbackResult := RequestCallbackResult_ {
  rq_mutationId : string;
  rq_callbackRequest : CallbackRow;
  rq_oneUseToken : string;
}.

Record CallbackTables := CallbackTables_ {
  cl_rows : list CallbackRow;
  cl_receipts : receipts RequestCallbackResult;
  cl_audit : list CallbackAudit;
  cl_nextId : nat;
}.

Inductive CallbackError :=
  | CB_TYPE (field : string)
  | CB_RANGE (field : string)
  | CB_IDEMPOTENCY_CONFLICT
  | CB_NOT_FOUND
  | CB_VERSION_CONFLICT (expected actual : Z)
  | CB_UNIQUE_VIOLATION
  | CB_CHECK_VIOLATION.
#[export] Instance CallbackError_eq_dec : EqDecision CallbackError.
Proof. solve_decision. Defined.

Record RequestCallbackInput := RequestCallbackInput_ {
  rb_tenantId : string;
  rb_contactId : string;
  rb_identityId : option string;
  rb_channel : ContactChannel;
  rb_purpose : string;
  rb_requestedAt : string;
  rb_requestedTimezone : string;
  rb_expiresAt : string;
  rb_sourceKind : string;
  rb_sourceVersion : option string;
  rb_evidenceRef : string;
  rb_actorClass : string;
  rb_actorRef : string;
  rb_idempotencyKey : string;
  rb_expectedVersion : Z;
  rb_correlationId : string;
}.

(** ** The table *)

(** The rows of a callback's exact scope. *)
Definition in_callback_scope (contactId : string) (identityId : option string) (channel : ContactChannel)
  (purpose : string) (c : CallbackRow) : bool :=
  bool_decide (cq_contactId c = contactId) && bool_decide (cq_identityId c = identityId) &&
  bool_decide (cq_channel c = channel) && bool_decide (cq_purpose c = purpose).

(** [findFirst] with [orderBy: { version: 'desc' }] *)
Definition latest_callback (rows : list CallbackRow) (contactId : string) (identityId : option string)
  (channel : ContactChannel) (purpose : string) : option CallbackRow :=
  head (sort_by (fun a b => cq_version b <=? cq_version a)
          (js_filter (in_callback_scope contactId identityId channel purpose) rows)).

(** The unique indexes of the table: the key, the version of a series, the token and, of rows that
    carry one, the version of the source. *)
Definition callback_clash (a b : CallbackRow) : bool :=
  bool_decide (cq_id a = cq_id b) ||
  (bool_decide (cq_seriesId a = cq_seriesId b) && (cq_version a =? cq_version b)) ||
  bool_decide (cq_oneUseTokenHash a = cq_oneUseTokenHash b) ||
  (bool_decide (cq_contactId a = cq_contactId b) && bool_decide (cq_sourceKind a = cq_sourceKind b) &&
   match cq_sourceVersion a, cq_sourceVersion b with
   | Some v, Some w => bool_decide (v = w)
   | _, _ => false
   end).

Definition insert_callback (rows : list CallbackRow) (c : CallbackRow) : result CallbackError (list CallbackRow) :=
  throw_if (negb (0 <? cq_version c) || negb (cq_requestedAt c <? cq_expiresAt c)) CB_CHECK_VIOLATION ;;
  throw_if (js_some (callback_clash c) rows) CB_UNIQUE_VIOLATION ;;
  Ok (rows ++ [c]).

(** ** [Cg3CallbackRepository.request] *)

Definition kind_text (k : CallbackMutationKind) : string :=
  match k with CB_REQUEST => "REQUEST" | CB_CONSUME => "CONSUME" | CB_REVOKE => "REVOKE" end.

(** A field the view leaves out when it is null or empty. *)
Definition optional_field (name : string) (value : option string) : list (string * jsval) :=
  match value with None | Some "" => [] | Some s => [(name, JStr s)] end.

(** [view] *)
Definition callback_view (tenantId : string) (createdAt : Z) (c : CallbackRow) : jsval :=
  JObj ([("id", JStr (cq_id c)); ("tenantId", JStr tenantId); ("seriesId", JStr (cq_seriesId c));
         ("version", JNum (NInt (cq_version c))); ("contactId", JStr (cq_contactId c))] ++
        optional_field "identityId" (cq_identityId c) ++
        [("channel", JStr (channel_name (cq_channel c))); ("purpose", JStr (cq_purpose c));
         ("requestedAt", JStr (toISOString (cq_requestedAt c)));
         ("requestedTimezone", JStr (cq_requestedTimezone c));
         ("expiresAt", JStr (toISOString (cq_expiresAt c))); ("sourceKind", JStr (cq_sourceKind c))] ++
        optional_field "sourceVersion" (cq_sourceVersion c) ++
        optional_field "approvedExceptionId" (cq_approvedExceptionId c) ++
        [("mutationKind", JStr (kind_text (cq_mutationKind c)))] ++
        optional_field "supersedesId" (cq_supersedesId c) ++
        [("evidenceRef", JStr (cq_evidenceRef c)); ("actorClass", JStr (cq_actorClass c));
         ("createdAt", JStr (toISOString createdAt))]).

Section Request.
Context `{Runtime, Host}.

(** [nonEmpty] of the nine required texts, in order. *)
Definition required_texts (i : RequestCallbackInput) : list (string * string) :=
  [(rb_tenantId i, "tenantId"); (rb_contactId i, "contactId"); (rb_purpose i, "purpose");
   (rb_requestedTimezone i, "requestedTimezone"); (rb_evidenceRef i, "evidenceRef");
   (rb_actorClass i, "actorClass"); (rb_actorRef i, "actorRef");
   (rb_idempotencyKey i, "idempotencyKey"); (rb_correlationId i, "correlationId")].

Definition callback_instant (value field : string) : result CallbackError Z :=
  from_option (date_parse value) (CB_TYPE field).

Definition callback_hash (i : RequestCallbackInput) (requestedAt expiresAt : Z) : string :=
  stableDigest (JObj
    [("tenantId", JStr (rb_tenantId i)); ("contactId", JStr (rb_contactId i));
     ("identityId", text_or_null (rb_identityId i)); ("channel", JStr (channel_name (rb_channel i)));
     ("purpose", JStr (rb_purpose i)); ("requestedAt", JStr (toISOString requestedAt));
     ("requestedTimezone", JStr (rb_requestedTimezone i)); ("expiresAt", JStr (toISOString expiresAt));
     ("sourceKind", JStr (rb_sourceKind i)); ("sourceVersion", text_or_null (rb_sourceVersion i));
     ("evidenceRef", JStr (rb_evidenceRef i)); ("actorClass", JStr (rb_actorClass i));
     ("actorRef", JStr (rb_actorRef i)); ("expectedVersion", JNum (NInt (rb_expectedVersion i)))]).

(** The checks before the transaction: the two instants. *)
Definition validate_request (i : RequestCallbackInput) : result CallbackError (Z * Z) :=
  map_result (fun f => throw_if (bool_decide (trim (fst f) = "")) (CB_TYPE (snd f))) (required_texts i) ;;
  throw_if (rb_expectedVersion i <? 0) (CB_RANGE "expectedVersion") ;;
  requestedAt ← callback_instant (rb_requestedAt i) "requestedAt";
  expiresAt ← callback_instant (rb_expiresAt i) "expiresAt";
  throw_if (expiresAt <=? requestedAt) (CB_RANGE "expiresAt") ;;
  throw_if (negb (intl_time_zone_ok (rb_requestedTimezone i))) (CB_TYPE "requestedTimezone") ;;
  Ok (requestedAt, expiresAt).

(** The new row; [seriesId] is a fresh identifier where the scope has no row yet. *)
Definition request_row (i : RequestCallbackInput) (requestedAt expiresAt : Z) (latest : option CallbackRow)
  (next : nat) : CallbackRow :=
  {| cq_id := fresh (S next);
     cq_seriesId := match latest with Some l => cq_seriesId l | None => fresh next end;
     cq_version := match latest with Some l => cq_version l | None => 0 end + 1;
     cq_contactId := rb_contactId i; cq_identityId := rb_identityId i; cq_channel := rb_channel i;
     cq_purpose := rb_purpose i; cq_requestedAt := requestedAt;
     cq_requestedTimezone := rb_requestedTimezone i; cq_expiresAt := expiresAt;
     cq_sourceKind := rb_sourceKind i; cq_sourceVersion := rb_sourceVersion i;
     cq_oneUseTokenHash := sha256_hex (fresh (2 + next)); cq_approvedExceptionId := None;
     cq_mutationKind := CB_REQUEST; cq_supersedesId := cq_id <$> latest;
     cq_evidenceRef := rb_evidenceRef i;
     cq_requestHash := callback_hash i requestedAt expiresAt; cq_actorClass := rb_actorClass i |}.

(** [request]: [contacts] and [identities] are the tables it looks the contact up in. *)
Definition request (contacts : list string) (identities : list (string * string)) (t : CallbackTables)
  (i : RequestCallbackInput) (now : Z) : result CallbackError (RequestCallbackResult * CallbackTables) :=
  instants ← validate_request i;
  let '(requestedAt, expiresAt) := instants in
  let requestHash := callback_hash i requestedAt expiresAt in
  match map_get (rb_idempotencyKey i) (cl_receipts t) with
  | Some (hash, response) =>
      throw_if (negb (bool_decide (hash = requestHash))) CB_IDEMPOTENCY_CONFLICT ;; Ok (response, t)
  | None =>
      throw_if (negb (includes contacts (rb_contactId i)) ||
                match rb_identityId i with
                | None | Some "" => false
                | Some identity => negb (includes identities (identity, rb_contactId i))
                end) CB_NOT_FOUND ;;
      let latest := latest_callback (cl_rows t) (rb_contactId i) (rb_identityId i) (rb_channel i) (rb_purpose i) in
      let actualVersion := match latest with Some l => cq_version l | None => 0 end in
      throw_if (negb (actualVersion =? rb_expectedVersion i))
        (CB_VERSION_CONFLICT (rb_expectedVersion i) actualVersion) ;;
      let next := cl_nextId t in
      let created := request_row i requestedAt expiresAt latest next in
      rows ← insert_callback (cl_rows t) created;
      let mutationId := fresh (3 + next) in
      let audit := {| ca_mutationId := mutationId; ca_aggregateId := rb_contactId i;
        ca_aggregateVersion := cq_version created; ca_action := "CALLBACK_REQUEST_CREATE";
        ca_actorClass := rb_actorClass i; ca_actorRef := rb_actorRef i; ca_sourceKind := rb_sourceKind i;
        ca_evidenceRef := rb_evidenceRef i;
        ca_afterDigest := stableDigest (callback_view (rb_tenantId i) now created);
        ca_occurredAt := requestedAt |} in
      let response := RequestCallbackResult_ mutationId created (fresh (2 + next)) in
      Ok (response,
          {| cl_rows := rows; cl_receipts := map_set (rb_idempotencyKey i) (requestHash, response) (cl_receipts t);
             cl_audit := cl_audit t ++ [audit]; cl_nextId := 6 + next |})
  end.

(** ** The row that uses a request up *)

Definition consume_row (original : CallbackRow) (decisionId id : string) : CallbackRow :=
  {| cq_id := id; cq_seriesId := cq_seriesId original; cq_version := cq_version original + 1;
     cq_contactId := cq_contactId original; cq_identityId := cq_identityId original;
     cq_channel := cq_channel original; cq_purpose := cq_purpose original;
     cq_requestedAt := cq_requestedAt original; cq_requestedTimezone := cq_requestedTimezone original;
     cq_expiresAt := cq_expiresAt original; cq_sourceKind := cq_sourceKind original;
     cq_sourceVersion := cq_sourceVersion original;
     cq_oneUseTokenHash := sha256_hex ("consume:" +:+ cq_id original +:+ ":" +:+ decisionId);
     cq_approvedExceptionId := cq_approvedExceptionId original; cq_mutationKind := CB_CONSUME;
     cq_supersedesId := Some (cq_id original);
     cq_evidenceRef := "system:authorizeAndReserve:" +:+ decisionId;
     cq_requestHash := sha256_hex ("consume:" +:+ cq_id original +:+ ":" +:+ show (cq_version original + 1));
     cq_actorClass := "SYSTEM" |}.
End Request.
