(* ===== verification/PolicyStore.v ===== *)
(** * PolicyStore: the tables of the policy studio

    The rows [apps/contact-governance/src/cg4-policy-lifecycle.ts] reads and writes, the columns of
    one tenant: policy versions, scope heads, test artifacts, votes, activation jobs, kill
    switches, command receipts, the outbox and the audit log. The unique indexes and the period
    check of [cg_policy] are those of [packages/db/prisma/migrations] and are checked by every
    statement that writes it, as PostgreSQL does. *)
From stdpp Require Import base tactics list strings.
From Stdlib Require Import ZArith Lia.
From S2P Require Import Prelude JsMap Text JsDate JsValue Contracts ScopeKey PolicyCompiler PolicyDiff PolicyPreview Authorization Persistence.

Open Scope string_scope.
Open Scope Z_scope.
Open Scope list_scope.

(** ** Policy versions *)

Inductive PolicyStatus :=
  | S_DRAFT | S_IN_REVIEW | S_APPROVED | S_PUBLISHED | S_SCHEDULED | S_ACTIVE | S_SUPERSEDED
  | S_REJECTED | S_WITHDRAWN.
#[export] Instance PolicyStatus_eq_dec : EqDecision PolicyStatus.
Proof. solve_decision. Defined.

(** The columns nothing rewrites. *)
Record VersionIdentity := VersionIdentity_ {
  vi_id : string;
  vi_policyId : string;
  vi_version : Z;
  vi_scopeKey : string;
  vi_registryVersion : string;
  vi_schemaVersion : Z;
  vi_evaluatorVersion : string;
  vi_effectiveFrom : Z;
  vi_makerActorRef : string;
  vi_rollbackOfId : option string;
}.

(** What an amendment rewrites. *)
Record DraftColumns := DraftColumns_ {
  dr_content : jsval;
  dr_contentDigest : string;
  dr_draftRevision : Z;
}.

(** What a test run stamps. *)
Record TestBinding := TestBinding_ {
  tb_testArtifactDigest : option string;
  tb_diffClass : option Cg4PolicyDiffClass;
  tb_baseHeadVersion : option Z;
  tb_baseHeadDigest : option string;
}.
Definition no_binding : TestBinding := TestBinding_ None None None None.

(** The lifecycle columns. *)
Record Progress := Progress_ {
  pg_status : PolicyStatus;
  pg_submittedAt : option Z;
  pg_approvedAt : option Z;
  pg_publishedAt : option Z;
  pg_approvalDigest : option string;
  pg_activateAt : option Z;
  pg_supersedesId : option string;
  pg_effectiveTo : option Z;
}.
Definition drafted : Progress := Progress_ S_DRAFT None None None None None None None.

Record PolicyVersion := PolicyVersion_ {
  pr_identity : VersionIdentity;
  pr_draft : DraftColumns;
  pr_binding : TestBinding;
  pr_progress : Progress;
}.

Definition pr_id (r : PolicyVersion) := vi_id (pr_identity r).
Definition pr_policyId (r : PolicyVersion) := vi_policyId (pr_identity r).
Definition pr_version (r : PolicyVersion) := vi_version (pr_identity r).
Definition pr_scopeKey (r : PolicyVersion) := vi_scopeKey (pr_identity r).
Definition pr_contentDigest (r : PolicyVersion) := dr_contentDigest (pr_draft r).
Definition pr_draftRevision (r : PolicyVersion) := dr_draftRevision (pr_draft r).
Definition pr_diffClass (r : PolicyVersion) := tb_diffClass (pr_binding r).
Definition pr_status (r : PolicyVersion) := pg_status (pr_progress r).

(** ** The other tables *)

Record ScopeHead := ScopeHead_ {
  hd_policyId : string;
  hd_policyVersion : Z;
  hd_revisionId : string;
  hd_headVersion : Z;
  hd_headDigest : string;
  hd_latestMutationId : string;
  hd_nextActivationAt : option Z;
}.

Record TestArtifact := TestArtifact_ {
  ta_id : string;
  ta_policyId : string;
  ta_policyVersion : Z;
  ta_suiteVersion : string;
  ta_artifactDigest : string;
  ta_contentDigest : string;
  ta_platformFixtureDigest : string;
  ta_tenantFixtureDigest : string;
  ta_baseHeadVersion : Z;
  ta_baseHeadDigest : string;
  ta_diffClass : Cg4PolicyDiffClass;
  ta_pass : bool;
  ta_passed : Z;
  ta_failed : Z;
}.

(** A vote: its key, its decision, its instant and the columns [toRecordedApproval] reads. *)
Record PolicyVote := PolicyVote_ {
  pw_id : string;
  pw_policyId : string;
  pw_policyVersion : Z;
  pw_approved : bool;
  pw_vote : Cg4RecordedApproval;
}.

Inductive JobState := J_PENDING | J_CLAIMED | J_COMPLETE | J_FAILED | J_CANCELLED.
#[export] Instance JobState_eq_dec : EqDecision JobState.
Proof. solve_decision. Defined.

Record ActivationJob := ActivationJob_ {
  aj_id : string;
  aj_policyId : string;
  aj_policyVersion : Z;
  aj_scopeKey : string;
  aj_scheduledFor : Z;
  aj_state : JobState;
  aj_attempts : Z;
  aj_leaseOwner : option string;
  aj_leaseExpiresAt : option Z;
  aj_completedAt : option Z;
}.

(** [state: { in: ['PENDING', 'CLAIMED'] }] *)
Definition job_open (j : ActivationJob) : bool :=
  match aj_state j with J_PENDING | J_CLAIMED => true | _ => false end.

Record KillSwitch := KillSwitch_ {
  ks_id : string;
  ks_scopeKey : string;
  ks_active : bool;
  ks_reasonCode : string;
  ks_evidenceRef : string;
  ks_activatedByRef : string;
  ks_activatedAt : Z;
  ks_clearApprovalRef : option string;
  ks_clearedAt : option Z;
}.

Record PolicyEvent := PolicyEvent_ {
  pe_id : string;
  pe_mutationId : string;
  pe_aggregateId : string;
  pe_aggregateVersion : Z;
  pe_eventType : string;
  pe_orderingKey : string;
  pe_payload : jsval;
  pe_payloadHash : string;
}.

Record PolicyAudit := PolicyAudit_ {
  pa_mutationId : string;
  pa_aggregateId : string;
  pa_aggregateVersion : Z;
  pa_action : string;
  pa_actorRef : string;
  pa_evidenceRef : string;
  pa_beforeDigest : option string;
  pa_afterDigest : string;
  pa_occurredAt : Z;
}.

(** ** Responses *)

Record DraftResult := DraftResult_ {
  rd_mutationId : string;
  rd_policyId : string;
  rd_policyVersionId : string;
  rd_version : Z;
  rd_draftRevision : Z;
  rd_scopeKey : string;
  rd_contentDigest : string;
  rd_lifecycleState : PolicyStatus;
}.

Record PublishResult := PublishResult_ {
  rp_mutationId : string;
  rp_eventId : string;
  rp_policyId : string;
  rp_policyVersionId : string;
  rp_version : Z;
  rp_lifecycleState : PolicyStatus;
  rp_scopeKey : string;
  rp_headVersion : Z;
  rp_headDigest : string;
  rp_activateAt : string;
  rp_quorum : Cg4QuorumEvaluation;
}.

(** The body of a receipt, by the operation that wrote it. *)
Inductive Response :=
  | R_DRAFT (r : DraftResult)
  | R_TEST (mutationId artifactId : string) (preview : Cg4PolicyPreview)
  | R_APPROVAL (r : DraftResult) (quorum : Cg4QuorumEvaluation) (activateAt : string)
  | R_PUBLISH (r : PublishResult)
  | R_VOTE (approvalId : string) (quorum : Cg4QuorumEvaluation)
  | R_KILL (mutationId eventId killSwitchId scopeKey : string) (active : bool).

(** ** The store *)

Record PolicyStore := PolicyStore_ {
  ps_policies : list PolicyVersion;
  ps_heads : list (string * ScopeHead);
  ps_artifacts : list TestArtifact;
  ps_votes : list PolicyVote;
  ps_jobs : list ActivationJob;
  ps_switches : list KillSwitch;
  ps_receipts : list ((string * string) * (string * Response));
  ps_outbox : list PolicyEvent;
  ps_audit : list PolicyAudit;
  ps_frozen : bool;
  ps_nextId : nat;
}.

Definition with_policies (x : list PolicyVersion) (s : PolicyStore) : PolicyStore :=
  PolicyStore_ x (ps_heads s) (ps_artifacts s) (ps_votes s) (ps_jobs s) (ps_switches s)
    (ps_receipts s) (ps_outbox s) (ps_audit s) (ps_frozen s) (ps_nextId s).
Definition with_heads (x : list (string * ScopeHead)) (s : PolicyStore) : PolicyStore :=
  PolicyStore_ (ps_policies s) x (ps_artifacts s) (ps_votes s) (ps_jobs s) (ps_switches s)
    (ps_receipts s) (ps_outbox s) (ps_audit s) (ps_frozen s) (ps_nextId s).
Definition with_artifacts (x : list TestArtifact) (s : PolicyStore) : PolicyStore :=
  PolicyStore_ (ps_policies s) (ps_heads s) x (ps_votes s) (ps_jobs s) (ps_switches s)
    (ps_receipts s) (ps_outbox s) (ps_audit s) (ps_frozen s) (ps_nextId s).
Definition with_votes (x : list PolicyVote) (s : PolicyStore) : PolicyStore :=
  PolicyStore_ (ps_policies s) (ps_heads s) (ps_artifacts s) x (ps_jobs s) (ps_switches s)
    (ps_receipts s) (ps_outbox s) (ps_audit s) (ps_frozen s) (ps_nextId s).
Definition with_jobs (x : list ActivationJob) (s : PolicyStore) : PolicyStore :=
  PolicyStore_ (ps_policies s) (ps_heads s) (ps_artifacts s) (ps_votes s) x (ps_switches s)
    (ps_receipts s) (ps_outbox s) (ps_audit s) (ps_frozen s) (ps_nextId s).
Definition with_switches (x : list KillSwitch) (s : PolicyStore) : PolicyStore :=
  PolicyStore_ (ps_policies s) (ps_heads s) (ps_artifacts s) (ps_votes s) (ps_jobs s) x
    (ps_receipts s) (ps_outbox s) (ps_audit s) (ps_frozen s) (ps_nextId s).
Definition with_receipts (x : list ((string * string) * (string * Response))) (s : PolicyStore)
  : PolicyStore :=
  PolicyStore_ (ps_policies s) (ps_heads s) (ps_artifacts s) (ps_votes s) (ps_jobs s) (ps_switches s)
    x (ps_outbox s) (ps_audit s) (ps_frozen s) (ps_nextId s).
Definition with_outbox (x : list PolicyEvent) (s : PolicyStore) : PolicyStore :=
  PolicyStore_ (ps_policies s) (ps_heads s) (ps_artifacts s) (ps_votes s) (ps_jobs s) (ps_switches s)
    (ps_receipts s) x (ps_audit s) (ps_frozen s) (ps_nextId s).
Definition with_audit (x : list PolicyAudit) (s : PolicyStore) : PolicyStore :=
  PolicyStore_ (ps_policies s) (ps_heads s) (ps_artifacts s) (ps_votes s) (ps_jobs s) (ps_switches s)
    (ps_receipts s) (ps_outbox s) x (ps_frozen s) (ps_nextId s).
(** [n] more identifiers have been drawn; those of rows whose identifier nothing reads (audit
    entries, receipts) are not counted. *)
Definition draw (n : nat) (s : PolicyStore) : PolicyStore :=
  PolicyStore_ (ps_policies s) (ps_heads s) (ps_artifacts s) (ps_votes s) (ps_jobs s) (ps_switches s)
    (ps_receipts s) (ps_outbox s) (ps_audit s) (ps_frozen s) (ps_nextId s + n)%nat.

(** ** Errors *)

Inductive LifecycleCode :=
  | POLICY_INVALID_LIFECYCLE_TRANSITION | POLICY_TESTS_REQUIRED | POLICY_TESTS_FAILED
  | POLICY_SCOPE_AMBIGUOUS | POLICY_HEAD_CONFLICT | SCHEDULE_CONFLICT | POLICY_APPROVAL_STALE
  | APPROVAL_REQUIRED | ACTIVATION_CONFLICT | KILL_SWITCH_ACTIVE.
#[export] Instance LifecycleCode_eq_dec : EqDecision LifecycleCode.
Proof. solve_decision. Defined.

Inductive PolicyError :=
  | P_INVALID_INPUT
  | P_IDEMPOTENCY_CONFLICT
  | P_NOT_FOUND
  | P_VERSION_CONFLICT (expected actual : Z)
  | P_LIFECYCLE (code : LifecycleCode)
  | P_COMPILE (e : CompileError)
  | P_DIGEST_CHANGED
  | P_SCOPE_INVALID
  | P_SCOPE (e : Cg4PolicyValidationError)
  | P_PREVIEW (e : PreviewError)
  | P_NOT_AUTHORIZED (e : AuthorizationError)
  | P_MUTATION_FROZEN
  | P_UNIQUE_VIOLATION
  | P_CHECK_VIOLATION.

Abbreviation studio := (result PolicyError).

Definition rethrow_as {E A} (f : E -> PolicyError) (r : result E A) : studio A :=
  match r with Ok a => Ok a | Err e => Err (f e) end.

Definition lifecycle_if (cond : bool) (code : LifecycleCode) : studio unit :=
  throw_if cond (P_LIFECYCLE code).

(** ** Constraints of [cg_policy] *)

(** [cg_policy_one_active_head_per_scope] and [cg_policy_one_scheduled_candidate_per_scope] *)
Definition at_most_one {A} (p : A -> bool) (rows : list A) : bool := count_where p rows <=? 1.

Definition one_per_scope (st : PolicyStatus) (rows : list PolicyVersion) : bool :=
  js_every (fun r => at_most_one (fun r' => bool_decide (pr_scopeKey r' = pr_scopeKey r) &&
                                            bool_decide (pr_status r' = st)) rows)
    rows.

(** [cg_policy_tenant_policy_version_key] *)
Definition versions_unique (rows : list PolicyVersion) : bool :=
  js_every (fun r => at_most_one (fun r' => bool_decide (pr_policyId r' = pr_policyId r) &&
                                            (pr_version r' =? pr_version r)) rows)
    rows.

(** [cg_policy_effective_period_check] *)
Definition period_ok (r : PolicyVersion) : bool :=
  match pg_effectiveTo (pr_progress r) with
  | None => true
  | Some t => vi_effectiveFrom (pr_identity r) <? t
  end.

Definition write_policies (rows : list PolicyVersion) (s : PolicyStore) : studio PolicyStore :=
  throw_if (negb (js_every period_ok rows)) P_CHECK_VIOLATION ;;
  throw_if (negb (versions_unique rows && one_per_scope S_ACTIVE rows && one_per_scope S_SCHEDULED rows))
    P_UNIQUE_VIOLATION ;;
  Ok (with_policies rows s).

(** The trigger [cg4_reject_immutable_policy_update] (migration [20260913150000]): the updates of a
    row it lets through. *)
Definition forward_transition (a b : PolicyStatus) : bool :=
  match a, b with
  | S_APPROVED, (S_PUBLISHED | S_SCHEDULED | S_ACTIVE) => true
  | S_PUBLISHED, (S_SCHEDULED | S_SUPERSEDED) => true
  | S_SCHEDULED, (S_ACTIVE | S_SUPERSEDED) => true
  | S_ACTIVE, S_SUPERSEDED => true
  | _, _ => false
  end.

Definition settled (st : PolicyStatus) : bool :=
  match st with S_APPROVED | S_PUBLISHED | S_SCHEDULED | S_ACTIVE => true | _ => false end.

Definition policy_update_allowed (old new : PolicyVersion) : Prop :=
  pr_status old <> S_SUPERSEDED /\
  (settled (pr_status old) = true ->
     let p := pr_progress old in
     let q := pr_progress new in
     forward_transition (pr_status old) (pr_status new) = true /\
     pr_identity new = pr_identity old /\ pr_draft new = pr_draft old /\ pr_binding new = pr_binding old /\
     pg_approvalDigest q = pg_approvalDigest p /\ pg_submittedAt q = pg_submittedAt p /\
     pg_approvedAt q = pg_approvedAt p /\
     (pg_activateAt q <> pg_activateAt p -> pr_status old = S_APPROVED) /\
     (pg_supersedesId q <> pg_supersedesId p -> pg_supersedesId p = None /\ pr_status new = S_ACTIVE) /\
     (pg_effectiveTo q <> pg_effectiveTo p -> pg_effectiveTo p = None /\ pr_status new = S_SUPERSEDED)).

(** [cg_policy_activation_job_one_open_per_scope] and the unique version of a job *)
Definition jobs_unique (jobs : list ActivationJob) : bool :=
  js_every (fun j => at_most_one (fun j' => bool_decide (aj_scopeKey j' = aj_scopeKey j) && job_open j') jobs &&
                     at_most_one (fun j' => bool_decide (aj_policyId j' = aj_policyId j) &&
                                            (aj_policyVersion j' =? aj_policyVersion j)) jobs) jobs.

Definition write_jobs (jobs : list ActivationJob) (s : PolicyStore) : studio PolicyStore :=
  throw_if (negb (jobs_unique jobs)) P_UNIQUE_VIOLATION ;;
  Ok (with_jobs jobs s).

(** ** Queries *)

(** [findFirst({ where: { policyId, version } })] *)
Definition is_version (policyId : string) (version : Z) (r : PolicyVersion) : bool :=
  bool_decide (pr_policyId r = policyId) && (pr_version r =? version).

Definition find_version (s : PolicyStore) (policyId : string) (version : Z) : option PolicyVersion :=
  js_find (is_version policyId version) (ps_policies s).

Definition find_policy_row (s : PolicyStore) (id : string) : option PolicyVersion :=
  js_find (fun r => bool_decide (pr_id r = id)) (ps_policies s).

(** [orderBy: { version: 'desc' }, take: 1] over the versions of a series *)
Definition latest_version (s : PolicyStore) (policyId : string) : option PolicyVersion :=
  fold_left (fun best r =>
    if bool_decide (pr_policyId r = policyId)
    then match best with
         | Some b => if pr_version b <? pr_version r then Some r else Some b
         | None => Some r
         end
    else best) (ps_policies s) None.

Definition votes_of (s : PolicyStore) (policyId : string) (version : Z) : list PolicyVote :=
  js_filter (fun v => bool_decide (pw_policyId v = policyId) && (pw_policyVersion v =? version)) (ps_votes s).

Definition find_job (s : PolicyStore) (policyId : string) (version : Z) : option ActivationJob :=
  js_find (fun j => bool_decide (aj_policyId j = policyId) && (aj_policyVersion j =? version)) (ps_jobs s).

(** ** Receipts *)

Definition replay_receipt (s : PolicyStore) (operation key requestHash : string) : studio (option Response) :=
  match map_get (operation, key) (ps_receipts s) with
  | Some (hash, response) =>
      if negb (bool_decide (hash = requestHash)) then Err P_IDEMPOTENCY_CONFLICT else Ok (Some response)
  | None => Ok None
  end.

(** [create]: the key must be new. *)
Definition writeReceipt (s : PolicyStore) (operation key requestHash : string) (body : Response)
  : studio PolicyStore :=
  throw_if (map_has (operation, key) (ps_receipts s)) P_UNIQUE_VIOLATION ;;
  Ok (with_receipts (map_set (operation, key) (requestHash, body) (ps_receipts s)) s).

Definition append_audit (a : PolicyAudit) (s : PolicyStore) : PolicyStore := with_audit (ps_audit s ++ [a]) s.
Definition append_event (e : PolicyEvent) (s : PolicyStore) : PolicyStore := with_outbox (ps_outbox s ++ [e]) s.
