(* ===== verification/PolicyLifecycle.v ===== *)
(** * PolicyLifecycle: the commands of the policy studio

    [Cg4PolicyLifecycleRepository] of [apps/contact-governance/src/cg4-policy-lifecycle.ts], the
    event of [cg4-kill-switch-event.ts], [recordPolicyApproval] of [cg4-approval-repository.ts]
    and the job updates of [Cg4ActivationWorker] in [cg4-workers.ts]. A command that reads before
    it takes the lock of its scope is two functions: [begin_*], up to the lock, and [commit_*],
    from the lock to the end of the transaction, on the store of that moment and on what [begin_*]
    has read. A command that takes the lock first is one function. Each gives the response and the
    store after it; a transaction that throws leaves the store as it was. *)
From stdpp Require Import base tactics list strings.
From Stdlib Require Import ZArith Lia.
From S2P Require Import Prelude JsMap Text JsDate JsValue Contracts ScopeKey PolicyCompiler PolicyDiff PolicyPreview Authorization Persistence PolicyStore.

Open Scope string_scope.
Open Scope Z_scope.
Open Scope list_scope.

Record CommandBase := CommandBase_ {
  cm_tenantId : string;
  cm_actor : Cg4AuthorizationSubject;
  cm_evidenceRef : string;
  cm_occurredAt : string;
  cm_idempotencyKey : string;
}.

(** [nonEmpty(value, field)] and [instant(value, field)] *)
Definition nonEmpty (value : string) : studio unit := throw_if (negb (nonblank value)) P_INVALID_INPUT.
Definition instant `{Runtime} (value : string) : studio Z := from_option (date_parse value) P_INVALID_INPUT.

(** [withTenantDatabaseTransaction] refuses an empty tenant. *)
Definition tenant_context (tenantId : string) : studio unit :=
  throw_if (bool_decide (tenantId = "")) P_INVALID_INPUT.

Definition num (z : Z) : jsval := JNum (NInt z).
Definition actor_id (c : CommandBase) : string := sub_subjectId (cm_actor c).

(** The three fields most request hashes end with. *)
Definition actor_fields (c : CommandBase) : list (string * jsval) :=
  [("actorSubjectId", JStr (actor_id c));
   ("authorizationEpoch", num (sub_authorizationEpoch (cm_actor c)));
   ("scopeVersion", num (sub_scopeVersion (cm_actor c)))].

(** ** Heads *)

Definition cg4PolicyHeadDigest `{Host} (policyId : string) (version : Z) (contentDigest : string) : string :=
  stableDigest (JObj [("policyId", JStr policyId); ("version", num version);
                      ("contentDigest", JStr contentDigest)]).

Definition CG4_EMPTY_HEAD_DIGEST `{Host} : string := stableDigest (JObj [("head", JNull)]).

(** What [loadHead] returns: the row, or the head of a scope that has none. *)
Record HeadSnapshot := HeadSnapshot_ {
  hs_headVersion : Z;
  hs_headDigest : string;
  hs_head : option (string * Z * string);
  hs_nextActivationAt : option Z;
}.

Definition hs_revisionId (h : HeadSnapshot) : option string :=
  match hs_head h with Some (_, _, revisionId) => Some revisionId | None => None end.

Definition loadHead `{Host} (s : PolicyStore) (scopeKey : string) : HeadSnapshot :=
  match map_get scopeKey (ps_heads s) with
  | None => HeadSnapshot_ 0 CG4_EMPTY_HEAD_DIGEST None None
  | Some h => HeadSnapshot_ (hd_headVersion h) (hd_headDigest h)
                (Some (hd_policyId h, hd_policyVersion h, hd_revisionId h)) (hd_nextActivationAt h)
  end.

Section Commands.
Context `{Runtime, Host}.

(** [compileCg4Policy] of a stored row, with the versions the row carries. *)
Definition compile_row (r : PolicyVersion) : studio Cg4CompiledPolicy :=
  rethrow_as P_COMPILE (compileCg4Policy sha256_hex
    (CompileInput (dr_content (pr_draft r)) (NInt (pr_version r))
       (Some (vi_schemaVersion (pr_identity r))) (Some (vi_registryVersion (pr_identity r)))
       (Some (vi_evaluatorVersion (pr_identity r))))).

(** [compileCg4Policy({ content, version })] *)
Definition compile_content (content : jsval) (version : Z) : studio Cg4CompiledPolicy :=
  rethrow_as P_COMPILE (compileCg4Policy sha256_hex (CompileInput content (NInt version) None None None)).

Definition loadHeadContent (s : PolicyStore) (head : HeadSnapshot) : studio (option Cg4PolicyContentV1) :=
  match truthy (hs_revisionId head) with
  | None => Ok None
  | Some id =>
      match find_policy_row s id with
      | None => Ok None
      | Some row => compiled ← compile_content (dr_content (pr_draft row)) (pr_version row);
                    Ok (Some (cp_content compiled))
      end
  end.

(** [active.find((row) => cg4PolicyScopesAmbiguous(scopeKey, row.scopeKey))] *)
Fixpoint find_ambiguous (scopeKey : string) (scopes : list string) : studio (option string) :=
  match scopes with
  | [] => Ok None
  | other :: rest =>
      ambiguous ← rethrow_as P_SCOPE (cg4PolicyScopesAmbiguous scopeKey other);
      if ambiguous : bool then Ok (Some other) else find_ambiguous scopeKey rest
  end.

Definition active_scopes_except (s : PolicyStore) (scopeKey : string) : list string :=
  set_to_array (map pr_scopeKey
    (js_filter (fun r => bool_decide (pr_status r = S_ACTIVE) && negb (bool_decide (pr_scopeKey r = scopeKey)))
       (ps_policies s))).

Definition assertScopeUnambiguous (s : PolicyStore) (scopeKey : string) : studio unit :=
  conflict ← find_ambiguous scopeKey (active_scopes_except s scopeKey);
  lifecycle_if (bool_decide (is_Some conflict)) POLICY_SCOPE_AMBIGUOUS.

Definition killSwitchActive (s : PolicyStore) (scopeKey : string) : bool :=
  js_some (fun k => bool_decide (ks_scopeKey k = scopeKey) && ks_active k) (ps_switches s).

Definition authorized_for (c : CommandBase) (capability : Cg4Capability) (scopeKey : string) (now : Z)
  : studio unit :=
  rethrow_as P_NOT_AUTHORIZED (assertCg4RequestAuthorization (cm_actor c) capability scopeKey now).

(** The audit entry of a command on a version. *)
Definition draft_audit (mutationId policyId : string) (version : Z) (action : string) (c : CommandBase)
  (before : option string) (after : string) (occurredAt : Z) : PolicyAudit :=
  PolicyAudit_ mutationId policyId version action (actor_id c) (cm_evidenceRef c) before after occurredAt.

(** ** [createDraft] *)

Record CreateCg4PolicyDraftInput := CreateInput {
  cr_base : CommandBase;
  cr_policyId : option string;
  cr_scopeKey : string;
  cr_content : jsval;
  cr_effectiveFrom : string;
}.

(** A version row as [create] inserts it. *)
Definition new_version (id policyId : string) (version : Z) (scopeKey : string)
  (compiled : Cg4CompiledPolicy) (effectiveFrom : Z) (maker : string) (rollbackOf : option string)
  : PolicyVersion :=
  {| pr_identity := VersionIdentity_ id policyId version scopeKey CG4_RULE_REGISTRY_VERSION
                      CG4_POLICY_SCHEMA_VERSION CG4_EVALUATOR_VERSION effectiveFrom maker rollbackOf;
     pr_draft := DraftColumns_ (content_json (cp_content compiled)) (cp_contentDigest compiled) 1;
     pr_binding := no_binding;
     pr_progress := drafted |}.

Definition draft_result (mutationId : string) (r : PolicyVersion) (draftRevision : Z)
  (contentDigest : string) (state : PolicyStatus) : DraftResult :=
  DraftResult_ mutationId (pr_policyId r) (pr_id r) (pr_version r) draftRevision (pr_scopeKey r)
    contentDigest state.

(** The series and the version of the new draft. *)
Definition draft_series (s : PolicyStore) (i : CreateCg4PolicyDraftInput) : studio (string * Z) :=
  match truthy (cr_policyId i) with
  | Some policyId =>
      latest ← from_option (latest_version s policyId) P_NOT_FOUND;
      throw_if (negb (bool_decide (pr_scopeKey latest = cr_scopeKey i))) P_SCOPE_INVALID ;;
      Ok (policyId, pr_version latest + 1)
  | None =>
      assertScopeUnambiguous s (cr_scopeKey i) ;;
      Ok (fresh (ps_nextId s), 1)
  end.

Definition createDraft (s : PolicyStore) (i : CreateCg4PolicyDraftInput) (now : Z)
  : studio (Response * PolicyStore) :=
  let c := cr_base i in
  nonEmpty (cm_tenantId c) ;; nonEmpty (cr_scopeKey i) ;;
  nonEmpty (cm_evidenceRef c) ;; nonEmpty (cm_idempotencyKey c) ;;
  occurredAt ← instant (cm_occurredAt c);
  effectiveFrom ← instant (cr_effectiveFrom i);
  compiled ← compile_content (cr_content i) 1;
  let requestHash := stableDigest (JObj
    ([("tenantId", JStr (cm_tenantId c)); ("policyId", text_or_null (cr_policyId i));
      ("scopeKey", JStr (cr_scopeKey i)); ("contentDigest", JStr (cp_contentDigest compiled));
      ("effectiveFrom", JStr (toISOString effectiveFrom))] ++ actor_fields c)) in
  previous ← replay_receipt s "CG4_POLICY_DRAFT_CREATE" (cm_idempotencyKey c) requestHash;
  match previous with
  | Some response => Ok (response, s)
  | None =>
      authorized_for c CG_POLICY_DRAFT (cr_scopeKey i) now ;;
      series ← draft_series s i;
      let '(policyId, version) := series in
      let next := ps_nextId s in
      let row := new_version (fresh (next + 1)) policyId version (cr_scopeKey i) compiled effectiveFrom
                   (actor_id c) None in
      s1 ← write_policies (ps_policies s ++ [row]) s;
      let mutationId := fresh (next + 2) in
      let response := R_DRAFT (draft_result mutationId row 1 (cp_contentDigest compiled) S_DRAFT) in
      let audit := draft_audit mutationId policyId version "CG4_POLICY_DRAFT_CREATE" c None
                     (cp_contentDigest compiled) occurredAt in
      s2 ← writeReceipt (append_audit audit s1) "CG4_POLICY_DRAFT_CREATE" (cm_idempotencyKey c) requestHash
             response;
      Ok (response, draw 3 s2)
  end.

(** ** [amendDraft] *)

Record AmendCg4PolicyDraftInput := AmendInput {
  am_base : CommandBase;
  am_policyId : string;
  am_version : Z;
  am_expectedDraftRevision : Z;
  am_content : jsval;
}.

(** What [amendDraft] holds when it asks for the lock. *)
Record AmendBegun := AmendBegun_ {
  ab_occurredAt : Z;
  ab_compiled : Cg4CompiledPolicy;
  ab_requestHash : string;
  ab_row : PolicyVersion;
}.

Definition begin_amendDraft (s : PolicyStore) (i : AmendCg4PolicyDraftInput) : studio (Response + AmendBegun) :=
  let c := am_base i in
  nonEmpty (cm_tenantId c) ;; nonEmpty (am_policyId i) ;; nonEmpty (cm_idempotencyKey c) ;;
  occurredAt ← instant (cm_occurredAt c);
  compiled ← compile_content (am_content i) (am_version i);
  let requestHash := stableDigest (JObj
    ([("tenantId", JStr (cm_tenantId c)); ("policyId", JStr (am_policyId i));
      ("version", num (am_version i)); ("expectedDraftRevision", num (am_expectedDraftRevision i));
      ("contentDigest", JStr (cp_contentDigest compiled))] ++ actor_fields c)) in
  previous ← replay_receipt s "CG4_POLICY_DRAFT_AMEND" (cm_idempotencyKey c) requestHash;
  match previous with
  | Some response => Ok (inl response)
  | None =>
      row ← from_option (find_version s (am_policyId i) (am_version i)) P_NOT_FOUND;
      Ok (inr (AmendBegun_ occurredAt compiled requestHash row))
  end.

(** A new content voids what was tested against the old one. *)
Definition amended (compiled : Cg4CompiledPolicy) (draftRevision : Z) (r : PolicyVersion) : PolicyVersion :=
  PolicyVersion_ (pr_identity r)
    (DraftColumns_ (content_json (cp_content compiled)) (cp_contentDigest compiled) draftRevision)
    no_binding (pr_progress r).

(** [where: { id, draftRevision, status: 'DRAFT' }] *)
Definition is_draft_at (id : string) (draftRevision : Z) (r : PolicyVersion) : bool :=
  bool_decide (pr_id r = id) && (pr_draftRevision r =? draftRevision) && bool_decide (pr_status r = S_DRAFT).

Definition commit_amendDraft (s : PolicyStore) (i : AmendCg4PolicyDraftInput) (b : AmendBegun) (now : Z)
  : studio (Response * PolicyStore) :=
  let c := am_base i in
  let row := ab_row b in
  let digest := cp_contentDigest (ab_compiled b) in
  authorized_for c CG_POLICY_DRAFT (pr_scopeKey row) now ;;
  lifecycle_if (negb (bool_decide (pr_status row = S_DRAFT))) POLICY_INVALID_LIFECYCLE_TRANSITION ;;
  let draftRevision := am_expectedDraftRevision i + 1 in
  let matched := is_draft_at (pr_id row) (am_expectedDraftRevision i) in
  s1 ← write_policies (update_where matched (amended (ab_compiled b) draftRevision) (ps_policies s)) s;
  throw_if (negb (count_where matched (ps_policies s) =? 1))
    (P_VERSION_CONFLICT (am_expectedDraftRevision i) (pr_draftRevision row)) ;;
  let mutationId := fresh (ps_nextId s) in
  let response := R_DRAFT (draft_result mutationId row draftRevision digest S_DRAFT) in
  let audit := draft_audit mutationId (am_policyId i) (am_version i) "CG4_POLICY_DRAFT_AMEND" c
                 (Some (pr_contentDigest row)) digest (ab_occurredAt b) in
  s2 ← writeReceipt (append_audit audit s1) "CG4_POLICY_DRAFT_AMEND" (cm_idempotencyKey c)
         (ab_requestHash b) response;
  Ok (response, draw 1 s2).

(** ** [loadCandidate] *)

Record Candidate := Candidate_ {
  ca_row : PolicyVersion;
  ca_compiled : Cg4CompiledPolicy;
  ca_head : HeadSnapshot;
  ca_baseContent : option Cg4PolicyContentV1;
}.

Definition loadCandidate (s : PolicyStore) (policyId : string) (version : Z) (expectedContentDigest : string)
  : studio Candidate :=
  row ← from_option (find_version s policyId version) P_NOT_FOUND;
  throw_if (negb (bool_decide (pr_contentDigest row = expectedContentDigest)))
    (P_VERSION_CONFLICT version (pr_version row)) ;;
  compiled ← compile_row row;
  throw_if (negb (bool_decide (cp_contentDigest compiled = pr_contentDigest row))) P_DIGEST_CHANGED ;;
  let head := loadHead s (pr_scopeKey row) in
  baseContent ← loadHeadContent s head;
  Ok (Candidate_ row compiled head baseContent).

(** ** [preview] and [runTests] *)

Record RunCg4PolicyTestsCommandInput := TestCommandInput {
  te_base : CommandBase;
  te_policyId : string;
  te_version : Z;
  te_expectedContentDigest : string;
  te_tenantPack : Cg4PolicyFixturePack;
  te_platformPack : option Cg4PolicyFixturePack;
  te_pinnedEvaluationTime : string;
  te_pinnedTimezone : string;
}.

(** The preview of a candidate; [fuel] bounds the probe loops of its packs. *)
Definition preview_candidate (fuel : nat) (i : RunCg4PolicyTestsCommandInput) (ca : Candidate)
  : studio Cg4PolicyPreview :=
  rethrow_as P_PREVIEW (previewCg4Policy sha256_hex fuel
    (TestsInput (ca_compiled ca) (te_tenantPack i) (te_platformPack i) (te_pinnedEvaluationTime i)
       (te_pinnedTimezone i))
    (ca_baseContent ca) (hs_headVersion (ca_head ca)) (hs_headDigest (ca_head ca))).

(** [preview] persists nothing. *)
Definition preview (fuel : nat) (s : PolicyStore) (i : RunCg4PolicyTestsCommandInput)
  : studio Cg4PolicyPreview :=
  tenant_context (cm_tenantId (te_base i)) ;;
  candidate ← loadCandidate s (te_policyId i) (te_version i) (te_expectedContentDigest i);
  preview_candidate fuel i candidate.

(** What a command that loads a candidate holds when it asks for the lock. *)
Record CandidateBegun := CandidateBegun_ {
  cb_occurredAt : Z;
  cb_requestHash : string;
  cb_candidate : Candidate;
}.

(** The common beginning of the four commands on a candidate. *)
Definition begin_candidate (s : PolicyStore) (operation : string) (c : CommandBase) (occurredAt : Z)
  (requestHash policyId : string) (version : Z) (expectedContentDigest : string)
  : studio (Response + CandidateBegun) :=
  tenant_context (cm_tenantId c) ;;
  previous ← replay_receipt s operation (cm_idempotencyKey c) requestHash;
  match previous with
  | Some response => Ok (inl response)
  | None =>
      candidate ← loadCandidate s policyId version expectedContentDigest;
      Ok (inr (CandidateBegun_ occurredAt requestHash candidate))
  end.

Definition test_hash (i : RunCg4PolicyTestsCommandInput) : string :=
  stableDigest (JObj
    [("tenantId", JStr (cm_tenantId (te_base i))); ("policyId", JStr (te_policyId i));
     ("version", num (te_version i)); ("expectedContentDigest", JStr (te_expectedContentDigest i));
     ("pinnedEvaluationTime", JStr (te_pinnedEvaluationTime i));
     ("pinnedTimezone", JStr (te_pinnedTimezone i)); ("actorSubjectId", JStr (actor_id (te_base i)))]).

Definition begin_runTests (s : PolicyStore) (i : RunCg4PolicyTestsCommandInput)
  : studio (Response + CandidateBegun) :=
  let c := te_base i in
  nonEmpty (cm_idempotencyKey c) ;;
  occurredAt ← instant (cm_occurredAt c);
  begin_candidate s "CG4_POLICY_TEST" c occurredAt (test_hash i) (te_policyId i) (te_version i)
    (te_expectedContentDigest i).

(** The key of the upsert: policy, version, suite and content. *)
Definition same_artifact (policyId : string) (version : Z) (suiteVersion contentDigest : string)
  (a : TestArtifact) : bool :=
  bool_decide (ta_policyId a = policyId) && (ta_policyVersion a =? version) &&
  bool_decide (ta_suiteVersion a = suiteVersion) && bool_decide (ta_contentDigest a = contentDigest).

Definition new_artifact (id policyId : string) (version : Z) (compiled : Cg4CompiledPolicy)
  (head : HeadSnapshot) (p : Cg4PolicyPreview) : TestArtifact :=
  TestArtifact_ id policyId version (tn_suiteVersion (pv_tests p)) (pv_artifactDigest p)
    (cp_contentDigest compiled) (pv_platformFixturePackDigest p) (pv_tenantFixturePackDigest p)
    (hs_headVersion head) (hs_headDigest head) (pv_diffClass p) (tn_pass (pv_tests p))
    (tn_passed (pv_tests p)) (tn_failed (pv_tests p)).

(** [upsert] with an empty update: the row of the key as it is, or the new one. *)
Definition upsert_artifact (s : PolicyStore) (a : TestArtifact) : TestArtifact * PolicyStore :=
  match js_find (same_artifact (ta_policyId a) (ta_policyVersion a) (ta_suiteVersion a) (ta_contentDigest a))
          (ps_artifacts s) with
  | Some existing => (existing, s)
  | None => (a, with_artifacts (ps_artifacts s ++ [a]) s)
  end.

Definition stamped (p : Cg4PolicyPreview) (head : HeadSnapshot) (r : PolicyVersion) : PolicyVersion :=
  PolicyVersion_ (pr_identity r) (pr_draft r)
    (TestBinding_ (Some (pv_artifactDigest p)) (Some (pv_diffClass p)) (Some (hs_headVersion head))
       (Some (hs_headDigest head)))
    (pr_progress r).

(** [where: { id, status }] *)
Definition has_status (id : string) (st : PolicyStatus) (r : PolicyVersion) : bool :=
  bool_decide (pr_id r = id) && bool_decide (pr_status r = st).

Definition commit_runTests (fuel : nat) (s : PolicyStore) (i : RunCg4PolicyTestsCommandInput)
  (b : CandidateBegun) (now : Z) : studio (Response * PolicyStore) :=
  let c := te_base i in
  let row := ca_row (cb_candidate b) in
  let head := ca_head (cb_candidate b) in
  authorized_for c CG_POLICY_DRAFT (pr_scopeKey row) now ;;
  p ← preview_candidate fuel i (cb_candidate b);
  let next := ps_nextId s in
  let '(artifact, s1) := upsert_artifact s
    (new_artifact (fresh next) (te_policyId i) (te_version i) (ca_compiled (cb_candidate b)) head p) in
  s2 ← (if bool_decide (pr_status row = S_DRAFT)
        then write_policies (update_where (has_status (pr_id row) S_DRAFT) (stamped p head) (ps_policies s1)) s1
        else Ok s1);
  let mutationId := fresh (next + 1) in
  let response := R_TEST mutationId (ta_id artifact) p in
  let audit := draft_audit mutationId (te_policyId i) (te_version i) "CG4_POLICY_TEST" c
                 (tb_testArtifactDigest (pr_binding row)) (pv_artifactDigest p) (cb_occurredAt b) in
  s3 ← writeReceipt (append_audit audit s2) "CG4_POLICY_TEST" (cm_idempotencyKey c) (cb_requestHash b) response;
  Ok (response, draw 2 s3).

(** ** [submit] *)

Definition assertFreshTests (s : PolicyStore) (policyId : string) (version : Z)
  (contentDigest artifactDigest : string) (head : HeadSnapshot) : studio unit :=
  artifact ← from_option (js_find (fun a => bool_decide (ta_policyId a = policyId) &&
                            (ta_policyVersion a =? version) && bool_decide (ta_artifactDigest a = artifactDigest))
                            (ps_artifacts s)) (P_LIFECYCLE POLICY_TESTS_REQUIRED);
  lifecycle_if (negb (ta_pass artifact)) POLICY_TESTS_FAILED ;;
  lifecycle_if (negb (bool_decide (ta_contentDigest artifact = contentDigest))) POLICY_TESTS_REQUIRED ;;
  lifecycle_if (negb (ta_baseHeadVersion artifact =? hs_headVersion head) ||
                negb (bool_decide (ta_baseHeadDigest artifact = hs_headDigest head))) POLICY_HEAD_CONFLICT.

Record SubmitCg4PolicyInput := SubmitInput {
  su_base : CommandBase;
  su_policyId : string;
  su_version : Z;
  su_expectedDraftRevision : Z;
  su_expectedContentDigest : string;
  su_expectedTestArtifactDigest : string;
}.

Definition begin_submit (s : PolicyStore) (i : SubmitCg4PolicyInput) : studio (Response + CandidateBegun) :=
  let c := su_base i in
  nonEmpty (cm_idempotencyKey c) ;;
  occurredAt ← instant (cm_occurredAt c);
  let requestHash := stableDigest (JObj
    [("tenantId", JStr (cm_tenantId c)); ("policyId", JStr (su_policyId i)); ("version", num (su_version i));
     ("expectedDraftRevision", num (su_expectedDraftRevision i));
     ("expectedContentDigest", JStr (su_expectedContentDigest i));
     ("expectedTestArtifactDigest", JStr (su_expectedTestArtifactDigest i));
     ("actorSubjectId", JStr (actor_id c))]) in
  begin_candidate s "CG4_POLICY_SUBMIT" c occurredAt requestHash (su_policyId i) (su_version i)
    (su_expectedContentDigest i).

Definition submitted (occurredAt : Z) (r : PolicyVersion) : PolicyVersion :=
  let p := pr_progress r in
  PolicyVersion_ (pr_identity r) (pr_draft r) (pr_binding r)
    (Progress_ S_IN_REVIEW (Some occurredAt) (pg_approvedAt p) (pg_publishedAt p) (pg_approvalDigest p)
       (pg_activateAt p) (pg_supersedesId p) (pg_effectiveTo p)).

Definition commit_submit (s : PolicyStore) (i : SubmitCg4PolicyInput) (b : CandidateBegun) (now : Z)
  : studio (Response * PolicyStore) :=
  let c := su_base i in
  let row := ca_row (cb_candidate b) in
  let digest := cp_contentDigest (ca_compiled (cb_candidate b)) in
  authorized_for c CG_POLICY_DRAFT (pr_scopeKey row) now ;;
  lifecycle_if (negb (bool_decide (pr_status row = S_DRAFT))) POLICY_INVALID_LIFECYCLE_TRANSITION ;;
  assertFreshTests s (su_policyId i) (su_version i) digest (su_expectedTestArtifactDigest i)
    (ca_head (cb_candidate b)) ;;
  let matched := is_draft_at (pr_id row) (su_expectedDraftRevision i) in
  s1 ← write_policies (update_where matched (submitted (cb_occurredAt b)) (ps_policies s)) s;
  throw_if (negb (count_where matched (ps_policies s) =? 1))
    (P_VERSION_CONFLICT (su_expectedDraftRevision i) (pr_draftRevision row)) ;;
  let mutationId := fresh (ps_nextId s) in
  let response := R_DRAFT (draft_result mutationId row (su_expectedDraftRevision i) digest S_IN_REVIEW) in
  let audit := draft_audit mutationId (su_policyId i) (su_version i) "CG4_POLICY_SUBMIT" c None digest
                 (cb_occurredAt b) in
  s2 ← writeReceipt (append_audit audit s1) "CG4_POLICY_SUBMIT" (cm_idempotencyKey c) (cb_requestHash b) response;
  Ok (response, draw 1 s2).

(** ** [recordPolicyApproval] *)

Record RecordCg4PolicyApprovalInput := PolicyVoteInput {
  vo_tenantId : string;
  vo_policyId : string;
  vo_expectedVersion : Z;
  vo_expectedContentDigest : string;
  vo_diffClass : Cg4PolicyDiffClass;
  vo_approve : bool;
  vo_evidenceRef : string;
  vo_makerSubjectId : string;
  vo_scopeKey : string;
  vo_checker : Cg4AuthorizationSubject;
  vo_idempotencyKey : string;
}.

Definition policy_vote_hash (i : RecordCg4PolicyApprovalInput) : string :=
  stableDigest (JObj
    [("tenantId", JStr (vo_tenantId i)); ("policyId", JStr (vo_policyId i));
     ("expectedVersion", num (vo_expectedVersion i));
     ("expectedContentDigest", JStr (vo_expectedContentDigest i));
     ("diffClass", JStr (class_text (vo_diffClass i)));
     ("decision", JStr (if vo_approve i then "APPROVE" else "REJECT"));
     ("evidenceRef", JStr (vo_evidenceRef i)); ("makerSubjectId", JStr (vo_makerSubjectId i));
     ("scopeKey", JStr (vo_scopeKey i)); ("checkerSubjectId", JStr (sub_subjectId (vo_checker i)));
     ("authorizationEpoch", num (sub_authorizationEpoch (vo_checker i)));
     ("scopeVersion", num (sub_scopeVersion (vo_checker i)))]).

Definition new_policy_vote (i : RecordCg4PolicyApprovalInput) (id : string) (grant : Cg4CapabilityGrant)
  (now : Z) : PolicyVote :=
  PolicyVote_ id (vo_policyId i) (vo_expectedVersion i) (vo_approve i)
    (RecordedApproval (sub_subjectId (vo_checker i)) (resolveCg4RequiredPolicyCapability (vo_diffClass i))
       (sub_directComplianceAuthority (vo_checker i)) (sub_emergencyAuthority (vo_checker i))
       (cgr_source grant) (truthy (cgr_delegationId grant)) (sub_authorizationEpoch (vo_checker i))
       (sub_scopeVersion (vo_checker i)) (toISOString now)).

(** [create] with the unique key (policy, version, approver) of the table. *)
Definition insert_policy_vote (s : PolicyStore) (v : PolicyVote) : studio PolicyStore :=
  throw_if (js_some (fun w => bool_decide (ra_checkerSubjectId (pw_vote w) = ra_checkerSubjectId (pw_vote v)))
              (votes_of s (pw_policyId v) (pw_policyVersion v))) P_UNIQUE_VIOLATION ;;
  Ok (with_votes (ps_votes s ++ [v]) s).

Definition recordPolicyApproval (s : PolicyStore) (i : RecordCg4PolicyApprovalInput) (now : Z)
  : studio (Response * PolicyStore) :=
  nonEmpty (vo_tenantId i) ;; nonEmpty (vo_policyId i) ;; nonEmpty (vo_evidenceRef i) ;;
  nonEmpty (vo_makerSubjectId i) ;; nonEmpty (vo_scopeKey i) ;; nonEmpty (vo_idempotencyKey i) ;;
  let requestHash := policy_vote_hash i in
  previous ← replay_receipt s "CG4_POLICY_APPROVAL_RECORD" (vo_idempotencyKey i) requestHash;
  match previous with
  | Some response => Ok (response, s)
  | None =>
      policy ← from_option (find_version s (vo_policyId i) (vo_expectedVersion i)) P_NOT_FOUND;
      throw_if (negb (bool_decide (pr_contentDigest policy = vo_expectedContentDigest i)))
        (P_VERSION_CONFLICT (vo_expectedVersion i) (pr_version policy)) ;;
      let existingApprovals := map pw_vote (votes_of s (vo_policyId i) (vo_expectedVersion i)) in
      grant ← rethrow_as P_NOT_AUTHORIZED (assertCg4ApprovalAuthorization
        (ApprovalInput (resolveCg4RequiredPolicyCapability (vo_diffClass i)) (vo_checker i) (vo_scopeKey i)
           (vo_makerSubjectId i) existingApprovals now));
      let next := ps_nextId s in
      let approval := new_policy_vote i (fresh next) grant now in
      s1 ← insert_policy_vote s approval;
      let quorum := evaluateCg4Quorum (resolveCg4PolicyQuorum (vo_diffClass i))
                      (existingApprovals ++ [pw_vote approval]) (negb (vo_approve i)) now in
      let audit := PolicyAudit_ (fresh (next + 1)) (pr_id policy) (vo_expectedVersion i)
        (if vo_approve i then "CG4_POLICY_APPROVAL_RECORDED" else "CG4_POLICY_REJECTION_RECORDED")
        (sub_subjectId (vo_checker i)) (vo_evidenceRef i) (Some (pr_contentDigest policy))
        (pr_contentDigest policy) now in
      let response := R_VOTE (pw_id approval) quorum in
      s2 ← writeReceipt (append_audit audit s1) "CG4_POLICY_APPROVAL_RECORD" (vo_idempotencyKey i) requestHash
             response;
      Ok (response, draw 2 s2)
  end.

(** ** [finalizeApproval] *)

Record FinalizeCg4PolicyApprovalInput := FinalizeInput {
  fi_base : CommandBase;
  fi_policyId : string;
  fi_version : Z;
  fi_expectedContentDigest : string;
  fi_expectedTestArtifactDigest : string;
  fi_expectedDiffClass : Cg4PolicyDiffClass;
  fi_expectedScopeHeadVersion : Z;
  fi_expectedScopeHeadDigest : string;
  fi_activateAt : string;
}.

(** [begin_*] of the finalization also keeps the parsed [activateAt]. *)
Definition begin_finalizeApproval (s : PolicyStore) (i : FinalizeCg4PolicyApprovalInput)
  : studio (Response + CandidateBegun * Z) :=
  let c := fi_base i in
  nonEmpty (cm_idempotencyKey c) ;;
  occurredAt ← instant (cm_occurredAt c);
  activateAt ← instant (fi_activateAt i);
  let requestHash := stableDigest (JObj
    [("tenantId", JStr (cm_tenantId c)); ("policyId", JStr (fi_policyId i)); ("version", num (fi_version i));
     ("expectedContentDigest", JStr (fi_expectedContentDigest i));
     ("expectedTestArtifactDigest", JStr (fi_expectedTestArtifactDigest i));
     ("expectedDiffClass", JStr (class_text (fi_expectedDiffClass i)));
     ("expectedScopeHeadVersion", num (fi_expectedScopeHeadVersion i));
     ("expectedScopeHeadDigest", JStr (fi_expectedScopeHeadDigest i));
     ("activateAt", JStr (toISOString activateAt)); ("actorSubjectId", JStr (actor_id c))]) in
  begun ← begin_candidate s "CG4_POLICY_APPROVE" c occurredAt requestHash (fi_policyId i) (fi_version i)
            (fi_expectedContentDigest i);
  Ok match begun with inl response => inl response | inr b => inr (b, activateAt) end.

(** The votes a quorum counts: the approving rows, without their delegations. *)
Definition counted_policy_votes (rows : list PolicyVote) : list Cg4RecordedApproval :=
  map (fun row =>
    let v := pw_vote row in
    RecordedApproval (ra_checkerSubjectId v) (ra_capability v) (ra_directComplianceAuthority v)
      (ra_emergencyAuthority v) (ra_source v) None (ra_authorizationEpoch v) (ra_scopeVersion v)
      (ra_decidedAt v))
    (js_filter pw_approved rows).

(** [orderBy: { decidedAt: 'asc' }]: ISO instants sort as text. *)
Definition vote_le (a b : PolicyVote) : bool := str_le (ra_decidedAt (pw_vote a)) (ra_decidedAt (pw_vote b)).
Definition approval_rows (s : PolicyStore) (policyId : string) (version : Z) : list PolicyVote :=
  sort_by vote_le (votes_of s policyId version).

(** The quorum of a version's votes for a diff class. *)
Definition policy_quorum (s : PolicyStore) (policyId : string) (version : Z) (cls : Cg4PolicyDiffClass)
  (now : Z) : Cg4QuorumEvaluation :=
  let rows := approval_rows s policyId version in
  evaluateCg4Quorum (resolveCg4PolicyQuorum cls) (counted_policy_votes rows)
    (js_some (fun v => negb (pw_approved v)) rows) now.

Definition capability_text (c : Cg4Capability) : string :=
  match c with
  | CG_EXCEPTION_REQUEST => "cg.exception.request" | CG_EXCEPTION_AMEND => "cg.exception.amend"
  | CG_EXCEPTION_APPROVE_STANDARD => "cg.exception.approve.standard"
  | CG_EXCEPTION_APPROVE_HIGH => "cg.exception.approve.high"
  | CG_EXCEPTION_REVOKE => "cg.exception.revoke" | CG_POLICY_DRAFT => "cg.policy.draft"
  | CG_POLICY_PUBLISH => "cg.policy.publish"
  | CG_POLICY_PUBLISH_RELAXATION => "cg.policy.publish.relaxation"
  | CG_POLICY_ROLLBACK => "cg.policy.rollback"
  end.

Definition approval_json (v : PolicyVote) : jsval :=
  JObj [("approverRef", JStr (ra_checkerSubjectId (pw_vote v)));
        ("decision", JStr (if pw_approved v then "APPROVED" else "REJECTED"));
        ("capability", JStr (capability_text (ra_capability (pw_vote v))));
        ("authorizationEpoch", num (ra_authorizationEpoch (pw_vote v)));
        ("scopeVersion", num (ra_scopeVersion (pw_vote v)));
        ("decidedAt", JStr (ra_decidedAt (pw_vote v)))].

Definition approval_digest (i : FinalizeCg4PolicyApprovalInput) (contentDigest : string)
  (head : HeadSnapshot) (activateAt : Z) (rows : list PolicyVote) : string :=
  stableDigest (JObj
    [("policyId", JStr (fi_policyId i)); ("version", num (fi_version i)); ("contentDigest", JStr contentDigest);
     ("testArtifactDigest", JStr (fi_expectedTestArtifactDigest i));
     ("diffClass", JStr (class_text (fi_expectedDiffClass i))); ("headVersion", num (hs_headVersion head));
     ("headDigest", JStr (hs_headDigest head)); ("activateAt", JStr (toISOString activateAt));
     ("approvals", JArr (map approval_json rows))]).

Definition with_progress (p : Progress) (r : PolicyVersion) : PolicyVersion :=
  PolicyVersion_ (pr_identity r) (pr_draft r) (pr_binding r) p.

(** [data: { status }] *)
Definition set_policy_status (st : PolicyStatus) (r : PolicyVersion) : PolicyVersion :=
  let p := pr_progress r in
  with_progress (Progress_ st (pg_submittedAt p) (pg_approvedAt p) (pg_publishedAt p) (pg_approvalDigest p)
    (pg_activateAt p) (pg_supersedesId p) (pg_effectiveTo p)) r.

Definition approved (occurredAt : Z) (approvalDigest : string) (activateAt : Z) (r : PolicyVersion)
  : PolicyVersion :=
  let p := pr_progress r in
  with_progress (Progress_ S_APPROVED (pg_submittedAt p) (Some occurredAt) (pg_publishedAt p)
    (Some approvalDigest) (Some activateAt) (pg_supersedesId p) (pg_effectiveTo p)) r.

(** The head a command was told to expect. *)
Definition head_differs (head : HeadSnapshot) (version : Z) (digest : string) : bool :=
  negb (hs_headVersion head =? version) || negb (bool_decide (hs_headDigest head = digest)).

Definition commit_finalizeApproval (s : PolicyStore) (i : FinalizeCg4PolicyApprovalInput)
  (b : CandidateBegun) (activateAt now : Z) : studio (Response * PolicyStore) :=
  let c := fi_base i in
  let row := ca_row (cb_candidate b) in
  let head := ca_head (cb_candidate b) in
  let digest := cp_contentDigest (ca_compiled (cb_candidate b)) in
  lifecycle_if (negb (bool_decide (pr_status row = S_IN_REVIEW))) POLICY_INVALID_LIFECYCLE_TRANSITION ;;
  lifecycle_if (head_differs head (fi_expectedScopeHeadVersion i) (fi_expectedScopeHeadDigest i))
    POLICY_HEAD_CONFLICT ;;
  assertFreshTests s (fi_policyId i) (fi_version i) digest (fi_expectedTestArtifactDigest i) head ;;
  lifecycle_if (negb (bool_decide (pr_diffClass row = Some (fi_expectedDiffClass i)))) POLICY_APPROVAL_STALE ;;
  let rows := approval_rows s (fi_policyId i) (fi_version i) in
  let quorum := policy_quorum s (fi_policyId i) (fi_version i) (fi_expectedDiffClass i) now in
  let rejected := bool_decide (qe_status quorum = Q_REJECTED) in
  (if rejected then Ok tt else rethrow_as P_NOT_AUTHORIZED (assertCg4QuorumMet quorum)) ;;
  let digestOfVotes := approval_digest i digest head activateAt rows in
  let matched := has_status (pr_id row) S_IN_REVIEW in
  let change := if rejected then set_policy_status S_REJECTED
                else approved (cb_occurredAt b) digestOfVotes activateAt in
  s1 ← write_policies (update_where matched change (ps_policies s)) s;
  throw_if (negb (count_where matched (ps_policies s) =? 1))
    (P_VERSION_CONFLICT (fi_version i) (pr_version row)) ;;
  let mutationId := fresh (ps_nextId s) in
  let response := R_APPROVAL
    (draft_result mutationId row (pr_draftRevision row) digest (if rejected then S_REJECTED else S_APPROVED))
    quorum (toISOString activateAt) in
  let audit := draft_audit mutationId (fi_policyId i) (fi_version i)
    (if rejected then "CG4_POLICY_REJECT" else "CG4_POLICY_APPROVE") c None
    (if rejected then digest else digestOfVotes) (cb_occurredAt b) in
  s2 ← writeReceipt (append_audit audit s1) "CG4_POLICY_APPROVE" (cm_idempotencyKey c) (cb_requestHash b)
         response;
  Ok (response, draw 1 s2).

(** ** [moveHead] *)

Record HeadMove := HeadMove_ {
  mv_tenantId : string;
  mv_mutationId : string;
  mv_eventId : string;
  mv_scopeKey : string;
  mv_head : HeadSnapshot;
  mv_rowId : string;
  mv_policyId : string;
  mv_version : Z;
  mv_contentDigest : string;
  mv_activateAt : Z;
  mv_occurredAt : Z;
  mv_actorRef : string;
  mv_evidenceRef : string;
  mv_diffClass : Cg4PolicyDiffClass;
  mv_transitionKind : string;
  mv_action : string;
  mv_activate : bool;
  mv_quorum : Cg4QuorumEvaluation;
}.

(** The bound dimensions, spread after [scopeKey]. *)
Definition scope_fields (scopeKey : string) : list (string * jsval) :=
  let ds := cg4EventScopeDimensions scopeKey in
  flat_map (fun d => match dim_get ds d with
                     | Some v => [(dimension_name d, JStr v)]
                     | None => []
                     end) CG4_POLICY_SCOPE_DIMENSIONS.

Definition scope_digest (scopeKey : string) : string := stableDigest (JObj [("scopeKey", JStr scopeKey)]).

Definition head_payload (m : HeadMove) (headDigest : string) (nextActivationAt : option Z) : jsval :=
  JObj ([("contractVersion", num 1); ("mutationId", JStr (mv_mutationId m));
         ("transitionKind", JStr (mv_transitionKind m)); ("subjectId", JStr (mv_policyId m));
         ("subjectVersion", num (mv_version m));
         ("state", JStr (if mv_activate m then "ACTIVE" else "SCHEDULED"));
         ("effectiveAt", JStr (toISOString (mv_activateAt m)));
         ("affectedScope", JObj (("scopeKey", JStr (mv_scopeKey m)) :: scope_fields (mv_scopeKey m)));
         ("scopeDigest", JStr (scope_digest (mv_scopeKey m)));
         ("policyVersion", num (mv_version m)); ("policyContentDigest", JStr (mv_contentDigest m));
         ("ruleRegistryVersion", JStr CG4_RULE_REGISTRY_VERSION);
         ("policySchemaVersion", num CG4_POLICY_SCHEMA_VERSION);
         ("evaluatorVersion", JStr CG4_EVALUATOR_VERSION); ("stateDigest", JStr headDigest);
         ("restrictiveness", JStr (class_text (mv_diffClass m)))] ++
        (match nextActivationAt with Some t => [("nextActivationAt", JStr (toISOString t))] | None => [] end)).

Definition emitHeadChange (m : HeadMove) (headVersion : Z) (headDigest : string)
  (nextActivationAt : option Z) (s : PolicyStore) : PolicyStore :=
  let payload := head_payload m headDigest nextActivationAt in
  append_audit (PolicyAudit_ (mv_mutationId m) (mv_policyId m) headVersion (mv_action m) (mv_actorRef m)
                  (mv_evidenceRef m) (Some (hs_headDigest (mv_head m))) headDigest (mv_occurredAt m))
    (append_event (PolicyEvent_ (mv_eventId m) (mv_mutationId m) (mv_policyId m) headVersion "policy.changed"
                     (mv_tenantId m +:+ ":" +:+ mv_scopeKey m) payload (stableDigest payload)) s).

Definition superseded (at_ : Z) (r : PolicyVersion) : PolicyVersion :=
  let p := pr_progress r in
  with_progress (Progress_ S_SUPERSEDED (pg_submittedAt p) (pg_approvedAt p) (pg_publishedAt p)
    (pg_approvalDigest p) (pg_activateAt p) (pg_supersedesId p) (Some at_)) r.

Definition activated (occurredAt : Z) (supersedes : option string) (r : PolicyVersion) : PolicyVersion :=
  let p := pr_progress r in
  with_progress (Progress_ S_ACTIVE (pg_submittedAt p) (pg_approvedAt p) (Some occurredAt)
    (pg_approvalDigest p) (pg_activateAt p)
    (match supersedes with Some id => Some id | None => pg_supersedesId p end) (pg_effectiveTo p)) r.

(** [status: { in: ['APPROVED', 'SCHEDULED'] }] *)
Definition may_activate (id : string) (r : PolicyVersion) : bool :=
  bool_decide (pr_id r = id) && (bool_decide (pr_status r = S_APPROVED) || bool_decide (pr_status r = S_SCHEDULED)).

(** The open jobs of the scope, the candidate's own version number excepted. *)
Definition overtaken_job (m : HeadMove) (j : ActivationJob) : bool :=
  bool_decide (aj_scopeKey j = mv_scopeKey m) && job_open j && negb (aj_policyVersion j =? mv_version m).

Definition finish_job (st : JobState) (attempts : Z) (leaseOwner : option string)
  (leaseExpiresAt completedAt : option Z) (j : ActivationJob) : ActivationJob :=
  ActivationJob_ (aj_id j) (aj_policyId j) (aj_policyVersion j) (aj_scopeKey j) (aj_scheduledFor j) st
    attempts leaseOwner leaseExpiresAt completedAt.

Definition cancel_job (occurredAt : Z) (j : ActivationJob) : ActivationJob :=
  finish_job J_CANCELLED (aj_attempts j) (aj_leaseOwner j) (aj_leaseExpiresAt j) (Some occurredAt) j.

(** [if (input.activate)]: the old version out, the new one in, the other schedules off. *)
Definition activate_rows (m : HeadMove) (s : PolicyStore) : studio PolicyStore :=
  let headId := truthy (hs_revisionId (mv_head m)) in
  s1 ← match headId with
       | None => Ok s
       | Some id =>
           let matched := has_status id S_ACTIVE in
           s' ← write_policies (update_where matched (superseded (mv_activateAt m)) (ps_policies s)) s;
           lifecycle_if (negb (count_where matched (ps_policies s) =? 1)) POLICY_HEAD_CONFLICT ;;
           Ok s'
       end;
  let matched := may_activate (mv_rowId m) in
  s2 ← write_policies (update_where matched (activated (mv_occurredAt m) headId) (ps_policies s1)) s1;
  throw_if (negb (count_where matched (ps_policies s1) =? 1)) (P_VERSION_CONFLICT (mv_version m) (mv_version m)) ;;
  write_jobs (update_where (overtaken_job m) (cancel_job (mv_occurredAt m)) (ps_jobs s2)) s2.

(** [create] of the head of a scope that has none, or [updateMany] where the version is still the
    one read. *)
Definition write_head (m : HeadMove) (h : ScopeHead) (s : PolicyStore) : studio PolicyStore :=
  if hs_headVersion (mv_head m) =? 0 then
    throw_if (map_has (mv_scopeKey m) (ps_heads s)) P_UNIQUE_VIOLATION ;;
    Ok (with_heads (map_set (mv_scopeKey m) h (ps_heads s)) s)
  else
    match map_get (mv_scopeKey m) (ps_heads s) with
    | Some current =>
        lifecycle_if (negb (hd_headVersion current =? hs_headVersion (mv_head m))) POLICY_HEAD_CONFLICT ;;
        Ok (with_heads (map_set (mv_scopeKey m) h (ps_heads s)) s)
    | None => Err (P_LIFECYCLE POLICY_HEAD_CONFLICT)
    end.

Definition move_result (m : HeadMove) (st : PolicyStatus) (headVersion : Z) (headDigest : string) : PublishResult :=
  PublishResult_ (mv_mutationId m) (mv_eventId m) (mv_policyId m) (mv_rowId m) (mv_version m) st
    (mv_scopeKey m) headVersion headDigest (toISOString (mv_activateAt m)) (mv_quorum m).

Definition moveHead (m : HeadMove) (s : PolicyStore) : studio (PublishResult * PolicyStore) :=
  throw_if (ps_frozen s) P_MUTATION_FROZEN ;;
  let headVersion := hs_headVersion (mv_head m) + 1 in
  s1 ← (if mv_activate m then activate_rows m s else Ok s);
  let target := if mv_activate m then Some (mv_policyId m, mv_version m, mv_rowId m)
                else hs_head (mv_head m) in
  let headDigest := if mv_activate m
                    then cg4PolicyHeadDigest (mv_policyId m) (mv_version m) (mv_contentDigest m)
                    else hs_headDigest (mv_head m) in
  let nextActivationAt := if mv_activate m then None else Some (mv_activateAt m) in
  match target with
  | None =>
      let v := hs_headVersion (mv_head m) in
      Ok (move_result m S_SCHEDULED v (hs_headDigest (mv_head m)),
          emitHeadChange m v (hs_headDigest (mv_head m)) nextActivationAt s1)
  | Some (policyId, version, revisionId) =>
      s2 ← write_head m (ScopeHead_ policyId version revisionId headVersion headDigest (mv_mutationId m)
                           nextActivationAt) s1;
      Ok (move_result m (if mv_activate m then S_ACTIVE else S_SCHEDULED) headVersion headDigest,
          emitHeadChange m headVersion headDigest nextActivationAt s2)
  end.

(** ** [publish] *)

Record PublishCg4PolicyInput := PublishInput {
  pu_base : CommandBase;
  pu_policyId : string;
  pu_version : Z;
  pu_expectedContentDigest : string;
  pu_expectedTestArtifactDigest : string;
  pu_expectedApprovalDigest : string;
  pu_expectedScopeHeadVersion : Z;
  pu_expectedScopeHeadDigest : string;
}.

Definition begin_publish (s : PolicyStore) (i : PublishCg4PolicyInput) : studio (Response + CandidateBegun) :=
  let c := pu_base i in
  nonEmpty (cm_idempotencyKey c) ;;
  occurredAt ← instant (cm_occurredAt c);
  let requestHash := stableDigest (JObj
    [("tenantId", JStr (cm_tenantId c)); ("policyId", JStr (pu_policyId i)); ("version", num (pu_version i));
     ("expectedContentDigest", JStr (pu_expectedContentDigest i));
     ("expectedTestArtifactDigest", JStr (pu_expectedTestArtifactDigest i));
     ("expectedApprovalDigest", JStr (pu_expectedApprovalDigest i));
     ("expectedScopeHeadVersion", num (pu_expectedScopeHeadVersion i));
     ("expectedScopeHeadDigest", JStr (pu_expectedScopeHeadDigest i));
     ("actorSubjectId", JStr (actor_id c))]) in
  begin_candidate s "CG4_POLICY_PUBLISH" c occurredAt requestHash (pu_policyId i) (pu_version i)
    (pu_expectedContentDigest i).

(** [row.diffClass ?? 'RELAXATION'] *)
Definition diff_class (r : PolicyVersion) : Cg4PolicyDiffClass := default C_RELAXATION (pr_diffClass r).

(** What publish checks after the lock, up to the quorum it returns. The lock is that of its scope: what
    other scopes do between these reads and the writes below is not held off by it. *)
Definition publish_checks (s : PolicyStore) (i : PublishCg4PolicyInput) (b : CandidateBegun) (now : Z)
  : studio Cg4QuorumEvaluation :=
  let row := ca_row (cb_candidate b) in
  let head := ca_head (cb_candidate b) in
  let digest := cp_contentDigest (ca_compiled (cb_candidate b)) in
  lifecycle_if (negb (bool_decide (pr_status row = S_APPROVED))) POLICY_INVALID_LIFECYCLE_TRANSITION ;;
  lifecycle_if (negb (bool_decide (pg_approvalDigest (pr_progress row) = Some (pu_expectedApprovalDigest i))))
    POLICY_APPROVAL_STALE ;;
  lifecycle_if (head_differs head (pu_expectedScopeHeadVersion i) (pu_expectedScopeHeadDigest i) ||
                negb (bool_decide (tb_baseHeadVersion (pr_binding row) = Some (hs_headVersion head))) ||
                negb (bool_decide (tb_baseHeadDigest (pr_binding row) = Some (hs_headDigest head))))
    POLICY_HEAD_CONFLICT ;;
  assertFreshTests s (pu_policyId i) (pu_version i) digest (pu_expectedTestArtifactDigest i) head ;;
  assertScopeUnambiguous s (pr_scopeKey row) ;;
  lifecycle_if (bool_decide (diff_class row = C_RELAXATION) && killSwitchActive s (pr_scopeKey row))
    KILL_SWITCH_ACTIVE ;;
  let quorum := policy_quorum s (pu_policyId i) (pu_version i) (diff_class row) now in
  rethrow_as P_NOT_AUTHORIZED (assertCg4QuorumMet quorum) ;;
  Ok quorum.

(** The schedule of a version whose instant has not come: its row and its job. *)
Definition schedule (s : PolicyStore) (i : PublishCg4PolicyInput) (row : PolicyVersion) (activateAt : Z)
  (jobId : string) : studio PolicyStore :=
  lifecycle_if (js_some (fun j => bool_decide (aj_scopeKey j = pr_scopeKey row) && job_open j) (ps_jobs s))
    SCHEDULE_CONFLICT ;;
  s1 ← write_policies (update_where (has_status (pr_id row) S_APPROVED) (set_policy_status S_SCHEDULED)
                         (ps_policies s)) s;
  write_jobs (ps_jobs s1 ++
    [ActivationJob_ jobId (pu_policyId i) (pu_version i) (pr_scopeKey row) activateAt J_PENDING 0 None None None]) s1.

Definition publish_writes (s : PolicyStore) (i : PublishCg4PolicyInput) (b : CandidateBegun)
  (quorum : Cg4QuorumEvaluation) : studio (Response * PolicyStore) :=
  let c := pu_base i in
  let row := ca_row (cb_candidate b) in
  let occurredAt := cb_occurredAt b in
  let activateAt := default occurredAt (pg_activateAt (pr_progress row)) in
  let scheduled := occurredAt <? activateAt in
  let next := ps_nextId s in
  s1 ← (if scheduled then schedule s i row activateAt (fresh (next + 2)) else Ok s);
  moved ← moveHead
    {| mv_tenantId := cm_tenantId c; mv_mutationId := fresh next; mv_eventId := fresh (next + 1);
       mv_scopeKey := pr_scopeKey row; mv_head := ca_head (cb_candidate b); mv_rowId := pr_id row;
       mv_policyId := pu_policyId i; mv_version := pu_version i;
       mv_contentDigest := cp_contentDigest (ca_compiled (cb_candidate b)); mv_activateAt := activateAt;
       mv_occurredAt := occurredAt; mv_actorRef := actor_id c; mv_evidenceRef := cm_evidenceRef c;
       mv_diffClass := diff_class row;
       mv_transitionKind := if scheduled then "POLICY_CHANGED" else "POLICY_ACTIVATED";
       mv_action := if scheduled then "CG4_POLICY_SCHEDULE" else "CG4_POLICY_PUBLISH";
       mv_activate := negb scheduled; mv_quorum := quorum |} s1;
  s2 ← writeReceipt (snd moved) "CG4_POLICY_PUBLISH" (cm_idempotencyKey c) (cb_requestHash b)
         (R_PUBLISH (fst moved));
  Ok (R_PUBLISH (fst moved), draw 3 s2).

(** The two phases with nothing in between. *)
Definition commit_publish (s : PolicyStore) (i : PublishCg4PolicyInput) (b : CandidateBegun) (now : Z)
  : studio (Response * PolicyStore) :=
  quorum ← publish_checks s i b now;
  publish_writes s i b quorum.

(** ** [activateDue] *)

Record ActivateDueCg4PolicyInput := ActivateInput {
  ac_tenantId : string;
  ac_policyId : string;
  ac_version : Z;
  ac_leaseOwner : string;
  ac_occurredAt : string;
  ac_idempotencyKey : string;
}.

Record ActivateBegun := ActivateBegun_ {
  at_occurredAt : Z;
  at_requestHash : string;
  at_row : PolicyVersion;
}.

Definition begin_activateDue (s : PolicyStore) (i : ActivateDueCg4PolicyInput)
  : studio (Response + ActivateBegun) :=
  nonEmpty (ac_idempotencyKey i) ;; nonEmpty (ac_leaseOwner i) ;;
  occurredAt ← instant (ac_occurredAt i);
  tenant_context (ac_tenantId i) ;;
  let requestHash := stableDigest (JObj
    [("tenantId", JStr (ac_tenantId i)); ("policyId", JStr (ac_policyId i)); ("version", num (ac_version i))]) in
  previous ← replay_receipt s "CG4_POLICY_ACTIVATE" (ac_idempotencyKey i) requestHash;
  match previous with
  | Some response => Ok (inl response)
  | None =>
      row ← from_option (find_version s (ac_policyId i) (ac_version i)) P_NOT_FOUND;
      Ok (inr (ActivateBegun_ occurredAt requestHash row))
  end.

(** What the activation reads after the lock: its job, the candidate, the head and the quorum. *)
Record ActivationChecked := ActivationChecked_ {
  ax_job : ActivationJob;
  ax_compiled : Cg4CompiledPolicy;
  ax_head : HeadSnapshot;
  ax_quorum : Cg4QuorumEvaluation;
}.

Definition activation_checks (s : PolicyStore) (i : ActivateDueCg4PolicyInput) (b : ActivateBegun) (now : Z)
  : studio ActivationChecked :=
  let row := at_row b in
  lifecycle_if (negb (bool_decide (pr_status row = S_SCHEDULED))) POLICY_INVALID_LIFECYCLE_TRANSITION ;;
  job ← from_option (find_job s (ac_policyId i) (ac_version i)) P_NOT_FOUND;
  lifecycle_if (negb (job_open job)) ACTIVATION_CONFLICT ;;
  lifecycle_if (at_occurredAt b <? aj_scheduledFor job) ACTIVATION_CONFLICT ;;
  compiled ← compile_row row;
  throw_if (negb (bool_decide (cp_contentDigest compiled = pr_contentDigest row))) P_DIGEST_CHANGED ;;
  assertScopeUnambiguous s (pr_scopeKey row) ;;
  let quorum := policy_quorum s (ac_policyId i) (ac_version i) (diff_class row) now in
  rethrow_as P_NOT_AUTHORIZED (assertCg4QuorumMet quorum) ;;
  Ok (ActivationChecked_ job compiled (loadHead s (pr_scopeKey row)) quorum).

Definition activation_writes (s : PolicyStore) (i : ActivateDueCg4PolicyInput) (b : ActivateBegun)
  (c : ActivationChecked) : studio (Response * PolicyStore) :=
  let row := at_row b in
  let job := ax_job c in
  let complete := finish_job J_COMPLETE (aj_attempts job + 1) (Some (ac_leaseOwner i)) None
                    (Some (at_occurredAt b)) in
  s1 ← write_jobs (update_where (fun j => bool_decide (aj_id j = aj_id job) &&
                                          bool_decide (aj_state j = aj_state job)) complete (ps_jobs s)) s;
  let next := ps_nextId s in
  moved ← moveHead
    {| mv_tenantId := ac_tenantId i; mv_mutationId := fresh next; mv_eventId := fresh (next + 1);
       mv_scopeKey := pr_scopeKey row; mv_head := ax_head c; mv_rowId := pr_id row;
       mv_policyId := ac_policyId i; mv_version := ac_version i;
       mv_contentDigest := cp_contentDigest (ax_compiled c); mv_activateAt := aj_scheduledFor job;
       mv_occurredAt := at_occurredAt b; mv_actorRef := ac_leaseOwner i;
       mv_evidenceRef := "activation-job:" +:+ aj_id job; mv_diffClass := diff_class row;
       mv_transitionKind := "POLICY_ACTIVATED"; mv_action := "CG4_POLICY_ACTIVATE";
       mv_activate := true; mv_quorum := ax_quorum c |} s1;
  s2 ← writeReceipt (snd moved) "CG4_POLICY_ACTIVATE" (ac_idempotencyKey i) (at_requestHash b)
         (R_PUBLISH (fst moved));
  Ok (R_PUBLISH (fst moved), draw 2 s2).

(** The two phases with nothing in between. *)
Definition commit_activateDue (s : PolicyStore) (i : ActivateDueCg4PolicyInput) (b : ActivateBegun) (now : Z)
  : studio (Response * PolicyStore) :=
  checked ← activation_checks s i b now;
  activation_writes s i b checked.

(** ** [rollback] *)

Record RollbackCg4PolicyInput := RollbackInput {
  rb_base : CommandBase;
  rb_policyId : string;
  rb_sourceVersion : Z;
  rb_expectedSourceContentDigest : string;
  rb_reasonCode : string;
}.

Record RollbackBegun := RollbackBegun_ {
  rg_occurredAt : Z;
  rg_requestHash : string;
  rg_source : PolicyVersion;
}.

Definition begin_rollback (s : PolicyStore) (i : RollbackCg4PolicyInput) : studio (Response + RollbackBegun) :=
  let c := rb_base i in
  nonEmpty (cm_idempotencyKey c) ;; nonEmpty (rb_reasonCode i) ;;
  occurredAt ← instant (cm_occurredAt c);
  tenant_context (cm_tenantId c) ;;
  let requestHash := stableDigest (JObj
    [("tenantId", JStr (cm_tenantId c)); ("policyId", JStr (rb_policyId i));
     ("sourceVersion", num (rb_sourceVersion i));
     ("expectedSourceContentDigest", JStr (rb_expectedSourceContentDigest i));
     ("reasonCode", JStr (rb_reasonCode i)); ("actorSubjectId", JStr (actor_id c))]) in
  previous ← replay_receipt s "CG4_POLICY_ROLLBACK" (cm_idempotencyKey c) requestHash;
  match previous with
  | Some response => Ok (inl response)
  | None =>
      source ← from_option (find_version s (rb_policyId i) (rb_sourceVersion i)) P_NOT_FOUND;
      throw_if (negb (bool_decide (pr_contentDigest source = rb_expectedSourceContentDigest i)))
        (P_VERSION_CONFLICT (rb_sourceVersion i) (pr_version source)) ;;
      Ok (inr (RollbackBegun_ occurredAt requestHash source))
  end.

Definition commit_rollback (s : PolicyStore) (i : RollbackCg4PolicyInput) (b : RollbackBegun) (now : Z)
  : studio (Response * PolicyStore) :=
  let c := rb_base i in
  let source := rg_source b in
  authorized_for c CG_POLICY_ROLLBACK (pr_scopeKey source) now ;;
  compiled ← compile_row source;
  let version := match latest_version s (rb_policyId i) with
                 | Some latest => pr_version latest
                 | None => pr_version source
                 end + 1 in
  let next := ps_nextId s in
  let row := new_version (fresh next) (rb_policyId i) version (pr_scopeKey source) compiled (rg_occurredAt b)
               (actor_id c) (Some (pr_id source)) in
  s1 ← write_policies (ps_policies s ++ [row]) s;
  let mutationId := fresh (next + 1) in
  let response := R_DRAFT (draft_result mutationId row 1 (cp_contentDigest compiled) S_DRAFT) in
  let audit := draft_audit mutationId (rb_policyId i) version "CG4_POLICY_ROLLBACK" c
                 (Some (pr_contentDigest source)) (cp_contentDigest compiled) (rg_occurredAt b) in
  s2 ← writeReceipt (append_audit audit s1) "CG4_POLICY_ROLLBACK" (cm_idempotencyKey c) (rg_requestHash b)
         response;
  Ok (response, draw 2 s2).

(** ** [killSwitch] *)

Record Cg4KillSwitchInput := KillSwitchInput {
  ki_base : CommandBase;
  ki_scopeKey : string;
  ki_activate : bool;
  ki_reasonCode : string;
  ki_clearApprovalRef : option string;
}.

(** [cg4KillSwitchEvent]: the version of the switch, its state digest and its outbox row. *)
Definition kill_version (active : bool) : Z := if active then 1 else 2.
Definition kill_state (active : bool) : string := if active then "ACTIVE" else "CLEARED".
Definition kill_digest (scopeKey killSwitchId : string) (active : bool) : string :=
  stableDigest (JObj [("scopeKey", JStr scopeKey); ("state", JStr (kill_state active));
                      ("killSwitchId", JStr killSwitchId)]).

Definition cg4KillSwitchEvent (tenantId scopeKey killSwitchId : string) (active : bool)
  (mutationId eventId : string) (occurredAt : Z) : PolicyEvent :=
  let payload := JObj
    [("contractVersion", num 1); ("mutationId", JStr mutationId);
     ("transitionKind", JStr (if active then "KILL_SWITCH_ACTIVATED" else "KILL_SWITCH_CLEARED"));
     ("subjectId", JStr killSwitchId); ("subjectVersion", num (kill_version active));
     ("state", JStr (kill_state active)); ("effectiveAt", JStr (toISOString occurredAt));
     ("affectedScope", JObj (("scopeKey", JStr scopeKey) :: scope_fields scopeKey));
     ("scopeDigest", JStr (scope_digest scopeKey));
     ("ruleRegistryVersion", JStr CG4_RULE_REGISTRY_VERSION);
     ("policySchemaVersion", num CG4_POLICY_SCHEMA_VERSION);
     ("evaluatorVersion", JStr CG4_EVALUATOR_VERSION);
     ("stateDigest", JStr (kill_digest scopeKey killSwitchId active));
     ("restrictiveness", JStr (if active then "TIGHTENING" else "RELAXATION"))] in
  PolicyEvent_ eventId mutationId killSwitchId (kill_version active) "governance.kill-switch.changed"
    (tenantId +:+ ":" +:+ scopeKey) payload (stableDigest payload).

(** [findFirst({ where: { scopeKey, state: 'ACTIVE' }, orderBy: { activatedAt: 'desc' } })]; the
    index keeps one active switch a scope. *)
Definition active_switch (s : PolicyStore) (scopeKey : string) : option KillSwitch :=
  js_find (fun k => bool_decide (ks_scopeKey k = scopeKey) && ks_active k) (ps_switches s).

Definition cleared (approvalRef : string) (occurredAt : Z) (k : KillSwitch) : KillSwitch :=
  KillSwitch_ (ks_id k) (ks_scopeKey k) false (ks_reasonCode k) (ks_evidenceRef k) (ks_activatedByRef k)
    (ks_activatedAt k) (Some approvalRef) (Some occurredAt).

(** The switch the command leaves, whether it was on already, and the store with it. *)
Definition switch_rows (s : PolicyStore) (i : Cg4KillSwitchInput) (occurredAt : Z)
  : studio (string * bool * PolicyStore) :=
  let c := ki_base i in
  match active_switch s (ki_scopeKey i) with
  | Some existing =>
      if ki_activate i then Ok (ks_id existing, true, s)
      else
        approvalRef ← from_option (r ← truthy (ki_clearApprovalRef i); truthy (Some (trim r)))
                        (P_LIFECYCLE APPROVAL_REQUIRED);
        lifecycle_if (bool_decide (ks_activatedByRef existing = actor_id c)) APPROVAL_REQUIRED ;;
        let matched k := bool_decide (ks_id k = ks_id existing) && ks_active k in
        throw_if (negb (count_where matched (ps_switches s) =? 1)) (P_VERSION_CONFLICT 1 0) ;;
        Ok (ks_id existing, false,
            with_switches (update_where matched (cleared approvalRef occurredAt) (ps_switches s)) s)
  | None =>
      if ki_activate i then
        let id := fresh (ps_nextId s) in
        Ok (id, false, with_switches (ps_switches s ++
          [KillSwitch_ id (ki_scopeKey i) true (ki_reasonCode i) (cm_evidenceRef c) (actor_id c) occurredAt
             None None]) s)
      else Err P_NOT_FOUND
  end.

Definition killSwitch (s : PolicyStore) (i : Cg4KillSwitchInput) (now : Z) : studio (Response * PolicyStore) :=
  let c := ki_base i in
  nonEmpty (ki_scopeKey i) ;; nonEmpty (ki_reasonCode i) ;; nonEmpty (cm_idempotencyKey c) ;;
  occurredAt ← instant (cm_occurredAt c);
  tenant_context (cm_tenantId c) ;;
  let requestHash := stableDigest (JObj
    [("tenantId", JStr (cm_tenantId c)); ("scopeKey", JStr (ki_scopeKey i));
     ("action", JStr (if ki_activate i then "ACTIVATE" else "CLEAR"));
     ("reasonCode", JStr (ki_reasonCode i)); ("clearApprovalRef", text_or_null (ki_clearApprovalRef i));
     ("actorSubjectId", JStr (actor_id c))]) in
  previous ← replay_receipt s "CG4_KILL_SWITCH" (cm_idempotencyKey c) requestHash;
  match previous with
  | Some response => Ok (response, s)
  | None =>
      authorized_for c (if ki_activate i then CG_POLICY_PUBLISH else CG_POLICY_PUBLISH_RELAXATION)
        (ki_scopeKey i) now ;;
      changed ← switch_rows s i occurredAt;
      let '(killSwitchId, alreadyActive, s1) := changed in
      let next := ps_nextId s in
      let mutationId := fresh (next + 1) in
      let eventId := fresh (next + 2) in
      let active := ki_activate i in
      let event := cg4KillSwitchEvent (cm_tenantId c) (ki_scopeKey i) killSwitchId active mutationId eventId
                     occurredAt in
      let s2 := if alreadyActive : bool then s1 else append_event event s1 in
      let audit := PolicyAudit_ mutationId killSwitchId (kill_version active)
        (if active then "CG4_KILL_SWITCH_ACTIVATE" else "CG4_KILL_SWITCH_CLEAR") (actor_id c)
        (default (cm_evidenceRef c) (ki_clearApprovalRef i)) None
        (kill_digest (ki_scopeKey i) killSwitchId active) occurredAt in
      let response := R_KILL mutationId eventId killSwitchId (ki_scopeKey i) active in
      s3 ← writeReceipt (append_audit audit s2) "CG4_KILL_SWITCH" (cm_idempotencyKey c) requestHash response;
      Ok (response, draw 3 s3)
  end.

(** ** The activation worker *)

(** A due job nobody holds: [FOR UPDATE SKIP LOCKED] lets a worker claim any that no other is
    claiming. *)
Definition claimable (now : Z) (j : ActivationJob) : bool :=
  job_open j && (aj_scheduledFor j <=? now) &&
  match aj_leaseExpiresAt j with None => true | Some t => t <=? now end.

(** [ORDER BY scheduled_for, id LIMIT 1] *)
Definition job_le (a b : ActivationJob) : bool :=
  if aj_scheduledFor a =? aj_scheduledFor b then str_le (aj_id a) (aj_id b)
  else aj_scheduledFor a <=? aj_scheduledFor b.

Definition next_claimable (s : PolicyStore) (now : Z) : option ActivationJob :=
  head (sort_by job_le (js_filter (claimable now) (ps_jobs s))).

Definition claim_job (s : PolicyStore) (now : Z) (leaseOwner : string) (leaseSeconds : Z)
  : option (ActivationJob * PolicyStore) :=
  match next_claimable s now with
  | None => None
  | Some job =>
      let claimed j := finish_job J_CLAIMED (aj_attempts j) (Some leaseOwner)
                         (Some (now + leaseSeconds * 1000)) (aj_completedAt j) j in
      Some (job, with_jobs (update_where (fun j => bool_decide (aj_id j = aj_id job)) claimed (ps_jobs s)) s)
  end.

(** [Math.min(2 ** attempts * 1_000, 300_000)] *)
Definition backoffMs (attempts : Z) : Z := Z.min (2 ^ attempts * 1000) 300000.

(** The [catch] of [runNext]: the job is parked or tried again later. *)
Definition failed_job (now maxAttempts : Z) (claimed : ActivationJob) (j : ActivationJob) : ActivationJob :=
  let attempts := aj_attempts claimed + 1 in
  let exhausted := maxAttempts <=? attempts in
  ActivationJob_ (aj_id j) (aj_policyId j) (aj_policyVersion j) (aj_scopeKey j)
    (if exhausted then aj_scheduledFor j else now + backoffMs attempts)
    (if exhausted then J_FAILED else J_PENDING) attempts None None (aj_completedAt j).

Definition release_job (s : PolicyStore) (now maxAttempts : Z) (claimed : ActivationJob) : PolicyStore :=
  with_jobs (update_where (fun j => bool_decide (aj_id j = aj_id claimed) && bool_decide (aj_state j = J_CLAIMED))
               (failed_job now maxAttempts claimed) (ps_jobs s)) s.

(** The request a claimed job makes. *)
Definition activation_request (tenantId leaseOwner : string) (now : Z) (claimed : ActivationJob)
  : ActivateDueCg4PolicyInput :=
  ActivateInput tenantId (aj_policyId claimed) (aj_policyVersion claimed) leaseOwner (toISOString now)
    ("cg4-activation:" +:+ aj_id claimed).

Definition dueBacklog (s : PolicyStore) (now : Z) : Z :=
  count_where (fun j => job_open j && (aj_scheduledFor j <=? now)) (ps_jobs s).
End Commands.
