(* ===== verification/PolicySystem.v ===== *)
(** * PolicySystem: the policy studio as a transition system

    The commands of [PolicyLifecycle] and the activation worker run against one tenant's tables in
    any order and with any input. A command that reads before it takes its scope's lock is two
    steps, so any number of commands are under way between their first reads and their locks; and a
    publish or an activation may take a third, between what it checks under the lock and what it
    writes: the lock is that of one scope and the isolation that of single statements, so commands on
    other scopes, and votes and workers, which take no lock, come in between. What
    every command does to the versions, heads and votes is one [effect]; the invariant of the
    tables is proved once per effect. *)
From stdpp Require Import base tactics list strings relations.
From Stdlib Require Import ZArith Lia Sorting.Permutation.
From S2P Require Import Prelude JsMap Text JsDate JsValue Contracts ScopeKey PolicyCompiler PolicyDiff PolicyPreview Authorization Persistence PolicyStore PolicyLifecycle.

Open Scope string_scope.
Open Scope Z_scope.
Open Scope list_scope.

(** ** The system *)

(** A command that reads before it takes the lock, and what it holds when it has. *)
Inductive command :=
  | Amend (i : AmendCg4PolicyDraftInput)
  | RunTests (fuel : nat) (i : RunCg4PolicyTestsCommandInput)
  | Submit (i : SubmitCg4PolicyInput)
  | Finalize (i : FinalizeCg4PolicyApprovalInput)
  | Publish (i : PublishCg4PolicyInput)
  | Activate (i : ActivateDueCg4PolicyInput)
  | Rollback (i : RollbackCg4PolicyInput).

Inductive pending :=
  | P_Amend (i : AmendCg4PolicyDraftInput) (b : AmendBegun)
  | P_RunTests (fuel : nat) (i : RunCg4PolicyTestsCommandInput) (b : CandidateBegun)
  | P_Submit (i : SubmitCg4PolicyInput) (b : CandidateBegun)
  | P_Finalize (i : FinalizeCg4PolicyApprovalInput) (b : CandidateBegun) (activateAt : Z)
  | P_Publish (i : PublishCg4PolicyInput) (b : CandidateBegun)
  | P_Activate (i : ActivateDueCg4PolicyInput) (b : ActivateBegun)
  | P_Rollback (i : RollbackCg4PolicyInput) (b : RollbackBegun)
  | P_PublishChecked (i : PublishCg4PolicyInput) (b : CandidateBegun) (quorum : Cg4QuorumEvaluation)
  | P_ActivateChecked (i : ActivateDueCg4PolicyInput) (b : ActivateBegun) (c : ActivationChecked).

Definition map_begun {A B} (f : A -> B) (r : studio (Response + A)) : studio (Response + B) :=
  match r with
  | Ok (inl response) => Ok (inl response)
  | Ok (inr b) => Ok (inr (f b))
  | Err e => Err e
  end.

Section Run.
Context `{Runtime, Host}.

Definition begin (s : PolicyStore) (c : command) : studio (Response + pending) :=
  match c with
  | Amend i => map_begun (P_Amend i) (begin_amendDraft s i)
  | RunTests fuel i => map_begun (P_RunTests fuel i) (begin_runTests s i)
  | Submit i => map_begun (P_Submit i) (begin_submit s i)
  | Finalize i => map_begun (fun b => P_Finalize i (fst b) (snd b)) (begin_finalizeApproval s i)
  | Publish i => map_begun (P_Publish i) (begin_publish s i)
  | Activate i => map_begun (P_Activate i) (begin_activateDue s i)
  | Rollback i => map_begun (P_Rollback i) (begin_rollback s i)
  end.

Definition commit (s : PolicyStore) (p : pending) (now : Z) : studio (Response * PolicyStore) :=
  match p with
  | P_Amend i b => commit_amendDraft s i b now
  | P_RunTests fuel i b => commit_runTests fuel s i b now
  | P_Submit i b => commit_submit s i b now
  | P_Finalize i b activateAt => commit_finalizeApproval s i b activateAt now
  | P_Publish i b => commit_publish s i b now
  | P_Activate i b => commit_activateDue s i b now
  | P_Rollback i b => commit_rollback s i b now
  | P_PublishChecked i b quorum => publish_writes s i b quorum
  | P_ActivateChecked i b c => activation_writes s i b c
  end.

(** The checks of a publish or an activation under its lock, the writes still to come. *)
Definition check (s : PolicyStore) (p : pending) (now : Z) : option pending :=
  match p with
  | P_Publish i b => match publish_checks s i b now with Ok quorum => Some (P_PublishChecked i b quorum) | Err _ => None end
  | P_Activate i b => match activation_checks s i b now with Ok c => Some (P_ActivateChecked i b c) | Err _ => None end
  | _ => None
  end.

(** A command nothing interrupts. *)
Definition run (s : PolicyStore) (c : command) (now : Z) : studio (Response * PolicyStore) :=
  begun ← begin s c;
  match begun with
  | inl response => Ok (response, s)
  | inr p => commit s p now
  end.
End Run.

Record PolicySystem := PolicySystem_ {
  py_store : PolicyStore;
  py_begun : list pending;
}.

Definition empty_policies : PolicyStore := PolicyStore_ [] [] [] [] [] [] [] [] [] false 0.

(** The rest of the service: it freezes and unfreezes mutations and draws identifiers. *)
Record other_tables (s s' : PolicyStore) : Prop := {
  ot_policies : ps_policies s' = ps_policies s;
  ot_heads : ps_heads s' = ps_heads s;
  ot_artifacts : ps_artifacts s' = ps_artifacts s;
  ot_votes : ps_votes s' = ps_votes s;
  ot_jobs : ps_jobs s' = ps_jobs s;
  ot_switches : ps_switches s' = ps_switches s;
  ot_receipts : ps_receipts s' = ps_receipts s;
  ot_outbox : ps_outbox s' = ps_outbox s;
  ot_nextId : (ps_nextId s <= ps_nextId s')%nat;
}.

(** [cg4PolicyMakerSubjectId]: the maker the gateway passes with a vote. *)
Definition policy_maker (s : PolicyStore) (policyId : string) (version : Z) : option string :=
  (fun r => vi_makerActorRef (pr_identity r)) <$> find_version s policyId version.

Section System.
Context `{Runtime, Host}.

Inductive step : PolicySystem -> PolicySystem -> Prop :=
  | step_create s b i now r s' :
      createDraft s i now = Ok (r, s') -> step (PolicySystem_ s b) (PolicySystem_ s' b)
  | step_vote s b i now r s' :
      policy_maker s (vo_policyId i) (vo_expectedVersion i) = Some (vo_makerSubjectId i) ->
      recordPolicyApproval s i now = Ok (r, s') -> step (PolicySystem_ s b) (PolicySystem_ s' b)
  | step_switch s b i now r s' :
      killSwitch s i now = Ok (r, s') -> step (PolicySystem_ s b) (PolicySystem_ s' b)
  | step_begin s b c p :
      begin s c = Ok (inr p) -> step (PolicySystem_ s b) (PolicySystem_ s (p :: b))
  | step_check s b1 b2 p now p' :
      check s p now = Some p' -> step (PolicySystem_ s (b1 ++ p :: b2)) (PolicySystem_ s (b1 ++ p' :: b2))
  | step_commit s b1 b2 p now r s' :
      commit s p now = Ok (r, s') -> step (PolicySystem_ s (b1 ++ p :: b2)) (PolicySystem_ s' (b1 ++ b2))
  | step_fail s b1 b2 p : step (PolicySystem_ s (b1 ++ p :: b2)) (PolicySystem_ s (b1 ++ b2))
  | step_claim s b now owner leaseSeconds job s' :
      claim_job s now owner leaseSeconds = Some (job, s') -> step (PolicySystem_ s b) (PolicySystem_ s' b)
  | step_release s b now maxAttempts job :
      step (PolicySystem_ s b) (PolicySystem_ (release_job s now maxAttempts job) b)
  | step_other s b s' : other_tables s s' -> step (PolicySystem_ s b) (PolicySystem_ s' b).

Definition initial (y : PolicySystem) : Prop := y = PolicySystem_ empty_policies [].
Definition reachable (y : PolicySystem) : Prop := rtc step (PolicySystem_ empty_policies []) y.

(** ** What becomes of a version *)

Inductive row_step : PolicyVersion -> PolicyVersion -> Prop :=
  | rw_amend r compiled content version n :
      pr_status r = S_DRAFT -> compile_content content version = Ok compiled ->
      row_step r (amended compiled n r)
  | rw_stamp r p head : pr_status r = S_DRAFT -> row_step r (stamped p head r)
  | rw_submit r t : pr_status r = S_DRAFT -> row_step r (submitted t r)
  | rw_reject r : pr_status r = S_IN_REVIEW -> row_step r (set_policy_status S_REJECTED r)
  | rw_approve r t d a : pr_status r = S_IN_REVIEW -> row_step r (approved t d a r)
  | rw_schedule r : pr_status r = S_APPROVED -> row_step r (set_policy_status S_SCHEDULED r)
  | rw_activate r t old : pr_status r = S_APPROVED \/ pr_status r = S_SCHEDULED ->
      row_step r (activated t old r)
  | rw_supersede r t : pr_status r = S_ACTIVE -> row_step r (superseded t r).

Definition row_future : PolicyVersion -> PolicyVersion -> Prop := rtc row_step.

Lemma row_step_identity r r' : row_step r r' -> pr_identity r' = pr_identity r.
Proof. by destruct 1. Qed.

Lemma row_future_identity r r' : row_future r r' -> pr_identity r' = pr_identity r.
Proof. induction 1 as [|r r1 r' Hs _ IH]; [done|]. rewrite IH. by apply row_step_identity. Qed.

(** Once submitted, content and binding stay; and a status once left never comes back. *)
Definition status_rank (st : PolicyStatus) : Z :=
  match st with
  | S_DRAFT => 0 | S_IN_REVIEW => 1 | S_APPROVED => 2 | S_PUBLISHED => 2 | S_SCHEDULED => 3
  | S_ACTIVE => 4 | S_SUPERSEDED => 5 | S_REJECTED => 6 | S_WITHDRAWN => 6
  end.

(** The edges of the lifecycle. *)
Definition status_edge (a b : PolicyStatus) : bool :=
  match a, b with
  | S_DRAFT, (S_DRAFT | S_IN_REVIEW) | S_IN_REVIEW, (S_REJECTED | S_APPROVED)
  | S_APPROVED, (S_SCHEDULED | S_ACTIVE) | S_SCHEDULED, S_ACTIVE | S_ACTIVE, S_SUPERSEDED => true
  | _, _ => false
  end.

Lemma row_step_edge r r' : row_step r r' -> status_edge (pr_status r) (pr_status r') = true.
Proof.
  destruct 1 as [r ? ? ? ? Hs|r ? ? Hs|r ? Hs|r Hs|r ? ? ? Hs|r Hs|r ? ? Hs|r ? Hs]; unfold pr_status in *; cbn;
    try (by rewrite Hs). by destruct Hs as [-> | ->].
Qed.

Lemma row_step_frozen r r' : row_step r r' -> pr_status r <> S_DRAFT ->
  pr_draft r' = pr_draft r /\ pr_binding r' = pr_binding r /\ status_rank (pr_status r) < status_rank (pr_status r').
Proof.
  destruct 1 as [| | |r Hs|r t d a Hs|r Hs|r t old [Hs|Hs]|r t Hs]; intros Hne; try done;
    (split; [done|]); (split; [done|]); rewrite Hs; cbn; lia.
Qed.

Lemma row_step_leaves_draft r r' : row_step r r' -> pr_status r <> S_DRAFT -> pr_status r' <> S_DRAFT.
Proof. intros Hs Hne He. apply row_step_frozen in Hs as (_ & _ & Hlt); [|done]. rewrite He in Hlt. by destruct (pr_status r). Qed.

Lemma row_future_frozen r r' : row_future r r' -> pr_status r <> S_DRAFT ->
  pr_draft r' = pr_draft r /\ pr_binding r' = pr_binding r /\
  (r' = r \/ status_rank (pr_status r) < status_rank (pr_status r')).
Proof.
  induction 1 as [|r r1 r' Hs _ IH]; intros Hne; [auto|].
  destruct (row_step_frozen _ _ Hs Hne) as (Hd & Hb & Hlt).
  destruct IH as (Hd' & Hb' & Hor); [by eapply row_step_leaves_draft|].
  rewrite Hd', Hb'. split; [done|]. split; [done|]. right. destruct Hor as [->|]; lia.
Qed.

(** ** The invariant *)

Definition compiles_to (compiled : Cg4CompiledPolicy) : Prop :=
  exists input, compileCg4Policy sha256_hex input = Ok compiled.

(** What is stored of a version compiles, to the digest stored beside it and to itself. *)
Definition stored_ok (r : PolicyVersion) : Prop :=
  exists compiled, compile_row r = Ok compiled /\ cp_contentDigest compiled = pr_contentDigest r /\
    content_json (cp_content compiled) = dr_content (pr_draft r).

Definition policy_voter (v : PolicyVote) : string := ra_checkerSubjectId (pw_vote v).

(** The approving votes on a version reach the quorum of its diff class. *)
Definition version_quorum (s : PolicyStore) (r : PolicyVersion) : Prop :=
  enough (resolveCg4PolicyQuorum (diff_class r))
    (counted (counted_policy_votes (votes_of s (pr_policyId r) (pr_version r)))).

(** No vote on the version rejects it. *)
Definition unrejected (s : PolicyStore) (r : PolicyVersion) : Prop :=
  js_some (fun v => negb (pw_approved v)) (votes_of s (pr_policyId r) (pr_version r)) = false.

(** Statuses a version reaches by its quorum only. *)
Definition by_quorum (st : PolicyStatus) : bool :=
  match st with S_APPROVED | S_SCHEDULED | S_ACTIVE | S_SUPERSEDED => true | _ => false end.

(** What it replaced and when it ended are known of a version that was ACTIVE only. *)
Definition progress_ok (r : PolicyVersion) : Prop :=
  (pr_status r <> S_ACTIVE -> pr_status r <> S_SUPERSEDED -> pg_supersedesId (pr_progress r) = None) /\
  (pr_status r <> S_SUPERSEDED -> pg_effectiveTo (pr_progress r) = None).

(** The head of a scope names its ACTIVE version. *)
Definition head_of (s : PolicyStore) (h : ScopeHead) (r : PolicyVersion) : Prop :=
  In r (ps_policies s) /\ pr_status r = S_ACTIVE /\ hd_revisionId h = pr_id r /\
  hd_policyId h = pr_policyId r /\ hd_policyVersion h = pr_version r /\
  hd_headDigest h = cg4PolicyHeadDigest (pr_policyId r) (pr_version r) (pr_contentDigest r).

Record wf (s : PolicyStore) : Prop := {
  wf_heads : map_wf (ps_heads s);
  wf_ids : List.NoDup (map pr_id (ps_policies s));
  wf_fresh : forall r, In r (ps_policies s) -> exists n m, (n < ps_nextId s)%nat /\ (m < ps_nextId s)%nat /\
    pr_id r = fresh n /\ pr_policyId r = fresh m;
  wf_versions : forall r1 r2, In r1 (ps_policies s) -> In r2 (ps_policies s) ->
    pr_policyId r1 = pr_policyId r2 -> pr_version r1 = pr_version r2 -> r1 = r2;
  wf_series : forall r1 r2, In r1 (ps_policies s) -> In r2 (ps_policies s) ->
    pr_policyId r1 = pr_policyId r2 -> pr_scopeKey r1 = pr_scopeKey r2;
  wf_numbered : forall r, In r (ps_policies s) -> 1 <= pr_version r /\
    (1 < pr_version r -> exists r', In r' (ps_policies s) /\ pr_policyId r' = pr_policyId r /\
                                    pr_version r' = pr_version r - 1);
  wf_stored : forall r, In r (ps_policies s) -> stored_ok r;
  wf_head : forall k h, map_get k (ps_heads s) = Some h -> 0 < hd_headVersion h /\
    exists r, head_of s h r /\ pr_scopeKey r = k;
  wf_active : forall r, In r (ps_policies s) -> pr_status r = S_ACTIVE ->
    exists h, map_get (pr_scopeKey r) (ps_heads s) = Some h /\ hd_revisionId h = pr_id r;
  wf_votes : forall v, In v (ps_votes s) -> exists r, In r (ps_policies s) /\
    pr_policyId r = pw_policyId v /\ pr_version r = pw_policyVersion v /\
    policy_voter v <> vi_makerActorRef (pr_identity r);
  wf_one_vote : forall policyId version, List.NoDup (map policy_voter (votes_of s policyId version));
  wf_quorum : forall r, In r (ps_policies s) -> by_quorum (pr_status r) = true -> version_quorum s r;
  wf_progress : forall r, In r (ps_policies s) -> progress_ok r;
}.

(** ** Effects *)

(** The head of a scope announced its next activation. *)
Definition heads_annotated (s s' : PolicyStore) : Prop :=
  ps_heads s' = ps_heads s \/
  exists k h h', map_get k (ps_heads s) = Some h /\ ps_heads s' = map_set k h' (ps_heads s) /\
    hd_headVersion h' = hd_headVersion h + 1 /\ hd_policyId h' = hd_policyId h /\
    hd_policyVersion h' = hd_policyVersion h /\ hd_revisionId h' = hd_revisionId h /\
    hd_headDigest h' = hd_headDigest h.

Definition next_of_series (s : PolicyStore) (policyId scopeKey : string) (version : Z) : Prop :=
  exists r, In r (ps_policies s) /\ pr_policyId r = policyId /\ pr_scopeKey r = scopeKey /\
    version = pr_version r + 1 /\
    forall r', In r' (ps_policies s) -> pr_policyId r' = policyId -> pr_version r' <= pr_version r.

Record inserted (s : PolicyStore) (row : PolicyVersion) (s' : PolicyStore) : Prop := {
  in_policies : ps_policies s' = ps_policies s ++ [row];
  in_heads : ps_heads s' = ps_heads s;
  in_votes : ps_votes s' = ps_votes s;
  in_id : exists n, pr_id row = fresh n /\ (ps_nextId s <= n < ps_nextId s')%nat;
  in_draft : pr_status row = S_DRAFT;
  in_progress : progress_ok row;
  in_stored : stored_ok row;
  in_series : next_of_series s (pr_policyId row) (pr_scopeKey row) (pr_version row) \/
    (pr_version row = 1 /\ exists m, pr_policyId row = fresh m /\ (ps_nextId s <= m < ps_nextId s')%nat);
}.

Record updated (s : PolicyStore) (p : PolicyVersion -> bool) (f : PolicyVersion -> PolicyVersion)
    (s' : PolicyStore) : Prop := {
  up_policies : ps_policies s' = update_where p f (ps_policies s);
  up_rows : forall r, In r (ps_policies s) -> p r = true -> row_step r (f r);
  up_quiet : forall r, In r (ps_policies s) -> p r = true ->
    pr_status r <> S_ACTIVE /\ pr_status (f r) <> S_ACTIVE;
  up_quorum : forall r, In r (ps_policies s) -> p r = true -> by_quorum (pr_status (f r)) = true ->
    version_quorum s r /\ (by_quorum (pr_status r) = false -> unrejected s r);
  up_heads : heads_annotated s s';
  up_votes : ps_votes s' = ps_votes s;
  up_next : (ps_nextId s <= ps_nextId s')%nat;
}.

Record vote_cast (s : PolicyStore) (v : PolicyVote) (s' : PolicyStore) : Prop := {
  vc_policies : ps_policies s' = ps_policies s;
  vc_heads : ps_heads s' = ps_heads s;
  vc_votes : ps_votes s' = ps_votes s ++ [v];
  vc_row : exists r, In r (ps_policies s) /\ pr_policyId r = pw_policyId v /\
    pr_version r = pw_policyVersion v /\ policy_voter v <> vi_makerActorRef (pr_identity r);
  vc_unique : ~ In (policy_voter v) (map policy_voter (votes_of s (pw_policyId v) (pw_policyVersion v)));
  vc_next : (ps_nextId s <= ps_nextId s')%nat;
}.

(** A version became the ACTIVE one of its scope, in the place of the one its head named. *)
Record took_over (s : PolicyStore) (r : PolicyVersion) (s' : PolicyStore) : Prop := {
  to_row : In r (ps_policies s);
  to_status : pr_status r = S_APPROVED \/ pr_status r = S_SCHEDULED;
  to_policies : exists t t' old,
    ps_policies s' = update_where (may_activate (pr_id r)) (activated t' old)
      match map_get (pr_scopeKey r) (ps_heads s) with
      | None => ps_policies s
      | Some h => update_where (has_status (hd_revisionId h) S_ACTIVE) (superseded t) (ps_policies s)
      end;
  to_heads : exists h', ps_heads s' = map_set (pr_scopeKey r) h' (ps_heads s) /\
    hd_headVersion h' = 1 + match map_get (pr_scopeKey r) (ps_heads s) with
                            | Some h => hd_headVersion h | None => 0 end /\
    hd_revisionId h' = pr_id r /\ hd_policyId h' = pr_policyId r /\ hd_policyVersion h' = pr_version r /\
    hd_headDigest h' = cg4PolicyHeadDigest (pr_policyId r) (pr_version r) (pr_contentDigest r);
  to_quorum : version_quorum s r;
  to_votes : ps_votes s' = ps_votes s;
  to_next : (ps_nextId s <= ps_nextId s')%nat;
}.

Inductive effect (s s' : PolicyStore) : Prop :=
  | ef_none : ps_policies s' = ps_policies s -> ps_heads s' = ps_heads s -> ps_votes s' = ps_votes s ->
      (ps_nextId s <= ps_nextId s')%nat -> effect s s'
  | ef_insert row : inserted s row s' -> effect s s'
  | ef_update p f : updated s p f s' -> effect s s'
  | ef_vote v : vote_cast s v s' -> effect s s'
  | ef_take_over r : took_over s r s' -> effect s s'.

(** What a command under way has read: its version's row as it was then, and the head of the scope. *)
Definition row_read (s : PolicyStore) (policyId : string) (version : Z) (row : PolicyVersion) : Prop :=
  pr_policyId row = policyId /\ pr_version row = version /\ stored_ok row /\
  exists r, In r (ps_policies s) /\ row_future row r.

Definition head_read (s : PolicyStore) (scopeKey : string) (head : HeadSnapshot) : Prop :=
  head = loadHead s scopeKey \/ hs_headVersion head < hs_headVersion (loadHead s scopeKey).

Definition candidate_read (s : PolicyStore) (policyId : string) (version : Z) (ca : Candidate) : Prop :=
  row_read s policyId version (ca_row ca) /\ compile_row (ca_row ca) = Ok (ca_compiled ca) /\
  cp_contentDigest (ca_compiled ca) = pr_contentDigest (ca_row ca) /\
  head_read s (pr_scopeKey (ca_row ca)) (ca_head ca).

(** What the checks leave behind: the votes they counted are still there, the rest is of what was read. *)
Definition publish_checked (i : PublishCg4PolicyInput) (b : CandidateBegun) : Prop :=
  let row := ca_row (cb_candidate b) in
  let head := ca_head (cb_candidate b) in
  pr_status row = S_APPROVED /\ hs_headVersion head = pu_expectedScopeHeadVersion i /\
  hs_headDigest head = pu_expectedScopeHeadDigest i.

Definition activation_checked (b : ActivateBegun) (c : ActivationChecked) : Prop :=
  pr_status (at_row b) = S_SCHEDULED /\ cp_contentDigest (ax_compiled c) = pr_contentDigest (at_row b).

Definition begun_ok (s : PolicyStore) (p : pending) : Prop :=
  match p with
  | P_Amend i b => row_read s (am_policyId i) (am_version i) (ab_row b) /\
      compile_content (am_content i) (am_version i) = Ok (ab_compiled b)
  | P_RunTests _ i b => candidate_read s (te_policyId i) (te_version i) (cb_candidate b)
  | P_Submit i b => candidate_read s (su_policyId i) (su_version i) (cb_candidate b)
  | P_Finalize i b _ => candidate_read s (fi_policyId i) (fi_version i) (cb_candidate b)
  | P_Publish i b => candidate_read s (pu_policyId i) (pu_version i) (cb_candidate b)
  | P_Activate i b => row_read s (ac_policyId i) (ac_version i) (at_row b)
  | P_Rollback i b => row_read s (rb_policyId i) (rb_sourceVersion i) (rg_source b)
  | P_PublishChecked i b _ => candidate_read s (pu_policyId i) (pu_version i) (cb_candidate b) /\
      publish_checked i b /\ version_quorum s (ca_row (cb_candidate b))
  | P_ActivateChecked i b c => row_read s (ac_policyId i) (ac_version i) (at_row b) /\
      activation_checked b c /\ head_read s (pr_scopeKey (at_row b)) (ax_head c) /\ version_quorum s (at_row b)
  end.

(** ** What each command does *)

Lemma write_policies_ok rows s s' : write_policies rows s = Ok s' -> s' = with_policies rows s.
Proof.
  unfold write_policies. intros E. apply bind_ok in E as (? & _ & E).
  apply bind_ok in E as (? & _ & E). by injection E.
Qed.

Lemma write_jobs_ok jobs s s' : write_jobs jobs s = Ok s' -> s' = with_jobs jobs s.
Proof. unfold write_jobs. intros E. apply bind_ok in E as (? & _ & E). by injection E. Qed.

Lemma writeReceipt_ok s operation key hash body s' :
  writeReceipt s operation key hash body = Ok s' ->
  map_get (operation, key) (ps_receipts s) = None /\
  s' = with_receipts (map_set (operation, key) (hash, body) (ps_receipts s)) s.
Proof.
  unfold writeReceipt. intros E. apply bind_ok in E as ([] & Hn & E). apply throw_if_ok in Hn.
  injection E as <-. split; [|done]. unfold map_has in Hn. by destruct (map_get _ _).
Qed.

Lemma find_version_ok s policyId version r : find_version s policyId version = Some r ->
  In r (ps_policies s) /\ pr_policyId r = policyId /\ pr_version r = version.
Proof.
  intros E. apply find_some in E as [Hr E]. unfold is_version in E. by bool_prop.
Qed.

Lemma has_status_ok id st r : has_status id st r = true <-> pr_id r = id /\ pr_status r = st.
Proof. unfold has_status. by rewrite andb_true_iff, !bool_decide_eq_true. Qed.

Lemma is_draft_at_ok id n r : is_draft_at id n r = true <->
  pr_id r = id /\ pr_draftRevision r = n /\ pr_status r = S_DRAFT.
Proof. unfold is_draft_at. rewrite !andb_true_iff, !bool_decide_eq_true, Z.eqb_eq. tauto. Qed.

Lemma may_activate_ok id r : may_activate id r = true <->
  pr_id r = id /\ (pr_status r = S_APPROVED \/ pr_status r = S_SCHEDULED).
Proof. unfold may_activate. by rewrite andb_true_iff, orb_true_iff, !bool_decide_eq_true. Qed.

(** Opens what a command returned: its binds, guards and writes. *)
Ltac open_write := repeat match goal with
  | H : write_policies _ _ = Ok _ |- _ => apply write_policies_ok in H; subst
  | H : write_jobs _ _ = Ok _ |- _ => apply write_jobs_ok in H; subst
  | H : writeReceipt _ _ _ _ _ = Ok _ |- _ => apply writeReceipt_ok in H as [_ ->]
  | H : lifecycle_if _ _ = Ok _ |- _ => unfold lifecycle_if in H
  | H : throw_if _ _ = Ok _ |- _ => apply throw_if_ok in H
  end.

(** Updates that touch neither heads nor votes. *)
Lemma quiet_update s p f s' :
  ps_policies s' = update_where p f (ps_policies s) -> ps_heads s' = ps_heads s -> ps_votes s' = ps_votes s ->
  (ps_nextId s <= ps_nextId s')%nat ->
  (forall r, In r (ps_policies s) -> p r = true -> row_step r (f r) /\
     (pr_status r = S_DRAFT \/ pr_status r = S_IN_REVIEW) /\
     (pr_status (f r) = S_APPROVED -> version_quorum s r /\ unrejected s r)) ->
  effect s s'.
Proof.
  intros Hp Hh Hv Hn Hr. apply (ef_update _ _ p f). split; try done; [|..|by left].
  - intros r Hin Hm. by apply Hr.
  - intros r Hin Hm. destruct (Hr r Hin Hm) as (Hs & Hst & _). apply row_step_edge in Hs.
    destruct Hst as [Hst|Hst]; rewrite Hst in Hs |- *; split; try done; by destruct (pr_status (f r)).
  - intros r Hin Hm Hq. destruct (Hr r Hin Hm) as (Hs & Hst & Hap). apply row_step_edge in Hs.
    destruct Hst as [Hst|Hst]; rewrite Hst in Hs; destruct (pr_status (f r)); try done; by destruct Hap.
Qed.

Lemma amend_effect s i b now r s' :
  compile_content (am_content i) (am_version i) = Ok (ab_compiled b) ->
  commit_amendDraft s i b now = Ok (r, s') -> effect s s'.
Proof.
  intros Hc E. unfold commit_amendDraft in E. open_bind E x1 H1. open_bind E x2 H2. open_bind E s1 Hw.
  open_bind E x3 H3. open_bind E s2 Hr. open_write. injection E as _ <-. cbn.
  eapply quiet_update; try reflexivity; cbn; [lia|]. intros row Hin Hm.
  apply is_draft_at_ok in Hm as (_ & _ & Hd). split; [by eapply rw_amend|]. split; [by left|].
  unfold pr_status in *. cbn. congruence.
Qed.

Lemma upsert_tables s a : forall a' s1, upsert_artifact s a = (a', s1) ->
  ps_policies s1 = ps_policies s /\ ps_heads s1 = ps_heads s /\ ps_votes s1 = ps_votes s /\
  ps_nextId s1 = ps_nextId s /\ ps_receipts s1 = ps_receipts s.
Proof. unfold upsert_artifact. intros a' s1. by destruct (js_find _ _); intros [= <- <-]. Qed.

Lemma tests_effect fuel s i b now r s' : commit_runTests fuel s i b now = Ok (r, s') -> effect s s'.
Proof.
  intros E. unfold commit_runTests in E. open_bind E x1 H1. open_bind E p Hp.
  destruct (upsert_artifact _ _) as [a s1] eqn:Hu. apply upsert_tables in Hu as (Hp1 & Hh1 & Hv1 & Hn1 & Hr1).
  open_bind E s2 Hs. open_bind E s3 Hw. open_write. injection E as _ <-.
  destruct (bool_decide _).
  - open_write. eapply quiet_update; cbn; rewrite ?Hp1, ?Hh1, ?Hv1; try reflexivity; [lia|].
    intros row Hin Hm. apply has_status_ok in Hm as [_ Hd]. split; [by apply rw_stamp|]. split; [by left|].
    unfold pr_status in *. cbn. congruence.
  - injection Hs as <-. apply ef_none; cbn; try done. lia.
Qed.

Lemma submit_effect s i b now r s' : commit_submit s i b now = Ok (r, s') -> effect s s'.
Proof.
  intros E. unfold commit_submit in E. open_bind E x1 H1. open_bind E x2 H2. open_bind E x3 H3.
  open_bind E s1 Hw. open_bind E x4 H4. open_bind E s2 Hr. open_write. injection E as _ <-.
  eapply quiet_update; try reflexivity; cbn; [lia|]. intros row Hin Hm.
  apply is_draft_at_ok in Hm as (_ & _ & Hd). split; [by apply rw_submit|]. split; [by left|done].
Qed.

Lemma rethrow_as_ok {E A} (f : E -> PolicyError) (r : result E A) a : rethrow_as f r = Ok a -> r = Ok a.
Proof. destruct r; cbn; naive_solver. Qed.

(** *** Votes *)

Lemma count_if_perm {A} (f : A -> bool) l l' : Permutation l l' -> count_if f l = count_if f l'.
Proof. intros Hp. unfold count_if. by rewrite (Permutation_length (filter_Permutation f _ _ Hp)). Qed.

Lemma enough_perm q l l' : Permutation l l' -> enough q l -> enough q l'.
Proof.
  intros Hp. unfold enough. rewrite (Permutation_length Hp), !(count_if_perm _ _ _ Hp).
  intros (? & ? & Hw). split_and!; try done. intros Hn. destruct (Hw Hn) as (? & a & Ha & ?).
  split; [done|]. exists a. split; [by eapply Permutation_in|done].
Qed.

Lemma counted_policy_subjects rows :
  map ra_checkerSubjectId (counted_policy_votes rows) = map policy_voter (js_filter pw_approved rows).
Proof. unfold counted_policy_votes. by rewrite map_map. Qed.

Lemma NoDup_map_js_filter {A B} (f : A -> B) (p : A -> bool) l :
  List.NoDup (map f l) -> List.NoDup (map f (js_filter p l)).
Proof.
  induction l as [|x l IH]; cbn; intros Hnd; [done|]. inversion_clear Hnd as [|? ? Hni Hl].
  destruct (p x); cbn; [|by apply IH]. constructor; [|by apply IH].
  intros Hin. apply Hni. apply in_map_iff in Hin as (y & <- & Hy). apply filter_In in Hy as [Hy _].
  by apply in_map.
Qed.

Lemma counted_policy_fresh rows : List.NoDup (map policy_voter rows) ->
  counted (counted_policy_votes rows) = counted_policy_votes rows.
Proof. intros Hnd. apply counted_fresh. rewrite counted_policy_subjects. by apply NoDup_map_js_filter. Qed.

Lemma approval_rows_perm s policyId version :
  Permutation (votes_of s policyId version) (approval_rows s policyId version).
Proof. apply sort_by_perm. Qed.

(** The quorum a command computes is that of the version's votes, in whatever order. *)
Lemma policy_quorum_met s policyId version cls now :
  List.NoDup (map policy_voter (votes_of s policyId version)) ->
  qe_status (policy_quorum s policyId version cls now) = Q_MET ->
  js_some (fun v => negb (pw_approved v)) (votes_of s policyId version) = false /\
  enough (resolveCg4PolicyQuorum cls) (counted (counted_policy_votes (votes_of s policyId version))).
Proof.
  intros Hnd Hm. unfold policy_quorum in Hm. apply quorum_met_iff in Hm as [Hr He].
  pose proof (approval_rows_perm s policyId version) as Hp. split.
  - apply not_true_iff_false. intros Ht. apply not_true_iff_false in Hr. apply Hr.
    apply existsb_exists in Ht as (v & Hv & Ha). apply existsb_exists. exists v.
    split; [by eapply Permutation_in|done].
  - rewrite counted_policy_fresh in He by (eapply Permutation_NoDup; [apply Permutation_map|]; eassumption).
    rewrite counted_policy_fresh by assumption. eapply enough_perm; [|exact He]. symmetry. by apply Permutation_map, filter_Permutation.
Qed.

Lemma quorum_met_status q u : assertCg4QuorumMet q = Ok u -> qe_status q = Q_MET.
Proof. unfold assertCg4QuorumMet. intros E. apply throw_if_ok in E. by bool_prop. Qed.

(** *** Scopes and heads *)

Lemma find_ambiguous_none scopeKey scopes : find_ambiguous scopeKey scopes = Ok None ->
  forall k, In k scopes -> cg4PolicyScopesAmbiguous scopeKey k = Ok false.
Proof.
  induction scopes as [|k scopes IH]; [done|]. cbn. intros E. open_bind E a Ha. apply rethrow_as_ok in Ha.
  destruct a; [discriminate|]. intros k' [<-|Hk]; [assumption|by apply IH].
Qed.

Lemma unambiguous_ok s scopeKey u : assertScopeUnambiguous s scopeKey = Ok u ->
  forall r, In r (ps_policies s) -> pr_status r = S_ACTIVE -> pr_scopeKey r <> scopeKey ->
    cg4PolicyScopesAmbiguous scopeKey (pr_scopeKey r) = Ok false.
Proof.
  unfold assertScopeUnambiguous. intros E. open_bind E o Ho. open_write. bool_prop.
  destruct o as [k|]; [by destruct E|]. intros r Hr Hs Hk. eapply find_ambiguous_none; [done|].
  unfold active_scopes_except. apply set_to_array_In. apply (in_map pr_scopeKey). apply filter_In.
  split; [done|]. by rewrite bool_decide_eq_true_2, bool_decide_eq_false_2.
Qed.

Lemma ambiguous_sym k1 k2 : cg4PolicyScopesAmbiguous k1 k2 = Ok false -> cg4PolicyScopesAmbiguous k2 k1 = Ok false.
Proof.
  unfold cg4PolicyScopesAmbiguous, cg4PolicyScopeSpecificity.
  case_bool_decide as He; case_bool_decide as He'; [done|congruence|congruence|].
  destruct (parseCg4PolicyScopeKey k1) as [a|], (parseCg4PolicyScopeKey k2) as [b|]; cbn -[dims_compatible]; try done.
  rewrite (Z.eqb_sym (bound_count b)). destruct (bound_count a =? bound_count b); cbn -[dims_compatible]; [|done].
  intros [= Hd]. destruct (dims_compatible b a) eqn:E; [|done]. apply dims_compatible_iff in E as (q & ? & ?).
  assert (dims_compatible a b = true) as Ht by (apply dims_compatible_iff; by exists q). congruence.
Qed.

Lemma loadHead_none s k : map_get k (ps_heads s) = None -> loadHead s k = HeadSnapshot_ 0 CG4_EMPTY_HEAD_DIGEST None None.
Proof. unfold loadHead. by intros ->. Qed.

Lemma find_latest_fold policyId rows best r :
  (forall b, best = Some b -> pr_policyId b = policyId) ->
  fold_left (fun best r =>
    if bool_decide (pr_policyId r = policyId)
    then match best with
         | Some b => if pr_version b <? pr_version r then Some r else Some b
         | None => Some r
         end
    else best) rows best = Some r ->
  (best = Some r \/ In r rows) /\ pr_policyId r = policyId /\
  (forall b, best = Some b -> pr_version b <= pr_version r) /\
  forall r', In r' rows -> pr_policyId r' = policyId -> pr_version r' <= pr_version r.
Proof.
  revert best. induction rows as [|x rows IH]; intros best Hb E; cbn in E.
  - subst. split_and!; [by left|by apply Hb|by intros b [= ->]|done].
  - case_bool_decide as Hx.
    + destruct best as [b|]; [destruct (Z.ltb_spec (pr_version b) (pr_version x)) as [Hlt|Hle]|];
        apply IH in E as (Hin & Hp & Hm & Hr); try (by intros ? [= <-]; auto).
      * specialize (Hm x eq_refl). split_and!; [|done|by intros ? [= <-]; lia|].
        -- right. destruct Hin as [[= ->]|?]; [by left|by right].
        -- intros r' [<-|Hr'] ?; auto.
      * specialize (Hm b eq_refl). split_and!; [|done|by intros ? [= <-]; lia|].
        -- destruct Hin as [?|?]; [by left|right; by right].
        -- intros r' [<-|Hr'] ?; [lia|auto].
      * specialize (Hm x eq_refl). split_and!; [|done|done|].
        -- right. destruct Hin as [[= ->]|?]; [by left|by right].
        -- intros r' [<-|Hr'] ?; auto.
    + apply IH in E as (Hin & Hp & Hm & Hr); [|done]. split_and!; [|done|done|].
      * destruct Hin as [?|?]; [by left|right; by right].
      * intros r' [<-|Hr'] ?; [done|auto].
Qed.

Lemma latest_version_ok s policyId r : latest_version s policyId = Some r ->
  In r (ps_policies s) /\ pr_policyId r = policyId /\
  forall r', In r' (ps_policies s) -> pr_policyId r' = policyId -> pr_version r' <= pr_version r.
Proof. intros E. apply find_latest_fold in E as ([?|?] & ? & _ & ?); done. Qed.

Lemma find_latest_some policyId rows best : is_Some best -> is_Some (fold_left (fun best r =>
    if bool_decide (pr_policyId r = policyId)
    then match best with
         | Some b => if pr_version b <? pr_version r then Some r else Some b
         | None => Some r
         end
    else best) rows best).
Proof.
  revert best. induction rows as [|x rows IH]; intros best [b ->]; cbn; [done|]. apply IH.
  case_bool_decide; [|done]. by destruct (_ <? _).
Qed.

Lemma latest_version_found s r : In r (ps_policies s) -> exists r', latest_version s (pr_policyId r) = Some r'.
Proof.
  unfold latest_version. generalize (@None PolicyVersion). induction (ps_policies s) as [|x rows IH]; [done|].
  intros best [->|Hr]; cbn; [|by apply IH]. rewrite bool_decide_eq_true_2 by done.
  apply find_latest_some. destruct best; [|done]. by destruct (_ <? _).
Qed.

(** *** Moves of a head *)

(** A head is written over the snapshot it was read in, or not at all. *)
Lemma write_head_ok m h s s' :
  (forall k h, map_get k (ps_heads s) = Some h -> 0 < hd_headVersion h) ->
  head_read s (mv_scopeKey m) (mv_head m) -> write_head m h s = Ok s' ->
  mv_head m = loadHead s (mv_scopeKey m) /\ s' = with_heads (map_set (mv_scopeKey m) h (ps_heads s)) s.
Proof.
  intros Hpos Hread. unfold write_head, head_read, loadHead in *. unfold map_has.
  destruct (Z.eqb_spec (hs_headVersion (mv_head m)) 0) as [Hz|Hz].
  - destruct (map_get (mv_scopeKey m) (ps_heads s)) as [h0|]; cbn; [done|]. intros [= <-].
    split; [|done]. destruct Hread as [?|Hlt]; [done|]. cbn in Hlt. lia.
  - destruct (map_get (mv_scopeKey m) (ps_heads s)) as [h0|]; [|done].
    intros E. open_bind E x Hx. unfold lifecycle_if in Hx. apply throw_if_ok in Hx. bool_prop.
    injection E as <-. split; [|done]. destruct Hread as [?|Hlt]; [done|]. cbn in Hlt. lia.
Qed.

Lemma emit_tables m v d t s : let s' := emitHeadChange m v d t s in
  ps_policies s' = ps_policies s /\ ps_heads s' = ps_heads s /\ ps_votes s' = ps_votes s /\
  ps_nextId s' = ps_nextId s /\ ps_receipts s' = ps_receipts s /\ ps_jobs s' = ps_jobs s /\
  ps_artifacts s' = ps_artifacts s /\ ps_switches s' = ps_switches s.
Proof. done. Qed.

Context (fresh_some : forall n, fresh n <> "").

Lemma same_row s r1 r2 : wf s -> In r1 (ps_policies s) -> In r2 (ps_policies s) -> pr_id r1 = pr_id r2 -> r1 = r2.
Proof. intros Hwf. apply NoDup_map_inj, Hwf. Qed.

Lemma row_id_some s r : wf s -> In r (ps_policies s) -> truthy (Some (pr_id r)) = Some (pr_id r).
Proof.
  intros Hwf Hr. destruct (wf_fresh _ Hwf r Hr) as (n & _ & _ & _ & -> & _). pose proof (fresh_some n).
  unfold truthy. by destruct (fresh n).
Qed.

(** The rows after the swap, and why the candidate could be swapped in. *)
Lemma activate_rows_ok m s s' r :
  wf s -> mv_head m = loadHead s (mv_scopeKey m) -> In r (ps_policies s) -> pr_id r = mv_rowId m ->
  activate_rows m s = Ok s' ->
  (pr_status r = S_APPROVED \/ pr_status r = S_SCHEDULED) /\
  ps_heads s' = ps_heads s /\ ps_votes s' = ps_votes s /\ ps_nextId s' = ps_nextId s /\
  exists old, ps_policies s' = update_where (may_activate (pr_id r)) (activated (mv_occurredAt m) old)
    match map_get (mv_scopeKey m) (ps_heads s) with
    | None => ps_policies s
    | Some h => update_where (has_status (hd_revisionId h) S_ACTIVE) (superseded (mv_activateAt m)) (ps_policies s)
    end.
Proof.
  intros Hwf Hm Hr Hid E. unfold activate_rows in E. open_bind E s1 H1. open_bind E s2 H2.
  open_bind E x Hc. open_write. cbn in *. bool_prop.
  assert (Hs1 : ps_heads s1 = ps_heads s /\ ps_votes s1 = ps_votes s /\ ps_nextId s1 = ps_nextId s /\
    ps_policies s1 = match map_get (mv_scopeKey m) (ps_heads s) with
    | None => ps_policies s
    | Some h => update_where (has_status (hd_revisionId h) S_ACTIVE) (superseded (mv_activateAt m)) (ps_policies s)
    end).
  { rewrite Hm in H1. unfold loadHead in H1. destruct (map_get (mv_scopeKey m) (ps_heads s)) as [h|] eqn:Eh; cbn -[truthy] in H1.
    - destruct (wf_head _ Hwf _ _ Eh) as (_ & ra & (Ha & _ & Hrev & _) & _).
      rewrite Hrev, (row_id_some _ _ Hwf Ha) in H1. open_bind H1 s3 H3. open_bind H1 x2 H4. open_write.
      injection H1 as <-. by rewrite Hrev.
    - injection H1 as <-. done. }
  destruct Hs1 as (Hh & Hv & Hn & Hp). split; [|rewrite Hp, <- Hid; by eauto].
  apply count_where_one in Hc as (r1 & Hin & Hm1 & _). apply may_activate_ok in Hm1 as [Hid1 Hst1].
  rewrite Hp in Hin. destruct (map_get (mv_scopeKey m) (ps_heads s)) as [h|].
  - apply update_where_In in Hin as (r0 & Hin & Heq). destruct (has_status _ _ r0).
    + subst r1. unfold pr_status in Hst1. cbn in Hst1. by destruct Hst1.
    + subst r1. by rewrite (same_row s r r0 Hwf) by congruence.
  - by rewrite (same_row s r r1 Hwf) by congruence.
Qed.

Lemma heads_positive s : wf s -> forall k h, map_get k (ps_heads s) = Some h -> 0 < hd_headVersion h.
Proof. intros Hwf k h Hh. by destruct (wf_head _ Hwf k h Hh). Qed.

(** The rows of the swap touch neither heads nor receipts. *)
Lemma activate_tables m s s1 : activate_rows m s = Ok s1 ->
  ps_heads s1 = ps_heads s /\ ps_receipts s1 = ps_receipts s.
Proof.
  unfold activate_rows. intros Hs1. open_bind Hs1 t1 H1. open_bind Hs1 t2 H2. open_bind Hs1 t3 H3. open_write. cbn.
  destruct (truthy _); [|by injection H1 as <-]. open_bind H1 t4 H4. open_bind H1 t5 H5. open_write.
  by injection H1 as <-.
Qed.

(** The swap of a scope's head. *)
Lemma move_takes_over m s res s' r :
  wf s -> mv_activate m = true -> head_read s (mv_scopeKey m) (mv_head m) -> In r (ps_policies s) ->
  pr_id r = mv_rowId m -> pr_scopeKey r = mv_scopeKey m -> pr_policyId r = mv_policyId m ->
  pr_version r = mv_version m -> pr_contentDigest r = mv_contentDigest m ->
  version_quorum s r -> moveHead m s = Ok (res, s') -> took_over s r s'.
Proof.
  intros Hwf Ha Hread Hr Hid Hk Hpid Hver Hdig Hq E. unfold moveHead in E. rewrite Ha in E.
  open_bind E x Hx. open_bind E s1 Hs1. open_bind E s2 Hs2. injection E as _ <-.
  assert (Hh1 : ps_heads s1 = ps_heads s) by by apply (activate_tables m).
  pose proof Hs2 as Hw. apply write_head_ok in Hw as [Hm ->]; [|rewrite Hh1; by apply heads_positive|
    unfold head_read, loadHead in *; by rewrite Hh1].
  assert (Hm' : mv_head m = loadHead s (mv_scopeKey m)) by (rewrite Hm; unfold loadHead; by rewrite Hh1).
  apply (activate_rows_ok m s s1 r) in Hs1 as (Hst & _ & Hv & Hn & old & Hp); [|done..].
  split; try done; cbn.
  - exists (mv_activateAt m), (mv_occurredAt m), old. by rewrite Hp, Hk.
  - eexists. rewrite Hh1, Hk. split; [done|]. cbn. rewrite Hm', Hid, Hpid, Hver, Hdig. split; [|done].
    unfold loadHead. destruct (map_get _ _); cbn; lia.
  - lia.
Qed.

(** A schedule that only annotates the head. *)
Lemma move_annotates m s res s' :
  (forall k h, map_get k (ps_heads s) = Some h -> 0 < hd_headVersion h) -> mv_activate m = false ->
  head_read s (mv_scopeKey m) (mv_head m) -> moveHead m s = Ok (res, s') ->
  heads_annotated s s' /\ ps_policies s' = ps_policies s /\ ps_votes s' = ps_votes s /\
  ps_nextId s' = ps_nextId s.
Proof.
  intros Hpos Ha Hread E. unfold moveHead in E. rewrite Ha in E. open_bind E x Hx. cbn in E.
  destruct (hs_head (mv_head m)) as [[[policyId version] revisionId]|] eqn:Eh.
  - open_bind E s2 Hs2. injection E as _ <-. apply write_head_ok in Hs2 as [Hm ->]; [|done|done].
    split; [|done]. right. unfold loadHead in Hm. rewrite Hm in Eh.
    destruct (map_get (mv_scopeKey m) (ps_heads s)) as [h|] eqn:Eg; [|done]. cbn in Eh. injection Eh as <- <- <-.
    exists (mv_scopeKey m), h. eexists. split; [done|]. split; [done|]. cbn. by rewrite Hm.
  - injection E as _ <-. split; [by left|done].
Qed.

Lemma effect_ext s s1 s2 : effect s s1 -> ps_policies s2 = ps_policies s1 -> ps_heads s2 = ps_heads s1 ->
  ps_votes s2 = ps_votes s1 -> (ps_nextId s1 <= ps_nextId s2)%nat -> effect s s2.
Proof.
  intros E Hp Hh Hv Hn. destruct E as [Hp1 Hh1 Hv1 Hn1|row [? ? ? (n & ? & ?) ? ? ? Hser]|p f []|v []|r []].
  - apply ef_none; try congruence. lia.
  - apply (ef_insert _ _ row). split; try congruence; [exists n; split; [done|lia]|].
    destruct Hser as [?|(? & m & ? & ?)]; [by left|right]. split; [done|]. exists m. split; [done|lia].
  - apply (ef_update _ _ p f). split; try done; try congruence; [|lia]. unfold heads_annotated in *. by rewrite Hh.
  - apply (ef_vote _ _ v). split; try done; try congruence. lia.
  - apply (ef_take_over _ _ r). split; try done; [by rewrite Hp|by rewrite Hh|congruence|lia].
Qed.

(** The current row of a version a command read before its lock. *)
Lemma row_now s policyId version row : wf s -> row_read s policyId version row ->
  exists r, In r (ps_policies s) /\ row_future row r /\ pr_identity r = pr_identity row /\
    pr_id r = pr_id row /\ pr_policyId r = policyId /\ pr_version r = version /\
    pr_scopeKey r = pr_scopeKey row /\
    forall r', In r' (ps_policies s) -> pr_id r' = pr_id row -> r' = r.
Proof.
  intros Hwf (Hp & Hv & _ & r & Hr & Hf). exists r. pose proof (row_future_identity _ _ Hf) as Hid.
  unfold pr_id, pr_policyId, pr_version, pr_scopeKey in *. rewrite Hid. split_and!; try done.
  intros r' Hr' He. apply (same_row s); [done..|]. unfold pr_id. by rewrite Hid.
Qed.

Lemma finalize_effect s i b a now r s' :
  wf s -> candidate_read s (fi_policyId i) (fi_version i) (cb_candidate b) ->
  commit_finalizeApproval s i b a now = Ok (r, s') -> effect s s'.
Proof.
  intros Hwf (Hrow & _ & _ & _) E. destruct (row_now _ _ _ _ Hwf Hrow) as (r0 & Hr0 & Hf & Hi & Hid & Hp & Hv & _ & Huniq).
  unfold commit_finalizeApproval in E. open_bind E x1 H1. open_bind E x2 H2. open_bind E x3 H3. open_bind E x4 H4.
  open_bind E x5 H5. open_bind E s1 Hs1. open_bind E x6 H6. open_bind E s2 Hs2. open_write. injection E as _ <-. bool_prop.
  destruct (row_future_frozen _ _ Hf) as (_ & Hb & _); [congruence|].
  eapply quiet_update; try reflexivity; cbn; [lia|]. intros row Hin Hm. apply has_status_ok in Hm as [Hrid Hst].
  assert (row = r0) as -> by by apply Huniq. split; [|split; [by right|]].
  - destruct (bool_decide _); [by apply rw_reject|by apply rw_approve].
  - case_bool_decide as Hq; [done|]. intros _. apply rethrow_as_ok, quorum_met_status in H5.
    apply policy_quorum_met in H5; [|by apply (wf_one_vote _ Hwf)].
    unfold version_quorum, unrejected, diff_class, pr_diffClass in *. rewrite Hp, Hv, Hb, H4. by destruct H5.
Qed.

(** What the checks of a publish establish of the version's current row. *)
Lemma publish_checks_ok s i b now q :
  publish_checks s i b now = Ok q ->
  pr_status (ca_row (cb_candidate b)) = S_APPROVED /\
  (forall r', In r' (ps_policies s) -> pr_status r' = S_ACTIVE ->
     pr_scopeKey r' <> pr_scopeKey (ca_row (cb_candidate b)) ->
     cg4PolicyScopesAmbiguous (pr_scopeKey (ca_row (cb_candidate b))) (pr_scopeKey r') = Ok false) /\
  q = policy_quorum s (pu_policyId i) (pu_version i) (diff_class (ca_row (cb_candidate b))) now /\
  qe_status q = Q_MET /\
  (diff_class (ca_row (cb_candidate b)) = C_RELAXATION ->
     killSwitchActive s (pr_scopeKey (ca_row (cb_candidate b))) = false).
Proof.
  intros E. unfold publish_checks in E. open_bind E x1 H1. open_bind E x2 H2. open_bind E x3 H3. open_bind E x4 H4.
  open_bind E x5 H5. open_bind E x6 H6. open_bind E x7 H7. injection E as <-. apply rethrow_as_ok, quorum_met_status in H7.
  unfold lifecycle_if in H1, H6. apply throw_if_ok in H1, H6. bool_prop.
  split; [done|]. split; [by apply (unambiguous_ok _ _ _ H5)|]. split; [done|]. split; [done|].
  intros Hc. by rewrite bool_decide_eq_true_2 in H6.
Qed.

Lemma publish_heads s i b now q : publish_checks s i b now = Ok q ->
  hs_headVersion (ca_head (cb_candidate b)) = pu_expectedScopeHeadVersion i /\
  hs_headDigest (ca_head (cb_candidate b)) = pu_expectedScopeHeadDigest i.
Proof.
  intros E. unfold publish_checks in E. open_bind E x1 H1. open_bind E x2 H2. open_bind E x3 H3. clear E.
  unfold lifecycle_if, head_differs in H3. apply throw_if_ok in H3. bool_prop. done.
Qed.

(** The votes a row of a version was checked against are those of its current row. *)
Lemma quorum_now s row r : version_quorum s row -> pr_identity r = pr_identity row -> pr_binding r = pr_binding row ->
  version_quorum s r.
Proof. unfold version_quorum, diff_class, pr_diffClass, pr_policyId, pr_version. by intros Hq -> ->. Qed.

Lemma check_ok s p now p' : wf s -> begun_ok s p -> check s p now = Some p' -> begun_ok s p'.
Proof.
  intros Hwf Hb E. destruct p as [| | | |i b|i b| | |]; cbn in *; try done.
  - destruct (publish_checks s i b now) as [q|] eqn:Hq; [|done]. injection E as <-. cbn.
    pose proof (publish_heads _ _ _ _ _ Hq) as [Hv Hd].
    apply publish_checks_ok in Hq as (Hst & _ & -> & Hq & _). split; [done|]. split; [by split_and!|].
    destruct Hb as ((Hp & Hn & _) & _). apply policy_quorum_met in Hq as [_ Hq]; [|by apply (wf_one_vote _ Hwf)].
    unfold version_quorum. by rewrite Hp, Hn.
  - destruct (activation_checks s i b now) as [c|] eqn:Hc; [|done]. injection E as <-. cbn.
    unfold activation_checks in Hc. open_bind Hc x1 H1. open_bind Hc job' Hjob. open_bind Hc x2 H2. open_bind Hc x3 H3.
    open_bind Hc comp Hcomp. open_bind Hc x4 H4. open_bind Hc x5 H5. open_bind Hc x6 H6.
    apply throw_if_ok in H4. unfold lifecycle_if in H1. apply throw_if_ok in H1. bool_prop. injection Hc as <-. cbn.
    split; [done|]. split; [done|]. split; [by left|]. destruct Hb as (Hp & Hn & _).
    apply rethrow_as_ok, quorum_met_status, policy_quorum_met in H6 as [_ Hq]; [|by apply (wf_one_vote _ Hwf)].
    unfold version_quorum. by rewrite Hp, Hn.
Qed.

Lemma publish_effect s i b q r s' : wf s -> begun_ok s (P_PublishChecked i b q) ->
  publish_writes s i b q = Ok (r, s') -> effect s s'.
Proof.
  intros Hwf ((Hrow & _ & Hdig & Hread) & (Hst & _) & Hq) E.
  destruct (row_now _ _ _ _ Hwf Hrow) as (r0 & Hr0 & Hf & Hi & Hid & Hp & Hv & Hk & Huniq).
  destruct (row_future_frozen _ _ Hf) as (Hd & Hb & _); [congruence|].
  apply (quorum_now _ _ r0) in Hq; [|done|done].
  unfold publish_writes in E. open_bind E s1 Hs1. open_bind E moved Hm. open_bind E s2 Hs2. open_write.
  injection E as _ <-. destruct moved as [res s3]. cbn [snd fst] in *.
  apply (effect_ext _ s3); [|done..|cbn; lia]. destruct (Z.ltb _ _).
  - unfold schedule in Hs1. open_bind Hs1 x1 Hs11. open_bind Hs1 s4 H4. open_write. cbn in *.
    apply move_annotates in Hm as (Hh & Hpol & Hvotes & Hn); [|by apply (heads_positive s)|done|exact Hread].
    apply (ef_update _ _ (has_status (pr_id (ca_row (cb_candidate b))) S_APPROVED) (set_policy_status S_SCHEDULED)).
    cbn in *. split; try done; [..|lia]; intros row Hin Hmt; apply has_status_ok in Hmt as [Hrid Hrs].
    + by apply rw_schedule.
    + split; [congruence|done].
    + intros _. rewrite (Huniq row) by done. split; [done|]. rewrite <- (Huniq row), Hrs by done. done.
  - injection Hs1 as <-. apply (ef_take_over _ _ r0).
    apply (move_takes_over _ _ _ _ r0) in Hm; [exact Hm|done|done|done|done|done|done|done|done| |done].
    cbn. unfold pr_contentDigest in *. rewrite Hd. by symmetry.
Qed.

Lemma activate_effect s i b c r s' : wf s -> begun_ok s (P_ActivateChecked i b c) ->
  activation_writes s i b c = Ok (r, s') -> effect s s'.
Proof.
  intros Hwf (Hrow & (Hst & Hdig) & Hread & Hq) E.
  destruct (row_now _ _ _ _ Hwf Hrow) as (r0 & Hr0 & Hf & Hi & Hid & Hp & Hv & Hk & Huniq).
  destruct (row_future_frozen _ _ Hf) as (Hd & Hb & _); [congruence|].
  apply (quorum_now _ _ r0) in Hq; [|done|done]. unfold activation_writes in E.
  open_bind E s1 Hs1. open_bind E moved Hm. open_bind E s2 Hs2. open_write.
  injection E as _ <-. destruct moved as [res s3]. cbn [snd fst] in *.
  apply (effect_ext _ s3); [|done..|cbn; lia]. apply (ef_take_over _ _ r0).
  apply (move_takes_over _ _ _ _ r0) in Hm; [by destruct Hm|by destruct Hwf|done|exact Hread|done|done|done|done|done|..].
  - cbn. unfold pr_contentDigest in *. rewrite Hd. by symmetry.
  - done.
Qed.

(** *** New versions and votes *)

Lemma new_version_stored id policyId version scopeKey compiled t maker source :
  compiles_to compiled -> 0 < version ->
  stored_ok (new_version id policyId version scopeKey compiled t maker source).
Proof.
  intros [input Hc] Hv.
  destruct (compile_again _ _ _ version (Some CG4_POLICY_SCHEMA_VERSION) (Some CG4_RULE_REGISTRY_VERSION)
    (Some CG4_EVALUATOR_VERSION) Hc Hv eq_refl eq_refl eq_refl) as (p & Hp & Hcon & Hdig & _).
  exists p. split; [exact (f_equal (rethrow_as P_COMPILE) Hp)|]. split; [done|]. cbn. by rewrite Hcon.
Qed.

Lemma compile_content_to content version compiled :
  compile_content content version = Ok compiled -> compiles_to compiled.
Proof. intros E. apply rethrow_as_ok in E. by eexists. Qed.

Lemma compile_row_to r compiled : compile_row r = Ok compiled -> compiles_to compiled.
Proof. intros E. apply rethrow_as_ok in E. by eexists. Qed.

Lemma next_version_positive s r : wf s -> In r (ps_policies s) -> 0 < pr_version r + 1.
Proof. intros Hwf Hr. destruct (wf_numbered _ Hwf r Hr). lia. Qed.

Lemma policy_replay_ok s operation key hash o : replay_receipt s operation key hash = Ok o ->
  map_get (operation, key) (ps_receipts s) = (fun r => (hash, r)) <$> o.
Proof.
  unfold replay_receipt. destruct (map_get _ _) as [[h r]|]; [|by intros [= <-]].
  case_bool_decide; cbn; [|done]. intros [= <-]. by subst.
Qed.

Lemma create_effect s i now r s' : wf s -> createDraft s i now = Ok (r, s') -> effect s s'.
Proof.
  intros Hwf E. unfold createDraft in E. open_bind E y0 Hy0. open_bind E y1 Hy1. open_bind E y2 Hy2. open_bind E y3 Hy3. open_bind E t Ht. open_bind E tf Htf.
  open_bind E compiled Hc. open_bind E o Ho. destruct o as [resp|].
  { injection E as _ <-. by apply ef_none. }
  open_bind E ua Hua. open_bind E series Hser. destruct series as [policyId version].
  open_bind E s1 Hs1. open_bind E s2 Hs2. open_write. injection E as _ <-.
  assert (Hn : next_of_series s policyId (cr_scopeKey i) version \/ (version = 1 /\ policyId = fresh (ps_nextId s))).
  { unfold draft_series in Hser. destruct (truthy (cr_policyId i)) as [pid|].
    - open_bind Hser latest Hl. apply from_option_ok, latest_version_ok in Hl as (Hl & Hpl & Hmax).
      open_bind Hser x1 H1. apply throw_if_ok in H1. bool_prop. injection Hser as <- <-. left. exists latest. done.
    - open_bind Hser x1 H1. injection Hser as <- <-. by right. }
  eapply ef_insert. split; cbn; try done.
  - eexists. split; [done|]. lia.
  - apply new_version_stored; [by eapply compile_content_to|].
    destruct Hn as [(r0 & Hr0 & _ & _ & -> & _)|[-> _]]; [|done]. by eapply next_version_positive.
  - destruct Hn as [?|[-> ->]]; [by left|right]. split; [done|]. eexists. split; [done|]. lia.
Qed.

Lemma rollback_effect s i b now r s' :
  wf s -> row_read s (rb_policyId i) (rb_sourceVersion i) (rg_source b) ->
  commit_rollback s i b now = Ok (r, s') -> effect s s'.
Proof.
  intros Hwf Hrow E. destruct (row_now _ _ _ _ Hwf Hrow) as (r0 & Hr0 & _ & _ & _ & Hp & _ & Hk & _).
  unfold commit_rollback in E. open_bind E x1 H1. open_bind E compiled Hc. open_bind E s1 Hs1.
  open_bind E s2 Hs2. open_write. injection E as _ <-.
  destruct (latest_version_found _ _ Hr0) as [latest Hl]. rewrite Hp in Hl. rewrite Hl.
  apply latest_version_ok in Hl as (Hl & Hpl & Hmax).
  eapply ef_insert. split; cbn -[Z.add]; try done.
  - eexists. split; [done|]. lia.
  - apply new_version_stored; [by eapply compile_row_to|by eapply next_version_positive].
  - left. exists latest. split; [done|]. split; [done|]. split; [|done].
    rewrite (wf_series _ Hwf latest r0) by congruence. done.
Qed.

Lemma vote_effect s i now r s' : wf s ->
  policy_maker s (vo_policyId i) (vo_expectedVersion i) = Some (vo_makerSubjectId i) ->
  recordPolicyApproval s i now = Ok (r, s') -> effect s s'.
Proof.
  intros Hwf Hmk E. unfold recordPolicyApproval in E. open_bind E y0 Hy0. open_bind E y1 Hy1. open_bind E y2 Hy2. open_bind E y3 Hy3. open_bind E y4 Hy4. open_bind E y5 Hy5. open_bind E o Ho.
  destruct o as [resp|]; [injection E as _ <-; by apply ef_none|].
  open_bind E policy Hpol. open_bind E x1 H1x. open_bind E grant Hg. open_bind E s1 Hs1. open_bind E s2 Hs2.
  open_write. injection E as _ <-. unfold insert_policy_vote in Hs1. open_bind Hs1 x2 Hu. apply throw_if_ok in Hu.
  injection Hs1 as <-. apply from_option_ok in Hpol. unfold policy_maker in Hmk. rewrite Hpol in Hmk.
  injection Hmk as Hmk. apply find_version_ok in Hpol as (Hin & Hp & Hv).
  eapply ef_vote. split; cbn; try done; [| |lia].
  - exists policy. split_and!; try done. apply rethrow_as_ok in Hg.
    unfold assertCg4ApprovalAuthorization in Hg. open_bind Hg x3 H3x. apply throw_if_ok in H3x. cbn in H3x. bool_prop.
    unfold policy_voter. cbn. congruence.
  - cbn in Hu. intros Hm. apply in_map_iff in Hm as (v & Hvt & Hin'). apply not_true_iff_false in Hu. apply Hu.
    apply existsb_exists. exists v. split; [done|]. apply bool_decide_eq_true. done.
Qed.

Lemma switch_effect s i now r s' : killSwitch s i now = Ok (r, s') -> effect s s'.
Proof.
  intros E. unfold killSwitch in E. open_bind E y0 Hy0. open_bind E y1 Hy1. open_bind E y2 Hy2. open_bind E t Ht. open_bind E u Hu. open_bind E o Ho.
  destruct o as [resp|]; [injection E as _ <-; by apply ef_none|].
  open_bind E ua Hua. open_bind E c Hc. destruct c as [[id already] s1]. open_bind E s3 Hs3. open_write.
  injection E as _ <-.
  assert (Hs1 : ps_policies s1 = ps_policies s /\ ps_heads s1 = ps_heads s /\ ps_votes s1 = ps_votes s /\
                ps_nextId s1 = ps_nextId s).
  { unfold switch_rows in Hc. destruct (active_switch _ _), (ki_activate i); try done; inv_result; try done. }
  destruct Hs1 as (H1x & H2x & H3x & H4x). destruct already; apply ef_none; cbn; try done; lia.
Qed.

Lemma claim_effect s now owner seconds job s' : claim_job s now owner seconds = Some (job, s') -> effect s s'.
Proof.
  unfold claim_job. destruct (next_claimable s now); [|done]. intros [= _ <-]. by apply ef_none.
Qed.

Lemma commit_effect s p now r s' : wf s -> begun_ok s p -> commit s p now = Ok (r, s') -> effect s s'.
Proof.
  intros Hwf Hb E. destruct p; cbn in *.
  - eapply amend_effect; [apply Hb|done].
  - by eapply tests_effect.
  - by eapply submit_effect.
  - by eapply finalize_effect.
  - unfold commit_publish in E. open_bind E q Hq. eapply publish_effect; [done| |done].
    eapply (check_ok s (P_Publish i b) now); [done|exact Hb|]. cbn. by rewrite Hq.
  - unfold commit_activateDue in E. open_bind E c Hc. eapply activate_effect; [done| |done].
    eapply (check_ok s (P_Activate i b) now); [done|exact Hb|]. cbn. by rewrite Hc.
  - by eapply rollback_effect.
  - by eapply publish_effect.
  - by eapply activate_effect.
Qed.

(** ** Every effect keeps the invariant *)

Lemma version_quorum_votes s s' r : ps_votes s' = ps_votes s -> version_quorum s r -> version_quorum s' r.
Proof. unfold version_quorum, votes_of. by intros ->. Qed.

(** The versions a row is stored under are those the build supports. *)
Lemma stored_versions r : stored_ok r -> 0 < pr_version r /\
  vi_schemaVersion (pr_identity r) = CG4_POLICY_SCHEMA_VERSION /\
  vi_registryVersion (pr_identity r) = CG4_RULE_REGISTRY_VERSION /\
  vi_evaluatorVersion (pr_identity r) = CG4_EVALUATOR_VERSION.
Proof.
  intros (c & Hc & _). apply rethrow_as_ok in Hc. unfold compileCg4Policy in Hc. cbn [ci_version
    ci_schemaVersion ci_registryVersion ci_evaluatorVersion default from_option id] in Hc.
  open_bind Hc v Hv. open_bind Hc x1 Hx1. open_bind Hc x2 Hx2. open_bind Hc x3 Hx3.
  apply throw_if_ok in Hx1, Hx2, Hx3. bool_prop. unfold policy_version in Hv.
  destruct (Z.leb_spec (pr_version r) 0); [done|]. done.
Qed.

Lemma row_step_progress r r' : row_step r r' -> progress_ok r -> progress_ok r'.
Proof.
  unfold progress_ok. destruct 1 as [r ? ? ? ? Hs|r ? ? Hs|r ? Hs|r Hs|r ? ? ? Hs|r Hs|r ? ? [Hs|Hs]|r ? Hs];
    unfold pr_status in *; cbn; rewrite Hs; naive_solver.
Qed.

Lemma row_step_stored r r' : row_step r r' -> stored_ok r -> stored_ok r'.
Proof.
  destruct 1 as [r compiled content version n Hd Hc| | | | | | |]; try done.
  intros Hs. destruct (stored_versions r Hs) as (Hv & Hsv & Hrv & Hev).
  apply rethrow_as_ok in Hc. destruct (compile_again _ _ _ (pr_version r) (Some (vi_schemaVersion (pr_identity r)))
    (Some (vi_registryVersion (pr_identity r))) (Some (vi_evaluatorVersion (pr_identity r))) Hc Hv) as (p & Hp & Hcon & Hdig & _);
    [done..|]. exists p. split; [exact (f_equal (rethrow_as P_COMPILE) Hp)|]. split; [done|]. cbn. by rewrite Hcon.
Qed.

(** The rows of [s'] are those of [s], each unchanged or one step on. *)
Record evolved (s : PolicyStore) (g : PolicyVersion -> PolicyVersion) (s' : PolicyStore) : Prop := {
  ev_policies : ps_policies s' = map g (ps_policies s);
  ev_rows : forall r, In r (ps_policies s) -> g r = r \/ row_step r (g r);
  ev_quorum : forall r, In r (ps_policies s) -> by_quorum (pr_status (g r)) = true -> version_quorum s r;
  ev_votes : ps_votes s' = ps_votes s;
  ev_next : (ps_nextId s <= ps_nextId s')%nat;
}.

Lemma evolved_identity s g s' r : evolved s g s' -> In r (ps_policies s) -> pr_identity (g r) = pr_identity r.
Proof. intros He Hr. destruct (ev_rows _ _ _ He r Hr) as [->|Hs]; [done|by apply row_step_identity]. Qed.

Lemma evolved_In s g s' r' : evolved s g s' -> In r' (ps_policies s') ->
  exists r, In r (ps_policies s) /\ r' = g r /\ pr_identity r' = pr_identity r.
Proof.
  intros He Hr. rewrite (ev_policies _ _ _ He) in Hr. apply in_map_iff in Hr as (r & <- & Hr).
  exists r. split_and!; [done..|]. by eapply evolved_identity.
Qed.

Lemma evolved_wf s g s' : wf s -> evolved s g s' -> map_wf (ps_heads s') ->
  (forall k h, map_get k (ps_heads s') = Some h -> 0 < hd_headVersion h /\ exists r, head_of s' h r /\ pr_scopeKey r = k) ->
  (forall r, In r (ps_policies s') -> pr_status r = S_ACTIVE ->
     exists h, map_get (pr_scopeKey r) (ps_heads s') = Some h /\ hd_revisionId h = pr_id r) ->
  wf s'.
Proof.
  intros Hwf He Hheads Hhead Hactive. split; try done.
  - rewrite (ev_policies _ _ _ He), map_map. rewrite (map_ext_in _ pr_id); [apply Hwf|].
    intros r Hr. unfold pr_id. by rewrite (evolved_identity _ _ _ _ He).
  - intros r' Hr'. destruct (evolved_In _ _ _ _ He Hr') as (r & Hr & _ & Hi).
    destruct (wf_fresh _ Hwf r Hr) as (n & m & ? & ? & ? & ?). pose proof (ev_next _ _ _ He). exists n, m.
    unfold pr_id, pr_policyId in *. rewrite Hi. split_and!; [lia|lia|done|done].
  - intros r1 r2 H1 H2. destruct (evolved_In _ _ _ _ He H1) as (o1 & Ho1 & -> & Hi1), (evolved_In _ _ _ _ He H2) as (o2 & Ho2 & -> & Hi2).
    unfold pr_policyId, pr_version in *. rewrite Hi1, Hi2. intros ? ?. by rewrite (wf_versions _ Hwf o1 o2).
  - intros r1 r2 H1 H2. destruct (evolved_In _ _ _ _ He H1) as (o1 & Ho1 & -> & Hi1), (evolved_In _ _ _ _ He H2) as (o2 & Ho2 & -> & Hi2).
    unfold pr_policyId, pr_scopeKey in *. rewrite Hi1, Hi2. by apply (wf_series _ Hwf).
  - intros r' Hr'. destruct (evolved_In _ _ _ _ He Hr') as (r & Hr & _ & Hi).
    destruct (wf_numbered _ Hwf r Hr) as [? Hprev]. unfold pr_version, pr_policyId in *. rewrite Hi.
    split; [done|]. intros Hlt. destruct (Hprev Hlt) as (q & Hq & Hqp & Hqv). exists (g q).
    split; [rewrite (ev_policies _ _ _ He); by apply in_map|]. unfold pr_version, pr_policyId in *.
    by rewrite (evolved_identity _ _ _ _ He).
  - intros r' Hr'. destruct (evolved_In _ _ _ _ He Hr') as (r & Hr & -> & _).
    destruct (ev_rows _ _ _ He r Hr) as [->|Hs]; [by apply (wf_stored _ Hwf)|].
    eapply row_step_stored; [done|by apply (wf_stored _ Hwf)].
  - intros v Hv. rewrite (ev_votes _ _ _ He) in Hv. destruct (wf_votes _ Hwf v Hv) as (r & Hr & ? & ? & ?).
    exists (g r). split; [rewrite (ev_policies _ _ _ He); by apply in_map|].
    unfold pr_policyId, pr_version in *. by rewrite (evolved_identity _ _ _ _ He).
  - intros p n. unfold votes_of. rewrite (ev_votes _ _ _ He). apply Hwf.
  - intros r' Hr' Hq. destruct (evolved_In _ _ _ _ He Hr') as (r & Hr & -> & Hi).
    pose proof (ev_quorum _ _ _ He r Hr Hq) as Hvq. apply (version_quorum_votes _ _ _ (ev_votes _ _ _ He)) in Hvq.
    destruct (ev_rows _ _ _ He r Hr) as [->|Hs]; [done|].
    unfold version_quorum, diff_class, pr_diffClass, pr_policyId, pr_version in *. rewrite Hi.
    destruct (decide (pr_status r = S_DRAFT)) as [Hd|Hd].
    + apply row_step_edge in Hs. rewrite Hd in Hs. by destruct (pr_status (g r)).
    + by destruct (row_step_frozen _ _ Hs Hd) as (_ & -> & _).
  - intros r' Hr'. destruct (evolved_In _ _ _ _ He Hr') as (r & Hr & -> & _).
    destruct (ev_rows _ _ _ He r Hr) as [->|Hs]; [by apply Hwf|].
    eapply row_step_progress; [done|by apply Hwf].
Qed.

(** *** Updates *)

Definition where_ (p : PolicyVersion -> bool) (f : PolicyVersion -> PolicyVersion) (r : PolicyVersion)
  : PolicyVersion := if p r then f r else r.

Lemma updated_evolved s p f s' : wf s -> updated s p f s' -> evolved s (where_ p f) s'.
Proof.
  intros Hwf Hu. split; try apply Hu.
  - intros r Hr. unfold where_. destruct (p r) eqn:Ep; [right; by apply Hu|by left].
  - intros r Hr. unfold where_. destruct (p r) eqn:Ep; [|by apply Hwf]. intros Hq. by apply (up_quorum _ _ _ _ Hu).
Qed.

(** A head before and after it announced an activation: the same version of the same scope. *)
Lemma annotated_get s s' k h' : heads_annotated s s' -> map_get k (ps_heads s') = Some h' ->
  exists h, map_get k (ps_heads s) = Some h /\ hd_headVersion h <= hd_headVersion h' /\
    hd_policyId h' = hd_policyId h /\ hd_policyVersion h' = hd_policyVersion h /\
    hd_revisionId h' = hd_revisionId h /\ hd_headDigest h' = hd_headDigest h.
Proof.
  intros [->|(k0 & h & h1 & Hg & -> & Hv & ? & ? & ? & ?)]; [intros Hh; by exists h'|].
  destruct (decide (k0 = k)) as [->|Hne].
  - rewrite map_get_set_eq. intros [= <-]. exists h. split_and!; try done. lia.
  - rewrite map_get_set_ne by done. intros Hh. by exists h'.
Qed.

Lemma annotated_kept s s' k h : heads_annotated s s' -> map_get k (ps_heads s) = Some h ->
  exists h', map_get k (ps_heads s') = Some h' /\ hd_revisionId h' = hd_revisionId h.
Proof.
  intros [->|(k0 & h0 & h1 & Hg & -> & Hv & ? & ? & Hr & ?)] Hh; [by exists h|].
  destruct (decide (k0 = k)) as [->|Hne].
  - rewrite map_get_set_eq. exists h1. split; [done|]. congruence.
  - rewrite map_get_set_ne by done. by exists h.
Qed.

(** An update leaves the ACTIVE rows alone. *)
Lemma updated_active s p f s' r : updated s p f s' ->
  In r (ps_policies s') /\ pr_status r = S_ACTIVE <-> In r (ps_policies s) /\ pr_status r = S_ACTIVE.
Proof.
  intros Hu. rewrite (up_policies _ _ _ _ Hu), update_where_In. split.
  - intros [(r0 & Hr0 & ->) Ha]. destruct (p r0) eqn:Ep; [|done].
    by destruct (up_quiet _ _ _ _ Hu r0 Hr0 Ep).
  - intros [Hr Ha]. split; [|done]. exists r. split; [done|]. destruct (p r) eqn:Ep; [|done].
    by destruct (up_quiet _ _ _ _ Hu r Hr Ep).
Qed.

Lemma updated_wf s p f s' : wf s -> updated s p f s' -> wf s'.
Proof.
  intros Hwf Hu. pose proof (up_heads _ _ _ _ Hu) as Hh.
  apply (evolved_wf s (where_ p f)); [done|by apply updated_evolved|..].
  - destruct Hh as [->|(k & h & h' & _ & -> & _)]; [apply Hwf|]. apply map_set_wf, Hwf.
  - intros k h' Hk. destruct (annotated_get _ _ _ _ Hh Hk) as (h & Hg & Hle & Hp & Hv & Hr & Hd).
    destruct (wf_head _ Hwf k h Hg) as (Hpos & r & (Hin & Ha & ? & ? & ? & ?) & Hs). split; [lia|].
    exists r. split; [|done]. destruct (proj2 (updated_active _ _ _ _ r Hu) (conj Hin Ha)).
    split_and!; congruence || done.
  - intros r Hr Ha. destruct (proj1 (updated_active _ _ _ _ r Hu) (conj Hr Ha)) as [Hr' _].
    destruct (wf_active _ Hwf r Hr' Ha) as (h & Hg & Hrev).
    destruct (annotated_kept _ _ _ _ Hh Hg) as (h' & Hg' & Hrev'). exists h'. split; [done|]. congruence.
Qed.

(** *** The swap *)

Section TookOver.
Context (s s' : PolicyStore) (r : PolicyVersion) (Hwf : wf s) (Hto : took_over s r s').

(** Where each row of the swap goes. *)
Lemma took_over_rows : exists g, evolved s g s' /\ pr_status (g r) = S_ACTIVE /\
  pr_contentDigest (g r) = pr_contentDigest r /\
  (forall x, In x (ps_policies s) -> pr_status (g x) = S_ACTIVE ->
    x = r \/ (g x = x /\ pr_status x = S_ACTIVE /\ pr_scopeKey x <> pr_scopeKey r)) /\
  (forall x, In x (ps_policies s) -> pr_status x = S_ACTIVE -> pr_scopeKey x <> pr_scopeKey r -> g x = x).
Proof.
  destruct (to_policies _ _ _ Hto) as (t & t' & old & Hp).
  set (gone := match map_get (pr_scopeKey r) (ps_heads s) with
               | None => fun _ => false
               | Some h => has_status (hd_revisionId h) S_ACTIVE end).
  set (g := fun x => where_ (may_activate (pr_id r)) (activated t' old) (where_ gone (superseded t) x)).
  assert (Hsame : forall x, In x (ps_policies s) -> pr_id x = pr_id r -> x = r).
  { intros x Hx. apply (same_row s); [done|done|apply (to_row _ _ _ Hto)]. }
  assert (Hgone : forall x, gone x = true -> pr_status x = S_ACTIVE).
  { intros x. unfold gone. destruct (map_get _ _); [|discriminate]. intros Hx. by apply has_status_ok in Hx as [_ ?]. }
  assert (Hgr : g r = activated t' old r).
  { unfold g, where_. destruct (gone r) eqn:Eg.
    - apply Hgone in Eg. destruct (to_status _ _ _ Hto); congruence.
    - destruct (may_activate (pr_id r) r) eqn:Em; [done|]. apply not_true_iff_false in Em. exfalso. apply Em.
      apply may_activate_ok. split; [done|apply (to_status _ _ _ Hto)]. }
  assert (Hgx : forall x, In x (ps_policies s) -> x <> r ->
    g x = if gone x then superseded t x else x).
  { intros x Hx Hne. unfold g, where_. assert (may_activate (pr_id r) x = false) as Hf.
    { apply not_true_iff_false. intros Hm. apply may_activate_ok in Hm as [Hid _]. apply Hne.
      by apply Hsame. }
    destruct (gone x) eqn:Eg; [|by rewrite Hf]. unfold may_activate, pr_status. cbn. by rewrite andb_false_r. }
  exists g. split_and!.
  - split; try apply Hto.
    + rewrite Hp. unfold update_where. destruct (map_get (pr_scopeKey r) (ps_heads s)) as [h|].
      * rewrite map_map. done.
      * done.
    + intros x Hx. destruct (decide (pr_id x = pr_id r)) as [Hid|Hid].
      * apply Hsame in Hid as ->; [|done]. rewrite Hgr. right.
        apply rw_activate. apply (to_status _ _ _ Hto).
      * rewrite Hgx by (try done; congruence). destruct (gone x) eqn:Eg; [|by left].
        right. apply rw_supersede. by apply Hgone.
    + intros x Hx. destruct (decide (pr_id x = pr_id r)) as [Hid|Hid].
      * apply Hsame in Hid as ->; [|done].
        intros _. apply (to_quorum _ _ _ Hto).
      * rewrite Hgx by (try done; congruence). destruct (gone x) eqn:Eg; [|by apply Hwf].
        intros _. apply (wf_quorum _ Hwf); [done|]. by rewrite (Hgone x Eg).
  - by rewrite Hgr.
  - by rewrite Hgr.
  - intros x Hx Ha. destruct (decide (pr_id x = pr_id r)) as [Hid|Hid].
    + left. by apply Hsame.
    + right. rewrite Hgx in * by (try done; congruence). destruct (gone x) eqn:Eg; [done|]. split; [done|].
      split; [done|]. intros Hk. destruct (wf_active _ Hwf x Hx Ha) as (h & Hg & Hrev). rewrite Hk in Hg.
      unfold gone in Eg. rewrite Hg in Eg. apply not_true_iff_false in Eg. apply Eg. by apply has_status_ok.
  - intros x Hx Ha Hk. rewrite Hgx; [|done|by intros ->]. destruct (gone x) eqn:Eg; [|done]. exfalso. apply Hk.
    unfold gone in Eg. destruct (map_get (pr_scopeKey r) (ps_heads s)) as [h|] eqn:Eh; [|done].
    apply has_status_ok in Eg as [Hid _]. destruct (wf_head _ Hwf _ _ Eh) as (_ & y & (Hy & _ & Hyr & _) & <-).
    by rewrite (same_row s x y) by (done || congruence).
Qed.

Lemma took_over_wf : wf s'.
Proof.
  destruct took_over_rows as (g & He & Hgr & Hgd & Hact & Hkeep). pose proof (to_row _ _ _ Hto) as Hr.
  pose proof (evolved_identity _ _ _ r He Hr) as Hir.
  destruct (to_heads _ _ _ Hto) as (h' & Hh & Hv & Hrev & Hpid & Hver & Hdig).
  assert (Hget : forall k, map_get k (ps_heads s') =
    if bool_decide (k = pr_scopeKey r) then Some h' else map_get k (ps_heads s)).
  { intros k. rewrite Hh. case_bool_decide as Hk; [subst; apply map_get_set_eq|].
    apply map_get_set_ne. congruence. }
  assert (Hin : forall x, In x (ps_policies s) -> In (g x) (ps_policies s')).
  { intros x Hx. rewrite (ev_policies _ _ _ He). by apply in_map. }
  apply (evolved_wf s g); [done|done|rewrite Hh; apply map_set_wf, Hwf|..].
  - intros k h Hk. rewrite Hget in Hk. case_bool_decide as Hke.
    + injection Hk as <-. split.
      { rewrite Hv. destruct (map_get _ _) as [h0|] eqn:E; [apply (heads_positive s Hwf) in E|]; lia. }
      exists (g r). unfold head_of, pr_id, pr_policyId, pr_version, pr_scopeKey in *. rewrite Hir, Hgd.
      split; [|done]. split_and!; try done. by apply Hin.
    + destruct (wf_head _ Hwf k h Hk) as (Hpos & x & (Hx & Ha & Hxr & ? & ? & ?) & Hxk). split; [done|].
      exists x. split; [|done]. split_and!; try done.
      rewrite <- (Hkeep x Hx Ha) by congruence. by apply Hin.
  - intros y Hy Ha. destruct (evolved_In _ _ _ _ He Hy) as (x & Hx & -> & Hi). rewrite Hget.
    destruct (Hact x Hx Ha) as [->|(Hgx & Hax & Hk)].
    + unfold pr_scopeKey, pr_id in *. rewrite Hi, bool_decide_eq_true_2 by done. exists h'. done.
    + rewrite Hgx, bool_decide_eq_false_2 by done. by apply Hwf.
Qed.
End TookOver.

(** *** New rows and votes *)

Context (fresh_inj : forall m n, fresh m = fresh n -> m = n).

Lemma inserted_wf s row s' : wf s -> inserted s row s' -> wf s'.
Proof.
  intros Hwf Hi. destruct (in_id _ _ _ Hi) as (n & Hid & Hn).
  assert (Hin : forall x, In x (ps_policies s') <-> In x (ps_policies s) \/ x = row).
  { intros x. rewrite (in_policies _ _ _ Hi), in_app_iff. cbn. naive_solver. }
  assert (Hdraft : forall x, In x (ps_policies s') -> pr_status x = S_ACTIVE -> In x (ps_policies s)).
  { intros x Hx Ha. apply Hin in Hx as [?| ->]; [done|]. by rewrite (in_draft _ _ _ Hi) in Ha. }
  assert (Hold : forall x, In x (ps_policies s) -> pr_policyId x = pr_policyId row ->
    pr_version x < pr_version row /\ pr_scopeKey x = pr_scopeKey row).
  { intros x Hx Hp. destruct (in_series _ _ _ Hi) as [(q & Hq & Hqp & <- & -> & Hmax)|(_ & m & Hm & Hlt)].
    - specialize (Hmax x Hx Hp). split; [lia|]. apply (wf_series _ Hwf); [done..|congruence].
    - destruct (wf_fresh _ Hwf x Hx) as (_ & m' & _ & Hm' & _ & Hxp). rewrite Hxp, Hm in Hp.
      apply fresh_inj in Hp. lia. }
  split; rewrite ?(in_heads _ _ _ Hi), ?(in_votes _ _ _ Hi).
  - apply Hwf.
  - rewrite (in_policies _ _ _ Hi), map_app. apply List.NoDup_app; [apply Hwf|repeat constructor; cbn; tauto|].
    intros i Hi1 [<-|[]]. apply in_map_iff in Hi1 as (x & Hx & Hxin).
    destruct (wf_fresh _ Hwf x Hxin) as (n' & _ & Hn' & _ & Hx' & _). rewrite Hx', Hid in Hx.
    apply fresh_inj in Hx. lia.
  - intros x Hx. apply Hin in Hx as [Hx| ->].
    + destruct (wf_fresh _ Hwf x Hx) as (a & b & ? & ? & ? & ?). exists a, b. split_and!; try done; lia.
    + destruct (in_series _ _ _ Hi) as [(q & Hq & Hqp & _)|(_ & m & Hm & Hlt)].
      * destruct (wf_fresh _ Hwf q Hq) as (_ & b & _ & ? & _ & ?). exists n, b. split_and!; try done; [lia|lia|congruence].
      * exists n, m. split_and!; try done; lia.
  - intros r1 r2 H1 H2 Hp Hv. apply Hin in H1 as [H1| ->], H2 as [H2| ->]; [by apply (wf_versions _ Hwf)|..|done].
    + destruct (Hold r1 H1 Hp). lia.
    + destruct (Hold r2 H2 (eq_sym Hp)). lia.
  - intros r1 r2 H1 H2 Hp. apply Hin in H1 as [H1| ->], H2 as [H2| ->]; [by apply (wf_series _ Hwf)|..|done].
    + by apply Hold.
    + symmetry. by apply Hold.
  - intros x Hx. apply Hin in Hx as [Hx| ->].
    + destruct (wf_numbered _ Hwf x Hx) as [? Hprev]. split; [done|]. intros Hlt.
      destruct (Hprev Hlt) as (q & Hq & ?). exists q. split; [apply Hin; by left|done].
    + destruct (in_series _ _ _ Hi) as [(q & Hq & Hqp & _ & -> & _)|(-> & _)]; [|lia].
      destruct (wf_numbered _ Hwf q Hq). split; [lia|]. intros _. exists q. split; [apply Hin; by left|].
      split; [done|lia].
  - intros x Hx. apply Hin in Hx as [Hx| ->]; [by apply Hwf|apply (in_stored _ _ _ Hi)].
  - intros k h Hk. destruct (wf_head _ Hwf k h Hk) as (? & x & (Hx & ?) & ?). split; [done|]. exists x.
    split; [|done]. split; [apply Hin; by left|done].
  - intros x Hx Ha. apply (wf_active _ Hwf); [by apply Hdraft|done].
  - intros v Hv. destruct (wf_votes _ Hwf v Hv) as (x & Hx & ?). exists x. split; [apply Hin; by left|done].
  - intros p k. unfold votes_of. rewrite (in_votes _ _ _ Hi). apply Hwf.
  - intros x Hx Hq. apply Hin in Hx as [Hx| ->]; [|by rewrite (in_draft _ _ _ Hi) in Hq].
    eapply version_quorum_votes; [apply (in_votes _ _ _ Hi)|by apply Hwf].
  - intros x Hx. apply Hin in Hx as [Hx| ->]; [by apply Hwf|apply (in_progress _ _ _ Hi)].
Qed.

Lemma votes_of_app s s' v policyId version : ps_votes s' = ps_votes s ++ [v] ->
  votes_of s' policyId version = votes_of s policyId version ++
    (if bool_decide (pw_policyId v = policyId) && (pw_policyVersion v =? version) then [v] else []).
Proof. intros Hv. unfold votes_of. by rewrite Hv, List.filter_app. Qed.

Lemma enough_grows q votes votes' : enough q votes -> enough q (votes ++ votes').
Proof.
  unfold enough, count_if. rewrite !List.filter_app, !length_app. intros (? & ? & He). split_and!; [lia|lia|].
  intros Hw. destruct (He Hw) as (? & a & Ha & ?). split; [lia|]. exists a. rewrite in_app_iff. auto.
Qed.

Lemma vote_cast_one s v s' policyId version : wf s -> vote_cast s v s' ->
  List.NoDup (map policy_voter (votes_of s' policyId version)).
Proof.
  intros Hwf Hv. rewrite (votes_of_app _ _ _ _ _ (vc_votes _ _ _ Hv)), map_app.
  destruct (_ && _) eqn:E; cbn; [|rewrite app_nil_r; apply (wf_one_vote _ Hwf)]. bool_prop. subst.
  apply List.NoDup_app; [apply (wf_one_vote _ Hwf)|repeat constructor; cbn; tauto|].
  intros x Hx [<-|[]]. by apply (vc_unique _ _ _ Hv).
Qed.

Lemma vote_cast_quorum s v s' x : wf s -> vote_cast s v s' -> version_quorum s x -> version_quorum s' x.
Proof.
  intros Hwf Hv He. pose proof (fun p n => vote_cast_one s v s' p n Hwf Hv) as Hone. unfold version_quorum in *.
  rewrite counted_policy_fresh in He by apply (wf_one_vote _ Hwf). rewrite counted_policy_fresh by done.
  rewrite (votes_of_app _ _ _ _ _ (vc_votes _ _ _ Hv)). unfold counted_policy_votes in *.
  rewrite List.filter_app, map_app. by apply enough_grows.
Qed.

Lemma vote_cast_wf s v s' : wf s -> vote_cast s v s' -> wf s'.
Proof.
  intros Hwf Hv. pose proof (vc_policies _ _ _ Hv) as Hp. pose proof (vc_heads _ _ _ Hv) as Hh.
  pose proof (fun p n => vote_cast_one s v s' p n Hwf Hv) as Hone. split; rewrite ?Hp, ?Hh; try apply Hwf; try done.
  - intros x Hx. destruct (wf_fresh _ Hwf x Hx) as (a & b & ? & ? & ? & ?). pose proof (vc_next _ _ _ Hv).
    exists a, b. split_and!; try done; lia.
  - intros k h Hk. destruct (wf_head _ Hwf k h Hk) as (? & x & Hx & ?). split; [done|]. exists x.
    split; [|done]. unfold head_of in *. by rewrite Hp.
  - intros w Hw. rewrite (vc_votes _ _ _ Hv) in Hw. apply in_app_iff in Hw as [Hw|[<-|[]]]; [by apply Hwf|].
    apply (vc_row _ _ _ Hv).
  - intros x Hx Hq. eapply vote_cast_quorum; [done..|by apply Hwf].
Qed.

Lemma effect_wf s s' : wf s -> effect s s' -> wf s'.
Proof.
  intros Hwf [Hp Hh Hv Hn|row Hi|p f Hu|v Hc|r Ht].
  - destruct Hwf. split; unfold head_of, votes_of in *; rewrite ?Hp, ?Hh, ?Hv; try done.
    + intros x Hx. destruct (wf_fresh0 x Hx) as (a & b & ? & ? & ? & ?). exists a, b. split_and!; try done; lia.
    + intros x Hx Hq. by eapply version_quorum_votes; [|apply wf_quorum0].
  - by eapply inserted_wf.
  - by eapply updated_wf.
  - by eapply vote_cast_wf.
  - by eapply took_over_wf.
Qed.

(** ** What a command under way has read stays true *)

Lemma effect_rows s s' r : wf s -> effect s s' -> In r (ps_policies s) ->
  exists r', In r' (ps_policies s') /\ (r' = r \/ row_step r r').
Proof.
  intros Hwf He Hr. destruct He as [Hp _ _ _|row Hi|p f Hu|v Hc|r0 Ht].
  - exists r. rewrite Hp. auto.
  - exists r. rewrite (in_policies _ _ _ Hi), in_app_iff. auto.
  - pose proof (updated_evolved _ _ _ _ Hwf Hu) as Hg. exists (where_ p f r).
    split; [rewrite (ev_policies _ _ _ Hg); by apply in_map|by apply (ev_rows _ _ _ Hg)].
  - exists r. rewrite (vc_policies _ _ _ Hc). auto.
  - destruct (took_over_rows _ _ _ Hwf Ht) as (g & Hg & _). exists (g r).
    split; [rewrite (ev_policies _ _ _ Hg); by apply in_map|by apply (ev_rows _ _ _ Hg)].
Qed.

Lemma row_read_mono s s' policyId version row :
  wf s -> effect s s' -> row_read s policyId version row -> row_read s' policyId version row.
Proof.
  intros Hwf He (Hp & Hv & Hs & r & Hr & Hf). split_and!; try done.
  destruct (effect_rows _ _ _ Hwf He Hr) as (r' & Hr' & Hor). exists r'. split; [done|].
  destruct Hor as [->|Hst]; [done|]. eapply rtc_r; done.
Qed.

(** A head stays as it is or gets a higher version. *)
Lemma effect_head s s' k : wf s -> effect s s' ->
  loadHead s' k = loadHead s k \/ hs_headVersion (loadHead s k) < hs_headVersion (loadHead s' k).
Proof.
  intros Hwf He. unfold loadHead. destruct He as [_ Hh _ _|row Hi|p f Hu|v Hc|r0 Ht].
  - left. by rewrite Hh.
  - left. by rewrite (in_heads _ _ _ Hi).
  - destruct (up_heads _ _ _ _ Hu) as [->|(k0 & h & h' & Hg & -> & Hv & _)]; [by left|].
    destruct (decide (k0 = k)) as [->|Hne]; [|left; by rewrite map_get_set_ne].
    rewrite map_get_set_eq, Hg. right. cbn. lia.
  - left. by rewrite (vc_heads _ _ _ Hc).
  - destruct (to_heads _ _ _ Ht) as (h' & -> & Hv & _).
    destruct (decide (pr_scopeKey r0 = k)) as [<-|Hne]; [|left; by rewrite map_get_set_ne].
    rewrite map_get_set_eq. right. cbn. rewrite Hv. destruct (map_get _ _); cbn; lia.
Qed.

Lemma head_read_mono s s' k head : wf s -> effect s s' -> head_read s k head -> head_read s' k head.
Proof.
  intros Hwf He. unfold head_read. destruct (effect_head s s' k Hwf He) as [->|Hlt]; [done|].
  intros [->|?]; right; lia.
Qed.

Lemma version_quorum_mono s s' r : wf s -> effect s s' -> version_quorum s r -> version_quorum s' r.
Proof.
  intros Hwf [_ _ Hv _|row Hi|p f Hu|v Hc|r0 Ht] Hq.
  - by apply (version_quorum_votes s).
  - apply (version_quorum_votes s); [apply (in_votes _ _ _ Hi)|done].
  - apply (version_quorum_votes s); [apply (up_votes _ _ _ _ Hu)|done].
  - by apply (vote_cast_quorum s v).
  - apply (version_quorum_votes s); [apply (to_votes _ _ _ Ht)|done].
Qed.

Lemma pending_mono s s' p : wf s -> effect s s' -> begun_ok s p -> begun_ok s' p.
Proof.
  intros Hwf He. destruct p; cbn; unfold candidate_read;
    naive_solver (eauto using row_read_mono, head_read_mono, version_quorum_mono).
Qed.

Lemma find_version_read s policyId version r : wf s -> find_version s policyId version = Some r ->
  row_read s policyId version r.
Proof.
  intros Hwf Hf. apply find_version_ok in Hf as (Hr & Hp & Hv). split_and!; [done|done|by apply Hwf|].
  exists r. split; [done|apply rtc_refl].
Qed.

Lemma begin_candidate_read s operation c t hash policyId version digest b : wf s ->
  begin_candidate s operation c t hash policyId version digest = Ok (inr b) ->
  candidate_read s policyId version (cb_candidate b) /\ pr_contentDigest (ca_row (cb_candidate b)) = digest /\
  cb_requestHash b = hash /\ cb_occurredAt b = t /\
  map_get (operation, cm_idempotencyKey c) (ps_receipts s) = None.
Proof.
  intros Hwf E. unfold begin_candidate in E. open_bind E x1 Hx1. open_bind E o Ho. apply policy_replay_ok in Ho.
  destruct o; [done|]. open_bind E ca Hca. injection E as <-. cbn. unfold loadCandidate in Hca.
  open_bind Hca row Hrow. apply from_option_ok in Hrow. open_bind Hca x2 Hx2. open_bind Hca compiled Hc.
  open_bind Hca x3 Hx3. open_bind Hca base Hb. injection Hca as <-. apply throw_if_ok in Hx2, Hx3. bool_prop. cbn.
  split_and!; try done. unfold candidate_read. cbn. split_and!; try done; [by apply find_version_read|by left].
Qed.

Lemma begin_ok s c p : wf s -> begin s c = Ok (inr p) -> begun_ok s p.
Proof.
  intros Hwf E. destruct c as [i|fuel i|i|i|i|i|i]; cbn in E; unfold map_begun in E.
  - destruct (begin_amendDraft s i) as [[?|b]|] eqn:Eb; try done. injection E as <-. unfold begin_amendDraft in Eb.
    open_bind Eb y0 Hy0. open_bind Eb y1 Hy1. open_bind Eb y2 Hy2. open_bind Eb t Ht. open_bind Eb compiled Hc.
    open_bind Eb o Ho. destruct o; [done|]. open_bind Eb row Hr. injection Eb as <-. apply from_option_ok in Hr.
    split; [by apply find_version_read|done].
  - destruct (begin_runTests s i) as [[?|b]|] eqn:Eb; try done. injection E as <-. unfold begin_runTests in Eb.
    open_bind Eb y0 Hy0. open_bind Eb t Ht. by apply begin_candidate_read in Eb as [? _].
  - destruct (begin_submit s i) as [[?|b]|] eqn:Eb; try done. injection E as <-. unfold begin_submit in Eb.
    open_bind Eb y0 Hy0. open_bind Eb t Ht. by apply begin_candidate_read in Eb as [? _].
  - destruct (begin_finalizeApproval s i) as [[?|b]|] eqn:Eb; try done. injection E as <-.
    unfold begin_finalizeApproval in Eb. open_bind Eb y0 Hy0. open_bind Eb t Ht. open_bind Eb a Ha. open_bind Eb bg Hbg.
    destruct bg as [?|bg]; [done|]. injection Eb as <-. by apply begin_candidate_read in Hbg as [? _].
  - destruct (begin_publish s i) as [[?|b]|] eqn:Eb; try done. injection E as <-. unfold begin_publish in Eb.
    open_bind Eb y0 Hy0. open_bind Eb t Ht. by apply begin_candidate_read in Eb as [? _].
  - destruct (begin_activateDue s i) as [[?|b]|] eqn:Eb; try done. injection E as <-. unfold begin_activateDue in Eb.
    open_bind Eb y0 Hy0. open_bind Eb y1 Hy1. open_bind Eb t Ht. open_bind Eb y2 Hy2. open_bind Eb o Ho.
    destruct o; [done|]. open_bind Eb row Hr. injection Eb as <-. apply from_option_ok in Hr. by apply find_version_read.
  - destruct (begin_rollback s i) as [[?|b]|] eqn:Eb; try done. injection E as <-. unfold begin_rollback in Eb.
    open_bind Eb y0 Hy0. open_bind Eb y1 Hy1. open_bind Eb t Ht. open_bind Eb y2 Hy2. open_bind Eb o Ho.
    destruct o; [done|]. open_bind Eb row Hr. open_bind Eb y3 Hy3. injection Eb as <-. apply from_option_ok in Hr.
    by apply find_version_read.
Qed.

(** ** Reachable systems *)

Definition sys_wf (y : PolicySystem) : Prop :=
  wf (py_store y) /\ Forall (begun_ok (py_store y)) (py_begun y).

Lemma step_effect y y' : sys_wf y -> step y y' -> effect (py_store y) (py_store y').
Proof.
  intros [Hwf Hb] Hst. destruct Hst as [s b i now r s' E|s b i now r s' Hmk E|s b i now r s' E|s b c p E
    |s b1 b2 p now p' E|s b1 b2 p now r s' E|s b1 b2 p|s b now owner sec job s' E|s b now mx job|s b s' E]; cbn in *;
    try (apply ef_none; done).
  - by eapply create_effect.
  - by eapply vote_effect.
  - by eapply switch_effect.
  - rewrite Forall_app, Forall_cons in Hb. destruct Hb as (_ & Hp & _). by eapply commit_effect.
  - by eapply claim_effect.
  - destruct E. by apply ef_none.
Qed.

Lemma step_policy_wf y y' : sys_wf y -> step y y' -> sys_wf y'.
Proof.
  intros Hsys Hst. pose proof (step_effect _ _ Hsys Hst) as He. destruct Hsys as [Hwf Hb].
  split; [by eapply effect_wf|].
  assert (Hmono : Forall (begun_ok (py_store y')) (py_begun y)).
  { eapply Forall_impl; [exact Hb|]. intros p. by apply pending_mono. }
  destruct Hst; cbn in *; try done;
    try (rewrite Forall_app, Forall_cons in Hmono; rewrite Forall_app; tauto).
  - apply Forall_cons. split; [|done]. by eapply begin_ok.
  - rewrite Forall_app, Forall_cons in Hmono. rewrite Forall_app, Forall_cons. destruct Hmono as (? & Hp & ?).
    split_and!; [done| |done]. eapply check_ok; [exact Hwf|exact Hp|done].
Qed.

Lemma empty_sys_wf : sys_wf (PolicySystem_ empty_policies []).
Proof. split; [|done]. split; cbn; try done; try apply List.NoDup_nil. intros _ _. apply List.NoDup_nil. Qed.

Lemma steps_policy_wf y y' : sys_wf y -> rtc step y y' -> sys_wf y'.
Proof. intros Hy Hst. induction Hst; [done|]. eauto using step_policy_wf. Qed.

Lemma reachable_policy_wf y : reachable y -> sys_wf y.
Proof. intros Hst. eapply steps_policy_wf; [apply empty_sys_wf|exact Hst]. Qed.
End System.
