(* ===== verification/PolicyScenario.v ===== *)
(** * PolicyScenario: worked histories of the policy studio

    A history is a list of commands, each built from the store it meets; running one gives a store
    the system reaches. The witnesses of the policy theorems, and the histories that exhibit a
    finding, run here. *)
From stdpp Require Import base tactics list strings relations.
From Stdlib Require Import ZArith Lia.
From S2P Require Import Prelude JsMap Text JsDate JsValue Contracts ScopeKey PolicyCompiler PolicyDiff PolicyPreview Authorization Persistence PolicyStore PolicyLifecycle PolicySystem.

Open Scope string_scope.
Open Scope Z_scope.
Open Scope list_scope.

(** ** Histories *)

(** One move: a command on the store it meets, or the worker's. *)
Inductive Move :=
  | M_create (i : CreateCg4PolicyDraftInput)
  | M_vote (i : PolicyStore -> RecordCg4PolicyApprovalInput)
  | M_switch (i : Cg4KillSwitchInput)
  | M_run (c : PolicyStore -> command).

Section Run.
Context `{Runtime, Host}.

(** The gateway passes the maker of the version voted on. *)
Definition maker_agrees (s : PolicyStore) (i : RecordCg4PolicyApprovalInput) : bool :=
  bool_decide (policy_maker s (vo_policyId i) (vo_expectedVersion i) = Some (vo_makerSubjectId i)).

Definition play_move (now : Z) (s : PolicyStore) (m : Move) : studio (Response * PolicyStore) :=
  match m with
  | M_create i => createDraft s i now
  | M_vote i => throw_if (negb (maker_agrees s (i s))) P_INVALID_INPUT ;; recordPolicyApproval s (i s) now
  | M_switch i => killSwitch s i now
  | M_run c => PolicySystem.run s (c s) now
  end.

Fixpoint play (s : PolicyStore) (ms : list (Z * Move)) : studio PolicyStore :=
  match ms with
  | [] => Ok s
  | (now, m) :: ms' => r ← play_move now s m; play (snd r) ms'
  end.

Lemma run_command_steps s c now r s' b :
  PolicySystem.run s c now = Ok (r, s') -> rtc step (PolicySystem_ s b) (PolicySystem_ s' b).
Proof.
  unfold PolicySystem.run. intros E. open_bind E x Hx. destruct x as [response|p].
  - injection E as _ ->. apply rtc_refl.
  - eapply rtc_l; [by eapply step_begin|]. apply rtc_once. by apply (step_commit s [] b p now r s').
Qed.

Lemma play_move_steps now s m r s' b :
  play_move now s m = Ok (r, s') -> rtc step (PolicySystem_ s b) (PolicySystem_ s' b).
Proof.
  destruct m as [i|i|i|c]; cbn; intros E.
  - apply rtc_once. by eapply step_create.
  - open_bind E x Hx. apply throw_if_ok in Hx. unfold maker_agrees in Hx. bool_prop.
    apply rtc_once. by eapply (step_vote s b (i s)).
  - apply rtc_once. by eapply step_switch.
  - by eapply run_command_steps.
Qed.

Lemma play_steps ms s s' b : play s ms = Ok s' -> rtc step (PolicySystem_ s b) (PolicySystem_ s' b).
Proof.
  revert s. induction ms as [|[now m] ms IH]; intros s; cbn; [intros [= ->]; apply rtc_refl|].
  intros E. open_bind E x Hx. destruct x as [r s1]. etrans; [|by apply IH]. by eapply play_move_steps.
Qed.

Lemma played_reachable ms s : play empty_policies ms = Ok s -> reachable (PolicySystem_ s []).
Proof. intros E. by eapply play_steps. Qed.
End Run.

(** ** A studio *)

#[local] Existing Instance two_zone_host.
#[local] Existing Instance demo_host.

Definition scope_of (channel contactKind : option string) : string :=
  match buildCg4PolicyScopeKey (Dimensions channel contactKind None None) with Ok k => k | Err _ => "" end.

(** Every channel, voice alone, and people alone. *)
Definition any_scope : string := Eval vm_compute in scope_of None None.
Definition voice_scope : string := Eval vm_compute in scope_of (Some "VOICE") None.
Definition person_scope : string := Eval vm_compute in scope_of None (Some "PERSON").

Definition studio_capabilities : list Cg4Capability :=
  [CG_POLICY_DRAFT; CG_POLICY_PUBLISH; CG_POLICY_PUBLISH_RELAXATION; CG_POLICY_ROLLBACK].

(** A person who holds every policy capability on these scopes. *)
Definition member (name : string) (compliance : bool) : Cg4AuthorizationSubject :=
  AuthorizationSubject name "t" AUTH_STRONG
    (flat_map (fun k => map (fun c => CapabilityGrant c k DIRECT None None) studio_capabilities)
       [any_scope; voice_scope; person_scope])
    compliance false 1 1 "2026-01-01T00:00:00.000Z".

Definition maria := member "maria" false.
Definition carol := member "carol" true.
Definition dave := member "dave" false.

Definition NOON : string := "2026-01-01T12:00:00.000Z".
Definition noon_ms : Z := 1767268800000.

Definition by_actor (actor : Cg4AuthorizationSubject) (key : string) : CommandBase :=
  CommandBase_ "t" actor "ev" NOON key.

(** Quiet on Mondays from 20:00 to [end_]. *)
Definition quiet_until (end_ : string) : jsval :=
  JObj [("callbackMode", JStr "SCOPED_OVERRIDE");
        ("quietHours", JArr [JObj [("daysOfWeek", JArr [JNum (NInt 1)]);
                                   ("startLocal", JStr "20:00"); ("endLocal", JStr end_)]]);
        ("timezoneFallback", JStr "Asia/Bangkok"); ("overridableRules", JArr []);
        ("allowedOperationalRuleCodes", JArr []); ("holidays", JArr [])].

Definition small_pack (packId suite : string) : Cg4PolicyFixturePack :=
  FixturePack packId suite
    [PolicyCheck "hard" (kind_name HARD_RULE_NOT_OVERRIDABLE) (Some "DNC_GLOBAL") None None None None None].

Section Moves.
Context (policyId : string) (version : Z).

Definition the_row (s : PolicyStore) : PolicyVersion :=
  default (PolicyVersion_ (VersionIdentity_ "" "" 0 "" "" 0 "" 0 "" None) (DraftColumns_ JNull "" 0) no_binding drafted)
    (find_version s policyId version).

Definition create_in (scopeKey : string) (series : option string) (content : jsval) (key : string) : Move :=
  M_create (CreateInput (by_actor maria key) series scopeKey content "2026-01-01T00:00:00.000Z").

Definition amend_by (actor : Cg4AuthorizationSubject) (content : jsval) (key : string) : Move :=
  M_run (fun s => Amend (AmendInput (by_actor actor key) policyId version (pr_draftRevision (the_row s)) content)).

Definition test_by (actor : Cg4AuthorizationSubject) (key : string) : Move :=
  M_run (fun s => RunTests 100 (TestCommandInput (by_actor actor key) policyId version
    (pr_contentDigest (the_row s)) (small_pack "tenant" "T1") (Some (small_pack "platform" "P1")) NOON BANGKOK)).

Definition artifact_of (s : PolicyStore) : string :=
  default "" (tb_testArtifactDigest (pr_binding (the_row s))).

Definition submit_by (actor : Cg4AuthorizationSubject) (key : string) : Move :=
  M_run (fun s => Submit (SubmitInput (by_actor actor key) policyId version (pr_draftRevision (the_row s))
    (pr_contentDigest (the_row s)) (artifact_of s))).

Definition vote_by (actor : Cg4AuthorizationSubject) (approve : bool) (key : string) : Move :=
  M_vote (fun s => PolicyVoteInput "t" policyId version (pr_contentDigest (the_row s)) (diff_class (the_row s))
    approve "ev" (vi_makerActorRef (pr_identity (the_row s))) (pr_scopeKey (the_row s)) actor key).

Definition head_now (s : PolicyStore) : HeadSnapshot := loadHead s (pr_scopeKey (the_row s)).

Definition finalize_by (actor : Cg4AuthorizationSubject) (activateAt key : string) : Move :=
  M_run (fun s => Finalize (FinalizeInput (by_actor actor key) policyId version (pr_contentDigest (the_row s))
    (artifact_of s) (diff_class (the_row s)) (hs_headVersion (head_now s)) (hs_headDigest (head_now s)) activateAt)).

Definition publish_input (actor : Cg4AuthorizationSubject) (key : string) (s : PolicyStore) : PublishCg4PolicyInput :=
  PublishInput (by_actor actor key) policyId version (pr_contentDigest (the_row s)) (artifact_of s)
    (default "" (pg_approvalDigest (pr_progress (the_row s)))) (hs_headVersion (head_now s)) (hs_headDigest (head_now s)).

Definition publish_by (actor : Cg4AuthorizationSubject) (key : string) : Move :=
  M_run (fun s => Publish (publish_input actor key s)).

Definition activate_at (at_ key : string) : Move :=
  M_run (fun s => Activate (ActivateInput "t" policyId version "worker" at_ key)).

(** A draft taken through its tests, submission, votes and approval. *)
Definition approve_moves (tag activateAt : string) : list Move :=
  [test_by maria (tag +:+ "-test"); submit_by maria (tag +:+ "-submit");
   vote_by carol true (tag +:+ "-v1"); vote_by dave true (tag +:+ "-v2");
   finalize_by carol activateAt (tag +:+ "-final")].
End Moves.

Definition at_noon (ms : list Move) : list (Z * Move) := map (fun m => (noon_ms, m)) ms.

Definition played (r : studio PolicyStore) : PolicyStore :=
  match r with Ok s => s | Err _ => empty_policies end.

(** A first policy for every channel, drafted, tested, approved, and published at noon. *)
Definition approved_moves : list (Z * Move) := at_noon
  (create_in any_scope None (quiet_until "20:20") "c1" :: approve_moves "0" 1 "a" NOON).

Definition approved_store : PolicyStore := Eval vm_compute in played (play empty_policies approved_moves).

Lemma approved_played : play empty_policies approved_moves = Ok approved_store.
Proof. vm_compute. reflexivity. Qed.

Definition first_moves : list (Z * Move) := at_noon [publish_by "0" 1 carol "p1"].

Definition first_store : PolicyStore := Eval vm_compute in played (play approved_store first_moves).

Lemma first_played : play approved_store first_moves = Ok first_store.
Proof. vm_compute. reflexivity. Qed.

Lemma approved_reachable : reachable (PolicySystem_ approved_store []).
Proof. exact (played_reachable _ _ approved_played). Qed.

Lemma first_reachable : reachable (PolicySystem_ first_store []).
Proof. unfold reachable. etrans; [apply approved_reachable|exact (play_steps _ _ _ [] first_played)]. Qed.

(** The publish between its reads and its lock. *)
Definition publish_begun : PublishCg4PolicyInput * CandidateBegun := Eval vm_compute in
  match begin_publish approved_store (publish_input "0" 1 carol "p1" approved_store) with
  | Ok (inr b) => (publish_input "0" 1 carol "p1" approved_store, b)
  | _ => (publish_input "0" 1 carol "p1" approved_store,
          CandidateBegun_ 0 "" (Candidate_ (the_row "0" 1 approved_store) preview_sample (head_now "0" 1 approved_store) None))
  end.

Definition publishing : PolicySystem :=
  PolicySystem_ approved_store [P_Publish (fst publish_begun) (snd publish_begun)].

Definition publish_response : Response := Eval vm_compute in
  match commit_publish approved_store (fst publish_begun) (snd publish_begun) noon_ms with
  | Ok (r, _) => r
  | Err _ => R_TEST "" "" (Preview "" "" "" 0 "" C_NEUTRAL "" (Diff C_NEUTRAL "" []) (TestRun "" "" "" true 0 0 [] "")
               (Counts 0 0 0 0 0) "" "")
  end.

Lemma publish_begins : begin approved_store (Publish (fst publish_begun)) =
  Ok (inr (P_Publish (fst publish_begun) (snd publish_begun))).
Proof. vm_compute. reflexivity. Qed.

Lemma publish_commits :
  commit_publish approved_store (fst publish_begun) (snd publish_begun) noon_ms = Ok (publish_response, first_store).
Proof. vm_compute. reflexivity. Qed.

Lemma publishing_reachable : reachable publishing.
Proof. eapply rtc_r; [apply approved_reachable|]. apply (step_begin approved_store [] _ _ publish_begins). Qed.

Lemma publishing_steps : step publishing (PolicySystem_ first_store []).
Proof. exact (step_commit approved_store [] [] (P_Publish (fst publish_begun) (snd publish_begun)) noon_ms _ _ publish_commits). Qed.

(** A draft someone rejects, and a colleague approves of after. *)
Definition rejected_moves : list (Z * Move) := at_noon
  [create_in any_scope None (quiet_until "20:20") "c1"; test_by "0" 1 maria "t1"; submit_by "0" 1 maria "s1";
   vote_by "0" 1 carol false "v1"].

Definition rejected_store : PolicyStore := Eval vm_compute in played (play empty_policies rejected_moves).

Lemma rejected_played : play empty_policies rejected_moves = Ok rejected_store.
Proof. vm_compute. reflexivity. Qed.

Definition outvoted_store : PolicyStore := Eval vm_compute in
  played (play rejected_store (at_noon [vote_by "0" 1 dave true "v2"])).

Lemma outvoted_played : play rejected_store (at_noon [vote_by "0" 1 dave true "v2"]) = Ok outvoted_store.
Proof. vm_compute. reflexivity. Qed.
