(* ===== verification/PolicyTheorems.v ===== *)
(** * PolicyTheorems: what every history of the policy studio guarantees

    The properties of the policy commands, proved of every system [PolicySystem] reaches. *)
From stdpp Require Import base tactics list strings relations.
From Stdlib Require Import ZArith Lia.
From S2P Require Import Prelude JsMap Text JsDate JsValue Contracts ScopeKey PolicyCompiler PolicyDiff PolicyPreview Authorization Persistence PolicyStore PolicyLifecycle PolicySystem PolicyScenario.

Open Scope string_scope.
Open Scope Z_scope.
Open Scope list_scope.

(** ** Receipts *)

Section Receipts.
Context `{Runtime, Host}.

(** Where a command under way will leave its receipt, and under which request hash. *)
Definition receipt_slot (p : pending) : (string * string) * string :=
  match p with
  | P_Amend i b => (("CG4_POLICY_DRAFT_AMEND", cm_idempotencyKey (am_base i)), ab_requestHash b)
  | P_RunTests _ i b => (("CG4_POLICY_TEST", cm_idempotencyKey (te_base i)), cb_requestHash b)
  | P_Submit i b => (("CG4_POLICY_SUBMIT", cm_idempotencyKey (su_base i)), cb_requestHash b)
  | P_Finalize i b _ => (("CG4_POLICY_APPROVE", cm_idempotencyKey (fi_base i)), cb_requestHash b)
  | P_Publish i b | P_PublishChecked i b _ => (("CG4_POLICY_PUBLISH", cm_idempotencyKey (pu_base i)), cb_requestHash b)
  | P_Activate i b | P_ActivateChecked i b _ => (("CG4_POLICY_ACTIVATE", ac_idempotencyKey i), at_requestHash b)
  | P_Rollback i b => (("CG4_POLICY_ROLLBACK", cm_idempotencyKey (rb_base i)), rg_requestHash b)
  end.

(** [s'] holds one receipt more than [s]. *)
Definition receipted (s s' : PolicyStore) (slot : string * string) (hash : string) (r : Response) : Prop :=
  map_get slot (ps_receipts s) = None /\ ps_receipts s' = map_set slot (hash, r) (ps_receipts s).

Lemma write_receipted s s1 s' operation key hash r : ps_receipts s1 = ps_receipts s ->
  writeReceipt s1 operation key hash r = Ok s' -> receipted s s' (operation, key) hash r.
Proof. intros Hs E. apply writeReceipt_ok in E as [Hn ->]. split; [congruence|]. cbn. by rewrite Hs. Qed.

Lemma policies_receipts rows s s' : write_policies rows s = Ok s' -> ps_receipts s' = ps_receipts s.
Proof. intros E. by apply write_policies_ok in E as ->. Qed.

Lemma jobs_receipts jobs s s' : write_jobs jobs s = Ok s' -> ps_receipts s' = ps_receipts s.
Proof. intros E. by apply write_jobs_ok in E as ->. Qed.

Lemma head_receipts m h s s' : write_head m h s = Ok s' -> ps_receipts s' = ps_receipts s.
Proof.
  unfold write_head. intros E. destruct (_ =? 0).
  - open_bind E x Hx. by injection E as <-.
  - destruct (map_get _ _); [|done]. open_bind E x Hx. by injection E as <-.
Qed.

Lemma move_receipts m s res s' : moveHead m s = Ok (res, s') -> ps_receipts s' = ps_receipts s.
Proof.
  unfold moveHead. intros E. open_bind E x Hx. open_bind E s1 Hs1.
  assert (H1 : ps_receipts s1 = ps_receipts s).
  { destruct (mv_activate m); [by apply (activate_tables m)|by injection Hs1 as <-]. }
  destruct (if mv_activate m then Some _ else _) as [[[? ?] ?]|].
  - open_bind E s4 Hs4. injection E as _ <-. cbn. by rewrite (head_receipts _ _ _ _ Hs4).
  - by injection E as _ <-.
Qed.

Lemma publish_receipted s i b q r s' : publish_writes s i b q = Ok (r, s') ->
  receipted s s' ("CG4_POLICY_PUBLISH", cm_idempotencyKey (pu_base i)) (cb_requestHash b) r.
Proof.
  unfold publish_writes. intros E. open_bind E s1 Hs1. open_bind E moved Hm. open_bind E s2 Hs2.
  injection E as <- <-. destruct moved as [res s3]. apply move_receipts in Hm.
  eapply write_receipted in Hs2; [exact Hs2|]. cbn. rewrite Hm. destruct (Z.ltb _ _); [|by injection Hs1 as <-].
  unfold schedule in Hs1. open_bind Hs1 x1 H1. open_bind Hs1 s4 H4. apply jobs_receipts in Hs1 as ->.
  by apply policies_receipts in H4.
Qed.

Lemma activation_receipted s i b c r s' : activation_writes s i b c = Ok (r, s') ->
  receipted s s' ("CG4_POLICY_ACTIVATE", ac_idempotencyKey i) (at_requestHash b) r.
Proof.
  unfold activation_writes. intros E. open_bind E s1 Hs1. open_bind E moved Hm. open_bind E s2 Hs2.
  injection E as <- <-. destruct moved as [res s3]. apply move_receipts in Hm.
  eapply write_receipted in Hs2; [exact Hs2|]. cbn. rewrite Hm. by apply jobs_receipts in Hs1.
Qed.

(** A command that commits leaves its receipt in its own slot. *)
Lemma commit_receipted s p now r s' : commit s p now = Ok (r, s') ->
  receipted s s' (fst (receipt_slot p)) (snd (receipt_slot p)) r.
Proof.
  destruct p as [i b|fuel i b|i b|i b a|i b|i b|i b|i b q|i b c]; cbn [commit receipt_slot fst snd]; intros E.
  - unfold commit_amendDraft in E. open_bind E x1 H1. open_bind E x2 H2. open_bind E s1 Hw. open_bind E x3 H3.
    open_bind E s2 Hs2. injection E as <- <-. apply policies_receipts in Hw. by eapply write_receipted in Hs2.
  - unfold commit_runTests in E. open_bind E x1 H1. open_bind E p Hp. destruct (upsert_artifact _ _) as [a s1] eqn:Hu.
    apply upsert_tables in Hu as (_ & _ & _ & _ & Hr). open_bind E s2 Hs. open_bind E s3 Hw. injection E as <- <-.
    eapply write_receipted in Hw; [exact Hw|]. cbn. rewrite <- Hr. destruct (bool_decide _); [|by injection Hs as <-].
    by apply policies_receipts in Hs.
  - unfold commit_submit in E. open_bind E x1 H1. open_bind E x2 H2. open_bind E x3 H3. open_bind E s1 Hw.
    open_bind E x4 H4. open_bind E s2 Hs2. injection E as <- <-. apply policies_receipts in Hw.
    by eapply write_receipted in Hs2.
  - unfold commit_finalizeApproval in E. open_bind E x1 H1. open_bind E x2 H2. open_bind E x3 H3. open_bind E x4 H4.
    open_bind E x5 H5. open_bind E s1 Hw. open_bind E x6 H6. open_bind E s2 Hs2. injection E as <- <-.
    apply policies_receipts in Hw. by eapply write_receipted in Hs2.
  - unfold commit_publish in E. open_bind E q Hq. by eapply publish_receipted.
  - unfold commit_activateDue in E. open_bind E c Hc. by eapply activation_receipted.
  - unfold commit_rollback in E. open_bind E x1 H1. open_bind E compiled Hc. open_bind E s1 Hw. open_bind E s2 Hs2.
    injection E as <- <-. apply policies_receipts in Hw. by eapply write_receipted in Hs2.
  - by eapply publish_receipted.
  - by eapply activation_receipted.
Qed.

(** Every receipt of [s] is still there. *)
Definition receipts_kept (s s' : PolicyStore) : Prop :=
  forall slot v, map_get slot (ps_receipts s) = Some v -> map_get slot (ps_receipts s') = Some v.

Lemma receipted_kept s s' slot hash r : receipted s s' slot hash r -> receipts_kept s s'.
Proof.
  intros [Hn Heq] k v Hk. rewrite Heq. destruct (decide (slot = k)) as [->|Hne]; [congruence|by rewrite map_get_set_ne].
Qed.

Lemma receipted_get s s' slot hash r : receipted s s' slot hash r -> map_get slot (ps_receipts s') = Some (hash, r).
Proof. intros [_ ->]. apply map_get_set_eq. Qed.

(** A request that meets the receipt of its slot is answered from it. *)
Lemma replay_hit s operation key hash r : map_get (operation, key) (ps_receipts s) = Some (hash, r) ->
  replay_receipt s operation key hash = Ok (Some r).
Proof. unfold replay_receipt. intros ->. by rewrite bool_decide_eq_true_2. Qed.

(** [again H]: the goal's next check is the one [H] passed. *)
Ltac again H := rewrite H; cbn [mbind result_bind].

Lemma candidate_replays s s2 operation c t hash policyId version digest b r :
  begin_candidate s operation c t hash policyId version digest = Ok (inr b) ->
  map_get (operation, cm_idempotencyKey c) (ps_receipts s2) = Some (cb_requestHash b, r) ->
  begin_candidate s2 operation c t hash policyId version digest = Ok (inl r).
Proof.
  unfold begin_candidate. intros E Hg. open_bind E x1 H1. open_bind E o Ho. destruct o; [done|].
  open_bind E ca Hca. injection E as <-. cbn in Hg. again H1. by erewrite replay_hit by exact Hg.
Qed.

Lemma map_begun_inr {A B} (f : A -> B) x p : map_begun f x = Ok (inr p) -> exists b, x = Ok (inr b) /\ f b = p.
Proof. destruct x as [[?|b]|]; cbn; try done. intros [= <-]. eauto. Qed.

Lemma begin_replays s c p s2 r : begin s c = Ok (inr p) ->
  map_get (fst (receipt_slot p)) (ps_receipts s2) = Some (snd (receipt_slot p), r) -> begin s2 c = Ok (inl r).
Proof.
  intros E Hg. destruct c as [i|fuel i|i|i|i|i|i]; cbn in E |- *; apply map_begun_inr in E as (b & E & <-);
    cbn in Hg.
  - unfold begin_amendDraft in *. open_bind E y0 Hy0. open_bind E y1 Hy1. open_bind E y2 Hy2. open_bind E t Ht.
    open_bind E compiled Hc. open_bind E o Ho. destruct o; [done|]. open_bind E row Hr. injection E as <-.
    again Hy0. again Hy1. again Hy2. again Ht. again Hc. by erewrite replay_hit by exact Hg.
  - unfold begin_runTests in *. open_bind E y0 Hy0. open_bind E t Ht. again Hy0. again Ht.
    by rewrite (candidate_replays _ _ _ _ _ _ _ _ _ _ _ E Hg).
  - unfold begin_submit in *. open_bind E y0 Hy0. open_bind E t Ht. again Hy0. again Ht.
    by rewrite (candidate_replays _ _ _ _ _ _ _ _ _ _ _ E Hg).
  - unfold begin_finalizeApproval in *. open_bind E y0 Hy0. open_bind E t Ht. open_bind E a Ha. open_bind E bg Hbg.
    destruct bg as [?|bg]; [done|]. injection E as <-. again Hy0. again Ht. again Ha.
    by rewrite (candidate_replays _ _ _ _ _ _ _ _ _ _ _ Hbg Hg).
  - unfold begin_publish in *. open_bind E y0 Hy0. open_bind E t Ht. again Hy0. again Ht.
    by rewrite (candidate_replays _ _ _ _ _ _ _ _ _ _ _ E Hg).
  - unfold begin_activateDue in *. open_bind E y0 Hy0. open_bind E y1 Hy1. open_bind E t Ht. open_bind E y2 Hy2.
    open_bind E o Ho. destruct o; [done|]. open_bind E row Hr. injection E as <-. again Hy0. again Hy1. again Ht.
    again Hy2. by erewrite replay_hit by exact Hg.
  - unfold begin_rollback in *. open_bind E y0 Hy0. open_bind E y1 Hy1. open_bind E t Ht. open_bind E y2 Hy2.
    open_bind E o Ho. destruct o; [done|]. open_bind E row Hr. open_bind E y3 Hy3. injection E as <-. again Hy0.
    again Hy1. again Ht. again Hy2. by erewrite replay_hit by exact Hg.
Qed.

(** What a command of one step leaves: every receipt there was, and the one it answers from. *)
Definition answers (s s' : PolicyStore) (r : Response) (again_ : PolicyStore -> studio (Response * PolicyStore))
  : Prop :=
  receipts_kept s s' /\ forall s2, receipts_kept s' s2 -> again_ s2 = Ok (r, s2).

Lemma kept_refl s : receipts_kept s s.
Proof. by intros k v. Qed.

Lemma kept_trans s1 s2 s3 : receipts_kept s1 s2 -> receipts_kept s2 s3 -> receipts_kept s1 s3.
Proof. intros H12 H23 k v Hk. by apply H23, H12. Qed.

(** A command that replays from its slot, once its receipt is there. *)
Lemma answered s s' operation key hash r again_ :
  (forall s2, replay_receipt s2 operation key hash = Ok (Some r) -> again_ s2 = Ok (r, s2)) ->
  (replay_receipt s operation key hash = Ok (Some r) /\ s' = s) \/ receipted s s' (operation, key) hash r ->
  answers s s' r again_.
Proof.
  intros Hagain [[Hr ->]|Hr].
  - split; [apply kept_refl|]. intros s2 Hk. apply Hagain, replay_hit, Hk. by apply policy_replay_ok in Hr.
  - split; [by eapply receipted_kept|]. intros s2 Hk. apply Hagain, replay_hit, Hk. by eapply receipted_get.
Qed.

Lemma create_answers s i now now' r s' : createDraft s i now = Ok (r, s') ->
  answers s s' r (fun s2 => createDraft s2 i now').
Proof.
  unfold createDraft. intros E. open_bind E y0 Hy0. open_bind E y1 Hy1. open_bind E y2 Hy2. open_bind E y3 Hy3.
  open_bind E t Ht. open_bind E tf Htf. open_bind E compiled Hc. open_bind E o Ho.
  eapply answered; [intros s2 Hs2; again Hy0; again Hy1; again Hy2; again Hy3; again Ht; again Htf; again Hc;
    by rewrite Hs2|].
  destruct o as [resp|]; [left; by injection E as <- <-|right].
  open_bind E ua Hua. open_bind E series Hser. destruct series as [policyId version].
  open_bind E s1 Hs1. open_bind E s3 Hs3. injection E as <- <-. apply policies_receipts in Hs1.
  by eapply write_receipted in Hs3.
Qed.

Lemma vote_answers s i now now' r s' : recordPolicyApproval s i now = Ok (r, s') ->
  answers s s' r (fun s2 => recordPolicyApproval s2 i now').
Proof.
  unfold recordPolicyApproval. intros E. open_bind E y0 Hy0. open_bind E y1 Hy1. open_bind E y2 Hy2.
  open_bind E y3 Hy3. open_bind E y4 Hy4. open_bind E y5 Hy5. open_bind E o Ho.
  eapply answered; [intros s2 Hs2; again Hy0; again Hy1; again Hy2; again Hy3; again Hy4; again Hy5; by rewrite Hs2|].
  destruct o as [resp|]; [left; by injection E as <- <-|right].
  open_bind E policy Hpol. open_bind E y6 Hy6. open_bind E grant Hg. open_bind E s1 Hs1. open_bind E s3 Hs3.
  injection E as <- <-. unfold insert_policy_vote in Hs1. open_bind Hs1 u Hu. injection Hs1 as <-.
  by eapply write_receipted in Hs3.
Qed.

Lemma switch_answers s i now now' r s' : killSwitch s i now = Ok (r, s') ->
  answers s s' r (fun s2 => killSwitch s2 i now').
Proof.
  unfold killSwitch. intros E. open_bind E y0 Hy0. open_bind E y1 Hy1. open_bind E y2 Hy2. open_bind E t Ht.
  open_bind E y3 Hy3. open_bind E o Ho.
  eapply answered; [intros s2 Hs2; again Hy0; again Hy1; again Hy2; again Ht; again Hy3; by rewrite Hs2|].
  destruct o as [resp|]; [left; by injection E as <- <-|right].
  open_bind E ua Hua. open_bind E ch Hch. destruct ch as [[id already] s1]. open_bind E s3 Hs3. injection E as <- <-.
  assert (Hr1 : ps_receipts s1 = ps_receipts s).
  { unfold switch_rows in Hch. destruct (active_switch _ _) as [k|]; destruct (ki_activate i); try done.
    - by injection Hch as <- <- <-.
    - open_bind Hch a Ha. open_bind Hch b Hb. open_bind Hch c Hcc. by injection Hch as <- <- <-.
    - by injection Hch as <- <- <-. }
  eapply write_receipted in Hs3; [exact Hs3|]. cbn. by destruct already.
Qed.

Lemma step_kept y y' : step y y' -> receipts_kept (py_store y) (py_store y').
Proof.
  destruct 1 as [s b i now r s' E|s b i now r s' Hmk E|s b i now r s' E|s b c p E
    |s b1 b2 p now p' E|s b1 b2 p now r s' E|s b1 b2 p|s b now owner sec job s' E|s b now mx job|s b s' E]; cbn; try apply kept_refl.
  - by eapply (create_answers _ _ _ 0).
  - by eapply (vote_answers _ _ _ 0).
  - by eapply (switch_answers _ _ _ 0).
  - eapply receipted_kept, commit_receipted, E.
  - unfold claim_job in E. destruct (next_claimable s now); [|done]. injection E as _ <-. exact (kept_refl s).
  - exact (kept_refl s).
  - intros k v. by rewrite (ot_receipts _ _ E).
Qed.

Lemma steps_kept y y' : rtc step y y' -> receipts_kept (py_store y) (py_store y').
Proof. induction 1; [apply kept_refl|]. eauto using kept_trans, step_kept. Qed.
End Receipts.

(** ** Guarantees *)

Section Guarantees.
Context `{Runtime, Host}.
Context (fresh_some : forall n, fresh n <> "") (fresh_inj : forall m n, fresh m = fresh n -> m = n).

Lemma reachable_policies y : reachable y -> wf (py_store y).
Proof. intros Hy. by apply (reachable_policy_wf fresh_some fresh_inj). Qed.

(** C25: a scope has one policy, and its head says which. In every store the policy commands reach,
    in whatever order and however many were under way at once, also between the checks of a publish
    or an activation and its writes, the head of a scope names an ACTIVE version of that scope and
    carries the digest of its content; every ACTIVE version is the one its scope's head names; and
    two ACTIVE versions have different scopes. *)
Theorem head_names_active y :
  reachable y ->
  let s := py_store y in
  (forall k h, map_get k (ps_heads s) = Some h ->
     0 < hd_headVersion h /\ exists r, head_of s h r /\ pr_scopeKey r = k) /\
  (forall r, In r (ps_policies s) -> pr_status r = S_ACTIVE ->
     exists h, map_get (pr_scopeKey r) (ps_heads s) = Some h /\ head_of s h r) /\
  (forall r1 r2, In r1 (ps_policies s) -> In r2 (ps_policies s) -> pr_status r1 = S_ACTIVE ->
     pr_status r2 = S_ACTIVE -> r1 <> r2 -> pr_scopeKey r1 <> pr_scopeKey r2).
Proof.
  intros Hy s. pose proof (reachable_policies y Hy) as Hwf. fold s in Hwf.
  assert (Hact : forall r, In r (ps_policies s) -> pr_status r = S_ACTIVE ->
    exists h, map_get (pr_scopeKey r) (ps_heads s) = Some h /\ head_of s h r).
  { intros r Hr Ha. destruct (wf_active _ Hwf r Hr Ha) as (h & Hg & Hid). exists h. split; [done|].
    destruct (wf_head _ Hwf _ _ Hg) as (_ & r' & Hr' & _).
    by rewrite (same_row s r r' Hwf) by (done || apply Hr' || (destruct Hr' as (_ & _ & <- & _); done)). }
  split; [apply Hwf|]. split; [done|]. intros r1 r2 H1 H2 A1 A2 Hne Hk. destruct (Hact r1 H1 A1) as (h1 & G1 & _ & _ & I1 & _), (Hact r2 H2 A2) as (h2 & G2 & _ & _ & I2 & _).
  apply Hne, (same_row s); [done..|]. congruence.
Qed.

(** C26: no policy takes effect without its quorum. A version that stands APPROVED, SCHEDULED or
    ACTIVE, or was ACTIVE once, has approving votes of distinct people, none of them its maker and
    one with direct Compliance authority: two where its diff class is a relaxation or unknown, one
    otherwise. *)
Theorem effective_by_quorum y r :
  reachable y -> In r (ps_policies (py_store y)) -> by_quorum (pr_status r) = true ->
  let votes := js_filter pw_approved (votes_of (py_store y) (pr_policyId r) (pr_version r)) in
  List.NoDup (map policy_voter votes) /\
  (forall v, In v votes -> policy_voter v <> vi_makerActorRef (pr_identity r)) /\
  (exists v, In v votes /\ ra_directComplianceAuthority (pw_vote v) = true) /\
  (if bool_decide (pr_diffClass r = Some C_TIGHTENING \/ pr_diffClass r = Some C_NEUTRAL) then 1 else 2)
    <= Z.of_nat (length votes).
Proof.
  intros Hy Hr Hst votes. pose proof (reachable_policies y Hy) as Hwf.
  split; [apply NoDup_map_js_filter, (wf_one_vote _ Hwf)|]. split.
  - intros v Hv. apply filter_In in Hv as [Hv _]. apply filter_In in Hv as [Hv Hk]. bool_prop.
    destruct (wf_votes _ Hwf v Hv) as (r' & Hr' & Hp & Hn & Hm). by rewrite (wf_versions _ Hwf r r') by congruence.
  - pose proof (wf_quorum _ Hwf r Hr Hst) as Hq. unfold version_quorum in Hq.
    rewrite (counted_policy_fresh _ (wf_one_vote _ Hwf _ _)) in Hq. destruct Hq as (Hn & Hc & _).
    assert (Hlen : length (counted_policy_votes (votes_of (py_store y) (pr_policyId r) (pr_version r))) = length votes).
    { unfold counted_policy_votes. by rewrite length_map. }
    rewrite Hlen in Hn. split.
    + assert (H1 : 1 <= count_if ra_directComplianceAuthority
        (counted_policy_votes (votes_of (py_store y) (pr_policyId r) (pr_version r)))).
      { unfold resolveCg4PolicyQuorum in Hc. by destruct (bool_decide _). }
      apply count_if_witness in H1 as (a & Ha & Hd). apply in_map_iff in Ha as (v & <- & Hv). by exists v.
    + unfold resolveCg4PolicyQuorum, diff_class in Hn.
      destruct (pr_diffClass r) as [[]|]; cbn in Hn |- *; repeat case_bool_decide; try done; naive_solver.
Qed.

(** Every step moves a version at most one edge of its lifecycle on. *)
Lemma step_row y y' r : reachable y -> step y y' -> In r (ps_policies (py_store y)) ->
  exists r', In r' (ps_policies (py_store y')) /\ (r' = r \/ row_step r r').
Proof.
  intros Hy Hst. pose proof (reachable_policy_wf fresh_some fresh_inj y Hy) as Hsys.
  apply effect_rows; [apply Hsys|by apply step_effect].
Qed.

Lemma steps_row y y' r : reachable y -> rtc step y y' -> In r (ps_policies (py_store y)) ->
  exists r', In r' (ps_policies (py_store y')) /\ row_future r r'.
Proof.
  intros Hy Hst. revert r Hy. induction Hst as [y|y y1 y' Hs Hst IH]; intros r Hy Hr; [exists r; split; [done|apply rtc_refl]|].
  destruct (step_row y y1 r Hy Hs Hr) as (r1 & Hr1 & Hor).
  destruct (IH r1) as (r' & Hr' & Hf); [by eapply rtc_r|done|]. exists r'. split; [done|].
  destruct Hor as [->|Hrs]; [done|by eapply rtc_l].
Qed.

Lemma row_step_allowed r r' : progress_ok r -> row_step r r' -> policy_update_allowed r r'.
Proof.
  intros [Hs He]. unfold policy_update_allowed, pr_status in *.
  destruct 1 as [r ? ? ? ? Hd|r ? ? Hd|r ? Hd|r Hd|r ? ? ? Hd|r Hd|r t old Hd|r t Hd]; unfold pr_status in *; cbn;
    try (rewrite Hd; split; [done|]; intros ?; done).
  - assert (Hn : pg_supersedesId (pr_progress r) = None) by (destruct Hd as [Hd|Hd]; rewrite Hd in Hs; naive_solver).
    split; [destruct Hd; congruence|]. intros _.
    split; [by destruct Hd as [-> | ->]|]. split_and!; try done.
  - rewrite Hd in *. split; [done|]. intros _. split_and!; naive_solver.
Qed.

(** The commands stay within what the database lets through. Whatever a step of the system
    does to a version, it moves it along an edge of the lifecycle and the trigger
    [cg4_reject_immutable_policy_update] allows the update: identity, content, test binding and
    approval of a settled version never change, and what it supersedes and when it ended are
    written once. *)
Theorem row_history_allowed y y' r :
  reachable y -> step y y' -> In r (ps_policies (py_store y)) ->
  exists r', In r' (ps_policies (py_store y')) /\ pr_identity r' = pr_identity r /\
    (r' = r \/ (policy_update_allowed r r' /\ status_edge (pr_status r) (pr_status r') = true)).
Proof.
  intros Hy Hst Hr. destruct (step_row y y' r Hy Hst Hr) as (r' & Hr' & Hor). exists r'. split; [done|].
  destruct Hor as [->|Hs]; [by auto|]. split; [by apply row_step_identity|]. right.
  split; [|by apply row_step_edge]. apply row_step_allowed; [|done].
  by apply (wf_progress _ (reachable_policies y Hy)).
Qed.

(** What was submitted is what takes effect. From the moment a version leaves DRAFT, whatever
    happens after, its content, its digest and the test run and head it is bound to are the ones
    it was submitted with, and no status it has left comes back. *)
Theorem submitted_version_frozen y y' r :
  reachable y -> rtc step y y' -> In r (ps_policies (py_store y)) -> pr_status r <> S_DRAFT ->
  exists r', In r' (ps_policies (py_store y')) /\ pr_identity r' = pr_identity r /\
    pr_draft r' = pr_draft r /\ pr_binding r' = pr_binding r /\
    (r' = r \/ status_rank (pr_status r) < status_rank (pr_status r')).
Proof.
  intros Hy Hst Hr Hd. destruct (steps_row y y' r Hy Hst Hr) as (r' & Hr' & Hf). exists r'. split; [done|].
  split; [by apply row_future_identity|]. by apply row_future_frozen.
Qed.

Lemma step_votes y y' v : reachable y -> step y y' -> In v (ps_votes (py_store y)) -> In v (ps_votes (py_store y')).
Proof.
  intros Hy Hst Hv. pose proof (reachable_policy_wf fresh_some fresh_inj y Hy) as Hsys.
  destruct (step_effect fresh_some _ _ Hsys Hst) as [_ _ Hvs _|row Hi|p f Hu|w Hc|r0 Ht].
  - by rewrite Hvs.
  - by rewrite (in_votes _ _ _ Hi).
  - by rewrite (up_votes _ _ _ _ Hu).
  - rewrite (vc_votes _ _ _ Hc). apply in_app_iff. by left.
  - by rewrite (to_votes _ _ _ Ht).
Qed.

(** A version someone rejects before its quorum is met. *)
Definition rejected_by (s : PolicyStore) (r : PolicyVersion) : Prop :=
  exists v, In v (ps_votes s) /\ pw_policyId v = pr_policyId r /\ pw_policyVersion v = pr_version r /\
    pw_approved v = false.

Lemma rejected_not_unrejected s r : rejected_by s r -> ~ unrejected s r.
Proof.
  intros (v & Hv & Hp & Hn & Ha) Hu. apply not_true_iff_false in Hu. apply Hu, existsb_exists. exists v.
  split; [|by rewrite Ha]. apply filter_In. split; [done|].
  by rewrite bool_decide_eq_true_2, Hn, Z.eqb_refl.
Qed.

(** The one step that takes a version to the statuses of a quorum meets no rejection. *)
Lemma step_rejected y y' r r' : reachable y -> step y y' -> In r (ps_policies (py_store y)) ->
  In r' (ps_policies (py_store y')) -> pr_id r' = pr_id r -> rejected_by (py_store y) r ->
  by_quorum (pr_status r) = false -> by_quorum (pr_status r') = false.
Proof.
  intros Hy Hst Hr Hr' Hid Hrej Hq. pose proof (reachable_policy_wf fresh_some fresh_inj y Hy) as [Hwf Hb].
  pose proof (step_effect fresh_some _ _ (conj Hwf Hb) Hst) as He. apply rejected_not_unrejected in Hrej.
  assert (Hwf' : wf (py_store y')) by by apply (effect_wf fresh_inj _ _ Hwf He).
  apply not_true_iff_false. intros Hq'. destruct He as [Hp _ _ _|row Hi|p f Hu|w Hc|r0 Ht].
  - rewrite Hp in Hr'. rewrite (same_row _ _ _ Hwf Hr' Hr Hid) in Hq'. congruence.
  - assert (r' = r) as ->.
    { apply (same_row _ _ _ Hwf'); [done| |done]. rewrite (in_policies _ _ _ Hi). apply in_app_iff. by left. }
    congruence.
  - pose proof (updated_evolved _ _ _ _ Hwf Hu) as Hg.
    destruct (evolved_In _ _ _ _ Hg Hr') as (r1 & Hr1 & -> & Hi). unfold pr_id in Hid. rewrite Hi in Hid.
    assert (r1 = r) as -> by by apply (same_row _ _ _ Hwf). unfold where_ in Hq'.
    destruct (p r) eqn:Ep; [|congruence]. apply Hrej. by apply (up_quorum _ _ _ _ Hu r).
  - rewrite (vc_policies _ _ _ Hc) in Hr'. rewrite (same_row _ _ _ Hwf Hr' Hr Hid) in Hq'. congruence.
  - assert (Hr0 : pr_id r0 <> pr_id r).
    { intros Heq. rewrite <- (same_row _ _ _ Hwf (to_row _ _ _ Ht) Hr Heq) in Hq.
      by destruct (to_status _ _ _ Ht) as [E|E]; rewrite E in Hq. }
    destruct (to_policies _ _ _ Ht) as (t & t' & old & Hp). rewrite Hp in Hr'.
    apply update_where_In in Hr' as (r1 & Hr1 & ->). destruct (may_activate (pr_id r0) r1) eqn:Em.
    { apply may_activate_ok in Em as [Em _]. apply Hr0. by rewrite <- Em, <- Hid. }
    destruct (map_get _ _) as [h|].
    + apply update_where_In in Hr1 as (r2 & Hr2 & ->). destruct (has_status _ _ r2) eqn:Es.
      * apply has_status_ok in Es as [_ Es]. rewrite (same_row _ _ _ Hwf Hr2 Hr Hid) in Es. by rewrite Es in Hq.
      * rewrite (same_row _ _ _ Hwf Hr2 Hr Hid) in Hq'. congruence.
    + rewrite (same_row _ _ _ Hwf Hr1 Hr Hid) in Hq'. congruence.
Qed.

(** A rejection stops a version. Once someone rejected a version that is not yet approved, it
    is never APPROVED, SCHEDULED or ACTIVE, whatever votes and commands follow. *)
Theorem rejection_stops_version y y' r :
  reachable y -> rtc step y y' -> In r (ps_policies (py_store y)) -> rejected_by (py_store y) r ->
  by_quorum (pr_status r) = false ->
  exists r', In r' (ps_policies (py_store y')) /\ pr_identity r' = pr_identity r /\
             by_quorum (pr_status r') = false.
Proof.
  intros Hy Hst. revert r Hy. induction Hst as [y|y y1 y' Hs Hst IH]; intros r Hy Hr Hrej Hq; [by exists r|].
  destruct (step_row y y1 r Hy Hs Hr) as (r1 & Hr1 & Hor).
  assert (Hi : pr_identity r1 = pr_identity r) by (destruct Hor as [->|?]; [done|by apply row_step_identity]).
  destruct (IH r1) as (r' & Hr' & Hi' & Hq'); [by eapply rtc_r|done| | |exists r'; split_and!; congruence || done].
  - destruct Hrej as (v & Hv & ?). exists v. split; [by eapply step_votes|].
    unfold pr_policyId, pr_version in *. by rewrite Hi.
  - eapply (step_rejected y y1 r r1); try done. unfold pr_id. by rewrite Hi.
Qed.

(** A repeated policy command is answered from its receipt. Whatever ran since, the same
    request with the same idempotency key gets the response it got and changes nothing: drafts,
    votes, kill switches, and every command that reads before it locks. *)
Theorem policy_retry_idempotent y y' :
  rtc step y y' ->
  (forall i s now now' r, createDraft s i now = Ok (r, py_store y) ->
     createDraft (py_store y') i now' = Ok (r, py_store y')) /\
  (forall i s now now' r, recordPolicyApproval s i now = Ok (r, py_store y) ->
     recordPolicyApproval (py_store y') i now' = Ok (r, py_store y')) /\
  (forall i s now now' r, killSwitch s i now = Ok (r, py_store y) ->
     killSwitch (py_store y') i now' = Ok (r, py_store y')) /\
  (forall c p s0 s1 now now' r, begin s0 c = Ok (inr p) -> commit s1 p now = Ok (r, py_store y) ->
     PolicySystem.run (py_store y') c now' = Ok (r, py_store y')).
Proof.
  intros Hst. pose proof (steps_kept _ _ Hst) as Hk. split_and!.
  - intros i s now now' r E. by apply (create_answers s i now now') in E as [_ E]; apply E.
  - intros i s now now' r E. by apply (vote_answers s i now now') in E as [_ E]; apply E.
  - intros i s now now' r E. by apply (switch_answers s i now now') in E as [_ E]; apply E.
  - intros c p s0 s1 now now' r Hb E. apply commit_receipted, receipted_get, Hk in E.
    unfold PolicySystem.run. by rewrite (begin_replays _ _ _ _ _ Hb E).
Qed.

(** A series is numbered without gap or repetition: below each of its versions stand all the
    earlier ones, each once, and all on one scope. *)
Theorem series_numbered y r k :
  reachable y -> In r (ps_policies (py_store y)) -> 1 <= k <= pr_version r ->
  exists r', In r' (ps_policies (py_store y)) /\ pr_policyId r' = pr_policyId r /\ pr_version r' = k /\
    pr_scopeKey r' = pr_scopeKey r /\
    forall r2, In r2 (ps_policies (py_store y)) -> pr_policyId r2 = pr_policyId r -> pr_version r2 = k -> r2 = r'.
Proof.
  intros Hy Hr Hk. pose proof (reachable_policies y Hy) as Hwf.
  assert (Hex : forall d, 0 <= d < pr_version r -> exists r', In r' (ps_policies (py_store y)) /\
    pr_policyId r' = pr_policyId r /\ pr_version r' = pr_version r - d).
  { intros d [Hd Hlt]. revert Hlt. pattern d. apply natlike_ind; [..|done].
    - intros _. exists r. split_and!; [done|done|lia].
    - intros x Hx IHx Hlt. destruct IHx as (q & Hq & Hqp & Hqv); [lia|].
      destruct (wf_numbered _ Hwf q Hq) as [_ Hprev]. destruct Hprev as (q1 & Hq1 & Hp1 & Hv1); [lia|].
      exists q1. split_and!; [done|congruence|lia]. }
  destruct (Hex (pr_version r - k)) as (r' & Hr' & Hp & Hv); [lia|]. exists r'. split_and!; try done; [lia| |].
  - by apply (wf_series _ Hwf).
  - intros r2 Hr2 Hp2 Hv2. apply (wf_versions _ Hwf); [done..|congruence|lia].
Qed.

(** The content of a stored row compiles under the versions of the build too, to the same. *)
Lemma stored_content_compiles r : stored_ok r ->
  exists compiled, compile_content (dr_content (pr_draft r)) (pr_version r) = Ok compiled /\
    content_json (cp_content compiled) = dr_content (pr_draft r).
Proof.
  intros Hs. destruct (stored_versions r Hs) as (Hv & _). destruct Hs as (c & Hc & _ & Hj).
  apply rethrow_as_ok in Hc.
  destruct (compile_again _ _ _ (pr_version r) None None None Hc Hv) as (p & Hp & Hcon & _); [done..|].
  rewrite Hj in Hp. exists p. split; [exact (f_equal (rethrow_as P_COMPILE) Hp)|]. by rewrite Hcon.
Qed.

(** C30: what is stored always loads. In every store the commands reach, a version read under its
    content digest loads: its content compiles to itself and to the digest stored beside it, and so
    does the content of the version its scope's head names, when there is one. No command ever
    stops on a stored policy it cannot read back. *)
Theorem candidate_always_loads y policyId version row :
  reachable y -> find_version (py_store y) policyId version = Some row ->
  exists compiled base,
    loadCandidate (py_store y) policyId version (pr_contentDigest row) =
      Ok (Candidate_ row compiled (loadHead (py_store y) (pr_scopeKey row)) base) /\
    cp_contentDigest compiled = pr_contentDigest row /\
    content_json (cp_content compiled) = dr_content (pr_draft row) /\
    match map_get (pr_scopeKey row) (ps_heads (py_store y)) with
    | None => base = None
    | Some h => exists current content, In current (ps_policies (py_store y)) /\ pr_id current = hd_revisionId h /\
                  pr_status current = S_ACTIVE /\ base = Some content /\
                  content_json content = dr_content (pr_draft current)
    end.
Proof.
  intros Hy Hf. pose proof (reachable_policies y Hy) as Hwf. set (s := py_store y) in *.
  pose proof (find_version_ok _ _ _ _ Hf) as (Hr & _ & _).
  destruct (wf_stored _ Hwf row Hr) as (c & Hc & Hd & Hj). exists c.
  unfold loadCandidate. rewrite Hf. cbn [from_option mbind result_bind]. rewrite bool_decide_eq_true_2 by done.
  cbn [negb throw_if mbind result_bind]. rewrite Hc. cbn [mbind result_bind]. rewrite bool_decide_eq_true_2 by done.
  cbn [negb throw_if mbind result_bind]. unfold loadHeadContent, loadHead.
  destruct (map_get (pr_scopeKey row) (ps_heads s)) as [h|] eqn:Eh; cbn -[truthy]; [|exists None; done].
  destruct (wf_head _ Hwf _ _ Eh) as (_ & cur & (Hcur & Ha & Hid & _) & _).
  rewrite Hid, (row_id_some fresh_some _ _ Hwf Hcur). cbn -[truthy].
  destruct (stored_content_compiles cur (wf_stored _ Hwf cur Hcur)) as (c2 & Hc2 & Hj2).
  assert (find_policy_row s (pr_id cur) = Some cur) as ->.
  { unfold find_policy_row. destruct (js_find _ _) as [x|] eqn:Ex.
    - apply find_some in Ex as [Hx Ex]. bool_prop. f_equal. by apply (same_row s).
    - pose proof (find_none _ _ Ex cur Hcur) as Hn. cbn in Hn. by bool_prop. }
  rewrite Hc2. cbn. exists (Some (cp_content c2)). split_and!; try done. exists cur, (cp_content c2). done.
Qed.

(** *** Publishing *)

Definition fresh_tests (s : PolicyStore) (policyId : string) (version : Z) (contentDigest artifactDigest : string)
  (head : HeadSnapshot) : Prop :=
  exists a, js_find (fun a => bool_decide (ta_policyId a = policyId) && (ta_policyVersion a =? version) &&
                              bool_decide (ta_artifactDigest a = artifactDigest)) (ps_artifacts s) = Some a /\
    ta_pass a = true /\ ta_contentDigest a = contentDigest /\ ta_baseHeadVersion a = hs_headVersion head /\
    ta_baseHeadDigest a = hs_headDigest head.

Lemma fresh_tests_iff s policyId version contentDigest artifactDigest head :
  assertFreshTests s policyId version contentDigest artifactDigest head = Ok tt <->
  fresh_tests s policyId version contentDigest artifactDigest head.
Proof.
  unfold assertFreshTests, fresh_tests, lifecycle_if.
  destruct (js_find _ _) as [a|]; cbn [from_option mbind result_bind].
  2: { split; [done|]. by intros (a & ? & _). }
  rewrite !bind_throw_if_ok, throw_if_ok, orb_false_iff, !negb_false_iff, !bool_decide_eq_true, Z.eqb_eq. naive_solver.
Qed.

Lemma find_ambiguous_iff scopeKey scopes : find_ambiguous scopeKey scopes = Ok None <->
  forall k, In k scopes -> cg4PolicyScopesAmbiguous scopeKey k = Ok false.
Proof.
  split; [apply find_ambiguous_none|]. induction scopes as [|k scopes IH]; intros Hall; [done|]. cbn.
  rewrite (Hall k) by by left. cbn. apply IH. intros k' Hk'. apply Hall. by right.
Qed.

Lemma unambiguous_iff s scopeKey : assertScopeUnambiguous s scopeKey = Ok tt <->
  forall r, In r (ps_policies s) -> pr_status r = S_ACTIVE -> pr_scopeKey r <> scopeKey ->
    cg4PolicyScopesAmbiguous scopeKey (pr_scopeKey r) = Ok false.
Proof.
  split; [apply unambiguous_ok|]. intros Hall. unfold assertScopeUnambiguous.
  rewrite (proj2 (find_ambiguous_iff _ _)); [done|]. intros k Hk. unfold active_scopes_except in Hk.
  apply set_to_array_In, in_map_iff in Hk as (r & <- & Hr). apply filter_In in Hr as [Hr Hc]. bool_prop. by apply Hall.
Qed.

Lemma killSwitch_off s scopeKey : killSwitchActive s scopeKey = false <->
  forall k, In k (ps_switches s) -> ks_scopeKey k = scopeKey -> ks_active k = false.
Proof.
  unfold killSwitchActive. split.
  - intros Hn k Hk He. apply not_true_iff_false. intros Ha. apply not_true_iff_false in Hn. apply Hn, existsb_exists.
    exists k. by rewrite bool_decide_eq_true_2, Ha.
  - intros Hall. apply not_true_iff_false. intros Hc. apply existsb_exists in Hc as (k & Hk & Hc). bool_prop.
    by rewrite (Hall k) in *.
Qed.

(** When a version may be published. The checks after the lock pass exactly when the version is
    APPROVED with the approval the caller expects; the head of its scope is the one the caller
    expects and the one its tests ran against; its test artifact passed, on this content and this
    head; no ACTIVE version of another scope could match the same request with equal rank; no kill
    switch of the scope is on, where it relaxes the policy; and its votes meet the quorum of its
    diff class. *)
Theorem publish_requires s i b now q :
  let row := ca_row (cb_candidate b) in
  let head := ca_head (cb_candidate b) in
  publish_checks s i b now = Ok q <->
  pr_status row = S_APPROVED /\
  pg_approvalDigest (pr_progress row) = Some (pu_expectedApprovalDigest i) /\
  (hs_headVersion head = pu_expectedScopeHeadVersion i /\ hs_headDigest head = pu_expectedScopeHeadDigest i) /\
  (tb_baseHeadVersion (pr_binding row) = Some (hs_headVersion head) /\
   tb_baseHeadDigest (pr_binding row) = Some (hs_headDigest head)) /\
  fresh_tests s (pu_policyId i) (pu_version i) (cp_contentDigest (ca_compiled (cb_candidate b)))
    (pu_expectedTestArtifactDigest i) head /\
  (forall r, In r (ps_policies s) -> pr_status r = S_ACTIVE -> pr_scopeKey r <> pr_scopeKey row ->
     cg4PolicyScopesAmbiguous (pr_scopeKey row) (pr_scopeKey r) = Ok false) /\
  (diff_class row = C_RELAXATION ->
     forall k, In k (ps_switches s) -> ks_scopeKey k = pr_scopeKey row -> ks_active k = false) /\
  q = policy_quorum s (pu_policyId i) (pu_version i) (diff_class row) now /\ qe_status q = Q_MET.
Proof.
  intros row head. unfold publish_checks. fold row head. unfold lifecycle_if.
  rewrite !bind_unit_ok, !throw_if_ok, !orb_false_iff, !negb_false_iff, !bool_decide_eq_true.
  unfold head_differs. rewrite orb_false_iff, !negb_false_iff, bool_decide_eq_true, Z.eqb_eq, andb_false_iff.
  rewrite <- fresh_tests_iff, <- unambiguous_iff, <- killSwitch_off, bool_decide_eq_false.
  set (quorum := policy_quorum _ _ _ _ _). unfold assertCg4QuorumMet. split.
  - intros (H1 & H2 & ((H3 & H4) & H5) & H6 & H7 & H8 & H9 & [= <-]).
    apply rethrow_as_ok, throw_if_ok in H9. bool_prop. split_and!; try done; tauto.
  - intros (H1 & H2 & H3 & (H4 & H5) & H6 & H7 & H8 & -> & H9). rewrite H9. split_and!; try tauto.
    destruct (decide (diff_class row = C_RELAXATION)); [right; by apply H8|by left].
Qed.

(** A move that writes the head has read it as it still is. *)
Lemma move_swaps m s res s' :
  (forall k h, map_get k (ps_heads s) = Some h -> 0 < hd_headVersion h) -> head_read s (mv_scopeKey m) (mv_head m) -> moveHead m s = Ok (res, s') ->
  (mv_activate m = false /\ hs_head (mv_head m) = None /\ ps_heads s' = ps_heads s) \/
  (mv_head m = loadHead s (mv_scopeKey m) /\
   exists h, ps_heads s' = map_set (mv_scopeKey m) h (ps_heads s) /\ hd_headVersion h = hs_headVersion (mv_head m) + 1).
Proof.
  intros Hpos Hread E. unfold moveHead in E. open_bind E x Hx. open_bind E s1 Hs1.
  assert (Hh1 : ps_heads s1 = ps_heads s).
  { destruct (mv_activate m); [by apply (activate_tables m)|by injection Hs1 as <-]. }
  assert (Hswap : forall h s2, hd_headVersion h = hs_headVersion (mv_head m) + 1 -> write_head m h s1 = Ok s2 ->
    mv_head m = loadHead s (mv_scopeKey m) /\ exists h, ps_heads s2 = map_set (mv_scopeKey m) h (ps_heads s) /\
      hd_headVersion h = hs_headVersion (mv_head m) + 1).
  { intros h s2 Hv Hw. apply write_head_ok in Hw as [Hm ->]; [|by rewrite Hh1|unfold head_read, loadHead in *; by rewrite Hh1].
    split; [unfold loadHead in *; by rewrite Hh1 in Hm|]. exists h. by rewrite <- Hh1. }
  destruct (mv_activate m) eqn:Ea.
  - open_bind E s4 Hs4. injection E as _ <-. right. by apply Hswap in Hs4.
  - destruct (hs_head (mv_head m)) as [[[p v] rev]|] eqn:Eh.
    + open_bind E s4 Hs4. injection E as _ <-. right. by apply Hswap in Hs4.
    + injection E as _ <-. left. by rewrite <- Hh1.
Qed.

(** Publishing swaps the head it read, or none. A publish under way that succeeds, whatever ran
    since it read the head of its scope, found that head as it had read it and raised its version
    by one; or it only scheduled the first version of a scope and left every head as it was. *)
Theorem publish_compare_and_swap y i b now r s' :
  reachable y -> In (P_Publish i b) (py_begun y) -> commit_publish (py_store y) i b now = Ok (r, s') ->
  let k := pr_scopeKey (ca_row (cb_candidate b)) in
  (hs_head (ca_head (cb_candidate b)) = None /\ ps_heads s' = ps_heads (py_store y) /\
   exists t, pg_activateAt (pr_progress (ca_row (cb_candidate b))) = Some t /\ cb_occurredAt b < t) \/
  (loadHead (py_store y) k = ca_head (cb_candidate b) /\
   hs_headVersion (loadHead (py_store y) k) = pu_expectedScopeHeadVersion i /\
   hs_headDigest (loadHead (py_store y) k) = pu_expectedScopeHeadDigest i /\
   hs_headVersion (loadHead s' k) = pu_expectedScopeHeadVersion i + 1 /\
   forall k', k' <> k -> loadHead s' k' = loadHead (py_store y) k').
Proof.
  intros Hy Hp E k. pose proof (reachable_policy_wf fresh_some fresh_inj y Hy) as [Hwf Hb].
  pose proof (proj1 (List.Forall_forall _ _) Hb _ Hp) as (_ & _ & _ & Hread). fold k in Hread.
  unfold commit_publish in E. open_bind E q Hq. unfold publish_writes in E. open_bind E s1 Hs1. open_bind E moved Hm.
  open_bind E s2 Hs2. apply writeReceipt_ok in Hs2 as [_ ->]. injection E as _ <-. destruct moved as [res s3].
  assert (Hexp : hs_headVersion (ca_head (cb_candidate b)) = pu_expectedScopeHeadVersion i /\
                 hs_headDigest (ca_head (cb_candidate b)) = pu_expectedScopeHeadDigest i).
  { by apply (publish_heads (py_store y) i b now q). }
  assert (Hs : ps_heads s1 = ps_heads (py_store y) /\ forall k h, map_get k (ps_heads s1) = Some h -> 0 < hd_headVersion h).
  { destruct (Z.ltb _ _).
    - unfold schedule in Hs1. open_bind Hs1 x1 H1. open_bind Hs1 s4 H4. apply write_policies_ok in H4 as ->.
      apply write_jobs_ok in Hs1 as ->. split; [done|exact (heads_positive _ Hwf)].
    - injection Hs1 as <-. split; [done|exact (heads_positive _ Hwf)]. }
  destruct Hs as [Hh1 Hpos]. assert (Hl : forall k, loadHead s1 k = loadHead (py_store y) k) by
    (intros k'; unfold loadHead; by rewrite Hh1).
  apply move_swaps in Hm; [|done|cbn; fold k; unfold head_read in *; by rewrite Hl].
  cbn in Hm. fold k in Hm. rewrite Hl, Hh1 in Hm. destruct Hm as [(Ha & Hn & Hh)|(Hm & h & Hh & Hv)]; [left|right].
  - split_and!; [done|done|]. apply negb_false_iff, Z.ltb_lt in Ha.
    destruct (pg_activateAt _) as [t|]; cbn in Ha; [by exists t|lia].
  - rewrite <- Hm. destruct Hexp as [Hx1 Hx2]. rewrite Hx1, Hx2. split_and!; [done..| |].
    + unfold loadHead. cbn. rewrite Hh, map_get_set_eq. cbn. lia.
    + intros k' Hk. unfold loadHead. cbn. by rewrite Hh, map_get_set_ne.
Qed.
End Guarantees.

(** ** Witnesses *)

#[local] Existing Instance two_zone_host.
#[local] Existing Instance demo_host.

Definition first_row : PolicyVersion := Eval vm_compute in the_row "0" 1 first_store.
Definition approved_row : PolicyVersion := Eval vm_compute in the_row "0" 1 approved_store.
Definition rejected_row : PolicyVersion := Eval vm_compute in the_row "0" 1 rejected_store.

Lemma head_names_active_witness :
  exists h, map_get any_scope (ps_heads first_store) = Some h /\ head_of first_store h first_row.
Proof.
  destruct (head_names_active demo_fresh_some demo_fresh_inj _ first_reachable) as (_ & Ha & _).
  apply (Ha first_row); [by left|reflexivity].
Defined.

Lemma effective_by_quorum_witness :
  pr_diffClass first_row = Some C_RELAXATION /\
  2 <= Z.of_nat (length (js_filter pw_approved (votes_of first_store "0" 1))).
Proof.
  split; [reflexivity|].
  apply (effective_by_quorum demo_fresh_some demo_fresh_inj (PolicySystem_ first_store []) first_row first_reachable);
    [by left|reflexivity].
Defined.

Lemma row_history_allowed_witness :
  exists r', In r' (ps_policies first_store) /\ pr_identity r' = pr_identity approved_row /\
    (r' = approved_row \/ (policy_update_allowed approved_row r' /\ status_edge S_APPROVED (pr_status r') = true)).
Proof.
  apply (row_history_allowed demo_fresh_some demo_fresh_inj publishing (PolicySystem_ first_store []) approved_row
    publishing_reachable publishing_steps). by left.
Defined.

Lemma submitted_version_frozen_witness :
  exists r', In r' (ps_policies first_store) /\ pr_identity r' = pr_identity approved_row /\
    pr_draft r' = pr_draft approved_row /\ pr_binding r' = pr_binding approved_row /\
    (r' = approved_row \/ status_rank S_APPROVED < status_rank (pr_status r')).
Proof.
  apply (submitted_version_frozen demo_fresh_some demo_fresh_inj publishing (PolicySystem_ first_store []) approved_row
    publishing_reachable); [apply rtc_once, publishing_steps|by left|by vm_compute].
Defined.

Lemma rejection_stops_version_witness :
  exists r', In r' (ps_policies outvoted_store) /\ pr_identity r' = pr_identity rejected_row /\
             by_quorum (pr_status r') = false.
Proof.
  apply (rejection_stops_version demo_fresh_some demo_fresh_inj (PolicySystem_ rejected_store [])
    (PolicySystem_ outvoted_store []) rejected_row).
  - exact (played_reachable _ _ rejected_played).
  - exact (play_steps _ _ _ [] outvoted_played).
  - by left.
  - eexists. split; [by left|]. by vm_compute.
  - reflexivity.
Defined.

Lemma policy_retry_idempotent_witness :
  PolicySystem.run first_store (Publish (fst publish_begun)) (noon_ms + 60000) = Ok (publish_response, first_store).
Proof.
  apply (proj2 (proj2 (proj2 (policy_retry_idempotent (PolicySystem_ first_store []) (PolicySystem_ first_store [])
    (rtc_refl _ _)))) (Publish (fst publish_begun)) _ _ _ noon_ms _ _ publish_begins publish_commits).
Defined.

Lemma series_numbered_witness :
  exists r', In r' (ps_policies first_store) /\ pr_policyId r' = pr_policyId first_row /\ pr_version r' = 1 /\
    pr_scopeKey r' = pr_scopeKey first_row /\
    forall r2, In r2 (ps_policies first_store) -> pr_policyId r2 = pr_policyId first_row -> pr_version r2 = 1 -> r2 = r'.
Proof.
  apply (series_numbered demo_fresh_some demo_fresh_inj (PolicySystem_ first_store []) first_row 1 first_reachable);
    [by left|by vm_compute].
Defined.

Lemma candidate_always_loads_witness :
  exists compiled base, loadCandidate first_store "0" 1 (pr_contentDigest first_row) =
    Ok (Candidate_ first_row compiled (loadHead first_store (pr_scopeKey first_row)) base).
Proof.
  destruct (candidate_always_loads demo_fresh_some demo_fresh_inj (PolicySystem_ first_store []) "0" 1 first_row first_reachable)
    as (c & base & Hl & _); [vm_compute; reflexivity|]. by exists c, base.
Defined.

Lemma publish_compare_and_swap_witness :
  pu_expectedScopeHeadVersion (fst publish_begun) = 0 /\
  (hs_headVersion (loadHead first_store any_scope) = 1).
Proof.
  split; [reflexivity|].
  destruct (publish_compare_and_swap demo_fresh_some demo_fresh_inj publishing (fst publish_begun) (snd publish_begun)
    noon_ms publish_response first_store publishing_reachable) as [(_ & Hh & _)|(_ & _ & _ & Hv & _)];
    [by left|exact publish_commits|discriminate Hh|exact Hv].
Defined.
