(* ===== verification/PolicyReader.v ===== *)
(** * PolicyReader: the policy the decision path reads

    [loadCg4PolicyFacts] of [apps/contact-governance/src/cg4-policy-reader.ts] over the tables of
    [PolicyStore], and the outcome and digest helpers beside it. The store it is given is what its
    three statements return: the heads, the jobs and, later, the rows, which need not be of one
    moment; the order in which a query lists them is that of the store. *)
From stdpp Require Import base tactics list strings relations.
From Stdlib Require Import ZArith Lia.
From S2P Require Import Prelude JsMap Text JsDate JsValue Contracts ScopeKey Windows Cg3Facts PolicyCompiler PolicyResolution Cg3Evaluator PolicyPreview Authorization Persistence PolicyStore PolicyLifecycle PolicySystem PolicyScenario.

Open Scope string_scope.
Open Scope Z_scope.
Open Scope list_scope.

Definition CG4_POLICY_HEAD_TTL_SECONDS : Z := 60.

(** The text of [detail], by the branch that writes it. *)
Inductive ReadDetail :=
  | DueSchedule (scopeKey : string)
  | MissingVersion (scopeKey : string)
  | UnreadableScope (e : Cg4PolicyValidationError)
  | Unresolved (d : FailDetail)
  | NotActive (scopeKey : string)
  | Uncompilable (e : PolicyError)
  | DigestMismatch (policyVersionId : string).

Inductive Cg4PolicyReadResult :=
  | READ_RESOLVED (facts : Cg3PolicyFacts) (binding : Cg4PolicyBinding) (headVersion : Z) (scopeKey : string)
  | READ_UNCONFIGURED
  | READ_FAIL_CLOSED (reason : Cg4AuthorizationReviewReason) (detail : ReadDetail).

(** [matches]: a scope key that does not parse matches every request. *)
Definition scope_may_match (scopeKey : string) (request : Cg4PolicyScopeDimensions) : bool :=
  match cg4PolicyScopeMatches scopeKey request with Ok b => b | Err _ => true end.

(** [const unavailable = (detail) => ...] *)
Definition unavailable_read (d : ReadDetail) : Cg4PolicyReadResult :=
  READ_FAIL_CLOSED GOVERNANCE_STATE_UNAVAILABLE d.

(** [state: { in: ['PENDING', 'CLAIMED', 'FAILED'] }] *)
Definition job_unfinished (j : ActivationJob) : bool :=
  match aj_state j with J_PENDING | J_CLAIMED | J_FAILED => true | _ => false end.

(** The schedule that is due and has not been activated: a parked one counts only where its scope
    has no head. *)
Definition due_job (s : PolicyStore) (request : Cg4PolicyScopeDimensions) (now : Z) : option ActivationJob :=
  js_find (fun j => scope_may_match (aj_scopeKey j) request &&
             (negb (bool_decide (aj_state j = J_FAILED)) || negb (map_has (aj_scopeKey j) (ps_heads s))))
    (js_filter (fun j => job_unfinished j && (aj_scheduledFor j <=? now)) (ps_jobs s)).

(** A matching head with the row it points to. *)
Definition head_facts (s : PolicyStore) (entry : string * ScopeHead)
  : result Cg4PolicyReadResult Cg4ScopeHeadFacts :=
  let '(scopeKey, head) := entry in
  match find_policy_row s (hd_revisionId head) with
  | None => Err (unavailable_read (MissingVersion scopeKey))
  | Some row =>
      Ok {| sh_scopeKey := scopeKey; sh_policyId := hd_policyId head; sh_policyVersionId := hd_revisionId head;
            sh_policyVersion := hd_policyVersion head; sh_policyContentDigest := pr_contentDigest row;
            sh_schemaVersion := vi_schemaVersion (pr_identity row);
            sh_registryVersion := vi_registryVersion (pr_identity row);
            sh_evaluatorVersion := vi_evaluatorVersion (pr_identity row);
            sh_headVersion := hd_headVersion head; sh_headDigest := hd_headDigest head;
            sh_nextActivationAt := hd_nextActivationAt head |}
  end.

(** The version a resolved head names, read and checked. *)
Definition read_version `{Runtime, Host} (s : PolicyStore) (head : Cg4ScopeHeadFacts) : Cg4PolicyReadResult :=
  match find_policy_row s (sh_policyVersionId head) with
  | None => unavailable_read (MissingVersion (sh_scopeKey head))
  | Some row =>
      if negb (bool_decide (pr_status row = S_ACTIVE)) || negb (pr_version row =? sh_policyVersion head)
      then unavailable_read (NotActive (sh_scopeKey head))
      else match compile_row row with
           | Err e => READ_FAIL_CLOSED GOVERNANCE_POLICY_VERSION_UNSUPPORTED (Uncompilable e)
           | Ok compiled =>
               if negb (bool_decide (cp_contentDigest compiled = pr_contentDigest row))
               then unavailable_read (DigestMismatch (sh_policyVersionId head))
               else READ_RESOLVED (cp_facts compiled)
                      (PolicyBinding (sh_policyId head) (sh_policyVersionId head) (sh_policyVersion head)
                         (cp_contentDigest compiled) CG4_POLICY_SCHEMA_VERSION CG4_RULE_REGISTRY_VERSION
                         CG4_EVALUATOR_VERSION)
                      (sh_headVersion head) (sh_scopeKey head)
           end
  end.

Definition resolved_read `{Runtime, Host} (s : PolicyStore) (facts : list Cg4ScopeHeadFacts)
  (request : Cg4PolicyScopeDimensions) (now : Z) : Cg4PolicyReadResult :=
  match resolveCg4ActivePolicy (ResolveInput facts request now CG4_POLICY_HEAD_TTL_SECONDS) with
  | Err e => unavailable_read (UnreadableScope e)
  | Ok UNCONFIGURED => READ_UNCONFIGURED
  | Ok (FAIL_CLOSED reason d) => READ_FAIL_CLOSED reason (Unresolved d)
  | Ok (RESOLVED head _) => read_version s head
  end.

(** The heads and jobs of [s] are what the first two statements return, its rows what the third does. *)
Definition loadCg4PolicyFacts `{Runtime, Host} (s : PolicyStore) (request : Cg4PolicyScopeDimensions) (now : Z)
  : Cg4PolicyReadResult :=
  match due_job s request now with
  | Some due => READ_FAIL_CLOSED POLICY_ACTIVATION_PENDING (DueSchedule (aj_scopeKey due))
  | None =>
      let matching := js_filter (fun e => scope_may_match (fst e) request) (ps_heads s) in
      if bool_decide (length matching = 0%nat) then READ_UNCONFIGURED
      else match map_result (head_facts s) matching with
           | Err e => e
           | Ok facts => resolved_read s facts request now
           end
  end.

(** [cg4PolicyFailClosedOutcome] *)
Definition cg4PolicyFailClosedOutcome (gate : ContactPolicyGate) (reasonCode : string) : Cg3GateOutcome :=
  {| go_trace := [TraceEntry gate O_REVIEW (Some reasonCode)]; go_decision := Some REVIEW;
     go_reasonCode := Some reasonCode; go_preferenceVersion := None; go_nextEligibleAt := None;
     go_timezoneSource := None; go_matchedScope := None; go_matchedWindowRef := None; go_exceptionMode := None;
     go_exceptionRef := None; go_consumedCallbackRequestId := None; go_appliedExceptions := [] |}.

(** [cg4ShadowDecisionDigest]: what the contacted person notices of a decision. *)
Definition cg4ShadowDecisionDigest `{Host} (o : Cg3GateOutcome) : string :=
  stableDigest (JObj
    [("decision", JStr (match go_decision o with Some d => decision_text d | None => "ALLOW" end));
     ("reasonCode", JStr (default "POLICY_PASSED" (go_reasonCode o)));
     ("nextEligibleAt", text_or_null (go_nextEligibleAt o));
     ("matchedWindowRef", text_or_null (go_matchedWindowRef o));
     ("timezoneSource", text_or_null (go_timezoneSource o));
     ("exceptionMode", text_or_null (mode_name <$> go_exceptionMode o));
     ("overridesCallback", JBool (bool_decide (is_Some (go_consumedCallbackRequestId o))))]).

(** ** What the reader serves *)

(** The version's scope takes in the request. *)
Definition scope_takes (request : Cg4PolicyScopeDimensions) (r : PolicyVersion) : Prop :=
  cg4PolicyScopeMatches (pr_scopeKey r) request = Ok true.

(** Of the ACTIVE versions that take in the request, [r] has the one most specific scope. *)
Definition serves (s : PolicyStore) (request : Cg4PolicyScopeDimensions) (r : PolicyVersion) : Prop :=
  In r (ps_policies s) /\ pr_status r = S_ACTIVE /\ scope_takes request r /\
  forall r', In r' (ps_policies s) -> pr_status r' = S_ACTIVE -> scope_takes request r' -> r' <> r ->
    exists n n', cg4PolicyScopeSpecificity (pr_scopeKey r) = Ok n /\
                 cg4PolicyScopeSpecificity (pr_scopeKey r') = Ok n' /\ n' < n.

(** The tables the reader sees. Heads, jobs and rows are read by separate statements under READ
    COMMITTED, and the reader takes no lock: [s] lists the heads of [sh] and the rows of [sr]. *)
Record seen (sh sr s : PolicyStore) : Prop := {
  se_heads : ps_heads s = ps_heads sh;
  se_policies : ps_policies s = ps_policies sr;
}.

(** Two ACTIVE versions of different scopes take in the request, and neither scope outranks the other. *)
Definition tied (s : PolicyStore) (request : Cg4PolicyScopeDimensions) (r1 r2 : PolicyVersion) : Prop :=
  (In r1 (ps_policies s) /\ pr_status r1 = S_ACTIVE /\ scope_takes request r1) /\
  (In r2 (ps_policies s) /\ pr_status r2 = S_ACTIVE /\ scope_takes request r2) /\
  cg4PolicyScopesAmbiguous (pr_scopeKey r1) (pr_scopeKey r2) = Ok true.

(** Why a read fails closed. *)
Definition read_blocked (sh s : PolicyStore) (request : Cg4PolicyScopeDimensions) (now : Z)
  (reason : Cg4AuthorizationReviewReason) : Prop :=
  match reason with
  | POLICY_ACTIVATION_PENDING =>
      is_Some (due_job s request now) \/
      exists r h t, serves sh request r /\ map_get (pr_scopeKey r) (ps_heads sh) = Some h /\
        hd_nextActivationAt h = Some t /\ t <= now
  | GOVERNANCE_STATE_UNAVAILABLE =>
      (exists k h e, map_get k (ps_heads sh) = Some h /\ parseCg4PolicyScopeKey k = Err e) \/
      (exists r1 r2, r1 <> r2 /\ tied sh request r1 r2) \/
      (exists r r', serves sh request r /\ In r' (ps_policies s) /\ pr_identity r' = pr_identity r /\
                    pr_status r' = S_SUPERSEDED)
  | _ => False
  end.

(** What a read of the heads of [sh] tells. *)
Definition read_tells `{Runtime, Host} (sh s : PolicyStore) (request : Cg4PolicyScopeDimensions) (now : Z)
  (answer : Cg4PolicyReadResult) : Prop :=
  match answer with
  | READ_RESOLVED facts binding headVersion scopeKey =>
      due_job s request now = None /\
      exists r h compiled, serves sh request r /\ In r (ps_policies s) /\ pr_scopeKey r = scopeKey /\
        map_get scopeKey (ps_heads sh) = Some h /\ hd_headVersion h = headVersion /\
        (forall t, hd_nextActivationAt h = Some t -> now < t) /\
        compile_row r = Ok compiled /\ facts = cp_facts compiled /\
        binding = PolicyBinding (pr_policyId r) (pr_id r) (pr_version r) (pr_contentDigest r)
                    CG4_POLICY_SCHEMA_VERSION CG4_RULE_REGISTRY_VERSION CG4_EVALUATOR_VERSION
  | READ_UNCONFIGURED =>
      due_job s request now = None /\
      forall r, In r (ps_policies sh) -> pr_status r = S_ACTIVE -> scope_may_match (pr_scopeKey r) request = false
  | READ_FAIL_CLOSED reason _ => read_blocked sh s request now reason
  end.

(** A version that is ACTIVE can only be superseded. *)
Lemma active_future `{Runtime, Host} r r' : row_future r r' -> pr_status r = S_ACTIVE -> r' = r \/ pr_status r' = S_SUPERSEDED.
Proof.
  intros Hf Ha. destruct Hf as [r|r r1 r' Hs Hf]; [by left|right]. apply row_step_edge in Hs. rewrite Ha in Hs.
  destruct (pr_status r1) eqn:E1; try done. destruct Hf as [r1|r1 r2 r' Hs2 Hf]; [done|].
  apply row_step_edge in Hs2. by rewrite E1 in Hs2.
Qed.

Section Reader.
Context `{Runtime, Host}.
Context (sh sr s : PolicyStore) (Hwf : wf sh) (Hwr : wf sr) (Hseen : seen sh sr s).
Context (Hlater : forall r, In r (ps_policies sh) -> exists r', In r' (ps_policies sr) /\ row_future r r').

(** An ACTIVE version as its row is read later. *)
Lemma row_seen r : In r (ps_policies sh) -> pr_status r = S_ACTIVE ->
  exists r', find_policy_row s (pr_id r) = Some r' /\ In r' (ps_policies s) /\ pr_identity r' = pr_identity r /\
    pr_draft r' = pr_draft r /\ (r' = r \/ pr_status r' = S_SUPERSEDED).
Proof.
  intros Hr Ha. destruct (Hlater r Hr) as (r' & Hr' & Hf). exists r'. pose proof (row_future_identity _ _ Hf) as Hi.
  rewrite (se_policies _ _ _ Hseen). split_and!; [|done|done| |by apply active_future].
  2: { apply row_future_frozen in Hf as (Hd & _); [done|]. by rewrite Ha. }
  unfold find_policy_row. rewrite (se_policies _ _ _ Hseen). destruct (js_find _ _) as [x|] eqn:E.
  - apply find_some in E as [Hx E]. bool_prop. f_equal. apply (same_row sr); [done..|]. unfold pr_id in *. congruence.
  - pose proof (find_none _ _ E r' Hr') as Hn. cbn in Hn. unfold pr_id in *. rewrite Hi in Hn. by bool_prop.
Qed.

(** A head, and the ACTIVE version it names. *)
Lemma head_version k h : In (k, h) (ps_heads sh) ->
  exists r, head_of sh h r /\ pr_scopeKey r = k /\ map_get k (ps_heads sh) = Some h.
Proof.
  intros Hin. pose proof (map_get_wf _ _ _ (wf_heads _ Hwf) Hin) as Hg.
  destruct (wf_head _ Hwf k h Hg) as (_ & r & Hr & Hk). by exists r.
Qed.

Definition facts_of (k : string) (h : ScopeHead) (r : PolicyVersion) : Cg4ScopeHeadFacts :=
  {| sh_scopeKey := k; sh_policyId := hd_policyId h; sh_policyVersionId := hd_revisionId h;
     sh_policyVersion := hd_policyVersion h; sh_policyContentDigest := pr_contentDigest r;
     sh_schemaVersion := vi_schemaVersion (pr_identity r); sh_registryVersion := vi_registryVersion (pr_identity r);
     sh_evaluatorVersion := vi_evaluatorVersion (pr_identity r); sh_headVersion := hd_headVersion h;
     sh_headDigest := hd_headDigest h; sh_nextActivationAt := hd_nextActivationAt h |}.

(** Its identity and content are read as they were, whenever the row is. *)
Lemma head_facts_ok k h r : head_of sh h r -> head_facts s (k, h) = Ok (facts_of k h r).
Proof.
  intros (Hr & Ha & Hrev & _). destruct (row_seen r Hr Ha) as (r' & Hf & _ & Hi & Hd & _).
  unfold head_facts, facts_of, pr_contentDigest. by rewrite Hrev, Hf, Hi, Hd.
Qed.

(** Every listed head has its facts. *)
Lemma all_facts entries : (forall e, In e entries -> In e (ps_heads sh)) ->
  exists facts, map_result (head_facts s) entries = Ok facts /\ map sh_scopeKey facts = map fst entries /\
    forall f, In f facts <-> exists k h r, In (k, h) entries /\ head_of sh h r /\ pr_scopeKey r = k /\ f = facts_of k h r.
Proof.
  induction entries as [|[k h] entries IH]; intros Hsub; [exists []; split_and!; [done|done|]; cbn; naive_solver|].
  destruct IH as (facts & Hf & Hks & Hin); [intros e He; apply Hsub; by right|].
  destruct (head_version k h) as (r & Hr & Hk & _); [apply Hsub; by left|].
  exists (facts_of k h r :: facts). cbn [map_result]. rewrite (head_facts_ok _ _ _ Hr), Hf. split; [done|].
  split; [cbn; by rewrite Hks|].
  intros f. cbn [In]. rewrite Hin. split.
  - intros [<-|(k' & h' & r' & ? & ?)]; [exists k, h, r; naive_solver|exists k', h', r'; naive_solver].
  - intros (k' & h' & r' & [[= <- <-]|Hin'] & Hr' & Hk' & ->); [left|right; exists k', h', r'; naive_solver].
    by rewrite (same_row sh r r' Hwf) by (apply Hr || apply Hr' || (destruct Hr as (_&_&<-&_), Hr' as (_&_&<-&_); done)).
Qed.

(** The ACTIVE version of a head, and the head of an ACTIVE version. *)
Lemma head_active r : In r (ps_policies sh) -> pr_status r = S_ACTIVE ->
  exists h, head_of sh h r /\ map_get (pr_scopeKey r) (ps_heads sh) = Some h.
Proof.
  intros Hr Ha. destruct (wf_active _ Hwf r Hr Ha) as (h & Hg & Hrev). exists h. split; [|done].
  destruct (head_version _ _ (map_get_In _ _ _ Hg)) as (r2 & Hr2 & _).
  by assert (r2 = r) as -> by (apply (same_row sh); [done|apply Hr2|done|destruct Hr2 as (_ & _ & <- & _); done]).
Qed.

(** The facts of the matching heads: those of the ACTIVE versions that may take in the request. *)
Lemma matching_facts request :
  let matching := js_filter (fun e => scope_may_match (fst e) request) (ps_heads s) in
  exists facts, map_result (head_facts s) matching = Ok facts /\ List.NoDup facts /\
    (matching = [] <-> facts = []) /\
    (forall f, In f facts -> exists h r, head_of sh h r /\ map_get (pr_scopeKey r) (ps_heads sh) = Some h /\
       scope_may_match (pr_scopeKey r) request = true /\ f = facts_of (pr_scopeKey r) h r /\ supported_head f = true) /\
    (forall r, In r (ps_policies sh) -> pr_status r = S_ACTIVE -> scope_may_match (pr_scopeKey r) request = true ->
       exists h, head_of sh h r /\ In (facts_of (pr_scopeKey r) h r) facts).
Proof.
  intros matching. subst matching. rewrite (se_heads _ _ _ Hseen).
  set (matching := js_filter (fun e => scope_may_match (fst e) request) (ps_heads sh)).
  destruct (all_facts matching) as (facts & Hf & Hks & Hin).
  { intros e He. by apply filter_In in He as [? _]. }
  exists facts. split; [done|]. split; [|split; [|split]].
  - apply (NoDup_map_inv sh_scopeKey). rewrite Hks. apply NoDup_map_js_filter. exact (wf_heads _ Hwf).
  - destruct matching as [|[k h] rest]; [cbn in Hf; by injection Hf as <-|]. split; [done|]. intros ->. cbn in Hf.
    open_bind Hf f Hf1. open_bind Hf fs Hfs. done.
  - intros f Hff. apply Hin in Hff as (k & h & r & He & Hr & <- & ->). apply filter_In in He as [He Hm]. cbn in Hm.
    exists h, r. destruct (head_version _ h He) as (_ & _ & _ & Hg). split_and!; try done.
    destruct Hr as (Hr & _). destruct (stored_versions r (wf_stored _ Hwf r Hr)) as (_ & Hv1 & Hv2 & Hv3).
    unfold supported_head, facts_of. cbn. rewrite Hv1, Hv2, Hv3. by rewrite !bool_decide_eq_true_2.
  - intros r Hr Ha Hm. destruct (head_active r Hr Ha) as (h & Hh & Hg). exists h. split; [done|].
    apply Hin. exists (pr_scopeKey r), h, r. split_and!; try done. apply filter_In.
    split; [by apply map_get_In|done].
Qed.

(** What reading the version of a resolved head gives: the version the head named, or a refusal where it
    has been superseded since. *)
Lemma read_version_ok k h r : head_of sh h r -> pr_scopeKey r = k ->
  (In r (ps_policies s) /\ exists compiled, compile_row r = Ok compiled /\ cp_contentDigest compiled = pr_contentDigest r /\
    read_version s (facts_of k h r) = READ_RESOLVED (cp_facts compiled)
      (PolicyBinding (pr_policyId r) (pr_id r) (pr_version r) (pr_contentDigest r) CG4_POLICY_SCHEMA_VERSION
         CG4_RULE_REGISTRY_VERSION CG4_EVALUATOR_VERSION) (hd_headVersion h) k) \/
  (exists r', In r' (ps_policies s) /\ pr_identity r' = pr_identity r /\ pr_status r' = S_SUPERSEDED /\
    read_version s (facts_of k h r) = unavailable_read (NotActive k)).
Proof.
  intros (Hr & Ha & Hrev & Hpid & Hver & _) Hk. destruct (row_seen r Hr Ha) as (r' & Hf & Hr' & Hi & Hd & [->|Hs]).
  - left. split; [done|]. destruct (wf_stored _ Hwf r Hr) as (c & Hc & Hcd & _).
    exists c. split; [done|]. split; [done|]. unfold read_version, facts_of. cbn [sh_policyVersionId sh_scopeKey
      sh_policyVersion sh_policyId sh_headVersion]. rewrite Hrev, Hf, Ha, Hver, Z.eqb_refl. cbn [negb orb].
    rewrite bool_decide_eq_true_2 by done. cbn [negb orb]. rewrite Hc, bool_decide_eq_true_2 by done.
    cbn [negb]. by rewrite Hpid, Hcd.
  - right. exists r'. split_and!; try done. unfold read_version, facts_of. cbn [sh_policyVersionId sh_scopeKey].
    by rewrite Hrev, Hf, Hs.
Qed.
End Reader.

(** Where some key does not parse, the resolution throws. *)
Lemma unreadable_throws input f e : In f (ri_heads input) -> parseCg4PolicyScopeKey (sh_scopeKey f) = Err e ->
  exists e', resolveCg4ActivePolicy input = Err e'.
Proof.
  intros Hin He. unfold resolveCg4ActivePolicy. set (q := fun head => cg4PolicyScopeMatches (sh_scopeKey head) (ri_request input)).
  assert (Hq : exists e', filter_result q (ri_heads input) = Err e').
  { induction (ri_heads input) as [|x l IH]; [done|]. cbn [filter_result]. destruct Hin as [->|Hin].
    - assert (q f = Err e) as -> by (unfold q, cg4PolicyScopeMatches; by rewrite He). by eexists.
    - destruct (q x); cbn; [|by eexists]. destruct (IH Hin) as [e' ->]. by eexists. }
  destruct Hq as [e' ->]. by eexists.
Qed.

Lemma keys_split facts : Forall key_ok facts \/ exists f e, In f facts /\ parseCg4PolicyScopeKey (sh_scopeKey f) = Err e.
Proof.
  induction facts as [|f facts [IH|(g & e & ? & ?)]]; [by left| |right; exists g, e; split; [by right|done]].
  destruct (parseCg4PolicyScopeKey (sh_scopeKey f)) as [ds|e] eqn:E.
  - left. constructor; [by exists ds|done].
  - right. exists f, e. split; [by left|done].
Qed.

(** The specificity of a head's facts is that of its version's scope. *)
Lemma facts_specificity f : key_ok f -> cg4PolicyScopeSpecificity (sh_scopeKey f) = Ok (specificity f).
Proof. intros [ds Hds]. unfold cg4PolicyScopeSpecificity, specificity. by rewrite Hds. Qed.

Lemma key_ok_takes f request : key_ok f -> scope_may_match (sh_scopeKey f) request = true ->
  cg4PolicyScopeMatches (sh_scopeKey f) request = Ok true /\ matches request f = true.
Proof. intros [ds Hds]. unfold scope_may_match, matches, cg4PolicyScopeMatches. rewrite Hds. cbn. by intros ->. Qed.

(** Two scopes of one rank that take in one request are ambiguous. *)
Lemma equal_ranks_tie k1 k2 request n : k1 <> k2 -> cg4PolicyScopeMatches k1 request = Ok true ->
  cg4PolicyScopeMatches k2 request = Ok true -> cg4PolicyScopeSpecificity k1 = Ok n ->
  cg4PolicyScopeSpecificity k2 = Ok n -> cg4PolicyScopesAmbiguous k1 k2 = Ok true.
Proof.
  unfold cg4PolicyScopeMatches, cg4PolicyScopesAmbiguous. intros Hne M1 M2 S1 S2.
  rewrite bool_decide_eq_false_2, S1, S2 by done. cbn -[dims_compatible]. rewrite Z.eqb_refl. cbn -[dims_compatible].
  destruct (parseCg4PolicyScopeKey k1) as [d1|], (parseCg4PolicyScopeKey k2) as [d2|]; try done.
  cbn -[dims_compatible] in *. f_equal. apply dims_compatible_iff. exists request. naive_solver.
Qed.

Section Served.
Context `{Runtime, Host}.
Context (sh sr s : PolicyStore) (Hwf : wf sh) (Hwr : wf sr) (Hseen : seen sh sr s).
Context (Hlater : forall r, In r (ps_policies sh) -> exists r', In r' (ps_policies sr) /\ row_future r r').

(** Why [r] and [r2] tie, when the facts of both win. *)
Lemma winners_tie request facts h1 r1 h2 r2 :
  Forall key_ok facts -> let f1 := facts_of (pr_scopeKey r1) h1 r1 in let f2 := facts_of (pr_scopeKey r2) h2 r2 in
  f1 <> f2 -> In f1 facts -> In f2 facts -> head_of sh h1 r1 -> head_of sh h2 r2 ->
  map_get (pr_scopeKey r1) (ps_heads sh) = Some h1 -> map_get (pr_scopeKey r2) (ps_heads sh) = Some h2 ->
  scope_may_match (pr_scopeKey r1) request = true -> scope_may_match (pr_scopeKey r2) request = true ->
  specificity f1 = specificity f2 -> r1 <> r2 /\ tied sh request r1 r2.
Proof.
  intros Hok f1 f2 Hne I1 I2 Hr1 Hr2 G1 G2 M1 M2 Hsp. rewrite List.Forall_forall in Hok.
  destruct (key_ok_takes f1 request (Hok _ I1) M1) as [T1 _], (key_ok_takes f2 request (Hok _ I2) M2) as [T2 _].
  pose proof (facts_specificity f1 (Hok _ I1)) as S1. pose proof (facts_specificity f2 (Hok _ I2)) as S2.
  assert (Hr : r1 <> r2) by (intros ->; apply Hne; unfold f1, f2; congruence). split; [done|].
  assert (Hk : pr_scopeKey r1 <> pr_scopeKey r2).
  { intros Hk. apply Hr, (same_row sh); [done|apply Hr1|apply Hr2|]. rewrite Hk, G2 in G1. injection G1 as ->.
    destruct Hr1 as (_ & _ & <- & _), Hr2 as (_ & _ & <- & _). done. }
  split; [split_and!; [apply Hr1|apply Hr1|done]|]. split; [split_and!; [apply Hr2|apply Hr2|done]|].
  rewrite Hsp in S1. by apply (equal_ranks_tie _ _ request (specificity f2)).
Qed.

(** What the reader finds in well-formed stores. *)
Lemma reader_reads request now :
  read_tells sh s request now (loadCg4PolicyFacts s request now).
Proof.
  unfold loadCg4PolicyFacts. destruct (due_job s request now) as [j|] eqn:Ej; [left; by rewrite Ej|].
  destruct (matching_facts sh sr s Hwf Hwr Hseen Hlater request) as (facts & Hf & Hnd & Hnil & Hall & Hact). cbv zeta.
  destruct (js_filter _ (ps_heads s)) as [|e es] eqn:Em; cbn [length].
  { rewrite bool_decide_eq_true_2 by done. split; [done|]. intros r Hr Ha. apply not_true_iff_false. intros Ht.
    destruct (Hact r Hr Ha Ht) as (h & _ & Hin). by rewrite (proj1 Hnil eq_refl) in Hin. }
  rewrite bool_decide_eq_false_2 by done. rewrite Hf. unfold resolved_read.
  set (input := ResolveInput facts request now CG4_POLICY_HEAD_TTL_SECONDS).
  destruct (keys_split facts) as [Hok|(f & er & Hin & Her)].
  2: { destruct (unreadable_throws input f er Hin Her) as [e' ->]. destruct (Hall f Hin) as (h & r & _ & Hg & _ & -> & _).
    left. by exists (pr_scopeKey r), h, er. }
  pose proof (proj1 (List.Forall_forall _ _) Hok) as Hoks.
  destruct (resolve_winners input Hok) as (res & -> & Hw).
  destruct (winners input) as [|f [|f2 fs]] eqn:Ew.
  - destruct Hw as [Hnone ->]. split; [done|]. intros r Hr Ha. apply not_true_iff_false. intros Ht.
    destruct (Hact r Hr Ha Ht) as (h & _ & Hin). rewrite filter_nil in Hnone. specialize (Hnone _ Hin).
    destruct (key_ok_takes _ request (Hoks _ Hin) Ht) as [_ Hm]. cbn in Hnone. congruence.
  - apply winners_governs in Ew as (before & after & Hl & Hm & Hbest). cbn [ri_heads ri_request input] in *.
    assert (Hin : In f facts) by (rewrite Hl; apply in_elt).
    destruct (Hall f Hin) as (h & r & Hr & Hg & Ht & -> & Hsup).
    assert (Hserves : serves sh request r).
    { destruct (key_ok_takes _ request (Hoks _ Hin) Ht) as [Htk _]. pose proof Hr as (Hri & Ha & Hrev & _).
      split_and!; try done. intros r' Hr' Ha' Ht' Hne. unfold scope_takes in Ht'.
      destruct (Hact r' Hr' Ha') as (h' & Hh' & Hin'); [unfold scope_may_match; by rewrite Ht'|].
      exists (specificity (facts_of (pr_scopeKey r) h r)), (specificity (facts_of (pr_scopeKey r') h' r')).
      split; [exact (facts_specificity _ (Hoks _ Hin))|]. split; [exact (facts_specificity _ (Hoks _ Hin'))|].
      apply Hbest; [|unfold matches; cbn; by rewrite Ht'].
      rewrite Hl in Hin'. apply in_app_iff in Hin'. apply in_app_iff. destruct Hin' as [?|[Heq|?]]; [by left| |by right].
      exfalso. apply Hne. injection Heq as _ _ Hids _. destruct Hh' as (_ & _ & Hrev' & _).
      by apply (same_row sh); [..|congruence]. }
    subst res. unfold resolve_winner. rewrite Hsup. cbn [negb ri_now ri_cacheTtlSeconds input].
    assert (Hread : (forall t, hd_nextActivationAt h = Some t -> now < t) ->
      read_tells sh s request now (read_version s (facts_of (pr_scopeKey r) h r))).
    { intros Hnext. destruct (read_version_ok sh sr s Hwf Hwr Hseen Hlater _ h r Hr eq_refl)
        as [(Hrs & c & Hc & Hcd & ->)|(r' & Hr' & Hi & Hs & ->)].
      - split; [done|]. by exists r, h, c.
      - right; right. by exists r, r'. }
    cbn [facts_of sh_nextActivationAt] in *.
    destruct (hd_nextActivationAt h) as [t|] eqn:Et; [destruct (Z.leb_spec t now)|].
    + right. by exists r, h, t.
    + specialize (Hread ltac:(intros t' [= <-]; done)). by destruct (read_version s _).
    + specialize (Hread ltac:(done)). by destruct (read_version s _).
  - destruct Hw as [detail ->]. right; left.
    assert (Hin : forall f', In f' (f :: f2 :: fs) -> In f' facts /\
      forall g, In g facts -> matches request g = true -> specificity g <= specificity f').
    { intros f' Hf'. rewrite <- Ew in Hf'. apply of_max_rank_In in Hf' as [Hf' Hmax]. apply filter_In in Hf' as [? ?].
      split; [done|]. intros g Hg Hgm. by apply Hmax, filter_In. }
    destruct (Hin f (or_introl eq_refl)) as (Hf1 & Hmax1).
    destruct (Hin f2 (or_intror (or_introl eq_refl))) as (Hf2 & Hmax2).
    assert (Hne : f <> f2).
    { assert (Hnw : List.NoDup (winners input)) by (unfold winners, of_max_rank; do 2 apply List.NoDup_filter; exact Hnd).
      rewrite Ew in Hnw. inversion_clear Hnw as [|? ? Hni _]. intros ->. apply Hni. by left. }
    destruct (Hall f Hf1) as (h1 & r1 & Hr1 & Hg1 & Ht1 & -> & _).
    destruct (Hall f2 Hf2) as (h2 & r2 & Hr2 & Hg2 & Ht2 & -> & _).
    exists r1, r2. apply (winners_tie request facts h1 r1 h2 r2); try done.
    destruct (key_ok_takes _ request (Hoks _ Hf1) Ht1) as [_ M1], (key_ok_takes _ request (Hoks _ Hf2) Ht2) as [_ M2].
    specialize (Hmax1 _ Hf2 M2). specialize (Hmax2 _ Hf1 M1). lia.
Qed.
End Served.

Section Histories.
Context `{Runtime, Host}.
Context (fresh_some : forall n, fresh n <> "") (fresh_inj : forall m n, fresh m = fresh n -> m = n).

(** The rows of a system are those of any earlier one, each as it became. *)
Lemma policy_rows_later yh yr r : PolicySystem.reachable yh -> rtc step yh yr -> In r (ps_policies (py_store yh)) ->
  exists r', In r' (ps_policies (py_store yr)) /\ row_future r r'.
Proof.
  intros Hy Hst. apply reachable_policy_wf in Hy; [|done..]. revert r Hy.
  induction Hst as [y|y y1 y' Hs Hst IH]; intros r Hy Hr; [exists r; split; [done|apply rtc_refl]|].
  destruct (effect_rows _ _ r (proj1 Hy) (step_effect fresh_some _ _ Hy Hs) Hr) as (r1 & Hr1 & Hor).
  destruct (IH r1) as (r' & Hr' & Hf); [by eapply step_policy_wf|done|]. exists r'. split; [done|].
  destruct Hor as [->|Hrs]; [done|by eapply rtc_l].
Qed.

Lemma reader_reads_later yh yr s request now :
  PolicySystem.reachable yh -> rtc step yh yr -> seen (py_store yh) (py_store yr) s ->
  read_tells (py_store yh) s request now (loadCg4PolicyFacts s request now).
Proof.
  intros Hy Hst Hs. apply (reader_reads _ (py_store yr)); [| |done|].
  - by apply reachable_policy_wf in Hy as [? _].
  - assert (Hyr : PolicySystem.reachable yr) by (unfold PolicySystem.reachable in *; by etrans).
    by apply reachable_policy_wf in Hyr as [? _].
  - intros r. by apply policy_rows_later.
Qed.

(** C27: what the decision path enforces. The reader takes no lock and reads the heads, the jobs and,
    later, the rows. Whatever the commands did until the heads were read and between then and the rows,
    and whatever jobs it saw: it resolves a request to the version that was ACTIVE when the heads were
    read and whose scope was the one most specific of those that take the request in, with the facts that
    version's stored content compiles to and a binding that names it; it answers UNCONFIGURED only where
    no ACTIVE version's scope takes the request in; and it fails closed for no other reason than that an
    activation is due, that some head's key does not parse, that two ACTIVE versions tie, or that the
    version was superseded before its row was read. It never finds a head without its version, or content
    that does not match its digest. *)
Theorem reader_serves_active yh yr s request now :
  PolicySystem.reachable yh -> rtc step yh yr ->
  ps_heads s = ps_heads (py_store yh) -> ps_policies s = ps_policies (py_store yr) ->
  match loadCg4PolicyFacts s request now with
  | READ_RESOLVED facts binding headVersion scopeKey =>
      due_job s request now = None /\
      exists r h compiled, serves (py_store yh) request r /\ In r (ps_policies s) /\ pr_scopeKey r = scopeKey /\
        map_get scopeKey (ps_heads (py_store yh)) = Some h /\ hd_headVersion h = headVersion /\
        (forall t, hd_nextActivationAt h = Some t -> now < t) /\
        compile_row r = Ok compiled /\ facts = cp_facts compiled /\
        binding = PolicyBinding (pr_policyId r) (pr_id r) (pr_version r) (pr_contentDigest r)
                    CG4_POLICY_SCHEMA_VERSION CG4_RULE_REGISTRY_VERSION CG4_EVALUATOR_VERSION
  | READ_UNCONFIGURED =>
      due_job s request now = None /\
      forall r, In r (ps_policies (py_store yh)) -> pr_status r = S_ACTIVE -> scope_may_match (pr_scopeKey r) request = false
  | READ_FAIL_CLOSED reason _ => read_blocked (py_store yh) s request now reason
  end.
Proof. intros Hy Hst Hh Hp. by apply (reader_reads_later yh yr s request now Hy Hst). Qed.
End Histories.

#[local] Existing Instance two_zone_host.
#[local] Existing Instance demo_host.

Definition voice_request : Cg4PolicyScopeDimensions := Dimensions (Some "VOICE") (Some "PERSON") (Some "MARKETING") (Some "DIALER").

(** The reader has the heads when a colleague drafts the next version, and reads the rows after. *)
Definition drafted_store : PolicyStore := Eval vm_compute in
  played (play first_store (at_noon [create_in any_scope (Some "0") (quiet_until "20:30") "c2"])).
Lemma drafted_played :
  play first_store (at_noon [create_in any_scope (Some "0") (quiet_until "20:30") "c2"]) = Ok drafted_store.
Proof. vm_compute. reflexivity. Qed.

Definition mixed_view : PolicyStore := Eval vm_compute in
  PolicyStore_ (ps_policies drafted_store) (ps_heads first_store) (ps_artifacts drafted_store) (ps_votes drafted_store)
    (ps_jobs first_store) (ps_switches drafted_store) (ps_receipts drafted_store) (ps_outbox drafted_store)
    (ps_audit drafted_store) (ps_frozen drafted_store) (ps_nextId drafted_store).

Definition voice_read : Cg4PolicyReadResult := Eval vm_compute in loadCg4PolicyFacts mixed_view voice_request noon_ms.

Lemma reader_serves_active_witness :
  match voice_read with
  | READ_RESOLVED facts binding v k => v = 1 /\ exists r, serves first_store voice_request r /\ pr_scopeKey r = k
  | _ => False
  end.
Proof.
  assert (He : loadCg4PolicyFacts mixed_view voice_request noon_ms = voice_read) by (vm_compute; reflexivity).
  pose proof (reader_serves_active demo_fresh_some demo_fresh_inj (PolicySystem_ first_store []) (PolicySystem_ drafted_store [])
    mixed_view voice_request noon_ms first_reachable (play_steps _ _ _ [] drafted_played) eq_refl eq_refl) as Hr.
  cbv beta zeta delta [py_store] iota in Hr. revert Hr He.
  generalize (loadCg4PolicyFacts mixed_view voice_request noon_ms). intros res Hr ->.
  destruct Hr as (_ & r & h & c & Hs & _ & Hks & _). split; [reflexivity|]. by exists r.
Defined.
