(* ===== verification/PolicyFindings.v ===== *)
(** * PolicyFindings: histories of the policy studio that go where nobody means them to

    Each is a run of the commands of [PolicyLifecycle], most of them uninterrupted. *)
From stdpp Require Import base tactics list strings relations.
From Stdlib Require Import ZArith Lia.
From S2P Require Import Prelude JsMap Text JsDate JsValue Contracts ScopeKey PolicyCompiler PolicyDiff PolicyPreview Authorization Persistence PolicyStore PolicyLifecycle PolicySystem PolicyScenario PolicyReader.

Open Scope string_scope.
Open Scope Z_scope.
Open Scope list_scope.

#[local] Existing Instance two_zone_host.
#[local] Existing Instance demo_host.

Definition LATER : string := "2026-01-02T12:00:00.000Z".

Lemma then_reachable s ms s' : reachable (PolicySystem_ s []) -> play s ms = Ok s' -> reachable (PolicySystem_ s' []).
Proof. intros Hs E. unfold reachable in *. etrans; [exact Hs|exact (play_steps _ _ _ [] E)]. Qed.

(** ** Votes survive an amendment *)

Definition voted_moves : list (Z * Move) := at_noon
  [create_in any_scope None (quiet_until "20:20") "c1"; test_by "0" 1 maria "t1"; vote_by "0" 1 carol true "v1";
   vote_by "0" 1 dave true "v2"].
Definition amended_moves : list (Z * Move) := at_noon
  [amend_by "0" 1 maria (quiet_until "20:01") "am"; test_by "0" 1 maria "t2"; submit_by "0" 1 maria "s1";
   finalize_by "0" 1 maria NOON "f1"; publish_by "0" 1 maria "p1"].

Definition voted_store : PolicyStore := Eval vm_compute in played (play empty_policies voted_moves).
Definition amended_store : PolicyStore := Eval vm_compute in played (play voted_store amended_moves).

Lemma voted_played : play empty_policies voted_moves = Ok voted_store.
Proof. vm_compute. reflexivity. Qed.
Lemma amended_played : play voted_store amended_moves = Ok amended_store.
Proof. vm_compute. reflexivity. Qed.

(** Votes are not bound to the content voted on. There is a history in which two people vote on
    a draft, its maker then replaces its content, and the new content becomes ACTIVE with those two
    votes and no other: finalize and publish count every vote on the version's number. *)
Theorem votes_survive_amendment :
  exists y1 y2 r1 r2, reachable y1 /\ rtc step y1 y2 /\
    In r1 (ps_policies (py_store y1)) /\ In r2 (ps_policies (py_store y2)) /\ pr_identity r2 = pr_identity r1 /\
    pr_contentDigest r2 <> pr_contentDigest r1 /\ pr_status r2 = S_ACTIVE /\
    length (ps_votes (py_store y1)) = 2%nat /\ ps_votes (py_store y2) = ps_votes (py_store y1).
Proof.
  exists (PolicySystem_ voted_store []), (PolicySystem_ amended_store []), (the_row "0" 1 voted_store),
    (the_row "0" 1 amended_store).
  split; [exact (played_reachable _ _ voted_played)|]. split; [exact (play_steps _ _ _ [] amended_played)|].
  split; [by left|]. split; [by left|]. split; [reflexivity|]. split; [|by vm_compute]. vm_compute. discriminate.
Qed.

(** ** A test run that finishes late restamps a draft *)

Definition tightened_store : PolicyStore := Eval vm_compute in
  played (play first_store (at_noon [create_in any_scope (Some "0") (quiet_until "20:30") "c2"])).
Lemma tightened_played :
  play first_store (at_noon [create_in any_scope (Some "0") (quiet_until "20:30") "c2"]) = Ok tightened_store.
Proof. vm_compute. reflexivity. Qed.

(** The tests of the tightening have read the draft and wait for the lock. *)
Definition late_tests : command := Eval vm_compute in
  match test_by "0" 2 maria "tA" with M_run c => c tightened_store | _ => Amend (AmendInput (by_actor maria "") "" 0 0 JNull) end.
Definition late_pending : pending := Eval vm_compute in
  match begin tightened_store late_tests with
  | Ok (inr p) => p
  | _ => P_Publish (fst publish_begun) (snd publish_begun)
  end.
Lemma late_begins : begin tightened_store late_tests = Ok (inr late_pending).
Proof. vm_compute. reflexivity. Qed.

(** Meanwhile the draft is amended to a relaxation and tested. *)
Definition relaxed_moves : list (Z * Move) := at_noon
  [amend_by "0" 2 maria (quiet_until "20:01") "am"; test_by "0" 2 maria "tB"].
Definition relaxed_store : PolicyStore := Eval vm_compute in played (play tightened_store relaxed_moves).
Lemma relaxed_played : play tightened_store relaxed_moves = Ok relaxed_store.
Proof. vm_compute. reflexivity. Qed.

Definition restamped_store : PolicyStore := Eval vm_compute in
  match commit relaxed_store late_pending noon_ms with Ok (_, s) => s | Err _ => relaxed_store end.
Lemma restamped : exists r, commit relaxed_store late_pending noon_ms = Ok (r, restamped_store).
Proof. vm_compute. eexists. reflexivity. Qed.

(** The relaxation goes on with the artifact of its own tests. *)
Definition relaxed_artifact : string := Eval vm_compute in artifact_of "0" 2 relaxed_store.
Definition tightening_moves : list (Z * Move) := at_noon
  [M_run (fun s => Submit (SubmitInput (by_actor maria "sB") "0" 2 (pr_draftRevision (the_row "0" 2 s))
     (pr_contentDigest (the_row "0" 2 s)) relaxed_artifact));
   vote_by "0" 2 carol true "vB";
   M_run (fun s => Finalize (FinalizeInput (by_actor carol "fB") "0" 2 (pr_contentDigest (the_row "0" 2 s))
     relaxed_artifact (diff_class (the_row "0" 2 s)) (hs_headVersion (head_now "0" 2 s))
     (hs_headDigest (head_now "0" 2 s)) NOON));
   M_run (fun s => Publish (PublishInput (by_actor carol "pB") "0" 2 (pr_contentDigest (the_row "0" 2 s))
     relaxed_artifact (default "" (pg_approvalDigest (pr_progress (the_row "0" 2 s))))
     (hs_headVersion (head_now "0" 2 s)) (hs_headDigest (head_now "0" 2 s))))].
Definition misclassed_store : PolicyStore := Eval vm_compute in played (play restamped_store tightening_moves).
Lemma misclassed_played : play restamped_store tightening_moves = Ok misclassed_store.
Proof. vm_compute. reflexivity. Qed.

Lemma misclassed_reachable : reachable (PolicySystem_ misclassed_store []).
Proof.
  destruct restamped as [r Hr].
  eapply then_reachable; [|exact misclassed_played].
  eapply rtc_r; [|exact (step_commit relaxed_store [] [] late_pending noon_ms r restamped_store Hr)].
  unfold reachable. etrans; [|exact (play_steps _ _ _ [late_pending] relaxed_played)].
  eapply rtc_r; [|exact (step_begin tightened_store [] _ _ late_begins)].
  eapply then_reachable; [exact first_reachable|exact tightened_played].
Qed.

(** The compiled content of a row. *)
Definition content_of (r : PolicyVersion) : option Cg4PolicyContentV1 :=
  match compile_row r with Ok c => Some (cp_content c) | Err _ => None end.

(** A diff class is not bound to the content it was computed for. There is a history in which a
    draft takes effect that relaxes the policy it replaces, with one vote and the class TIGHTENING:
    a test run that read the draft before an amendment stamps its class after it, and neither
    submit nor finalize compares the class with the artifact it was submitted with. *)
Theorem late_tests_misclass :
  exists y old new base content, reachable y /\
    In old (ps_policies (py_store y)) /\ In new (ps_policies (py_store y)) /\
    pg_supersedesId (pr_progress new) = Some (pr_id old) /\ pr_status new = S_ACTIVE /\
    content_of old = Some base /\ content_of new = Some content /\
    (exists diff, classifyCg4PolicyDiff sha256_hex (Some base) content = Ok diff /\ diffClass diff = C_RELAXATION) /\
    pr_diffClass new = Some C_TIGHTENING /\
    length (votes_of (py_store y) (pr_policyId new) (pr_version new)) = 1%nat.
Proof.
  exists (PolicySystem_ misclassed_store []), (the_row "0" 1 misclassed_store), (the_row "0" 2 misclassed_store).
  eexists _, _. split; [exact misclassed_reachable|]. split; [by left|]. split; [by right; left|].
  split; [reflexivity|]. split; [reflexivity|]. split; [vm_compute; reflexivity|]. split; [vm_compute; reflexivity|].
  split; [|by vm_compute]. vm_compute. eexists. split; reflexivity.
Qed.

(** ** A schedule another publish overtakes stays SCHEDULED *)

(** While one version of a scope is SCHEDULED, no other can be. *)
Lemma scheduled_blocks s i row stuck activateAt jobId :
  wf s -> In stuck (ps_policies s) -> pr_status stuck = S_SCHEDULED ->
  In row (ps_policies s) -> pr_status row = S_APPROVED -> pr_scopeKey row = pr_scopeKey stuck ->
  is_ok (schedule s i row activateAt jobId) = false.
Proof.
  intros Hwf Hs Hst Hr Hra Hk. unfold schedule. destruct (lifecycle_if _ _); [|done]. cbn [mbind result_bind].
  destruct (write_policies _ s) as [s1|] eqn:E; [|done]. exfalso. unfold write_policies in E.
  rewrite !bind_throw_if_ok in E. destruct E as (_ & E & _). apply negb_false_iff, andb_true_iff in E as [_ E].
  set (rows := update_where _ _ _) in E. set (row' := set_policy_status S_SCHEDULED row).
  assert (Hin : In row' rows).
  { apply update_where_hit; [done|]. unfold has_status. by rewrite Hra, !bool_decide_eq_true_2. }
  assert (Hin2 : In stuck rows).
  { apply update_where_keep; [done|]. unfold has_status. rewrite Hst. apply andb_false_iff. right.
    by rewrite bool_decide_eq_false_2. }
  pose proof (proj1 (forallb_forall _ _) E stuck Hin2) as Hle. apply Z.leb_le in Hle.
  assert (Hone : count_where (fun r' => bool_decide (pr_scopeKey r' = pr_scopeKey stuck) &&
    bool_decide (pr_status r' = S_SCHEDULED)) rows = 1).
  { pose proof (proj2 (count_where_pos (fun r' => bool_decide (pr_scopeKey r' = pr_scopeKey stuck) &&
      bool_decide (pr_status r' = S_SCHEDULED)) rows)) as Hpos.
    enough (0 < count_where (fun r' => bool_decide (pr_scopeKey r' = pr_scopeKey stuck) &&
      bool_decide (pr_status r' = S_SCHEDULED)) rows) by lia.
    apply Hpos. exists stuck. split; [done|]. by rewrite Hst, !bool_decide_eq_true_2. }
  apply count_where_one in Hone as (r & _ & _ & Huniq).
  assert (Hrow : row' = r). { apply Huniq; [done|]. apply andb_true_iff. by rewrite !bool_decide_eq_true. }
  assert (Hstk : stuck = r). { apply Huniq; [done|]. by rewrite Hst, !bool_decide_eq_true_2. }
  assert (row = stuck) as ->; [|congruence].
  apply (same_row s); [done..|]. change (pr_id row) with (pr_id row'). congruence.
Qed.

Definition overtaken_moves : list (Z * Move) := at_noon
  ((create_in any_scope (Some "0") (quiet_until "20:10") "c2" :: approve_moves "0" 2 "b" LATER ++ [publish_by "0" 2 carol "p2"]) ++
   (create_in any_scope (Some "0") (quiet_until "20:15") "c3" :: approve_moves "0" 3 "c" NOON ++ [publish_by "0" 3 carol "p3"])).
Definition overtaken_store : PolicyStore := Eval vm_compute in played (play first_store overtaken_moves).
Lemma overtaken_played : play first_store overtaken_moves = Ok overtaken_store.
Proof. vm_compute. reflexivity. Qed.

(** A version whose schedule can no longer be activated. *)
Lemma closed_job_blocks s i b now :
  (forall j, find_job s (ac_policyId i) (ac_version i) = Some j -> job_open j = false) ->
  is_ok (commit_activateDue s i b now) = false.
Proof.
  intros Hj. unfold commit_activateDue, activation_checks. destruct (lifecycle_if _ _); [|done]. cbn [mbind result_bind].
  destruct (find_job s _ _) as [j|]; [|done]. cbn [from_option mbind result_bind]. by rewrite (Hj j).
Qed.

(** An overtaken schedule shuts its scope's calendar. There is a history in which a version is
    scheduled, a later version of the series is published at once, and the first stays SCHEDULED
    with its job cancelled: no activation of it succeeds any more, at any time, and no APPROVED
    version of the scope can be scheduled. *)
Theorem overtaken_schedule_blocks :
  exists y r, reachable y /\ In r (ps_policies (py_store y)) /\ pr_status r = S_SCHEDULED /\
    (forall i b now, ac_policyId i = pr_policyId r -> ac_version i = pr_version r ->
       is_ok (commit_activateDue (py_store y) i b now) = false) /\
    (forall i row activateAt jobId, In row (ps_policies (py_store y)) -> pr_status row = S_APPROVED ->
       pr_scopeKey row = pr_scopeKey r -> is_ok (schedule (py_store y) i row activateAt jobId) = false).
Proof.
  assert (Hreach : reachable (PolicySystem_ overtaken_store [])).
  { eapply then_reachable; [exact first_reachable|exact overtaken_played]. }
  exists (PolicySystem_ overtaken_store []), (the_row "0" 2 overtaken_store).
  split; [exact Hreach|]. split; [by right; left|]. split; [reflexivity|]. split.
  - intros i b now Hp Hv. apply closed_job_blocks. rewrite Hp, Hv. intros j Hj. vm_compute in Hj.
    injection Hj as <-. reflexivity.
  - intros i row activateAt jobId Hr Hra Hk. eapply scheduled_blocks; [|by right; left|reflexivity|done..].
    apply (reachable_policy_wf demo_fresh_some demo_fresh_inj _ Hreach).
Qed.

(** ** Two publishes that check each other's scope too early *)

(** The series drafted on a scope. *)
Definition series_on (scopeKey : string) (s : PolicyStore) : string :=
  match js_find (fun r => bool_decide (pr_scopeKey r = scopeKey)) (ps_policies s) with
  | Some r => pr_policyId r
  | None => ""
  end.

(** A policy for voice calls and one for contacting people, each drafted on its own scope. *)
Definition skew_drafts_moves : list (Z * Move) := at_noon
  [create_in voice_scope None (quiet_until "20:20") "c1"; create_in person_scope None (quiet_until "20:30") "c2"].
Definition skew_drafts : PolicyStore := Eval vm_compute in played (play empty_policies skew_drafts_moves).
Definition voice_series : string := Eval vm_compute in series_on voice_scope skew_drafts.
Definition person_series : string := Eval vm_compute in series_on person_scope skew_drafts.

(** Both are tested, submitted and approved for noon. *)
Definition skew_moves : list (Z * Move) :=
  skew_drafts_moves ++ at_noon (approve_moves voice_series 1 "a" NOON ++ approve_moves person_series 1 "b" NOON).
Definition skew_store : PolicyStore := Eval vm_compute in played (play empty_policies skew_moves).
Lemma skew_played : play empty_policies skew_moves = Ok skew_store.
Proof. vm_compute. reflexivity. Qed.

(** Each publish reads its candidate, takes the lock of its own scope and makes its checks; then both write. *)
Definition begun_publish (policyId key : string) : pending :=
  let i := publish_input policyId 1 carol key skew_store in
  match begin skew_store (Publish i) with
  | Ok (inr p) => p
  | _ => P_Publish i (snd publish_begun)
  end.
Definition checked_of (p : pending) : pending := default p (check skew_store p noon_ms).
Definition written (p : pending) (s : PolicyStore) : PolicyStore :=
  match commit s p noon_ms with Ok (_, s') => s' | Err _ => s end.

Definition voice_begun : pending := Eval vm_compute in begun_publish voice_series "pv".
Definition person_begun : pending := Eval vm_compute in begun_publish person_series "pp".
Definition voice_checked : pending := Eval vm_compute in checked_of voice_begun.
Definition person_checked : pending := Eval vm_compute in checked_of person_begun.
Definition voice_written : PolicyStore := Eval vm_compute in written voice_checked skew_store.
Definition skewed_store : PolicyStore := Eval vm_compute in written person_checked voice_written.

Lemma voice_begins : begin skew_store (Publish (publish_input voice_series 1 carol "pv" skew_store)) = Ok (inr voice_begun).
Proof. vm_compute. reflexivity. Qed.
Lemma person_begins : begin skew_store (Publish (publish_input person_series 1 carol "pp" skew_store)) = Ok (inr person_begun).
Proof. vm_compute. reflexivity. Qed.
Lemma voice_checks : check skew_store voice_begun noon_ms = Some voice_checked.
Proof. vm_compute. reflexivity. Qed.
Lemma person_checks : check skew_store person_begun noon_ms = Some person_checked.
Proof. vm_compute. reflexivity. Qed.
Lemma voice_writes : exists r, commit skew_store voice_checked noon_ms = Ok (r, voice_written).
Proof. vm_compute. eexists. reflexivity. Qed.
Lemma person_writes : exists r, commit voice_written person_checked noon_ms = Ok (r, skewed_store).
Proof. vm_compute. eexists. reflexivity. Qed.

Lemma skewed_reachable : reachable (PolicySystem_ skewed_store []).
Proof.
  destruct voice_writes as [r1 H1], person_writes as [r2 H2]. unfold reachable.
  etrans; [exact (played_reachable _ _ skew_played)|].
  eapply rtc_l; [exact (step_begin skew_store [] _ _ voice_begins)|].
  eapply rtc_l; [exact (step_begin skew_store [voice_begun] _ _ person_begins)|].
  eapply rtc_l; [exact (step_check skew_store [person_begun] [] voice_begun noon_ms voice_checked voice_checks)|].
  eapply rtc_l; [exact (step_check skew_store [] [voice_checked] person_begun noon_ms person_checked person_checks)|].
  eapply rtc_l; [exact (step_commit skew_store [person_checked] [] voice_checked noon_ms r1 voice_written H1)|].
  apply rtc_once. exact (step_commit voice_written [] [] person_checked noon_ms r2 skewed_store H2).
Qed.

Definition person_call : Cg4PolicyScopeDimensions := Dimensions (Some "VOICE") (Some "PERSON") (Some "MARKETING") (Some "DIALER").

(** Two ambiguous scopes can become ACTIVE. The lock is that of one scope and the isolation that of
    single statements: there is a history in which two publishes on scopes of one rank that both take in
    a request pass their checks before either writes, so that both versions are ACTIVE and the reader
    fails closed on every such request. Had the second checked after the first wrote, it would have been
    refused. *)
Theorem ambiguous_scopes_publish :
  exists y r1 r2, reachable y /\ r1 <> r2 /\ tied (py_store y) person_call r1 r2 /\
    (forall now, exists d, loadCg4PolicyFacts (py_store y) person_call now = READ_FAIL_CLOSED GOVERNANCE_STATE_UNAVAILABLE d) /\
    check voice_written person_begun noon_ms = None.
Proof.
  exists (PolicySystem_ skewed_store []), (the_row voice_series 1 skewed_store), (the_row person_series 1 skewed_store).
  split; [exact skewed_reachable|]. split; [by vm_compute|]. split; [|split].
  - split; [split; [by left|vm_compute; done]|]. split; [split; [by right; left|vm_compute; done]|]. by vm_compute.
  - intros now. eexists. vm_compute. reflexivity.
  - by vm_compute.
Qed.
