(* ===== verification/EventEnvelope.v ===== *)
(** * EventEnvelope: the guard of a canonical event

    [apps/contact-governance/src/cg4-event-envelope.ts], and that the events the policy studio
    writes pass it. *)
From stdpp Require Import base tactics list strings.
From Stdlib Require Import ZArith Lia Ascii.
From S2P Require Import Prelude JsMap Text JsDate JsValue Contracts ScopeKey PolicyDiff Persistence PolicyStore PolicyLifecycle.

Open Scope string_scope.
Open Scope Z_scope.
Open Scope list_scope.

(** [Object.values(CG4_EVENT_TYPES)] *)
Definition EVENT_TYPES : list string := ["exception.changed"; "policy.changed"; "governance.kill-switch.changed"].

Inductive Cg4EnvelopeRejection :=
  | MALFORMED_PAYLOAD | UNSUPPORTED_EVENT_TYPE | UNSUPPORTED_CONTRACT_VERSION
  | UNSUPPORTED_POLICY_SCHEMA_VERSION | UNSUPPORTED_RULE_REGISTRY_VERSION | UNSUPPORTED_EVALUATOR_VERSION
  | RESTRICTED_FIELD_PRESENT.
#[export] Instance Cg4EnvelopeRejection_eq_dec : EqDecision Cg4EnvelopeRejection.
Proof. solve_decision. Defined.

(** An accepted event, or a rejection and the field its detail names. *)
Inductive Cg4EnvelopeParse :=
  | PARSED (eventType : string) (payload : list (string * jsval))
  | REJECTED (reason : Cg4EnvelopeRejection) (field : string).

Definition parse_ok (p : Cg4EnvelopeParse) : bool := match p with PARSED _ _ => true | REJECTED _ _ => false end.

(** ** Restricted keys *)

Definition RESTRICTED_KEYS : list string :=
  ["actorref"; "actorclass"; "approverref"; "makeractorref"; "checkeractorref"; "ticketref"; "evidenceref";
   "clearapprovalref"; "identityvalue"; "email"; "phone"; "phonenumber"; "displayname"; "contactname"; "fullname"].

Definition restricted_key (key : string) : bool := includes RESTRICTED_KEYS (toLowerCase key).

(** The first entry of an object, and the first element of an array, where [find] finds one. *)
Definition find_entry (find : jsval -> string -> option string) (path : string)
  : list (string * jsval) -> option string :=
  fix go (fs : list (string * jsval)) : option string :=
    match fs with
    | [] => None
    | (key, entry) :: fs' =>
        let here := path +:+ "." +:+ key in
        if restricted_key key then Some here
        else match find entry here with
             | Some found => Some found
             | None => go fs'
             end
    end.

Definition find_element (find : jsval -> string -> option string) (path : string)
  : Z -> list jsval -> option string :=
  fix go (index : Z) (l : list jsval) : option string :=
    match l with
    | [] => None
    | entry :: l' =>
        match find entry (path +:+ "[" +:+ show index +:+ "]") with
        | Some found => Some found
        | None => go (index + 1) l'
        end
    end.

(** The path of the first restricted key, depth first. *)
Fixpoint findRestrictedKey (value : jsval) (path : string) : option string :=
  match value with
  | JArr l => find_element findRestrictedKey path 0 l
  | JObj fs | JInstance fs => find_entry findRestrictedKey path fs
  | _ => None
  end.

(** A key at any depth of a value. *)
Definition entries_of (v : jsval) : list (string * jsval) :=
  match v with JObj fs | JInstance fs => fs | _ => [] end.
Definition elements_of (v : jsval) : list jsval := match v with JArr l => l | _ => [] end.

Inductive has_key (key : string) (v : jsval) : Prop :=
  | hk_here entry : In (key, entry) (entries_of v) -> has_key key v
  | hk_under k entry : In (k, entry) (entries_of v) -> has_key key entry -> has_key key v
  | hk_element entry : In entry (elements_of v) -> has_key key entry -> has_key key v.

(** ** The parse *)

Definition is_string (v : jsval) : bool := match v with JStr _ => true | _ => false end.
Definition is_integer (v : jsval) : bool := match v with JNum (NInt _) => true | _ => false end.
(** [v && typeof v === 'object'] *)
Definition is_object (v : jsval) : bool :=
  match v with JArr _ | JObj _ | JInstance _ => true | _ => false end.
Definition is_number (v : jsval) (z : Z) : bool := match v with JNum (NInt n) => n =? z | _ => false end.
Definition is_text (v : jsval) (s : string) : bool := match v with JStr t => bool_decide (t = s) | _ => false end.

Definition STRING_FIELDS : list string :=
  ["subjectId"; "mutationId"; "transitionKind"; "state"; "effectiveAt"; "scopeDigest"; "stateDigest"; "restrictiveness"].

Definition known_restrictiveness (v : jsval) : bool :=
  is_text v "TIGHTENING" || is_text v "NEUTRAL" || is_text v "RELAXATION".

(** The checks of the fields, in order; the first that fails gives the reason. *)
Definition payload_checks (payload : list (string * jsval)) : list (bool * (Cg4EnvelopeRejection * string)) :=
  let get name := field name payload in
  map (fun name => (is_string (get name), (MALFORMED_PAYLOAD, name))) STRING_FIELDS ++
  [(is_integer (get "subjectVersion"), (MALFORMED_PAYLOAD, "subjectVersion"));
   (is_object (get "affectedScope"), (MALFORMED_PAYLOAD, "affectedScope"));
   (known_restrictiveness (get "restrictiveness"), (MALFORMED_PAYLOAD, "restrictiveness"));
   (is_number (get "contractVersion") CG4_CONTRACT_VERSION, (UNSUPPORTED_CONTRACT_VERSION, "contractVersion"));
   (is_number (get "policySchemaVersion") CG4_POLICY_SCHEMA_VERSION,
      (UNSUPPORTED_POLICY_SCHEMA_VERSION, "policySchemaVersion"));
   (is_text (get "ruleRegistryVersion") CG4_RULE_REGISTRY_VERSION,
      (UNSUPPORTED_RULE_REGISTRY_VERSION, "ruleRegistryVersion"));
   (is_text (get "evaluatorVersion") CG4_EVALUATOR_VERSION, (UNSUPPORTED_EVALUATOR_VERSION, "evaluatorVersion"))].

Definition parse_fields (eventType : string) (payload : list (string * jsval)) (value : jsval) : Cg4EnvelopeParse :=
  match js_find (fun c => negb (fst c)) (payload_checks payload) with
  | Some (_, (reason, name)) => REJECTED reason name
  | None => match findRestrictedKey value "payload" with
            | Some path => REJECTED RESTRICTED_FIELD_PRESENT path
            | None => PARSED eventType payload
            end
  end.

Definition parseCg4CanonicalEvent (eventType : string) (payload : jsval) : Cg4EnvelopeParse :=
  if negb (includes EVENT_TYPES eventType) then REJECTED UNSUPPORTED_EVENT_TYPE eventType
  else match payload with
       | JObj fs | JInstance fs => parse_fields eventType fs payload
       | _ => REJECTED MALFORMED_PAYLOAD "payload"
       end.

Definition isCg4ProducerSideRejection (reason : Cg4EnvelopeRejection) : bool :=
  match reason with MALFORMED_PAYLOAD | RESTRICTED_FIELD_PRESENT => true | _ => false end.

(** ** What passes *)

(** No restricted key at any depth. *)
Definition clean (v : jsval) : Prop := forall key, has_key key v -> restricted_key key = false.

Lemma find_entry_spec find path fs :
  Forall (fun f => forall path, find (snd f) path = None <-> clean (snd f)) fs ->
  find_entry find path fs = None <->
  forall key entry, In (key, entry) fs -> restricted_key key = false /\ clean entry.
Proof.
  induction 1 as [|[k v] fs Hv _ IH]; [by split|]. cbn in *. destruct (restricted_key k) eqn:Ek.
  { split; [done|]. intros Hall. destruct (Hall k v (or_introl eq_refl)). congruence. }
  destruct (find v _) as [p|] eqn:Ev.
  - split; [done|]. intros Hall. destruct (Hall k v (or_introl eq_refl)) as [_ Hc].
    apply (proj2 (Hv (path +:+ "." +:+ k))) in Hc. congruence.
  - apply Hv in Ev. rewrite IH. split; [|intros Hall key entry Hin; apply Hall; by right].
    intros Hall key entry [[= <- <-]|Hin]; [done|by apply Hall].
Qed.

Lemma find_element_spec find path index l :
  Forall (fun v => forall path, find v path = None <-> clean v) l ->
  find_element find path index l = None <-> forall entry, In entry l -> clean entry.
Proof.
  intros Hl. revert index. induction Hl as [|v l Hv _ IH]; intros index; [by split|]. cbn.
  destruct (find v _) as [p|] eqn:Ev.
  - split; [done|]. intros Hall. specialize (Hall v (or_introl eq_refl)). eapply Hv in Hall. rewrite Hall in Ev. discriminate.
  - apply Hv in Ev. rewrite IH. split; [|intros Hall entry Hin; apply Hall; by right].
    intros Hall entry [<-|Hin]; [done|by apply Hall].
Qed.

Lemma find_restricted_spec value path : findRestrictedKey value path = None <-> clean value.
Proof.
  revert path. induction value as [| | | | |l IH|fs IH|fs IH] using jsval_nested_ind; intros path;
    cbn [findRestrictedKey]; try (split; [|done]; intros _ key [? []|? ? []|? []]).
  - rewrite (find_element_spec _ _ _ _ IH). split.
    + intros Hall key [? []|? ? []|entry Hin Hk]. by apply (Hall entry).
    + intros Hall entry Hin key Hk. apply Hall. by eapply hk_element.
  - rewrite (find_entry_spec _ _ _ IH). split.
    + intros Hall key [entry Hin|k entry Hin Hk|? []]; [by destruct (Hall key entry Hin)|by apply (proj2 (Hall k entry Hin))].
    + intros Hall key entry Hin. split; [apply Hall; by eapply hk_here|].
      intros key' Hk. apply Hall. by eapply hk_under.
  - rewrite (find_entry_spec _ _ _ IH). split.
    + intros Hall key [entry Hin|k entry Hin Hk|? []]; [by destruct (Hall key entry Hin)|by apply (proj2 (Hall k entry Hin))].
    + intros Hall key entry Hin. split; [apply Hall; by eapply hk_here|].
      intros key' Hk. apply Hall. by eapply hk_under.
Qed.

Definition text_of (v : jsval) : Prop := exists s, v = JStr s.

Lemma is_string_ok v : is_string v = true <-> text_of v.
Proof. unfold text_of. destruct v; cbn; naive_solver. Qed.

Lemma is_integer_ok v : is_integer v = true <-> exists n, v = JNum (NInt n).
Proof. destruct v as [| | |[]| | | |]; cbn; naive_solver. Qed.

Lemma is_number_ok v z : is_number v z = true <-> v = JNum (NInt z).
Proof. destruct v as [| | |[]| | | |]; cbn; rewrite ?Z.eqb_eq; naive_solver. Qed.

Lemma is_text_ok v s : is_text v s = true <-> v = JStr s.
Proof. destruct v; cbn; rewrite ?bool_decide_eq_true; naive_solver. Qed.

Lemma known_ok v : known_restrictiveness v = true <-> exists c, v = JStr (class_text c).
Proof.
  unfold known_restrictiveness. rewrite !orb_true_iff, !is_text_ok. split.
  - intros [[->| ->]| ->]; [by exists C_TIGHTENING|by exists C_NEUTRAL|by exists C_RELAXATION].
  - intros [[] ->]; cbn; tauto.
Qed.

Lemma parse_fields_ok eventType fs value : parse_ok (parse_fields eventType fs value) = true <->
  Forall (fun c => fst c = true) (payload_checks fs) /\ clean value.
Proof.
  unfold parse_fields. rewrite <- (find_restricted_spec value "payload").
  destruct (js_find _ (payload_checks fs)) as [[ok [reason name]]|] eqn:Ef.
  - split; [done|]. intros [Hall _]. apply find_some in Ef as [Hin Ef].
    apply (proj1 (List.Forall_forall _ _) Hall) in Hin. cbn in *. by rewrite Hin in Ef.
  - destruct (findRestrictedKey value "payload"); [by split; [|intros [_ ?]]|]. split; [|done]. intros _. split; [|done].
    apply List.Forall_forall. intros c Hc. apply (find_none _ _ Ef) in Hc. cbn in Hc. by apply negb_false_iff.
Qed.

(** What an accepted event is. An event passes the guard exactly when its type is one of CG4's,
    its payload is an object whose subject, mutation, transition, state, instant and digests are
    strings, whose version is an integer, whose scope is an object and whose restrictiveness is
    known, every version in it is the one this build interprets, and no restricted key stands at
    any depth of it. *)
Theorem event_accepted_iff eventType payload :
  parse_ok (parseCg4CanonicalEvent eventType payload) = true <->
  In eventType EVENT_TYPES /\
  (exists fs, (payload = JObj fs \/ payload = JInstance fs) /\
    Forall (fun name => text_of (field name fs)) STRING_FIELDS /\
    (exists n, field "subjectVersion" fs = JNum (NInt n)) /\
    is_object (field "affectedScope" fs) = true /\
    (exists c, field "restrictiveness" fs = JStr (class_text c)) /\
    field "contractVersion" fs = JNum (NInt CG4_CONTRACT_VERSION) /\
    field "policySchemaVersion" fs = JNum (NInt CG4_POLICY_SCHEMA_VERSION) /\
    field "ruleRegistryVersion" fs = JStr CG4_RULE_REGISTRY_VERSION /\
    field "evaluatorVersion" fs = JStr CG4_EVALUATOR_VERSION) /\
  clean payload.
Proof.
  unfold parseCg4CanonicalEvent. destruct (includes EVENT_TYPES eventType) eqn:Et; cbn [negb].
  2: { split; [done|]. intros (Hin & _). apply includes_spec in Hin. congruence. }
  apply includes_spec in Et.
  assert (Hobj : forall fs, payload = JObj fs \/ payload = JInstance fs ->
    parse_ok (parse_fields eventType fs payload) = true <->
    Forall (fun name => text_of (field name fs)) STRING_FIELDS /\
    (exists n, field "subjectVersion" fs = JNum (NInt n)) /\ is_object (field "affectedScope" fs) = true /\
    (exists c, field "restrictiveness" fs = JStr (class_text c)) /\
    field "contractVersion" fs = JNum (NInt CG4_CONTRACT_VERSION) /\
    field "policySchemaVersion" fs = JNum (NInt CG4_POLICY_SCHEMA_VERSION) /\
    field "ruleRegistryVersion" fs = JStr CG4_RULE_REGISTRY_VERSION /\
    field "evaluatorVersion" fs = JStr CG4_EVALUATOR_VERSION /\ clean payload).
  { intros fs _. rewrite parse_fields_ok. unfold payload_checks.
    rewrite Forall_app, Forall_map, !Forall_cons, Forall_nil. cbn [fst].
    rewrite is_integer_ok, known_ok, !is_number_ok, !is_text_ok.
    assert (Forall (fun name => is_string (field name fs) = true) STRING_FIELDS <->
            Forall (fun name => text_of (field name fs)) STRING_FIELDS) as <-; [|tauto].
    apply Forall_iff. intros name. apply is_string_ok. }
  destruct payload as [| | | | | |fs|fs]; try (split; [done|]; intros (_ & (fs & [?|?] & _) & _); done).
  - rewrite Hobj by by left. split; [naive_solver|]. intros (_ & (fs' & [[= <-]|?] & Hf) & Hc); [tauto|done].
  - rewrite Hobj by by right. split; [naive_solver|]. intros (_ & (fs' & [?|[= <-]] & Hf) & Hc); [done|tauto].
Qed.

(** ** What the studio writes *)

Section Producers.
Context `{Runtime, Host}.

Definition accepted (e : PolicyEvent) : Prop :=
  parse_ok (parseCg4CanonicalEvent (pe_eventType e) (pe_payload e)) = true.

Lemma head_payload_accepted m digest next :
  parse_ok (parseCg4CanonicalEvent "policy.changed" (head_payload m digest next)) = true.
Proof.
  unfold head_payload, scope_fields. generalize (cg4EventScopeDimensions (mv_scopeKey m)). intros [a b c d].
  destruct (mv_activate m), (mv_diffClass m), next, a, b, c, d; lazy; reflexivity.
Qed.

Lemma kill_switch_accepted tenantId scopeKey id active mutationId eventId occurredAt :
  accepted (cg4KillSwitchEvent tenantId scopeKey id active mutationId eventId occurredAt).
Proof.
  unfold accepted, cg4KillSwitchEvent, scope_fields. cbn [pe_eventType pe_payload].
  generalize (cg4EventScopeDimensions scopeKey). intros [a b c d]. destruct active, a, b, c, d; lazy; reflexivity.
Qed.
End Producers.
