(* ===== verification/EventInbox.v ===== *)
(** * EventInbox: the consumer side of the event stream

    [apps/contact-governance/src/cg4-inbox.ts] and [Cg4ConsumerInbox] of
    [cg4-consumer-inbox.ts], over the rows of one tenant and one consumer group. The projection a
    consumer updates in the transaction of an applied event is a parameter, with the update it
    passes to [record]. *)
From stdpp Require Import base tactics list strings.
From Stdlib Require Import ZArith Lia.
From S2P Require Import Prelude JsMap Text JsDate JsValue Contracts Persistence PolicyStore EventEnvelope.

Open Scope string_scope.
Open Scope Z_scope.
Open Scope list_scope.

(** ** The decision *)

Record Cg4InboxCursor := Cursor { cu_aggregateVersion : Z; cu_payloadHash : string }.

Inductive Cg4InboxDecision :=
  | D_APPLY
  | D_DUPLICATE
  | D_QUARANTINE (version : Z)
  | D_GAP (expectedVersion receivedVersion : Z)
  | D_OUT_OF_ORDER (appliedVersion receivedVersion : Z)
  | D_UNSUPPORTED (reason : Cg4EnvelopeRejection) (detail : string).

#[export] Instance Cg4InboxDecision_eq_dec : EqDecision Cg4InboxDecision.
Proof. solve_decision. Defined.

Definition cg4InboxDecisionPausesScope (d : Cg4InboxDecision) : bool :=
  match d with D_APPLY | D_DUPLICATE => false | _ => true end.

Definition classifyCg4InboundEvent (cursor : option Cg4InboxCursor) (incoming : Cg4InboxCursor)
  (parse : Cg4EnvelopeParse) : Cg4InboxDecision :=
  let version := cu_aggregateVersion incoming in
  match parse with
  | REJECTED reason detail => D_UNSUPPORTED reason detail
  | PARSED _ _ =>
      match cursor with
      | None => if version =? 1 then D_APPLY else D_GAP 1 version
      | Some c =>
          let applied := cu_aggregateVersion c in
          if version =? applied then
            if bool_decide (cu_payloadHash incoming = cu_payloadHash c) then D_DUPLICATE else D_QUARANTINE version
          else if version =? applied + 1 then D_APPLY
          else if applied <? version then D_GAP (applied + 1) version
          else D_OUT_OF_ORDER applied version
      end
  end.

Inductive Cg4ScopePauseReason := EVENT_GAP | EVENT_OUT_OF_ORDER | HASH_CONFLICT | UNSUPPORTED_CONTRACT.
#[export] Instance Cg4ScopePauseReason_eq_dec : EqDecision Cg4ScopePauseReason.
Proof. solve_decision. Defined.

Definition cg4PauseReasonFor (d : Cg4InboxDecision) : option Cg4ScopePauseReason :=
  match d with
  | D_GAP _ _ => Some EVENT_GAP
  | D_OUT_OF_ORDER _ _ => Some EVENT_OUT_OF_ORDER
  | D_QUARANTINE _ => Some HASH_CONFLICT
  | D_UNSUPPORTED _ _ => Some UNSUPPORTED_CONTRACT
  | D_APPLY | D_DUPLICATE => None
  end.

(** ** The tables *)

Inductive CgAggregateType := CONTACT | POLICY.
#[export] Instance CgAggregateType_eq_dec : EqDecision CgAggregateType.
Proof. solve_decision. Defined.

Inductive CgScopePauseKind := K_CONTACT | K_POLICY_SCOPE.
#[export] Instance CgScopePauseKind_eq_dec : EqDecision CgScopePauseKind.
Proof. solve_decision. Defined.

Inductive CgInboxState := I_APPLIED | I_DUPLICATE | I_GAP_HELD | I_OUT_OF_ORDER | I_QUARANTINED | I_UNSUPPORTED.
#[export] Instance CgInboxState_eq_dec : EqDecision CgInboxState.
Proof. solve_decision. Defined.

Definition INBOX_STATE (d : Cg4InboxDecision) : CgInboxState :=
  match d with
  | D_APPLY => I_APPLIED
  | D_DUPLICATE => I_DUPLICATE
  | D_GAP _ _ => I_GAP_HELD
  | D_OUT_OF_ORDER _ _ => I_OUT_OF_ORDER
  | D_QUARANTINE _ => I_QUARANTINED
  | D_UNSUPPORTED _ _ => I_UNSUPPORTED
  end.

(** What the [detail] column says: the decision it was written for, or a reload. *)
Inductive InboxDetail := ID_decision (d : Cg4InboxDecision) | ID_canonical_reload.

Definition detailOf (d : Cg4InboxDecision) : option InboxDetail :=
  if cg4InboxDecisionPausesScope d then Some (ID_decision d) else None.

Record InboxRow := InboxRow_ {
  ib_id : string;
  ib_eventId : string;
  ib_aggregateType : CgAggregateType;
  ib_aggregateId : string;
  ib_aggregateVersion : Z;
  ib_eventType : string;
  ib_payloadHash : string;
  ib_state : CgInboxState;
  ib_detail : option InboxDetail;
  ib_receivedAt : Z;
}.

Record Cg4ScopeRef := ScopeRef { sr_kind : CgScopePauseKind; sr_ref : string }.
#[export] Instance Cg4ScopeRef_eq_dec : EqDecision Cg4ScopeRef.
Proof. solve_decision. Defined.

Record ScopePause := ScopePause_ {
  sp_id : string;
  sp_scope : Cg4ScopeRef;
  sp_active : bool;
  sp_reason : Cg4ScopePauseReason;
  sp_detail : option InboxDetail;
  sp_eventId : string;
  sp_observedVersion : Z;
  sp_expectedVersion : option Z;
  sp_pausedAt : Z;
  sp_clearedAt : option Z;
  sp_clearedToVersion : option Z;
}.

Record Cg4InboundEvent := InboundEvent {
  ie_eventId : string;
  ie_eventType : string;
  ie_aggregateType : CgAggregateType;
  ie_aggregateId : string;
  ie_aggregateVersion : Z;
  ie_payloadHash : string;
  ie_payload : jsval;
  ie_receivedAt : Z;
}.

(** [value?.[key]] of an object. *)
Definition property (key : string) (v : jsval) : jsval := field key (entries_of v).

Definition cg4ScopeRefFor (e : Cg4InboundEvent) : Cg4ScopeRef :=
  match ie_aggregateType e with
  | CONTACT => ScopeRef K_CONTACT (ie_aggregateId e)
  | POLICY =>
      ScopeRef K_POLICY_SCOPE
        match property "scopeKey" (property "affectedScope" (ie_payload e)) with
        | JStr s => if bool_decide (s = "") then ie_aggregateId e else s
        | _ => ie_aggregateId e
        end
  end.

(** [cg_consumer_inbox_hash_check] and [cg_consumer_inbox_version_check] *)
Definition hash_ok (s : string) : bool := Nat.eqb (String.length s) 64 && string_forall is_lower_hex s.

Inductive InboxError (E : Type) := INBOX_CHECK_VIOLATION | APPLY_FAILED (e : E).
Arguments INBOX_CHECK_VIOLATION {E}.
Arguments APPLY_FAILED {E} e.

Section Inbox.
Context `{Host} {P F : Type}.

(** One consumer group's rows, its holds and the projection it keeps. *)
Record Inbox := Inbox_ {
  in_rows : list InboxRow;
  in_pauses : list ScopePause;
  in_projection : P;
  in_nextId : nat;
}.

Record Cg4InboxOutcome := InboxOutcome {
  io_decision : Cg4InboxDecision;
  io_recorded : bool;
  io_inboxId : string;
  io_pauseId : option string;
  io_applied : bool;
}.

(** [record] with an [apply] that rewrites the projection, or fails the transaction. *)
Context (parse : string -> jsval -> Cg4EnvelopeParse).
Context (apply : P -> Cg4InboundEvent -> result F P).

Definition of_aggregate (t : CgAggregateType) (id : string) (r : InboxRow) : bool :=
  bool_decide (ib_aggregateType r = t) && bool_decide (ib_aggregateId r = id).

Definition is_applied (r : InboxRow) : bool := bool_decide (ib_state r = I_APPLIED).

(** [orderBy: { aggregateVersion: 'desc' }]: the APPLIED rows of an aggregate have versions of their own. *)
Definition applied_rows (s : Inbox) (t : CgAggregateType) (id : string) : list InboxRow :=
  js_filter (fun r => of_aggregate t id r && is_applied r) (in_rows s).

Definition highest (rows : list InboxRow) : option InboxRow :=
  fold_left (fun best r =>
    match best with
    | Some b => if ib_aggregateVersion b <? ib_aggregateVersion r then Some r else Some b
    | None => Some r
    end) rows None.

Definition cursor_of (s : Inbox) (t : CgAggregateType) (id : string) : option Cg4InboxCursor :=
  (fun r => Cursor (ib_aggregateVersion r) (ib_payloadHash r)) <$> highest (applied_rows s t id).

Definition open_pause (s : Inbox) (scope : Cg4ScopeRef) : option ScopePause :=
  js_find (fun p => bool_decide (sp_scope p = scope) && sp_active p) (in_pauses s).

Definition expected_of (d : Cg4InboxDecision) : option Z :=
  match d with D_GAP expected _ => Some expected | _ => None end.

(** A second anomaly refreshes the hold it finds; its expected version stays where the new one has
    none. *)
Definition refresh (reason : Cg4ScopePauseReason) (d : Cg4InboxDecision) (e : Cg4InboundEvent) (p : ScopePause)
  : ScopePause :=
  ScopePause_ (sp_id p) (sp_scope p) (sp_active p) reason
    (match detailOf d with Some x => Some x | None => sp_detail p end) (ie_eventId e) (ie_aggregateVersion e)
    (match expected_of d with Some x => Some x | None => sp_expectedVersion p end) (sp_pausedAt p)
    (sp_clearedAt p) (sp_clearedToVersion p).

Definition pauseScope (s : Inbox) (d : Cg4InboxDecision) (reason : Cg4ScopePauseReason) (e : Cg4InboundEvent)
  (now : Z) : string * Inbox :=
  let scope := cg4ScopeRefFor e in
  match open_pause s scope with
  | Some p =>
      (sp_id p, Inbox_ (in_rows s)
         (update_where (fun q => bool_decide (sp_id q = sp_id p)) (refresh reason d e) (in_pauses s))
         (in_projection s) (in_nextId s))
  | None =>
      let id := fresh (in_nextId s) in
      (id, Inbox_ (in_rows s)
         (in_pauses s ++ [ScopePause_ id scope true reason (detailOf d) (ie_eventId e) (ie_aggregateVersion e)
                            (expected_of d) now None None])
         (in_projection s) (S (in_nextId s)))
  end.

(** [cgConsumerInbox.create], whose rows are checked. *)
Definition insert_row (s : Inbox) (r : InboxRow) : result (InboxError F) Inbox :=
  throw_if (negb (hash_ok (ib_payloadHash r) && (0 <=? ib_aggregateVersion r))) INBOX_CHECK_VIOLATION ;;
  Ok (Inbox_ (in_rows s ++ [r]) (in_pauses s) (in_projection s) (S (in_nextId s))).

Definition find_event (s : Inbox) (eventId : string) : option InboxRow :=
  js_find (fun r => bool_decide (ib_eventId r = eventId)) (in_rows s).

Definition decide_event (s : Inbox) (e : Cg4InboundEvent) : Cg4InboxDecision :=
  classifyCg4InboundEvent (cursor_of s (ie_aggregateType e) (ie_aggregateId e))
    (Cursor (ie_aggregateVersion e) (ie_payloadHash e)) (parse (ie_eventType e) (ie_payload e)).

Definition apply_event (s : Inbox) (d : Cg4InboxDecision) (e : Cg4InboundEvent) : result (InboxError F) Inbox :=
  match d with
  | D_APPLY =>
      match apply (in_projection s) e with
      | Ok p => Ok (Inbox_ (in_rows s) (in_pauses s) p (in_nextId s))
      | Err x => Err (APPLY_FAILED x)
      end
  | _ => Ok s
  end.

Definition hold (s : Inbox) (d : Cg4InboxDecision) (e : Cg4InboundEvent) (now : Z) : option string * Inbox :=
  match cg4PauseReasonFor d with
  | Some reason => let '(id, s') := pauseScope s d reason e now in (Some id, s')
  | None => (None, s)
  end.

Definition record (s : Inbox) (e : Cg4InboundEvent) (now : Z) : result (InboxError F) (Cg4InboxOutcome * Inbox) :=
  match find_event s (ie_eventId e) with
  | Some existing =>
      Ok (InboxOutcome D_DUPLICATE false (ib_id existing) None (is_applied existing), s)
  | None =>
      let d := decide_event s e in
      let id := fresh (in_nextId s) in
      s1 ← insert_row s (InboxRow_ id (ie_eventId e) (ie_aggregateType e) (ie_aggregateId e)
                           (ie_aggregateVersion e) (ie_eventType e) (ie_payloadHash e) (INBOX_STATE d)
                           (detailOf d) (ie_receivedAt e));
      s2 ← apply_event s1 d e;
      let '(pauseId, s3) := hold s2 d e now in
      Ok (InboxOutcome d true id pauseId (match d with D_APPLY => true | _ => false end), s3)
  end.

Definition isPaused (s : Inbox) (scope : Cg4ScopeRef) : bool := bool_decide (is_Some (open_pause s scope)).

Definition activePauses (s : Inbox) : list ScopePause :=
  sort_by (fun a b => sp_pausedAt a <=? sp_pausedAt b) (js_filter sp_active (in_pauses s)).

(** ** [resumeFromCanonical] *)

Record ResumeInput := ResumeInput_ {
  rs_scope : Cg4ScopeRef;
  rs_aggregateType : CgAggregateType;
  rs_aggregateId : string;
  rs_canonicalVersion : Z;
  rs_canonicalDigest : string;
  rs_eventType : string;
}.

Definition clear_pause (now : Z) (version : Z) (p : ScopePause) : ScopePause :=
  ScopePause_ (sp_id p) (sp_scope p) false (sp_reason p) (sp_detail p) (sp_eventId p) (sp_observedVersion p)
    (sp_expectedVersion p) (sp_pausedAt p) (Some now) (Some version).

Definition holds_scope (scope : Cg4ScopeRef) (p : ScopePause) : bool :=
  bool_decide (sp_scope p = scope) && sp_active p.

Definition resumeFromCanonical (s : Inbox) (i : ResumeInput) (now : Z)
  : result (InboxError F) (Z * Z * Inbox) :=
  let at_version r := of_aggregate (rs_aggregateType i) (rs_aggregateId i) r &&
                      (ib_aggregateVersion r =? rs_canonicalVersion i) && is_applied r in
  s1 ← (if js_some at_version (in_rows s) then Ok s
        else
          s' ← insert_row s (InboxRow_ (fresh (in_nextId s)) (fresh (S (in_nextId s))) (rs_aggregateType i)
                 (rs_aggregateId i) (rs_canonicalVersion i) (rs_eventType i) (rs_canonicalDigest i) I_APPLIED
                 (Some ID_canonical_reload) now);
          Ok (Inbox_ (in_rows s') (in_pauses s') (in_projection s') (S (in_nextId s'))));
  Ok (count_where (holds_scope (rs_scope i)) (in_pauses s1), rs_canonicalVersion i,
      Inbox_ (in_rows s1) (update_where (holds_scope (rs_scope i)) (clear_pause now (rs_canonicalVersion i)) (in_pauses s1))
        (in_projection s1) (in_nextId s1)).

(** ** Cursors *)

Lemma highest_spec rows : match highest rows with
  | None => rows = []
  | Some r => In r rows /\ forall x, In x rows -> ib_aggregateVersion x <= ib_aggregateVersion r
  end.
Proof.
  unfold highest. induction rows as [|x rows IH] using rev_ind; [done|]. rewrite fold_left_app. cbn.
  destruct (fold_left _ rows None) as [b|].
  - destruct IH as [Hb Hmax]. destruct (Z.ltb_spec (ib_aggregateVersion b) (ib_aggregateVersion x)).
    + split; [apply in_app_iff; right; by left|]. intros y Hy. apply in_app_iff in Hy as [Hy|[<-|[]]]; [|lia].
      specialize (Hmax y Hy). lia.
    + split; [apply in_app_iff; by left|]. intros y Hy. apply in_app_iff in Hy as [Hy|[<-|[]]]; [auto|lia].
  - subst rows. split; [by left|]. intros y [<-|[]]. lia.
Qed.

(** The version a consumer has applied up to: none is 0. *)
Definition applied_version (s : Inbox) (t : CgAggregateType) (id : string) : Z :=
  match cursor_of s t id with Some c => cu_aggregateVersion c | None => 0 end.

(** ** Holds *)

Lemma open_pause_active s scope : is_Some (open_pause s scope) <->
  exists p, In p (in_pauses s) /\ sp_scope p = scope /\ sp_active p = true.
Proof.
  unfold open_pause. split.
  - intros [p Hp]. apply find_some in Hp as [Hp Hc]. bool_prop. by exists p.
  - intros (p & Hp & Hs & Ha). destruct (js_find _ _) as [q|] eqn:E; [by eexists|].
    apply (find_none _ _ E) in Hp. by rewrite bool_decide_eq_true_2, Ha in Hp.
Qed.

Lemma paused_iff s scope : isPaused s scope = true <->
  exists p, In p (in_pauses s) /\ sp_scope p = scope /\ sp_active p = true.
Proof. unfold isPaused. by rewrite bool_decide_eq_true, open_pause_active. Qed.

Lemma pauses_rows s s' : in_pauses s' = in_pauses s -> forall scope, isPaused s' scope = isPaused s scope.
Proof. unfold isPaused, open_pause. by intros ->. Qed.

(** A hold opens its scope's pause and no other. *)
Lemma pauseScope_paused s d reason e now scope :
  isPaused (snd (pauseScope s d reason e now)) scope = isPaused s scope || bool_decide (scope = cg4ScopeRefFor e).
Proof.
  unfold pauseScope. apply eq_true_iff_eq. rewrite orb_true_iff, bool_decide_eq_true.
  destruct (open_pause s (cg4ScopeRefFor e)) as [p|] eqn:Eo; cbn [snd].
  - assert (Hp : isPaused s (cg4ScopeRefFor e) = true) by (unfold isPaused; rewrite Eo; by apply bool_decide_eq_true_2).
    rewrite !paused_iff in *. cbn. split.
    + intros (q & Hq & Hs & Ha). apply update_where_In in Hq as (r & Hr & ->). left. exists r.
      by destruct (bool_decide _).
    + intros [(q & Hq & Hs & Ha)| ->]; [|destruct Hp as (q & Hq & Hs & Ha)];
        (destruct (bool_decide (sp_id q = sp_id p)) eqn:Eq;
          [exists (refresh reason d e q); split; [by apply update_where_hit|done]|
           exists q; split; [by apply update_where_keep|done]]).
  - rewrite !paused_iff. cbn. setoid_rewrite in_app_iff. split.
    + intros (q & [Hq|[<-|[]]] & Hs & Ha); [left; by exists q|right; by symmetry].
    + intros [(q & Hq & Hs & Ha)| ->]; [exists q; auto|]. eexists. split; [right; by left|]. done.
Qed.

Lemma insert_row_ok s r s' : insert_row s r = Ok s' ->
  hash_ok (ib_payloadHash r) = true /\ 0 <= ib_aggregateVersion r /\
  s' = Inbox_ (in_rows s ++ [r]) (in_pauses s) (in_projection s) (S (in_nextId s)).
Proof.
  unfold insert_row. rewrite bind_throw_if_ok, negb_false_iff, andb_true_iff, Z.leb_le. intros [[? ?] [= <-]]. done.
Qed.

(** What one new event leaves. *)
Lemma record_new s e now o s' : find_event s (ie_eventId e) = None -> record s e now = Ok (o, s') ->
  let d := decide_event s e in
  io_decision o = d /\ io_recorded o = true /\ hash_ok (ie_payloadHash e) = true /\ 0 <= ie_aggregateVersion e /\
  (exists r, in_rows s' = in_rows s ++ [r] /\ ib_eventId r = ie_eventId e /\ ib_state r = INBOX_STATE d /\
     ib_aggregateType r = ie_aggregateType e /\ ib_aggregateId r = ie_aggregateId e /\
     ib_aggregateVersion r = ie_aggregateVersion e /\ ib_payloadHash r = ie_payloadHash e) /\
  (forall scope, isPaused s' scope = isPaused s scope ||
     (cg4InboxDecisionPausesScope d && bool_decide (scope = cg4ScopeRefFor e))) /\
  (cg4InboxDecisionPausesScope d = false -> in_pauses s' = in_pauses s) /\
  match d with D_APPLY => apply (in_projection s) e = Ok (in_projection s') | _ => in_projection s' = in_projection s end.
Proof.
  unfold record. intros ->. cbv zeta. set (d := decide_event s e). intros E. open_bind E s1 H1. open_bind E s2 H2.
  apply insert_row_ok in H1 as (Hh & Hv & ->). cbn [ib_payloadHash ib_aggregateVersion] in *.
  assert (Hs2 : in_rows s2 = in_rows s ++ [InboxRow_ (fresh (in_nextId s)) (ie_eventId e) (ie_aggregateType e)
      (ie_aggregateId e) (ie_aggregateVersion e) (ie_eventType e) (ie_payloadHash e) (INBOX_STATE d) (detailOf d)
      (ie_receivedAt e)] /\ in_pauses s2 = in_pauses s /\
    match d with D_APPLY => apply (in_projection s) e = Ok (in_projection s2) | _ => in_projection s2 = in_projection s end).
  { unfold apply_event in H2. destruct d; try (by injection H2 as <-). cbn in H2.
    destruct (apply (in_projection s) e); [by injection H2 as <-|done]. }
  destruct Hs2 as (Hr & Hp & Hproj).
  assert (Hold : in_rows s' = in_rows s2 /\ in_projection s' = in_projection s2 /\ io_decision o = d /\
    io_recorded o = true /\ (forall scope, isPaused s' scope = isPaused s scope ||
     (cg4InboxDecisionPausesScope d && bool_decide (scope = cg4ScopeRefFor e))) /\
    (cg4InboxDecisionPausesScope d = false -> in_pauses s' = in_pauses s)).
  { unfold hold in E. destruct (cg4PauseReasonFor d) as [reason|] eqn:Er.
    - pose proof (pauseScope_paused s2 d reason e now) as Hps.
      assert (Hpr : in_rows (snd (pauseScope s2 d reason e now)) = in_rows s2 /\
        in_projection (snd (pauseScope s2 d reason e now)) = in_projection s2).
      { unfold pauseScope. by destruct (open_pause _ _). }
      destruct (pauseScope s2 d reason e now) as [pid s3]. injection E as <- <-. cbn in *.
      destruct Hpr as [-> ->]. assert (cg4InboxDecisionPausesScope d = true) as -> by by destruct d.
      split_and!; try done. intros scope. by rewrite Hps, (pauses_rows s s2 Hp).
    - injection E as <- <-. assert (cg4InboxDecisionPausesScope d = false) as -> by by destruct d.
      split_and!; try done. intros scope. by rewrite orb_false_r, (pauses_rows s s2 Hp). }
  destruct Hold as (-> & -> & -> & -> & Hpaused & Hsame). split_and!; try done.
  eexists. split; [exact Hr|]. done.
Qed.

Lemma record_seen s e now r : find_event s (ie_eventId e) = Some r ->
  record s e now = Ok (InboxOutcome D_DUPLICATE false (ib_id r) None (is_applied r), s).
Proof. unfold record. by intros ->. Qed.

(** *** What a consumer does with a stream *)

(** Deliveries, one after the other; one that fails leaves the inbox as it was. *)
Fixpoint consume (s : Inbox) (es : list (Cg4InboundEvent * Z)) : Inbox :=
  match es with
  | [] => s
  | (e, now) :: es' =>
      match record s e now with
      | Ok (_, s') => consume s' es'
      | Err _ => consume s es'
      end
  end.

Definition empty_inbox (p0 : P) : Inbox := Inbox_ [] [] p0 0.

(** The projection of a list of events. *)
Fixpoint project (p : P) (es : list Cg4InboundEvent) : result F P :=
  match es with
  | [] => Ok p
  | e :: es' => p' ← apply p e; project p' es'
  end.

Definition event_of (t : CgAggregateType) (id : string) (e : Cg4InboundEvent) : bool :=
  bool_decide (ie_aggregateType e = t) && bool_decide (ie_aggregateId e = id).

Definition versions_of (t : CgAggregateType) (id : string) (es : list Cg4InboundEvent) : list Z :=
  map ie_aggregateVersion (js_filter (event_of t id) es).

(** [1, 2, ..., n] *)
Definition one_to (n : nat) : list Z := map Z.of_nat (seq 1 n).
Definition gapless (l : list Z) : Prop := l = one_to (length l).

(** The inbox holds the history of [es]: applied in this order, each version of an aggregate once. *)
Record holds_stream (p0 : P) (s : Inbox) (es : list Cg4InboundEvent) : Prop := {
  hs_projection : project p0 es = Ok (in_projection s);
  hs_ids : List.NoDup (map ie_eventId es);
  hs_seen : forall e, In e es -> In (ie_eventId e) (map ib_eventId (in_rows s));
  hs_rows : forall t id, map ib_aggregateVersion (applied_rows s t id) = versions_of t id es;
  hs_versions : forall t id, gapless (versions_of t id es);
}.

Lemma one_to_snoc n : one_to (S n) = one_to n ++ [Z.of_nat (S n)].
Proof. unfold one_to. by rewrite seq_S, map_app. Qed.

Lemma gapless_app l n : gapless (l ++ [n]) <-> gapless l /\ n = Z.of_nat (S (length l)).
Proof.
  unfold gapless. rewrite length_app, Nat.add_1_r, one_to_snoc. split.
  - intros Hl. by apply app_inj_tail in Hl.
  - by intros [<- ->].
Qed.

Lemma versions_app t id es e : versions_of t id (es ++ [e]) =
  if event_of t id e then versions_of t id es ++ [ie_aggregateVersion e] else versions_of t id es.
Proof.
  unfold versions_of. rewrite List.filter_app, map_app. cbn. destruct (event_of t id e); [done|]. by rewrite app_nil_r.
Qed.

(** Where an aggregate's history is 1..n, the cursor is n. *)
Lemma cursor_gapless s t id l : map ib_aggregateVersion (applied_rows s t id) = l -> gapless l ->
  match cursor_of s t id with
  | Some c => cu_aggregateVersion c = Z.of_nat (length l) /\ 0 < Z.of_nat (length l)
  | None => l = []
  end.
Proof.
  unfold cursor_of. intros Hl Hg. pose proof (highest_spec (applied_rows s t id)) as Hh.
  destruct (highest (applied_rows s t id)) as [r|]; cbn; [|by rewrite Hh in Hl].
  destruct Hh as [Hin Hmax]. assert (Hr : In (ib_aggregateVersion r) l) by (rewrite <- Hl; by apply in_map).
  rewrite Hg in Hr. unfold one_to in Hr. apply in_map_iff in Hr as (k & Hk & Hr). apply in_seq in Hr.
  assert (Hlast : In (Z.of_nat (length l)) l).
  { rewrite Hg. unfold one_to. rewrite length_map, length_seq. apply in_map_iff. exists (length l). split; [done|].
    apply in_seq. lia. }
  rewrite <- Hl in Hlast. apply in_map_iff in Hlast as (x & Hx & Hin2). specialize (Hmax x Hin2).
  rewrite Hl in Hx. lia.
Qed.

Lemma decide_apply s e : decide_event s e = D_APPLY <->
  parse_ok (parse (ie_eventType e) (ie_payload e)) = true /\
  match cursor_of s (ie_aggregateType e) (ie_aggregateId e) with
  | Some c => ie_aggregateVersion e = cu_aggregateVersion c + 1
  | None => ie_aggregateVersion e = 1
  end.
Proof.
  unfold decide_event, classifyCg4InboundEvent. destruct (parse _ _); cbn; [|split; [done|by intros []]].
  destruct (cursor_of s _ _) as [c|]; cbn.
  - destruct (Z.eqb_spec (ie_aggregateVersion e) (cu_aggregateVersion c));
      [case_bool_decide; (split; [done|]; intros [_ ?]; lia)|].
    destruct (Z.eqb_spec (ie_aggregateVersion e) (cu_aggregateVersion c + 1)); [done|].
    destruct (_ <? _); (split; [done|]; intros [_ ?]; lia).
  - destruct (Z.eqb_spec (ie_aggregateVersion e) 1); [done|]. split; [done|]. intros [_ ?]. lia.
Qed.

Lemma applied_rows_snoc s s' r t id : in_rows s' = in_rows s ++ [r] ->
  applied_rows s' t id = applied_rows s t id ++ (if of_aggregate t id r && is_applied r then [r] else []).
Proof. unfold applied_rows. intros ->. by rewrite List.filter_app. Qed.

Lemma project_app p es es' : project p (es ++ es') = (p' ← project p es; project p' es').
Proof. revert p. induction es as [|e es IH]; intros p; [done|]. cbn. by destruct (apply p e); cbn. Qed.

(** One delivery extends the history by its event, or leaves it. *)
Lemma record_holds p0 s es e now o s' : holds_stream p0 s es -> record s e now = Ok (o, s') ->
  holds_stream p0 s' es \/ (holds_stream p0 s' (es ++ [e]) /\ decide_event s e = D_APPLY).
Proof.
  intros [Hp Hids Hseen Hrows Hv] E. destruct (find_event s (ie_eventId e)) as [x|] eqn:Ef.
  { rewrite (record_seen _ _ _ _ Ef) in E. injection E as _ <-. by left. }
  apply record_new in E as (_ & _ & _ & _ & (r & Hr & Hid & Hst & Ht & Ha & Hver & _) & _ & _ & Hproj); [|done].
  cbv zeta in *. assert (Hkeep : forall e', In e' es -> In (ie_eventId e') (map ib_eventId (in_rows s'))).
  { intros e' He'. rewrite Hr, map_app. apply in_app_iff. left. by apply Hseen. }
  destruct (decide (decide_event s e = D_APPLY)) as [Hd|Hd].
  - right. split; [|done]. rewrite Hd in *. split.
    + rewrite project_app, Hp. cbn. by rewrite Hproj.
    + rewrite map_app. apply List.NoDup_app; [done|repeat constructor; cbn; tauto|]. cbn. intros x Hx [<-|[]].
      apply in_map_iff in Hx as (e' & He' & Hin). apply Hseen in Hin. rewrite He' in Hin.
      apply in_map_iff in Hin as (q & Hq & Hin). apply (find_none _ _ Ef) in Hin. by bool_prop.
    + intros e' He'. apply in_app_iff in He' as [?|[<-|[]]]; [by apply Hkeep|]. rewrite Hr, map_app, <- Hid.
      apply in_app_iff. right. by left.
    + intros t id. rewrite (applied_rows_snoc _ _ _ _ _ Hr), map_app, Hrows, versions_app. unfold of_aggregate, event_of, is_applied.
      rewrite Ht, Ha, Hst. cbn. rewrite andb_true_r. destruct (_ && _); cbn; [by rewrite Hver|by rewrite app_nil_r].
    + intros t id. rewrite versions_app. destruct (event_of t id e) eqn:Ee; [|done]. apply gapless_app. split; [done|].
      unfold event_of in Ee. bool_prop. subst t id. apply decide_apply in Hd as [_ Hd].
      pose proof (cursor_gapless s (ie_aggregateType e) (ie_aggregateId e) _ (Hrows _ _) (Hv _ _)) as Hc.
      destruct (cursor_of s _ _) as [c|]; [lia|]. by rewrite Hc.
  - left. split; [|done|done| |done].
    + destruct (decide_event s e); try done; by rewrite Hproj.
    + intros t id. rewrite (applied_rows_snoc _ _ _ _ _ Hr), <- Hrows. unfold is_applied. rewrite Hst.
      destruct (decide_event s e); try done; rewrite andb_false_r; by rewrite app_nil_r.
Qed.

Lemma consume_holds p0 ds : forall s es, holds_stream p0 s es ->
  exists new, new `sublist_of` map fst ds /\ holds_stream p0 (consume s ds) (es ++ new).
Proof.
  induction ds as [|[e now] ds IH]; intros s es Hs; cbn.
  { exists []. rewrite app_nil_r. split; [constructor|done]. }
  destruct (record s e now) as [[o s']|] eqn:Er.
  - destruct (record_holds _ _ _ _ _ _ _ Hs Er) as [Hs'|[Hs' _]]; apply IH in Hs' as (new & Hsub & Hh).
    + exists new. split; [by constructor|done].
    + exists (e :: new). split; [by constructor|]. by rewrite <- app_assoc in Hh.
  - apply IH in Hs as (new & Hsub & Hh). exists new. split; [by constructor|done].
Qed.

Lemma empty_holds p0 : holds_stream p0 (empty_inbox p0) [].
Proof. split; [done|constructor|done|done|done]. Qed.

(** C36: a consumer's projection is its stream, once each. Whatever is delivered, in whatever order
    and however often, malformed, conflicting or failing events included, the projection is the fold
    of a subsequence of the deliveries with no event twice, in which the versions of every aggregate
    are 1, 2, ..., n without gap or repetition, the ones its inbox holds as APPLIED. *)
Theorem consumed_exactly_once p0 ds :
  let s := consume (empty_inbox p0) ds in
  exists es, es `sublist_of` map fst ds /\ project p0 es = Ok (in_projection s) /\
    List.NoDup (map ie_eventId es) /\
    forall t id, gapless (versions_of t id es) /\
                 map ib_aggregateVersion (applied_rows s t id) = versions_of t id es.
Proof.
  cbv zeta. destruct (consume_holds p0 ds _ _ (empty_holds p0)) as (es & Hsub & [Hp Hi _ Hr Hv]).
  exists es. split; [exact Hsub|]. split; [exact Hp|]. split; [exact Hi|]. intros t id. split; [apply Hv|apply Hr].
Qed.

(** The events of a list of deliveries, each where its identifier comes first. *)
Fixpoint firsts (seen : list string) (es : list Cg4InboundEvent) : list Cg4InboundEvent :=
  match es with
  | [] => []
  | e :: es' => if includes seen (ie_eventId e) then firsts seen es' else e :: firsts (ie_eventId e :: seen) es'
  end.

Lemma gapless_prefix l1 l2 : gapless (l1 ++ l2) -> gapless l1.
Proof.
  unfold gapless, one_to. rewrite length_app, seq_app, map_app. intros Hl.
  apply app_inj_1 in Hl as [Hl _]; [done|]. by rewrite length_map, length_seq.
Qed.

Lemma record_applies s e now p : find_event s (ie_eventId e) = None -> decide_event s e = D_APPLY ->
  hash_ok (ie_payloadHash e) = true -> 0 <= ie_aggregateVersion e -> apply (in_projection s) e = Ok p ->
  exists o s', record s e now = Ok (o, s') /\ io_applied o = true /\ in_pauses s' = in_pauses s /\
    in_projection s' = p /\ exists r, in_rows s' = in_rows s ++ [r] /\ ib_eventId r = ie_eventId e.
Proof.
  intros Hf Hd Hh Hv Hp. unfold record. rewrite Hf, Hd. unfold insert_row. cbn [ib_payloadHash ib_aggregateVersion].
  rewrite Hh, (proj2 (Z.leb_le _ _) Hv). cbn. rewrite Hp. cbn. eexists _, _. split; [done|]. cbn.
  split_and!; try done. eexists. done.
Qed.

Lemma find_event_None s id : ~ In id (map ib_eventId (in_rows s)) -> find_event s id = None.
Proof.
  intros Hn. unfold find_event. destruct (js_find _ _) as [r|] eqn:Er; [|done]. apply find_some in Er as [Hr Er].
  bool_prop. exfalso. apply Hn. rewrite <- Er. by apply in_map.
Qed.

Lemma find_event_Some s id : In id (map ib_eventId (in_rows s)) -> is_Some (find_event s id).
Proof.
  intros Hin. apply in_map_iff in Hin as (r & Hr & Hin). unfold find_event. destruct (js_find _ _) eqn:Er; [by eexists|].
  apply (find_none _ _ Er) in Hin. by bool_prop.
Qed.

Lemma consume_applies p0 p ds : forall s es,
  Forall (fun d => parse_ok (parse (ie_eventType (fst d)) (ie_payload (fst d))) = true /\
                   hash_ok (ie_payloadHash (fst d)) = true) ds ->
  holds_stream p0 s es ->
  let seen := map ib_eventId (in_rows s) in
  (forall t id, gapless (versions_of t id (es ++ firsts seen (map fst ds)))) ->
  project p0 (es ++ firsts seen (map fst ds)) = Ok p ->
  in_projection (consume s ds) = p /\ in_pauses (consume s ds) = in_pauses s.
Proof.
  induction ds as [|[e now] ds IH]; intros s es Hgood Hs seen Hg Hp; cbn in *.
  { rewrite app_nil_r, (hs_projection _ _ _ Hs) in Hp. by injection Hp. }
  apply Forall_cons in Hgood as [[Hpe He] Hgood]. cbn in Hpe, He.
  destruct (includes seen (ie_eventId e)) eqn:Ei.
  - apply includes_spec in Ei. destruct (find_event_Some _ _ Ei) as [x Hx].
    rewrite (record_seen _ _ now _ Hx). by apply (IH s es).
  - assert (Hf : find_event s (ie_eventId e) = None).
    { apply find_event_None. intros Hin. apply includes_spec in Hin. subst seen. congruence. }
    set (rest := firsts _ (map fst ds)) in *. rewrite project_app, (hs_projection _ _ _ Hs) in Hp. cbn in Hp.
    destruct (apply (in_projection s) e) as [p1|] eqn:Ea; [|done]. cbn in Hp.
    assert (Hv : ie_aggregateVersion e = Z.of_nat (S (length (versions_of (ie_aggregateType e) (ie_aggregateId e) es)))).
    { specialize (Hg (ie_aggregateType e) (ie_aggregateId e)). rewrite cons_middle, app_assoc in Hg.
      unfold versions_of in Hg. rewrite List.filter_app, map_app in Hg. apply gapless_prefix in Hg.
      fold (versions_of (ie_aggregateType e) (ie_aggregateId e) (es ++ [e])) in Hg. rewrite versions_app in Hg.
      unfold event_of in Hg. rewrite !bool_decide_eq_true_2 in Hg by done. by apply gapless_app in Hg as [_ ?]. }
    assert (Hd : decide_event s e = D_APPLY).
    { apply decide_apply. split; [done|].
      pose proof (cursor_gapless s (ie_aggregateType e) (ie_aggregateId e) _ (hs_rows _ _ _ Hs _ _) (hs_versions _ _ _ Hs _ _)) as Hc.
      destruct (cursor_of s _ _); [lia|]. by rewrite Hc in Hv. }
    destruct (record_applies s e now p1 Hf Hd He ltac:(lia) Ea) as (o & s' & Hrec & _ & Hps & Hp1 & r & Hr & Hid).
    rewrite Hrec. assert (Hs' : holds_stream p0 s' (es ++ [e])).
    { destruct (record_holds _ _ _ _ _ _ _ Hs Hrec) as [Hbad|[? _]]; [|done]. exfalso.
      pose proof (hs_rows _ _ _ Hbad (ie_aggregateType e) (ie_aggregateId e)) as Hb.
      apply record_new in Hrec as (_ & _ & _ & _ & (r2 & Hr2 & _ & Hst & Ht & Ha & _) & _); [|done].
      rewrite (applied_rows_snoc _ _ _ _ _ Hr2), map_app, (hs_rows _ _ _ Hs) in Hb. unfold of_aggregate, is_applied in Hb.
      rewrite Ht, Ha, Hst, Hd, !bool_decide_eq_true_2 in Hb by done. cbn in Hb.
      apply (f_equal length) in Hb. rewrite length_app in Hb. cbn in Hb. lia. }
    assert (Hseen : forall x, In x (map ib_eventId (in_rows s')) <-> In x (ie_eventId e :: seen)).
    { intros x. rewrite Hr, map_app, in_app_iff. cbn. rewrite Hid. unfold seen. tauto. }
    assert (Hfirst : forall es' l1 l2, (forall x, In x l1 <-> In x l2) -> firsts l1 es' = firsts l2 es').
    { clear. induction es' as [|e es' IH]; intros l1 l2 Hl; [done|]. cbn.
      assert (includes l1 (ie_eventId e) = includes l2 (ie_eventId e)) as ->
        by (apply eq_true_iff_eq; by rewrite !includes_spec).
      destruct (includes l2 _); [by apply IH|]. f_equal. apply IH. intros x. cbn. by rewrite Hl. }
    destruct (IH s' (es ++ [e])) as [H1 H2]; [done|done| | |by rewrite H1, H2].
    + intros t id. rewrite (Hfirst _ _ _ Hseen). fold rest. rewrite <- app_assoc. apply Hg.
    + rewrite (Hfirst _ _ _ Hseen). fold rest. rewrite <- app_assoc, project_app, (hs_projection _ _ _ Hs). cbn.
      by rewrite Ea.
Qed.

(** C37: at-least-once delivery in order is delivery once. When the first delivery of each event comes
    in the order of its aggregate's versions, from 1 on, the events are readable and each can be
    applied, then every event is applied once, however often any of them is redelivered and however
    the aggregates interleave, and no scope is held. *)
Theorem ordered_stream_applies p0 p ds :
  Forall (fun d => parse_ok (parse (ie_eventType (fst d)) (ie_payload (fst d))) = true /\
                   hash_ok (ie_payloadHash (fst d)) = true) ds ->
  (forall t id, gapless (versions_of t id (firsts [] (map fst ds)))) ->
  project p0 (firsts [] (map fst ds)) = Ok p ->
  let s := consume (empty_inbox p0) ds in
  in_projection s = p /\ forall scope, isPaused s scope = false.
Proof.
  intros Hgood Hg Hp s. destruct (consume_applies p0 p ds (empty_inbox p0) [] Hgood (empty_holds p0) Hg Hp) as [H1 H2].
  split; [done|]. intros scope. apply not_true_iff_false. rewrite paused_iff. unfold s. rewrite H2. by intros (? & [] & _).
Qed.

(** An anomaly holds exactly its scope. After a delivery a scope is held when it was before, or
    when the event was new, did not apply cleanly and is of that scope: a gap, a version below the
    cursor, a second payload for a version, an event this build cannot read. Only APPLY moves the
    projection, and an event seen before changes nothing. *)
Theorem anomaly_holds_scope s e now o s' :
  record s e now = Ok (o, s') ->
  (forall scope, isPaused s' scope = isPaused s scope ||
     (io_recorded o && cg4InboxDecisionPausesScope (io_decision o) && bool_decide (scope = cg4ScopeRefFor e))) /\
  (io_recorded o = false -> s' = s) /\
  (io_decision o <> D_APPLY -> in_projection s' = in_projection s) /\
  (io_recorded o = true -> io_decision o = D_APPLY ->
     ie_aggregateVersion e = applied_version s (ie_aggregateType e) (ie_aggregateId e) + 1 /\
     apply (in_projection s) e = Ok (in_projection s')).
Proof.
  intros E. destruct (find_event s (ie_eventId e)) as [x|] eqn:Ef.
  - rewrite (record_seen _ _ _ _ Ef) in E. injection E as <- <-. cbn.
    split_and!; try done. intros scope. by rewrite orb_false_r.
  - apply record_new in E as (-> & -> & _ & _ & _ & Hpaused & _ & Hproj); [|done].
    split_and!; [done|done| |].
    + intros Hd. by destruct (decide_event s e).
    + intros _ Hd. rewrite Hd in Hproj. split; [|done]. apply decide_apply in Hd as [_ Hd]. unfold applied_version.
      by destruct (cursor_of s _ _).
Qed.

Lemma applied_version_snoc s s' r t id : in_rows s' = in_rows s ++ [r] -> 0 <= ib_aggregateVersion r ->
  of_aggregate t id r && is_applied r = true ->
  applied_version s' t id = Z.max (ib_aggregateVersion r) (applied_version s t id).
Proof.
  intros Hr Hv Ha. unfold applied_version, cursor_of. rewrite (applied_rows_snoc _ _ _ _ _ Hr), Ha.
  unfold highest. rewrite fold_left_app. cbn. destruct (fold_left _ (applied_rows s t id) None) as [b|]; cbn; [|lia].
  destruct (Z.ltb_spec (ib_aggregateVersion b) (ib_aggregateVersion r)); cbn; lia.
Qed.

Lemma applied_version_ge s t id r : In r (applied_rows s t id) -> ib_aggregateVersion r <= applied_version s t id.
Proof.
  intros Hin. unfold applied_version, cursor_of. pose proof (highest_spec (applied_rows s t id)) as Hh.
  destruct (highest _); cbn; [by apply Hh|]. by rewrite Hh in Hin.
Qed.

Lemma cleared_paused s rows' now v scope proj n scope' :
  isPaused (Inbox_ rows' (update_where (holds_scope scope) (clear_pause now v) (in_pauses s)) proj n) scope' =
  isPaused s scope' && negb (bool_decide (scope' = scope)).
Proof.
  apply eq_true_iff_eq. rewrite andb_true_iff, negb_true_iff, bool_decide_eq_false, !paused_iff. cbn. split.
  - intros (q & Hq & Hs & Ha). apply update_where_In in Hq as (x & Hx & ->). unfold holds_scope in *.
    destruct (bool_decide (sp_scope x = scope) && sp_active x) eqn:Ex; [done|]. split; [by exists x|]. intros ->.
    rewrite Hs, bool_decide_eq_true_2, Ha in Ex by done. done.
  - intros [(q & Hq & Hs & Ha) Hne]. exists q. split; [|done]. apply update_where_keep; [done|]. unfold holds_scope.
    rewrite bool_decide_eq_false_2; [done|congruence].
Qed.

(** A reload lifts the hold and moves the cursor, never back. After [resumeFromCanonical] its
    scope is not held and every other is as it was; the cursor of the aggregate is the canonical
    version, or the version applied before if that is higher; and the event after it applies, while a
    late event the reload covers, delivered for the first time below the cursor, holds its scope
    again. *)
Theorem reload_moves_cursor s i now cleared v s' :
  resumeFromCanonical s i now = Ok (cleared, v, s') ->
  let at_ := applied_version s' (rs_aggregateType i) (rs_aggregateId i) in
  (forall scope, isPaused s' scope = isPaused s scope && negb (bool_decide (scope = rs_scope i))) /\
  at_ = Z.max (rs_canonicalVersion i) (applied_version s (rs_aggregateType i) (rs_aggregateId i)) /\
  (forall t id, (t, id) <> (rs_aggregateType i, rs_aggregateId i) -> cursor_of s' t id = cursor_of s t id) /\
  forall e, parse_ok (parse (ie_eventType e) (ie_payload e)) = true -> 0 < at_ ->
    ie_aggregateType e = rs_aggregateType i -> ie_aggregateId e = rs_aggregateId i ->
    (ie_aggregateVersion e = at_ + 1 -> decide_event s' e = D_APPLY) /\
    (ie_aggregateVersion e < at_ -> decide_event s' e = D_OUT_OF_ORDER at_ (ie_aggregateVersion e)).
Proof.
  unfold resumeFromCanonical. cbv zeta. intros E. open_bind E s1 H1. injection E as _ _ <-.
  set (t := rs_aggregateType i) in *. set (id := rs_aggregateId i) in *.
  assert (Hs1 : in_pauses s1 = in_pauses s /\
    applied_version s1 t id = Z.max (rs_canonicalVersion i) (applied_version s t id) /\
    forall t' id', (t', id') <> (t, id) -> cursor_of s1 t' id' = cursor_of s t' id').
  { destruct (js_some _ (in_rows s)) eqn:Ee.
    - injection H1 as <-. split; [done|]. split; [|done].
      apply existsb_exists in Ee as (r & Hr & Hc). apply andb_true_iff in Hc as [Hc Ha].
      apply andb_true_iff in Hc as [Hc Hv]. apply Z.eqb_eq in Hv.
      assert (Hge : ib_aggregateVersion r <= applied_version s t id).
      { apply applied_version_ge, filter_In. split; [done|]. by rewrite Hc, Ha. }
      lia.
    - open_bind H1 s2 H2. apply insert_row_ok in H2 as (_ & Hv & ->). injection H1 as <-. cbn in Hv.
      split; [done|]. split.
      + erewrite (applied_version_snoc s) by (reflexivity || exact Hv ||
          (unfold of_aggregate; cbn; by rewrite !bool_decide_eq_true_2)). reflexivity.
      + intros t' id' Hne. unfold cursor_of. erewrite applied_rows_snoc by reflexivity. cbn.
        destruct (of_aggregate t' id' _) eqn:Ea; [|by rewrite app_nil_r]. exfalso. apply Hne.
        unfold of_aggregate in Ea. cbn in Ea. bool_prop. congruence. }
  destruct Hs1 as (Hp & Hv & Hother). split; [intros scope; by rewrite cleared_paused, (pauses_rows s s1 Hp)|].
  assert (Hcur : forall t' id', cursor_of (Inbox_ (in_rows s1) (update_where (holds_scope (rs_scope i))
    (clear_pause now (rs_canonicalVersion i)) (in_pauses s1)) (in_projection s1) (in_nextId s1)) t' id' = cursor_of s1 t' id') by done.
  unfold applied_version in *. rewrite !Hcur. split; [done|]. split; [intros; by rewrite Hcur; apply Hother|].
  intros e Hpe Hpos Ht Hid. unfold decide_event. rewrite Ht, Hid. fold t id. rewrite Hcur.
  unfold classifyCg4InboundEvent. destruct (parse _ _); [|done]. cbn.
  destruct (cursor_of s1 t id) as [c|]; [|lia]. split; intros Hev.
  - destruct (Z.eqb_spec (ie_aggregateVersion e) (cu_aggregateVersion c)); [lia|].
    by rewrite (proj2 (Z.eqb_eq _ _) Hev).
  - destruct (Z.eqb_spec (ie_aggregateVersion e) (cu_aggregateVersion c)); [lia|].
    destruct (Z.eqb_spec (ie_aggregateVersion e) (cu_aggregateVersion c + 1)); [lia|].
    by destruct (Z.ltb_spec (cu_aggregateVersion c) (ie_aggregateVersion e)); [lia|].
Qed.
End Inbox.
Arguments Inbox P : clear implicits.

(** ** A concrete consumer *)

#[local] Existing Instance demo_host.

(** It reads every payload and counts what it applies. *)
Definition read_all (eventType : string) (payload : jsval) : Cg4EnvelopeParse := PARSED eventType [].
Definition count_applied (n : Z) (e : Cg4InboundEvent) : result unit Z := Ok (n + 1).

Definition zero_hash : string := zeros 64.
Definition sample_event (id aggregateId : string) (version : Z) : Cg4InboundEvent :=
  InboundEvent id "policy.changed" POLICY aggregateId version zero_hash (JObj []) 0.

(** Two series interleaved, two events redelivered. *)
Definition sample_deliveries : list (Cg4InboundEvent * Z) :=
  [(sample_event "e1" "a" 1, 10); (sample_event "e2" "b" 1, 20); (sample_event "e1" "a" 1, 30);
   (sample_event "e3" "a" 2, 40); (sample_event "e2" "b" 1, 50)].

Lemma ordered_stream_applies_witness :
  let s := consume read_all count_applied (empty_inbox 0) sample_deliveries in
  in_projection s = 3 /\ forall scope, isPaused s scope = false.
Proof.
  apply (ordered_stream_applies (F := unit) read_all count_applied 0 3 sample_deliveries).
  - repeat constructor.
  - assert (firsts [] (map fst sample_deliveries) =
      [sample_event "e1" "a" 1; sample_event "e2" "b" 1; sample_event "e3" "a" 2]) as -> by (vm_compute; reflexivity).
    intros t aggregate. unfold versions_of. cbn [js_filter]. unfold event_of. cbn [ie_aggregateType ie_aggregateId sample_event].
    destruct (bool_decide (POLICY = t)); cbn [andb]; [|reflexivity].
    destruct (bool_decide_reflect ("a" = aggregate)) as [<-|_]; [reflexivity|].
    by destruct (bool_decide ("b" = aggregate)).
  - reflexivity.
Defined.

(** Version 3 of a series the consumer has never applied. *)
Definition gap_event : Cg4InboundEvent := sample_event "e9" "a" 3.
Definition held_inbox : Inbox Z := Eval vm_compute in
  match record (F := unit) read_all count_applied (empty_inbox 0) gap_event 10 with
  | Ok (_, s) => s
  | Err _ => empty_inbox 0
  end.

Definition gap_outcome : Cg4InboxOutcome := Eval vm_compute in
  match record (F := unit) read_all count_applied (empty_inbox 0) gap_event 10 with
  | Ok (o, _) => o
  | Err _ => InboxOutcome D_APPLY false "" None false
  end.

Lemma anomaly_holds_scope_witness :
  record (F := unit) read_all count_applied (empty_inbox 0) gap_event 10 = Ok (gap_outcome, held_inbox) /\
  io_decision gap_outcome = D_GAP 1 3 /\ isPaused held_inbox (cg4ScopeRefFor gap_event) = true.
Proof.
  assert (Hr : record (F := unit) read_all count_applied (empty_inbox 0) gap_event 10 = Ok (gap_outcome, held_inbox))
    by (vm_compute; reflexivity).
  split; [exact Hr|]. split; [reflexivity|].
  destruct (anomaly_holds_scope read_all count_applied _ _ _ _ _ Hr) as (Hp & _).
  rewrite Hp. vm_compute. reflexivity.
Defined.

Definition reload : ResumeInput := ResumeInput_ (cg4ScopeRefFor gap_event) POLICY "a" 3 zero_hash "policy.changed".
Definition reloaded_inbox : Inbox Z := Eval vm_compute in
  match resumeFromCanonical (F := unit) held_inbox reload 20 with Ok (_, _, s) => s | Err _ => held_inbox end.

Lemma reload_moves_cursor_witness :
  isPaused reloaded_inbox (cg4ScopeRefFor gap_event) = false /\
  decide_event read_all reloaded_inbox (sample_event "e10" "a" 4) = D_APPLY /\
  decide_event read_all reloaded_inbox (sample_event "e8" "a" 2) = D_OUT_OF_ORDER 3 2.
Proof.
  destruct (reload_moves_cursor (F := unit) read_all held_inbox reload 20 1 3 reloaded_inbox) as (Hp & _ & _ & He);
    [vm_compute; reflexivity|].
  split; [by rewrite Hp|]. split; apply He; by vm_compute.
Defined.
