(* ===== verification/EventStream.v ===== *)
(** * EventStream: from the studio's outbox to a consumer's inbox

    What the policy studio writes to its outbox, and what a consumer of [EventInbox] makes of it. *)
From stdpp Require Import base tactics list strings relations.
From Stdlib Require Import ZArith Lia.
From S2P Require Import Prelude JsMap Text JsDate JsValue Contracts ScopeKey PolicyDiff PolicyPreview Authorization Persistence PolicyStore PolicyLifecycle PolicySystem PolicyScenario PolicyFindings EventEnvelope EventInbox.

Open Scope string_scope.
Open Scope Z_scope.
Open Scope list_scope.

Section Outbox.
Context `{Runtime, Host}.

(** The store's outbox, and what was appended to it. *)
Definition emits (s s' : PolicyStore) : Prop :=
  ps_outbox s' = ps_outbox s \/ exists e, ps_outbox s' = ps_outbox s ++ [e] /\ accepted e.

Lemma policies_outbox rows s s' : write_policies rows s = Ok s' -> ps_outbox s' = ps_outbox s.
Proof. intros E. by apply write_policies_ok in E as ->. Qed.

Lemma jobs_outbox jobs s s' : write_jobs jobs s = Ok s' -> ps_outbox s' = ps_outbox s.
Proof. intros E. by apply write_jobs_ok in E as ->. Qed.

Lemma receipt_outbox s op key hash r s' : writeReceipt s op key hash r = Ok s' -> ps_outbox s' = ps_outbox s.
Proof. intros E. by apply writeReceipt_ok in E as [_ ->]. Qed.

Lemma head_outbox m h s s' : write_head m h s = Ok s' -> ps_outbox s' = ps_outbox s.
Proof.
  unfold write_head. intros E. destruct (_ =? 0).
  - open_bind E x Hx. by injection E as <-.
  - destruct (map_get _ _); [|done]. open_bind E x Hx. by injection E as <-.
Qed.

Lemma activate_outbox m s s1 : activate_rows m s = Ok s1 -> ps_outbox s1 = ps_outbox s.
Proof.
  unfold activate_rows. intros E. open_bind E t1 H1. open_bind E t2 H2. open_bind E t3 H3.
  rewrite (jobs_outbox _ _ _ E), (policies_outbox _ _ _ H2).
  destruct (truthy _); [|by injection H1 as <-]. open_bind H1 t4 H4. open_bind H1 t5 H5. injection H1 as <-.
  exact (policies_outbox _ _ _ H4).
Qed.

Lemma move_emits m s res s' : moveHead m s = Ok (res, s') ->
  exists e, ps_outbox s' = ps_outbox s ++ [e] /\ accepted e.
Proof.
  unfold moveHead. intros E. open_bind E x Hx. open_bind E s1 Hs1.
  assert (H1 : ps_outbox s1 = ps_outbox s).
  { destruct (mv_activate m); [by apply (activate_outbox m)|by injection Hs1 as <-]. }
  destruct (if mv_activate m then Some _ else _) as [[[? ?] ?]|].
  - open_bind E s4 Hs4. injection E as _ <-. cbn. rewrite (head_outbox _ _ _ _ Hs4), H1. eexists. split; [done|].
    apply head_payload_accepted.
  - injection E as _ <-. cbn. rewrite H1. eexists. split; [done|]. apply head_payload_accepted.
Qed.

Lemma publish_emits s i b q r s' : publish_writes s i b q = Ok (r, s') ->
  exists e, ps_outbox s' = ps_outbox s ++ [e] /\ accepted e.
Proof.
  unfold publish_writes. intros E. open_bind E s1 Hs1. open_bind E moved Hm. open_bind E s2 Hs2. injection E as <- <-.
  destruct moved as [res s3]. apply move_emits in Hm as (e & Hm & He). exists e.
  split; [|done]. cbn. apply receipt_outbox in Hs2 as ->. cbn. rewrite Hm. f_equal.
  destruct (Z.ltb _ _); [|by injection Hs1 as <-]. unfold schedule in Hs1. open_bind Hs1 x1 H1. open_bind Hs1 s4 H4.
  apply jobs_outbox in Hs1 as ->. by apply policies_outbox in H4.
Qed.

Lemma activation_emits s i b c r s' : activation_writes s i b c = Ok (r, s') ->
  exists e, ps_outbox s' = ps_outbox s ++ [e] /\ accepted e.
Proof.
  unfold activation_writes. intros E. open_bind E s1 Hs1. open_bind E moved Hm. open_bind E s2 Hs2. injection E as <- <-.
  destruct moved as [res s3]. apply move_emits in Hm as (e & Hm & He). exists e. split; [|done]. cbn.
  apply receipt_outbox in Hs2 as ->. cbn. rewrite Hm. f_equal. by apply jobs_outbox in Hs1.
Qed.

Lemma commit_emits s p now r s' : commit s p now = Ok (r, s') -> emits s s'.
Proof.
  unfold emits. destruct p as [i b|fuel i b|i b|i b a|i b|i b|i b|i b q|i b c]; cbn [commit]; intros E.
  - left. unfold commit_amendDraft in E. open_bind E x1 H1. open_bind E x2 H2. open_bind E s1 Hw. open_bind E x3 H3.
    open_bind E s2 Hs2. injection E as <- <-. apply policies_outbox in Hw. cbn. by apply receipt_outbox in Hs2 as ->.
  - left. unfold commit_runTests in E. open_bind E x1 H1. open_bind E p Hp. destruct (upsert_artifact _ _) as [a s1] eqn:Hu.
    assert (Hr : ps_outbox s1 = ps_outbox s) by (unfold upsert_artifact in Hu; by destruct (js_find _ _); injection Hu as <- <-).
    open_bind E s2 Hs. open_bind E s3 Hw. injection E as <- <-. cbn. apply receipt_outbox in Hw as ->. cbn. rewrite <- Hr.
    destruct (bool_decide _); [|by injection Hs as <-]. by apply policies_outbox in Hs.
  - left. unfold commit_submit in E. open_bind E x1 H1. open_bind E x2 H2. open_bind E x3 H3. open_bind E s1 Hw.
    open_bind E x4 H4. open_bind E s2 Hs2. injection E as <- <-. apply policies_outbox in Hw. cbn. by apply receipt_outbox in Hs2 as ->.
  - left. unfold commit_finalizeApproval in E. open_bind E x1 H1. open_bind E x2 H2. open_bind E x3 H3. open_bind E x4 H4.
    open_bind E x5 H5. open_bind E s1 Hw. open_bind E x6 H6. open_bind E s2 Hs2. injection E as <- <-.
    apply policies_outbox in Hw. cbn. by apply receipt_outbox in Hs2 as ->.
  - right. unfold commit_publish in E. open_bind E q Hq. by eapply publish_emits.
  - right. unfold commit_activateDue in E. open_bind E c Hc. by eapply activation_emits.
  - left. unfold commit_rollback in E. open_bind E x1 H1. open_bind E compiled Hc. open_bind E s1 Hw. open_bind E s2 Hs2.
    injection E as <- <-. apply policies_outbox in Hw. cbn. by apply receipt_outbox in Hs2 as ->.
  - right. by eapply publish_emits.
  - right. by eapply activation_emits.
Qed.

Lemma create_outbox s i now r s' : createDraft s i now = Ok (r, s') -> ps_outbox s' = ps_outbox s.
Proof.
  unfold createDraft. intros E. open_bind E y0 Hy0. open_bind E y1 Hy1. open_bind E y2 Hy2. open_bind E y3 Hy3.
  open_bind E t Ht. open_bind E tf Htf. open_bind E compiled Hc. open_bind E o Ho.
  destruct o as [resp|]; [by injection E as _ <-|].
  open_bind E ua Hua. open_bind E series Hser. destruct series as [policyId version].
  open_bind E s1 Hs1. open_bind E s3 Hs3. injection E as _ <-. cbn. apply receipt_outbox in Hs3 as ->.
  by apply policies_outbox in Hs1.
Qed.

Lemma vote_outbox s i now r s' : recordPolicyApproval s i now = Ok (r, s') -> ps_outbox s' = ps_outbox s.
Proof.
  unfold recordPolicyApproval. intros E. open_bind E y0 Hy0. open_bind E y1 Hy1. open_bind E y2 Hy2.
  open_bind E y3 Hy3. open_bind E y4 Hy4. open_bind E y5 Hy5. open_bind E o Ho.
  destruct o as [resp|]; [by injection E as _ <-|].
  open_bind E policy Hpol. open_bind E y6 Hy6. open_bind E grant Hg. open_bind E s1 Hs1. open_bind E s3 Hs3.
  injection E as _ <-. cbn. apply receipt_outbox in Hs3 as ->. unfold insert_policy_vote in Hs1. open_bind Hs1 u Hu.
  by injection Hs1 as <-.
Qed.

Lemma switch_emits s i now r s' : killSwitch s i now = Ok (r, s') -> emits s s'.
Proof.
  unfold killSwitch, emits. intros E. open_bind E y0 Hy0. open_bind E y1 Hy1. open_bind E y2 Hy2. open_bind E t Ht.
  open_bind E y3 Hy3. open_bind E o Ho. destruct o as [resp|]; [left; by injection E as _ <-|].
  open_bind E ua Hua. open_bind E ch Hch. destruct ch as [[id already] s1]. open_bind E s3 Hs3. injection E as _ <-.
  assert (Hr1 : ps_outbox s1 = ps_outbox s).
  { unfold switch_rows in Hch. destruct (active_switch _ _) as [k|]; destruct (ki_activate i); try done.
    - by injection Hch as <- <- <-.
    - open_bind Hch a Ha. open_bind Hch b Hb. open_bind Hch c Hcc. by injection Hch as <- <- <-.
    - by injection Hch as <- <- <-. }
  cbn. apply receipt_outbox in Hs3 as ->. destruct already; cbn; [by left|]. right. rewrite Hr1. eexists.
  split; [done|]. apply kill_switch_accepted.
Qed.

Lemma step_emits y y' : step y y' -> emits (py_store y) (py_store y').
Proof.
  destruct 1 as [s b i now r s' E|s b i now r s' Hmk E|s b i now r s' E|s b c p E
    |s b1 b2 p now p' E|s b1 b2 p now r s' E|s b1 b2 p|s b now owner sec job s' E|s b now mx job|s b s' E]; cbn.
  - left. by eapply create_outbox.
  - left. by eapply vote_outbox.
  - by eapply switch_emits.
  - by left.
  - by left.
  - by eapply commit_emits.
  - by left.
  - left. unfold claim_job in E. destruct (next_claimable s now); [|done]. injection E as _ <-. exact eq_refl.
  - by left.
  - left. apply (ot_outbox _ _ E).
Qed.

Lemma steps_accepted y y' : rtc step y y' -> Forall accepted (ps_outbox (py_store y)) -> Forall accepted (ps_outbox (py_store y')).
Proof.
  induction 1 as [|y1 y2 y3 Hs _ IH]; [done|]. intros Ha. apply IH.
  apply step_emits in Hs as [->|(x & -> & Hx)]; [done|]. apply Forall_app. auto.
Qed.

Lemma outbox_accepted y e : reachable y -> In e (ps_outbox (py_store y)) -> accepted e.
Proof.
  intros Hy. apply List.Forall_forall, (steps_accepted _ _ Hy). constructor.
Qed.

(** The studio only writes what its consumers read. Every event in the outbox of a store the
    policy commands reach passes the guard of the consumers: its type and versions are this build's,
    its fields are of their types, and no restricted field is anywhere in its payload. *)
Theorem outbox_events_accepted y e :
  reachable y -> In e (ps_outbox (py_store y)) ->
  parse_ok (parseCg4CanonicalEvent (pe_eventType e) (pe_payload e)) = true.
Proof. exact (outbox_accepted y e). Qed.

(** The event as a consumer receives it. *)
Definition inbound (e : PolicyEvent) (now : Z) : Cg4InboundEvent :=
  InboundEvent (pe_id e) (pe_eventType e) POLICY (pe_aggregateId e) (pe_aggregateVersion e) (pe_payloadHash e)
    (pe_payload e) now.
End Outbox.

(** ** Streams that do not start at version 1 *)

#[local] Existing Instance two_zone_host.
#[local] Existing Instance demo_host.

Definition scheduled_moves : list (Z * Move) := at_noon
  (create_in any_scope None (quiet_until "20:20") "c1" :: approve_moves "0" 1 "a" LATER ++ [publish_by "0" 1 carol "p1"]).
Definition scheduled_store : PolicyStore := Eval vm_compute in played (play empty_policies scheduled_moves).
Lemma scheduled_played : play empty_policies scheduled_moves = Ok scheduled_store.
Proof. vm_compute. reflexivity. Qed.

Definition second_moves : list (Z * Move) := at_noon
  (create_in any_scope None (quiet_until "20:10") "c2" :: approve_moves "14" 1 "b" NOON ++ [publish_by "14" 1 carol "p2"]).
Definition second_store : PolicyStore := Eval vm_compute in played (play first_store second_moves).
Lemma second_played : play first_store second_moves = Ok second_store.
Proof. vm_compute. reflexivity. Qed.

(** The first event of its aggregate in an outbox. *)
Definition first_of_stream (s : PolicyStore) (e : PolicyEvent) : Prop :=
  exists before after, ps_outbox s = before ++ e :: after /\ Forall (fun x => pe_aggregateId x <> pe_aggregateId e) before.

(** The studio starts streams its consumers cannot join. A policy event carries the version of its
    scope's head under the identifier of its series, and a consumer joins a series at version 1 only.
    There is a history in which the first event of a series has version 0 (a first version that is
    scheduled), and one in which it has version 2 (a second series on a scope); a consumer that has
    applied nothing of the series answers both with a gap, and holds the scope. *)
Theorem series_streams_start_anywhere :
  exists y0 e0 y2 e2,
    reachable y0 /\ first_of_stream (py_store y0) e0 /\ pe_aggregateVersion e0 = 0 /\
    reachable y2 /\ first_of_stream (py_store y2) e2 /\ pe_aggregateVersion e2 = 2 /\
    forall (P : Type) (s : Inbox P) e now, e = e0 \/ e = e2 -> cursor_of s POLICY (pe_aggregateId e) = None ->
      decide_event parseCg4CanonicalEvent s (inbound e now) = D_GAP 1 (pe_aggregateVersion e).
Proof.
  assert (H2 : reachable (PolicySystem_ second_store [])).
  { eapply then_reachable; [exact first_reachable|exact second_played]. }
  exists (PolicySystem_ scheduled_store []). destruct (ps_outbox scheduled_store) as [|e0 l0] eqn:E0; [discriminate E0|].
  exists e0, (PolicySystem_ second_store []).
  destruct (ps_outbox second_store) as [|e1 [|e2 l2]] eqn:E2; [discriminate E2|discriminate E2|]. exists e2.
  assert (H0 : reachable (PolicySystem_ scheduled_store [])) by exact (played_reachable _ _ scheduled_played).
  assert (Ha0 : accepted e0) by (apply (outbox_accepted _ _ H0); change (In e0 (ps_outbox scheduled_store)); rewrite E0; by left).
  assert (Ha2 : accepted e2) by (apply (outbox_accepted _ _ H2); change (In e2 (ps_outbox second_store)); rewrite E2; by right; left).
  split; [done|]. split; [exists [], l0; by split|]. split; [by injection E0 as <- _|]. split; [done|].
  split; [exists [e1], l2; split; [done|]; constructor; [|done]; injection E2 as <- <- _; by vm_compute|].
  split; [by injection E2 as _ <- _|]. intros P s e now He Hc. unfold decide_event, classifyCg4InboundEvent. cbn.
  rewrite Hc. assert (Hacc : accepted e) by by destruct He as [->| ->]. unfold accepted in Hacc.
  destruct (parseCg4CanonicalEvent _ _); [|done]. destruct He as [->| ->].
  - by injection E0 as <- _.
  - by injection E2 as _ <- _.
Qed.


Lemma outbox_events_accepted_witness :
  exists e, In e (ps_outbox first_store) /\
    parse_ok (parseCg4CanonicalEvent (pe_eventType e) (pe_payload e)) = true.
Proof.
  destruct (ps_outbox first_store) as [|e l] eqn:E; [discriminate E|]. exists e. split; [by left|].
  apply (outbox_events_accepted (PolicySystem_ first_store []) e first_reachable).
  change (In e (ps_outbox first_store)). rewrite E. by left.
Defined.
