(* ===== verification/Rollout.v ===== *)
(** * Rollout: which policy reader a tenant's requests get

    [apps/contact-governance/src/cg4-rollout.ts] over the rollout tables of one tenant: the reader
    each stage selects, the plan of a transition, [Cg4RolloutRepository] with the readiness check of
    a switch, and the guards the database keeps on the state row (migration
    [20260914120000_add_cg4_rollout_switch]). A command runs alone under its advisory lock, so it is
    one step; the evidence a switch reads (mismatches, callbacks, ledger, exceptions) changes freely
    between commands. *)
From stdpp Require Import base tactics list strings relations.
From Stdlib Require Import ZArith Lia Sorting.Permutation Sorting.Sorted Ascii.
From S2P Require Import Prelude JsMap Text JsDate JsValue Contracts ScopeKey Persistence Callbacks PolicyReader.

Open Scope string_scope.
Open Scope Z_scope.
Open Scope list_scope.

(** ** Stages *)

Inductive Cg4RolloutStage := DISABLED | SHADOW_EVALUATION | SCOPED_SYNTHETIC | INTERNAL_ENABLED.
#[export] Instance Cg4RolloutStage_eq_dec : EqDecision Cg4RolloutStage.
Proof. solve_decision. Defined.

(** [CG4_ROLLOUT_STAGES.indexOf(stage)] *)
Definition stage_index (s : Cg4RolloutStage) : Z :=
  match s with DISABLED => 0 | SHADOW_EVALUATION => 1 | SCOPED_SYNTHETIC => 2 | INTERNAL_ENABLED => 3 end.

Definition stage_text (s : Cg4RolloutStage) : string :=
  match s with
  | DISABLED => "DISABLED"
  | SHADOW_EVALUATION => "SHADOW_EVALUATION"
  | SCOPED_SYNTHETIC => "SCOPED_SYNTHETIC"
  | INTERNAL_ENABLED => "INTERNAL_ENABLED"
  end.

Definition SWITCHED_STAGE_INDEX : Z := stage_index SCOPED_SYNTHETIC.

Inductive Cg4RolloutErrorCode :=
  | ROLLOUT_VERSION_CONFLICT
  | ROLLOUT_INVALID_TRANSITION
  | ROLLOUT_SWITCH_IRREVERSIBLE
  | ROLLOUT_SCOPE_REQUIRED
  | ROLLOUT_BACKFILL_REQUIRED
  | ROLLOUT_SHADOW_MISMATCH_UNRESOLVED
  | ROLLOUT_CALLBACK_REF_NONCANONICAL
  | ROLLOUT_FROZEN
  | ROLLOUT_MUTATION_FROZEN.
#[export] Instance Cg4RolloutErrorCode_eq_dec : EqDecision Cg4RolloutErrorCode.
Proof. solve_decision. Defined.

(** A command fails with a [Cg4RolloutError], a [TypeError] for a blank field, or an exception of
    the database. *)
Inductive RolloutFailure :=
  | Cg4RolloutError (code : Cg4RolloutErrorCode)
  | BlankField (field : string)
  | GuardViolation
  | UniqueViolation.
#[export] Instance RolloutFailure_eq_dec : EqDecision RolloutFailure.
Proof. solve_decision. Defined.

Record Cg4RolloutSnapshot := RolloutSnapshot {
  ro_stage : Cg4RolloutStage;
  ro_syntheticScopeKeys : list string;
  ro_shadowStartedAt : option Z;
  ro_switchedAt : option Z;
  ro_mutationFrozen : bool;
  ro_version : Z;
}.

Definition cg4DefaultRollout : Cg4RolloutSnapshot := RolloutSnapshot DISABLED [] None None false 0.

(** ** The reader of a request *)

Inductive Cg4PolicyReaderMode := R_CG3 | R_CG3_WITH_SHADOW | R_CG4.
#[export] Instance Cg4PolicyReaderMode_eq_dec : EqDecision Cg4PolicyReaderMode.
Proof. solve_decision. Defined.

Record Cg4PolicyReaderSelection := ReaderSelection { rd_mode : Cg4PolicyReaderMode; rd_pilot : bool }.

(** [scopeCovers]: the same test as [matches] of the policy reader. *)
Definition scopeCovers (scopeKey : string) (request : Cg4PolicyScopeDimensions) : bool :=
  match cg4PolicyScopeMatches scopeKey request with Ok b => b | Err _ => true end.

Definition in_pilot (keys : list string) (request : Cg4PolicyScopeDimensions) : bool :=
  js_some (fun scopeKey => scopeCovers scopeKey request) keys.

Definition cg4PolicyReaderFor (rollout : Cg4RolloutSnapshot) (request : Cg4PolicyScopeDimensions)
  : Cg4PolicyReaderSelection :=
  let pilot := in_pilot (ro_syntheticScopeKeys rollout) request in
  match ro_stage rollout with
  | DISABLED => ReaderSelection R_CG3 false
  | SHADOW_EVALUATION => ReaderSelection R_CG3_WITH_SHADOW pilot
  | SCOPED_SYNTHETIC => ReaderSelection (if pilot then R_CG4 else R_CG3_WITH_SHADOW) pilot
  | INTERNAL_ENABLED => ReaderSelection R_CG4 pilot
  end.

(** Empty texts are left out. *)
Definition cg4PolicyRequestScope (channel purpose : string) (contactKind source : option string)
  : Cg4PolicyScopeDimensions :=
  Dimensions (Some channel) (truthy contactKind) (Some purpose) (truthy source).

(** ** The plan of a transition *)

Record TransitionRequest := TransitionRequest_ {
  tq_toStage : Cg4RolloutStage;
  tq_syntheticScopeKeys : option (list string);
}.

Record Cg4RolloutTransitionPlan := TransitionPlan {
  pl_stage : Cg4RolloutStage;
  pl_syntheticScopeKeys : list string;
  pl_startsShadowWindow : bool;
  pl_switches : bool;
}.

Definition key_parses (key : string) : bool := is_ok (parseCg4PolicyScopeKey key).

Definition normalizeScopeKeys (keys : list string) : result RolloutFailure (list string) :=
  let normalized := sort_by str_le (set_to_array (map trim keys)) in
  throw_if (negb (js_every key_parses normalized)) (Cg4RolloutError ROLLOUT_SCOPE_REQUIRED) ;;
  Ok normalized.

Definition newline : string := String "010"%char "".

(** [planCg4RolloutTransition]; a stage of the type is always found, so [to < 0] cannot happen. *)
Definition planCg4RolloutTransition (current : Cg4RolloutSnapshot) (request : TransitionRequest)
  : result RolloutFailure Cg4RolloutTransitionPlan :=
  let from := stage_index (ro_stage current) in
  let to := stage_index (tq_toStage request) in
  throw_if ((to <? 0) || negb (Z.abs (to - from) =? 1)) (Cg4RolloutError ROLLOUT_INVALID_TRANSITION) ;;
  throw_if ((to <? from) && bool_decide (is_Some (ro_switchedAt current)) && (to <? SWITCHED_STAGE_INDEX))
    (Cg4RolloutError ROLLOUT_SWITCH_IRREVERSIBLE) ;;
  match tq_toStage request with
  | DISABLED => Ok (TransitionPlan DISABLED [] false false)
  | SHADOW_EVALUATION =>
      keys ← normalizeScopeKeys (default [] (tq_syntheticScopeKeys request));
      throw_if (bool_decide (length keys = 0%nat)) (Cg4RolloutError ROLLOUT_SCOPE_REQUIRED) ;;
      Ok (TransitionPlan SHADOW_EVALUATION keys true false)
  | toStage =>
      if bool_decide (toStage = SCOPED_SYNTHETIC) && (from <? to) then
        match tq_syntheticScopeKeys request with
        | None => Ok tt
        | Some given =>
            keys ← normalizeScopeKeys given;
            throw_if (negb (bool_decide (join newline keys = join newline (ro_syntheticScopeKeys current))))
              (Cg4RolloutError ROLLOUT_INVALID_TRANSITION)
        end ;;
        Ok (TransitionPlan toStage (ro_syntheticScopeKeys current) false true)
      else Ok (TransitionPlan toStage (ro_syntheticScopeKeys current) false false)
  end.

(** ** The tables *)

Record RolloutRow := RolloutRow_ {
  rr_id : string;
  rr_snapshot : Cg4RolloutSnapshot;
  rr_updatedByRef : string;
  rr_evidenceRef : string;
  rr_updatedAt : Z;
}.

Inductive RolloutAction := A_TRANSITION | A_FREEZE | A_UNFREEZE.
#[export] Instance RolloutAction_eq_dec : EqDecision RolloutAction.
Proof. solve_decision. Defined.

Record RolloutTransition := RolloutTransition_ {
  rt_id : string;
  rt_action : RolloutAction;
  rt_fromStage : Cg4RolloutStage;
  rt_toStage : Cg4RolloutStage;
  rt_fromVersion : Z;
  rt_toVersion : Z;
  rt_mutationFrozen : bool;
  rt_syntheticScopeKeys : list string;
  rt_reasonCode : string;
  rt_actorRef : string;
  rt_evidenceRef : string;
  rt_stateDigest : string;
  rt_occurredAt : Z;
}.

(** A row of [cg4_shadow_mismatch]. *)
Record ShadowMismatch := ShadowMismatch_ {
  sm_id : string;
  sm_decisionId : string;
  sm_requestScopeKey : string;
  sm_pilot : bool;
  sm_cg3Digest : string;
  sm_cg4Digest : string;
  sm_cg3PolicyVersion : option Z;
  sm_cg4PolicyVersionId : option string;
  sm_cg4Outcome : string;
  sm_detectedAt : Z;
}.

Record RolloutTables := RolloutTables_ {
  rl_state : option RolloutRow;
  rl_history : list RolloutTransition;
  rl_nextId : nat;
}.

(** What a switch reads of the other tables: the rows of [cg4_backfill_ledger] by their number, the
    mismatches, the callbacks and the series of the exception heads. *)
Record Evidence := Evidence_ {
  ev_ledger : Z;
  ev_mismatches : list ShadowMismatch;
  ev_callbacks : list CallbackRow;
  ev_exceptionHeads : list string;
}.

Definition loadCg4RolloutState (t : RolloutTables) : Cg4RolloutSnapshot :=
  match rl_state t with None => cg4DefaultRollout | Some row => rr_snapshot row end.

(** [cg4_rollout_state_version_check], [.._switch_check] and [.._shadow_check] *)
Definition row_checks (s : Cg4RolloutSnapshot) : bool :=
  (1 <=? ro_version s) &&
  bool_decide ((SWITCHED_STAGE_INDEX <=? stage_index (ro_stage s)) = bool_decide (is_Some (ro_switchedAt s))) &&
  (bool_decide (ro_stage s = DISABLED) || bool_decide (is_Some (ro_shadowStartedAt s))).

(** [cg4_guard_rollout_state] *)
Definition cg4_guard_rollout_state (old : option Cg4RolloutSnapshot) (new : Cg4RolloutSnapshot) : bool :=
  match old with
  | None => true
  | Some o =>
      (ro_version new =? ro_version o + 1) &&
      (negb (bool_decide (is_Some (ro_switchedAt o))) || bool_decide (ro_switchedAt new = ro_switchedAt o))
  end &&
  (negb (bool_decide (is_Some (ro_switchedAt new))) || (SWITCHED_STAGE_INDEX <=? stage_index (ro_stage new))).

(** ** The repository *)

Section Repository.
Context `{Host}.

(** [nonEmpty(value, field)] *)
Definition rollout_nonEmpty (value field : string) : result RolloutFailure string :=
  throw_if (bool_decide (trim value = "")) (BlankField field) ;; Ok (trim value).

Definition time_or_null (t : option Z) : jsval :=
  match t with Some ms => JStr (toISOString ms) | None => JNull end.

Definition rollout_digest (s : Cg4RolloutSnapshot) : string :=
  stableDigest (JObj
    [("stage", JStr (stage_text (ro_stage s)));
     ("syntheticScopeKeys", JArr (map JStr (ro_syntheticScopeKeys s)));
     ("shadowStartedAt", time_or_null (ro_shadowStartedAt s));
     ("switchedAt", time_or_null (ro_switchedAt s));
     ("mutationFrozen", JBool (ro_mutationFrozen s));
     ("version", JNum (NInt (ro_version s)))]).

Record RolloutCommandBase := RolloutCommand {
  rc_expectedVersion : Z;
  rc_actorRef : string;
  rc_evidenceRef : string;
  rc_reasonCode : string;
}.

(** [tenantId, version] of the state row, and the insert or the conditional update. *)
Definition write_rollout (t : RolloutTables) (current updated : Cg4RolloutSnapshot) (actorRef evidenceRef : string) (now : Z)
  : result RolloutFailure RolloutTables :=
  let old := rr_snapshot <$> rl_state t in
  let put row next := RolloutTables_ (Some row) (rl_history t) next in
  if ro_version current =? 0 then
    throw_if (bool_decide (is_Some old)) UniqueViolation ;;
    throw_if (negb (cg4_guard_rollout_state None updated && row_checks updated)) GuardViolation ;;
    Ok (put (RolloutRow_ (fresh (rl_nextId t)) updated actorRef evidenceRef now) (S (rl_nextId t)))
  else
    match rl_state t with
    | Some row =>
        throw_if (negb (ro_version (rr_snapshot row) =? ro_version current)) (Cg4RolloutError ROLLOUT_VERSION_CONFLICT) ;;
        throw_if (negb (cg4_guard_rollout_state old updated && row_checks updated)) GuardViolation ;;
        Ok (put (RolloutRow_ (rr_id row) updated actorRef evidenceRef now) (rl_nextId t))
    | None => Err (Cg4RolloutError ROLLOUT_VERSION_CONFLICT)
    end.

(** The append to [cg4_rollout_transition]: its version check and its unique index. *)
Definition append_history (t : RolloutTables) (h : RolloutTransition) : result RolloutFailure RolloutTables :=
  throw_if (negb (rt_toVersion h =? rt_fromVersion h + 1)) GuardViolation ;;
  throw_if (includes (map rt_toVersion (rl_history t)) (rt_toVersion h)) UniqueViolation ;;
  Ok (RolloutTables_ (rl_state t) (rl_history t ++ [h]) (S (rl_nextId t))).

(** [{ ...planned, version }] *)
Definition with_version (s : Cg4RolloutSnapshot) (v : Z) : Cg4RolloutSnapshot :=
  RolloutSnapshot (ro_stage s) (ro_syntheticScopeKeys s) (ro_shadowStartedAt s) (ro_switchedAt s)
    (ro_mutationFrozen s) v.

(** [mutate]; the fault injection hook [beforeCommit] is left out. *)
Definition mutate (t : RolloutTables) (input : RolloutCommandBase) (action : RolloutAction) (now : Z)
  (next : Cg4RolloutSnapshot -> result RolloutFailure Cg4RolloutSnapshot)
  : result RolloutFailure (RolloutTables * Cg4RolloutSnapshot) :=
  actorRef ← rollout_nonEmpty (rc_actorRef input) "actorRef";
  evidenceRef ← rollout_nonEmpty (rc_evidenceRef input) "evidenceRef";
  reasonCode ← rollout_nonEmpty (rc_reasonCode input) "reasonCode";
  let current := loadCg4RolloutState t in
  throw_if (negb (ro_version current =? rc_expectedVersion input)) (Cg4RolloutError ROLLOUT_VERSION_CONFLICT) ;;
  planned ← next current;
  let updated := with_version planned (ro_version current + 1) in
  t1 ← write_rollout t current updated actorRef evidenceRef now;
  t2 ← append_history t1
    {| rt_id := fresh (rl_nextId t1); rt_action := action; rt_fromStage := ro_stage current;
       rt_toStage := ro_stage updated; rt_fromVersion := ro_version current; rt_toVersion := ro_version updated;
       rt_mutationFrozen := ro_mutationFrozen updated; rt_syntheticScopeKeys := ro_syntheticScopeKeys updated;
       rt_reasonCode := reasonCode; rt_actorRef := actorRef; rt_evidenceRef := evidenceRef;
       rt_stateDigest := rollout_digest updated; rt_occurredAt := now |};
  Ok (t2, updated).

(** The query's order: [seriesId] ascending, then [version] descending. *)
Definition callback_before (a b : CallbackRow) : bool :=
  if bool_decide (cq_seriesId a = cq_seriesId b) then cq_version b <=? cq_version a
  else str_le (cq_seriesId a) (cq_seriesId b).

(** [latest]: the first callback of each series. *)
Fixpoint first_per_series (latest : list (string * CallbackRow)) (cs : list CallbackRow) : list (string * CallbackRow) :=
  match cs with
  | [] => latest
  | c :: cs' =>
      first_per_series (if map_has (cq_seriesId c) latest then latest else map_set (cq_seriesId c) c latest) cs'
  end.

(** The request a callback is covered as: its channel and purpose alone. *)
Definition callback_request (c : CallbackRow) : Cg4PolicyScopeDimensions :=
  Dimensions (Some (channel_name (cq_channel c))) None (Some (cq_purpose c)) None.

Definition switch_references (current : Cg4RolloutSnapshot) (onlyPilot : bool) (callbacks : list CallbackRow)
  : list CallbackRow :=
  js_filter (fun c =>
      bool_decide (cq_mutationKind c = CB_REQUEST) &&
      bool_decide (is_Some (cq_approvedExceptionId c)) &&
      (negb onlyPilot || in_pilot (ro_syntheticScopeKeys current) (callback_request c)))
    (map_values (first_per_series [] callbacks)).

Definition live_callbacks (ev : Evidence) (now : Z) : list CallbackRow :=
  sort_by callback_before (js_filter (fun c => now <? cq_expiresAt c) (ev_callbacks ev)).

(** Every exception the references name has a canonical head. *)
Definition references_canonical (references : list CallbackRow) (heads : list string) : result RolloutFailure unit :=
  if bool_decide (length references = 0%nat) then Ok tt
  else
    let ids := set_to_array (omap cq_approvedExceptionId references) in
    let canonical := js_filter (fun id => includes ids id) heads in
    let orphans := js_filter (fun id => negb (includes canonical id)) ids in
    throw_if (0 <? Z.of_nat (length orphans)) (Cg4RolloutError ROLLOUT_CALLBACK_REF_NONCANONICAL).

Definition assertSwitchReady (ev : Evidence) (current : Cg4RolloutSnapshot) (plan : Cg4RolloutTransitionPlan) (now : Z)
  : result RolloutFailure unit :=
  throw_if (ro_mutationFrozen current) (Cg4RolloutError ROLLOUT_FROZEN) ;;
  let onlyPilot := bool_decide (pl_stage plan = SCOPED_SYNTHETIC) in
  let mismatches :=
    count_where (fun m => (default 0 (ro_shadowStartedAt current) <=? sm_detectedAt m) &&
                          (negb onlyPilot || sm_pilot m)) (ev_mismatches ev) in
  throw_if (0 <? mismatches) (Cg4RolloutError ROLLOUT_SHADOW_MISMATCH_UNRESOLVED) ;;
  let references := switch_references current onlyPilot (live_callbacks ev now) in
  references_canonical references (ev_exceptionHeads ev).

(** The callback [transition] passes to [mutate]. *)
Definition next_stage (ev : Evidence) (request : TransitionRequest) (now : Z) (current : Cg4RolloutSnapshot)
  : result RolloutFailure Cg4RolloutSnapshot :=
  plan ← planCg4RolloutTransition current request;
  let forward := stage_index (ro_stage current) <? stage_index (pl_stage plan) in
  (if forward && negb (bool_decide (pl_stage plan = SHADOW_EVALUATION))
   then assertSwitchReady ev current plan now else Ok tt) ;;
  throw_if (forward && bool_decide (pl_stage plan = SHADOW_EVALUATION) && (ev_ledger ev =? 0))
    (Cg4RolloutError ROLLOUT_BACKFILL_REQUIRED) ;;
  Ok (RolloutSnapshot (pl_stage plan) (pl_syntheticScopeKeys plan)
        (if bool_decide (pl_stage plan = DISABLED) then None
         else if pl_startsShadowWindow plan then Some now else ro_shadowStartedAt current)
        (if pl_switches plan then Some now else ro_switchedAt current)
        (ro_mutationFrozen current) (ro_version current)).

Definition transition (t : RolloutTables) (ev : Evidence) (input : RolloutCommandBase) (request : TransitionRequest) (now : Z)
  : result RolloutFailure (RolloutTables * Cg4RolloutSnapshot) :=
  mutate t input A_TRANSITION now (next_stage ev request now).

(** The callback [setFrozen] passes to [mutate]. *)
Definition next_frozen (frozen : bool) (current : Cg4RolloutSnapshot) : result RolloutFailure Cg4RolloutSnapshot :=
  throw_if (bool_decide (ro_mutationFrozen current = frozen)) (Cg4RolloutError ROLLOUT_INVALID_TRANSITION) ;;
  Ok (RolloutSnapshot (ro_stage current) (ro_syntheticScopeKeys current) (ro_shadowStartedAt current)
        (ro_switchedAt current) frozen (ro_version current)).

Definition setFrozen (t : RolloutTables) (input : RolloutCommandBase) (frozen : bool) (now : Z)
  : result RolloutFailure (RolloutTables * Cg4RolloutSnapshot) :=
  mutate t input (if frozen then A_FREEZE else A_UNFREEZE) now (next_frozen frozen).

Definition assertCg4MutationNotFrozen (t : RolloutTables) : result RolloutFailure unit :=
  throw_if (match rl_state t with Some row => ro_mutationFrozen (rr_snapshot row) | None => false end)
    (Cg4RolloutError ROLLOUT_MUTATION_FROZEN).

(** ** Histories of one tenant *)

Inductive rollout_step (t : RolloutTables) : RolloutTables -> Prop :=
  | Step_transition ev input request now t' s : transition t ev input request now = Ok (t', s) -> rollout_step t t'
  | Step_freeze input frozen now t' s : setFrozen t input frozen now = Ok (t', s) -> rollout_step t t'.

Definition rollout_steps : RolloutTables -> RolloutTables -> Prop := rtc rollout_step.

Definition empty_rollout : RolloutTables := RolloutTables_ None [] 0.
End Repository.

(** ** The state of a tenant's rollout *)

Definition switched (s : Cg4RolloutSnapshot) : Prop := SWITCHED_STAGE_INDEX <= stage_index (ro_stage s).

(** Pilot keys as a transition stores them. *)
Definition normalized (keys : list string) : Prop := normalizeScopeKeys keys = Ok keys.

Record snapshot_ok (s : Cg4RolloutSnapshot) : Prop := {
  so_switched : is_Some (ro_switchedAt s) <-> switched s;
  so_shadow : is_Some (ro_shadowStartedAt s) <-> ro_stage s <> DISABLED;
  so_keys : normalized (ro_syntheticScopeKeys s);
  so_pilot : ro_syntheticScopeKeys s = [] <-> ro_stage s = DISABLED;
}.

(** One row of the history: a transition moves one stage and never back over the switch, a freeze
    moves none. *)
Definition move_ok (h : RolloutTransition) : Prop :=
  rt_toVersion h = rt_fromVersion h + 1 /\
  match rt_action h with
  | A_TRANSITION =>
      Z.abs (stage_index (rt_toStage h) - stage_index (rt_fromStage h)) = 1 /\
      (SWITCHED_STAGE_INDEX <= stage_index (rt_fromStage h) -> SWITCHED_STAGE_INDEX <= stage_index (rt_toStage h))
  | A_FREEZE => rt_toStage h = rt_fromStage h /\ rt_mutationFrozen h = true
  | A_UNFREEZE => rt_toStage h = rt_fromStage h /\ rt_mutationFrozen h = false
  end.

(** The rows tell, without a gap, how the stage and the version got from one to the other. *)
Fixpoint tells (stage : Cg4RolloutStage) (version : Z) (hs : list RolloutTransition)
  (stage' : Cg4RolloutStage) (version' : Z) : Prop :=
  match hs with
  | [] => stage = stage' /\ version = version'
  | h :: hs' => rt_fromStage h = stage /\ rt_fromVersion h = version /\ move_ok h /\
                tells (rt_toStage h) (rt_toVersion h) hs' stage' version'
  end.

Record rollout_wf (t : RolloutTables) : Prop := {
  rw_row : rl_state t = None <-> ro_version (loadCg4RolloutState t) = 0;
  rw_snapshot : snapshot_ok (loadCg4RolloutState t);
  rw_history : tells DISABLED 0 (rl_history t) (ro_stage (loadCg4RolloutState t)) (ro_version (loadCg4RolloutState t));
}.

Lemma tells_app hs stage v stage1 v1 h : tells stage v hs stage1 v1 ->
  rt_fromStage h = stage1 -> rt_fromVersion h = v1 -> move_ok h ->
  tells stage v (hs ++ [h]) (rt_toStage h) (rt_toVersion h).
Proof.
  revert stage v. induction hs as [|x hs IH]; cbn; intros stage v H Hs Hv Hm.
  - destruct H as [-> ->]. by subst.
  - destruct H as (? & ? & ? & H). do 3 (split; [done|]). by apply IH.
Qed.

Lemma tells_versions hs stage v stage' v' : tells stage v hs stage' v' ->
  v' = v + Z.of_nat (length hs) /\ forall h, In h hs -> v < rt_toVersion h <= v'.
Proof.
  revert stage v. induction hs as [|x hs IH]; intros stage v H.
  { destruct H as [_ ->]. cbn. split; [lia|done]. }
  destruct H as (_ & Hv & [Hm _] & H). apply IH in H as [-> Hin]. cbn [length]. split; [lia|].
  intros h [<-|Hh]; [lia|]. specialize (Hin h Hh). lia.
Qed.

Lemma normalize_normalized keys ks : normalizeScopeKeys keys = Ok ks -> normalized ks.
Proof.
  unfold normalized, normalizeScopeKeys. rewrite !bind_throw_if_ok. intros [Hp [= <-]].
  set (ks := sort_by str_le (set_to_array (map trim keys))) in *.
  assert (Hin : forall x, In x ks -> exists k, x = trim k).
  { intros x Hx. apply sort_by_In, set_to_array_In, in_map_iff in Hx as (k & <- & _). by exists k. }
  assert (Ht : map trim ks = ks).
  { rewrite <- (map_id ks) at 2. apply map_ext_in. intros x Hx. destruct (Hin x Hx) as [k ->]. apply trim_idem. }
  assert (Hnd : List.NoDup ks).
  { apply (Permutation_NoDup (l := set_to_array (map trim keys)));
      [apply sort_by_perm|apply set_to_array_NoDup]. }
  assert (Hs : sort_by str_le (set_to_array (map trim ks)) = ks).
  { rewrite Ht, set_to_array_id by done. apply sort_by_sorted_id, sort_by_sorted.
    - apply str_le_total.
    - apply str_le_trans. }
  rewrite Hs. by destruct (js_every key_parses ks).
Qed.

Lemma normalized_nil : normalized [].
Proof. reflexivity. Qed.

(** ** Plans *)

Record planned (cur : Cg4RolloutSnapshot) (request : TransitionRequest) (plan : Cg4RolloutTransitionPlan) : Prop := {
  pd_stage : pl_stage plan = tq_toStage request;
  pd_one : Z.abs (stage_index (pl_stage plan) - stage_index (ro_stage cur)) = 1;
  pd_back : switched cur -> SWITCHED_STAGE_INDEX <= stage_index (pl_stage plan);
  pd_keys : normalized (pl_syntheticScopeKeys plan);
  pd_pilot : pl_syntheticScopeKeys plan = [] <-> pl_stage plan = DISABLED;
  pd_same : SWITCHED_STAGE_INDEX <= stage_index (pl_stage plan) -> pl_syntheticScopeKeys plan = ro_syntheticScopeKeys cur;
  pd_window : pl_startsShadowWindow plan = bool_decide (pl_stage plan = SHADOW_EVALUATION);
  pd_switches : pl_switches plan = bool_decide (pl_stage plan = SCOPED_SYNTHETIC) && (stage_index (ro_stage cur) <? stage_index (pl_stage plan));
}.

(** What the plan of a switch to the pilot asks of the keys of the request. *)
Definition same_pilot (cur : Cg4RolloutSnapshot) (given : option (list string)) : Prop :=
  forall keys, given = Some keys ->
    exists ks, normalizeScopeKeys keys = Ok ks /\ join newline ks = join newline (ro_syntheticScopeKeys cur).

Lemma keys_check_ok cur given :
  match given with
  | None => Ok tt
  | Some keys =>
      ks ← normalizeScopeKeys keys;
      throw_if (negb (bool_decide (join newline ks = join newline (ro_syntheticScopeKeys cur))))
        (Cg4RolloutError ROLLOUT_INVALID_TRANSITION)
  end = Ok tt <-> same_pilot cur given.
Proof.
  unfold same_pilot. destruct given as [keys|]; [|naive_solver]. split.
  - intros H keys' [= <-]. open_bind H ks Hks. apply throw_if_ok in H. bool_prop. by exists ks.
  - intros H. destruct (H keys eq_refl) as (ks & -> & He). cbn. by rewrite bool_decide_eq_true_2.
Qed.

Lemma plan_planned cur request plan : snapshot_ok cur ->
  planCg4RolloutTransition cur request = Ok plan -> planned cur request plan.
Proof.
  intros [Hs _ Hk Hp] H. unfold planCg4RolloutTransition in H.
  apply bind_throw_if_ok in H as [Hone H]. apply bind_throw_if_ok in H as [Hback H].
  apply orb_false_elim in Hone as [_ Hone]. apply negb_false_iff, Z.eqb_eq in Hone.
  assert (Hb : switched cur -> SWITCHED_STAGE_INDEX <= stage_index (tq_toStage request)).
  { intros Hsw. rewrite (bool_decide_eq_true_2 (is_Some _)) in Hback by by apply Hs.
    unfold switched, SWITCHED_STAGE_INDEX in *. cbn in *.
    destruct (Z.ltb_spec (stage_index (tq_toStage request)) (stage_index (ro_stage cur)));
      destruct (Z.ltb_spec (stage_index (tq_toStage request)) 2); cbn in *; try done; lia. }
  destruct (tq_toStage request) eqn:Et; cbn in H.
  - injection H as <-. by constructor; cbn; rewrite ?Et.
  - open_bind H ks Hks. apply bind_throw_if_ok in H as [Hl [= <-]]. bool_prop.
    constructor; cbn in *; rewrite ?Et; try done; try (by eapply normalize_normalized).
    split; [by intros ->|done].
  - assert (Hd : ro_stage cur <> DISABLED) by (intros Hd; rewrite Hd in Hone; cbn in Hone; lia).
    destruct (stage_index (ro_stage cur) <? 2) eqn:El; cbn in H.
    + open_bind H u Hu. injection H as <-. constructor; cbn in *; rewrite ?Et, ?El; naive_solver.
    + injection H as <-. constructor; cbn in *; rewrite ?Et, ?El; naive_solver.
  - assert (Hd : ro_stage cur <> DISABLED) by (intros Hd; rewrite Hd in Hone; cbn in Hone; lia).
    injection H as <-. constructor; cbn in *; rewrite ?Et; naive_solver.
Qed.

(** ** One command *)

Section Commands.
Context `{Host}.

(** What the next state of a command keeps of the current one. *)
Record next_ok (cur p : Cg4RolloutSnapshot) : Prop := {
  no_snapshot : snapshot_ok p;
  no_switched : is_Some (ro_switchedAt cur) -> ro_switchedAt p = ro_switchedAt cur;
  no_back : switched cur -> ro_syntheticScopeKeys p = ro_syntheticScopeKeys cur;
}.

Definition fields_given (input : RolloutCommandBase) : Prop :=
  trim (rc_actorRef input) <> "" /\ trim (rc_evidenceRef input) <> "" /\ trim (rc_reasonCode input) <> "".

Lemma rollout_nonEmpty_ok v f x : rollout_nonEmpty v f = Ok x <-> trim v <> "" /\ x = trim v.
Proof.
  unfold rollout_nonEmpty. rewrite bind_throw_if_ok, bool_decide_eq_false. naive_solver.
Qed.

(** The history row of a command. *)
Definition tells_command (cur s : Cg4RolloutSnapshot) (action : RolloutAction) (input : RolloutCommandBase) (now : Z)
  (h : RolloutTransition) : Prop :=
  rt_action h = action /\ rt_fromStage h = ro_stage cur /\ rt_toStage h = ro_stage s /\
  rt_fromVersion h = ro_version cur /\ rt_toVersion h = ro_version s /\
  rt_mutationFrozen h = ro_mutationFrozen s /\ rt_actorRef h = trim (rc_actorRef input) /\
  rt_evidenceRef h = trim (rc_evidenceRef input) /\ rt_reasonCode h = trim (rc_reasonCode input) /\
  rt_stateDigest h = rollout_digest s /\ rt_occurredAt h = now.

Lemma switched_check s : snapshot_ok s ->
  (SWITCHED_STAGE_INDEX <=? stage_index (ro_stage s)) = bool_decide (is_Some (ro_switchedAt s)).
Proof.
  intros [Hs _ _ _]. unfold switched in Hs.
  case_bool_decide as Hb; [apply Z.leb_le; by apply Hs|]. apply Z.leb_gt. rewrite Hs in Hb. lia.
Qed.

Lemma snapshot_checks s : snapshot_ok s -> 1 <= ro_version s -> row_checks s = true.
Proof.
  intros Hs Hv. unfold row_checks. rewrite (switched_check s Hs), (bool_decide_eq_true_2 (_ = _)) by done.
  rewrite (proj2 (Z.leb_le _ _)) by lia. cbn. destruct (decide (ro_stage s = DISABLED)) as [Hd|Hd].
  - by rewrite bool_decide_eq_true_2.
  - rewrite (bool_decide_eq_true_2 (is_Some _)) by by apply (so_shadow _ Hs). by rewrite orb_true_r.
Qed.

Lemma snapshot_ok_version s v : snapshot_ok s -> snapshot_ok (with_version s v).
Proof. intros []. by constructor. Qed.

Lemma row_guards cur p : next_ok cur p -> 0 <= ro_version cur ->
  let u := with_version p (ro_version cur + 1) in
  row_checks u = true /\ cg4_guard_rollout_state None u = true /\ cg4_guard_rollout_state (Some cur) u = true.
Proof.
  intros [Hs Hsw _] Hv u. split; [apply snapshot_checks; [by apply snapshot_ok_version|cbn; lia]|].
  unfold cg4_guard_rollout_state, u. cbn -[SWITCHED_STAGE_INDEX]. rewrite (switched_check p Hs), Z.eqb_refl, orb_negb_l.
  split; [done|]. cbn. rewrite andb_true_r, orb_true_iff, negb_true_iff, bool_decide_eq_false, bool_decide_eq_true.
  destruct (ro_switchedAt cur) eqn:E; [right; by apply Hsw|left; by intros [? ?]].
Qed.

Context (t : RolloutTables) (Hwf : rollout_wf t).
Notation cur := (loadCg4RolloutState t).

Lemma version_count : ro_version cur = Z.of_nat (length (rl_history t)).
Proof. destruct (tells_versions _ _ _ _ _ (rw_history _ Hwf)) as [-> _]. lia. Qed.

(** A command whose next state is sound goes through exactly when its fields are given and it names
    the current version; the checks of the database never refuse it. *)
Lemma mutate_spec input action now next :
  (forall p, next cur = Ok p -> next_ok cur p) ->
  match mutate t input action now next with
  | Ok (t', s) =>
      fields_given input /\ rc_expectedVersion input = ro_version cur /\
      exists p h row, next cur = Ok p /\ s = with_version p (ro_version cur + 1) /\
        rl_state t' = Some row /\ rr_snapshot row = s /\ tells_command cur s action input now h /\
        rl_history t' = rl_history t ++ [h]
  | Err e =>
      (exists f, e = BlankField f /\ ~ fields_given input) \/
      (e = Cg4RolloutError ROLLOUT_VERSION_CONFLICT /\ rc_expectedVersion input <> ro_version cur) \/
      next cur = Err e
  end.
Proof.
  intros Hnext. pose proof (rw_row _ Hwf) as Hnone. unfold mutate, fields_given.
  assert (Hf : forall v f, rollout_nonEmpty v f = if bool_decide (trim v = "") then Err (BlankField f) else Ok (trim v))
    by (intros; unfold rollout_nonEmpty; by case_bool_decide).
  rewrite (Hf (rc_actorRef input)). case_bool_decide; cbn; [left; naive_solver|].
  rewrite (Hf (rc_evidenceRef input)). case_bool_decide; cbn; [left; naive_solver|].
  rewrite (Hf (rc_reasonCode input)). case_bool_decide; cbn; [left; naive_solver|].
  destruct (Z.eqb_spec (ro_version cur) (rc_expectedVersion input)) as [Hv|Hv]; cbn; [|right; left; naive_solver].
  destruct (next cur) as [p|e] eqn:Hp; cbn; [|by do 2 right].
  pose proof version_count as Hc. destruct (row_guards cur p) as (Hr & Hg1 & Hg2); [by apply Hnext|lia|].
  set (u := with_version p (ro_version cur + 1)) in *.
  assert (Hnew : includes (map rt_toVersion (rl_history t)) (ro_version cur + 1) = false).
  { apply includes_false. intros Hin. apply in_map_iff in Hin as (h & He & Hin).
    apply (proj2 (tells_versions _ _ _ _ _ (rw_history _ Hwf))) in Hin. lia. }
  assert (Hu : ro_version u = ro_version cur + 1) by done.
  assert (Hold : rl_state t = None \/ exists row, rl_state t = Some row /\ rr_snapshot row = cur)
    by (unfold loadCg4RolloutState; destruct (rl_state t); eauto).
  assert (Hend : forall t1 h, rl_history t1 = rl_history t -> rt_toVersion h = ro_version cur + 1 ->
    rt_fromVersion h = ro_version cur -> append_history t1 h =
      Ok (RolloutTables_ (rl_state t1) (rl_history t1 ++ [h]) (S (rl_nextId t1)))).
  { intros t1 h E1 E2 E3. unfold append_history. by rewrite E1, E2, E3, Z.eqb_refl, Hnew. }
  unfold write_rollout. destruct Hold as [Hst|(row & Hst & Hrow)]; rewrite Hst.
  - rewrite (proj2 (Z.eqb_eq (ro_version cur) 0)) by by apply Hnone.
    cbn [negb throw_if mbind result_bind fmap option_fmap option_map].
    rewrite bool_decide_eq_false_2 by by intros [? ?]. rewrite Hg1, Hr.
    cbn [negb andb throw_if mbind result_bind]. rewrite Hend by done. cbn [mbind result_bind].
    split; [done|]. split; [done|]. exists p. do 2 eexists. do 3 (split; [done|]). split; [reflexivity|]. split; [|done].
    unfold tells_command. cbn. done.
  - rewrite (proj2 (Z.eqb_neq (ro_version cur) 0)) by (rewrite <- Hnone, Hst; done).
    rewrite Hrow, Z.eqb_refl. cbn [negb throw_if mbind result_bind fmap option_fmap option_map].
    rewrite Hrow, Hg2, Hr. cbn [negb andb throw_if mbind result_bind]. rewrite Hend by done. cbn [mbind result_bind].
    split; [done|]. split; [done|]. exists p. do 2 eexists. do 3 (split; [done|]). split; [reflexivity|].
    split; [|done]. unfold tells_command. cbn. done.
Qed.

Lemma next_stage_ok ev request now p : next_stage ev request now cur = Ok p ->
  next_ok cur p /\ ro_stage p = tq_toStage request /\
  Z.abs (stage_index (ro_stage p) - stage_index (ro_stage cur)) = 1 /\ ro_mutationFrozen p = ro_mutationFrozen cur.
Proof.
  intros Hok. unfold next_stage in Hok. open_bind Hok plan Hplan. apply bind_ok in Hok as (? & _ & Hok).
  apply bind_throw_if_ok in Hok as [_ [= <-]]. pose proof (rw_snapshot _ Hwf) as Hcur.
  destruct (plan_planned _ _ _ Hcur Hplan) as [Hst Hone Hback Hk Hp Hsame Hw Hsw].
  destruct Hcur as [Cs Csh _ _]. unfold switched in *. split; [|done].
  assert (Hsome : forall x : Z, is_Some (Some x)) by done.
  constructor; [constructor; [|..|done|done]|..]; cbn; rewrite ?Hw, ?Hsw; unfold switched; cbn;
    clear Hk Hp Hplan Hw Hsw.
  - destruct (pl_stage plan), (ro_stage cur); cbn in *; try lia; try rewrite Cs; split; intros; first [lia|done].
  - destruct (pl_stage plan), (ro_stage cur); cbn in *; try lia; try rewrite Csh; split; intros Hc; try done; by destruct Hc.
  - rewrite Cs. destruct (pl_stage plan), (ro_stage cur); cbn in *; intros; first [lia|done].
  - intros Hc. by apply Hsame, Hback.
Qed.

Lemma next_frozen_ok frozen p : next_frozen frozen cur = Ok p ->
  next_ok cur p /\ ro_stage p = ro_stage cur /\ ro_mutationFrozen p = frozen.
Proof.
  intros Hok. apply bind_throw_if_ok in Hok as [_ [= <-]]. split; [|done].
  by destruct (rw_snapshot _ Hwf); constructor; [constructor|..].
Qed.
End Commands.

(** ** Histories *)

Section Histories.
Context `{Host}.

Lemma empty_rollout_wf : rollout_wf empty_rollout.
Proof. constructor; [done| |done]. constructor; cbn; try done; split; try done; by intros [? ?]. Qed.

(** A command that goes through: the next state it stored and the row it appended. *)
Lemma command_wf t input action now next t' s : rollout_wf t ->
  (forall p, next (loadCg4RolloutState t) = Ok p -> next_ok (loadCg4RolloutState t) p) ->
  (forall p h, next (loadCg4RolloutState t) = Ok p ->
     tells_command (loadCg4RolloutState t) (with_version p (ro_version (loadCg4RolloutState t) + 1)) action input now h -> move_ok h) ->
  mutate t input action now next = Ok (t', s) ->
  rollout_wf t' /\ loadCg4RolloutState t' = s /\
  exists p, next (loadCg4RolloutState t) = Ok p /\ s = with_version p (ro_version (loadCg4RolloutState t) + 1).
Proof.
  intros Hwf Hnext Hmove Hm. pose proof (mutate_spec t Hwf input action now next Hnext) as Hs. rewrite Hm in Hs.
  destruct Hs as (_ & _ & p & h & row & Hp & -> & Hrow & Hrs & Ht & Hh).
  assert (Hl : loadCg4RolloutState t' = with_version p (ro_version (loadCg4RolloutState t) + 1))
    by (unfold loadCg4RolloutState; rewrite Hrow; done).
  split; [|by eauto]. pose proof (version_count t Hwf). constructor.
  - rewrite Hrow, Hl. cbn. split; [done|lia].
  - rewrite Hl. destruct (Hnext p Hp) as [[] _ _]. by constructor.
  - rewrite Hl, Hh. pose proof Ht as (_ & Hfs & <- & Hfv & <- & _).
    eapply tells_app; [apply (rw_history _ Hwf)|done|done|by eapply Hmove].
Qed.

Lemma next_stage_move t ev request now p h input : rollout_wf t -> next_stage ev request now (loadCg4RolloutState t) = Ok p ->
  tells_command (loadCg4RolloutState t) (with_version p (ro_version (loadCg4RolloutState t) + 1)) A_TRANSITION input now h ->
  move_ok h.
Proof.
  intros Hwf Hp (Ha & Hfs & Hts & Hfv & Htv & _). destruct (next_stage_ok t Hwf _ _ _ _ Hp) as (Hn & Hst & Hone & _).
  unfold move_ok. rewrite Ha, Hfs, Hts, Hfv, Htv. cbn. split; [done|]. split; [done|]. intros Hsw.
  destruct Hn as [[Ps _ _ _] Hk _]. apply Ps. rewrite Hk; by apply (rw_snapshot _ Hwf).
Qed.

Lemma next_frozen_move t frozen now p h input : rollout_wf t -> next_frozen frozen (loadCg4RolloutState t) = Ok p ->
  tells_command (loadCg4RolloutState t) (with_version p (ro_version (loadCg4RolloutState t) + 1))
    (if frozen then A_FREEZE else A_UNFREEZE) input now h ->
  move_ok h.
Proof.
  intros Hwf Hp (Ha & Hfs & Hts & Hfv & Htv & Hf & _). destruct (next_frozen_ok t Hwf _ _ Hp) as (_ & Hst & Hfr).
  unfold move_ok. rewrite Ha, Hfs, Hts, Hfv, Htv, Hf. cbn. split; [done|]. by destruct frozen.
Qed.

(** What a step leaves behind, by the stored state before and after it. *)
Lemma step_rollout t t' : rollout_wf t -> rollout_step t t' -> rollout_wf t' /\
  (exists p, next_ok (loadCg4RolloutState t) p /\ loadCg4RolloutState t' = with_version p (ro_version (loadCg4RolloutState t) + 1)).
Proof.
  intros Hwf [ev input request now t2 s Hs|input frozen now t2 s Hs].
  - apply command_wf in Hs as (Hwf' & -> & p & Hp & ->); [|done| |].
    + split; [done|]. exists p. split; [|done]. by eapply next_stage_ok.
    + intros p Hp. by eapply next_stage_ok.
    + intros p h. by apply next_stage_move.
  - apply command_wf in Hs as (Hwf' & -> & p & Hp & ->); [|done| |].
    + split; [done|]. exists p. split; [|done]. by eapply next_frozen_ok.
    + intros p Hp. by eapply next_frozen_ok.
    + intros p h. by apply next_frozen_move.
Qed.

Lemma steps_rollout_wf t t' : rollout_wf t -> rollout_steps t t' -> rollout_wf t'.
Proof. intros Hwf Hs. induction Hs as [|t1 t2 t3 H12 _ IH]; [done|]. by apply IH, (step_rollout t1). Qed.

Lemma reachable_rollout_wf t : rollout_steps empty_rollout t -> rollout_wf t.
Proof. apply steps_rollout_wf, empty_rollout_wf. Qed.

(** Errors that are not the database's. *)
Definition raised (e : RolloutFailure) : Prop := e <> GuardViolation /\ e <> UniqueViolation.

Lemma mutate_errors t input action now next e : rollout_wf t ->
  (forall p, next (loadCg4RolloutState t) = Ok p -> next_ok (loadCg4RolloutState t) p) ->
  mutate t input action now next = Err e -> errs_in raised (next (loadCg4RolloutState t)) -> raised e.
Proof.
  intros Hwf Hnext He Hn. pose proof (mutate_spec t Hwf input action now next Hnext) as Hs. rewrite He in Hs.
  destruct Hs as [(f & -> & _)|[[-> _]|Hs]]; [done|done|]. by rewrite Hs in Hn.
Qed.

Lemma normalize_errors keys : errs_in raised (normalizeScopeKeys keys).
Proof. apply errs_in_bind; [by apply errs_in_throw|done]. Qed.

Lemma plan_errors cur request : errs_in raised (planCg4RolloutTransition cur request).
Proof.
  unfold planCg4RolloutTransition. do 2 (apply errs_in_bind; [by apply errs_in_throw|intros _ _]).
  destruct (tq_toStage request); [done| | |].
  - apply errs_in_bind; [apply normalize_errors|intros ks _]. apply errs_in_bind; [by apply errs_in_throw|done].
  - destruct (_ && _); [|done]. apply errs_in_bind; [|done]. destruct (tq_syntheticScopeKeys request); [|done].
    apply errs_in_bind; [apply normalize_errors|intros; by apply errs_in_throw].
  - done.
Qed.

Lemma ready_errors ev cur plan now : errs_in raised (assertSwitchReady ev cur plan now).
Proof.
  unfold assertSwitchReady. do 2 (apply errs_in_bind; [by apply errs_in_throw|intros _ _]).
  unfold references_canonical. case_bool_decide; [done|by apply errs_in_throw].
Qed.

Lemma next_stage_errors ev request now cur : errs_in raised (next_stage ev request now cur).
Proof.
  apply errs_in_bind; [apply plan_errors|]. intros plan _. apply errs_in_bind; [|intros _ _].
  - destruct (_ && _); [apply ready_errors|done].
  - apply errs_in_bind; [by apply errs_in_throw|done].
Qed.

(** The state of a rollout is always one the database would accept, and its history accounts for
    it. Reached by any commands and any change of the evidence between them, the stored state has a
    switch time exactly when its stage is past the switch, a shadow window and pilot scopes exactly
    when it is not disabled, and its pilot scopes are a sorted set of canonical keys; the history rows
    lead without a gap from version 0 and DISABLED to the stored version and stage, each transition by
    one stage and none back over the switch. No command is ever refused by the checks, the trigger or
    the unique indexes of the two tables. *)
Theorem rollout_accounted t : rollout_steps empty_rollout t ->
  let s := loadCg4RolloutState t in
  snapshot_ok s /\ tells DISABLED 0 (rl_history t) (ro_stage s) (ro_version s) /\
  (forall row, rl_state t = Some row -> row_checks (rr_snapshot row) = true) /\
  (forall ev input request now e, transition t ev input request now = Err e -> raised e) /\
  (forall input frozen now e, setFrozen t input frozen now = Err e -> raised e).
Proof.
  intros Hr s. pose proof (reachable_rollout_wf t Hr) as Hwf. split; [apply Hwf|]. split; [apply Hwf|]. split; [|split].
  - intros row Hst. assert (He : rr_snapshot row = s) by (unfold s, loadCg4RolloutState; by rewrite Hst).
    rewrite He. apply snapshot_checks; [apply Hwf|]. pose proof (version_count t Hwf) as Hc. fold s in Hc.
    assert (Hz : ro_version s <> 0) by (unfold s; rewrite <- (rw_row _ Hwf), Hst; done). lia.
  - intros ev input request now e He. eapply mutate_errors; [done| |done|apply next_stage_errors].
    intros p Hp. by eapply next_stage_ok.
  - intros input frozen now e He. eapply mutate_errors; [done| |done|].
    + intros p Hp. by eapply next_frozen_ok.
    + apply errs_in_bind; [by apply errs_in_throw|done].
Qed.
(** The switch to the CG4 reader is final. Once a tenant's rollout has passed it, every later
    state, after any commands and any change of the evidence, is past it too, with the switch time and
    the pilot scopes it had, and every request of a pilot scope is read from the CG4 heads; the version
    never goes down. *)
Theorem switch_is_final t t' : rollout_steps empty_rollout t -> rollout_steps t t' ->
  switched (loadCg4RolloutState t) ->
  let s := loadCg4RolloutState t in
  let s' := loadCg4RolloutState t' in
  switched s' /\ ro_switchedAt s' = ro_switchedAt s /\ is_Some (ro_switchedAt s) /\
  ro_syntheticScopeKeys s' = ro_syntheticScopeKeys s /\ ro_version s <= ro_version s' /\
  forall request, in_pilot (ro_syntheticScopeKeys s) request = true ->
    rd_mode (cg4PolicyReaderFor s' request) = R_CG4 /\ rd_pilot (cg4PolicyReaderFor s' request) = true.
Proof.
  intros Hr Hsteps Hsw s s'. pose proof (reachable_rollout_wf t Hr) as Hwf.
  assert (Hmain : switched s' /\ ro_switchedAt s' = ro_switchedAt s /\
    ro_syntheticScopeKeys s' = ro_syntheticScopeKeys s /\ ro_version s <= ro_version s').
  { unfold s, s'. clear s s' Hr. induction Hsteps as [t|t1 t2 t3 H12 _ IH]; [done|].
    destruct (step_rollout t1 t2 Hwf H12) as (Hwf2 & Hst). pose proof (rw_snapshot _ Hwf) as Hs1.
    assert (H2 : switched (loadCg4RolloutState t2) /\
      ro_switchedAt (loadCg4RolloutState t2) = ro_switchedAt (loadCg4RolloutState t1) /\
      ro_syntheticScopeKeys (loadCg4RolloutState t2) = ro_syntheticScopeKeys (loadCg4RolloutState t1) /\
      ro_version (loadCg4RolloutState t1) <= ro_version (loadCg4RolloutState t2)).
    { destruct Hst as (p & [_ Hn Hk] & Hp).
      assert (Ha : is_Some (ro_switchedAt (loadCg4RolloutState t1))) by by apply (so_switched _ Hs1).
      split.
      - apply (so_switched _ (rw_snapshot _ Hwf2)). rewrite Hp. cbn. by rewrite Hn.
      - rewrite Hp. cbn. split; [by apply Hn|]. split; [by apply Hk|lia]. }
    destruct H2 as (Hsw2 & Hat & Hks & Hv). destruct (IH Hsw2 Hwf2) as (? & Hat' & Hks' & Hv').
    split; [done|]. split; [congruence|]. split; [congruence|lia]. }
  destruct Hmain as (Hsw' & Hat & Hks & Hv). split; [done|]. split; [done|].
  split; [by apply (so_switched _ (rw_snapshot _ Hwf))|]. split; [done|]. split; [done|].
  intros request Hp. unfold cg4PolicyReaderFor. rewrite Hks, Hp. unfold switched in Hsw'.
  by destruct (ro_stage s').
Qed.
End Histories.

(** ** When a switch goes through *)

Lemma first_per_series_get cs m k :
  map_get k (first_per_series m cs) =
  match map_get k m with Some c => Some c | None => js_find (fun c => bool_decide (cq_seriesId c = k)) cs end.
Proof.
  revert m. induction cs as [|c cs IH]; intros m; cbn; [by destruct (map_get k m)|]. rewrite IH.
  unfold map_has. destruct (decide (cq_seriesId c = k)) as [<-|Hne].
  - rewrite bool_decide_eq_true_2 by done. destruct (map_get (cq_seriesId c) m) eqn:E; [by rewrite E|].
    by rewrite map_get_set_eq.
  - rewrite (bool_decide_eq_false_2 (cq_seriesId c = k)) by done.
    destruct (map_get (cq_seriesId c) m); [done|]. by rewrite map_get_set_ne.
Qed.

Lemma first_per_series_wf cs m : map_wf m -> map_wf (first_per_series m cs).
Proof.
  revert m. induction cs as [|c cs IH]; intros m Hm; cbn; [done|]. apply IH.
  destruct (map_has _ m); [done|by apply map_set_wf].
Qed.

Lemma first_per_series_In cs c : In c (map_values (first_per_series [] cs)) <->
  js_find (fun x => bool_decide (cq_seriesId x = cq_seriesId c)) cs = Some c.
Proof.
  assert (Hwf : map_wf (first_per_series [] cs)) by (apply first_per_series_wf; constructor).
  split.
  - intros Hin. apply in_map_iff in Hin as ([k c'] & Hc & Hin). cbn in Hc. subst c'.
    apply (map_get_wf k c _ Hwf) in Hin. rewrite first_per_series_get in Hin. cbn in Hin.
    pose proof (find_In _ _ _ Hin) as [_ He]. bool_prop. by rewrite He.
  - intros Hf. apply in_map_iff. exists (cq_seriesId c, c). split; [done|]. apply map_get_In.
    by rewrite first_per_series_get.
Qed.

(** A callback is the last word of its series among those still live. *)
Definition latest_live (callbacks : list CallbackRow) (now : Z) (c : CallbackRow) : Prop :=
  In c callbacks /\ now < cq_expiresAt c /\
  forall c', In c' callbacks -> now < cq_expiresAt c' -> cq_seriesId c' = cq_seriesId c -> cq_version c' <= cq_version c.

Lemma callback_before_total a b : callback_before a b = true \/ callback_before b a = true.
Proof.
  unfold callback_before. destruct (decide (cq_seriesId a = cq_seriesId b)) as [He|He].
  - rewrite !bool_decide_eq_true_2 by done. rewrite !Z.leb_le. lia.
  - rewrite !bool_decide_eq_false_2 by done. apply str_le_total.
Qed.

Lemma callback_before_trans a b c : callback_before a b = true -> callback_before b c = true -> callback_before a c = true.
Proof.
  unfold callback_before. repeat case_bool_decide; try congruence; rewrite ?Z.leb_le; try lia.
  - intros L1 L2. exfalso. assert (cq_seriesId a = cq_seriesId b); [|done].
    apply str_le_antisym; [done|congruence].
  - apply str_le_trans.
Qed.

(** The first of a series in the query's order is its latest. *)
Lemma latest_found callbacks now c :
  (forall a b, In a callbacks -> In b callbacks -> cq_seriesId a = cq_seriesId b -> cq_version a = cq_version b -> a = b) ->
  js_find (fun x => bool_decide (cq_seriesId x = cq_seriesId c))
    (sort_by callback_before (js_filter (fun c => now <? cq_expiresAt c) callbacks)) = Some c <->
  latest_live callbacks now c.
Proof.
  intros Huniq. set (l := sort_by _ _).
  assert (Hl : forall x, In x l <-> In x callbacks /\ now < cq_expiresAt x)
    by (intros x; unfold l; rewrite sort_by_In, filter_In, Z.ltb_lt; done).
  pose proof (sort_by_sorted callback_before callback_before_total callback_before_trans
                (js_filter (fun c => now <? cq_expiresAt c) callbacks)) as Hs. fold l in Hs.
  assert (Hfirst : forall x, js_find (fun x => bool_decide (cq_seriesId x = cq_seriesId c)) l = Some x ->
    cq_seriesId x = cq_seriesId c /\ In x l /\ forall y, In y l -> cq_seriesId y = cq_seriesId c -> cq_version y <= cq_version x).
  { clear Hl. induction Hs as [|y l' _ IH Hy]; intros x Hf; cbn in Hf; [done|].
    case_bool_decide as He.
    - injection Hf as ->. split; [done|]. split; [by left|]. intros z [->|Hz] Hzs; [lia|].
      rewrite List.Forall_forall in Hy. specialize (Hy z Hz). unfold callback_before in Hy.
      rewrite bool_decide_eq_true_2 in Hy by congruence. bool_prop. lia.
    - destruct (IH x Hf) as (Hx & Hin & Hmax). split; [done|]. split; [by right|].
      intros z [->|Hz] Hzs; [done|by apply Hmax]. }
  unfold latest_live. split.
  - intros Hf. destruct (Hfirst c Hf) as (_ & Hin & Hmax). apply Hl in Hin as [Hin Hlive].
    split; [done|]. split; [done|]. intros c' Hc' Hl' Hs'. by apply Hmax; [apply Hl|].
  - intros (Hin & Hlive & Hmax).
    destruct (js_find _ l) as [x|] eqn:Hf.
    + destruct (Hfirst x eq_refl) as (Hx & Hxl & Hxm). f_equal. pose proof (proj1 (Hl x) Hxl) as [Hxc Hxlive].
      apply Huniq; [done|done|done|]. specialize (Hmax x Hxc Hxlive Hx).
      specialize (Hxm c (proj2 (Hl c) (conj Hin Hlive)) eq_refl). lia.
    + assert (Hc : In c l) by by apply Hl. apply (find_none _ _ Hf) in Hc. by rewrite bool_decide_eq_true_2 in Hc.
Qed.

Lemma includes_filter (l heads : list string) id :
  In id l -> includes (js_filter (fun x => includes l x) heads) id = true <-> In id heads.
Proof. intros Hl. rewrite includes_spec, filter_In, includes_spec. tauto. Qed.

Lemma canonical_spec refs heads : references_canonical refs heads = Ok tt <->
  forall c id, In c refs -> cq_approvedExceptionId c = Some id -> In id heads.
Proof.
  unfold references_canonical. set (ids := set_to_array _).
  assert (Hids : forall id, In id ids <-> exists c, In c refs /\ cq_approvedExceptionId c = Some id).
  { intros id. unfold ids. rewrite set_to_array_In, <- list_elem_of_In, list_elem_of_omap.
    setoid_rewrite list_elem_of_In. done. }
  case_bool_decide as Hlen; [apply length_zero_iff_nil in Hlen; rewrite Hlen; naive_solver|].
  cbv zeta. rewrite throw_if_ok, Z.ltb_ge. split.
  - intros Hz c id Hc Hid. assert (Hin : In id ids) by (apply Hids; eauto).
    destruct (js_filter _ ids) eqn:Ef; [|cbn in Hz; lia].
    apply (proj1 (filter_nil _ _)) with (x := id) in Ef; [|done].
    apply negb_false_iff in Ef. by apply includes_filter in Ef.
  - intros Hall. rewrite (proj2 (filter_nil _ ids)); [cbn; lia|]. intros id Hid.
    apply negb_false_iff, includes_filter; [done|]. apply Hids in Hid as (c & Hc & Hc'). by eapply Hall.
Qed.

Section Ready.
Context `{Host}.

(** What [assertSwitchReady] asks of the evidence. *)
Record ready (ev : Evidence) (cur : Cg4RolloutSnapshot) (onlyPilot : bool) (now : Z) : Prop := {
  re_frozen : ro_mutationFrozen cur = false;
  re_clean : forall m, In m (ev_mismatches ev) -> default 0 (ro_shadowStartedAt cur) <= sm_detectedAt m ->
               onlyPilot = true /\ sm_pilot m = false;
  re_callbacks : forall c id, latest_live (ev_callbacks ev) now c -> cq_mutationKind c = CB_REQUEST ->
               cq_approvedExceptionId c = Some id ->
               (onlyPilot = true -> in_pilot (ro_syntheticScopeKeys cur) (callback_request c) = true) ->
               In id (ev_exceptionHeads ev);
}.

Definition callbacks_unique (ev : Evidence) : Prop :=
  forall a b, In a (ev_callbacks ev) -> In b (ev_callbacks ev) -> cq_seriesId a = cq_seriesId b ->
    cq_version a = cq_version b -> a = b.

Lemma references_In ev cur onlyPilot now c : callbacks_unique ev ->
  In c (switch_references cur onlyPilot (live_callbacks ev now)) <->
  latest_live (ev_callbacks ev) now c /\ cq_mutationKind c = CB_REQUEST /\ is_Some (cq_approvedExceptionId c) /\
  (onlyPilot = true -> in_pilot (ro_syntheticScopeKeys cur) (callback_request c) = true).
Proof.
  intros Hu. unfold switch_references, live_callbacks. rewrite filter_In, first_per_series_In, latest_found by done.
  rewrite !andb_true_iff, !bool_decide_eq_true, orb_true_iff, negb_true_iff. destruct onlyPilot; naive_solver.
Qed.

Lemma ready_spec ev cur plan now : callbacks_unique ev ->
  assertSwitchReady ev cur plan now = Ok tt <-> ready ev cur (bool_decide (pl_stage plan = SCOPED_SYNTHETIC)) now.
Proof.
  intros Hu. unfold assertSwitchReady. cbv zeta. rewrite !bind_throw_if_ok.
  set (op := bool_decide (pl_stage plan = SCOPED_SYNTHETIC)).
  set (refs := switch_references cur op (live_callbacks ev now)).
  assert (Hclean : (0 <? count_where (fun m => (default 0 (ro_shadowStartedAt cur) <=? sm_detectedAt m) &&
      (negb op || sm_pilot m)) (ev_mismatches ev)) = false <->
    forall m, In m (ev_mismatches ev) -> default 0 (ro_shadowStartedAt cur) <= sm_detectedAt m -> op = true /\ sm_pilot m = false).
  { rewrite <- not_true_iff_false, Z.ltb_lt, count_where_pos. split.
    - intros Hno m Hm Hd. destruct op eqn:Eo, (sm_pilot m) eqn:Ep; try done; exfalso; apply Hno; exists m;
        (split; [done|]); rewrite ?Ep, (proj2 (Z.leb_le _ _)) by done; done.
    - intros Hall (m & Hm & Ht). apply andb_prop in Ht as [Ht1 Ht2]. bool_prop.
      destruct (Hall m Hm) as [-> Hp]; [done|]. by rewrite Hp in Ht2. }
  rewrite Hclean, canonical_spec. unfold refs. setoid_rewrite references_In; [|done]. split.
  - intros (Hf & Hm & Hc). constructor; [done|done|]. intros c id Hl Hk Hi Hp. eapply Hc; [|done]. naive_solver.
  - intros [Hf Hm Hc]. split; [done|]. split; [done|]. intros c id (Hl & Hk & _ & Hp) Hi. by eapply Hc.
Qed.
(** The plan of a switch. *)
Lemma plan_forward s request :
  SWITCHED_STAGE_INDEX <= stage_index (tq_toStage request) -> stage_index (tq_toStage request) = stage_index (ro_stage s) + 1 ->
  let to := tq_toStage request in
  (forall plan, planCg4RolloutTransition s request = Ok plan ->
     plan = TransitionPlan to (ro_syntheticScopeKeys s) false (bool_decide (to = SCOPED_SYNTHETIC))) /\
  (is_ok (planCg4RolloutTransition s request) = true <->
     (bool_decide (to = SCOPED_SYNTHETIC) = true -> same_pilot s (tq_syntheticScopeKeys request))).
Proof.
  intros Hto Hone to. unfold planCg4RolloutTransition, SWITCHED_STAGE_INDEX in *. 
  change (stage_index SCOPED_SYNTHETIC) with 2 in *. rewrite Hone.
  replace (Z.abs (stage_index (ro_stage s) + 1 - stage_index (ro_stage s)) =? 1) with true
    by (symmetry; apply Z.eqb_eq; lia).
  rewrite (proj2 (Z.ltb_ge (stage_index (ro_stage s) + 1) 0)) by lia.
  rewrite (proj2 (Z.ltb_ge (stage_index (ro_stage s) + 1) (stage_index (ro_stage s)))) by lia.
  rewrite (proj2 (Z.ltb_lt (stage_index (ro_stage s)) (stage_index (ro_stage s) + 1))) by lia.
  unfold to. destruct (tq_toStage request); cbn in Hto; try lia; cbn.
  - rewrite <- keys_check_ok. destruct (match tq_syntheticScopeKeys request with None => _ | Some _ => _ end) as [[]|];
      cbn; naive_solver.
  - naive_solver.
Qed.

Lemma next_stage_ready ev s request now : callbacks_unique ev ->
  SWITCHED_STAGE_INDEX <= stage_index (tq_toStage request) -> stage_index (tq_toStage request) = stage_index (ro_stage s) + 1 ->
  let onlyPilot := bool_decide (tq_toStage request = SCOPED_SYNTHETIC) in
  is_ok (next_stage ev request now s) = true <->
  (onlyPilot = true -> same_pilot s (tq_syntheticScopeKeys request)) /\ ready ev s onlyPilot now.
Proof.
  intros Hu Hto Hone onlyPilot. destruct (plan_forward s request Hto Hone) as [Hplan Hok]. unfold onlyPilot.
  rewrite <- Hok. unfold next_stage. destruct (planCg4RolloutTransition s request) as [plan|]; cbn [is_ok mbind result_bind];
    [|naive_solver].
  rewrite (Hplan plan eq_refl). cbn [pl_stage pl_switches pl_startsShadowWindow pl_syntheticScopeKeys].
  rewrite (proj2 (Z.ltb_lt _ _)) by lia. assert (Hn : tq_toStage request <> SHADOW_EVALUATION)
    by (intros E; rewrite E in Hto; unfold SWITCHED_STAGE_INDEX in Hto; cbn in Hto; lia).
  rewrite (bool_decide_eq_false_2 (_ = SHADOW_EVALUATION)) by done. cbn [andb negb].
  rewrite <- (ready_spec ev s (TransitionPlan (tq_toStage request) (ro_syntheticScopeKeys s) false
                (bool_decide (tq_toStage request = SCOPED_SYNTHETIC))) now Hu).
  destruct (assertSwitchReady _ _ _ _) as [[]|]; cbn; naive_solver.
Qed.

(** When a switch goes through. A tenant whose shadow is running is switched to its pilot scopes, and
    one that is switched is enabled for every scope, exactly when the command names its actor, evidence,
    reason and the current version, the pilot named (if any, at the switch) is the one that was shadowed,
    mutation is not frozen, no mismatch was recorded since the shadow window began (on a pilot scope, at
    the switch), and every live callback that relies on an exception names one that exists (of those a
    pilot scope covers, at the switch). *)
Theorem switch_ready_iff t ev input request now : rollout_steps empty_rollout t -> callbacks_unique ev ->
  let s := loadCg4RolloutState t in
  SWITCHED_STAGE_INDEX <= stage_index (tq_toStage request) -> stage_index (tq_toStage request) = stage_index (ro_stage s) + 1 ->
  let onlyPilot := bool_decide (tq_toStage request = SCOPED_SYNTHETIC) in
  is_ok (transition t ev input request now) = true <->
  fields_given input /\ rc_expectedVersion input = ro_version s /\
  (onlyPilot = true -> same_pilot s (tq_syntheticScopeKeys request)) /\ ready ev s onlyPilot now.
Proof.
  intros Hr Hu s Hto Hone onlyPilot. pose proof (reachable_rollout_wf t Hr) as Hwf.
  pose proof (mutate_spec t Hwf input A_TRANSITION now (next_stage ev request now)
    (fun p Hp => proj1 (next_stage_ok t Hwf ev request now p Hp))) as Hs.
  pose proof (next_stage_ready ev s request now Hu Hto Hone) as Hnext. fold onlyPilot in Hnext.
  unfold transition. fold s in Hs |- *. destruct (mutate _ _ _ _ _) as [[t' s']|e]; cbn.
  - destruct Hs as (Hf & Hv & p & h & row & Hp & _). split; [|done]. intros _. split; [done|]. split; [done|].
    apply Hnext. by rewrite Hp.
  - split; [done|]. intros (Hf & Hv & Hrest). apply Hnext in Hrest.
    destruct Hs as [(f & _ & Hn)|[[_ Hn]|Hn]]; [done|done|]. by rewrite Hn in Hrest.
Qed.
End Ready.

(** ** A worked rollout *)

(** No rollout decision depends on a digest. *)
Definition plain_host : Host :=
  {| sha256_hex _ := "digest"; locale_le := str_le; fresh n := show (Z.of_nat n) |}.

Definition command (version : Z) : RolloutCommandBase := RolloutCommand version "operator:1" "ticket:42" "PILOT".

Definition all_voice : string := "channel=VOICE|contactKind=*|purpose=*|sourceType=*".
Definition voice_people : string := "channel=VOICE|contactKind=PERSON|purpose=*|sourceType=*".

(** The tables after a command that goes through. *)
Definition after (r : result RolloutFailure (RolloutTables * Cg4RolloutSnapshot)) (t : RolloutTables) : RolloutTables :=
  match r with Ok (t', _) => t' | Err _ => t end.

Definition advance `{Host} (ev : Evidence) (version : Z) (stage : Cg4RolloutStage) (keys : option (list string)) (now : Z)
  (t : RolloutTables) : RolloutTables :=
  after (transition t ev (command version) (TransitionRequest_ stage keys) now) t.

Lemma advance_steps `{Host} ev version stage keys now t t0 : rollout_steps t0 t ->
  rollout_steps t0 (advance ev version stage keys now t).
Proof.
  intros Hr. unfold advance, after. destruct (transition _ _ _ _ _) as [[t' s]|e] eqn:E; [|done].
  eapply rtc_r; [done|]. by eapply Step_transition.
Qed.

(** A callback that relies on an exception, and evidence with it. *)
Definition callback_on (id : string) : CallbackRow :=
  CallbackRow_ "callback-1" "series-1" 1 "contact-1" None VOICE "SERVICE" 1000 "Asia/Bangkok" 5000 "AGENT" None "token"
    (Some id) CB_REQUEST None "ticket:7" "hash" "AGENT".

Definition evidence (id : string) (heads : list string) : Evidence := Evidence_ 1 [] [callback_on id] heads.
Definition backfilled : Evidence := Evidence_ 1 [] [] [].

Definition shadowed (key : string) : RolloutTables :=
  @advance plain_host backfilled 0 SHADOW_EVALUATION (Some [key]) 1000 empty_rollout.
Definition piloted : RolloutTables := @advance plain_host backfilled 1 SCOPED_SYNTHETIC None 2000 (shadowed all_voice).
Definition enabled : RolloutTables := @advance plain_host backfilled 2 INTERNAL_ENABLED None 3000 piloted.

Lemma shadowed_reachable key : @rollout_steps plain_host empty_rollout (shadowed key).
Proof. unfold shadowed. apply advance_steps, rtc_refl. Qed.

Lemma piloted_reachable : @rollout_steps plain_host empty_rollout piloted.
Proof. apply advance_steps, shadowed_reachable. Qed.

Lemma rollout_accounted_witness :
  tells DISABLED 0 (rl_history enabled) INTERNAL_ENABLED 3 /\
  ro_syntheticScopeKeys (loadCg4RolloutState enabled) = [all_voice].
Proof.
  split; [|vm_compute; reflexivity].
  assert (Hs : ro_stage (loadCg4RolloutState enabled) = INTERNAL_ENABLED) by (vm_compute; reflexivity).
  assert (Hv : ro_version (loadCg4RolloutState enabled) = 3) by (vm_compute; reflexivity).
  rewrite <- Hs, <- Hv.
  exact (proj1 (proj2 (@rollout_accounted plain_host enabled (advance_steps _ _ _ _ _ _ _ piloted_reachable)))).
Defined.

Lemma switch_is_final_witness :
  let s := loadCg4RolloutState enabled in
  ro_switchedAt s = Some 2000 /\
  rd_mode (cg4PolicyReaderFor s (Dimensions (Some "VOICE") None (Some "SERVICE") None)) = R_CG4.
Proof.
  split; [vm_compute; reflexivity|].
  apply (@switch_is_final plain_host piloted enabled piloted_reachable);
    [by apply advance_steps|vm_compute; discriminate|vm_compute; reflexivity].
Defined.

Lemma switch_ready_iff_witness :
  is_ok (@transition plain_host (shadowed all_voice) (evidence "exception-1" ["exception-1"]) (command 1)
           (TransitionRequest_ SCOPED_SYNTHETIC None) 2000) = true /\
  is_ok (@transition plain_host (shadowed all_voice) (evidence "exception-1" []) (command 1)
           (TransitionRequest_ SCOPED_SYNTHETIC None) 2000) = false.
Proof.
  split; [|vm_compute; reflexivity].
  apply (@switch_ready_iff plain_host _ (evidence "exception-1" ["exception-1"]) _
           (TransitionRequest_ SCOPED_SYNTHETIC None) 2000 (shadowed_reachable all_voice)).
  - intros a b [<-|[]] [<-|[]]; reflexivity.
  - vm_compute. discriminate.
  - vm_compute. reflexivity.
  - split; [repeat split; vm_compute; discriminate|]. split; [vm_compute; reflexivity|].
    split; [intros _ keys Hk; discriminate Hk|]. constructor; [vm_compute; reflexivity|intros m []|].
    intros c id [[<-|[]] _] _ Hid _. injection Hid as <-. left. reflexivity.
Defined.

(** A pilot bound to a contact kind or a source checks no callback. A callback is matched to the
    pilot by its channel and purpose alone, and an unbound dimension never matches a bound one: with the
    pilot [channel=VOICE, contactKind=PERSON] a live voice callback that relies on an exception no one
    ever granted does not stop the switch, although the requests it is made for are in the pilot and are
    read from the CG4 heads from then on; the pilot [channel=VOICE] would have stopped it. *)
Theorem narrow_pilot_unchecked : exists t t' s,
  @rollout_steps plain_host empty_rollout t /\
  latest_live (ev_callbacks (evidence "missing" [])) 2000 (callback_on "missing") /\
  @transition plain_host t (evidence "missing" []) (command 1) (TransitionRequest_ SCOPED_SYNTHETIC None) 2000 = Ok (t', s) /\
  rd_mode (cg4PolicyReaderFor s (cg4PolicyRequestScope "VOICE" "SERVICE" (Some "PERSON") None)) = R_CG4 /\
  @transition plain_host (shadowed all_voice) (evidence "missing" []) (command 1)
    (TransitionRequest_ SCOPED_SYNTHETIC None) 2000 = Err (Cg4RolloutError ROLLOUT_CALLBACK_REF_NONCANONICAL).
Proof.
  exists (shadowed voice_people).
  destruct (@transition plain_host (shadowed voice_people) (evidence "missing" []) (command 1)
    (TransitionRequest_ SCOPED_SYNTHETIC None) 2000) as [[t' s]|e] eqn:E; [|vm_compute in E; discriminate].
  exists t', s. split; [apply shadowed_reachable|]. split; [|split; [reflexivity|]].
  - split; [by left|]. split; [done|]. by intros c' [<-|[]].
  - split; [|vm_compute; reflexivity].
    vm_compute in E. injection E as _ <-. vm_compute. reflexivity.
Qed.
