(* ===== verification/ExceptionStore.v ===== *)
(** * ExceptionStore: the tables and the commands of approved exceptions

    The three commands that move an exception series, as the source runs them inside one tenant
    transaction: [recordException] of [cg4-foundation-repository.ts], [recordExceptionApproval] of
    [cg4-approval-repository.ts] and [transition] of [cg4-exception-lifecycle.ts] (all under
    [apps/contact-governance/src]), with [nextContactStreamVersion] of [cg4-contact-stream.ts],
    and the route [decide] of [apps/api/src/contact-governance-cg4-api.ts] that votes and then
    finalizes. The rows of one tenant are lists and insertion-ordered maps; a transaction that
    throws leaves the store as it was. [recordException] takes the contact's advisory lock first
    and runs as one step; [transition] reads the head and its revision before it takes the lock,
    so it is two functions, [begin_transition] and [commit_transition], with other commands in
    between. *)
From stdpp Require Import base tactics list strings.
From Stdlib Require Import ZArith Lia Ascii Sorting.Permutation.
From S2P Require Import Prelude JsMap Text JsDate JsValue Contracts RuleRegistry ScopeKey ExceptionEval Authorization Persistence.

Open Scope string_scope.
Open Scope Z_scope.
Open Scope list_scope.

(** ** Rows *)

Record ExceptionRow := ExceptionRow_ {
  xr_id : string;
  xr_exceptionId : string;
  xr_revision : Z;
  xr_contactId : string;
  xr_identityId : option string;
  xr_scopeKind : Cg4IdentityScopeKind;
  xr_channel : string;
  xr_purpose : string;
  xr_sourceType : string;
  xr_sourceId : string;
  xr_allowedRuleCodes : list string;
  xr_policyId : string;
  xr_policyVersion : Z;
  xr_policyContentDigest : string;
  xr_registryVersion : string;
  xr_startsAt : Z;
  xr_expiresAt : Z;
  xr_tier : Cg4ExceptionRiskTier;
  xr_reasonCode : string;
  xr_ticketRef : option string;
  xr_evidenceRef : string;
  xr_actorRef : string;
  xr_requestHash : string;
  xr_supersedesId : option string;
  xr_renewsExceptionId : option string;
  xr_createdAt : Z;
}.

Record ExceptionHead := ExceptionHead_ {
  xh_currentRevisionId : string;
  xh_currentRevision : Z;
  xh_status : Cg4ExceptionWorkflowState;
}.

(** A vote's row: its key, its decision, and the columns [toRecordedApproval] reads. *)
Record ApprovalRow := ApprovalRow_ {
  ar_id : string;
  ar_exceptionId : string;
  ar_exceptionRevision : Z;
  ar_approved : bool;
  ar_vote : Cg4RecordedApproval;
}.

Record PolicyRow := PolicyRow_ {
  pl_policyId : string;
  pl_version : Z;
  pl_content : jsval;
  pl_contentDigest : string;
  pl_registryVersion : string;
  pl_status : string;
}.

Record ContactHead := ContactHead_ {
  ct_aggregateVersion : Z;
  ct_currentDigest : string;
  ct_latestMutationId : string;
}.

Record OutboxEvent := OutboxEvent_ {
  ev_id : string;
  ev_mutationId : string;
  ev_aggregateId : string;
  ev_aggregateVersion : Z;
  ev_eventType : string;
  ev_payload : jsval;
  ev_payloadHash : string;
}.

Record AuditEntry := AuditEntry_ {
  au_mutationId : string;
  au_aggregateId : string;
  au_aggregateVersion : Z;
  au_action : string;
  au_actorRef : string;
  au_evidenceRef : string;
  au_beforeDigest : option string;
  au_afterDigest : string;
  au_occurredAt : Z;
}.

Record RecordResult := RecordResult_ {
  rr_mutationId : string;
  rr_eventId : string;
  rr_aggregateVersion : Z;
  rr_exception : ExceptionRow;
}.

Record VoteResult := VoteResult_ { vr_approvalId : string; vr_quorum : Cg4QuorumEvaluation }.

Record TransitionResult := TransitionResult_ {
  tr_mutationId : string;
  tr_eventId : string;
  tr_aggregateVersion : Z;
  tr_exceptionId : string;
  tr_revision : Z;
  tr_workflowState : Cg4ExceptionWorkflowState;
  tr_effectiveState : Cg4ExceptionEffectiveState;
  tr_quorum : option Cg4QuorumEvaluation;
}.

Record Store := Store_ {
  st_contacts : list string;
  st_identities : list (string * string);
  st_policies : list PolicyRow;
  st_exceptions : list ExceptionRow;
  st_heads : list (string * ExceptionHead);
  st_approvals : list ApprovalRow;
  st_contactHeads : list (string * ContactHead);
  st_streams : list (string * Z);
  st_outbox : list OutboxEvent;
  st_audit : list AuditEntry;
  st_recorded : receipts RecordResult;
  st_voted : receipts VoteResult;
  st_transitioned : receipts TransitionResult;
  st_nextId : nat;
}.

Inductive StoreError :=
  | INVALID_INPUT
  | IDEMPOTENCY_CONFLICT
  | RESOURCE_NOT_FOUND
  | VERSION_CONFLICT (expected actual : Z)
  | POLICY_BINDING_INVALID
  | INVALID_LIFECYCLE_TRANSITION (from to : Cg4ExceptionWorkflowState)
  | EXCEPTION_SCOPE_CONFLICT (conflictingExceptionId : string)
  | UNIQUE_VIOLATION
  | NOT_AUTHORIZED (e : AuthorizationError).

Abbreviation stored := (result StoreError).

Definition authorize {A} (r : authorized A) : stored A :=
  match r with Ok a => Ok a | Err e => Err (NOT_AUTHORIZED e) end.

(** [if (receipt) ... ] : the stored response, a conflict, or nothing. *)
Definition replay {R} (rs : receipts R) (key requestHash : string) : stored (option R) :=
  match map_get key rs with
  | Some (hash, response) =>
      if negb (bool_decide (hash = requestHash)) then Err IDEMPOTENCY_CONFLICT else Ok (Some response)
  | None => Ok None
  end.

Definition find_row (s : Store) (id : string) : option ExceptionRow :=
  js_find (fun r => bool_decide (xr_id r = id)) (st_exceptions s).

Definition require_nonempty (values : list string) : stored unit :=
  throw_if (js_some (fun v => negb (nonblank v)) values) INVALID_INPUT.

(** [if (value) nonEmpty(value)] *)
Definition require_nonempty_if_given (value : option string) : stored unit :=
  match truthy value with Some v => require_nonempty [v] | None => Ok tt end.

Definition require_instant `{Runtime} (value : string) : stored Z :=
  from_option (date_parse value) INVALID_INPUT.

(** [nextContactStreamVersion] *)
Definition nextContactStreamVersion (streams : list (string * Z)) (contactId : string)
  : Z * list (string * Z) :=
  let version := match map_get contactId streams with Some v => v + 1 | None => 1 end in
  (version, map_set contactId version streams).

Definition contact_version (s : Store) (contactId : string) : Z :=
  match map_get contactId (st_contactHeads s) with Some h => ct_aggregateVersion h | None => 0 end.

Definition contact_digest (s : Store) (contactId : string) : option string :=
  ct_currentDigest <$> map_get contactId (st_contactHeads s).

Definition state_name (w : Cg4ExceptionWorkflowState) : string :=
  match w with
  | W_PENDING => "PENDING" | W_APPROVED => "APPROVED" | W_REJECTED => "REJECTED"
  | W_CANCELLED => "CANCELLED" | W_REVOKED => "REVOKED"
  end.
Definition tier_name (t : Cg4ExceptionRiskTier) : string :=
  match t with STANDARD => "STANDARD" | HIGH => "HIGH" | EMERGENCY => "EMERGENCY" end.
Definition scope_kind_name (k : Cg4IdentityScopeKind) : string :=
  match k with EXACT_IDENTITY => "IDENTITY" | CONTACT_WIDE => "CONTACT_WIDE" end.

(** ** [recordException] *)

Record RecordCg4ExceptionInput := RecordInput {
  ri_tenantId : string;
  ri_contactId : string;
  ri_identityId : option string;
  ri_scopeKind : Cg4IdentityScopeKind;
  ri_channel : string;
  ri_purpose : string;
  ri_sourceType : string;
  ri_sourceId : string;
  ri_allowedRuleCodes : list string;
  ri_policyId : string;
  ri_policyVersion : Z;
  ri_policyContentDigest : string;
  ri_registryVersion : string;
  ri_startsAt : string;
  ri_expiresAt : string;
  ri_tier : Cg4ExceptionRiskTier;
  ri_reasonCode : string;
  ri_ticketRef : option string;
  ri_evidenceRef : string;
  ri_actorRef : string;
  ri_occurredAt : string;
  ri_exceptionId : option string;
  ri_renewsExceptionId : option string;
  ri_idempotencyKey : string;
  ri_expectedVersion : Z;
}.

Definition CG4_SOURCE_TYPES : list string :=
  ["JOURNEY"; "CAMPAIGN"; "DIALER"; "CHANNEL"; "SURVEY"; "AGENT"; "EXTERNAL"].

(** The input once validated. *)
Record ValidRecord := ValidRecord_ {
  vi_occurredAt : Z;
  vi_startsAt : Z;
  vi_expiresAt : Z;
  vi_allowedRuleCodes : list string;
}.

Definition validate_record `{Runtime} (i : RecordCg4ExceptionInput) : stored ValidRecord :=
  require_nonempty [ri_tenantId i; ri_contactId i; ri_purpose i; ri_sourceType i; ri_sourceId i;
    ri_policyId i; ri_registryVersion i; ri_reasonCode i; ri_evidenceRef i; ri_actorRef i;
    ri_idempotencyKey i] ;;
  require_nonempty_if_given (ri_exceptionId i) ;;
  require_nonempty_if_given (ri_identityId i) ;;
  require_nonempty_if_given (ri_ticketRef i) ;;
  require_nonempty_if_given (ri_renewsExceptionId i) ;;
  throw_if (negb (includes CG4_SOURCE_TYPES (ri_sourceType i))) INVALID_INPUT ;;
  throw_if (match ri_scopeKind i, truthy (ri_identityId i) with
            | EXACT_IDENTITY, None | CONTACT_WIDE, Some _ => true
            | _, _ => false
            end) INVALID_INPUT ;;
  throw_if (ri_policyVersion i <? 1) INVALID_INPUT ;;
  throw_if (ri_expectedVersion i <? 0) INVALID_INPUT ;;
  throw_if (negb (is_ok (assertCg4Digest (ri_policyContentDigest i)))) INVALID_INPUT ;;
  occurredAt ← require_instant (ri_occurredAt i);
  startsAt ← require_instant (ri_startsAt i);
  expiresAt ← require_instant (ri_expiresAt i);
  throw_if (expiresAt <=? startsAt) INVALID_INPUT ;;
  require_nonempty (ri_allowedRuleCodes i) ;;
  let codes := sort_by str_le (set_to_array (map trim (ri_allowedRuleCodes i))) in
  throw_if (bool_decide (codes = [])) INVALID_INPUT ;;
  Ok (ValidRecord_ occurredAt startsAt expiresAt codes).

Definition record_hash `{Host} (i : RecordCg4ExceptionInput) (v : ValidRecord) : string :=
  stableDigest (JObj
    [("tenantId", JStr (ri_tenantId i)); ("contactId", JStr (ri_contactId i));
     ("identityId", text_or_null (ri_identityId i)); ("scopeKind", JStr (scope_kind_name (ri_scopeKind i)));
     ("channel", JStr (ri_channel i)); ("purpose", JStr (ri_purpose i));
     ("sourceType", JStr (ri_sourceType i)); ("sourceId", JStr (ri_sourceId i));
     ("allowedRuleCodes", JArr (map JStr (vi_allowedRuleCodes v)));
     ("policyId", JStr (ri_policyId i)); ("policyVersion", JNum (NInt (ri_policyVersion i)));
     ("policyContentDigest", JStr (ri_policyContentDigest i));
     ("registryVersion", JStr (ri_registryVersion i));
     ("startsAt", JStr (toISOString (vi_startsAt v))); ("expiresAt", JStr (toISOString (vi_expiresAt v)));
     ("tier", JStr (tier_name (ri_tier i))); ("reasonCode", JStr (ri_reasonCode i));
     ("ticketRef", text_or_null (ri_ticketRef i)); ("evidenceRef", JStr (ri_evidenceRef i));
     ("actorRef", JStr (ri_actorRef i)); ("occurredAt", JStr (toISOString (vi_occurredAt v)));
     ("exceptionId", text_or_null (ri_exceptionId i));
     ("renewsExceptionId", text_or_null (ri_renewsExceptionId i));
     ("expectedVersion", JNum (NInt (ri_expectedVersion i)))]).

(** [policyAllowedRuleCodes]: an array of strings that are not blank. *)
Definition policyAllowedRuleCodes (content : jsval) : stored (list string) :=
  match content with
  | JObj fs | JInstance fs =>
      match field "allowedOperationalRuleCodes" fs with
      | JArr l =>
          map_result (fun e => match e with
                               | JStr s => if nonblank s then Ok s else Err POLICY_BINDING_INVALID
                               | _ => Err POLICY_BINDING_INVALID
                               end) l
      | _ => Err POLICY_BINDING_INVALID
      end
  | _ => Err POLICY_BINDING_INVALID
  end.

(** The contact, its identity and the pinned policy version, and the eligibility of every rule. *)
Definition check_binding (s : Store) (i : RecordCg4ExceptionInput) (v : ValidRecord) : stored unit :=
  throw_if (negb (includes (st_contacts s) (ri_contactId i))) RESOURCE_NOT_FOUND ;;
  throw_if (match truthy (ri_identityId i) with
            | Some identity => negb (includes (st_identities s) (identity, ri_contactId i))
            | None => false
            end) RESOURCE_NOT_FOUND ;;
  policy ← from_option
    (js_find (fun p => bool_decide (pl_policyId p = ri_policyId i) &&
                       (pl_version p =? ri_policyVersion i)) (st_policies s)) POLICY_BINDING_INVALID;
  throw_if (negb (includes ["PUBLISHED"; "SCHEDULED"; "ACTIVE"] (pl_status policy))) POLICY_BINDING_INVALID ;;
  throw_if (negb (bool_decide (pl_contentDigest policy = ri_policyContentDigest i)) ||
            negb (bool_decide (pl_registryVersion policy = ri_registryVersion i))) POLICY_BINDING_INVALID ;;
  policyRules ← policyAllowedRuleCodes (pl_content policy);
  let codes := vi_allowedRuleCodes v in
  let lifetimeSeconds := (vi_expiresAt v - vi_startsAt v) / 1000 in
  throw_if (negb (js_every (fun ruleCode =>
      eligible (resolveCg4OverrideEligibility
        (EligibilityInput ruleCode APPROVED_EXCEPTION (ri_scopeKind i) policyRules (ri_tier i)
           (Z.of_nat (length codes)) lifetimeSeconds))) codes)) POLICY_BINDING_INVALID.

(** The series a request amends must be pending and of the same contact. *)
Definition check_series (s : Store) (i : RecordCg4ExceptionInput) (head : option ExceptionHead)
  : stored unit :=
  match head with
  | None => Ok tt
  | Some h =>
      throw_if (negb (js_some (fun r => bool_decide (xr_id r = xh_currentRevisionId h) &&
                                        bool_decide (xr_contactId r = ri_contactId i))
                        (st_exceptions s))) RESOURCE_NOT_FOUND ;;
      throw_if (negb (bool_decide (xh_status h = W_PENDING)))
        (INVALID_LIFECYCLE_TRANSITION (xh_status h) W_PENDING)
  end.

(** A renewed series must exist and be of the same contact. *)
Definition check_renewal (s : Store) (i : RecordCg4ExceptionInput) : stored unit :=
  match truthy (ri_renewsExceptionId i) with
  | None => Ok tt
  | Some renewedId =>
      renewed ← from_option (map_get renewedId (st_heads s)) RESOURCE_NOT_FOUND;
      throw_if (negb (js_some (fun r => bool_decide (xr_id r = xh_currentRevisionId renewed) &&
                                        bool_decide (xr_contactId r = ri_contactId i))
                        (st_exceptions s))) RESOURCE_NOT_FOUND
  end.

(** [view(row)]: the rows of a store share their tenant, its identifier is an argument. *)
Definition view (tenantId : string) (r : ExceptionRow) : jsval :=
  JObj ([("id", JStr (xr_id r)); ("tenantId", JStr tenantId); ("exceptionId", JStr (xr_exceptionId r));
         ("revision", JNum (NInt (xr_revision r))); ("contactId", JStr (xr_contactId r))] ++
        (match truthy (xr_identityId r) with Some x => [("identityId", JStr x)] | None => [] end) ++
        [("scopeKind", JStr (scope_kind_name (xr_scopeKind r))); ("channel", JStr (xr_channel r));
         ("purpose", JStr (xr_purpose r)); ("sourceType", JStr (xr_sourceType r));
         ("sourceId", JStr (xr_sourceId r)); ("allowedRuleCodes", JArr (map JStr (xr_allowedRuleCodes r)));
         ("policyId", JStr (xr_policyId r)); ("policyVersion", JNum (NInt (xr_policyVersion r)));
         ("policyContentDigest", JStr (xr_policyContentDigest r));
         ("registryVersion", JStr (xr_registryVersion r));
         ("startsAt", JStr (toISOString (xr_startsAt r))); ("expiresAt", JStr (toISOString (xr_expiresAt r)));
         ("tier", JStr (tier_name (xr_tier r))); ("status", JStr "PENDING");
         ("reasonCode", JStr (xr_reasonCode r))] ++
        (match truthy (xr_ticketRef r) with Some x => [("ticketRef", JStr x)] | None => [] end) ++
        [("evidenceRef", JStr (xr_evidenceRef r)); ("actorRef", JStr (xr_actorRef r));
         ("createdAt", JStr (toISOString (xr_createdAt r)))]).

Definition new_row (i : RecordCg4ExceptionInput) (v : ValidRecord) (id exceptionId requestHash : string)
  (head : option ExceptionHead) (now : Z) : ExceptionRow :=
  ExceptionRow_ id exceptionId
    (match head with Some h => xh_currentRevision h | None => 0 end + 1)
    (ri_contactId i) (ri_identityId i) (ri_scopeKind i) (ri_channel i) (ri_purpose i)
    (ri_sourceType i) (ri_sourceId i) (vi_allowedRuleCodes v) (ri_policyId i) (ri_policyVersion i)
    (ri_policyContentDigest i) (ri_registryVersion i) (vi_startsAt v) (vi_expiresAt v) (ri_tier i)
    (ri_reasonCode i) (ri_ticketRef i) (ri_evidenceRef i) (ri_actorRef i) requestHash
    (xh_currentRevisionId <$> head) (ri_renewsExceptionId i) now.

(** What every command that changes a contact's exceptions writes besides its own rows: the
    contact's head, the next stream version, one event and one audit entry. *)
Record Change := Change_ {
  cg_contactId : string;
  cg_mutationId : string;
  cg_eventId : string;
  cg_afterDigest : string;
  cg_eventType : string;
  cg_payload : Z -> jsval;
  cg_action : string;
  cg_actorRef : string;
  cg_evidenceRef : string;
  cg_occurredAt : Z;
}.

Definition publish `{Host} (s : Store) (c : Change) : Store :=
  let contactId := cg_contactId c in
  let '(streamVersion, streams) := nextContactStreamVersion (st_streams s) contactId in
  let payload := cg_payload c streamVersion in
  {| st_contacts := st_contacts s; st_identities := st_identities s; st_policies := st_policies s;
     st_exceptions := st_exceptions s; st_heads := st_heads s; st_approvals := st_approvals s;
     st_contactHeads :=
       map_set contactId (ContactHead_ (contact_version s contactId + 1) (cg_afterDigest c)
                            (cg_mutationId c)) (st_contactHeads s);
     st_streams := streams;
     st_outbox := st_outbox s ++
       [OutboxEvent_ (cg_eventId c) (cg_mutationId c) contactId streamVersion (cg_eventType c) payload
          (stableDigest payload)];
     st_audit := st_audit s ++
       [AuditEntry_ (cg_mutationId c) contactId streamVersion (cg_action c) (cg_actorRef c)
          (cg_evidenceRef c) (contact_digest s contactId) (cg_afterDigest c) (cg_occurredAt c)];
     st_recorded := st_recorded s; st_voted := st_voted s; st_transitioned := st_transitioned s;
     st_nextId := st_nextId s |}.

(** The revision row and its head. *)
Definition insert_revision (s : Store) (row : ExceptionRow) : Store :=
  {| st_contacts := st_contacts s; st_identities := st_identities s; st_policies := st_policies s;
     st_exceptions := st_exceptions s ++ [row];
     st_heads := map_set (xr_exceptionId row)
                   (ExceptionHead_ (xr_id row) (xr_revision row) W_PENDING) (st_heads s);
     st_approvals := st_approvals s; st_contactHeads := st_contactHeads s; st_streams := st_streams s;
     st_outbox := st_outbox s; st_audit := st_audit s; st_recorded := st_recorded s;
     st_voted := st_voted s; st_transitioned := st_transitioned s; st_nextId := st_nextId s |}.

Definition keep_recorded (s : Store) (key hash : string) (r : RecordResult) : Store :=
  {| st_contacts := st_contacts s; st_identities := st_identities s; st_policies := st_policies s;
     st_exceptions := st_exceptions s; st_heads := st_heads s; st_approvals := st_approvals s;
     st_contactHeads := st_contactHeads s; st_streams := st_streams s; st_outbox := st_outbox s;
     st_audit := st_audit s; st_recorded := map_set key (hash, r) (st_recorded s);
     st_voted := st_voted s; st_transitioned := st_transitioned s;
     st_nextId := (st_nextId s + 4)%nat |}.

Definition recorded_payload (i : RecordCg4ExceptionInput) (v : ValidRecord)
  (mutationId afterDigest : string) (streamVersion : Z) : jsval :=
  JObj ([("contractVersion", JNum (NInt 1)); ("mutationId", JStr mutationId);
         ("subjectVersion", JNum (NInt streamVersion))] ++
        (match truthy (ri_identityId i) with Some x => [("identityId", JStr x)] | None => [] end) ++
        [("affectedScope", JObj [("identityId", text_or_null (ri_identityId i));
            ("channel", JStr (ri_channel i)); ("purpose", JStr (ri_purpose i)); ("contactKind", JNull)]);
         ("effectiveAt", JStr (toISOString (vi_startsAt v)));
         ("policyVersion", JNum (NInt (ri_policyVersion i))); ("stateDigest", JStr afterDigest)]).

(** The response and the store after it, at the database clock [now]. *)
Definition recordException `{Runtime, Host} (s : Store) (i : RecordCg4ExceptionInput) (now : Z)
  : stored (RecordResult * Store) :=
  v ← validate_record i;
  let requestHash := record_hash i v in
  previous ← replay (st_recorded s) (ri_idempotencyKey i) requestHash;
  match previous with
  | Some response => Ok (response, s)
  | None =>
      check_binding s i v ;;
      let actualVersion := contact_version s (ri_contactId i) in
      throw_if (negb (actualVersion =? ri_expectedVersion i))
        (VERSION_CONFLICT (ri_expectedVersion i) actualVersion) ;;
      let next := st_nextId s in
      let exceptionId := default (fresh next) (ri_exceptionId i) in
      let head := map_get exceptionId (st_heads s) in
      check_series s i head ;;
      check_renewal s i ;;
      let mutationId := fresh (next + 1) in
      let row := new_row i v (fresh (next + 2)) exceptionId requestHash head now in
      let eventId := fresh (next + 3) in
      let afterDigest := stableDigest (JObj
        [("previous", text_or_null (contact_digest s (ri_contactId i))); ("exception", view (ri_tenantId i) row)]) in
      let change := Change_ (ri_contactId i) mutationId eventId afterDigest "exception.recorded"
        (recorded_payload i v mutationId afterDigest) "CG4_EXCEPTION_RECORDED" (ri_actorRef i)
        (ri_evidenceRef i) (vi_occurredAt v) in
      let response := RecordResult_ mutationId eventId (actualVersion + 1) row in
      Ok (response,
          keep_recorded (publish (insert_revision s row) change) (ri_idempotencyKey i) requestHash response)
  end.

(** ** [recordExceptionApproval] *)

Inductive Cg4ApprovalDecision := APPROVE | REJECT.
#[export] Instance Cg4ApprovalDecision_eq_dec : EqDecision Cg4ApprovalDecision.
Proof. solve_decision. Defined.

Definition decision_name (d : Cg4ApprovalDecision) : string :=
  match d with APPROVE => "APPROVE" | REJECT => "REJECT" end.

Record RecordCg4ExceptionApprovalInput := VoteInput {
  va_tenantId : string;
  va_exceptionId : string;
  va_expectedRevision : Z;
  va_expectedContentDigest : string;
  va_decision : Cg4ApprovalDecision;
  va_evidenceRef : string;
  va_makerSubjectId : string;
  va_scopeKey : string;
  va_checker : Cg4AuthorizationSubject;
  va_idempotencyKey : string;
}.

Definition vote_hash `{Host} (i : RecordCg4ExceptionApprovalInput) : string :=
  stableDigest (JObj
    [("tenantId", JStr (va_tenantId i)); ("exceptionId", JStr (va_exceptionId i));
     ("expectedRevision", JNum (NInt (va_expectedRevision i)));
     ("expectedContentDigest", JStr (va_expectedContentDigest i));
     ("decision", JStr (decision_name (va_decision i))); ("evidenceRef", JStr (va_evidenceRef i));
     ("makerSubjectId", JStr (va_makerSubjectId i)); ("scopeKey", JStr (va_scopeKey i));
     ("checkerSubjectId", JStr (sub_subjectId (va_checker i)));
     ("authorizationEpoch", JNum (NInt (sub_authorizationEpoch (va_checker i))));
     ("scopeVersion", JNum (NInt (sub_scopeVersion (va_checker i))))]).

(** The head, its revision and the two version checks both commands start with. *)
Definition load_revision (s : Store) (exceptionId : string) (expectedRevision : Z)
  (expectedContentDigest : string) : stored (ExceptionHead * ExceptionRow) :=
  head ← from_option (map_get exceptionId (st_heads s)) RESOURCE_NOT_FOUND;
  throw_if (negb (xh_currentRevision head =? expectedRevision))
    (VERSION_CONFLICT expectedRevision (xh_currentRevision head)) ;;
  revision ← from_option (find_row s (xh_currentRevisionId head)) RESOURCE_NOT_FOUND;
  throw_if (negb (bool_decide (xr_requestHash revision = expectedContentDigest)))
    (VERSION_CONFLICT expectedRevision (xh_currentRevision head)) ;;
  Ok (head, revision).

(** The rows of [cg4ExceptionApproval] of one revision. *)
Definition approvals_of (s : Store) (exceptionId : string) (revision : Z) : list ApprovalRow :=
  js_filter (fun a => bool_decide (ar_exceptionId a = exceptionId) &&
                      (ar_exceptionRevision a =? revision)) (st_approvals s).

(** [create] with the unique key (exception, revision, approver) of the table. *)
Definition insert_vote (s : Store) (row : ApprovalRow) (audit : AuditEntry) : stored Store :=
  throw_if (js_some (fun a => bool_decide (ra_checkerSubjectId (ar_vote a) = ra_checkerSubjectId (ar_vote row)))
              (approvals_of s (ar_exceptionId row) (ar_exceptionRevision row))) UNIQUE_VIOLATION ;;
  Ok {| st_contacts := st_contacts s; st_identities := st_identities s; st_policies := st_policies s;
        st_exceptions := st_exceptions s; st_heads := st_heads s;
        st_approvals := st_approvals s ++ [row]; st_contactHeads := st_contactHeads s;
        st_streams := st_streams s; st_outbox := st_outbox s; st_audit := st_audit s ++ [audit];
        st_recorded := st_recorded s; st_voted := st_voted s; st_transitioned := st_transitioned s;
        st_nextId := st_nextId s |}.

Definition keep_voted (s : Store) (key hash : string) (r : VoteResult) : Store :=
  {| st_contacts := st_contacts s; st_identities := st_identities s; st_policies := st_policies s;
     st_exceptions := st_exceptions s; st_heads := st_heads s; st_approvals := st_approvals s;
     st_contactHeads := st_contactHeads s; st_streams := st_streams s; st_outbox := st_outbox s;
     st_audit := st_audit s; st_recorded := st_recorded s;
     st_voted := map_set key (hash, r) (st_voted s); st_transitioned := st_transitioned s;
     st_nextId := (st_nextId s + 4)%nat |}.

Definition new_vote (i : RecordCg4ExceptionApprovalInput) (id : string) (capability : Cg4Capability)
  (grant : Cg4CapabilityGrant) (now : Z) : ApprovalRow :=
  ApprovalRow_ id (va_exceptionId i) (va_expectedRevision i) (bool_decide (va_decision i = APPROVE))
    (RecordedApproval (sub_subjectId (va_checker i)) capability
       (sub_directComplianceAuthority (va_checker i)) (sub_emergencyAuthority (va_checker i))
       (cgr_source grant) (truthy (cgr_delegationId grant)) (sub_authorizationEpoch (va_checker i))
       (sub_scopeVersion (va_checker i)) (toISOString now)).

Definition recordExceptionApproval `{Runtime, Host} (s : Store) (i : RecordCg4ExceptionApprovalInput)
  (now : Z) : stored (VoteResult * Store) :=
  require_nonempty [va_tenantId i; va_exceptionId i; va_evidenceRef i; va_makerSubjectId i;
    va_scopeKey i; va_idempotencyKey i] ;;
  let requestHash := vote_hash i in
  previous ← replay (st_voted s) (va_idempotencyKey i) requestHash;
  match previous with
  | Some response => Ok (response, s)
  | None =>
      loaded ← load_revision s (va_exceptionId i) (va_expectedRevision i) (va_expectedContentDigest i);
      let exception := snd loaded in
      let existingApprovals :=
        map ar_vote (approvals_of s (va_exceptionId i) (va_expectedRevision i)) in
      let requiredCapability := resolveCg4RequiredExceptionCapability (xr_tier exception) in
      grant ← authorize (assertCg4ApprovalAuthorization
        (ApprovalInput requiredCapability (va_checker i) (va_scopeKey i) (va_makerSubjectId i)
           existingApprovals now));
      let next := st_nextId s in
      let approval := new_vote i (fresh next) requiredCapability grant now in
      let allApprovals := existingApprovals ++ [ar_vote approval] in
      let quorum := evaluateCg4Quorum (resolveCg4ExceptionQuorum (xr_tier exception)) allApprovals
                      (bool_decide (va_decision i = REJECT)) now in
      let audit := AuditEntry_ (fresh (next + 1)) (xr_contactId exception) (va_expectedRevision i)
        (if bool_decide (va_decision i = APPROVE) then "CG4_EXCEPTION_APPROVAL_RECORDED"
         else "CG4_EXCEPTION_REJECTION_RECORDED")
        (sub_subjectId (va_checker i)) (va_evidenceRef i) (Some (xr_requestHash exception))
        (xr_requestHash exception) now in
      let response := VoteResult_ (ar_id approval) quorum in
      s' ← insert_vote s approval audit;
      Ok (response, keep_voted s' (va_idempotencyKey i) requestHash response)
  end.

(** ** [transition] *)

Inductive Cg4ExceptionTransitionAction := T_APPROVE | T_REJECT | T_CANCEL | T_REVOKE.
#[export] Instance Cg4ExceptionTransitionAction_eq_dec : EqDecision Cg4ExceptionTransitionAction.
Proof. solve_decision. Defined.

Definition action_name (a : Cg4ExceptionTransitionAction) : string :=
  match a with
  | T_APPROVE => "APPROVE" | T_REJECT => "REJECT" | T_CANCEL => "CANCEL" | T_REVOKE => "REVOKE"
  end.

(** [TRANSITIONS]: from, to, kind. *)
Definition TRANSITIONS (a : Cg4ExceptionTransitionAction)
  : Cg4ExceptionWorkflowState * Cg4ExceptionWorkflowState * string :=
  match a with
  | T_APPROVE => (W_PENDING, W_APPROVED, "EXCEPTION_APPROVED")
  | T_REJECT => (W_PENDING, W_REJECTED, "EXCEPTION_REJECTED")
  | T_CANCEL => (W_PENDING, W_CANCELLED, "EXCEPTION_CANCELLED")
  | T_REVOKE => (W_APPROVED, W_REVOKED, "EXCEPTION_REVOKED")
  end.

Definition resolveCg4TransitionTarget (action : Cg4ExceptionTransitionAction)
  (from : Cg4ExceptionWorkflowState) : stored (Cg4ExceptionWorkflowState * string) :=
  let '(from', to, kind) := TRANSITIONS action in
  throw_if (negb (bool_decide (from' = from))) (INVALID_LIFECYCLE_TRANSITION from to) ;;
  Ok (to, kind).

Definition cg4ExceptionsOverlap (left right : ExceptionRow) : bool :=
  let sameScope :=
    bool_decide (xr_identityId left = xr_identityId right) &&
    bool_decide (xr_channel left = xr_channel right) &&
    bool_decide (xr_purpose left = xr_purpose right) &&
    bool_decide (xr_sourceType left = xr_sourceType right) &&
    bool_decide (xr_sourceId left = xr_sourceId right) in
  if negb sameScope then false
  else if negb (js_some (includes (xr_allowedRuleCodes right)) (xr_allowedRuleCodes left)) then false
  else (xr_startsAt left <? xr_expiresAt right) && (xr_startsAt right <? xr_expiresAt left).

Definition capabilityFor (action : Cg4ExceptionTransitionAction) (tier : Cg4ExceptionRiskTier)
  : Cg4Capability :=
  match action with
  | T_APPROVE | T_REJECT => resolveCg4RequiredExceptionCapability tier
  | T_CANCEL => CG_EXCEPTION_AMEND
  | T_REVOKE => CG_EXCEPTION_REVOKE
  end.

Record TransitionCg4ExceptionInput := TransitionInput {
  ti_tenantId : string;
  ti_exceptionId : string;
  ti_expectedRevision : Z;
  ti_expectedContentDigest : string;
  ti_action : Cg4ExceptionTransitionAction;
  ti_reasonCode : string;
  ti_evidenceRef : string;
  ti_actor : Cg4AuthorizationSubject;
  ti_scopeKey : string;
  ti_occurredAt : string;
  ti_expectedVersion : Z;
  ti_idempotencyKey : string;
}.

Definition transition_hash `{Host} (i : TransitionCg4ExceptionInput) : string :=
  stableDigest (JObj
    [("tenantId", JStr (ti_tenantId i)); ("exceptionId", JStr (ti_exceptionId i));
     ("expectedRevision", JNum (NInt (ti_expectedRevision i)));
     ("expectedContentDigest", JStr (ti_expectedContentDigest i));
     ("action", JStr (action_name (ti_action i))); ("reasonCode", JStr (ti_reasonCode i));
     ("evidenceRef", JStr (ti_evidenceRef i)); ("actorSubjectId", JStr (sub_subjectId (ti_actor i)));
     ("authorizationEpoch", JNum (NInt (sub_authorizationEpoch (ti_actor i))));
     ("scopeVersion", JNum (NInt (sub_scopeVersion (ti_actor i)))); ("scopeKey", JStr (ti_scopeKey i));
     ("expectedVersion", JNum (NInt (ti_expectedVersion i)))]).

(** What [transition] has read when it asks for the contact's lock. *)
Record Begun := Begun_ {
  bg_occurredAt : Z;
  bg_head : ExceptionHead;
  bg_revision : ExceptionRow;
}.

(** Up to the lock: the response of a command already run, or what it read. *)
Definition begin_transition `{Runtime, Host} (s : Store) (i : TransitionCg4ExceptionInput)
  : stored (TransitionResult + Begun) :=
  require_nonempty [ti_tenantId i; ti_exceptionId i; ti_reasonCode i; ti_evidenceRef i;
    ti_scopeKey i; ti_idempotencyKey i] ;;
  occurredAt ← require_instant (ti_occurredAt i);
  previous ← replay (st_transitioned s) (ti_idempotencyKey i) (transition_hash i);
  match previous with
  | Some response => Ok (inl response)
  | None =>
      loaded ← load_revision s (ti_exceptionId i) (ti_expectedRevision i) (ti_expectedContentDigest i);
      Ok (inr (Begun_ occurredAt (fst loaded) (snd loaded)))
  end.

(** The votes [transition] counts: the approving rows, without their delegations. *)
Definition counted_votes (rows : list ApprovalRow) : list Cg4RecordedApproval :=
  map (fun row =>
    let v := ar_vote row in
    RecordedApproval (ra_checkerSubjectId v) (ra_capability v) (ra_directComplianceAuthority v)
      (ra_emergencyAuthority v) (ra_source v) None (ra_authorizationEpoch v) (ra_scopeVersion v)
      (ra_decidedAt v))
    (js_filter ar_approved rows).

(** The current revisions of the approved series among the candidates, and the first that overlaps. *)
Definition find_conflict (s : Store) (exceptionId : string) (revision : ExceptionRow)
  : option ExceptionRow :=
  let candidates :=
    js_filter (fun row => bool_decide (xr_contactId row = xr_contactId revision) &&
                          negb (bool_decide (xr_exceptionId row = exceptionId)) &&
                          (xr_startsAt revision <? xr_expiresAt row) &&
                          (xr_startsAt row <? xr_expiresAt revision)) (st_exceptions s) in
  let seriesIds := set_to_array (map xr_exceptionId candidates) in
  let activeHeads :=
    js_filter (fun e => includes seriesIds (fst e) && bool_decide (xh_status (snd e) = W_APPROVED))
      (st_heads s) in
  let activeRevisionIds := map (fun e => xh_currentRevisionId (snd e)) activeHeads in
  js_find (cg4ExceptionsOverlap revision)
    (js_filter (fun candidate => includes activeRevisionIds (xr_id candidate)) candidates).

(** [APPROVE]: the quorum of the recorded votes, then the overlap check. *)
Definition check_approval `{Runtime} (s : Store) (i : TransitionCg4ExceptionInput)
  (revision : ExceptionRow) (now : Z) : stored Cg4QuorumEvaluation :=
  let approvalRows := approvals_of s (ti_exceptionId i) (ti_expectedRevision i) in
  let quorum := evaluateCg4Quorum (resolveCg4ExceptionQuorum (xr_tier revision))
    (counted_votes approvalRows) (js_some (fun row => negb (ar_approved row)) approvalRows) now in
  authorize (assertCg4QuorumMet quorum) ;;
  match find_conflict s (ti_exceptionId i) revision with
  | Some conflict => Err (EXCEPTION_SCOPE_CONFLICT (xr_exceptionId conflict))
  | None => Ok quorum
  end.

(** Who may ask for the action on this revision. *)
Definition check_actor `{Runtime} (i : TransitionCg4ExceptionInput) (revision : ExceptionRow) (now : Z)
  : stored unit :=
  let action := ti_action i in
  let isMaker := bool_decide (xr_actorRef revision = sub_subjectId (ti_actor i)) in
  authorize (assertCg4RequestAuthorization (ti_actor i) (capabilityFor action (xr_tier revision))
               (ti_scopeKey i) now) ;;
  throw_if (bool_decide (action = T_CANCEL) && negb isMaker) RESOURCE_NOT_FOUND ;;
  throw_if ((bool_decide (action = T_APPROVE) || bool_decide (action = T_REJECT)) && isMaker)
    (NOT_AUTHORIZED SELF_APPROVAL_FORBIDDEN).

(** [updateMany] of the head where its revision and status are still those read. *)
Definition set_status (s : Store) (exceptionId : string) (revision : Z)
  (from to : Cg4ExceptionWorkflowState) : stored Store :=
  match map_get exceptionId (st_heads s) with
  | Some h =>
      if (xh_currentRevision h =? revision) && bool_decide (xh_status h = from) then
        Ok {| st_contacts := st_contacts s; st_identities := st_identities s;
              st_policies := st_policies s; st_exceptions := st_exceptions s;
              st_heads := map_set exceptionId
                            (ExceptionHead_ (xh_currentRevisionId h) (xh_currentRevision h) to) (st_heads s);
              st_approvals := st_approvals s; st_contactHeads := st_contactHeads s;
              st_streams := st_streams s; st_outbox := st_outbox s; st_audit := st_audit s;
              st_recorded := st_recorded s; st_voted := st_voted s;
              st_transitioned := st_transitioned s; st_nextId := st_nextId s |}
      else Err (VERSION_CONFLICT revision revision)
  | None => Err (VERSION_CONFLICT revision revision)
  end.

(** [create] of the receipt, whose key is unique. *)
Definition keep_transitioned (s : Store) (key hash : string) (r : TransitionResult) : stored Store :=
  throw_if (map_has key (st_transitioned s)) UNIQUE_VIOLATION ;;
  Ok {| st_contacts := st_contacts s; st_identities := st_identities s; st_policies := st_policies s;
        st_exceptions := st_exceptions s; st_heads := st_heads s; st_approvals := st_approvals s;
        st_contactHeads := st_contactHeads s; st_streams := st_streams s; st_outbox := st_outbox s;
        st_audit := st_audit s; st_recorded := st_recorded s; st_voted := st_voted s;
        st_transitioned := map_set key (hash, r) (st_transitioned s);
        st_nextId := (st_nextId s + 4)%nat |}.

Definition transition_payload `{Host} (i : TransitionCg4ExceptionInput) (b : Begun)
  (mutationId kind afterDigest : string) (to : Cg4ExceptionWorkflowState) (streamVersion : Z) : jsval :=
  let revision := bg_revision b in
  JObj
    [("contractVersion", JNum (NInt 1)); ("mutationId", JStr mutationId);
     ("transitionKind", JStr kind); ("subjectId", JStr (ti_exceptionId i));
     ("subjectVersion", JNum (NInt (ti_expectedRevision i))); ("state", JStr (state_name to));
     ("effectiveAt", JStr (toISOString (bg_occurredAt b)));
     ("affectedScope", JObj [("scopeKey", JStr (ti_scopeKey i)); ("channel", JStr (xr_channel revision));
        ("purpose", JStr (xr_purpose revision)); ("sourceType", JStr (xr_sourceType revision))]);
     ("scopeDigest", JStr (stableDigest (JObj
        [("contactId", JStr (xr_contactId revision)); ("identityId", text_or_null (xr_identityId revision));
         ("channel", JStr (xr_channel revision)); ("purpose", JStr (xr_purpose revision));
         ("sourceType", JStr (xr_sourceType revision)); ("sourceId", JStr (xr_sourceId revision))])));
     ("policyVersion", JNum (NInt (xr_policyVersion revision)));
     ("policyContentDigest", JStr (xr_policyContentDigest revision));
     ("exceptionVersion", JNum (NInt (ti_expectedRevision i)));
     ("ruleRegistryVersion", JStr CG4_RULE_REGISTRY_VERSION);
     ("policySchemaVersion", JNum (NInt CG4_POLICY_SCHEMA_VERSION));
     ("evaluatorVersion", JStr CG4_EVALUATOR_VERSION); ("stateDigest", JStr afterDigest);
     ("restrictiveness", JStr (if bool_decide (to = W_APPROVED) then "RELAXATION" else "TIGHTENING"))].

(** Under the lock, at the readings [now 0], [now 1], [now 2] of the clock. *)
Definition commit_transition `{Runtime, Host} (s : Store) (i : TransitionCg4ExceptionInput)
  (b : Begun) (now : nat -> Z) : stored (TransitionResult * Store) :=
  let revision := bg_revision b in
  let contactId := xr_contactId revision in
  target ← resolveCg4TransitionTarget (ti_action i) (xh_status (bg_head b));
  let '(to, kind) := target in
  check_actor i revision (now 0%nat) ;;
  quorum ← (if bool_decide (ti_action i = T_APPROVE)
            then Some <$> check_approval s i revision (now 1%nat) else Ok None);
  let actualVersion := contact_version s contactId in
  throw_if (negb (actualVersion =? ti_expectedVersion i))
    (VERSION_CONFLICT (ti_expectedVersion i) actualVersion) ;;
  s1 ← set_status s (ti_exceptionId i) (ti_expectedRevision i) (xh_status (bg_head b)) to;
  let next := st_nextId s in
  let mutationId := fresh next in
  let eventId := fresh (next + 1) in
  let afterDigest := stableDigest (JObj
    [("previous", text_or_null (contact_digest s contactId)); ("exceptionId", JStr (ti_exceptionId i));
     ("revision", JNum (NInt (ti_expectedRevision i))); ("contentDigest", JStr (xr_requestHash revision));
     ("workflowState", JStr (state_name to))]) in
  let effectiveState :=
    if bool_decide (to = W_APPROVED)
    then resolveCg4EffectiveState W_APPROVED (xr_startsAt revision) (xr_expiresAt revision) (now 2%nat)
    else E_INACTIVE in
  let change := Change_ contactId mutationId eventId afterDigest "exception.changed"
    (transition_payload i b mutationId kind afterDigest to)
    ("CG4_EXCEPTION_" +:+ action_name (ti_action i)) (sub_subjectId (ti_actor i)) (ti_evidenceRef i)
    (bg_occurredAt b) in
  let response := TransitionResult_ mutationId eventId (actualVersion + 1) (ti_exceptionId i)
    (ti_expectedRevision i) to effectiveState quorum in
  s2 ← keep_transitioned (publish s1 change) (ti_idempotencyKey i) (transition_hash i) response;
  Ok (response, s2).

(** The command with nothing in between. *)
Definition transition `{Runtime, Host} (s : Store) (i : TransitionCg4ExceptionInput) (now : nat -> Z)
  : stored (TransitionResult * Store) :=
  begun ← begin_transition s i;
  match begun with
  | inl response => Ok (response, s)
  | inr b => commit_transition s i b now
  end.

(** ** The route [decide]: a vote, and the transition it may finalize *)

Record DecideInput := DecideInput_ {
  dc_tenantId : string;
  dc_seriesId : string;
  dc_expectedRevision : Z;
  dc_expectedContentDigest : string;
  dc_decision : Cg4ApprovalDecision;
  dc_evidenceRef : string;
  dc_reasonCode : option string;
  dc_scopeKey : string;
  dc_actor : Cg4AuthorizationSubject;
  dc_expectedVersion : option Z;
  dc_idempotencyKey : string;
}.

(** [cg4ExceptionMakerSubjectId(...) ?? ''] *)
Definition cg4ExceptionMakerSubjectId (s : Store) (exceptionId : string) (revision : Z) : string :=
  match js_find (fun r => bool_decide (xr_exceptionId r = exceptionId) && (xr_revision r =? revision))
          (st_exceptions s) with
  | Some r => xr_actorRef r
  | None => ""
  end.

Definition decide_vote (s : Store) (i : DecideInput) : RecordCg4ExceptionApprovalInput :=
  VoteInput (dc_tenantId i) (dc_seriesId i) (dc_expectedRevision i) (dc_expectedContentDigest i)
    (dc_decision i) (dc_evidenceRef i)
    (cg4ExceptionMakerSubjectId s (dc_seriesId i) (dc_expectedRevision i))
    (dc_scopeKey i) (dc_actor i) (dc_idempotencyKey i).

Definition decide_transition (i : DecideInput) (expectedVersion now : Z) : TransitionCg4ExceptionInput :=
  TransitionInput (dc_tenantId i) (dc_seriesId i) (dc_expectedRevision i) (dc_expectedContentDigest i)
    (if bool_decide (dc_decision i = APPROVE) then T_APPROVE else T_REJECT)
    (default "CHECKER_DECISION" (dc_reasonCode i)) (dc_evidenceRef i) (dc_actor i) (dc_scopeKey i)
    (toISOString now) expectedVersion (dc_idempotencyKey i +:+ ":finalize").

(** Recording a vote is not activation: the head moves when the quorum is met, or on a rejection.
    The clock is read once for the vote, once for [occurredAt], then by [transition]. *)
Definition finalize `{Runtime, Host} (s : Store) (i : DecideInput) (vote : VoteResult) (now : nat -> Z)
  : stored (Cg4QuorumEvaluation * option TransitionResult) * Store :=
  let shouldFinalize :=
    bool_decide (dc_decision i = REJECT) || bool_decide (qe_status (vr_quorum vote) = Q_MET) in
  if negb shouldFinalize then (Ok (vr_quorum vote, None), s)
  else
    match dc_expectedVersion i with
    | None => (Err INVALID_INPUT, s)
    | Some expectedVersion =>
        match transition s (decide_transition i expectedVersion (now 1%nat)) (fun k => now (2 + k)%nat) with
        | Err e => (Err e, s)
        | Ok (t, s') => (Ok (default (vr_quorum vote) (tr_quorum t), Some t), s')
        end
    end.

(** The answer, and the store it leaves: the vote's transaction commits before the transition's
    starts, so a vote stays when the transition fails. *)
Definition decide_route `{Runtime, Host} (s : Store) (i : DecideInput) (now : nat -> Z)
  : stored (Cg4QuorumEvaluation * option TransitionResult) * Store :=
  match recordExceptionApproval s (decide_vote s i) (now 0%nat) with
  | Err e => (Err e, s)
  | Ok (vote, s1) => finalize s1 i vote now
  end.
