(* ===== verification/ExceptionSystem.v ===== *)
(** * ExceptionSystem: the exception series as a transition system

    The commands of [ExceptionStore] run against one tenant's store in any order and with any
    input: [recordException] and [recordExceptionApproval] as single steps, [transition] as two,
    so that any number of transitions are under way between their first reads and the lock. The
    rest of the service may publish other contact facts and change contacts, identities and
    policies in between. What holds in every store so reached is stated here. *)
From stdpp Require Import base tactics list strings relations.
From Stdlib Require Import ZArith Lia Sorting.Permutation.
From S2P Require Import Prelude JsMap Text JsDate JsValue Contracts RuleRegistry ScopeKey ExceptionEval Authorization Persistence ExceptionStore.

Open Scope string_scope.
Open Scope Z_scope.
Open Scope list_scope.

(** ** The system *)

Record System := System_ {
  sy_store : Store;
  sy_begun : list (TransitionCg4ExceptionInput * Begun);
}.

Definition empty_store (contacts : list string) (identities : list (string * string))
  (policies : list PolicyRow) : Store :=
  {| st_contacts := contacts; st_identities := identities; st_policies := policies;
     st_exceptions := []; st_heads := []; st_approvals := []; st_contactHeads := [];
     st_streams := []; st_outbox := []; st_audit := []; st_recorded := []; st_voted := [];
     st_transitioned := []; st_nextId := 0 |}.

Definition stream_version (s : Store) (contactId : string) : Z :=
  default 0 (map_get contactId (st_streams s)).

Definition exception_event (e : OutboxEvent) : bool :=
  includes ["exception.recorded"; "exception.changed"] (ev_eventType e).

(** The rest of the service: other rows and identifiers. *)
Record other_rows (s s' : Store) : Prop := {
  or_exceptions : st_exceptions s' = st_exceptions s;
  or_heads : st_heads s' = st_heads s;
  or_approvals : st_approvals s' = st_approvals s;
  or_contactHeads : st_contactHeads s' = st_contactHeads s;
  or_streams : st_streams s' = st_streams s;
  or_outbox : st_outbox s' = st_outbox s;
  or_recorded : st_recorded s' = st_recorded s;
  or_voted : st_voted s' = st_voted s;
  or_transitioned : st_transitioned s' = st_transitioned s;
  or_nextId : (st_nextId s <= st_nextId s')%nat;
}.

(** The rest of the service: another fact of a contact, published on the same stream. *)
Definition publish_fact (s : Store) (e : OutboxEvent) : Store :=
  {| st_contacts := st_contacts s; st_identities := st_identities s; st_policies := st_policies s;
     st_exceptions := st_exceptions s; st_heads := st_heads s; st_approvals := st_approvals s;
     st_contactHeads := st_contactHeads s;
     st_streams := snd (nextContactStreamVersion (st_streams s) (ev_aggregateId e));
     st_outbox := st_outbox s ++ [e]; st_audit := st_audit s; st_recorded := st_recorded s;
     st_voted := st_voted s; st_transitioned := st_transitioned s; st_nextId := st_nextId s |}.

Section System.
Context `{Runtime, Host}.

Inductive step : System -> System -> Prop :=
  | step_record s b i now r s' :
      recordException s i now = Ok (r, s') -> step (System_ s b) (System_ s' b)
  | step_vote s b i now r s' :
      va_makerSubjectId i = cg4ExceptionMakerSubjectId s (va_exceptionId i) (va_expectedRevision i) ->
      recordExceptionApproval s i now = Ok (r, s') -> step (System_ s b) (System_ s' b)
  | step_begin s b i begun :
      begin_transition s i = Ok (inr begun) -> step (System_ s b) (System_ s ((i, begun) :: b))
  | step_commit s b1 b2 i begun now r s' :
      commit_transition s i begun now = Ok (r, s') ->
      step (System_ s (b1 ++ (i, begun) :: b2)) (System_ s' (b1 ++ b2))
  | step_fail s b1 b2 i begun : step (System_ s (b1 ++ (i, begun) :: b2)) (System_ s (b1 ++ b2))
  | step_fact s b e :
      exception_event e = false ->
      ev_aggregateVersion e = stream_version s (ev_aggregateId e) + 1 ->
      step (System_ s b) (System_ (publish_fact s e) b)
  | step_other s b s' : other_rows s s' -> step (System_ s b) (System_ s' b).

Definition initial (y : System) : Prop :=
  exists contacts identities policies, y = System_ (empty_store contacts identities policies) [].

Definition reachable (y : System) : Prop := exists y0, initial y0 /\ rtc step y0 y.

(** ** What each command does to the store *)

Lemma replay_ok {R} (rs : receipts R) key hash o :
  replay rs key hash = Ok o -> map_get key rs = (fun r => (hash, r)) <$> o.
Proof.
  unfold replay. destruct (map_get key rs) as [[h r]|]; [|by intros [= <-]].
  case_bool_decide; cbn; [|done]. intros [= <-]. by subst.
Qed.

Lemma replay_same {R} (rs : receipts R) key hash r :
  map_get key rs = Some (hash, r) -> replay rs key hash = Ok (Some r).
Proof. intros Hg. unfold replay. rewrite Hg. by rewrite bool_decide_eq_true_2. Qed.

Lemma record_spec s i now r s' :
  recordException s i now = Ok (r, s') ->
  exists v, validate_record i = Ok v /\
    ((s' = s /\ map_get (ri_idempotencyKey i) (st_recorded s) = Some (record_hash i v, r)) \/
     (map_get (ri_idempotencyKey i) (st_recorded s) = None /\
      check_binding s i v = Ok tt /\
      contact_version s (ri_contactId i) = ri_expectedVersion i /\
      exists exceptionId change,
        check_series s i (map_get exceptionId (st_heads s)) = Ok tt /\
        check_renewal s i = Ok tt /\
        cg_contactId change = ri_contactId i /\ cg_eventType change = "exception.recorded" /\
        rr_exception r = new_row i v (fresh (st_nextId s + 2)) exceptionId (record_hash i v)
                           (map_get exceptionId (st_heads s)) now /\
        rr_aggregateVersion r = contact_version s (ri_contactId i) + 1 /\
        s' = keep_recorded (publish (insert_revision s (rr_exception r)) change)
               (ri_idempotencyKey i) (record_hash i v) r)).
Proof.
  unfold recordException. intros E. apply bind_ok in E as (v & Hv & E).
  apply bind_ok in E as (o & Ho & E). apply replay_ok in Ho. exists v. split; [done|].
  destruct o as [resp|]; cbn in Ho; [left; by injection E as -> ->|right].
  apply bind_ok in E as ([] & Hb & E). apply bind_ok in E as ([] & Hver & E).
  apply throw_if_ok, negb_false_iff, Z.eqb_eq in Hver.
  apply bind_ok in E as ([] & Hs & E). apply bind_ok in E as ([] & Hr & E).
  injection E as <- <-. split; [done|]. split; [done|]. split; [done|].
  eexists _, _. split_and!; [exact Hs|exact Hr| | | | |]; only 5: reflexivity.
  all: reflexivity.
Qed.

Lemma load_spec s e n d h r :
  load_revision s e n d = Ok (h, r) ->
  map_get e (st_heads s) = Some h /\ xh_currentRevision h = n /\
  find_row s (xh_currentRevisionId h) = Some r /\ xr_requestHash r = d.
Proof.
  unfold load_revision, from_option. destruct (map_get e (st_heads s)) as [h0|]; cbn; [|done].
  destruct (Z.eqb_spec (xh_currentRevision h0) n) as [Hn|]; cbn; [|done].
  destruct (find_row s (xh_currentRevisionId h0)) as [r0|] eqn:Ef; cbn; [|done].
  case_bool_decide; cbn; [|done]. intros [= <- <-]. done.
Qed.

Lemma find_row_spec s id r : find_row s id = Some r -> In r (st_exceptions s) /\ xr_id r = id.
Proof. intros E. apply find_some in E as [? E]. by apply bool_decide_eq_true in E. Qed.

Lemma vote_spec s i now r s' :
  recordExceptionApproval s i now = Ok (r, s') ->
  (s' = s /\ map_get (va_idempotencyKey i) (st_voted s) = Some (vote_hash i, r)) \/
  (map_get (va_idempotencyKey i) (st_voted s) = None /\
   exists h x grant row audit s1,
     load_revision s (va_exceptionId i) (va_expectedRevision i) (va_expectedContentDigest i) = Ok (h, x) /\
     let existing := map ar_vote (approvals_of s (va_exceptionId i) (va_expectedRevision i)) in
     assertCg4ApprovalAuthorization
       (ApprovalInput (resolveCg4RequiredExceptionCapability (xr_tier x)) (va_checker i)
          (va_scopeKey i) (va_makerSubjectId i) existing now) = Ok grant /\
     row = new_vote i (fresh (st_nextId s)) (resolveCg4RequiredExceptionCapability (xr_tier x)) grant now /\
     vr_quorum r = evaluateCg4Quorum (resolveCg4ExceptionQuorum (xr_tier x)) (existing ++ [ar_vote row])
                     (bool_decide (va_decision i = REJECT)) now /\
     insert_vote s row audit = Ok s1 /\
     s' = keep_voted s1 (va_idempotencyKey i) (vote_hash i) r).
Proof.
  unfold recordExceptionApproval. intros E. apply bind_ok in E as ([] & _ & E).
  apply bind_ok in E as (o & Ho & E). apply replay_ok in Ho.
  destruct o as [resp|]; cbn in Ho; [left; by injection E as -> ->|right; split; [done|]].
  apply bind_ok in E as ([h x] & Hl & E). apply bind_ok in E as (grant & Hg & E).
  apply bind_ok in E as (s1 & Hi & E). injection E as <- <-.
  unfold authorize in Hg. destruct (assertCg4ApprovalAuthorization _) as [g|] eqn:Ea; [|done].
  injection Hg as ->. eexists h, x, grant, _, _, s1. by repeat (split; [done|]).
Qed.

Lemma insert_vote_ok s row audit s1 :
  insert_vote s row audit = Ok s1 ->
  ~ In (ra_checkerSubjectId (ar_vote row))
      (map (fun a => ra_checkerSubjectId (ar_vote a))
         (approvals_of s (ar_exceptionId row) (ar_exceptionRevision row))) /\
  st_approvals s1 = st_approvals s ++ [row] /\ st_exceptions s1 = st_exceptions s /\
  st_heads s1 = st_heads s /\ st_contactHeads s1 = st_contactHeads s /\
  st_streams s1 = st_streams s /\ st_outbox s1 = st_outbox s /\ st_recorded s1 = st_recorded s /\
  st_voted s1 = st_voted s /\ st_transitioned s1 = st_transitioned s /\ st_nextId s1 = st_nextId s.
Proof.
  unfold insert_vote. intros E. apply bind_ok in E as ([] & Hu & E). apply throw_if_ok in Hu.
  injection E as <-. split; [|done]. intros Hin. apply in_map_iff in Hin as (a & Ha & Hin).
  assert (Ht : js_some (fun a => bool_decide (ra_checkerSubjectId (ar_vote a) = ra_checkerSubjectId (ar_vote row)))
            (approvals_of s (ar_exceptionId row) (ar_exceptionRevision row)) = true).
  { apply existsb_exists. exists a. split; [done|]. by apply bool_decide_eq_true. }
  congruence.
Qed.

Lemma begin_spec s i b :
  begin_transition s i = Ok (inr b) ->
  load_revision s (ti_exceptionId i) (ti_expectedRevision i) (ti_expectedContentDigest i)
    = Ok (bg_head b, bg_revision b) /\
  map_get (ti_idempotencyKey i) (st_transitioned s) = None.
Proof.
  unfold begin_transition. intros E. apply bind_ok in E as ([] & _ & E).
  apply bind_ok in E as (t & _ & E). apply bind_ok in E as (o & Ho & E). apply replay_ok in Ho.
  destruct o; [done|]. apply bind_ok in E as ([h x] & Hl & E). injection E as <-. by split.
Qed.

Lemma set_status_ok s e n from to s1 :
  set_status s e n from to = Ok s1 ->
  exists h, map_get e (st_heads s) = Some h /\ xh_currentRevision h = n /\ xh_status h = from /\
    st_heads s1 = map_set e (ExceptionHead_ (xh_currentRevisionId h) n to) (st_heads s) /\
    st_exceptions s1 = st_exceptions s /\ st_approvals s1 = st_approvals s /\
    st_contactHeads s1 = st_contactHeads s /\ st_streams s1 = st_streams s /\
    st_outbox s1 = st_outbox s /\ st_recorded s1 = st_recorded s /\ st_voted s1 = st_voted s /\
    st_transitioned s1 = st_transitioned s /\ st_nextId s1 = st_nextId s.
Proof.
  unfold set_status. destruct (map_get e (st_heads s)) as [h|]; [|done].
  destruct (Z.eqb_spec (xh_currentRevision h) n) as [<-|]; cbn; [|done].
  case_bool_decide; [|done]. intros [= <-]. by exists h.
Qed.

Lemma keep_transitioned_ok s key hash r s' :
  keep_transitioned s key hash r = Ok s' ->
  map_get key (st_transitioned s) = None /\ st_heads s' = st_heads s /\
  st_exceptions s' = st_exceptions s /\ st_approvals s' = st_approvals s /\
  st_contactHeads s' = st_contactHeads s /\ st_streams s' = st_streams s /\
  st_outbox s' = st_outbox s /\ st_recorded s' = st_recorded s /\ st_voted s' = st_voted s /\
  st_transitioned s' = map_set key (hash, r) (st_transitioned s) /\
  st_nextId s' = (st_nextId s + 4)%nat.
Proof.
  unfold keep_transitioned. intros E. apply bind_ok in E as ([] & Hn & E). apply throw_if_ok in Hn.
  injection E as <-. split; [|done]. unfold map_has in Hn. by destruct (map_get _ _).
Qed.

Lemma commit_spec s i b now r s' :
  commit_transition s i b now = Ok (r, s') ->
  exists to kind change quorum s1,
    TRANSITIONS (ti_action i) = (xh_status (bg_head b), to, kind) /\
    check_actor i (bg_revision b) (now 0%nat) = Ok tt /\
    (ti_action i = T_APPROVE ->
       exists q, quorum = Some q /\ check_approval s i (bg_revision b) (now 1%nat) = Ok q) /\
    contact_version s (xr_contactId (bg_revision b)) = ti_expectedVersion i /\
    set_status s (ti_exceptionId i) (ti_expectedRevision i) (xh_status (bg_head b)) to = Ok s1 /\
    cg_contactId change = xr_contactId (bg_revision b) /\ cg_eventType change = "exception.changed" /\
    keep_transitioned (publish s1 change) (ti_idempotencyKey i) (transition_hash i) r = Ok s' /\
    tr_workflowState r = to /\ tr_quorum r = quorum /\
    tr_aggregateVersion r = contact_version s (xr_contactId (bg_revision b)) + 1.
Proof.
  unfold commit_transition. intros E. apply bind_ok in E as ([to kind] & Ht & E).
  unfold resolveCg4TransitionTarget in Ht. destruct (TRANSITIONS (ti_action i)) as [[from to'] kind'] eqn:Et.
  
  apply bind_ok in Ht as ([] & Hf & Ht). apply throw_if_ok, negb_false_iff, bool_decide_eq_true in Hf.
  injection Ht as -> ->. subst from.
  apply bind_ok in E as ([] & Ha & E). apply bind_ok in E as (quorum & Hq & E).
  apply bind_ok in E as ([] & Hv & E). apply throw_if_ok, negb_false_iff, Z.eqb_eq in Hv.
  apply bind_ok in E as (s1 & Hs & E). apply bind_ok in E as (s2 & Hk & E). injection E as <- <-.
  exists to, kind. eexists _, quorum, s1. split; [done|]. split; [done|]. split.
  { intros Hact. rewrite bool_decide_eq_true_2 in Hq by done.
    apply fmap_ok in Hq as (q & Hq & <-). by exists q. }
  split; [done|]. split; [done|]. split_and!; only 3: exact Hk. all: reflexivity.
Qed.
End System.

(** ** The invariant of the rows *)

(** The series' head and the revision row it names. *)
Definition current (s : Store) (e : string) (h : ExceptionHead) (r : ExceptionRow) : Prop :=
  map_get e (st_heads s) = Some h /\ In r (st_exceptions s) /\ xr_id r = xh_currentRevisionId h.

(** The approving votes on a revision reach its tier's quorum. *)
Definition approved_by_quorum (s : Store) (r : ExceptionRow) : Prop :=
  enough (resolveCg4ExceptionQuorum (xr_tier r))
    (counted (counted_votes (approvals_of s (xr_exceptionId r) (xr_revision r)))).

Definition voter (a : ApprovalRow) : string := ra_checkerSubjectId (ar_vote a).

Record wf `{Host} (s : Store) : Prop := {
  wf_heads : map_wf (st_heads s);
  wf_ids : List.NoDup (map xr_id (st_exceptions s));
  wf_fresh : forall r, In r (st_exceptions s) -> exists n, (n < st_nextId s)%nat /\ xr_id r = fresh n;
  wf_head : forall e h, map_get e (st_heads s) = Some h ->
    exists r, current s e h r /\ xr_exceptionId r = e /\ xr_revision r = xh_currentRevision h;
  wf_row : forall r, In r (st_exceptions s) -> exists h, map_get (xr_exceptionId r) (st_heads s) = Some h /\
    xr_revision r <= xh_currentRevision h;
  wf_revisions : forall r1 r2, In r1 (st_exceptions s) -> In r2 (st_exceptions s) ->
    xr_exceptionId r1 = xr_exceptionId r2 -> xr_revision r1 = xr_revision r2 -> r1 = r2;
  wf_contact : forall r1 r2, In r1 (st_exceptions s) -> In r2 (st_exceptions s) ->
    xr_exceptionId r1 = xr_exceptionId r2 -> xr_contactId r1 = xr_contactId r2;
  wf_votes : forall a, In a (st_approvals s) -> exists r, In r (st_exceptions s) /\
    xr_exceptionId r = ar_exceptionId a /\ xr_revision r = ar_exceptionRevision a /\
    voter a <> xr_actorRef r;
  wf_one_vote : forall e n, List.NoDup (map voter (approvals_of s e n));
  wf_quorum : forall e h r, current s e h r -> xh_status h = W_APPROVED \/ xh_status h = W_REVOKED ->
    approved_by_quorum s r;
  wf_disjoint : forall e1 e2 h1 h2 r1 r2, current s e1 h1 r1 -> current s e2 h2 r2 -> e1 <> e2 ->
    xh_status h1 = W_APPROVED -> xh_status h2 = W_APPROVED -> xr_contactId r1 = xr_contactId r2 ->
    cg4ExceptionsOverlap r1 r2 = false;
}.

Lemma wf_ext `{Host} s s' :
  st_exceptions s' = st_exceptions s -> st_heads s' = st_heads s -> st_approvals s' = st_approvals s ->
  (st_nextId s <= st_nextId s')%nat -> wf s -> wf s'.
Proof.
  intros Hx Hh Ha Hn [].
  split; unfold approved_by_quorum, approvals_of, current in *; rewrite ?Hx, ?Hh, ?Ha; try done.
  intros r Hr. destruct (wf_fresh0 r Hr) as (n & ? & ?). exists n. split; [lia|done].
Qed.

Lemma current_unique `{Host} s e h r r' : wf s -> current s e h r -> current s e h r' -> r = r'.
Proof.
  intros Hwf (_ & Hr & Hi) (_ & Hr' & Hi').
  eapply (NoDup_map_inj xr_id); [apply (wf_ids _ Hwf)|done|done|congruence].
Qed.

Lemma current_series `{Host} s e h r :
  wf s -> current s e h r -> xr_exceptionId r = e /\ xr_revision r = xh_currentRevision h.
Proof.
  intros Hwf Hc. destruct (wf_head _ Hwf e h) as (r' & Hc' & ? & ?); [apply Hc|].
  by rewrite (current_unique _ _ _ _ _ Hwf Hc Hc').
Qed.

(** Two exceptions overlap: the same scope, a rule in common, and an instant in both windows. *)
Definition overlaps (a b : ExceptionRow) : Prop :=
  xr_identityId a = xr_identityId b /\ xr_channel a = xr_channel b /\ xr_purpose a = xr_purpose b /\
  xr_sourceType a = xr_sourceType b /\ xr_sourceId a = xr_sourceId b /\
  (exists rule, In rule (xr_allowedRuleCodes a) /\ In rule (xr_allowedRuleCodes b)) /\
  xr_startsAt a < xr_expiresAt b /\ xr_startsAt b < xr_expiresAt a.

Lemma overlap_spec a b : cg4ExceptionsOverlap a b = true <-> overlaps a b.
Proof.
  unfold cg4ExceptionsOverlap, overlaps.
  assert (Hr : js_some (includes (xr_allowedRuleCodes b)) (xr_allowedRuleCodes a) = true <->
               exists rule, In rule (xr_allowedRuleCodes a) /\ In rule (xr_allowedRuleCodes b)).
  { rewrite existsb_exists. by setoid_rewrite includes_spec. }
  repeat (case_bool_decide; cbn; [|naive_solver]).
  destruct (js_some _ _); cbn; [|naive_solver].
  rewrite andb_true_iff, !Z.ltb_lt. naive_solver.
Qed.

Lemma overlaps_sym a b : overlaps a b -> overlaps b a.
Proof. unfold overlaps. naive_solver. Qed.

Lemma overlap_sym a b : cg4ExceptionsOverlap a b = cg4ExceptionsOverlap b a.
Proof. apply Bool.eq_iff_eq_true. rewrite !overlap_spec. split; apply overlaps_sym. Qed.

(** ** Votes *)

Lemma approvals_of_app s s' row e n :
  st_approvals s' = st_approvals s ++ [row] ->
  approvals_of s' e n = approvals_of s e n ++
    (if bool_decide (ar_exceptionId row = e) && (ar_exceptionRevision row =? n) then [row] else []).
Proof. intros Ha. unfold approvals_of. rewrite Ha, List.filter_app. done. Qed.

Lemma counted_votes_subjects rows :
  map ra_checkerSubjectId (counted_votes rows) = map voter (js_filter ar_approved rows).
Proof. unfold counted_votes. rewrite map_map. done. Qed.

Lemma NoDup_map_filter {A B} (f : A -> B) (p : A -> bool) l :
  List.NoDup (map f l) -> List.NoDup (map f (js_filter p l)).
Proof.
  induction l as [|x l IH]; cbn; intros Hnd; [done|]. inversion Hnd as [|? ? Hni Hl]; subst.
  destruct (p x); cbn; [|by apply IH]. constructor; [|by apply IH].
  intros Hin. apply Hni. apply in_map_iff in Hin as (y & <- & Hy). apply filter_In in Hy as [Hy _].
  by apply in_map.
Qed.

Lemma counted_votes_fresh rows :
  List.NoDup (map voter rows) -> counted (counted_votes rows) = counted_votes rows.
Proof.
  intros Hnd. apply counted_fresh. rewrite counted_votes_subjects. by apply NoDup_map_filter.
Qed.

Lemma enough_app q votes votes' : enough q votes -> enough q (votes ++ votes').
Proof.
  unfold enough, count_if. rewrite !List.filter_app, !length_app. intros (? & ? & He). split_and!; [lia|lia|].
  intros Hw. destruct (He Hw) as (? & a & Ha & ?). split; [lia|]. exists a. rewrite in_app_iff. auto.
Qed.

(** More votes keep a revision approved. *)
Lemma approved_by_quorum_app s s' row r :
  st_approvals s' = st_approvals s ++ [row] ->
  (forall e n, List.NoDup (map voter (approvals_of s e n))) ->
  (forall e n, List.NoDup (map voter (approvals_of s' e n))) ->
  approved_by_quorum s r -> approved_by_quorum s' r.
Proof.
  intros Ha Hnd Hnd'. unfold approved_by_quorum. rewrite !counted_votes_fresh by done.
  rewrite (approvals_of_app _ _ _ _ _ Ha). unfold counted_votes. rewrite List.filter_app, map_app.
  apply enough_app.
Qed.

(** ** Every command keeps the invariant *)

Section Preservation.
Context `{Runtime, Host}.
(** [randomUUID] never returns an identifier twice. *)
Context (fresh_inj : forall m n, fresh m = fresh n -> m = n).

(** A revision row inserted under its head, as [recordException] does. *)
Record revised (s : Store) (row : ExceptionRow) (s' : Store) : Prop := {
  rv_exceptions : st_exceptions s' = st_exceptions s ++ [row];
  rv_heads : st_heads s' = map_set (xr_exceptionId row)
               (ExceptionHead_ (xr_id row) (xr_revision row) W_PENDING) (st_heads s);
  rv_approvals : st_approvals s' = st_approvals s;
  rv_id : exists n, (st_nextId s <= n < st_nextId s')%nat /\ xr_id row = fresh n;
  rv_next : match map_get (xr_exceptionId row) (st_heads s) with
            | Some h => xr_revision row = xh_currentRevision h + 1 /\ xh_status h = W_PENDING /\
                exists r, In r (st_exceptions s) /\ xr_id r = xh_currentRevisionId h /\
                          xr_contactId r = xr_contactId row
            | None => xr_revision row = 1
            end;
}.

Lemma record_revised s i now r s' :
  recordException s i now = Ok (r, s') -> s' = s \/ revised s (rr_exception r) s'.
Proof.
  intros E. apply record_spec in E as (v & _ & [[-> _]|(_ & _ & _ & e & c & Hs & _ & _ & _ & Hx & _ & ->)]);
    [by left|right].
  split; try done.
  - exists (st_nextId s + 2)%nat. split; [cbn; lia|by rewrite Hx].
  - rewrite Hx. cbn. destruct (map_get e (st_heads s)) as [h|]; [|done]. cbn in *.
    apply bind_ok in Hs as ([] & Hf & Hp).
    apply throw_if_ok, negb_false_iff, bool_decide_eq_true in Hp.
    apply throw_if_ok, negb_false_iff, existsb_exists in Hf as (r0 & Hin & Hr0).
    apply andb_true_iff in Hr0 as [Hi Hc]. apply bool_decide_eq_true in Hi, Hc.
    split; [done|]. split; [done|]. by exists r0.
Qed.

Section Revised.
Context (s s' : Store) (row : ExceptionRow) (Hwf : wf s) (Hrv : revised s row s').
Let e := xr_exceptionId row.

Lemma revised_in r : In r (st_exceptions s') <-> In r (st_exceptions s) \/ r = row.
Proof. rewrite (rv_exceptions _ _ _ Hrv), in_app_iff. cbn. naive_solver. Qed.

Lemma revised_new_id r : In r (st_exceptions s) -> xr_id r <> xr_id row.
Proof.
  intros Hr Heq. destruct (wf_fresh _ Hwf r Hr) as (n & Hn & Hi).
  destruct (rv_id _ _ _ Hrv) as (m & Hm & Hi'). rewrite Hi, Hi' in Heq.
  apply fresh_inj in Heq. lia.
Qed.

Lemma revised_head e' :
  map_get e' (st_heads s') =
    if bool_decide (e' = e) then Some (ExceptionHead_ (xr_id row) (xr_revision row) W_PENDING)
    else map_get e' (st_heads s).
Proof.
  rewrite (rv_heads _ _ _ Hrv). case_bool_decide as He; [subst; apply map_get_set_eq|].
  apply map_get_set_ne. intros <-. by apply He.
Qed.

(** The current revisions afterwards: the new row, and those of the other series. *)
Lemma revised_current e' h r :
  current s' e' h r ->
  (e' = e /\ r = row /\ h = ExceptionHead_ (xr_id row) (xr_revision row) W_PENDING) \/
  (e' <> e /\ current s e' h r).
Proof.
  intros (Hh & Hr & Hi). rewrite revised_head in Hh. apply revised_in in Hr.
  case_bool_decide as He.
  - left. injection Hh as <-. cbn in Hi. destruct Hr as [Hr|]; [|done].
    by apply revised_new_id in Hr.
  - right. split; [done|]. destruct Hr as [Hr| ->]; [done|].
    destruct (wf_head _ Hwf _ _ Hh) as (r0 & (_ & Hr0 & Hi0) & _).
    by destruct (revised_new_id r0 Hr0); rewrite Hi0, Hi.
Qed.

Lemma revised_revision r : In r (st_exceptions s) -> xr_exceptionId r = e -> xr_revision r < xr_revision row.
Proof.
  intros Hr He. destruct (wf_row _ Hwf r Hr) as (h & Hh & Hle). pose proof (rv_next _ _ _ Hrv) as Hn.
  fold e in Hn. rewrite <- He, Hh in Hn. destruct Hn as [-> _]. lia.
Qed.

Lemma revised_contact r : In r (st_exceptions s) -> xr_exceptionId r = e -> xr_contactId r = xr_contactId row.
Proof.
  intros Hr He. destruct (wf_row _ Hwf r Hr) as (h & Hh & _). pose proof (rv_next _ _ _ Hrv) as Hn.
  fold e in Hn. rewrite <- He, Hh in Hn. destruct Hn as (_ & _ & r0 & Hr0 & Hi0 & <-).
  rewrite He in Hh. destruct (current_series s e h r0 Hwf) as [He0 _]; [done|].
  apply (wf_contact _ Hwf); congruence.
Qed.

Lemma wf_revised : wf s'.
Proof.
  pose proof revised_revision as Hrev. pose proof revised_contact as Hcon.
  pose proof (rv_approvals _ _ _ Hrv) as Hap. split.
  - rewrite (rv_heads _ _ _ Hrv). apply map_set_wf, Hwf.
  - rewrite (rv_exceptions _ _ _ Hrv), map_app. apply List.NoDup_app; [apply Hwf|repeat constructor; cbn; tauto|].
    intros id Hid. apply in_map_iff in Hid as (r & <- & Hr). cbn.
    intros [Heq|[]]. by apply (revised_new_id r Hr).
  - intros r Hr. destruct (rv_id _ _ _ Hrv) as (m & Hm & Hi). apply revised_in in Hr as [Hr| ->].
    + destruct (wf_fresh _ Hwf r Hr) as (n & ? & ?). exists n. split; [lia|done].
    + exists m. split; [lia|done].
  - intros e' h Hh. rewrite revised_head in Hh. case_bool_decide as He.
    + injection Hh as <-. exists row. unfold current. rewrite revised_head, bool_decide_eq_true_2 by done.
      rewrite revised_in. split_and!; auto.
    + destruct (wf_head _ Hwf _ _ Hh) as (r & (_ & Hr & Hi) & ? & ?). exists r. unfold current.
      rewrite revised_head, bool_decide_eq_false_2, revised_in by done. auto.
  - intros r Hr. rewrite revised_head. case_bool_decide as He.
    + eexists. split; [done|]. cbn. apply revised_in in Hr as [Hr| ->]; [|lia].
      specialize (Hrev r Hr He). lia.
    + apply revised_in in Hr as [Hr| ->]; [|done]. by apply (wf_row _ Hwf).
  - intros r1 r2 H1 H2 He Hr. apply revised_in in H1 as [H1| ->], H2 as [H2| ->]; try done.
    + by apply (wf_revisions _ Hwf).
    + specialize (Hrev r1 H1 He). lia.
    + specialize (Hrev r2 H2 (eq_sym He)). lia.
  - intros r1 r2 H1 H2 He. apply revised_in in H1 as [H1| ->], H2 as [H2| ->]; try done.
    + by apply (wf_contact _ Hwf).
    + by apply Hcon.
    + symmetry. by apply Hcon.
  - intros a Ha. rewrite Hap in Ha. destruct (wf_votes _ Hwf a Ha) as (r & Hr & ?).
    exists r. rewrite revised_in. tauto.
  - intros e' n. unfold approvals_of. rewrite Hap. apply (wf_one_vote _ Hwf).
  - intros e' h r Hc Hst. apply revised_current in Hc as [(_ & _ & ->)|[_ Hc]]; [by destruct Hst|].
    unfold approved_by_quorum, approvals_of. rewrite Hap. by apply (wf_quorum _ Hwf e' h).
  - intros e1 e2 h1 h2 r1 r2 H1 H2. apply revised_current in H1 as [(_ & _ & ->)|[_ H1]]; [done|].
    apply revised_current in H2 as [(_ & _ & ->)|[_ H2]]; [done|]. by eapply (wf_disjoint _ Hwf).
Qed.
End Revised.

(** A vote inserted, as [recordExceptionApproval] does. *)
Record voted (s : Store) (row : ApprovalRow) (s' : Store) : Prop := {
  vt_exceptions : st_exceptions s' = st_exceptions s;
  vt_heads : st_heads s' = st_heads s;
  vt_approvals : st_approvals s' = st_approvals s ++ [row];
  vt_next : (st_nextId s <= st_nextId s')%nat;
  vt_unique : ~ In (voter row) (map voter (approvals_of s (ar_exceptionId row) (ar_exceptionRevision row)));
  vt_row : exists r, In r (st_exceptions s) /\ xr_exceptionId r = ar_exceptionId row /\
             xr_revision r = ar_exceptionRevision row /\ voter row <> xr_actorRef r;
}.

Lemma maker_of s r :
  wf s -> In r (st_exceptions s) ->
  cg4ExceptionMakerSubjectId s (xr_exceptionId r) (xr_revision r) = xr_actorRef r.
Proof.
  intros Hwf Hr. unfold cg4ExceptionMakerSubjectId. destruct (js_find _ _) as [r'|] eqn:E.
  - apply find_some in E as [Hr' E]. apply andb_true_iff in E as [He Hn].
    apply bool_decide_eq_true in He. apply Z.eqb_eq in Hn. by rewrite (wf_revisions _ Hwf r' r).
  - apply (find_none _ _ E) in Hr. rewrite bool_decide_eq_true_2, Z.eqb_refl in Hr by done. done.
Qed.

Lemma load_current s e n d h r :
  wf s -> load_revision s e n d = Ok (h, r) ->
  current s e h r /\ xr_exceptionId r = e /\ xr_revision r = n /\ xr_requestHash r = d.
Proof.
  intros Hwf E. apply load_spec in E as (Hh & <- & Hf & Hd). apply find_row_spec in Hf as [Hr Hi].
  assert (Hc : current s e h r) by done.
  by destruct (current_series _ _ _ _ Hwf Hc) as [-> ->].
Qed.

Lemma vote_voted s i now r s' :
  wf s -> va_makerSubjectId i = cg4ExceptionMakerSubjectId s (va_exceptionId i) (va_expectedRevision i) ->
  recordExceptionApproval s i now = Ok (r, s') -> s' = s \/ exists row, voted s row s'.
Proof.
  intros Hwf Hm E. apply vote_spec in E as [[-> _]|(_ & h & x & g & row & au & s1 & Hl & Ha & Hrow & _ & Hi & ->)];
    [by left|right; exists row].
  apply load_current in Hl as (Hc & He & Hn & _); [|done].
  apply insert_vote_ok in Hi as (Hu & Hap & Hx & Hh & _ & _ & _ & _ & _ & _ & Hid).
  split; cbn; try done; [lia|]. exists x. destruct Hc as (_ & Hx' & _). rewrite Hrow. cbn.
  split_and!; try done. unfold voter. cbn. rewrite <- (maker_of s x Hwf Hx'), He, Hn, <- Hm.
  unfold assertCg4ApprovalAuthorization in Ha. apply bind_ok in Ha as ([] & Ha & _). cbn in Ha.
  by apply throw_if_ok, bool_decide_eq_false in Ha.
Qed.

Lemma wf_voted s row s' : wf s -> voted s row s' -> wf s'.
Proof.
  intros Hwf Hv. pose proof (vt_exceptions _ _ _ Hv) as Hx. pose proof (vt_heads _ _ _ Hv) as Hh.
  pose proof (vt_approvals _ _ _ Hv) as Ha.
  assert (Hone : forall e n, List.NoDup (map voter (approvals_of s' e n))).
  { intros e n. rewrite (approvals_of_app _ _ _ _ _ Ha), map_app.
    destruct (bool_decide _ && _) eqn:E; cbn; [|rewrite app_nil_r; apply (wf_one_vote _ Hwf)].
    apply andb_true_iff in E as [E1 E2]. apply bool_decide_eq_true in E1. apply Z.eqb_eq in E2. subst.
    apply List.NoDup_app; [apply (wf_one_vote _ Hwf)|repeat constructor; cbn; tauto|].
    intros v Hin [<-|[]]. by apply (vt_unique _ _ _ Hv). }
  assert (Hcur : forall e h r, current s' e h r -> current s e h r).
  { unfold current. by rewrite Hx, Hh. }
  destruct Hwf as [w1 w2 w3 w4 w5 w6 w7 w8 w9 w10 w11].
  split; unfold current in *; rewrite ?Hx, ?Hh in *; try done.
  - intros r Hr. destruct (w3 r Hr) as (n & ? & ?). exists n. pose proof (vt_next _ _ _ Hv).
    split; [lia|done].
  - intros a Hin. rewrite Ha in Hin. apply in_app_iff in Hin as [Hin|[<-|[]]]; [by apply w8|].
    apply (vt_row _ _ _ Hv).
  - intros e h r Hc Hst. eapply approved_by_quorum_app; [done|done|done|]. by apply (w10 e h).
Qed.

(** A head's status moved, as [commit_transition] does. *)
Record moved (s : Store) (e : string) (h : ExceptionHead) (r : ExceptionRow)
    (to : Cg4ExceptionWorkflowState) (s' : Store) : Prop := {
  mv_current : current s e h r;
  mv_exceptions : st_exceptions s' = st_exceptions s;
  mv_approvals : st_approvals s' = st_approvals s;
  mv_heads : st_heads s' = map_set e (ExceptionHead_ (xh_currentRevisionId h) (xh_currentRevision h) to)
                             (st_heads s);
  mv_next : (st_nextId s <= st_nextId s')%nat;
  mv_edge : exists action kind, TRANSITIONS action = (xh_status h, to, kind);
  mv_approved : to = W_APPROVED -> approved_by_quorum s r /\ find_conflict s e r = None;
}.

(** What a transition under way has read is still a row of its series. *)
Definition begun_ok (s : Store) (p : TransitionCg4ExceptionInput * Begun) : Prop :=
  In (bg_revision p.2) (st_exceptions s) /\ xr_exceptionId (bg_revision p.2) = ti_exceptionId p.1 /\
  xr_revision (bg_revision p.2) = ti_expectedRevision p.1.

Lemma commit_moved s i b now r s' :
  wf s -> begun_ok s (i, b) -> commit_transition s i b now = Ok (r, s') ->
  exists h, xh_status h = xh_status (bg_head b) /\
    moved s (ti_exceptionId i) h (bg_revision b) (tr_workflowState r) s'.
Proof.
  intros Hwf (Hin & He & Hn) E. cbn in *.
  apply commit_spec in E as (to & kind & c & q & s1 & Ht & _ & Hq & _ & Hs & _ & _ & Hk & <- & _).
  apply set_status_ok in Hs as (h & Hh & Hcur & Hst & Hh1 & Hx1 & Ha1 & _ & _ & _ & _ & _ & _ & Hid).
  apply keep_transitioned_ok in Hk as (_ & Hh' & Hx' & Ha' & _ & _ & _ & _ & _ & _ & Hid'). cbn in *.
  exists h. split; [done|].
  assert (Hc : current s (ti_exceptionId i) h (bg_revision b)).
  { destruct (wf_head _ Hwf _ _ Hh) as (r0 & Hc0 & He0 & Hn0).
    rewrite (wf_revisions _ Hwf (bg_revision b) r0); [done|done|apply Hc0|congruence|congruence]. }
  split; try congruence; [rewrite Hid'; lia|exists (ti_action i), kind; congruence|].
  intros Hto. destruct Hq as (q' & _ & Hq).
  { rewrite Hto in Ht. destruct (ti_action i); cbn in Ht; congruence. }
  unfold check_approval, authorize in Hq. apply bind_ok in Hq as ([] & Hm & Hq).
  destruct (find_conflict s (ti_exceptionId i) (bg_revision b)); [done|]. split; [|done].
  unfold assertCg4QuorumMet in Hm. case_bool_decide as Hmet; cbn in Hm; [|done].
  apply quorum_met_iff in Hmet as [_ Hmet]. unfold approved_by_quorum. by rewrite He, Hn.
Qed.

(** No conflict found: no other approved series of the contact overlaps. *)
Lemma find_conflict_none s e h r :
  find_conflict s e r = None ->
  forall e2 h2 r2, wf s -> current s e h r -> current s e2 h2 r2 -> e2 <> e ->
    xh_status h2 = W_APPROVED -> xr_contactId r2 = xr_contactId r -> cg4ExceptionsOverlap r r2 = false.
Proof.
  intros Hf e2 h2 r2 Hwf Hc Hc2 Hne Hst Hcon.
  destruct (cg4ExceptionsOverlap r r2) eqn:Eo; [|done].
  destruct (current_series _ _ _ _ Hwf Hc2) as [He2 _]. destruct Hc2 as (Hh2 & Hr2 & Hi2).
  assert (Hcand : In r2 (js_filter (fun row => bool_decide (xr_contactId row = xr_contactId r) &&
            negb (bool_decide (xr_exceptionId row = e)) && (xr_startsAt r <? xr_expiresAt row) &&
            (xr_startsAt row <? xr_expiresAt r)) (st_exceptions s))).
  { apply filter_In. split; [done|]. apply overlap_spec in Eo.
    destruct Eo as (_ & _ & _ & _ & _ & _ & H1 & H2).
    rewrite bool_decide_eq_true_2, bool_decide_eq_false_2 by congruence. cbn.
    apply andb_true_iff. split; by apply Z.ltb_lt. }
  unfold find_conflict in Hf. apply find_none with (x := r2) in Hf; [congruence|].
  apply filter_In. split; [done|]. apply includes_spec. apply in_map_iff. exists (e2, h2).
  split; [done|]. apply filter_In. split; [by apply map_get_In|]. cbn.
  apply andb_true_iff. split; [|by apply bool_decide_eq_true].
  apply includes_spec. apply set_to_array_In. rewrite <- He2. by apply in_map.
Qed.

Section Moved.
Context (s s' : Store) (e : string) (h : ExceptionHead) (r : ExceptionRow)
  (to : Cg4ExceptionWorkflowState) (Hwf : wf s) (Hmv : moved s e h r to s').

Lemma moved_head e' :
  map_get e' (st_heads s') =
    if bool_decide (e' = e) then Some (ExceptionHead_ (xh_currentRevisionId h) (xh_currentRevision h) to)
    else map_get e' (st_heads s).
Proof.
  rewrite (mv_heads _ _ _ _ _ _ Hmv). case_bool_decide as He; [subst; apply map_get_set_eq|].
  apply map_get_set_ne. intros <-. by apply He.
Qed.

Lemma moved_current e' h' r' :
  current s' e' h' r' ->
  (e' = e /\ r' = r /\ xh_status h' = to) \/ (e' <> e /\ current s e' h' r').
Proof.
  intros (Hh & Hr & Hi). rewrite moved_head in Hh. rewrite (mv_exceptions _ _ _ _ _ _ Hmv) in Hr.
  pose proof (mv_current _ _ _ _ _ _ Hmv) as Hc. case_bool_decide as He; [left|right; done].
  injection Hh as <-. cbn in *. split; [done|]. split; [|done].
  eapply (current_unique s e h); [done| |done]. by destruct Hc.
Qed.

Lemma moved_quorum : to = W_APPROVED \/ to = W_REVOKED -> approved_by_quorum s r.
Proof.
  intros [Hto|Hto]; [by apply (mv_approved _ _ _ _ _ _ Hmv)|].
  eapply (wf_quorum _ Hwf); [apply (mv_current _ _ _ _ _ _ Hmv)|left].
  destruct (mv_edge _ _ _ _ _ _ Hmv) as (a & k & Ha). destruct a; cbn in Ha; congruence.
Qed.

Lemma moved_disjoint e2 h2 r2 :
  current s e2 h2 r2 -> e2 <> e -> to = W_APPROVED -> xh_status h2 = W_APPROVED ->
  xr_contactId r2 = xr_contactId r -> cg4ExceptionsOverlap r r2 = false.
Proof.
  intros Hc2 Hne Hto Hst Hcon. destruct (mv_approved _ _ _ _ _ _ Hmv Hto) as [_ Hf].
  eapply find_conflict_none; [done|done|apply (mv_current _ _ _ _ _ _ Hmv)|done..].
Qed.

Lemma wf_moved : wf s'.
Proof.
  pose proof (mv_exceptions _ _ _ _ _ _ Hmv) as Hx. pose proof (mv_approvals _ _ _ _ _ _ Hmv) as Ha.
  pose proof (mv_current _ _ _ _ _ _ Hmv) as Hcur. destruct (current_series _ _ _ _ Hwf Hcur) as [Her Hnr].
  split; unfold approved_by_quorum, approvals_of in *; rewrite ?Hx, ?Ha.
  - rewrite (mv_heads _ _ _ _ _ _ Hmv). apply map_set_wf, Hwf.
  - apply Hwf.
  - intros r' Hr. destruct (wf_fresh _ Hwf r' Hr) as (n & ? & ?). exists n.
    pose proof (mv_next _ _ _ _ _ _ Hmv). split; [lia|done].
  - intros e' h' Hh. unfold current. rewrite Hx, moved_head in *. case_bool_decide as He.
    + injection Hh as <-. exists r. cbn. destruct Hcur as (_ & ? & ?). subst. split_and!; done.
    + by apply (wf_head _ Hwf).
  - intros r' Hr. rewrite moved_head. destruct (wf_row _ Hwf r' Hr) as (h0 & Hh0 & Hle).
    case_bool_decide as He; [|by exists h0]. eexists. split; [done|]. cbn.
    rewrite He in Hh0. destruct Hcur as (Hh & _). congruence.
  - apply (wf_revisions _ Hwf).
  - apply (wf_contact _ Hwf).
  - apply (wf_votes _ Hwf).
  - apply (wf_one_vote _ Hwf).
  - intros e' h' r' Hc Hst. apply moved_current in Hc as [(_ & -> & Hto)|[_ Hc]].
    + rewrite Hto in Hst. by apply moved_quorum.
    + by apply (wf_quorum _ Hwf e' h').
  - intros e1 e2 h1 h2 r1 r2 H1 H2 Hne. apply moved_current in H1 as [(-> & -> & H1)|[? H1]],
      H2 as [(-> & -> & H2)|[? H2]]; intros S1 S2 Hcon; try done.
    + eapply moved_disjoint; [done|done|congruence|done|done].
    + rewrite overlap_sym. eapply moved_disjoint; [done|done|congruence|done|done].
    + by eapply (wf_disjoint _ Hwf e1 e2).
Qed.
End Moved.
End Preservation.

(** ** Reachable systems *)

Definition sys_wf `{Host} (y : System) : Prop :=
  wf (sy_store y) /\ Forall (begun_ok (sy_store y)) (sy_begun y).

Section Reachable.
Context `{Runtime, Host}.
Context (fresh_inj : forall m n, fresh m = fresh n -> m = n).

(** What a step may do to the rows. *)
Inductive change_of (s s' : Store) : Prop :=
  | ch_none : st_exceptions s' = st_exceptions s -> st_heads s' = st_heads s ->
      st_approvals s' = st_approvals s -> (st_nextId s <= st_nextId s')%nat -> change_of s s'
  | ch_revised row : revised s row s' -> change_of s s'
  | ch_voted row : voted s row s' -> change_of s s'
  | ch_moved e h r to : moved s e h r to s' -> change_of s s'.

Lemma change_wf s s' : wf s -> change_of s s' -> wf s'.
Proof.
  intros Hwf [Hx Hh Ha Hn|row Hr|row Hv|e h r to Hm].
  - by eapply wf_ext.
  - by eapply wf_revised.
  - by eapply wf_voted.
  - by eapply wf_moved.
Qed.

Lemma change_rows s s' r : change_of s s' -> In r (st_exceptions s) -> In r (st_exceptions s').
Proof.
  intros [Hx _ _ _|row Hr|row Hv|e h r' to Hm] Hin.
  - by rewrite Hx.
  - rewrite (rv_exceptions _ _ _ Hr), in_app_iff. by left.
  - by rewrite (vt_exceptions _ _ _ Hv).
  - by rewrite (mv_exceptions _ _ _ _ _ _ Hm).
Qed.

Lemma change_votes s s' a : change_of s s' -> In a (st_approvals s) -> In a (st_approvals s').
Proof.
  intros [_ _ Ha _|row Hr|row Hv|e h r' to Hm] Hin.
  - by rewrite Ha.
  - by rewrite (rv_approvals _ _ _ Hr).
  - rewrite (vt_approvals _ _ _ Hv), in_app_iff. by left.
  - by rewrite (mv_approvals _ _ _ _ _ _ Hm).
Qed.

Lemma no_change s : change_of s s.
Proof. by apply ch_none. Qed.

Lemma step_change y y' : sys_wf y -> step y y' -> change_of (sy_store y) (sy_store y').
Proof.
  intros [Hwf Hb] Hst. destruct Hst; cbn in *; try apply no_change.
  - apply record_revised in H1 as [->|Hr]; [apply no_change|by eapply ch_revised].
  - apply vote_voted in H2 as [->|[row Hv]]; [apply no_change|by eapply ch_voted|done|done].
  - rewrite Forall_app, Forall_cons in Hb. destruct Hb as (_ & Hok & _).
    destruct (commit_moved _ _ _ _ _ _ Hwf Hok H1) as (h & _ & Hm). by eapply ch_moved.
  - by apply ch_none.
  - destruct H1. by apply ch_none.
Qed.

Lemma begun_mono s s' p : change_of s s' -> begun_ok s p -> begun_ok s' p.
Proof. intros Hc (Hin & ?). split; [|done]. by eapply change_rows. Qed.

Lemma step_sys_wf y y' : sys_wf y -> step y y' -> sys_wf y'.
Proof.
  intros Hsys Hst. pose proof (step_change y y' Hsys Hst) as Hc. destruct Hsys as [Hwf Hb].
  split; [by eapply change_wf|].
  assert (Hmono : Forall (begun_ok (sy_store y')) (sy_begun y)).
  { eapply Forall_impl; [exact Hb|]. intros p. by apply begun_mono. }
  destruct Hst; cbn in *; try done;
    try (rewrite Forall_app, Forall_cons in Hmono; rewrite Forall_app; tauto).
  apply Forall_cons. split; [|done]. apply begin_spec in H1 as [Hl _]. apply load_current in Hl as (Hc' & ? & ? & _); [|done].
  split_and!; cbn; try done. apply Hc'.
Qed.

Lemma initial_sys_wf y : initial y -> sys_wf y.
Proof.
  intros (? & ? & ? & ->). split; [|done]. split; cbn; try done; try apply List.NoDup_nil.
  - intros _ _. apply List.NoDup_nil.
  - by intros e h r (? & _).
  - by intros e1 e2 h1 h2 r1 r2 (? & _).
Qed.

Lemma steps_sys_wf y y' : sys_wf y -> rtc step y y' -> sys_wf y'.
Proof. intros Hy Hst. induction Hst; [done|]. eauto using step_sys_wf. Qed.

Lemma reachable_sys_wf y : reachable y -> sys_wf y.
Proof. intros (y0 & Hi & Hst). eauto using steps_sys_wf, initial_sys_wf. Qed.

(** *** Heads *)

(** The lifecycle of a head: unchanged, amended while pending, or moved along [TRANSITIONS]. *)
Definition head_step (h h' : ExceptionHead) : Prop :=
  h' = h \/
  (xh_status h = W_PENDING /\ xh_status h' = W_PENDING /\ xh_currentRevision h' = xh_currentRevision h + 1) \/
  (xh_currentRevisionId h' = xh_currentRevisionId h /\ xh_currentRevision h' = xh_currentRevision h /\
   exists action kind, TRANSITIONS action = (xh_status h, xh_status h', kind)).

Lemma change_head s s' e h :
  wf s -> change_of s s' -> map_get e (st_heads s) = Some h ->
  exists h', map_get e (st_heads s') = Some h' /\ head_step h h'.
Proof.
  intros Hwf Hc Hh. destruct Hc as [_ Hh' _ _|row Hr|row Hv|e1 h1 r1 to Hm].
  - exists h. rewrite Hh'. split; [done|by left].
  - rewrite (revised_head s s' row Hr). case_bool_decide as He; [|by exists h; split; [|left]].
    eexists. split; [done|]. right; left. pose proof (rv_next _ _ _ Hr) as Hn. rewrite <- He, Hh in Hn.
    cbn. tauto.
  - exists h. rewrite (vt_heads _ _ _ Hv). split; [done|by left].
  - rewrite (moved_head s s' e1 h1 r1 to Hm). case_bool_decide as He; [|by exists h; split; [|left]].
    eexists. split; [done|]. right; right. destruct (mv_current _ _ _ _ _ _ Hm) as (Hg & _).
    subst. assert (h1 = h) as -> by congruence. cbn. split_and!; try done. apply (mv_edge _ _ _ _ _ _ Hm).
Qed.

(** What may become of a head in any number of steps. *)
Definition head_future (h h' : ExceptionHead) : Prop :=
  match xh_status h with
  | W_PENDING => xh_currentRevision h <= xh_currentRevision h'
  | W_APPROVED => h' = h \/ (xh_currentRevisionId h' = xh_currentRevisionId h /\
                    xh_currentRevision h' = xh_currentRevision h /\ xh_status h' = W_REVOKED)
  | W_REJECTED | W_CANCELLED | W_REVOKED => h' = h
  end.

Lemma head_step_future h h' h'' : head_step h h' -> head_future h' h'' -> head_future h h''.
Proof.
  unfold head_step, head_future. intros [->|[(-> & -> & ->)|(Hi & Hr & a & k & Ha)]]; [done|lia|].
  destruct a; cbn in Ha; injection Ha as Hs Hs' _; rewrite <- Hs, <- Hs'.
  - intros [->|(_ & -> & _)]; lia.
  - intros ->. lia.
  - intros ->. lia.
  - intros ->. by right.
Qed.

Lemma steps_head y y' e h :
  sys_wf y -> rtc step y y' -> map_get e (st_heads (sy_store y)) = Some h ->
  exists h', map_get e (st_heads (sy_store y')) = Some h' /\ head_future h h'.
Proof.
  intros Hsys Hst. revert h Hsys. induction Hst as [y|y y1 y2 Hs _ IH]; intros h Hsys Hh.
  - exists h. split; [done|]. unfold head_future. destruct (xh_status h); auto; lia.
  - destruct (change_head _ _ _ _ (proj1 Hsys) (step_change _ _ Hsys Hs) Hh) as (h1 & Hh1 & Hs1).
    destruct (IH h1) as (h2 & Hh2 & Hf); [by eapply step_sys_wf|done|].
    exists h2. split; [done|]. by eapply head_step_future.
Qed.

Lemma steps_votes y y' a :
  sys_wf y -> rtc step y y' -> In a (st_approvals (sy_store y)) -> In a (st_approvals (sy_store y')).
Proof.
  intros Hsys Hst. revert Hsys. induction Hst as [y|y y1 y2 Hs _ IH]; intros Hsys Ha; [done|].
  apply IH; [by eapply step_sys_wf|]. by eapply change_votes; [apply step_change|].
Qed.

Lemma steps_rows y y' r :
  sys_wf y -> rtc step y y' -> In r (st_exceptions (sy_store y)) -> In r (st_exceptions (sy_store y')).
Proof.
  intros Hsys Hst. revert Hsys. induction Hst as [y|y y1 y2 Hs _ IH]; intros Hsys Hr; [done|].
  apply IH; [by eapply step_sys_wf|]. by eapply change_rows; [apply step_change|].
Qed.
End Reachable.
