(* ===== verification/ExceptionLedger.v ===== *)
(** * ExceptionLedger: the event stream and the receipts of the exception commands

    The events of a contact and the receipts of the commands, in every system [ExceptionSystem]
    reaches. *)
From stdpp Require Import base tactics list strings relations.
From Stdlib Require Import ZArith Lia.
From S2P Require Import Prelude JsMap Text JsDate JsValue Contracts RuleRegistry ExceptionEval Authorization Persistence ExceptionStore ExceptionSystem.

Open Scope string_scope.
Open Scope Z_scope.
Open Scope list_scope.

(** ** The stream of a contact *)

Definition events_of (s : Store) (contactId : string) : list OutboxEvent :=
  js_filter (fun e => bool_decide (ev_aggregateId e = contactId)) (st_outbox s).

(** A contact's events are numbered 1, 2, 3, ... in the order they were written; its stream's
    version is the last number, and the exceptions' own version counts the exception events. *)
Record ledger (s : Store) : Prop := {
  lg_numbered : forall c, map ev_aggregateVersion (events_of s c) =
                          map Z.of_nat (seq 1 (length (events_of s c)));
  lg_stream : forall c, stream_version s c = Z.of_nat (length (events_of s c));
  lg_version : forall c, contact_version s c =
                         Z.of_nat (length (js_filter exception_event (events_of s c)));
}.

(** One event appended to the stream of its contact. *)
Record appended (s : Store) (e : OutboxEvent) (s' : Store) : Prop := {
  ap_outbox : st_outbox s' = st_outbox s ++ [e];
  ap_streams : st_streams s' = map_set (ev_aggregateId e) (ev_aggregateVersion e) (st_streams s);
  ap_number : ev_aggregateVersion e = stream_version s (ev_aggregateId e) + 1;
  ap_version : forall c, contact_version s' c = contact_version s c +
                 (if bool_decide (c = ev_aggregateId e) && exception_event e then 1 else 0);
}.

Lemma events_of_appended s e s' c :
  appended s e s' ->
  events_of s' c = events_of s c ++ (if bool_decide (ev_aggregateId e = c) then [e] else []).
Proof. intros Ha. unfold events_of. rewrite (ap_outbox _ _ _ Ha), List.filter_app. done. Qed.

Lemma stream_version_appended s e s' c :
  appended s e s' ->
  stream_version s' c = stream_version s c + (if bool_decide (ev_aggregateId e = c) then 1 else 0).
Proof.
  intros Ha. unfold stream_version at 1. rewrite (ap_streams _ _ _ Ha). case_bool_decide as Hc.
  - subst c. rewrite map_get_set_eq. apply (ap_number _ _ _ Ha).
  - rewrite map_get_set_ne by done. unfold stream_version. lia.
Qed.

Lemma ledger_appended s e s' : ledger s -> appended s e s' -> ledger s'.
Proof.
  intros [Hn Hs Hv] Ha. split; intros c; specialize (Hn c); specialize (Hs c); specialize (Hv c);
    rewrite ?(events_of_appended _ _ _ _ Ha), ?(stream_version_appended _ _ _ _ Ha), ?(ap_version _ _ _ Ha).
  - case_bool_decide as Hc; [|by rewrite app_nil_r]. rewrite map_app, length_app, Hn. cbn.
    rewrite seq_app, map_app. cbn. do 2 f_equal. rewrite (ap_number _ _ _ Ha), Hc, Hs. lia.
  - rewrite Hs, length_app. case_bool_decide; cbn; lia.
  - rewrite Hv, List.filter_app, length_app. repeat case_bool_decide; subst; try done; cbn;
      destruct (exception_event e); cbn; lia.
Qed.

Lemma ledger_same s s' :
  st_outbox s' = st_outbox s -> st_streams s' = st_streams s -> st_contactHeads s' = st_contactHeads s ->
  ledger s -> ledger s'.
Proof.
  intros Ho Hs Hc [].
  split; intros c; unfold events_of, stream_version, contact_version in *; rewrite ?Ho, ?Hs, ?Hc; done.
Qed.

(** [publish] appends one event, whatever else the command has written before it. *)
Lemma publish_appended `{Host} s s1 c s' :
  st_contactHeads s1 = st_contactHeads s -> st_streams s1 = st_streams s -> st_outbox s1 = st_outbox s ->
  st_outbox s' = st_outbox (publish s1 c) -> st_streams s' = st_streams (publish s1 c) ->
  st_contactHeads s' = st_contactHeads (publish s1 c) ->
  includes ["exception.recorded"; "exception.changed"] (cg_eventType c) = true ->
  exists e, appended s e s' /\ ev_eventType e = cg_eventType c /\ ev_aggregateId e = cg_contactId c.
Proof.
  intros Hc1 Hs1 Ho1 Ho Hs Hh Ht. eexists. split; [split|].
  - rewrite Ho. cbn. by rewrite Ho1.
  - rewrite Hs. cbn. by rewrite Hs1.
  - cbn. rewrite Hs1. unfold stream_version. by destruct (map_get _ _).
  - intros c'. cbn. unfold contact_version, exception_event. rewrite Hh. cbn. rewrite Ht, Hc1.
    case_bool_decide as Heq; cbn.
    + subst c'. rewrite map_get_set_eq. cbn. unfold contact_version. by rewrite Hc1.
    + rewrite map_get_set_ne by done. by rewrite Z.add_0_r.
  - done.
Qed.

Section Ledger.
Context `{Runtime, Host}.

(** A step of the system appends at most one event. *)
Lemma step_appended y y' : step y y' ->
  (st_outbox (sy_store y') = st_outbox (sy_store y) /\ st_streams (sy_store y') = st_streams (sy_store y) /\
   st_contactHeads (sy_store y') = st_contactHeads (sy_store y)) \/
  exists e, appended (sy_store y) e (sy_store y').
Proof.
  intros Hst. destruct Hst; cbn; try (by left).
  - apply record_spec in H1 as (v & _ & [[-> _]|(_ & _ & _ & e & c & _ & _ & Hc & Ht & _ & _ & ->)]);
      [by left|right].
    destruct (publish_appended s (insert_revision s (rr_exception r)) c
      (keep_recorded (publish (insert_revision s (rr_exception r)) c) (ri_idempotencyKey i) (record_hash i v) r))
      as (ev & ? & _); try done; [by rewrite Ht|]. by eexists.
  - apply vote_spec in H2 as [[-> _]|(_ & h & x & g & row & au & s1 & _ & _ & _ & _ & Hi & ->)]; left; [done|].
    apply insert_vote_ok in Hi as (_ & _ & _ & _ & ? & ? & ? & _). done.
  - apply commit_spec in H1 as (to & kind & c & q & s1 & _ & _ & _ & _ & Hs & Hc & Ht & Hk & _).
    apply set_status_ok in Hs as (h & _ & _ & _ & _ & _ & _ & Hc1 & Hs1 & Ho1 & _).
    apply keep_transitioned_ok in Hk as (_ & _ & _ & _ & Hc' & Hs' & Ho' & _). right.
    destruct (publish_appended s s1 c s') as (ev & ? & _); try done; [by rewrite Ht|]. by eexists.
  - right. exists e. split; try done.
    + cbn. f_equal. rewrite H2. unfold stream_version. by destruct (map_get _ _).
    + intros c. cbn. rewrite H1, andb_false_r. unfold contact_version. cbn. lia.
  - left. by destruct H1.
Qed.

Lemma step_ledger y y' : ledger (sy_store y) -> step y y' -> ledger (sy_store y').
Proof.
  intros Hl Hst. destruct (step_appended _ _ Hst) as [(? & ? & ?)|[e Ha]];
    [by eapply ledger_same|by eapply ledger_appended].
Qed.

Lemma reachable_ledger y : reachable y -> ledger (sy_store y).
Proof.
  intros (y0 & (? & ? & ? & ->) & Hst). assert (Hl : ledger (sy_store (System_ (empty_store x x0 x1) []))).
  { by split. }
  revert Hl. induction Hst as [|y y1 y2 Hs _ IH]; [done|]. eauto using step_ledger.
Qed.

(** ** Receipts *)

(** No step overwrites a receipt. *)
Record receipts_kept (s s' : Store) : Prop := {
  rk_recorded : forall key x, map_get key (st_recorded s) = Some x -> map_get key (st_recorded s') = Some x;
  rk_voted : forall key x, map_get key (st_voted s) = Some x -> map_get key (st_voted s') = Some x;
  rk_transitioned : forall key x,
    map_get key (st_transitioned s) = Some x -> map_get key (st_transitioned s') = Some x;
}.

Lemma map_get_set_kept {K V} `{EqDecision K} (m : list (K * V)) k v key x :
  map_get k m = None -> map_get key m = Some x -> map_get key (map_set k v m) = Some x.
Proof. intros Hn Hs. rewrite map_get_set_ne; [done|]. intros ->. congruence. Qed.

Lemma step_receipts y y' : step y y' -> receipts_kept (sy_store y) (sy_store y').
Proof.
  intros Hst. destruct Hst; cbn; try (by split).
  - apply record_spec in H1 as (v & _ & [[-> _]|(Hn & _ & _ & e & c & _ & _ & _ & _ & _ & _ & ->)]); [by split|].
    split; cbn; auto. intros. by apply map_get_set_kept.
  - apply vote_spec in H2 as [[-> _]|(Hn & h & x & g & row & au & s1 & _ & _ & _ & _ & Hi & ->)]; [by split|].
    apply insert_vote_ok in Hi as (_ & _ & _ & _ & _ & _ & _ & Hr & Hv & Ht & _).
    split; cbn; rewrite ?Hr, ?Hv, ?Ht; auto. intros. by apply map_get_set_kept.
  - apply commit_spec in H1 as (to & kind & c & q & s1 & _ & _ & _ & _ & Hs & _ & _ & Hk & _).
    apply set_status_ok in Hs as (h & _ & _ & _ & _ & _ & _ & _ & _ & _ & Hr & Hv & Ht & _).
    apply keep_transitioned_ok in Hk as (Hn & _ & _ & _ & _ & _ & _ & Hr' & Hv' & Ht' & _). cbn in *.
    split; rewrite ?Hr', ?Hv', ?Ht', ?Hr, ?Hv, ?Ht in *; auto. intros. by apply map_get_set_kept.
  - by destruct H1 as [_ _ _ _ _ _ Hr Hv Ht _]; split; rewrite ?Hr, ?Hv, ?Ht.
Qed.

Lemma steps_receipts y y' : rtc step y y' -> receipts_kept (sy_store y) (sy_store y').
Proof.
  induction 1 as [y|y y1 y2 Hs _ IH]; [by split|]. destruct (step_receipts _ _ Hs), IH. split; auto.
Qed.

Lemma record_replays s i v r now :
  validate_record i = Ok v -> map_get (ri_idempotencyKey i) (st_recorded s) = Some (record_hash i v, r) ->
  recordException s i now = Ok (r, s).
Proof.
  intros Hv Hr. unfold recordException. rewrite Hv. cbn. by rewrite (replay_same _ _ _ _ Hr).
Qed.

Lemma record_receipt s i now r s' :
  recordException s i now = Ok (r, s') ->
  exists v, validate_record i = Ok v /\
    map_get (ri_idempotencyKey i) (st_recorded s') = Some (record_hash i v, r).
Proof.
  intros E. apply record_spec in E as (v & Hv & [[-> Hr]|(_ & _ & _ & e & c & _ & _ & _ & _ & _ & _ & ->)]);
    exists v; (split; [done|]); [done|]. cbn. apply map_get_set_eq.
Qed.

Lemma vote_receipt s i now r s' :
  recordExceptionApproval s i now = Ok (r, s') ->
  map_get (va_idempotencyKey i) (st_voted s') = Some (vote_hash i, r).
Proof.
  intros E. apply vote_spec in E as [[-> Hr]|(_ & h & x & g & row & au & s1 & _ & _ & _ & _ & _ & ->)]; [done|].
  cbn. apply map_get_set_eq.
Qed.

Lemma vote_replays s i r now :
  is_ok (require_nonempty [va_tenantId i; va_exceptionId i; va_evidenceRef i; va_makerSubjectId i;
    va_scopeKey i; va_idempotencyKey i]) = true ->
  map_get (va_idempotencyKey i) (st_voted s) = Some (vote_hash i, r) ->
  recordExceptionApproval s i now = Ok (r, s).
Proof.
  intros Hne Hr. unfold recordExceptionApproval. destruct (require_nonempty _) as [[]|]; [|done]. cbn.
  by rewrite (replay_same _ _ _ _ Hr).
Qed.

Lemma vote_nonempty s i now r s' :
  recordExceptionApproval s i now = Ok (r, s') ->
  is_ok (require_nonempty [va_tenantId i; va_exceptionId i; va_evidenceRef i; va_makerSubjectId i;
    va_scopeKey i; va_idempotencyKey i]) = true.
Proof. unfold recordExceptionApproval. by destruct (require_nonempty _). Qed.

(** A transition's input is checked before its receipt is read. *)
Definition transition_input_ok (i : TransitionCg4ExceptionInput) : bool :=
  is_ok (require_nonempty [ti_tenantId i; ti_exceptionId i; ti_reasonCode i; ti_evidenceRef i;
    ti_scopeKey i; ti_idempotencyKey i]) && is_ok (require_instant (ti_occurredAt i)).

Lemma begin_input_ok s i x : begin_transition s i = Ok x -> transition_input_ok i = true.
Proof.
  unfold begin_transition, transition_input_ok. destruct (require_nonempty _); cbn; [|done].
  by destruct (require_instant _).
Qed.

Lemma transition_replays s i r now :
  transition_input_ok i = true ->
  map_get (ti_idempotencyKey i) (st_transitioned s) = Some (transition_hash i, r) ->
  transition s i now = Ok (r, s).
Proof.
  unfold transition_input_ok. intros Hok Hr. apply andb_true_iff in Hok as [H1 H2].
  unfold transition, begin_transition. destruct (require_nonempty _) as [[]|]; [|done]. cbn.
  destruct (require_instant _); [|done]. cbn. by rewrite (replay_same _ _ _ _ Hr).
Qed.

Lemma commit_receipt s i b now r s' :
  commit_transition s i b now = Ok (r, s') ->
  map_get (ti_idempotencyKey i) (st_transitioned s') = Some (transition_hash i, r).
Proof.
  intros E. apply commit_spec in E as (to & kind & c & q & s1 & _ & _ & _ & _ & _ & _ & _ & Hk & _).
  apply keep_transitioned_ok in Hk as (_ & _ & _ & _ & _ & _ & _ & _ & _ & -> & _). apply map_get_set_eq.
Qed.
End Ledger.
