(* ===== verification/ExceptionTheorems.v ===== *)
(** * ExceptionTheorems: what every history of exception commands guarantees

    The properties of the exception commands, proved of every system [ExceptionSystem] reaches,
    and a worked history that their witnesses run. *)
From stdpp Require Import base tactics list strings relations.
From Stdlib Require Import ZArith Lia Ascii.
From S2P Require Import Prelude JsMap Text JsDate JsValue Contracts RuleRegistry ExceptionEval Authorization Persistence ExceptionStore ExceptionSystem ExceptionLedger.

Open Scope string_scope.
Open Scope Z_scope.
Open Scope list_scope.

(** ** A worked history *)

Definition demo_runtime : Runtime := fixed_runtime "UTC" 0 [].

Definition demo_digest : string := "0123456789abcdef0123456789abcdef0123456789abcdef0123456789abcdef".

Definition demo_store : Store :=
  empty_store ["ann"] [("i1", "ann")]
    [PolicyRow_ "p" 1 (JObj [("allowedOperationalRuleCodes", JArr [JStr "QUIET_HOURS"; JStr "MIN_GAP"])])
       demo_digest CG4_RULE_REGISTRY_VERSION "ACTIVE"].

Definition demo_record (series from until : string) (tier : Cg4ExceptionRiskTier) (rule key : string)
  (version : Z) : RecordCg4ExceptionInput :=
  RecordInput "t" "ann" (Some "i1") EXACT_IDENTITY "VOICE" "MARKETING" "CAMPAIGN" "c1" [rule] "p" 1 demo_digest
    CG4_RULE_REGISTRY_VERSION from until tier "LAUNCH" None "ev" "maria" "2026-01-01T00:00:00.000Z"
    (Some series) None key version.

Definition demo_checker (name : string) (compliance : bool) : Cg4AuthorizationSubject :=
  AuthorizationSubject name "t" AUTH_STRONG
    (map (fun c => CapabilityGrant c "k" DIRECT None None)
       [CG_EXCEPTION_APPROVE_STANDARD; CG_EXCEPTION_APPROVE_HIGH; CG_EXCEPTION_REVOKE])
    compliance false 1 1 "2026-01-01T00:00:00.000Z".

(** The content digest a reader of the series sees. *)
Definition content_digest (s : Store) (series : string) : string :=
  match map_get series (st_heads s) with
  | Some h => match find_row s (xh_currentRevisionId h) with Some r => xr_requestHash r | None => "" end
  | None => ""
  end.

Definition demo_decide (s : Store) (series checker : string) (d : Cg4ApprovalDecision) (version : Z)
  (key : string) : DecideInput :=
  DecideInput_ "t" series 1 (content_digest s series) d "ev" None "k" (demo_checker checker true)
    (Some version) key.

Definition demo_move (s : Store) (series actor : string) (a : Cg4ExceptionTransitionAction) (version : Z)
  (key : string) : TransitionCg4ExceptionInput :=
  TransitionInput "t" series 1 (content_digest s series) a "r" "ev" (demo_checker actor true) "k"
    "2026-01-01T00:00:00.000Z" version key.

Section Run.
Context `{Runtime, Host}.

(** A history is a list of commands, each built from the store it meets. *)
Inductive Command :=
  | C_record (i : RecordCg4ExceptionInput)
  | C_vote (i : Store -> DecideInput)
  | C_move (i : Store -> TransitionCg4ExceptionInput).

Definition run_command (now : Z) (s : Store) (c : Command) : option Store :=
  match c with
  | C_record i => match recordException s i now with Ok (_, s') => Some s' | Err _ => None end
  | C_vote i => match recordExceptionApproval s (decide_vote s (i s)) now with
                | Ok (_, s') => Some s' | Err _ => None end
  | C_move i => match transition s (i s) (fun _ => now) with Ok (_, s') => Some s' | Err _ => None end
  end.

Fixpoint run (now : Z) (s : Store) (cs : list Command) : option Store :=
  match cs with
  | [] => Some s
  | c :: cs' => s' ← run_command now s c; run now s' cs'
  end.

Lemma transition_steps s i now r s' b :
  transition s i now = Ok (r, s') -> rtc step (System_ s b) (System_ s' b).
Proof.
  unfold transition. intros E. apply bind_ok in E as ([resp|bg] & Hb & E).
  - injection E as _ ->. apply rtc_refl.
  - eapply rtc_l; [by apply step_begin|]. apply rtc_once. by apply (step_commit s [] b i bg now r s').
Qed.

Lemma run_steps now s cs s' b : run now s cs = Some s' -> rtc step (System_ s b) (System_ s' b).
Proof.
  revert s. induction cs as [|c cs IH]; intros s; cbn; [intros [= ->]; apply rtc_refl|].
  destruct (run_command now s c) as [s1|] eqn:Ec; cbn; [|done]. intros Hr.
  etrans; [|by apply IH]. destruct c as [i|i|i]; cbn in Ec.
  - destruct (recordException s i now) as [[r s2]|] eqn:E; [|done]. injection Ec as ->.
    apply rtc_once. by eapply step_record.
  - destruct (recordExceptionApproval s (decide_vote s (i s)) now) as [[r s2]|] eqn:E; [|done].
    injection Ec as ->. apply rtc_once. by eapply (step_vote s b (decide_vote s (i s))).
  - destruct (transition s (i s) (fun _ => now)) as [[r s2]|] eqn:E; [|done]. injection Ec as ->.
    by eapply transition_steps.
Qed.
End Run.

(** Two series of one contact, back to back, recorded, voted on and approved; one revoked. *)
Definition demo_commands : list Command :=
  [C_record (demo_record "a" "2026-01-01T00:00:00.000Z" "2026-01-01T02:00:00.000Z" STANDARD "QUIET_HOURS" "k1" 0);
   C_vote (fun s => demo_decide s "a" "carol" APPROVE 1 "k2");
   C_move (fun s => demo_move s "a" "carol" T_APPROVE 1 "k3");
   C_record (demo_record "b" "2026-01-01T02:00:00.000Z" "2026-01-01T04:00:00.000Z" STANDARD "QUIET_HOURS" "k4" 2);
   C_vote (fun s => demo_decide s "b" "carol" APPROVE 3 "k5");
   C_move (fun s => demo_move s "b" "carol" T_APPROVE 3 "k6")].

Definition demo_now : Z := 1767225600000.

Definition demo_run (cs : list Command) : option Store :=
  @run demo_runtime demo_host demo_now demo_store cs.

Example demo_runs : is_Some (demo_run demo_commands).
Proof. vm_compute. by eexists. Qed.

(** ** Guarantees *)

Section Guarantees.
Context `{Runtime, Host}.
Context (fresh_inj : forall m n, fresh m = fresh n -> m = n).

Lemma reachable_wf y : reachable y -> wf (sy_store y).
Proof. intros Hy. by apply (reachable_sys_wf fresh_inj). Qed.

Lemma counted_votes_In rows v :
  In v (counted_votes rows) -> exists a, In a rows /\ ar_approved a = true /\
    ra_directComplianceAuthority v = ra_directComplianceAuthority (ar_vote a) /\
    ra_emergencyAuthority v = ra_emergencyAuthority (ar_vote a).
Proof.
  unfold counted_votes. intros Hv. apply in_map_iff in Hv as (a & <- & Ha).
  apply filter_In in Ha as [? ?]. by exists a.
Qed.

(** C23: approved exceptions never overlap. In every store the commands reach, in whatever
    order they ran and however many transitions were under way at once, two series of one
    contact that both stand approved never bind the same scope and a common rule at a common
    instant. *)
Theorem approved_never_overlap y e1 e2 h1 h2 r1 r2 :
  reachable y -> current (sy_store y) e1 h1 r1 -> current (sy_store y) e2 h2 r2 -> e1 <> e2 ->
  xh_status h1 = W_APPROVED -> xh_status h2 = W_APPROVED -> xr_contactId r1 = xr_contactId r2 ->
  ~ overlaps r1 r2.
Proof.
  intros Hy H1 H2 Hne S1 S2 Hc Ho. apply overlap_spec in Ho.
  by rewrite (wf_disjoint _ (reachable_wf y Hy) e1 e2 h1 h2 r1 r2) in Ho.
Qed.

(** C24: no exception is approved without its quorum. A series that stands approved, or was
    and is now revoked, has on its current revision approving votes of distinct people, none
    of them its maker: one for the STANDARD tier; two, one with direct Compliance authority,
    for HIGH; and for EMERGENCY also one with emergency authority. *)
Theorem approved_has_quorum y e h r :
  reachable y -> current (sy_store y) e h r -> xh_status h = W_APPROVED \/ xh_status h = W_REVOKED ->
  let votes := js_filter ar_approved (approvals_of (sy_store y) e (xh_currentRevision h)) in
  let held authority := exists a, In a votes /\ authority (ar_vote a) = true in
  List.NoDup (map voter votes) /\ (forall a, In a votes -> voter a <> xr_actorRef r) /\
  match xr_tier r with
  | STANDARD => 1 <= Z.of_nat (length votes)
  | HIGH => 2 <= Z.of_nat (length votes) /\ held ra_directComplianceAuthority
  | EMERGENCY => 2 <= Z.of_nat (length votes) /\ held ra_directComplianceAuthority /\
                 held ra_emergencyAuthority
  end.
Proof.
  intros Hy Hc Hst votes held. pose proof (reachable_wf y Hy) as Hwf.
  destruct (current_series _ _ _ _ Hwf Hc) as [He Hn]. destruct Hc as (Hh & Hr & Hi).
  split; [apply NoDup_map_filter, (wf_one_vote _ Hwf)|]. split.
  - intros a Ha. apply filter_In in Ha as [Ha _]. apply filter_In in Ha as [Ha Hk].
    apply andb_true_iff in Hk as [Hk1 Hk2]. apply bool_decide_eq_true in Hk1. apply Z.eqb_eq in Hk2.
    destruct (wf_votes _ Hwf a Ha) as (r' & Hr' & He' & Hn' & Hv).
    rewrite (wf_revisions _ Hwf r r'); [done|done|done|congruence|congruence].
  - pose proof (wf_quorum _ Hwf e h r (conj Hh (conj Hr Hi)) Hst) as Hq. unfold approved_by_quorum in Hq.
    rewrite He, Hn, (counted_votes_fresh _ (wf_one_vote _ Hwf _ _)) in Hq.
    assert (Hlen : length (counted_votes (approvals_of (sy_store y) e (xh_currentRevision h))) = length votes).
    { unfold counted_votes. by rewrite length_map. }
    assert (Hheld : forall f, f = ra_directComplianceAuthority \/ f = ra_emergencyAuthority ->
      1 <= count_if f (counted_votes (approvals_of (sy_store y) e (xh_currentRevision h))) -> held f).
    { intros f Hf Hcount. apply count_if_witness in Hcount as (v & Hv & Hfv).
      apply counted_votes_In in Hv as (a & Ha & Hap & Hd & Hem). exists a.
      split; [by apply filter_In|]. destruct Hf as [-> | ->]; congruence. }
    unfold enough in Hq. rewrite Hlen in Hq.
    destruct (xr_tier r); cbn in Hq; destruct Hq as (Hq1 & Hq2 & Hq3); split_and?; auto.
    destruct Hq3 as [Hq3 _]; auto.
Qed.

(** The lifecycle goes one way. Whatever happens after, a rejected, cancelled or revoked
    series never changes again, an approved one keeps its revision and can only be revoked,
    and a pending one never loses a revision. *)
Theorem lifecycle_one_way y y' e h :
  reachable y -> rtc step y y' -> map_get e (st_heads (sy_store y)) = Some h ->
  exists h', map_get e (st_heads (sy_store y')) = Some h' /\
    match xh_status h with
    | W_PENDING => xh_currentRevision h <= xh_currentRevision h'
    | W_APPROVED => h' = h \/ (xh_currentRevisionId h' = xh_currentRevisionId h /\
                      xh_currentRevision h' = xh_currentRevision h /\ xh_status h' = W_REVOKED)
    | W_REJECTED | W_CANCELLED | W_REVOKED => h' = h
    end.
Proof.
  intros Hy Hst Hh. eapply (steps_head fresh_inj); [by apply reachable_sys_wf|done|done].
Qed.

(** The stream of a contact has no gap and no repetition. In every store the commands
    reach, with other facts of the contact published in between, its events are numbered 1,
    2, 3, ... as they were written, the stream's version is the last number, and the version
    the exception commands compare with is the number of exception events. *)
Theorem contact_stream_gapless y c :
  reachable y ->
  map ev_aggregateVersion (events_of (sy_store y) c) = map Z.of_nat (seq 1 (length (events_of (sy_store y) c))) /\
  stream_version (sy_store y) c = Z.of_nat (length (events_of (sy_store y) c)) /\
  contact_version (sy_store y) c = Z.of_nat (length (js_filter exception_event (events_of (sy_store y) c))).
Proof. intros Hy. by destruct (reachable_ledger y Hy). Qed.

(** A repeated command is answered from its receipt. Whatever ran since, the same request
    with the same idempotency key gets the same response and changes nothing. *)
Theorem retry_is_idempotent y y' :
  rtc step y y' ->
  (forall i now now' r s1, recordException s1 i now = Ok (r, sy_store y) ->
     recordException (sy_store y') i now' = Ok (r, sy_store y')) /\
  (forall i now now' r s1, recordExceptionApproval s1 i now = Ok (r, sy_store y) ->
     recordExceptionApproval (sy_store y') i now' = Ok (r, sy_store y')) /\
  (forall i b s0 now now' r s1, begin_transition s0 i = Ok (inr b) ->
     commit_transition s1 i b now = Ok (r, sy_store y) ->
     transition (sy_store y') i now' = Ok (r, sy_store y')).
Proof.
  intros Hst. destruct (steps_receipts _ _ Hst) as [Hr Hv Ht]. split_and!.
  - intros i now now' r s1 E. apply record_receipt in E as (v & Hv' & Hg).
    eapply record_replays; [done|by apply Hr].
  - intros i now now' r s1 E. apply vote_replays; [by eapply vote_nonempty|].
    by eapply Hv, vote_receipt.
  - intros i b s0 now now' r s1 Hb E. apply transition_replays; [by eapply begin_input_ok|].
    by eapply Ht, commit_receipt.
Qed.

(** A rejecting vote is final. Once one is recorded on a revision, no transition of that
    revision to APPROVED can commit any more, whichever votes follow and even if it had begun
    before. *)
Theorem rejection_blocks_approval y y' a i b now :
  reachable y -> In a (st_approvals (sy_store y)) -> ar_approved a = false -> rtc step y y' ->
  ti_exceptionId i = ar_exceptionId a -> ti_expectedRevision i = ar_exceptionRevision a ->
  ti_action i = T_APPROVE -> is_ok (commit_transition (sy_store y') i b now) = false.
Proof.
  intros Hy Ha Hrej Hst He Hn Hact. destruct (commit_transition _ i b now) as [[r s']|] eqn:E; [|done].
  exfalso. apply commit_spec in E as (to & kind & c & q & s1 & _ & _ & Hq & _).
  destruct (Hq Hact) as (q' & _ & Hok). unfold check_approval, authorize in Hok.
  apply bind_ok in Hok as ([] & Hm & _). unfold assertCg4QuorumMet in Hm.
  case_bool_decide as Hmet; cbn in Hm; [|done]. apply quorum_met_iff in Hmet as [Hno _].
  assert (Hyes : js_some (fun row => negb (ar_approved row))
    (approvals_of (sy_store y') (ti_exceptionId i) (ti_expectedRevision i)) = true); [|congruence].
  apply existsb_exists. exists a. split; [|by rewrite Hrej]. apply filter_In. split.
  - eapply (steps_votes fresh_inj); [by apply reachable_sys_wf|done|done].
  - rewrite bool_decide_eq_true_2 by done. rewrite Hn. apply Z.eqb_refl.
Qed.

(** The maker of a revision does not change while the system runs. *)
Lemma maker_stable y y' e n :
  sys_wf y -> rtc step y y' -> cg4ExceptionMakerSubjectId (sy_store y) e n <> "" ->
  cg4ExceptionMakerSubjectId (sy_store y') e n = cg4ExceptionMakerSubjectId (sy_store y) e n.
Proof.
  intros Hsys Hst. unfold cg4ExceptionMakerSubjectId at 1 3.
  destruct (js_find _ (st_exceptions (sy_store y))) as [r|] eqn:E; [|done]. intros _.
  apply find_some in E as [Hr E]. apply andb_true_iff in E as [He Hn].
  apply bool_decide_eq_true in He. apply Z.eqb_eq in Hn. subst.
  apply maker_of; [|by eapply (steps_rows fresh_inj)]. by apply (steps_sys_wf fresh_inj y y').
Qed.

Lemma nonempty_maker s i now r s' :
  recordExceptionApproval s (decide_vote s i) now = Ok (r, s') ->
  cg4ExceptionMakerSubjectId s (dc_seriesId i) (dc_expectedRevision i) <> "".
Proof.
  intros E Hm. apply vote_nonempty in E. unfold require_nonempty, throw_if in E. cbn in E.
  rewrite Hm in E. cbn in E. rewrite !orb_true_r in E. done.
Qed.

Lemma transition_receipt s i now t s' :
  transition s i now = Ok (t, s') ->
  map_get (ti_idempotencyKey i) (st_transitioned s') = Some (transition_hash i, t).
Proof.
  unfold transition. intros Et. apply bind_ok in Et as ([resp|bg] & Hbg & Et); [|by eapply commit_receipt].
  injection Et as -> <-. unfold begin_transition in Hbg. apply bind_ok in Hbg as ([] & _ & Hbg).
  apply bind_ok in Hbg as (? & _ & Hbg). apply bind_ok in Hbg as (o & Ho & Hbg).
  apply replay_ok in Ho. destruct o; [|by apply bind_ok in Hbg as (? & _ & ?)]. by injection Hbg as ->.
Qed.

(** A decision that was interrupted resumes. The vote and the transition it finalizes are
    two transactions; when the second never ran, or failed, repeating the request counts no
    second vote and goes on with the transition, on whatever store the system is in by then;
    and when both ran, repeating it returns the same answer. *)
Theorem decide_resumes y y1 y2 i v now now' :
  reachable y -> recordExceptionApproval (sy_store y) (decide_vote (sy_store y) i) now = Ok (v, sy_store y1) ->
  sy_begun y1 = sy_begun y -> rtc step y1 y2 ->
  decide_route (sy_store y2) i now' = finalize (sy_store y2) i v now' /\
  (forall answer y3 y4 now'', IsoDates _ -> iso_range (now'' 1%nat) ->
     finalize (sy_store y2) i v now' = (Ok answer, sy_store y3) -> sy_begun y3 = sy_begun y2 ->
     rtc step y3 y4 -> decide_route (sy_store y4) i now'' = (Ok answer, sy_store y4)).
Proof.
  intros Hy Hv Hb Hst. pose proof (nonempty_maker _ _ _ _ _ Hv) as Hm.
  assert (H01 : step y y1).
  { destruct y as [s b], y1 as [s1 b1]. cbn in *. subst. by eapply (step_vote s b (decide_vote s i)). }
  assert (Hvote : forall y2 t, rtc step y1 y2 ->
    recordExceptionApproval (sy_store y2) (decide_vote (sy_store y2) i) t = Ok (v, sy_store y2)).
  { clear y2 Hst. intros y2 t Hst. unfold decide_vote.
    rewrite (maker_stable y y2); [|by apply reachable_sys_wf|by eapply rtc_l|done].
    apply vote_replays; [by eapply vote_nonempty|]. apply (rk_voted _ _ (steps_receipts _ _ Hst)).
    by apply (vote_receipt _ _ _ _ _ Hv). }
  split; [unfold decide_route; by rewrite Hvote|].
  intros answer y3 y4 now'' Hiso Hrange Hf Hb3 Hst'.
  unfold finalize in Hf. set (go := negb _) in Hf.
  assert (Hdone : rtc step y2 y3 /\ finalize (sy_store y4) i v now'' = (Ok answer, sy_store y4)).
  { unfold finalize. fold go. destruct go.
    { injection Hf as <- Hs. split; [|done]. destruct y2, y3; cbn in *; subst. apply rtc_refl. }
    destruct (dc_expectedVersion i) as [ev|]; [|done].
    destruct (transition _ _ _) as [[t s3]|] eqn:Et; [|done]. injection Hf as <- Hs3. subst s3. split.
    { destruct y2, y3; cbn in *; subst. by eapply transition_steps. }
    rewrite (transition_replays (sy_store y4) _ t); [done| |].
    - unfold transition in Et. apply bind_ok in Et as (x & Hbg & _). apply begin_input_ok in Hbg.
      unfold transition_input_ok in *. apply andb_true_iff in Hbg as [Hne _].
      apply andb_true_iff. split; [done|]. unfold require_instant.
      change (ti_occurredAt _) with (toISOString (now'' 1%nat)). by rewrite iso_dates.
    - apply (rk_transitioned _ _ (steps_receipts _ _ Hst')). by apply (transition_receipt _ _ _ _ _ Et). }
  destruct Hdone as [H23 Hd]. unfold decide_route. rewrite Hvote by (by repeat (etrans; [done|])). done.
Qed.

(** A transition that was overtaken does nothing. When, between what a transition read and
    the moment it gets the contact's lock, its series was amended or moved to another state, or
    the contact's exceptions changed, it fails. *)
Theorem overtaken_transition_fails s i b now h :
  map_get (ti_exceptionId i) (st_heads s) = Some h ->
  xh_currentRevision h <> ti_expectedRevision i \/ xh_status h <> xh_status (bg_head b) \/
  contact_version s (xr_contactId (bg_revision b)) <> ti_expectedVersion i ->
  is_ok (commit_transition s i b now) = false.
Proof.
  intros Hh Hor. destruct (commit_transition _ i b now) as [[r s']|] eqn:E; [|done]. exfalso.
  apply commit_spec in E as (to & kind & c & q & s1 & _ & _ & _ & Hv & Hs & _).
  apply set_status_ok in Hs as (h' & Hh' & Hr & Hst & _). rewrite Hh in Hh'. injection Hh' as <-.
  tauto.
Qed.
End Guarantees.

#[local] Existing Instance demo_runtime.
#[local] Existing Instance demo_host.

(** A HIGH request, and the store once Carol's rejection of it fails on a stale version. *)
Definition high_requested : Store :=
  default demo_store (demo_run
    [C_record (demo_record "a" "2026-01-01T00:00:00.000Z" "2026-01-01T02:00:00.000Z" HIGH "MIN_GAP" "k1" 0)]).

Definition carol_rejects := decide_route high_requested (demo_decide high_requested "a" "carol" REJECT 0 "k2") (fun _ => demo_now).

Definition dave_approves (s : Store) : DecideInput := demo_decide s "a" "dave" APPROVE 1 "k3".

(** A rejecting vote is counted as an approval in the answer the voter gets. Carol rejects a
    HIGH request, but the transition her rejection should finalize fails on a stale version, so
    the request stays pending. Dave approves: [recordExceptionApproval] reports the quorum met,
    Carol's rejection counted as the second approval, and the route tries to activate the
    exception; only [transition], which reads the votes again, refuses. *)
Theorem rejected_vote_reported_met :
  let s := snd carol_rejects in
  fst carol_rejects = Err (VERSION_CONFLICT 0 1) /\
  map ar_approved (st_approvals s) = [false] /\
  (vr_quorum ∘ fst) <$> recordExceptionApproval s (decide_vote s (dave_approves s)) demo_now
    = Ok (QuorumEvaluation Q_MET 2 2 ["carol"; "dave"]) /\
  fst (decide_route s (dave_approves s) (fun _ => demo_now)) = Err (NOT_AUTHORIZED (QUORUM_NOT_MET 2 1)).
Proof. vm_compute. repeat split. Qed.

(** ** The worked history meets the hypotheses *)

Definition demo_final : Store := Eval vm_compute in default demo_store (demo_run demo_commands).

Lemma demo_reachable cs s : demo_run cs = Some s -> reachable (System_ s []).
Proof.
  intros Hr. exists (System_ demo_store []). split; [by eexists _, _, _|]. by eapply run_steps.
Qed.

Lemma demo_final_reachable : reachable (System_ demo_final []).
Proof. apply (demo_reachable demo_commands). vm_compute. reflexivity. Qed.

(** Its two revisions and their heads. *)
Definition demo_row (k : nat) : ExceptionRow :=
  nth k (st_exceptions demo_final)
    (new_row (demo_record "" "" "" STANDARD "" "" 0) (ValidRecord_ 0 0 0 []) "" "" "" None 0).
Definition demo_a : ExceptionRow := Eval vm_compute in demo_row 0.
Definition demo_b : ExceptionRow := Eval vm_compute in demo_row 1.
Definition head_a : ExceptionHead := ExceptionHead_ "2" 1 W_APPROVED.
Definition head_b : ExceptionHead := ExceptionHead_ "14" 1 W_APPROVED.

Lemma demo_current_a : current demo_final "a" head_a demo_a.
Proof. split; [reflexivity|]. split; [by left|reflexivity]. Qed.

Lemma demo_current_b : current demo_final "b" head_b demo_b.
Proof. split; [reflexivity|]. split; [by right; left|reflexivity]. Qed.

Lemma approved_never_overlap_witness : "a" <> "b" /\ xr_contactId demo_a = xr_contactId demo_b /\ ~ overlaps demo_a demo_b.
Proof.
  split; [discriminate|]. split; [reflexivity|].
  apply (approved_never_overlap demo_fresh_inj (System_ demo_final []) "a" "b" head_a head_b demo_a demo_b);
    [exact demo_final_reachable|exact demo_current_a|exact demo_current_b|discriminate|reflexivity..].
Defined.

Lemma approved_has_quorum_witness :
  1 <= Z.of_nat (length (js_filter ar_approved (approvals_of demo_final "a" 1))).
Proof.
  apply (approved_has_quorum demo_fresh_inj (System_ demo_final []) "a" head_a demo_a);
    [exact demo_final_reachable|exact demo_current_a|by left].
Defined.

(** The series revoked after the worked history. *)
Definition revoked_store : Store :=
  Eval vm_compute in default demo_store
    (run_command demo_now demo_final (C_move (fun s => demo_move s "a" "carol" T_REVOKE 4 "k7"))).

Lemma demo_revokes : rtc step (System_ demo_final []) (System_ revoked_store []).
Proof.
  apply (run_steps demo_now _ [C_move (fun s => demo_move s "a" "carol" T_REVOKE 4 "k7")]).
  vm_compute. reflexivity.
Qed.

Lemma lifecycle_one_way_witness :
  exists h', map_get "a" (st_heads revoked_store) = Some h' /\
    (h' = head_a \/ (xh_currentRevisionId h' = "2" /\ xh_currentRevision h' = 1 /\ xh_status h' = W_REVOKED)).
Proof.
  apply (lifecycle_one_way demo_fresh_inj (System_ demo_final []) (System_ revoked_store []) "a" head_a);
    [exact demo_final_reachable|exact demo_revokes|reflexivity].
Defined.

Lemma contact_stream_gapless_witness : map ev_aggregateVersion (events_of revoked_store "ann") = [1; 2; 3; 4; 5].
Proof.
  apply (contact_stream_gapless (System_ revoked_store []) "ann").
  destruct demo_final_reachable as (y0 & Hi & Hs). exists y0. split; [exact Hi|].
  etrans; [exact Hs|exact demo_revokes].
Defined.

(** The first request of the history, repeated at its end. *)
Definition first_request : RecordCg4ExceptionInput :=
  demo_record "a" "2026-01-01T00:00:00.000Z" "2026-01-01T02:00:00.000Z" STANDARD "QUIET_HOURS" "k1" 0.
Definition demo_first : Store := Eval vm_compute in default demo_store (run_command demo_now demo_store (C_record first_request)).

Lemma retry_is_idempotent_witness :
  exists r, recordException demo_store first_request demo_now = Ok (r, demo_first) /\
    recordException demo_final first_request (demo_now + 1) = Ok (r, demo_final).
Proof.
  eexists. split; [vm_compute; reflexivity|].
  assert (Hst : rtc step (System_ demo_first []) (System_ demo_final [])).
  { apply (run_steps demo_now _ (tail demo_commands)). vm_compute. reflexivity. }
  destruct (retry_is_idempotent _ _ Hst) as [Hr _].
  apply (Hr first_request demo_now (demo_now + 1) _ demo_store). vm_compute. reflexivity.
Defined.

(** The HIGH request after Carol's rejecting vote. *)
Definition rejected_store : Store := Eval vm_compute in snd carol_rejects.
Definition high_store : Store := Eval vm_compute in high_requested.
Definition carol_vote : DecideInput := demo_decide high_store "a" "carol" REJECT 0 "k2".

Lemma high_reachable : reachable (System_ high_store []).
Proof.
  apply (demo_reachable
    [C_record (demo_record "a" "2026-01-01T00:00:00.000Z" "2026-01-01T02:00:00.000Z" HIGH "MIN_GAP" "k1" 0)]).
  vm_compute. reflexivity.
Qed.

Lemma carol_steps : rtc step (System_ high_store []) (System_ rejected_store []).
Proof.
  apply (run_steps demo_now _ [C_vote (fun _ => carol_vote)]). vm_compute. reflexivity.
Qed.

Lemma rejected_reachable : reachable (System_ rejected_store []).
Proof.
  destruct high_reachable as (y0 & Hi & Hs). exists y0. split; [exact Hi|].
  etrans; [exact Hs|exact carol_steps].
Qed.

Definition carol_row : ApprovalRow :=
  Eval vm_compute in nth 0 (st_approvals rejected_store)
    (new_vote (decide_vote high_store carol_vote) "" CG_POLICY_DRAFT (CapabilityGrant CG_POLICY_DRAFT "" DIRECT None None) 0).

(** What a transition of the request reads on a store. *)
Definition begun_of (s : Store) : Begun :=
  Begun_ demo_now (ExceptionHead_ "2" 1 W_PENDING)
    (nth 0 (st_exceptions s) (new_row (demo_record "" "" "" STANDARD "" "" 0) (ValidRecord_ 0 0 0 []) "" "" "" None 0)).

Lemma rejection_blocks_approval_witness :
  is_ok (commit_transition rejected_store (demo_move rejected_store "a" "dave" T_APPROVE 1 "k9")
           (begun_of rejected_store) (fun _ => demo_now)) = false.
Proof.
  apply (rejection_blocks_approval demo_fresh_inj (System_ rejected_store []) (System_ rejected_store []) carol_row);
    [exact rejected_reachable|by left|reflexivity|apply rtc_refl|reflexivity..].
Defined.

(** The answer to Carol's vote. *)
Definition carol_result : VoteResult :=
  Eval vm_compute in
    match recordExceptionApproval high_store (decide_vote high_store carol_vote) demo_now with
    | Ok (v, _) => v
    | Err _ => VoteResult_ "" (QuorumEvaluation Q_PENDING 0 0 [])
    end.

Lemma carol_votes :
  recordExceptionApproval high_store (decide_vote high_store carol_vote) demo_now = Ok (carol_result, rejected_store).
Proof. vm_compute. reflexivity. Qed.

Lemma decide_resumes_witness :
  decide_route rejected_store carol_vote (fun _ => demo_now) =
    finalize rejected_store carol_vote carol_result (fun _ => demo_now).
Proof.
  exact (proj1 (decide_resumes demo_fresh_inj (System_ high_store []) (System_ rejected_store [])
    (System_ rejected_store []) carol_vote carol_result demo_now (fun _ => demo_now)
    high_reachable carol_votes eq_refl (rtc_refl _ _))).
Defined.

(** A revocation that begins on the worked history and is overtaken by another. *)
Lemma overtaken_transition_fails_witness :
  exists b, begin_transition demo_final (demo_move demo_final "a" "carol" T_REVOKE 4 "k8") = Ok (inr b) /\
    is_ok (commit_transition revoked_store (demo_move demo_final "a" "carol" T_REVOKE 4 "k8") b (fun _ => demo_now)) = false.
Proof.
  eexists. split; [vm_compute; reflexivity|].
  apply (overtaken_transition_fails revoked_store _ _ _ (ExceptionHead_ "2" 1 W_REVOKED)); [reflexivity|].
  right; left. discriminate.
Defined.
