(* ===== verification/FactLoader.v ===== *)
(** * FactLoader: the facts one decision is made of

    [apps/contact-governance/src/cg3-fact-loader.ts]: the preferences, the CG3 policy, the callback and
    the CG4 exceptions a decision reads, over the tables of one tenant. The exception tables are those
    of [ExceptionStore], the CG4 policy versions those of [PolicyStore], the callbacks those of
    [Callbacks]. Columns of enumerated and JSON types are typed values, as the source casts them. *)
From stdpp Require Import base tactics list strings.
From Stdlib Require Import ZArith Lia Sorting.Permutation Sorting.Sorted.
From S2P Require Import Prelude JsMap Text JsDate JsValue Contracts RuleRegistry Windows Cg3Facts Temporal ExceptionEval Cg3Evaluator Persistence PolicyStore PolicyLifecycle Callbacks ExceptionStore ExceptionSystem.

Open Scope string_scope.
Open Scope Z_scope.
Open Scope list_scope.

Record Cg3FactQuery := FactQuery {
  fq_contactId : string;
  fq_identityId : option string;
  fq_channel : ContactChannel;
  fq_purpose : string;
  fq_contactKind : option string;
  fq_now : Z;
}.

Record Cg3Facts := Facts {
  fa_aggregateVersion : Z;
  fa_preferences : list Cg3PreferenceCandidate;
  fa_policy : option Cg3PolicyFacts;
  fa_activeCallback : option Cg3CallbackFacts;
  fa_activeExceptions : list Cg4ExceptionFacts;
}.

(** ** Rows *)

(** A row of [cg_preferences]; [pe_set] says whether its mutation is [SET], not [REVOKE]. *)
Record PreferenceRow := PreferenceRow_ {
  pe_contactId : string;
  pe_scopeHash : string;
  pe_set : bool;
  pe_effectiveFrom : Z;
  pe_effectiveTo : option Z;
  pe_candidate : Cg3PreferenceCandidate;
}.

(** A row of [cg_policies]; [cp_published] says whether its status is [PUBLISHED]. *)
Record Cg3PolicyRow := Cg3PolicyRow_ {
  c3_policyId : string;
  c3_version : Z;
  c3_channel : option ContactChannel;
  c3_purpose : option string;
  c3_contactKind : option string;
  c3_timezoneFallback : option string;
  c3_quietHours : list LocalTimeWindow;
  c3_callbackMode : Cg3CallbackMode;
  c3_overridableRules : list string;
  c3_published : bool;
  c3_effectiveFrom : Z;
  c3_effectiveTo : option Z;
  c3_publishedAt : option Z;
}.

(** A row of [cg_holiday_calendar_entries]; [localDate] is the midnight UTC of the day. *)
Record HolidayRow := HolidayRow_ {
  hr_policyId : string;
  hr_policyVersion : Z;
  hr_localDate : Z;
  hr_effect : HolidayEffect;
  hr_windows : list LocalTimeWindow;
}.

(** What the loader reads: one snapshot of the tables. *)
Record FactTables := FactTables_ {
  ft_exceptions : Store;
  ft_policies : PolicyStore;
  ft_preferences : list PreferenceRow;
  ft_cg3Policies : list Cg3PolicyRow;
  ft_holidays : list HolidayRow;
  ft_callbacks : list CallbackRow;
}.

(** [effectiveFrom: { lte: now }, OR: [{ effectiveTo: null }, { effectiveTo: { gt: now } }]] *)
Definition in_effect (from : Z) (until : option Z) (now : Z) : bool :=
  (from <=? now) && match until with None => true | Some u => now <? u end.

(** ** [loadCg4ExceptionFacts] *)

(** [policyAllowedRuleCodes]: entries that are not strings are left out. *)
Definition loaded_rule_codes (content : option jsval) : list string :=
  match content with
  | Some (JObj fs) | Some (JInstance fs) =>
      match field "allowedOperationalRuleCodes" fs with
      | JArr l => omap (fun e => match e with JStr s => Some s | _ => None end) l
      | _ => []
      end
  | _ => []
  end.

(** The enumerated column [channel]; a text that names no channel cannot be stored. *)
Definition channel_of (name : string) : option ContactChannel :=
  js_find (fun c => bool_decide (channel_name c = name)) [VOICE; WEBCHAT; LINE; FACEBOOK; WHATSAPP; EMAIL].

Definition revision_before (a b : ExceptionRow) : bool :=
  if xr_startsAt a =? xr_startsAt b then xr_revision a <=? xr_revision b else xr_startsAt a <=? xr_startsAt b.

(** The revisions of the contact whose window holds the instant. *)
Definition active_revisions (s : Store) (query : Cg3FactQuery) : list ExceptionRow :=
  sort_by revision_before
    (js_filter (fun r => bool_decide (xr_contactId r = fq_contactId query) &&
                         (xr_startsAt r <=? fq_now query) && (fq_now query <? xr_expiresAt r))
       (st_exceptions s)).

(** [`${policyId}:${version}`] *)
Definition policy_key (policyId : string) (version : Z) : string := policyId +:+ ":" +:+ show version.

(** [new Map(policies.map((policy) => [key, policy]))]: a later row replaces an earlier one. *)
Definition policy_by_key (policies : list PolicyVersion) : list (string * PolicyVersion) :=
  fold_left (fun m p => map_set (policy_key (pr_policyId p) (pr_version p)) p m) policies [].

Definition grant_source_text (source : Cg4CapabilityGrantSource) : string :=
  match source with DIRECT => "DIRECT" | DELEGATED => "DELEGATED" end.

Section Loader.
Context `{Host}.

Definition approval_value (a : ApprovalRow) : jsval :=
  JObj [("approverRef", JStr (ra_checkerSubjectId (ar_vote a)));
        ("decision", JStr (if ar_approved a then "APPROVE" else "REJECT"));
        ("capability", JStr (capability_text (ra_capability (ar_vote a))));
        ("capabilitySource", JStr (grant_source_text (ra_source (ar_vote a))));
        ("authorizationEpoch", JNum (NInt (ra_authorizationEpoch (ar_vote a))));
        ("scopeVersion", JNum (NInt (ra_scopeVersion (ar_vote a))));
        ("decidedAt", JStr (ra_decidedAt (ar_vote a)))].

(** The approvals of a revision, by approver. *)
Definition exception_approval_digest (s : Store) (r : ExceptionRow) : string :=
  stableDigest (JArr (map approval_value
    (js_filter (fun a => bool_decide (ar_exceptionId a = xr_exceptionId r) && (ar_exceptionRevision a =? xr_revision r))
       (sort_by (fun a b => str_le (ra_checkerSubjectId (ar_vote a)) (ra_checkerSubjectId (ar_vote b)))
          (st_approvals s))))).

(** The fact of an approved revision. *)
Definition exception_fact (s : Store) (policies : list (string * PolicyVersion)) (r : ExceptionRow)
  (channel : ContactChannel) : Cg4ExceptionFacts :=
  let policy := map_get (policy_key (xr_policyId r) (xr_policyVersion r)) policies in
  {| ef_seriesId := xr_exceptionId r; ef_revisionId := xr_id r; ef_revision := xr_revision r;
     ef_workflowState := W_APPROVED; ef_identityId := xr_identityId r; ef_scopeKind := xr_scopeKind r;
     ef_channel := channel; ef_purpose := xr_purpose r; ef_sourceType := xr_sourceType r;
     ef_sourceId := xr_sourceId r; ef_allowedRuleCodes := xr_allowedRuleCodes r;
     ef_policyId := xr_policyId r;
     ef_policyVersionId := match policy with Some p => pr_id p | None => xr_policyId r end;
     ef_policyVersion := xr_policyVersion r; ef_policyContentDigest := xr_policyContentDigest r;
     ef_currentPolicyContentDigest := pr_contentDigest <$> policy;
     ef_policyAllowedRuleCodes := loaded_rule_codes ((fun p => dr_content (pr_draft p)) <$> policy);
     ef_registryVersion := xr_registryVersion r; ef_startsAt := xr_startsAt r; ef_expiresAt := xr_expiresAt r;
     ef_tier := xr_tier r; ef_contentDigest := xr_requestHash r; ef_approvalDigest := exception_approval_digest s r |}.

Definition loadCg4ExceptionFacts (s : Store) (ps : PolicyStore) (query : Cg3FactQuery) : list Cg4ExceptionFacts :=
  let revisions := active_revisions s query in
  if bool_decide (length revisions = 0%nat) then []
  else
    let series := set_to_array (map xr_exceptionId revisions) in
    let heads := js_filter (fun h => includes series (fst h) && bool_decide (xh_status (snd h) = W_APPROVED)) (st_heads s) in
    let policies := js_filter (fun p => js_some (fun r => bool_decide (pr_policyId p = xr_policyId r) &&
                       (pr_version p =? xr_policyVersion r)) revisions) (ps_policies ps) in
    let approvedRevisionIds := map (fun h => xh_currentRevisionId (snd h)) heads in
    omap (fun r => exception_fact s (policy_by_key policies) r <$> channel_of (xr_channel r))
      (js_filter (fun r => includes approvedRevisionIds (xr_id r)) revisions).

(** ** [loadCg3Facts] *)

(** [latestByScope]: the first row of each scope, in the query's order. *)
Fixpoint first_of_scope (seen : list (string * PreferenceRow)) (rows : list PreferenceRow) : list (string * PreferenceRow) :=
  match rows with
  | [] => seen
  | r :: rows' => first_of_scope (if map_has (pe_scopeHash r) seen then seen else map_set (pe_scopeHash r) r seen) rows'
  end.

Definition loaded_preferences (rows : list PreferenceRow) (query : Cg3FactQuery) : list Cg3PreferenceCandidate :=
  map pe_candidate
    (js_filter pe_set
       (map_values (first_of_scope []
          (sort_by (fun a b => pc_version (pe_candidate b) <=? pc_version (pe_candidate a))
             (js_filter (fun r => bool_decide (pe_contactId r = fq_contactId query) &&
                                  in_effect (pe_effectiveFrom r) (pe_effectiveTo r) (fq_now query)) rows))))).

(** [specificity] *)
Definition c3_specificity (r : Cg3PolicyRow) : Z :=
  one_if_bound (c3_channel r) + one_if_bound (c3_purpose r) + one_if_bound (c3_contactKind r).

(** [scopeCompatible] *)
Definition scopeCompatible (r : Cg3PolicyRow) (query : Cg3FactQuery) : bool :=
  bound_to (c3_channel r) (Some (fq_channel query)) &&
  bound_to (c3_purpose r) (Some (fq_purpose query)) &&
  bound_to (c3_contactKind r) (fq_contactKind query).

(** The row of the CG3 policy: of the compatible rows of greatest specificity the one published last. *)
Definition resolved_policy_row (rows : list Cg3PolicyRow) (query : Cg3FactQuery) : option Cg3PolicyRow :=
  let policyRows := sort_by (fun a b => c3_version b <=? c3_version a)
    (js_filter (fun r => c3_published r && in_effect (c3_effectiveFrom r) (c3_effectiveTo r) (fq_now query)) rows) in
  let compatible := js_filter (fun r => scopeCompatible r query) policyRows in
  head (sort_by (fun a b => default 0 (c3_publishedAt b) <=? default 0 (c3_publishedAt a))
          (of_max_rank c3_specificity compatible)).

Definition loaded_policy (rows : list Cg3PolicyRow) (holidays : list HolidayRow) (query : Cg3FactQuery)
  : option Cg3PolicyFacts :=
  match resolved_policy_row rows query with
  | None => None
  | Some r =>
      let holidayRows := js_filter (fun h => bool_decide (hr_policyId h = c3_policyId r) &&
                                             (hr_policyVersion h =? c3_version r)) holidays in
      Some {| pf_version := c3_version r; pf_timezoneFallback := c3_timezoneFallback r;
              pf_quietHours := c3_quietHours r; pf_callbackMode := c3_callbackMode r;
              pf_overridableRules := c3_overridableRules r;
              pf_holidays := map (fun h => Holiday (String.substring 0 10 (toISOString (hr_localDate h)))
                                             (hr_effect h) (hr_windows h)) holidayRows |}
  end.

Definition loaded_callback (rows : list CallbackRow) (query : Cg3FactQuery) : option Cg3CallbackFacts :=
  match latest_callback rows (fq_contactId query) (fq_identityId query) (fq_channel query) (fq_purpose query) with
  | Some c =>
      if bool_decide (cq_mutationKind c = CB_REQUEST)
      then Some (CallbackFacts (cq_id c) (cq_identityId c) (cq_channel c) (cq_purpose c)
                   (toISOString (cq_expiresAt c)) (cq_approvedExceptionId c))
      else None
  | None => None
  end.

Definition loadCg3Facts (t : FactTables) (query : Cg3FactQuery) : Cg3Facts :=
  {| fa_aggregateVersion :=
       match map_get (fq_contactId query) (st_contactHeads (ft_exceptions t)) with
       | Some h => ct_aggregateVersion h
       | None => 0
       end;
     fa_preferences := loaded_preferences (ft_preferences t) query;
     fa_policy := loaded_policy (ft_cg3Policies t) (ft_holidays t) query;
     fa_activeCallback := loaded_callback (ft_callbacks t) query;
     fa_activeExceptions := loadCg4ExceptionFacts (ft_exceptions t) (ft_policies t) query |}.
End Loader.

(** ** The exceptions a decision sees *)

Section LoadedExceptions.
Context `{Host}.

(** An approved exception of the query's contact whose window holds the instant, with its head. *)
Definition in_force_at (s : Store) (query : Cg3FactQuery) (r : ExceptionRow) : Prop :=
  (exists h, current s (xr_exceptionId r) h r /\ xh_status h = W_APPROVED) /\
  xr_contactId r = fq_contactId query /\ xr_startsAt r <= fq_now query < xr_expiresAt r.

Lemma active_revisions_In s query r : In r (active_revisions s query) <->
  In r (st_exceptions s) /\ xr_contactId r = fq_contactId query /\ xr_startsAt r <= fq_now query < xr_expiresAt r.
Proof.
  unfold active_revisions. rewrite sort_by_In, filter_In, !andb_true_iff, bool_decide_eq_true, Z.leb_le, Z.ltb_lt.
  tauto.
Qed.

(** The loader gives the evaluator exactly the exceptions in force: the current revisions of the
    approved heads, and nothing of a stale or undecided one. *)
Lemma loaded_exceptions s ps query f : wf s ->
  In f (loadCg4ExceptionFacts s ps query) <->
  exists r channel, in_force_at s query r /\ channel_of (xr_channel r) = Some channel /\
    f = exception_fact s (policy_by_key (js_filter (fun p => js_some (fun r => bool_decide (pr_policyId p = xr_policyId r) &&
          (pr_version p =? xr_policyVersion r)) (active_revisions s query)) (ps_policies ps))) r channel.
Proof.
  intros Hwf. unfold loadCg4ExceptionFacts. case_bool_decide as Hlen.
  { apply length_zero_iff_nil in Hlen. split; [done|]. intros (r & ch & ((h & (_ & Hr & _) & _) & Hc & Hw) & _).
    assert (Hin : In r (active_revisions s query)) by by apply active_revisions_In. by rewrite Hlen in Hin. }
  rewrite <- list_elem_of_In, list_elem_of_omap. setoid_rewrite list_elem_of_In. setoid_rewrite filter_In.
  setoid_rewrite includes_spec. setoid_rewrite active_revisions_In.
  assert (Hheads : forall r, In r (st_exceptions s) -> xr_contactId r = fq_contactId query ->
    xr_startsAt r <= fq_now query < xr_expiresAt r ->
    In (xr_id r) (map (fun h => xh_currentRevisionId (snd h))
      (js_filter (fun h => includes (set_to_array (map xr_exceptionId (active_revisions s query))) (fst h) &&
                           bool_decide (xh_status (snd h) = W_APPROVED)) (st_heads s))) <->
    exists h, current s (xr_exceptionId r) h r /\ xh_status h = W_APPROVED).
  { intros r Hr Hc Hw. rewrite in_map_iff. split.
    - intros ([e h] & Hid & Hin). apply filter_In in Hin as [Hin Ht]. bool_prop. cbn in *.
      apply (map_get_wf _ _ _ (wf_heads _ Hwf)) in Hin. destruct (wf_head _ Hwf e h Hin) as (r' & Hcur & He & _).
      assert (r' = r) as ->.
      { destruct Hcur as (_ & Hr' & Hid'). apply (NoDup_map_inj xr_id (st_exceptions s)); [apply Hwf|done|done|congruence]. }
      rewrite He. eauto.
    - intros (h & (Hget & _ & Hid) & Hst). exists (xr_exceptionId r, h). split; [done|].
      apply filter_In. split; [by apply map_get_In|]. cbn. rewrite bool_decide_eq_true_2 by done. rewrite andb_true_r.
      apply includes_spec, set_to_array_In, in_map, active_revisions_In. done. }
  split.
  - intros (r & ((Hr & Hc & Hw) & Hid) & Hf). apply Hheads in Hid; [|done..].
    destruct (channel_of (xr_channel r)) as [ch|] eqn:Ech; [|done]. injection Hf as <-. exists r, ch.
    split; [by split|done].
  - intros (r & ch & (Hh & Hc & Hw) & Hch & ->). exists r. pose proof Hh as (h & (_ & Hr & _) & _).
    split; [split; [done|]|by rewrite Hch]. by apply Hheads.
Qed.
End LoadedExceptions.
