(* ===== verification/ReservationRuntime.v ===== *)
(** * ReservationRuntime: delivering on a reservation

    [ReservationRuntime] of [apps/contact-governance/src/reservation-runtime.ts] and
    [AttemptTouchRepository] of [attempt-touch-repository.ts] over the tables they write: a delivery
    claims a reservation under a lease, crosses the submission barrier, and is confirmed, released or
    settled with an outcome, which is recorded as an attempt and perhaps a touch. Each operation is one
    transaction under its advisory locks, so it is one step. *)
From stdpp Require Import base tactics list strings.
From Stdlib Require Import ZArith Lia Ascii.
From S2P Require Import Prelude JsMap Text JsDate JsValue Contracts ScopeKey Persistence.

Open Scope string_scope.
Open Scope Z_scope.
Open Scope list_scope.

(** ** Outcomes and errors *)

(** [NormalizedDeliveryOutcome] without [UNKNOWN_RECONCILING]: what a fact can record. *)
Inductive TerminalDeliveryOutcome := PROVIDER_REJECTED | PROVIDER_ACCEPTED | DELIVERED | DELIVERY_FAILED.
#[export] Instance TerminalDeliveryOutcome_eq_dec : EqDecision TerminalDeliveryOutcome.
Proof. solve_decision. Defined.

Inductive NormalizedDeliveryOutcome := UNKNOWN_RECONCILING | Terminal (o : TerminalDeliveryOutcome).
#[export] Instance NormalizedDeliveryOutcome_eq_dec : EqDecision NormalizedDeliveryOutcome.
Proof. solve_decision. Defined.

Definition delivery_outcome_text (o : NormalizedDeliveryOutcome) : string :=
  match o with
  | UNKNOWN_RECONCILING => "UNKNOWN_RECONCILING"
  | Terminal PROVIDER_REJECTED => "PROVIDER_REJECTED"
  | Terminal PROVIDER_ACCEPTED => "PROVIDER_ACCEPTED"
  | Terminal DELIVERED => "DELIVERED"
  | Terminal DELIVERY_FAILED => "DELIVERY_FAILED"
  end.

Inductive DeliveryRejectionScope := RECIPIENT | OPERATIONAL.
#[export] Instance DeliveryRejectionScope_eq_dec : EqDecision DeliveryRejectionScope.
Proof. solve_decision. Defined.

Inductive TouchEvidenceKind := USER_QUOTED_RESPONSE | SIGNED_POSTBACK.
#[export] Instance TouchEvidenceKind_eq_dec : EqDecision TouchEvidenceKind.
Proof. solve_decision. Defined.

Inductive ReservationBindingErrorCode :=
  | RESERVATION_NOT_FOUND | RESERVATION_NOT_RESERVED | RESERVATION_EXPIRED | RESERVATION_BINDING_CONFLICT
  | INVALID_RESERVATION_TRANSITION | INVALID_RESERVATION_LEASE | STALE_RESERVATION_LEASE
  | DELIVERY_RECONCILIATION_REQUIRED | RESERVATION_IDEMPOTENCY_CONFLICT | RESERVATION_VERSION_STALE.
#[export] Instance ReservationBindingErrorCode_eq_dec : EqDecision ReservationBindingErrorCode.
Proof. solve_decision. Defined.

Inductive CorrelatedTouchErrorCode :=
  | ATTEMPT_NOT_FOUND | ATTEMPT_NOT_ACCEPTED | TOUCH_BINDING_CONFLICT | TOUCH_EVIDENCE_CONFLICT
  | TOUCH_EVIDENCE_KIND_UNSUPPORTED.
#[export] Instance CorrelatedTouchErrorCode_eq_dec : EqDecision CorrelatedTouchErrorCode.
Proof. solve_decision. Defined.

(** [DeliverySettlementPolicyDecision] *)
Record SettlementPolicyDecision := SettlementDecision {
  sp_countsAsAttempt : bool;
  sp_countsAsSuccessfulTouch : bool;
  sp_refundOnFailure : bool;
}.
#[export] Instance SettlementPolicyDecision_eq_dec : EqDecision SettlementPolicyDecision.
Proof. solve_decision. Defined.

(** What the operations throw; the last two are the database's refusals. *)
Inductive RuntimeError :=
  | ReservationBindingError (code : ReservationBindingErrorCode)
  | RuntimeTypeError (field : string)
  | RuntimeRangeError
  | SettlementPolicyViolationError (outcome : TerminalDeliveryOutcome) (decision : SettlementPolicyDecision)
  | FactReservationNotFound (reservationId : string)
  | CorrelatedTouchError (code : CorrelatedTouchErrorCode)
  | FactUniqueViolation
  | FactGuardViolation.
#[export] Instance RuntimeError_eq_dec : EqDecision RuntimeError.
Proof. solve_decision. Defined.

Abbreviation runtime := (result RuntimeError).

(** [fail] under a condition. *)
Definition fail_if (cond : bool) (code : ReservationBindingErrorCode) : runtime unit :=
  throw_if cond (ReservationBindingError code).

(** ** Rows *)

Inductive SettlementStatus := T_UNCLAIMED | T_CLAIMED | T_UNKNOWN_RECONCILING | T_ACCEPTED | T_SETTLED.
#[export] Instance SettlementStatus_eq_dec : EqDecision SettlementStatus.
Proof. solve_decision. Defined.

(** The columns of [cg_reservations] the decision wrote. *)
Record Booking := Booking_ {
  bk_id : string;
  bk_contactId : string;
  bk_identityId : option string;
  bk_channel : ContactChannel;
  bk_purpose : string;
  bk_source : string;
  bk_sourceId : string;
  bk_teamId : option string;
  bk_actionKey : string;
  bk_inputHash : string;
  bk_expiresAt : Z;
  bk_authorizationAggregateVersion : option Z;
  bk_authorizationPolicyVersion : option Z;
  bk_authorizationContactKind : option string;
  bk_authorizationContextVersion : Z;
  bk_authorizationDecisionId : option string;
}.

(** Those of the delivery that claimed it and its lease. *)
Record LeaseColumns := Lease {
  ls_deliveryId : option string;
  ls_senderIdentityId : option string;
  ls_version : option Z;
  ls_expiresAt : option Z;
}.

(** The submission barrier. *)
Record SubmissionColumns := Submission {
  sb_providerRequestKey : option string;
  sb_startedAt : option Z;
}.

(** What became of it. *)
Record OutcomeColumns := Outcome_ {
  oc_state : ReservationState;
  oc_confirmedAt : option Z;
  oc_releasedAt : option Z;
  oc_refundedAt : option Z;
  oc_status : option SettlementStatus;
  oc_terminalOutcome : option TerminalDeliveryOutcome;
  oc_terminalOutcomeRef : option string;
  oc_settledAt : option Z;
}.

Record ReservationRow := ReservationRow_ {
  rv_booking : Booking;
  rv_lease : LeaseColumns;
  rv_submission : SubmissionColumns;
  rv_outcome : OutcomeColumns;
}.

Definition rv_id (r : ReservationRow) := bk_id (rv_booking r).
Definition rv_contactId (r : ReservationRow) := bk_contactId (rv_booking r).
Definition rv_identityId (r : ReservationRow) := bk_identityId (rv_booking r).
Definition rv_channel (r : ReservationRow) := bk_channel (rv_booking r).
Definition rv_purpose (r : ReservationRow) := bk_purpose (rv_booking r).
Definition rv_source (r : ReservationRow) := bk_source (rv_booking r).
Definition rv_actionKey (r : ReservationRow) := bk_actionKey (rv_booking r).
Definition rv_expiresAt (r : ReservationRow) := bk_expiresAt (rv_booking r).
Definition rv_authorizationDecisionId (r : ReservationRow) := bk_authorizationDecisionId (rv_booking r).
Definition rv_state (r : ReservationRow) := oc_state (rv_outcome r).
Definition rv_deliveryId (r : ReservationRow) := ls_deliveryId (rv_lease r).
Definition rv_leaseVersion (r : ReservationRow) := ls_version (rv_lease r).
Definition rv_leaseExpiresAt (r : ReservationRow) := ls_expiresAt (rv_lease r).
Definition rv_providerRequestKey (r : ReservationRow) := sb_providerRequestKey (rv_submission r).
Definition rv_submissionStartedAt (r : ReservationRow) := sb_startedAt (rv_submission r).
Definition rv_settlementStatus (r : ReservationRow) := oc_status (rv_outcome r).
Definition rv_terminalOutcome (r : ReservationRow) := oc_terminalOutcome (rv_outcome r).

(** A row of [cg_attempts]; with the columns below, of [cg_touches]. *)
Record FactRow := FactRow_ {
  fc_id : string;
  fc_reservationId : string;
  fc_deliveryId : string;
  fc_outcomeRef : string;
  fc_contactId : string;
  fc_identityId : option string;
  fc_channel : ContactChannel;
  fc_purpose : string;
  fc_source : string;
  fc_outcome : TerminalDeliveryOutcome;
  fc_occurredAt : Z;
  fc_correlationId : string;
  fc_causationId : option string;
}.

(** The kind and the reference of the evidence stand together or not at all
    ([cg_touches_response_evidence_check]). *)
Record TouchRow := TouchRow_ {
  tc_fact : FactRow;
  tc_attemptId : string;
  tc_evidence : option (TouchEvidenceKind * string);
}.

Inductive ReservationOperation := OP_CLAIM | OP_RENEW | OP_BEGIN_SUBMISSION | OP_CONFIRM | OP_RELEASE | OP_SETTLE.
#[export] Instance ReservationOperation_eq_dec : EqDecision ReservationOperation.
Proof. solve_decision. Defined.

(** [ReservationSettlementView] *)
Record SettlementView := SettlementView_ {
  sw_reservationId : string;
  sw_actionKey : string;
  sw_deliveryId : option string;
  sw_state : ReservationState;
  sw_status : SettlementStatus;
  sw_leaseVersion : option Z;
  sw_leaseExpiresAt : option string;
}.

(** A row of [cg_reservation_command_receipts]. *)
Record CommandReceipt := CommandReceipt_ {
  cr_operation : ReservationOperation;
  cr_idempotencyKey : string;
  cr_reservationId : string;
  cr_inputHash : string;
  cr_response : SettlementView;
}.

(** Attempts, touches and receipts; identifiers are drawn from [df_nextId] on. *)
Record DeliveryFacts := DeliveryFacts_ {
  df_attempts : list FactRow;
  df_touches : list TouchRow;
  df_receipts : list CommandReceipt;
  df_nextId : nat;
}.
Definition no_facts : DeliveryFacts := DeliveryFacts_ [] [] [] 0.

Record RuntimeTables := RuntimeTables_ {
  rt_reservations : list ReservationRow;
  rt_facts : DeliveryFacts;
}.

(** [status]: a row from before the runtime counts as unclaimed. *)
Definition status (r : ReservationRow) : SettlementStatus := default T_UNCLAIMED (rv_settlementStatus r).

Definition reservation_by (id : string) (r : ReservationRow) : bool := bool_decide (rv_id r = id).

(** [identifier] of the contract: a branded identifier is not blank. *)
Definition identifier (value kind : string) : runtime string :=
  throw_if (bool_decide (trim value = "")) (RuntimeTypeError kind) ;; Ok value.

Definition optional_identifier (value : option string) (kind : string) : runtime (option string) :=
  match truthy value with None => Ok None | Some v => v' ← identifier v kind; Ok (Some v') end.

Definition settlement_view (r : ReservationRow) : runtime SettlementView :=
  id ← identifier (rv_id r) "ReservationId";
  key ← identifier (rv_actionKey r) "ActionKey";
  delivery ← optional_identifier (rv_deliveryId r) "DeliveryId";
  Ok {| sw_reservationId := id; sw_actionKey := key; sw_deliveryId := delivery; sw_state := rv_state r;
        sw_status := status r;
        sw_leaseVersion := match rv_leaseVersion r with Some 0 => None | v => v end;
        sw_leaseExpiresAt := toISOString <$> rv_leaseExpiresAt r |}.

(** ** Attempts and touches *)

Record RecordAttemptTouchInput := AttemptTouchInput {
  at_reservationId : string;
  at_deliveryId : string;
  at_outcomeRef : string;
  at_contactId : string;
  at_identityId : option string;
  at_channel : ContactChannel;
  at_purpose : string;
  at_source : string;
  at_outcome : TerminalDeliveryOutcome;
  at_occurredAt : string;
  at_correlationId : string;
  at_causationId : option string;
  at_countsAsSuccessfulTouch : bool;
}.

Section Facts.
Context `{Runtime, Host}.

Definition fact_nonEmpty (value field : string) : runtime unit :=
  throw_if (bool_decide (trim value = "")) (RuntimeTypeError field).

(** [timestamp] and [parseTimestamp] *)
Definition fact_timestamp (value field : string) : runtime Z :=
  from_option (date_parse value) (RuntimeTypeError field).

Definition matchesCanonicalInput (attempt : FactRow) (hasTouch : bool) (i : RecordAttemptTouchInput) (occurredAt : Z) : bool :=
  bool_decide (fc_reservationId attempt = at_reservationId i) && bool_decide (fc_deliveryId attempt = at_deliveryId i) &&
  bool_decide (fc_contactId attempt = at_contactId i) && bool_decide (fc_identityId attempt = at_identityId i) &&
  bool_decide (fc_channel attempt = at_channel i) && bool_decide (fc_purpose attempt = at_purpose i) &&
  bool_decide (fc_source attempt = at_source i) && bool_decide (fc_outcome attempt = at_outcome i) &&
  (fc_occurredAt attempt =? occurredAt) && Bool.eqb hasTouch (at_countsAsSuccessfulTouch i).

Definition factData (i : RecordAttemptTouchInput) (occurredAt : Z) (id : string) : FactRow :=
  FactRow_ id (at_reservationId i) (at_deliveryId i) (at_outcomeRef i) (at_contactId i) (at_identityId i) (at_channel i)
    (at_purpose i) (at_source i) (at_outcome i) occurredAt (at_correlationId i) (at_causationId i).

Definition find_attempt (f : DeliveryFacts) (outcomeRef : string) : option FactRow :=
  js_find (fun a => bool_decide (fc_outcomeRef a = outcomeRef)) (df_attempts f).

(** The touch of an attempt. *)
Definition touch_of (f : DeliveryFacts) (attemptId : string) : option TouchRow :=
  js_find (fun t => bool_decide (tc_attemptId t = attemptId)) (df_touches f).

(** The insert into [cg_attempts], with the key and the outcome reference of the table. *)
Definition insert_attempt (f : DeliveryFacts) (a : FactRow) : runtime DeliveryFacts :=
  throw_if (js_some (fun b => bool_decide (fc_id b = fc_id a) || bool_decide (fc_outcomeRef b = fc_outcomeRef a))
              (df_attempts f)) FactUniqueViolation ;;
  Ok (DeliveryFacts_ (df_attempts f ++ [a]) (df_touches f) (df_receipts f) (df_nextId f)).

Definition same_evidence (a b : TouchRow) : bool :=
  match tc_evidence a, tc_evidence b with
  | Some (_, x), Some (_, y) => bool_decide (x = y)
  | _, _ => false
  end.

(** [cg_guard_touch_evidence] and [cg_touches_provider_accepted_evidence_check] *)
Definition cg_guard_touch_evidence (f : DeliveryFacts) (t : TouchRow) : bool :=
  match js_find (fun a => bool_decide (fc_id a = tc_attemptId t)) (df_attempts f) with
  | None => false
  | Some a =>
      bool_decide (fc_outcome (tc_fact t) = fc_outcome a) &&
      (bool_decide (tc_evidence t = None) || bool_decide (fc_outcome a = PROVIDER_ACCEPTED)) &&
      (bool_decide (fc_outcome (tc_fact t) <> PROVIDER_ACCEPTED) || bool_decide (is_Some (tc_evidence t)))
  end.

(** The insert into [cg_touches]: its trigger and its unique indexes. *)
Definition insert_touch (f : DeliveryFacts) (t : TouchRow) : runtime DeliveryFacts :=
  throw_if (negb (cg_guard_touch_evidence f t)) FactGuardViolation ;;
  throw_if (js_some (fun u => bool_decide (fc_id (tc_fact u) = fc_id (tc_fact t)) ||
                              bool_decide (tc_attemptId u = tc_attemptId t) ||
                              bool_decide (fc_outcomeRef (tc_fact u) = fc_outcomeRef (tc_fact t)) ||
                              same_evidence u t) (df_touches f)) FactUniqueViolation ;;
  Ok (DeliveryFacts_ (df_attempts f) (df_touches f ++ [t]) (df_receipts f) (df_nextId f)).

Definition draw_facts (n : nat) (f : DeliveryFacts) : DeliveryFacts :=
  DeliveryFacts_ (df_attempts f) (df_touches f) (df_receipts f) (n + df_nextId f).

(** The reservation a fact is about. *)
Definition fact_reservation (i : RecordAttemptTouchInput) (r : ReservationRow) : bool :=
  reservation_by (at_reservationId i) r && bool_decide (rv_contactId r = at_contactId i) &&
  bool_decide (rv_channel r = at_channel i) && bool_decide (rv_purpose r = at_purpose i) &&
  bool_decide (rv_source r = at_source i).

(** [AttemptTouchRepository.record] *)
Definition record_attempt (rows : list ReservationRow) (f : DeliveryFacts) (i : RecordAttemptTouchInput)
  : runtime ((FactRow * option TouchRow) * DeliveryFacts) :=
  fact_nonEmpty (at_purpose i) "purpose" ;;
  fact_nonEmpty (at_source i) "source" ;;
  fact_nonEmpty (at_correlationId i) "correlationId" ;;
  occurredAt ← fact_timestamp (at_occurredAt i) "occurredAt";
  match find_attempt f (at_outcomeRef i) with
  | Some existing =>
      let touch := touch_of f (fc_id existing) in
      let settlementTouch := match touch with Some t => bool_decide (tc_evidence t = None) | None => false end in
      fail_if (negb (matchesCanonicalInput existing settlementTouch i occurredAt)) RESERVATION_IDEMPOTENCY_CONFLICT ;;
      Ok ((existing, touch), f)
  | None =>
      reservation ← from_option (js_find (fact_reservation i) rows) (FactReservationNotFound (at_reservationId i));
      fail_if (negb (bool_decide (rv_identityId reservation = at_identityId i))) RESERVATION_BINDING_CONFLICT ;;
      let attempt := factData i occurredAt (fresh (df_nextId f)) in
      f1 ← insert_attempt (draw_facts 1 f) attempt;
      if at_countsAsSuccessfulTouch i then
        let touch := TouchRow_ (factData i occurredAt (fresh (df_nextId f1))) (fc_id attempt) None in
        f2 ← insert_touch (draw_facts 1 f1) touch;
        Ok ((attempt, Some touch), f2)
      else Ok ((attempt, None), f1)
  end.

(** [findAcceptedAttempt] *)
Definition findAcceptedAttempt (f : DeliveryFacts) (deliveryId : string) : option FactRow :=
  head (sort_by (fun a b => fc_occurredAt a <=? fc_occurredAt b)
          (js_filter (fun a => bool_decide (fc_deliveryId a = deliveryId) && bool_decide (fc_outcome a = PROVIDER_ACCEPTED))
             (df_attempts f))).

Definition is_hex_digit (c : ascii) : bool :=
  let n := Z.of_nat (nat_of_ascii c) in
  ((48 <=? n) && (n <=? 57)) || ((97 <=? n) && (n <=? 102)) || ((65 <=? n) && (n <=? 70)).

(** [UUID_PATTERN] *)
Definition UUID_PATTERN (s : string) : bool :=
  match split_char "-"%char s with
  | [a; b; c; d; e] =>
      forallb (fun p => Nat.eqb (String.length (fst p)) (snd p) && string_forall is_hex_digit (fst p))
        [(a, 8%nat); (b, 4%nat); (c, 4%nat); (d, 4%nat); (e, 12%nat)]
  | _ => false
  end.

(** [RecordCorrelatedTouchInput]; [None] is an evidence kind outside the two supported ones. *)
Record RecordCorrelatedTouchInput := CorrelatedTouchInput {
  ct_correlationId : string;
  ct_reservationId : string;
  ct_actionKey : string;
  ct_deliveryId : string;
  ct_attemptId : string;
  ct_responseEvidenceRef : string;
  ct_evidenceKind : option TouchEvidenceKind;
  ct_occurredAt : string;
}.

(** The row a response appends. *)
Definition correlated_touch (a : FactRow) (i : RecordCorrelatedTouchInput) (kind : TouchEvidenceKind) (occurredAt : Z)
  (id : string) : TouchRow :=
  TouchRow_
    (FactRow_ id (fc_reservationId a) (fc_deliveryId a) (fc_outcomeRef a) (fc_contactId a) (fc_identityId a)
       (fc_channel a) (fc_purpose a) (fc_source a) (fc_outcome a) occurredAt (ct_correlationId i) (Some (fc_outcomeRef a)))
    (fc_id a) (Some (kind, ct_responseEvidenceRef i)).

(** [recordCorrelatedTouch]: the touch, new or of the same response. *)
Definition recordCorrelatedTouch (t : RuntimeTables) (i : RecordCorrelatedTouchInput) : runtime (TouchRow * RuntimeTables) :=
  let f := rt_facts t in
  fact_nonEmpty (ct_correlationId i) "correlationId" ;;
  fact_nonEmpty (ct_responseEvidenceRef i) "responseEvidenceRef" ;;
  kind ← from_option (ct_evidenceKind i) (CorrelatedTouchError TOUCH_EVIDENCE_KIND_UNSUPPORTED);
  occurredAt ← fact_timestamp (ct_occurredAt i) "occurredAt";
  throw_if (negb (UUID_PATTERN (ct_attemptId i))) (CorrelatedTouchError ATTEMPT_NOT_FOUND) ;;
  attempt ← from_option (js_find (fun a => bool_decide (fc_id a = ct_attemptId i)) (df_attempts f))
              (CorrelatedTouchError ATTEMPT_NOT_FOUND);
  let actionKey := rv_actionKey <$> js_find (reservation_by (fc_reservationId attempt)) (rt_reservations t) in
  throw_if (negb (bool_decide (fc_reservationId attempt = ct_reservationId i)) ||
            negb (bool_decide (fc_deliveryId attempt = ct_deliveryId i)) ||
            negb (bool_decide (actionKey = Some (ct_actionKey i)))) (CorrelatedTouchError TOUCH_BINDING_CONFLICT) ;;
  throw_if (negb (bool_decide (fc_outcome attempt = PROVIDER_ACCEPTED))) (CorrelatedTouchError ATTEMPT_NOT_ACCEPTED) ;;
  match touch_of f (fc_id attempt) with
  | Some touch =>
      throw_if (negb (bool_decide (tc_evidence touch = Some (kind, ct_responseEvidenceRef i)) &&
                      (fc_occurredAt (tc_fact touch) =? occurredAt))) (CorrelatedTouchError TOUCH_EVIDENCE_CONFLICT) ;;
      Ok (touch, t)
  | None =>
      let touch := correlated_touch attempt i kind occurredAt (fresh (df_nextId f)) in
      match insert_touch (draw_facts 1 f) touch with
      | Ok f' => Ok (touch, RuntimeTables_ (rt_reservations t) f')
      | Err FactUniqueViolation => Err (CorrelatedTouchError TOUCH_EVIDENCE_CONFLICT)
      | Err e => Err e
      end
  end.
End Facts.

(** ** Commands *)

(** [ReservationDeliveryCommand] *)
Record DeliveryCommand := DeliveryCommand_ {
  dm_tenantId : string;
  dm_correlationId : string;
  dm_reservationId : string;
  dm_actionKey : string;
}.

Record ClaimReservationForDeliveryInput := ClaimInput {
  cl_command : DeliveryCommand;
  cl_deliveryId : string;
  cl_contactId : string;
  cl_identityId : option string;
  cl_channel : ContactChannel;
  cl_purpose : string;
  cl_senderIdentityId : string;
  cl_leaseExpiresAt : string;
}.

Record RenewReservationLeaseInput := RenewInput {
  rn_command : DeliveryCommand;
  rn_deliveryId : string;
  rn_expectedLeaseVersion : Z;
  rn_leaseExpiresAt : string;
}.

Record BeginProviderSubmissionInput := BeginInput {
  bg_command : DeliveryCommand;
  bg_deliveryId : string;
  bg_expectedLeaseVersion : Z;
  bg_providerRequestKey : string;
}.

Record ConfirmProviderAcceptanceInput := ConfirmInput {
  cf_command : DeliveryCommand;
  cf_deliveryId : string;
  cf_providerRequestKey : string;
}.

Inductive ReleaseReason := CANCELLED_BEFORE_SUBMIT | LEASE_EXPIRED.
#[export] Instance ReleaseReason_eq_dec : EqDecision ReleaseReason.
Proof. solve_decision. Defined.

Record ReleaseBeforeSubmitInput := ReleaseInput {
  rl_command : DeliveryCommand;
  rl_deliveryId : option string;
  rl_reason : ReleaseReason;
}.

Record SettleDeliveryInput := SettleInput {
  se_command : DeliveryCommand;
  se_deliveryId : string;
  se_providerRequestKey : string;
  se_outcomeRef : string;
  se_outcome : NormalizedDeliveryOutcome;
  se_rejectionScope : option DeliveryRejectionScope;
  se_occurredAt : string;
}.

(** [SettlementPolicy]: what the deployment injects, under the guard below. *)
Definition SettlementPolicy : Type :=
  SettleDeliveryInput -> TerminalDeliveryOutcome -> ReservationRow -> SettlementPolicyDecision.

Definition defaultSettlementPolicy : SettlementPolicy := fun i outcome _ =>
  match outcome with
  | PROVIDER_ACCEPTED => SettlementDecision true false false
  | PROVIDER_REJECTED => SettlementDecision (negb (bool_decide (se_rejectionScope i = Some OPERATIONAL))) false false
  | DELIVERED => SettlementDecision true true false
  | DELIVERY_FAILED => SettlementDecision true false true
  end.

Definition assertSettlementDecision (outcome : TerminalDeliveryOutcome) (d : SettlementPolicyDecision) : runtime unit :=
  let legal :=
    (bool_decide (outcome = DELIVERED) || negb (sp_countsAsSuccessfulTouch d)) &&
    (bool_decide (outcome = DELIVERY_FAILED) || negb (sp_refundOnFailure d)) &&
    (negb (bool_decide (outcome = PROVIDER_ACCEPTED)) || sp_countsAsAttempt d) &&
    (sp_countsAsAttempt d || negb (sp_countsAsSuccessfulTouch d)) in
  throw_if (negb legal) (SettlementPolicyViolationError outcome d).

Section Commands.
Context `{Runtime, Host}.

(** ** The input of a command, as the object its hash is taken of *)

Definition optional_text (name : string) (value : option string) : list (string * jsval) :=
  match value with Some v => [(name, JStr v)] | None => [] end.

Definition command_fields (c : DeliveryCommand) : list (string * jsval) :=
  [("tenantId", JStr (dm_tenantId c)); ("reservationId", JStr (dm_reservationId c)); ("actionKey", JStr (dm_actionKey c))].

(** [canonicalHash]: the fields that are given, but for [correlationId], in the order of [localeCompare]. *)
Definition canonicalHash (fields : list (string * jsval)) : string :=
  sha256_hex (json_print (JObj (sort_by (fun a b => locale_le (fst a) (fst b)) fields))).

Definition claim_hash (i : ClaimReservationForDeliveryInput) : string :=
  canonicalHash (command_fields (cl_command i) ++ optional_text "identityId" (cl_identityId i) ++
    [("deliveryId", JStr (cl_deliveryId i)); ("contactId", JStr (cl_contactId i));
     ("channel", JStr (channel_name (cl_channel i))); ("purpose", JStr (cl_purpose i));
     ("senderIdentityId", JStr (cl_senderIdentityId i)); ("leaseExpiresAt", JStr (cl_leaseExpiresAt i))]).

Definition renew_hash (i : RenewReservationLeaseInput) : string :=
  canonicalHash (command_fields (rn_command i) ++
    [("deliveryId", JStr (rn_deliveryId i)); ("expectedLeaseVersion", JNum (NInt (rn_expectedLeaseVersion i)));
     ("leaseExpiresAt", JStr (rn_leaseExpiresAt i))]).

Definition begin_hash (i : BeginProviderSubmissionInput) : string :=
  canonicalHash (command_fields (bg_command i) ++
    [("deliveryId", JStr (bg_deliveryId i)); ("expectedLeaseVersion", JNum (NInt (bg_expectedLeaseVersion i)));
     ("providerRequestKey", JStr (bg_providerRequestKey i))]).

Definition confirm_hash (i : ConfirmProviderAcceptanceInput) : string :=
  canonicalHash (command_fields (cf_command i) ++
    [("deliveryId", JStr (cf_deliveryId i)); ("providerRequestKey", JStr (cf_providerRequestKey i))]).

Definition release_hash (i : ReleaseBeforeSubmitInput) : string :=
  canonicalHash (command_fields (rl_command i) ++ optional_text "deliveryId" (rl_deliveryId i) ++
    [("reason", JStr (match rl_reason i with
                      | CANCELLED_BEFORE_SUBMIT => "CANCELLED_BEFORE_SUBMIT"
                      | LEASE_EXPIRED => "LEASE_EXPIRED"
                      end))]).

Definition settle_hash (i : SettleDeliveryInput) : string :=
  canonicalHash (command_fields (se_command i) ++
    match se_rejectionScope i with
    | Some RECIPIENT => [("rejectionScope", JStr "RECIPIENT")]
    | Some OPERATIONAL => [("rejectionScope", JStr "OPERATIONAL")]
    | None => []
    end ++
    [("deliveryId", JStr (se_deliveryId i)); ("providerRequestKey", JStr (se_providerRequestKey i));
     ("outcomeRef", JStr (se_outcomeRef i)); ("outcome", JStr (delivery_outcome_text (se_outcome i)));
     ("occurredAt", JStr (se_occurredAt i))]).

(** ** Bindings *)

Definition assertActionBinding (r : ReservationRow) (c : DeliveryCommand) : runtime unit :=
  fail_if (negb (bool_decide (rv_actionKey r = dm_actionKey c))) RESERVATION_BINDING_CONFLICT.

Definition assertDeliveryBinding (r : ReservationRow) (c : DeliveryCommand) (deliveryId : string) : runtime unit :=
  assertActionBinding r c ;;
  fail_if (bool_decide (truthy (rv_deliveryId r) = None) || negb (bool_decide (rv_deliveryId r = Some deliveryId)))
    RESERVATION_BINDING_CONFLICT.

(** The barrier was crossed. *)
Definition submission_begun (r : ReservationRow) : bool :=
  bool_decide (is_Some (rv_submissionStartedAt r)) || bool_decide (is_Some (truthy (rv_providerRequestKey r))).

Definition assertProviderBinding (r : ReservationRow) (c : DeliveryCommand) (deliveryId providerRequestKey : string)
  : runtime unit :=
  assertDeliveryBinding r c deliveryId ;;
  fail_if (bool_decide (rv_submissionStartedAt r = None) || bool_decide (truthy (rv_providerRequestKey r) = None))
    INVALID_RESERVATION_TRANSITION ;;
  fail_if (negb (bool_decide (rv_providerRequestKey r = Some providerRequestKey))) RESERVATION_BINDING_CONFLICT.

(** ** The transaction around a command *)

Definition find_receipt (f : DeliveryFacts) (operation : ReservationOperation) (key : string) : option CommandReceipt :=
  js_find (fun c => bool_decide (cr_operation c = operation) && bool_decide (cr_idempotencyKey c = key)) (df_receipts f).

Definition write_receipt (c : CommandReceipt) (t : RuntimeTables) : RuntimeTables :=
  let f := rt_facts t in
  RuntimeTables_ (rt_reservations t) (DeliveryFacts_ (df_attempts f) (df_touches f) (df_receipts f ++ [c]) (S (df_nextId f))).

(** [command] *)
Definition run_command (t : RuntimeTables) (operation : ReservationOperation) (key : string) (c : DeliveryCommand)
  (inputHash : string) (handler : ReservationRow -> runtime (SettlementView * RuntimeTables))
  : runtime (SettlementView * RuntimeTables) :=
  match find_receipt (rt_facts t) operation key with
  | Some receipt =>
      fail_if (negb (bool_decide (cr_reservationId receipt = dm_reservationId c)) ||
               negb (bool_decide (cr_inputHash receipt = inputHash))) RESERVATION_IDEMPOTENCY_CONFLICT ;;
      Ok (cr_response receipt, t)
  | None =>
      reservation ← from_option (js_find (reservation_by (dm_reservationId c)) (rt_reservations t))
                      (ReservationBindingError RESERVATION_NOT_FOUND);
      assertActionBinding reservation c ;;
      done_ ← handler reservation;
      let '(response, t') := done_ in
      Ok (response, write_receipt (CommandReceipt_ operation key (dm_reservationId c) inputHash response) t')
  end.

(** The update of one reservation, and its view. *)
Definition rewrite_reservation (t : RuntimeTables) (r r' : ReservationRow) : runtime (SettlementView * RuntimeTables) :=
  view ← settlement_view r';
  Ok (view, RuntimeTables_ (update_where (reservation_by (rv_id r)) (fun _ => r') (rt_reservations t)) (rt_facts t)).

(** Another reservation with the same value in a column that holds one. *)
Definition competes {A} `{EqDecision A} (t : RuntimeTables) (column : ReservationRow -> option A) (value : A) (r : ReservationRow)
  : bool :=
  js_some (fun x => bool_decide (column x = Some value) && negb (reservation_by (rv_id r) x)) (rt_reservations t).

(** ** claim *)

Definition claimed (i : ClaimReservationForDeliveryInput) (leaseExpiresAt : Z) (r : ReservationRow) : ReservationRow :=
  let o := rv_outcome r in
  ReservationRow_ (rv_booking r)
    (Lease (Some (cl_deliveryId i)) (Some (cl_senderIdentityId i)) (Some 1) (Some leaseExpiresAt))
    (rv_submission r)
    (Outcome_ (oc_state o) (oc_confirmedAt o) (oc_releasedAt o) (oc_refundedAt o) (Some T_CLAIMED)
       (oc_terminalOutcome o) (oc_terminalOutcomeRef o) (oc_settledAt o)).

Definition claim_handler (t : RuntimeTables) (i : ClaimReservationForDeliveryInput) (leaseExpiresAt now : Z) (r : ReservationRow)
  : runtime (SettlementView * RuntimeTables) :=
  fail_if (negb (bool_decide (rv_state r = RESERVED)) || negb (bool_decide (status r = T_UNCLAIMED)))
    RESERVATION_NOT_RESERVED ;;
  fail_if (rv_expiresAt r <=? now) RESERVATION_EXPIRED ;;
  fail_if (negb (bool_decide (rv_contactId r = cl_contactId i)) || negb (bool_decide (rv_identityId r = cl_identityId i)) ||
           negb (bool_decide (rv_channel r = cl_channel i)) || negb (bool_decide (rv_purpose r = cl_purpose i)) ||
           bool_decide (is_Some (truthy (ls_senderIdentityId (rv_lease r)))) ||
           bool_decide (is_Some (truthy (rv_deliveryId r)))) RESERVATION_BINDING_CONFLICT ;;
  fail_if ((leaseExpiresAt <=? now) || (rv_expiresAt r <? leaseExpiresAt)) INVALID_RESERVATION_LEASE ;;
  fail_if (competes t rv_deliveryId (cl_deliveryId i) r) RESERVATION_BINDING_CONFLICT ;;
  rewrite_reservation t r (claimed i leaseExpiresAt r).

Definition claim (t : RuntimeTables) (i : ClaimReservationForDeliveryInput) (now : Z) : runtime (SettlementView * RuntimeTables) :=
  leaseExpiresAt ← fact_timestamp (cl_leaseExpiresAt i) "leaseExpiresAt";
  run_command t OP_CLAIM (dm_reservationId (cl_command i)) (cl_command i) (claim_hash i)
    (claim_handler t i leaseExpiresAt now).

(** ** renew *)

Definition renewed (i : RenewReservationLeaseInput) (leaseExpiresAt : Z) (r : ReservationRow) : ReservationRow :=
  ReservationRow_ (rv_booking r)
    (Lease (ls_deliveryId (rv_lease r)) (ls_senderIdentityId (rv_lease r)) (Some (rn_expectedLeaseVersion i + 1))
       (Some leaseExpiresAt))
    (rv_submission r) (rv_outcome r).

Definition renew_handler (t : RuntimeTables) (i : RenewReservationLeaseInput) (leaseExpiresAt now : Z) (r : ReservationRow)
  : runtime (SettlementView * RuntimeTables) :=
  assertDeliveryBinding r (rn_command i) (rn_deliveryId i) ;;
  fail_if (negb (bool_decide (rv_state r = RESERVED)) || bool_decide (status r = T_SETTLED)) INVALID_RESERVATION_TRANSITION ;;
  fail_if (submission_begun r) DELIVERY_RECONCILIATION_REQUIRED ;;
  fail_if (negb (bool_decide (status r = T_CLAIMED))) INVALID_RESERVATION_TRANSITION ;;
  current ← from_option (if bool_decide (rv_leaseVersion r = Some (rn_expectedLeaseVersion i)) then rv_leaseExpiresAt r else None)
              (ReservationBindingError STALE_RESERVATION_LEASE);
  fail_if ((current <=? now) || (rv_expiresAt r <=? now)) RESERVATION_EXPIRED ;;
  fail_if ((leaseExpiresAt <=? current) || (rv_expiresAt r <? leaseExpiresAt)) INVALID_RESERVATION_LEASE ;;
  rewrite_reservation t r (renewed i leaseExpiresAt r).

Definition renew (t : RuntimeTables) (i : RenewReservationLeaseInput) (now : Z) : runtime (SettlementView * RuntimeTables) :=
  leaseExpiresAt ← fact_timestamp (rn_leaseExpiresAt i) "leaseExpiresAt";
  run_command t OP_RENEW (dm_reservationId (rn_command i) +:+ ":" +:+ show (rn_expectedLeaseVersion i)) (rn_command i)
    (renew_hash i) (renew_handler t i leaseExpiresAt now).

(** ** beginSubmission *)

Definition barred (i : BeginProviderSubmissionInput) (now : Z) (r : ReservationRow) : ReservationRow :=
  let o := rv_outcome r in
  ReservationRow_ (rv_booking r) (rv_lease r) (Submission (Some (bg_providerRequestKey i)) (Some now))
    (Outcome_ (oc_state o) (oc_confirmedAt o) (oc_releasedAt o) (oc_refundedAt o) (Some T_UNKNOWN_RECONCILING)
       (oc_terminalOutcome o) (oc_terminalOutcomeRef o) (oc_settledAt o)).

(** [contactVersion] is the aggregate version of a contact's state head, 0 where there is none. *)
Definition begin_handler (contactVersion : string -> Z) (t : RuntimeTables) (i : BeginProviderSubmissionInput) (now : Z)
  (r : ReservationRow) : runtime (SettlementView * RuntimeTables) :=
  assertDeliveryBinding r (bg_command i) (bg_deliveryId i) ;;
  fail_if (negb (bool_decide (rv_state r = RESERVED)) || negb (bool_decide (status r = T_CLAIMED)))
    INVALID_RESERVATION_TRANSITION ;;
  current ← from_option (if bool_decide (rv_leaseVersion r = Some (bg_expectedLeaseVersion i)) then rv_leaseExpiresAt r else None)
              (ReservationBindingError STALE_RESERVATION_LEASE);
  fail_if ((current <=? now) || (rv_expiresAt r <=? now)) RESERVATION_EXPIRED ;;
  fail_if (submission_begun r) DELIVERY_RECONCILIATION_REQUIRED ;;
  fail_if (match bk_authorizationAggregateVersion (rv_booking r) with
           | Some v => negb (contactVersion (rv_contactId r) =? v)
           | None => false
           end) RESERVATION_VERSION_STALE ;;
  fail_if (competes t rv_providerRequestKey (bg_providerRequestKey i) r) RESERVATION_BINDING_CONFLICT ;;
  rewrite_reservation t r (barred i now r).

Definition beginSubmission (contactVersion : string -> Z) (t : RuntimeTables) (i : BeginProviderSubmissionInput) (now : Z)
  : runtime (SettlementView * RuntimeTables) :=
  run_command t OP_BEGIN_SUBMISSION (dm_reservationId (bg_command i)) (bg_command i) (begin_hash i)
    (begin_handler contactVersion t i now).

(** ** confirm *)

Definition accepted (now : Z) (r : ReservationRow) : ReservationRow :=
  let o := rv_outcome r in
  ReservationRow_ (rv_booking r) (rv_lease r) (rv_submission r)
    (Outcome_ CONFIRMED (Some now) (oc_releasedAt o) (oc_refundedAt o) (Some T_ACCEPTED)
       (oc_terminalOutcome o) (oc_terminalOutcomeRef o) (oc_settledAt o)).

Definition closed (r : ReservationRow) : bool :=
  bool_decide (is_Some (rv_terminalOutcome r)) || bool_decide (status r = T_SETTLED).

Definition confirm_handler (t : RuntimeTables) (i : ConfirmProviderAcceptanceInput) (now : Z) (r : ReservationRow)
  : runtime (SettlementView * RuntimeTables) :=
  assertProviderBinding r (cf_command i) (cf_deliveryId i) (cf_providerRequestKey i) ;;
  fail_if (closed r) INVALID_RESERVATION_TRANSITION ;;
  fail_if (negb (bool_decide (rv_state r = RESERVED))) INVALID_RESERVATION_TRANSITION ;;
  rewrite_reservation t r (accepted now r).

Definition confirm (t : RuntimeTables) (i : ConfirmProviderAcceptanceInput) (now : Z) : runtime (SettlementView * RuntimeTables) :=
  run_command t OP_CONFIRM (dm_reservationId (cf_command i)) (cf_command i) (confirm_hash i) (confirm_handler t i now).

(** ** release *)

Definition released (now : Z) (r : ReservationRow) : ReservationRow :=
  let o := rv_outcome r in
  ReservationRow_ (rv_booking r) (rv_lease r) (rv_submission r)
    (Outcome_ RELEASED (oc_confirmedAt o) (Some now) (oc_refundedAt o) (Some T_SETTLED)
       (oc_terminalOutcome o) (oc_terminalOutcomeRef o) (Some now)).

(** [COALESCE(lease_expires_at, expires_at)] *)
Definition lapses_at (r : ReservationRow) : Z := default (rv_expiresAt r) (rv_leaseExpiresAt r).

Definition release_handler (t : RuntimeTables) (i : ReleaseBeforeSubmitInput) (now : Z) (r : ReservationRow)
  : runtime (SettlementView * RuntimeTables) :=
  fail_if (if bool_decide (is_Some (truthy (rv_deliveryId r)))
           then bool_decide (truthy (rl_deliveryId i) = None) || negb (bool_decide (rv_deliveryId r = rl_deliveryId i))
           else bool_decide (is_Some (truthy (rl_deliveryId i)))) RESERVATION_BINDING_CONFLICT ;;
  fail_if (negb (bool_decide (rv_state r = RESERVED)) || bool_decide (status r = T_SETTLED)) INVALID_RESERVATION_TRANSITION ;;
  fail_if (submission_begun r) DELIVERY_RECONCILIATION_REQUIRED ;;
  fail_if (bool_decide (rl_reason i = LEASE_EXPIRED) && (now <? lapses_at r)) INVALID_RESERVATION_LEASE ;;
  rewrite_reservation t r (released now r).

Definition release (t : RuntimeTables) (i : ReleaseBeforeSubmitInput) (now : Z) : runtime (SettlementView * RuntimeTables) :=
  run_command t OP_RELEASE (dm_reservationId (rl_command i)) (rl_command i) (release_hash i) (release_handler t i now).

(** ** settle *)

Definition reconciling (r : ReservationRow) : ReservationRow :=
  let o := rv_outcome r in
  ReservationRow_ (rv_booking r) (rv_lease r) (rv_submission r)
    (Outcome_ (oc_state o) (oc_confirmedAt o) (oc_releasedAt o) (oc_refundedAt o) (Some T_UNKNOWN_RECONCILING)
       (oc_terminalOutcome o) (oc_terminalOutcomeRef o) (oc_settledAt o)).

Definition settled_row (outcome : TerminalDeliveryOutcome) (outcomeRef : string) (nextState : ReservationState) (now : Z)
  (r : ReservationRow) : ReservationRow :=
  let o := rv_outcome r in
  ReservationRow_ (rv_booking r) (rv_lease r) (rv_submission r)
    (Outcome_ nextState
       (if bool_decide (nextState = CONFIRMED) && bool_decide (oc_confirmedAt o = None) then Some now else oc_confirmedAt o)
       (if bool_decide (nextState = RELEASED) then Some now else oc_releasedAt o)
       (if bool_decide (nextState = REFUNDED) then Some now else oc_refundedAt o)
       (Some T_SETTLED) (Some outcome) (Some outcomeRef) (Some now)).

Definition settled_state (outcome : TerminalDeliveryOutcome) (policy : SettlementPolicyDecision) (r : ReservationRow)
  : runtime ReservationState :=
  match outcome with
  | PROVIDER_REJECTED =>
      fail_if (bool_decide (rv_state r = CONFIRMED)) INVALID_RESERVATION_TRANSITION ;; Ok RELEASED
  | DELIVERY_FAILED =>
      fail_if (negb (bool_decide (rv_state r = CONFIRMED))) DELIVERY_RECONCILIATION_REQUIRED ;;
      Ok (if sp_refundOnFailure policy then REFUNDED else CONFIRMED)
  | PROVIDER_ACCEPTED | DELIVERED => Ok CONFIRMED
  end.

(** The fact a settlement records. *)
Definition settled_fact (i : SettleDeliveryInput) (r : ReservationRow) (outcome : TerminalDeliveryOutcome)
  (countsAsSuccessfulTouch : bool) : RecordAttemptTouchInput :=
  {| at_reservationId := dm_reservationId (se_command i); at_deliveryId := se_deliveryId i;
     at_outcomeRef := se_outcomeRef i; at_contactId := rv_contactId r; at_identityId := truthy (rv_identityId r);
     at_channel := rv_channel r; at_purpose := rv_purpose r; at_source := rv_source r; at_outcome := outcome;
     at_occurredAt := se_occurredAt i; at_correlationId := dm_correlationId (se_command i); at_causationId := None;
     at_countsAsSuccessfulTouch := countsAsSuccessfulTouch |}.

Definition settle_handler (policyOf : SettlementPolicy) (t : RuntimeTables) (i : SettleDeliveryInput) (now : Z) (r : ReservationRow)
  : runtime (SettlementView * RuntimeTables) :=
  assertProviderBinding r (se_command i) (se_deliveryId i) (se_providerRequestKey i) ;;
  if closed r then view ← settlement_view r; Ok (view, t)
  else
    match se_outcome i with
    | UNKNOWN_RECONCILING =>
        if bool_decide (status r = T_ACCEPTED) then view ← settlement_view r; Ok (view, t)
        else rewrite_reservation t r (reconciling r)
    | Terminal outcome =>
        let policy := policyOf i outcome r in
        assertSettlementDecision outcome policy ;;
        nextState ← settled_state outcome policy r;
        updated ← rewrite_reservation t r (settled_row outcome (se_outcomeRef i) nextState now r);
        let '(view, t') := updated in
        if negb (sp_countsAsAttempt policy) then Ok (view, t')
        else
          recorded ← record_attempt (rt_reservations t') (rt_facts t')
                       (settled_fact i r outcome (sp_countsAsSuccessfulTouch policy));
          Ok (view, RuntimeTables_ (rt_reservations t') (snd recorded))
    end.

Definition settle (policyOf : SettlementPolicy) (t : RuntimeTables) (i : SettleDeliveryInput) (now : Z)
  : runtime (SettlementView * RuntimeTables) :=
  fact_timestamp (se_occurredAt i) "occurredAt" ≫= fun _ =>
  run_command t OP_SETTLE (se_outcomeRef i) (se_command i) (settle_hash i) (settle_handler policyOf t i now).
End Commands.
