(* ===== verification/DeliveryCommands.v ===== *)
(** * DeliveryCommands: the delivery contract of a reservation

    The abstract machine [contact-governance.ts] promises for a reservation: unclaimed, claimed under a
    lease, submitted, accepted, and settled or released; and the commands of [ReservationRuntime] as one
    type, with the proof that what they do to a row is a step of that machine. *)
From stdpp Require Import base tactics list strings relations.
From Stdlib Require Import ZArith Lia.
From S2P Require Import Prelude JsMap Text JsDate JsValue Contracts ContactPolicy ScopeKey Persistence ReservationRuntime.

Open Scope string_scope.
Open Scope Z_scope.
Open Scope list_scope.

(** ** The machine *)

(** A delivery's hold on a reservation. *)
Record Hold := Hold_ {
  hd_deliveryId : string;
  hd_sender : string;
  hd_version : Z;
  hd_lease : Z;
}.

Inductive Phase :=
  | Unclaimed
  | Direct (state : ReservationState) (confirmedAt releasedAt refundedAt : option Z)
  | Claimed (h : Hold)
  | Submitted (h : Hold) (key : string) (startedAt : Z)
  | Accepted (h : Hold) (key : string) (startedAt confirmedAt : Z)
  | Released (h : option Hold) (at_ : Z)
  | Settled (h : Hold) (key : string) (startedAt : Z) (confirmedAt : option Z) (outcome : TerminalDeliveryOutcome)
      (ref : string) (state : ReservationState) (at_ : Z).

(** The states an outcome may leave a reservation in, before or after the provider's acceptance. *)
Inductive settles : option Z -> TerminalDeliveryOutcome -> ReservationState -> Prop :=
  | Settles_rejected : settles None PROVIDER_REJECTED RELEASED
  | Settles_accepted c : settles c PROVIDER_ACCEPTED CONFIRMED
  | Settles_delivered c : settles c DELIVERED CONFIRMED
  | Settles_failed c : settles (Some c) DELIVERY_FAILED CONFIRMED
  | Settles_refunded c : settles (Some c) DELIVERY_FAILED REFUNDED.

(** The steps of the contract, for a reservation that expires at [deadline]. The first three are the
    service's own commands on a reservation no delivery has claimed. *)
Inductive phase_step (deadline now : Z) : Phase -> Phase -> Prop :=
  | PS_confirm_direct : phase_step deadline now Unclaimed (Direct CONFIRMED (Some now) None None)
  | PS_release_direct : phase_step deadline now Unclaimed (Direct RELEASED None (Some now) None)
  | PS_refund_direct c : phase_step deadline now (Direct CONFIRMED (Some c) None None) (Direct REFUNDED (Some c) None (Some now))
  | PS_claim d sender lease :
      d <> "" -> now < lease <= deadline -> phase_step deadline now Unclaimed (Claimed (Hold_ d sender 1 lease))
  | PS_renew d sender v lease lease' :
      now < lease < lease' -> lease' <= deadline ->
      phase_step deadline now (Claimed (Hold_ d sender v lease)) (Claimed (Hold_ d sender (v + 1) lease'))
  | PS_begin h key : now < hd_lease h -> phase_step deadline now (Claimed h) (Submitted h key now)
  | PS_confirm h key s : phase_step deadline now (Submitted h key s) (Accepted h key s now)
  | PS_release_unclaimed : phase_step deadline now Unclaimed (Released None now)
  | PS_release_claimed h : phase_step deadline now (Claimed h) (Released (Some h) now)
  | PS_settle_submitted h key s o ref state :
      settles None o state -> phase_step deadline now (Submitted h key s) (Settled h key s None o ref state now)
  | PS_settle_accepted h key s c o ref state :
      settles (Some c) o state -> phase_step deadline now (Accepted h key s c) (Settled h key s (Some c) o ref state now).

Definition phase_moves (deadline : Z) (p p' : Phase) : Prop := exists now, phase_step deadline now p p'.
Definition phase_reachable (deadline : Z) (p : Phase) : Prop := rtc (phase_moves deadline) Unclaimed p.

(** What every reachable phase satisfies: a lease is versioned from 1 and ends before the reservation
    does, and a submission began under its lease. *)
Definition phase_wf (deadline : Z) (p : Phase) : Prop :=
  let hold_wf h := hd_deliveryId h <> "" /\ 1 <= hd_version h /\ hd_lease h <= deadline in
  match p with
  | Unclaimed | Released None _ => True
  | Direct s c l f =>
      (s = CONFIRMED /\ is_Some c /\ l = None /\ f = None) \/ (s = RELEASED /\ c = None /\ is_Some l /\ f = None) \/
      (s = REFUNDED /\ is_Some c /\ l = None /\ is_Some f)
  | Claimed h | Released (Some h) _ => hold_wf h
  | Submitted h _ s | Accepted h _ s _ => hold_wf h /\ s < hd_lease h
  | Settled h _ s c o _ state _ => hold_wf h /\ s < hd_lease h /\ settles c o state
  end.

Lemma reachable_phase_wf deadline p : phase_reachable deadline p -> phase_wf deadline p.
Proof.
  enough (Hind : forall p0, rtc (phase_moves deadline) p0 p -> phase_wf deadline p0 -> phase_wf deadline p) by (intros H; by apply (Hind Unclaimed)).
  intros p0. induction 1 as [|p1 p2 p3 [now Hs] _ IH]; [done|]. intros Hp1. apply IH.
  destruct Hs; cbn in *; try done; try (split_and?; try lia; tauto); naive_solver.
Qed.

(** The delivery, its request and its start, once it has submitted. *)
Definition submission_of (p : Phase) : option (Hold * string * Z) :=
  match p with
  | Submitted h key s | Accepted h key s _ | Settled h key s _ _ _ _ _ => Some (h, key, s)
  | _ => None
  end.

Definition is_terminal (p : Phase) : bool :=
  match p with Settled _ _ _ _ _ _ _ _ | Released _ _ => true | _ => false end.

(** Nothing leaves a terminal phase, and no step takes a submission back. *)
Lemma terminal_stays deadline p p' : is_terminal p = true -> rtc (phase_moves deadline) p p' -> p' = p.
Proof. intros Ht. induction 1 as [|p1 p2 p3 [now Hs] _ _]; [done|]. by destruct Hs. Qed.

Lemma submission_stays deadline p p' x : submission_of p = Some x -> rtc (phase_moves deadline) p p' -> submission_of p' = Some x.
Proof. intros Hx Hr. revert Hx. induction Hr as [|p1 p2 p3 [now Hs] _ IH]; [done|]. intros Hx. apply IH. by destruct Hs. Qed.

(** ** The phase of a row *)

Definition lease_of (h : Hold) : LeaseColumns :=
  Lease (Some (hd_deliveryId h)) (Some (hd_sender h)) (Some (hd_version h)) (Some (hd_lease h)).
Definition no_lease : LeaseColumns := Lease None None None None.
Definition no_submission : SubmissionColumns := Submission None None.

(** The columns a phase stands for. *)
Definition columns_of (p : Phase) : LeaseColumns * SubmissionColumns * OutcomeColumns :=
  match p with
  | Unclaimed => (no_lease, no_submission, Outcome_ RESERVED None None None (Some T_UNCLAIMED) None None None)
  | Direct s c l f => (no_lease, no_submission, Outcome_ s c l f (Some T_UNCLAIMED) None None None)
  | Claimed h => (lease_of h, no_submission, Outcome_ RESERVED None None None (Some T_CLAIMED) None None None)
  | Submitted h key s =>
      (lease_of h, Submission (Some key) (Some s), Outcome_ RESERVED None None None (Some T_UNKNOWN_RECONCILING) None None None)
  | Accepted h key s c =>
      (lease_of h, Submission (Some key) (Some s), Outcome_ CONFIRMED (Some c) None None (Some T_ACCEPTED) None None None)
  | Released h t =>
      (match h with Some h => lease_of h | None => no_lease end, no_submission, Outcome_ RELEASED None (Some t) None (Some T_SETTLED) None None (Some t))
  | Settled h key s c o ref state t =>
      (lease_of h, Submission (Some key) (Some s),
       Outcome_ state (if bool_decide (state = CONFIRMED) && bool_decide (c = None) then Some t else c)
         (if bool_decide (state = RELEASED) then Some t else None) (if bool_decide (state = REFUNDED) then Some t else None)
         (Some T_SETTLED) (Some o) (Some ref) (Some t))
  end.

Definition has_phase (r : ReservationRow) (p : Phase) : Prop := (rv_lease r, rv_submission r, rv_outcome r) = columns_of p.

(** A row that the machine accounts for. *)
Definition row_ok (r : ReservationRow) : Prop := exists p, has_phase r p /\ phase_reachable (rv_expiresAt r) p.

(** One row to the next: the booking stays, and the phase moves once or not at all. *)
Definition row_step (r r' : ReservationRow) : Prop :=
  rv_booking r' = rv_booking r /\
  forall p, has_phase r p -> phase_reachable (rv_expiresAt r) p ->
    exists p', has_phase r' p' /\ (p' = p \/ phase_moves (rv_expiresAt r) p p').

#[export] Instance row_step_refl : Reflexive row_step.
Proof. intros r. split; [done|]. eauto. Qed.

Lemma row_step_ok r r' : row_step r r' -> row_ok r -> row_ok r'.
Proof.
  intros (Hb & Hm) (p & Hp & Hr). destruct (Hm p Hp Hr) as (p' & Hp' & Hmv). exists p'. split; [done|].
  unfold rv_expiresAt in *. rewrite Hb. destruct Hmv as [-> |Hmv]; [done|]. by eapply rtc_r.
Qed.

(** Several steps, as a path of the machine. *)
Definition row_steps : ReservationRow -> ReservationRow -> Prop := rtc row_step.

Lemma row_steps_phases r r' : row_steps r r' -> rv_booking r' = rv_booking r /\
  forall p, has_phase r p -> phase_reachable (rv_expiresAt r) p ->
    exists p', has_phase r' p' /\ rtc (phase_moves (rv_expiresAt r)) p p'.
Proof.
  induction 1 as [r|r1 r2 r3 [Hb12 H12] _ [Hb23 H23]]; [split; eauto using rtc_refl|].
  split; [congruence|]. intros p Hp Hr. destruct (H12 p Hp Hr) as (q & Hq & Hmv).
  unfold rv_expiresAt in *. rewrite Hb12 in H23.
  assert (Hpq : rtc (phase_moves (bk_expiresAt (rv_booking r1))) p q).
  { destruct Hmv as [-> |Hmv]; [done|by apply rtc_once]. }
  destruct (H23 q Hq) as (p' & Hp' & Hqp); [unfold phase_reachable in *; by etrans|]. exists p'. split; [done|by etrans].
Qed.

(** ** What the runtime does to a row is a step of the machine *)

Ltac phase_cases r p Hp Hr :=
  destruct r as [? ? ? ?]; unfold has_phase in Hp; cbn in Hp; pose proof (reachable_phase_wf _ _ Hr) as Hwf;
  destruct p as [|? ? ? ?|[d sd v le]|[d sd v le] ky st|[d sd v le] ky st cf|[[d sd v le]|] ?|[d sd v le] ky st cf ? ? ? ?];
  cbn in Hp; injection Hp as -> -> ->; cbn in *; try done.

Lemma truthy_some s : s <> "" -> truthy (Some s) = Some s.
Proof. by destruct s. Qed.

Section Rows.
Context `{Runtime, Host}.

Lemma claimed_step i lease now r : rv_state r = RESERVED -> status r = T_UNCLAIMED -> cl_deliveryId i <> "" ->
  now < lease <= rv_expiresAt r -> row_step r (claimed i lease r).
Proof.
  intros Hs Ht Hd Hl. split; [done|]. intros p Hp Hr. phase_cases r p Hp Hr.
  - exists (Claimed (Hold_ (cl_deliveryId i) (cl_senderIdentityId i) 1 lease)). split; [done|]. right. exists now. by constructor.
  - naive_solver.
Qed.

Lemma renewed_step i lease current now r : rv_state r = RESERVED -> status r = T_CLAIMED ->
  rv_leaseVersion r = Some (rn_expectedLeaseVersion i) -> rv_leaseExpiresAt r = Some current ->
  now < current < lease -> lease <= rv_expiresAt r -> row_step r (renewed i lease r).
Proof.
  intros Hs Ht Hv Hc Hl He. split; [done|]. intros p Hp Hr. phase_cases r p Hp Hr.
  injection Hv as ->. injection Hc as ->. exists (Claimed (Hold_ d sd (rn_expectedLeaseVersion i + 1) lease)). split; [done|]. right. exists now. by constructor.
Qed.

Lemma barred_step i current now r : rv_state r = RESERVED -> status r = T_CLAIMED -> rv_leaseExpiresAt r = Some current ->
  now < current -> row_step r (barred i now r).
Proof.
  intros Hs Ht Hc Hl. split; [done|]. intros p Hp Hr. phase_cases r p Hp Hr.
  injection Hc as ->. eexists (Submitted (Hold_ d sd v _) _ _). split; [reflexivity|]. right. exists now. constructor. cbn. lia.
Qed.

Lemma accepted_step now r : rv_state r = RESERVED -> rv_submissionStartedAt r <> None -> row_step r (accepted now r).
Proof.
  intros Hs Hb. split; [done|]. intros p Hp Hr. phase_cases r p Hp Hr.
  - eexists (Accepted (Hold_ _ _ _ _) _ _ _). split; [reflexivity|]. right. exists now. constructor.
  - destruct Hwf as (_ & _ & Hset). inversion Hset; congruence.
Qed.

Lemma released_step now r : rv_state r = RESERVED -> status r <> T_SETTLED -> rv_submissionStartedAt r = None ->
  row_step r (released now r).
Proof.
  intros Hs Ht Hb. split; [done|]. intros p Hp Hr. phase_cases r p Hp Hr.
  - exists (Released None now). split; [done|]. right. exists now. constructor.
  - naive_solver.
  - eexists (Released (Some (Hold_ _ _ _ _)) now). split; [reflexivity|]. right. exists now. constructor.
Qed.

Lemma reconciling_step r : rv_submissionStartedAt r <> None -> status r <> T_ACCEPTED -> status r <> T_SETTLED ->
  row_step r (reconciling r).
Proof.
  intros Hb Ht Hset. split; [done|]. intros p Hp Hr. phase_cases r p Hp Hr.
  eexists (Submitted (Hold_ _ _ _ _) _ _). split; [reflexivity|]. by left.
Qed.

Lemma settled_state_settles outcome policy r state (c : option Z) : settled_state outcome policy r = Ok state ->
  rv_state r = match c with Some _ => CONFIRMED | None => RESERVED end -> settles c outcome state.
Proof.
  unfold settled_state, fail_if. intros Hst Hs. rewrite Hs in Hst.
  destruct outcome, c; cbn in Hst; try done; try (injection Hst as <-; constructor).
  destruct (sp_refundOnFailure policy); injection Hst as <-; constructor.
Qed.

Lemma settled_step outcome ref state policy now r : rv_submissionStartedAt r <> None -> closed r = false ->
  settled_state outcome policy r = Ok state -> row_step r (settled_row outcome ref state now r).
Proof.
  intros Hb Hc Hst. split; [done|]. intros p Hp Hr. phase_cases r p Hp Hr.
  - pose proof (settled_state_settles _ _ _ _ None Hst eq_refl) as Hs.
    exists (Settled (Hold_ d sd v le) ky st None outcome ref state now). split; [by inversion Hs|].
    right. exists now. by constructor.
  - pose proof (settled_state_settles _ _ _ _ (Some cf) Hst eq_refl) as Hs.
    exists (Settled (Hold_ d sd v le) ky st (Some cf) outcome ref state now). split; [by inversion Hs|].
    right. exists now. by constructor.
Qed.
End Rows.

(** ** The commands as one type *)

Inductive Command :=
  | C_claim (i : ClaimReservationForDeliveryInput)
  | C_renew (i : RenewReservationLeaseInput)
  | C_begin (i : BeginProviderSubmissionInput)
  | C_confirm (i : ConfirmProviderAcceptanceInput)
  | C_release (i : ReleaseBeforeSubmitInput)
  | C_settle (i : SettleDeliveryInput).

Definition command_of (c : Command) : DeliveryCommand :=
  match c with
  | C_claim i => cl_command i
  | C_renew i => rn_command i
  | C_begin i => bg_command i
  | C_confirm i => cf_command i
  | C_release i => rl_command i
  | C_settle i => se_command i
  end.

(** The operation and the key its receipt is found by. *)
Definition receipt_key (c : Command) : ReservationOperation * string :=
  match c with
  | C_claim i => (OP_CLAIM, dm_reservationId (cl_command i))
  | C_renew i => (OP_RENEW, dm_reservationId (rn_command i) +:+ ":" +:+ show (rn_expectedLeaseVersion i))
  | C_begin i => (OP_BEGIN_SUBMISSION, dm_reservationId (bg_command i))
  | C_confirm i => (OP_CONFIRM, dm_reservationId (cf_command i))
  | C_release i => (OP_RELEASE, dm_reservationId (rl_command i))
  | C_settle i => (OP_SETTLE, se_outcomeRef i)
  end.

(** What the brand of a delivery identifier guarantees of the input. *)
Definition branded (c : Command) : Prop :=
  match c with C_claim i => cl_deliveryId i <> "" | _ => True end.

Section Execute.
Context `{Runtime, Host}.

Definition command_hash (c : Command) : string :=
  match c with
  | C_claim i => claim_hash i
  | C_renew i => renew_hash i
  | C_begin i => begin_hash i
  | C_confirm i => confirm_hash i
  | C_release i => release_hash i
  | C_settle i => settle_hash i
  end.

(** The timestamp a command parses before anything else. *)
Definition parsed (c : Command) : runtime Z :=
  match c with
  | C_claim i => fact_timestamp (cl_leaseExpiresAt i) "leaseExpiresAt"
  | C_renew i => fact_timestamp (rn_leaseExpiresAt i) "leaseExpiresAt"
  | C_settle i => fact_timestamp (se_occurredAt i) "occurredAt"
  | _ => Ok 0
  end.

Context (contactVersion : string -> Z) (policyOf : SettlementPolicy).

Definition execute (t : RuntimeTables) (c : Command) (now : Z) : runtime (SettlementView * RuntimeTables) :=
  match c with
  | C_claim i => claim t i now
  | C_renew i => renew t i now
  | C_begin i => beginSubmission contactVersion t i now
  | C_confirm i => confirm t i now
  | C_release i => release t i now
  | C_settle i => settle policyOf t i now
  end.

Definition handle (t : RuntimeTables) (c : Command) (at_ now : Z) (r : ReservationRow) : runtime (SettlementView * RuntimeTables) :=
  match c with
  | C_claim i => claim_handler t i at_ now r
  | C_renew i => renew_handler t i at_ now r
  | C_begin i => begin_handler contactVersion t i now r
  | C_confirm i => confirm_handler t i now r
  | C_release i => release_handler t i now r
  | C_settle i => settle_handler policyOf t i now r
  end.

Lemma execute_command t c now :
  execute t c now = parsed c ≫= fun at_ =>
    run_command t (fst (receipt_key c)) (snd (receipt_key c)) (command_of c) (command_hash c) (handle t c at_ now).
Proof. by destruct c. Qed.

(** A command that succeeds repeats its receipt, or handles its reservation and leaves one. *)
Lemma execute_cases t c now v t' : execute t c now = Ok (v, t') ->
  (exists k, find_receipt (rt_facts t) (fst (receipt_key c)) (snd (receipt_key c)) = Some k /\
     cr_reservationId k = dm_reservationId (command_of c) /\ cr_inputHash k = command_hash c /\ v = cr_response k /\ t' = t) \/
  (find_receipt (rt_facts t) (fst (receipt_key c)) (snd (receipt_key c)) = None /\ exists at_ r t1, parsed c = Ok at_ /\
     js_find (reservation_by (dm_reservationId (command_of c))) (rt_reservations t) = Some r /\
     rv_actionKey r = dm_actionKey (command_of c) /\ handle t c at_ now r = Ok (v, t1) /\
     t' = write_receipt (CommandReceipt_ (fst (receipt_key c)) (snd (receipt_key c)) (dm_reservationId (command_of c))
            (command_hash c) v) t1).
Proof.
  rewrite execute_command. intros Hok. open_bind Hok at_ Hat. unfold run_command, fail_if, assertActionBinding in Hok.
  destruct (find_receipt _ _ _) as [k|] eqn:Ek.
  - apply bind_throw_if_ok in Hok as [Hg [= <- <-]]. bool_prop. left. by exists k.
  - open_bind Hok r Hr. unfold fail_if in Hok. apply bind_throw_if_ok in Hok as [Ha Hok]. bool_prop. open_bind Hok p Hp.
    destruct p as [v1 t1]. injection Hok as <- <-. right. split; [done|]. exists at_, r, t1. split_and?; try done.
    by destruct (js_find _ _); [injection Hr as ->|].
Qed.
End Execute.

(** ** Attempts and touches *)

(** The attempt of a settled reservation, and a touch of an attempt: a delivery that was seen, or a
    response to one the provider accepted. *)
Definition attempt_of (r : ReservationRow) (a : FactRow) : Prop :=
  fc_reservationId a = rv_id r /\ rv_deliveryId r = Some (fc_deliveryId a) /\ rv_terminalOutcome r = Some (fc_outcome a) /\
  oc_terminalOutcomeRef (rv_outcome r) = Some (fc_outcomeRef a) /\ fc_contactId a = rv_contactId r /\
  fc_identityId a = truthy (rv_identityId r) /\ fc_channel a = rv_channel r /\ fc_purpose a = rv_purpose r /\
  fc_source a = rv_source r.

Definition touches (a : FactRow) (t : TouchRow) : Prop :=
  let f := tc_fact t in
  tc_attemptId t = fc_id a /\ fc_reservationId f = fc_reservationId a /\ fc_deliveryId f = fc_deliveryId a /\
  fc_outcomeRef f = fc_outcomeRef a /\ fc_contactId f = fc_contactId a /\ fc_identityId f = fc_identityId a /\
  fc_channel f = fc_channel a /\ fc_purpose f = fc_purpose a /\ fc_source f = fc_source a /\ fc_outcome f = fc_outcome a /\
  fc_outcome a = match tc_evidence t with None => DELIVERED | Some _ => PROVIDER_ACCEPTED end.

Record facts_ok (rows : list ReservationRow) (f : DeliveryFacts) : Prop := {
  fo_ids : List.NoDup (map fc_id (df_attempts f));
  fo_refs : List.NoDup (map fc_outcomeRef (df_attempts f));
  fo_attempts : forall a, In a (df_attempts f) -> exists r, In r rows /\ attempt_of r a;
  fo_touched : List.NoDup (map tc_attemptId (df_touches f));
  fo_touches : forall t, In t (df_touches f) -> exists a, In a (df_attempts f) /\ touches a t;
}.

Record runtime_ok (t : RuntimeTables) : Prop := {
  ru_ids : List.NoDup (map rv_id (rt_reservations t));
  ru_rows : forall r, In r (rt_reservations t) -> row_ok r;
  ru_deliveries : forall r s d, In r (rt_reservations t) -> In s (rt_reservations t) ->
    rv_deliveryId r = Some d -> rv_deliveryId s = Some d -> r = s;
  ru_requests : forall r s k, In r (rt_reservations t) -> In s (rt_reservations t) ->
    rv_providerRequestKey r = Some k -> rv_providerRequestKey s = Some k -> r = s;
  ru_facts : facts_ok (rt_reservations t) (rt_facts t);
}.

(** What a settlement may add to the facts. *)
Inductive recorded (r : ReservationRow) (f : DeliveryFacts) : DeliveryFacts -> Prop :=
  | Recorded_none : recorded r f f
  | Recorded_attempt a ts n :
      attempt_of r a -> ~ In (fc_id a) (map fc_id (df_attempts f)) -> ~ In (fc_outcomeRef a) (map fc_outcomeRef (df_attempts f)) ->
      (forall t, In t ts -> touches a t) -> List.NoDup (map tc_attemptId (df_touches f ++ ts)) ->
      recorded r f (DeliveryFacts_ (df_attempts f ++ [a]) (df_touches f ++ ts) (df_receipts f) n).

(** A row that closed stays as it is, and so do the facts about it. *)
Lemma closed_frozen r r' : row_ok r -> closed r = true -> row_step r r' -> r' = r.
Proof.
  intros (p & Hp & Hr) Hc (Hb & Hm). destruct (Hm p Hp Hr) as (p' & Hp' & Hmv).
  assert (p' = p) as ->.
  { destruct Hmv as [-> |[now Hs]]; [done|]. unfold has_phase in Hp. destruct r as [bo lo su ou]. cbn in Hp.
    unfold closed, status, rv_settlementStatus, rv_terminalOutcome in Hc. cbn in Hc.
    destruct Hs; cbn in Hp; injection Hp as -> -> ->; done. }
  destruct r as [bo lo su ou], r' as [bo' lo' su' ou']. unfold has_phase in *. cbn in *. congruence.
Qed.

Lemma attempt_closed r a : attempt_of r a -> closed r = true.
Proof. intros (_ & _ & Ho & _). unfold closed. by rewrite Ho. Qed.

Section Recording.
Context `{Runtime, Host}.

Lemma insert_attempt_ok f a f' : insert_attempt f a = Ok f' ->
  f' = DeliveryFacts_ (df_attempts f ++ [a]) (df_touches f) (df_receipts f) (df_nextId f) /\
  ~ In (fc_id a) (map fc_id (df_attempts f)) /\ ~ In (fc_outcomeRef a) (map fc_outcomeRef (df_attempts f)).
Proof.
  unfold insert_attempt. intros Hi. apply bind_throw_if_ok in Hi as [Hn [= <-]]. split; [done|].
  split; [apply (some_clash fc_id)|apply (some_clash fc_outcomeRef)]; intros y Hy; apply not_true_iff_false; intros Hc; apply not_true_iff_false in Hn; apply Hn;
    apply existsb_exists; exists y; (split; [done|]); rewrite Hc; by rewrite ?orb_true_r.
Qed.

Lemma insert_touch_ok f t f' : insert_touch f t = Ok f' ->
  f' = DeliveryFacts_ (df_attempts f) (df_touches f ++ [t]) (df_receipts f) (df_nextId f) /\
  ~ In (tc_attemptId t) (map tc_attemptId (df_touches f)).
Proof.
  unfold insert_touch. intros Hi. apply bind_throw_if_ok in Hi as [_ Hi]. apply bind_throw_if_ok in Hi as [Hn [= <-]].
  split; [done|]. apply (some_clash tc_attemptId). intros y Hy. apply not_true_iff_false. intros Hc. apply not_true_iff_false in Hn.
  apply Hn. apply existsb_exists. exists y. split; [done|]. rewrite Hc. by rewrite orb_true_r.
Qed.

(** [record] repeats an attempt of the reservation, or appends one, with its touch if it counts as one. *)
Lemma record_attempt_ok rows f i x f' : List.NoDup (map tc_attemptId (df_touches f)) ->
  (at_countsAsSuccessfulTouch i = true -> at_outcome i = DELIVERED) -> record_attempt rows f i = Ok (x, f') ->
  (f' = f /\ exists b, In b (df_attempts f) /\ fc_reservationId b = at_reservationId i) \/
  exists occurredAt id ts n, let a := factData i occurredAt id in
    f' = DeliveryFacts_ (df_attempts f ++ [a]) (df_touches f ++ ts) (df_receipts f) n /\
    ~ In (fc_id a) (map fc_id (df_attempts f)) /\ ~ In (fc_outcomeRef a) (map fc_outcomeRef (df_attempts f)) /\
    (forall t, In t ts -> touches a t) /\ List.NoDup (map tc_attemptId (df_touches f ++ ts)) /\
    length ts = (if at_countsAsSuccessfulTouch i then 1%nat else 0%nat).
Proof.
  intros Hnd Hdel. unfold record_attempt, fact_nonEmpty, fail_if. intros Hok.
  do 3 apply bind_throw_if_ok in Hok as [_ Hok]. open_bind Hok at_ Hat.
  destruct (find_attempt f (at_outcomeRef i)) as [b|] eqn:Eb.
  { apply bind_throw_if_ok in Hok as [Hm [= _ <-]]. left. split; [done|]. unfold matchesCanonicalInput in Hm.
    apply find_some in Eb as [Hb _]. bool_prop. by exists b. }
  right. open_bind Hok r Hr. apply bind_throw_if_ok in Hok as [_ Hok]. open_bind Hok f1 Hf1.
  apply insert_attempt_ok in Hf1 as (-> & Hid & Href). cbn in Hid, Href. exists at_, (fresh (df_nextId f)).
  destruct (at_countsAsSuccessfulTouch i) eqn:Ec.
  - open_bind Hok f2 Hf2. injection Hok as _ <-. apply insert_touch_ok in Hf2 as (-> & Hnt). cbn in Hnt.
    eexists [_], _. split; [reflexivity|]. split; [done|]. split; [done|]. split.
    + intros t [<-|[]]. unfold touches. cbn. split_and?; try done. by apply Hdel.
    + split; [by apply NoDup_snoc_map|done].
  - injection Hok as _ <-. exists [], (1 + df_nextId f)%nat. rewrite app_nil_r. done.
Qed.
End Recording.

(** ** What a command does to the tables *)

(** A column's value that a row takes is no other row's. *)
Definition takes_free {A} (t : RuntimeTables) (column : ReservationRow -> option A) (r r' : ReservationRow) : Prop :=
  column r' = column r \/ forall x, In x (rt_reservations t) -> rv_id x <> rv_id r -> column x <> column r'.

Inductive handled (t : RuntimeTables) (r : ReservationRow) : RuntimeTables -> Prop :=
  | Handled_same : handled t r t
  | Handled_row r' f :
      row_step r r' -> takes_free t rv_deliveryId r r' -> takes_free t rv_providerRequestKey r r' ->
      recorded r' (rt_facts t) f ->
      handled t r (RuntimeTables_ (update_where (reservation_by (rv_id r)) (fun _ => r') (rt_reservations t)) f).

Ltac guards H := unfold fail_if in H; repeat (apply bind_throw_if_ok in H as [? H]); bool_prop.

Section Handling.
Context `{Runtime, Host}.

Lemma rewrite_ok t r r' v t' : rewrite_reservation t r r' = Ok (v, t') ->
  t' = RuntimeTables_ (update_where (reservation_by (rv_id r)) (fun _ => r') (rt_reservations t)) (rt_facts t).
Proof. unfold rewrite_reservation. intros Hok. open_bind Hok w Hw. by injection Hok as _ <-. Qed.

Lemma competes_free {A} `{EqDecision A} t (column : ReservationRow -> option A) value r r' :
  competes t column value r = false -> column r' = Some value -> takes_free t column r r'.
Proof.
  intros Hn Hv. right. intros x Hx Hid Hc. apply not_true_iff_false in Hn. apply Hn. apply existsb_exists.
  exists x. split; [done|]. unfold reservation_by. rewrite bool_decide_eq_true_2, bool_decide_eq_false_2 by congruence. done.
Qed.

(** A rewrite that records nothing and takes no delivery or request. *)
Lemma rewrite_handled t r r' v t' : rewrite_reservation t r r' = Ok (v, t') -> row_step r r' ->
  takes_free t rv_deliveryId r r' -> takes_free t rv_providerRequestKey r r' -> handled t r t'.
Proof. intros Hok Hs Hd Hk. apply rewrite_ok in Hok as ->. constructor; try done. constructor. Qed.

Lemma lease_guard (b : bool) (l : option Z) (c : Z) (e : RuntimeError) :
  from_option (if b then l else None) e = Ok c -> b = true /\ l = Some c.
Proof. destruct b, l; cbn; naive_solver. Qed.

Context (contactVersion : string -> Z) (policyOf : SettlementPolicy).

Lemma claim_handled t i at_ now r v t' : cl_deliveryId i <> "" -> claim_handler t i at_ now r = Ok (v, t') -> handled t r t'.
Proof.
  intros Hb Hok. unfold claim_handler in Hok. guards Hok. eapply rewrite_handled; [done| | |by left].
  - by apply (claimed_step _ _ now).
  - by eapply competes_free.
Qed.

Lemma renew_handled t i at_ now r v t' : renew_handler t i at_ now r = Ok (v, t') -> handled t r t'.
Proof.
  intros Hok. unfold renew_handler, assertDeliveryBinding, assertActionBinding in Hok. guards Hok.
  open_bind Hok u Hu. guards Hok. open_bind Hok cur Hc. apply lease_guard in Hc as [Hv Hc]. guards Hok.
  eapply rewrite_handled; [done| |by left|by left]. eapply (renewed_step _ _ cur now); try done; lia.
Qed.

Lemma begin_handled t i now r v t' : begin_handler contactVersion t i now r = Ok (v, t') -> handled t r t'.
Proof.
  intros Hok. unfold begin_handler, assertDeliveryBinding, assertActionBinding in Hok. guards Hok.
  open_bind Hok u Hu. guards Hok. open_bind Hok cur Hc. apply lease_guard in Hc as [Hv Hc]. guards Hok.
  eapply rewrite_handled; [done| |by left|by eapply competes_free]. by eapply (barred_step _ cur now).
Qed.

Lemma provider_binding r c d k u : assertProviderBinding r c d k = Ok u ->
  rv_deliveryId r = Some d /\ rv_providerRequestKey r = Some k /\ rv_submissionStartedAt r <> None.
Proof.
  unfold assertProviderBinding, assertDeliveryBinding, assertActionBinding, fail_if. intros Hok. open_bind Hok w Hw.
  open_bind Hw w2 Hw2. apply throw_if_ok in Hw. guards Hok. apply throw_if_ok in Hok. by bool_prop.
Qed.

Lemma confirm_handled t i now r v t' : confirm_handler t i now r = Ok (v, t') -> handled t r t'.
Proof.
  intros Hok. unfold confirm_handler in Hok. open_bind Hok u Hu. apply provider_binding in Hu as (_ & _ & Hu). guards Hok.
  eapply rewrite_handled; [done| |by left|by left]. by apply accepted_step.
Qed.

Lemma release_handled t i now r v t' : release_handler t i now r = Ok (v, t') -> handled t r t'.
Proof.
  intros Hok. unfold release_handler in Hok. guards Hok. eapply rewrite_handled; [done| |by left|by left].
  apply released_step; try done. unfold submission_begun in *. bool_prop. by apply eq_None_not_Some.
Qed.
End Handling.

Section Settling.
Context `{Runtime, Host} (contactVersion : string -> Z) (policyOf : SettlementPolicy).

Lemma assert_settlement outcome d u : assertSettlementDecision outcome d = Ok u ->
  sp_countsAsSuccessfulTouch d = true -> outcome = DELIVERED.
Proof.
  unfold assertSettlementDecision. intros Hok Ht. destruct (negb _) eqn:El in Hok; [done|]. bool_prop.
  rewrite Ht in *. cbn in *. by rewrite ?orb_false_r in *; bool_prop.
Qed.

Lemma settled_attempt i outcome ref state now r occurredAt id touch :
  rv_deliveryId r = Some (se_deliveryId i) -> ref = se_outcomeRef i ->
  attempt_of (settled_row outcome ref state now r) (factData (settled_fact i r outcome touch) occurredAt id) <->
  dm_reservationId (se_command i) = rv_id r.
Proof. intros Hd ->. unfold attempt_of. cbn. naive_solver. Qed.

Lemma settle_handled t i now r v t' : runtime_ok t -> In r (rt_reservations t) -> dm_reservationId (se_command i) = rv_id r ->
  settle_handler policyOf t i now r = Ok (v, t') -> handled t r t'.
Proof.
  intros Hwf Hin Hid Hok. unfold settle_handler in Hok. open_bind Hok u Hu. pose proof (provider_binding _ _ _ _ _ Hu) as (Hdl & _ & Hst).
  destruct (closed r) eqn:Ec. { open_bind Hok w Hw. injection Hok as _ <-. constructor. }
  pose proof Ec as Hcl. unfold closed in Hcl. bool_prop.
  destruct (se_outcome i) as [|outcome].
  { case_bool_decide as Ha; [open_bind Hok w Hw; injection Hok as _ <-; constructor|].
    eapply rewrite_handled; [done| |by left|by left]. by apply reconciling_step. }
  open_bind Hok u2 Hp. open_bind Hok state Hs. open_bind Hok p Hup. destruct p as [v1 t1].
  pose proof (settled_step outcome (se_outcomeRef i) state _ now r Hst Ec Hs) as Hstep.
  apply rewrite_ok in Hup as ->. destruct (sp_countsAsAttempt _); cbn in Hok; [|injection Hok as _ <-; constructor; try done; try (by left); constructor].
  open_bind Hok x Hx. destruct x as [rec f']. injection Hok as _ <-. cbn. constructor; [done|by left|by left|].
  apply record_attempt_ok in Hx; [|apply Hwf|exact (assert_settlement _ _ _ Hp)].
  destruct Hx as [[-> _]|(at_ & id & ts & n & -> & Hi & Href & Ht & Hn & _)]; [constructor|].
  by constructor; [apply settled_attempt|..].
Qed.

Lemma handle_handled t c at_ now r v t' : runtime_ok t -> branded c -> In r (rt_reservations t) ->
  rv_id r = dm_reservationId (command_of c) -> handle contactVersion policyOf t c at_ now r = Ok (v, t') -> handled t r t'.
Proof.
  intros Hwf Hb Hin Hid. destruct c; cbn in Hb, Hid |- *.
  - by apply claim_handled.
  - by apply renew_handled.
  - by apply begin_handled.
  - by apply confirm_handled.
  - by apply release_handled.
  - by apply settle_handled.
Qed.
End Settling.

(** ** Every command keeps the tables well formed *)

Lemma update_row rows r r' : List.NoDup (map rv_id rows) -> In r rows -> row_step r r' ->
  Forall2 row_step rows (update_where (reservation_by (rv_id r)) (fun _ => r') rows).
Proof.
  intros Hnd Hin Hs. assert (Hall : forall x, In x rows -> In x rows) by done. revert Hall.
  generalize rows at 1 3 4. intros l Hl. unfold update_where. induction l as [|x l IH]; cbn; [constructor|].
  constructor; [|apply IH; intros y Hy; apply Hl; by right]. unfold reservation_by.
  destruct (bool_decide (rv_id x = rv_id r)) eqn:E; [|reflexivity]. bool_prop.
  assert (x = r) as -> by (apply (NoDup_map_inj rv_id rows); [done|apply Hl; by left|done|done]). done.
Qed.

Lemma row_step_id r r' : row_step r r' -> rv_id r' = rv_id r.
Proof. intros [Hb _]. unfold rv_id. by rewrite Hb. Qed.

Lemma rows_step_ok rows rows' : Forall2 row_step rows rows' -> (forall r, In r rows -> row_ok r) -> forall r, In r rows' -> row_ok r.
Proof. intros Hf Hok r Hr. destruct (Forall2_In_r _ _ _ _ Hf Hr) as (x & Hx & Hs). eapply row_step_ok; eauto. Qed.

(** A closed row is found again as it was. *)
Lemma closed_kept rows rows' r : Forall2 row_step rows rows' -> (forall x, In x rows -> row_ok x) -> In r rows ->
  closed r = true -> In r rows'.
Proof.
  intros Hf Hok Hr Hc. destruct (Forall2_In_l _ _ _ _ Hf Hr) as (r' & Hr' & Hs).
  by rewrite <- (closed_frozen r r' (Hok r Hr) Hc Hs).
Qed.

Lemma facts_ok_rows rows rows' f : (forall r, In r rows -> closed r = true -> In r rows') -> facts_ok rows f -> facts_ok rows' f.
Proof.
  intros Hk [Hi Hr Ha Ht Hto]. constructor; try done. intros a Hin. destruct (Ha a Hin) as (r & Hr' & Hat).
  exists r. split; [|done]. apply Hk; [done|by eapply attempt_closed].
Qed.

Lemma recorded_facts_ok rows r f f' : In r rows -> facts_ok rows f -> recorded r f f' -> facts_ok rows f'.
Proof.
  intros Hr Hok [|a ts n Ha Hi Href Hts Hnd]; [done|]. destruct Hok as [Hids Hrefs Hat Htd Hto]. constructor; cbn.
  - by apply NoDup_snoc_map.
  - by apply NoDup_snoc_map.
  - intros b Hb. apply in_app_iff in Hb as [Hb|[<-|[]]]; [by apply Hat|by exists r].
  - done.
  - intros t Ht. apply in_app_iff in Ht as [Ht|Ht].
    + destruct (Hto t Ht) as (b & Hb & Htb). exists b. split; [apply in_app_iff; by left|done].
    + exists a. split; [apply in_app_iff; right; by left|by apply Hts].
Qed.

(** Rows that take a free value of a column keep its values distinct. *)
Lemma column_unique {A} t (column : ReservationRow -> option A) r r' :
  (forall x y v, In x (rt_reservations t) -> In y (rt_reservations t) -> column x = Some v -> column y = Some v -> x = y) ->
  In r (rt_reservations t) -> List.NoDup (map rv_id (rt_reservations t)) -> rv_id r' = rv_id r -> takes_free t column r r' ->
  forall x y v, In x (update_where (reservation_by (rv_id r)) (fun _ => r') (rt_reservations t)) ->
    In y (update_where (reservation_by (rv_id r)) (fun _ => r') (rt_reservations t)) ->
    column x = Some v -> column y = Some v -> x = y.
Proof.
  intros Hu Hr Hnd Hid Hfree.
  assert (Hcase : forall x, In x (update_where (reservation_by (rv_id r)) (fun _ => r') (rt_reservations t)) ->
    x = r' \/ (In x (rt_reservations t) /\ rv_id x <> rv_id r)).
  { intros x Hx. apply update_where_In in Hx as (z & Hz & ->). unfold reservation_by.
    destruct (bool_decide (rv_id z = rv_id r)) eqn:E; [by left|]. bool_prop. by right. }
  assert (Hother : forall x v, In x (rt_reservations t) -> rv_id x <> rv_id r -> column x = Some v -> column r' = Some v -> False).
  { intros x v Hx Hne Hcx Hcr. destruct Hfree as [He|Hf]; [|by apply (Hf x Hx Hne); congruence].
    apply Hne. f_equal. by apply (Hu x r v); congruence. }
  intros x y v Hx Hy Hcx Hcy. destruct (Hcase x Hx) as [-> |[Hx' Hnx]], (Hcase y Hy) as [-> |[Hy' Hny]]; [done| | |by eapply Hu].
  - exfalso. by eapply (Hother y).
  - exfalso. by eapply (Hother x).
Qed.

Lemma handled_ok t r t' : runtime_ok t -> In r (rt_reservations t) -> handled t r t' ->
  runtime_ok t' /\ Forall2 row_step (rt_reservations t) (rt_reservations t').
Proof.
  intros Hwf Hr Hh. pose proof Hwf as [Hids Hrows Hdel Hreq Hfacts].
  destruct Hh as [|r' f Hs Hd Hk Hrec].
  { split; [done|]. clear. induction (rt_reservations t); by constructor. }
  pose proof (update_row _ _ _ Hids Hr Hs) as Hf. split; [|exact Hf]. constructor; cbn.
  - rewrite (Forall2_map_eq row_step rv_id _ _ row_step_id Hf). done.
  - by eapply rows_step_ok.
  - eapply column_unique; eauto using row_step_id.
  - eapply column_unique; eauto using row_step_id.
  - eapply recorded_facts_ok; [|eapply facts_ok_rows; [|exact Hfacts]|exact Hrec].
    + apply (update_where_hit _ (fun _ => r') _ r); [done|]. unfold reservation_by. by apply bool_decide_eq_true.
    + intros x Hx Hc. by eapply closed_kept.
Qed.

(** ** Steps of the runtime *)

Section RuntimeSteps.
Context `{Runtime, Host}.

(** A command under any settlement policy, or a response to an accepted attempt. *)
Inductive runtime_step (contactVersion : string -> Z) (t : RuntimeTables) : RuntimeTables -> Prop :=
  | RS_command policyOf c now v t' :
      branded c -> execute contactVersion policyOf t c now = Ok (v, t') -> runtime_step contactVersion t t'
  | RS_touch i touch t' : recordCorrelatedTouch t i = Ok (touch, t') -> runtime_step contactVersion t t'.

Lemma correlated_touch_ok t i touch t' : recordCorrelatedTouch t i = Ok (touch, t') -> facts_ok (rt_reservations t) (rt_facts t) ->
  rt_reservations t' = rt_reservations t /\ facts_ok (rt_reservations t) (rt_facts t') /\
  df_receipts (rt_facts t') = df_receipts (rt_facts t) /\ df_attempts (rt_facts t') = df_attempts (rt_facts t).
Proof.
  unfold recordCorrelatedTouch, fact_nonEmpty. intros Hok Hf.
  do 2 apply bind_throw_if_ok in Hok as [_ Hok]. open_bind Hok kd Hk. open_bind Hok at_ Hat.
  apply bind_throw_if_ok in Hok as [_ Hok]. open_bind Hok a Ha. apply bind_throw_if_ok in Hok as [Hb Hok].
  apply bind_throw_if_ok in Hok as [Hacc Hok]. bool_prop.
  destruct (touch_of (rt_facts t) (fc_id a)) as [x|]; [apply bind_throw_if_ok in Hok as [_ [= _ <-]]; done|].
  destruct (insert_touch _ _) as [f'|[]] eqn:Ei; try done. injection Hok as _ <-. cbn.
  apply insert_touch_ok in Ei as (-> & Hnt). split; [done|]. split; [|done]. destruct Hf as [Hi Hr Hat2 Ht Hto].
  assert (Hain : In a (df_attempts (rt_facts t))).
  { destruct (js_find _ _) as [a'|] eqn:Ef; [|done]. injection Ha as ->. by apply find_some in Ef as [Hin _]. }
  constructor; cbn; try done.
  - by apply NoDup_snoc_map.
  - intros y Hy. apply in_app_iff in Hy as [Hy|[<-|[]]]; [by apply Hto|]. exists a. split; [done|]. done.
Qed.

Lemma runtime_step_ok contactVersion t t' : runtime_ok t -> runtime_step contactVersion t t' ->
  runtime_ok t' /\ Forall2 row_step (rt_reservations t) (rt_reservations t').
Proof.
  intros Hwf [policyOf c now v t1 Hb Hok|i touch t1 Hok].
  - apply execute_cases in Hok as [(k & _ & _ & _ & _ & ->)|(_ & at_ & r & t2 & _ & Hr & _ & Hh & ->)].
    + split; [done|]. clear. induction (rt_reservations t); by constructor.
    + apply find_some in Hr as [Hr Hid]. unfold reservation_by in Hid. bool_prop.
      apply handle_handled in Hh; try done. destruct (handled_ok _ _ _ Hwf Hr Hh) as [[Hi Hrw Hd Hk [? ? ? ? ?]] Hf]. split; [|done].
      by constructor; [..|constructor].
  - pose proof Hwf as [Hi Hrw Hd Hk Hf]. destruct (correlated_touch_ok _ _ _ _ Hok Hf) as (Hrs & Hf' & _).
    rewrite Hrs. split; [by constructor; rewrite ?Hrs|]. clear. induction (rt_reservations t); by constructor.
Qed.

(** Receipts are only appended, so the first with a key stays the first. *)
Lemma recorded_receipts r f f' : recorded r f f' -> df_receipts f' = df_receipts f.
Proof. by intros []. Qed.

Lemma runtime_step_receipts contactVersion t t' : runtime_ok t -> runtime_step contactVersion t t' ->
  exists ks, df_receipts (rt_facts t') = df_receipts (rt_facts t) ++ ks.
Proof.
  intros Hwf [policyOf c now v t1 Hb Hok|i touch t1 Hok].
  - apply execute_cases in Hok as [(k & _ & _ & _ & _ & ->)|(_ & at_ & r & t2 & _ & Hr & _ & Hh & ->)].
    + exists []. by rewrite app_nil_r.
    + apply find_some in Hr as [Hr Hid]. unfold reservation_by in Hid. bool_prop.
      apply handle_handled in Hh; try done. eexists. cbn. f_equal. destruct Hh as [|r' f _ _ _ Hrec]; [done|].
      by eapply recorded_receipts.
  - destruct (correlated_touch_ok _ _ _ _ Hok (ru_facts _ Hwf)) as (_ & _ & -> & _). exists []. by rewrite app_nil_r.
Qed.

Lemma find_receipt_grows f f' ks op key k : df_receipts f' = df_receipts f ++ ks ->
  find_receipt f op key = Some k -> find_receipt f' op key = Some k.
Proof.
  unfold find_receipt. intros ->. induction (df_receipts f) as [|x l IH]; cbn; [done|]. by destruct (_ && _).
Qed.

Lemma find_receipt_snoc f f' k : df_receipts f' = df_receipts f ++ [k] -> find_receipt f (cr_operation k) (cr_idempotencyKey k) = None ->
  find_receipt f' (cr_operation k) (cr_idempotencyKey k) = Some k.
Proof.
  unfold find_receipt. intros ->. induction (df_receipts f) as [|x l IH]; cbn.
  - intros _. by rewrite !bool_decide_eq_true_2.
  - by destruct (_ && _).
Qed.

(** What a command leaves: the receipt it will be answered from. *)
Lemma execute_receipt contactVersion policyOf t c now v t' : runtime_ok t -> branded c ->
  execute contactVersion policyOf t c now = Ok (v, t') -> exists k,
    find_receipt (rt_facts t') (fst (receipt_key c)) (snd (receipt_key c)) = Some k /\
    cr_reservationId k = dm_reservationId (command_of c) /\ cr_inputHash k = command_hash c /\ cr_response k = v.
Proof.
  intros Hwf Hb Hok. apply execute_cases in Hok as [(k & Hk & Hid & Hh & -> & ->)|(Hn & at_ & r & t2 & _ & Hr & _ & Hh & ->)]; [by exists k|].
  apply find_some in Hr as [Hr Hid]. unfold reservation_by in Hid. bool_prop. apply handle_handled in Hh; try done.
  set (k := CommandReceipt_ _ _ _ _ _). exists k. split; [|done].
  apply (find_receipt_snoc (rt_facts t) _ k); [|done]. cbn. f_equal.
  destruct Hh as [|r' f _ _ _ Hrec]; [done|]. by eapply recorded_receipts.
Qed.
End RuntimeSteps.

(** ** Rows the service adds and moves *)

(** A step that leaves the delivery alone. *)
Definition still_step (r r' : ReservationRow) : Prop :=
  row_step r r' /\ rv_lease r' = rv_lease r /\ rv_submission r' = rv_submission r.

Lemma still_row_steps rows rows' : Forall2 still_step rows rows' -> Forall2 row_step rows rows'.
Proof. induction 1 as [|x y l l' [Hs _] _ IH]; by constructor. Qed.

Lemma column_still {A} (column : ReservationRow -> option A) rows rows' :
  (forall r r', still_step r r' -> column r' = column r) -> List.NoDup (map rv_id rows) -> Forall2 still_step rows rows' ->
  (forall x y v, In x rows -> In y rows -> column x = Some v -> column y = Some v -> x = y) ->
  forall x y v, In x rows' -> In y rows' -> column x = Some v -> column y = Some v -> x = y.
Proof.
  intros Hc Hnd Hf Hu x y v Hx Hy Hcx Hcy.
  assert (Hnd' : List.NoDup (map rv_id rows')).
  { by rewrite (Forall2_map_eq row_step rv_id _ _ row_step_id (still_row_steps _ _ Hf)). }
  destruct (Forall2_In_r _ _ _ _ Hf Hx) as (a & Ha & Hax), (Forall2_In_r _ _ _ _ Hf Hy) as (b & Hb & Hby).
  assert (Hab : a = b) by (apply (Hu a b v); [done|done|rewrite <- (Hc a x Hax)|rewrite <- (Hc b y Hby)]; done).
  apply (NoDup_map_inj rv_id rows'); [done..|]. rewrite (row_step_id a x), (row_step_id b y); [by rewrite Hab|apply Hby|apply Hax].
Qed.

Lemma runtime_ok_still rows rows' f : runtime_ok (RuntimeTables_ rows f) -> Forall2 still_step rows rows' ->
  runtime_ok (RuntimeTables_ rows' f).
Proof.
  intros [Hi Hr Hd Hk Hf] Hs. cbn in *. pose proof (still_row_steps _ _ Hs) as Hs'. constructor; cbn.
  - by rewrite (Forall2_map_eq row_step rv_id _ _ row_step_id Hs').
  - by eapply rows_step_ok.
  - eapply (column_still rv_deliveryId); [|exact Hi|exact Hs|exact Hd]. intros r r' (_ & Hl & _). unfold rv_deliveryId. by rewrite Hl.
  - eapply (column_still rv_providerRequestKey); [|exact Hi|exact Hs|exact Hk].
    intros r r' (_ & _ & Hl). unfold rv_providerRequestKey. by rewrite Hl.
  - eapply facts_ok_rows; [|exact Hf]. intros x Hx Hc. by eapply closed_kept.
Qed.

Lemma runtime_ok_new rows f r : runtime_ok (RuntimeTables_ rows f) -> has_phase r Unclaimed -> ~ In (rv_id r) (map rv_id rows) ->
  runtime_ok (RuntimeTables_ (rows ++ [r]) f).
Proof.
  intros [Hi Hr Hd Hk Hf] Hp Hn. cbn in *. unfold has_phase in Hp. cbn in Hp. injection Hp as Hle Hsu Hou. constructor; cbn.
  - by apply NoDup_snoc_map.
  - intros x Hx. apply in_app_iff in Hx as [Hx|[<-|[]]]; [by apply Hr|]. exists Unclaimed.
    split; [unfold has_phase; cbn; congruence|apply rtc_refl].
  - intros x y v Hx Hy. unfold rv_deliveryId in *.
    apply in_app_iff in Hx as [Hx|[<-|[]]]; apply in_app_iff in Hy as [Hy|[<-|[]]]; rewrite ?Hle; [by apply Hd|done..].
  - intros x y v Hx Hy. unfold rv_providerRequestKey in *.
    apply in_app_iff in Hx as [Hx|[<-|[]]]; apply in_app_iff in Hy as [Hy|[<-|[]]]; rewrite ?Hsu; [by apply Hk|done..].
  - eapply facts_ok_rows; [|exact Hf]. intros x Hx _. apply in_app_iff. by left.
Qed.

(** The service's commands on a reservation no delivery claimed, and its release once it ran out. *)
Lemma direct_step command now state r r' : rv_booking r' = rv_booking r -> rv_lease r' = rv_lease r -> rv_submission r' = rv_submission r ->
  transitionReservation (Reservation (rv_id r) (rv_state r)) command = Ok (Reservation (rv_id r) state) -> state <> rv_state r ->
  truthy (rv_deliveryId r) = None ->
  rv_outcome r' = Outcome_ state (if bool_decide (state = CONFIRMED) then Some now else oc_confirmedAt (rv_outcome r))
     (if bool_decide (state = RELEASED) then Some now else oc_releasedAt (rv_outcome r))
     (if bool_decide (state = REFUNDED) then Some now else oc_refundedAt (rv_outcome r))
     (oc_status (rv_outcome r)) (oc_terminalOutcome (rv_outcome r)) (oc_terminalOutcomeRef (rv_outcome r)) (oc_settledAt (rv_outcome r)) ->
  still_step r r'.
Proof.
  intros Hb Hl Hsu Ht Hne Hd Ho. split; [|done]. split; [done|]. intros p Hp Hr. pose proof (reachable_phase_wf _ _ Hr) as Hwf.
  assert (Hnd : forall d, d <> "" -> ls_deliveryId (rv_lease r) <> Some d).
  { intros d Hd0 He. unfold rv_deliveryId in Hd. by rewrite He, truthy_some in Hd. }
  unfold has_phase in *. rewrite Hl, Hsu, Ho. unfold rv_state in *.
  destruct r as [bo lo su ou]. cbn in *.
  destruct p as [|s c l f|h|h|h|[h|]|h]; cbn in Hp; injection Hp as -> -> ->; cbn in *;
    try (exfalso; eapply Hnd; [|reflexivity]; naive_solver).
  - destruct command as [| |[]]; cbn in Ht; try done; injection Ht as <-; eexists (Direct _ _ _ _);
      (split; [reflexivity|right; exists now; constructor]).
  - destruct Hwf as [(-> & [c' ->] & -> & ->)|[(-> & _ & _ & _)|(-> & _ & _ & _)]];
      destruct command as [| |[]]; cbn in Ht; try done; injection Ht as <-; try done; eexists (Direct _ _ _ _);
      (split; [reflexivity|right; exists now; constructor]).
  - destruct command as [| |[]]; cbn in Ht; try done; injection Ht as <-; done.
Qed.
