(* ===== verification/Governance.v ===== *)
(** * Governance: authorizing a contact and reserving it

    [ContactGovernanceService] of [apps/contact-governance/src/contact-governance-service.ts] over the
    tables of one tenant: [authorizeAndReserve] with its gates in the order it walks them, the rollout
    that chooses the policy reader, the shadow comparison, the callback it uses up, the reservation
    and the decision it writes; and the commands on a reservation. Each operation is one transaction
    under its advisory locks, so it is one step. *)
From stdpp Require Import base tactics list strings relations.
From Stdlib Require Import ZArith Lia Sorting.Permutation Sorting.Sorted.
From S2P Require Import Prelude JsMap Text JsDate JsValue Contracts ContactPolicy RuleRegistry ScopeKey Windows Cg3Facts Temporal ExceptionEval Cg3Evaluator Persistence Callbacks PolicyStore PolicyReader Rollout ExceptionStore FactLoader ReservationRuntime.

Open Scope string_scope.
Open Scope Z_scope.
Open Scope list_scope.

Definition RESERVATION_TTL_MS : Z := 15 * 60 * 1000.
Definition GOVERNANCE_KILL_SWITCH_ACTIVE : string := "GOVERNANCE_KILL_SWITCH_ACTIVE".

Definition review_reason_text (r : Cg4AuthorizationReviewReason) : string :=
  match r with
  | GOVERNANCE_VERSION_STALE => "GOVERNANCE_VERSION_STALE"
  | POLICY_ACTIVATION_PENDING => "POLICY_ACTIVATION_PENDING"
  | POLICY_ACTIVATION_CONFLICT => "POLICY_ACTIVATION_CONFLICT"
  | GOVERNANCE_POLICY_VERSION_UNSUPPORTED => "GOVERNANCE_POLICY_VERSION_UNSUPPORTED"
  | GOVERNANCE_STATE_UNAVAILABLE => "GOVERNANCE_STATE_UNAVAILABLE"
  | GOVERNANCE_SHADOW_MISMATCH => "GOVERNANCE_SHADOW_MISMATCH"
  end.

Definition resolution_text (r : IdentityResolution) : string :=
  match r with
  | ID_RESOLVED => "RESOLVED"
  | ID_AMBIGUOUS => "AMBIGUOUS"
  | ID_NOT_FOUND => "NOT_FOUND"
  | ID_IDENTITY_MAPPING_PENDING => "IDENTITY_MAPPING_PENDING"
  end.

(** [AuthorizeAndReserveInput]: either a contact, or why none is known. *)
Record AuthorizeAndReserveInput := AuthorizeInput {
  ai_contactId : option string;
  ai_identityId : option string;
  ai_identityResolution : option IdentityResolution;
  ai_channel : ContactChannel;
  ai_purpose : string;
  ai_source : string;
  ai_sourceId : string;
  ai_actionKey : string;
  ai_policyVersion : Z;
  ai_teamId : option string;
  ai_contactKind : option string;
  ai_senderIdentityId : option string;
}.

(** What the type of the input says: a caller without a contact says why, and never [RESOLVED]. *)
Definition well_typed (i : AuthorizeAndReserveInput) : Prop :=
  ai_identityResolution i <> Some ID_RESOLVED /\
  (is_Some (ai_contactId i) -> ai_identityResolution i = None).

(** ** Rows *)

Record RestrictionRow := RestrictionRow_ {
  rx_contactId : option string;
  rx_identityId : option string;
  rx_channel : option ContactChannel;
  rx_purpose : option string;
  rx_startsAt : Z;
  rx_expiresAt : option Z;
  rx_restriction : ActiveRestriction;
}.

Record ConsentRow := ConsentRow_ {
  cn_contactId : string;
  cn_identityId : option string;
  cn_purpose : string;
  cn_channel : ContactChannel;
  cn_status : ConsentStatus;
  cn_lawfulBasis : string;
  cn_expiresAt : option Z;
  cn_createdAt : Z;
}.

(** [Cg4DecisionTracePinsV1] *)
Record DecisionPins := DecisionPins_ {
  dp_contractVersion : Z;
  dp_policy : Cg4PolicyBinding;
  dp_decisionStateDigest : string;
  dp_appliedExceptions : list Cg4AppliedExceptionPin;
}.

(** A row of [cg_decision_logs]. *)
Record DecisionRow := DecisionRow_ {
  dl_id : string;
  dl_contactId : option string;
  dl_identityId : option string;
  dl_channel : ContactChannel;
  dl_purpose : string;
  dl_source : string;
  dl_sourceId : string;
  dl_teamId : option string;
  dl_actionKey : string;
  dl_inputHash : string;
  dl_decision : ContactDecision;
  dl_reasonCode : string;
  dl_policyVersion : Z;
  dl_gate : ContactPolicyGate;
  dl_trace : list ContactPolicyTraceEntry;
  dl_reservationId : option string;
  dl_decidedAt : Z;
  dl_aggregateVersion : option Z;
  dl_preferenceVersion : option Z;
  dl_nextEligibleAt : option Z;
  dl_timezoneSource : option string;
  dl_matchedScope : option MatchedScope;
  dl_matchedWindowRef : option string;
  dl_exceptionMode : option Cg3CallbackMode;
  dl_exceptionRef : option string;
  dl_cg4 : option DecisionPins;
}.

(** The tables of a tenant. Identifiers the service draws share the sequence of the callbacks'. *)
Record Governance := Governance_ {
  gv_exceptions : Store;
  gv_policies : PolicyStore;
  gv_preferences : list PreferenceRow;
  gv_cg3Policies : list Cg3PolicyRow;
  gv_holidays : list HolidayRow;
  gv_restrictions : list RestrictionRow;
  gv_consents : list ConsentRow;
  gv_rollout : RolloutTables;
  gv_callbacks : CallbackTables;
  gv_mismatches : list ShadowMismatch;
  gv_reservations : list ReservationRow;
  gv_facts : DeliveryFacts;
  gv_decisions : list DecisionRow;
}.

Definition fact_tables (g : Governance) : FactTables :=
  FactTables_ (gv_exceptions g) (gv_policies g) (gv_preferences g) (gv_cg3Policies g) (gv_holidays g)
    (cl_rows (gv_callbacks g)).

Inductive ServiceError :=
  | IdempotencyConflict (actionKey : string)
  | CallbackWrite (e : CallbackError)
  | CallbackMissing
  | ContactRequired
  | UnpinnedException
  | ReservationUniqueViolation
  | ReservationNotFound (reservationId : string)
  | DeliveryReconciliationRequired
  | InvalidReservationTransition
  | TransitionRefused (e : ReservationError)
  | NotUsable (code : string)
  | SweepLimit.
#[export] Instance ServiceError_eq_dec : EqDecision ServiceError.
Proof. solve_decision. Defined.

Abbreviation served := (result ServiceError).

(** [AuthorizationOutcome] *)
Record AuthorizationOutcome := Outcome {
  ao_decisionId : string;
  ao_decision : ContactDecision;
  ao_reasonCode : string;
  ao_policyVersion : Z;
  ao_trace : list ContactPolicyTraceEntry;
  ao_aggregateVersion : option Z;
  ao_preferenceVersion : option Z;
  ao_nextEligibleAt : option string;
  ao_timezoneSource : option string;
  ao_matchedScope : option MatchedScope;
  ao_matchedWindowRef : option string;
  ao_exceptionMode : option Cg3CallbackMode;
  ao_exceptionRef : option string;
  ao_cg4 : option DecisionPins;
  ao_reservation : option (string * string);
}.

(** [toOutcome] of a decision and the reservation its column points to. *)
Definition toOutcome (d : DecisionRow) (reservation : option ReservationRow) : AuthorizationOutcome :=
  {| ao_decisionId := dl_id d; ao_decision := dl_decision d; ao_reasonCode := dl_reasonCode d;
     ao_policyVersion := dl_policyVersion d; ao_trace := dl_trace d;
     ao_aggregateVersion := dl_aggregateVersion d; ao_preferenceVersion := dl_preferenceVersion d;
     ao_nextEligibleAt := toISOString <$> dl_nextEligibleAt d; ao_timezoneSource := truthy (dl_timezoneSource d);
     ao_matchedScope := dl_matchedScope d; ao_matchedWindowRef := truthy (dl_matchedWindowRef d);
     ao_exceptionMode := dl_exceptionMode d; ao_exceptionRef := truthy (dl_exceptionRef d); ao_cg4 := dl_cg4 d;
     ao_reservation := (fun r => (rv_id r, toISOString (rv_expiresAt r))) <$> reservation |}.

Definition find_reservation (g : Governance) (id : string) : option ReservationRow :=
  js_find (fun r => bool_decide (rv_id r = id)) (gv_reservations g).

Definition reservation_of (g : Governance) (d : DecisionRow) : option ReservationRow :=
  dl_reservationId d ≫= find_reservation g.

(** ** Scopes *)

(** What a kill switch is compared with: of a reservation, or of the input of a decision. *)
Record SwitchSubject := SwitchSubject_ {
  ss_contactId : string;
  ss_channel : string;
  ss_purpose : string;
  ss_source : string;
  ss_contactKind : option string;
}.

(** A bound dimension the subject does not know counts as covered. *)
Definition dimension_covers (bound actual : option string) : bool :=
  match bound, actual with
  | Some b, Some a => bool_decide (a = b)
  | _, _ => true
  end.

Definition killSwitchCoversReservation (scopeKey : string) (r : SwitchSubject) : bool :=
  if String.prefix "contact:" scopeKey then bool_decide (scopeKey = "contact:" +:+ ss_contactId r)
  else
    match parseCg4PolicyScopeKey scopeKey with
    | Err _ => true
    | Ok ds =>
        dimension_covers (sd_channel ds) (Some (ss_channel r)) &&
        dimension_covers (sd_contactKind ds) (ss_contactKind r) &&
        dimension_covers (sd_purpose ds) (Some (ss_purpose r)) &&
        dimension_covers (sd_sourceType ds) (Some (ss_source r))
    end.

(** [requestScopeKey] *)
Definition requestScopeKey (request : Cg4PolicyScopeDimensions) : string :=
  match buildCg4PolicyScopeKey request with
  | Ok key => key
  | Err _ => "channel=" +:+ default "*" (sd_channel request) +:+ "|purpose=" +:+ default "*" (sd_purpose request)
  end.

(** ** The baseline gates: identity, hard restriction, consent *)

(** [{ OR: [{ column: null }, { column: value }] }], and [{ column: null }] where no value is known. *)
Definition null_or_is {A} `{EqDecision A} (column value : option A) : bool :=
  match column with None => true | Some c => bool_decide (value = Some c) end.

(** The contact the input names, where the tenant has it. *)
Definition known_contact (g : Governance) (i : AuthorizeAndReserveInput) : option string :=
  match truthy (ai_contactId i) with
  | Some c => if includes (st_contacts (gv_exceptions g)) c then Some c else None
  | None => None
  end.

(** [identity]: of the contact named, whether or not the tenant knows the contact. *)
Definition known_identity (g : Governance) (i : AuthorizeAndReserveInput) : option string :=
  match truthy (ai_identityId i) with
  | Some id =>
      match ai_contactId i with
      | Some c => if includes (st_identities (gv_exceptions g)) (id, c) then Some id else None
      | None => if js_some (fun p => bool_decide (fst p = id)) (st_identities (gv_exceptions g)) then Some id else None
      end
  | None => None
  end.

Definition identity_resolution (g : Governance) (i : AuthorizeAndReserveInput) : IdentityResolution :=
  match ai_identityResolution i with
  | Some r => r
  | None =>
      if bool_decide (known_contact g i = None) ||
         (bool_decide (is_Some (truthy (ai_identityId i))) && bool_decide (known_identity g i = None))
      then ID_NOT_FOUND else ID_RESOLVED
  end.

Definition restriction_applies (contactId : string) (i : AuthorizeAndReserveInput) (now : Z) (r : RestrictionRow) : bool :=
  (rx_startsAt r <=? now) && null_or_is (rx_contactId r) (Some contactId) &&
  null_or_is (rx_identityId r) (truthy (ai_identityId i)) &&
  null_or_is (rx_channel r) (Some (ai_channel i)) && null_or_is (rx_purpose r) (Some (ai_purpose i)) &&
  match rx_expiresAt r with None => true | Some t => now <? t end.

(** The restriction that started last. *)
Definition active_restriction (g : Governance) (i : AuthorizeAndReserveInput) (now : Z) : option ActiveRestriction :=
  match known_contact g i with
  | None => None
  | Some c =>
      rx_restriction <$> head (sort_by (fun a b => rx_startsAt b <=? rx_startsAt a)
                                 (js_filter (restriction_applies c i now) (gv_restrictions g)))
  end.

Definition consent_applies (contactId : string) (i : AuthorizeAndReserveInput) (c : ConsentRow) : bool :=
  bool_decide (cn_contactId c = contactId) && bool_decide (cn_purpose c = ai_purpose i) &&
  bool_decide (cn_channel c = ai_channel i) && null_or_is (cn_identityId c) (truthy (ai_identityId i)).

(** A consent that was granted and has run out counts as expired. *)
Definition consent_facts (now : Z) (c : ConsentRow) : ConsentFacts :=
  Consent
    (if bool_decide (cn_status c = GRANTED) && match cn_expiresAt c with Some t => t <=? now | None => false end
     then EXPIRED else cn_status c)
    (cn_lawfulBasis c).

Definition current_consent (g : Governance) (i : AuthorizeAndReserveInput) (now : Z) : option ConsentFacts :=
  match known_contact g i with
  | Some c =>
      if bool_decide (identity_resolution g i = ID_RESOLVED)
      then consent_facts now <$> head (sort_by (fun a b => cn_createdAt b <=? cn_createdAt a)
                                         (js_filter (consent_applies c i) (gv_consents g)))
      else None
  | None => None
  end.

Definition baseline (g : Governance) (i : AuthorizeAndReserveInput) (now : Z) : ContactPolicyResult :=
  evaluateContactPolicy (PolicyFacts (ai_policyVersion i) (identity_resolution g i)
    (active_restriction g i now) (current_consent g i now)).

(** The last entry of a trace that allowed is now one that passed. *)
Fixpoint last_allow_passes (trace : list ContactPolicyTraceEntry) : list ContactPolicyTraceEntry :=
  match trace with
  | [] => []
  | [e] => [if bool_decide (te_outcome e = O_ALLOW) then TraceEntry (te_gate e) O_PASS None else e]
  | e :: rest => e :: last_allow_passes rest
  end.

Definition switch_subject (contactId : string) (i : AuthorizeAndReserveInput) : SwitchSubject :=
  SwitchSubject_ contactId (channel_name (ai_channel i)) (ai_purpose i) (ai_source i) (ai_contactKind i).

Definition kill_switch_covers (g : Governance) (s : SwitchSubject) : bool :=
  js_some (fun k => ks_active k && killSwitchCoversReservation (ks_scopeKey k) s) (ps_switches (gv_policies g)).

(** ** The policy gate, by the reader of the rollout *)

Section Decide.
Context `{Runtime, Host}.

(** The closure [evaluate]. *)
Definition evaluate_with (i : AuthorizeAndReserveInput) (facts : Cg3Facts) (now : Z) (policy : option Cg3PolicyFacts)
  : Cg3GateOutcome :=
  evaluateCg3Policy
    {| in_now := now; in_identityId := ai_identityId i; in_channel := ai_channel i; in_purpose := ai_purpose i;
       in_contactKind := ai_contactKind i; in_senderIdentityId := ai_senderIdentityId i;
       in_customerExplicitTimezone := None; in_customer360Timezone := None; in_tenantDefaultTimezone := None;
       in_preferences := fa_preferences facts; in_policy := policy; in_activeCallback := fa_activeCallback facts;
       in_source := Some (ai_source i); in_sourceId := Some (ai_sourceId i);
       in_activeExceptions := fa_activeExceptions facts |}.

Definition request_scope (i : AuthorizeAndReserveInput) : Cg4PolicyScopeDimensions :=
  cg4PolicyRequestScope (channel_name (ai_channel i)) (ai_purpose i) (ai_contactKind i) (Some (ai_source i)).

Definition read_policy (read : Cg4PolicyReadResult) : option Cg3PolicyFacts :=
  match read with READ_RESOLVED facts _ _ _ => Some facts | _ => None end.

Definition read_binding (read : Cg4PolicyReadResult) : option Cg4PolicyBinding :=
  match read with READ_RESOLVED _ binding _ _ => Some binding | _ => None end.

Definition read_outcome_text (read : Cg4PolicyReadResult) : string :=
  match read with
  | READ_RESOLVED _ _ _ _ => "RESOLVED"
  | READ_UNCONFIGURED => "UNCONFIGURED"
  | READ_FAIL_CLOSED _ _ => "FAIL_CLOSED"
  end.

(** [shadowOutcome] *)
Definition shadowOutcome (read : Cg4PolicyReadResult) (evaluate : option Cg3PolicyFacts -> Cg3GateOutcome)
  : Cg3GateOutcome :=
  match read with
  | READ_FAIL_CLOSED reason _ => cg4PolicyFailClosedOutcome G_POLICY_HEAD (review_reason_text reason)
  | _ => evaluate (read_policy read)
  end.

(** What the policy gate leaves behind: its outcome, the head's binding, the version it evaluated and
    the mismatch it recorded. *)
Record Gated := Gated_ {
  gt_outcome : Cg3GateOutcome;
  gt_headBinding : option Cg4PolicyBinding;
  gt_policyVersion : option Z;
  gt_mismatch : option ShadowMismatch;
}.

Definition policy_gate (g : Governance) (i : AuthorizeAndReserveInput) (facts : Cg3Facts) (decisionId mismatchId : string)
  (now : Z) : Gated :=
  let evaluate := evaluate_with i facts now in
  let request := request_scope i in
  let reader := cg4PolicyReaderFor (loadCg4RolloutState (gv_rollout g)) request in
  let read := loadCg4PolicyFacts (gv_policies g) request now in
  let cg3Version := pf_version <$> fa_policy facts in
  match rd_mode reader with
  | R_CG4 =>
      match read with
      | READ_FAIL_CLOSED _ _ => Gated_ (shadowOutcome read evaluate) None None None
      | _ => Gated_ (shadowOutcome read evaluate) (read_binding read) (pb_policyVersion <$> read_binding read) None
      end
  | R_CG3 => Gated_ (evaluate (fa_policy facts)) None cg3Version None
  | R_CG3_WITH_SHADOW =>
      let cg3 := evaluate (fa_policy facts) in
      let cg3Digest := cg4ShadowDecisionDigest cg3 in
      let cg4Digest := cg4ShadowDecisionDigest (shadowOutcome read evaluate) in
      if bool_decide (cg3Digest = cg4Digest) then Gated_ cg3 None cg3Version None
      else
        Gated_ (if rd_pilot reader
                then cg4PolicyFailClosedOutcome G_MIGRATION_SHADOW (review_reason_text GOVERNANCE_SHADOW_MISMATCH)
                else cg3)
          None cg3Version
          (Some (ShadowMismatch_ mismatchId decisionId (requestScopeKey request) (rd_pilot reader) cg3Digest cg4Digest
                   cg3Version (pb_policyVersionId <$> read_binding read) (read_outcome_text read) now))
  end.

(** [cg4Pins] *)
Definition binding_value (b : Cg4PolicyBinding) : jsval :=
  JObj [("policyId", JStr (pb_policyId b)); ("policyVersionId", JStr (pb_policyVersionId b));
        ("policyVersion", JNum (NInt (pb_policyVersion b))); ("policyContentDigest", JStr (pb_policyContentDigest b));
        ("policySchemaVersion", JNum (NInt (pb_policySchemaVersion b)));
        ("ruleRegistryVersion", JStr (pb_ruleRegistryVersion b)); ("evaluatorVersion", JStr (pb_evaluatorVersion b))].

Definition pin_value (p : Cg4AppliedExceptionPin) : jsval :=
  JObj [("seriesId", JStr (pin_seriesId p)); ("revisionId", JStr (pin_revisionId p));
        ("version", JNum (NInt (pin_version p))); ("contentDigest", JStr (pin_contentDigest p));
        ("approvalDigest", JStr (pin_approvalDigest p)); ("matchedRuleCode", JStr (pin_matchedRuleCode p))].

Definition decision_pins (facts : Cg3Facts) (gated : Gated) : served (option DecisionPins) :=
  let applied := go_appliedExceptions (gt_outcome gated) in
  let pin policy :=
    Some (DecisionPins_ CG4_CONTRACT_VERSION policy
            (stableDigest (JObj [("policy", binding_value policy); ("appliedExceptions", JArr (map pin_value applied))]))
            applied) in
  match gt_headBinding gated, applied with
  | Some binding, _ => Ok (pin binding)
  | None, [] => Ok None
  | None, first :: _ =>
      match js_find (fun e => bool_decide (ef_revisionId e = pin_revisionId first)) (fa_activeExceptions facts) with
      | Some e => Ok (pin (toCg4PolicyBinding e))
      | None => Err UnpinnedException
      end
  end.

(** The callback a decision uses up. *)
Definition consume_callback (rows : list CallbackRow) (consumed : option string) (decisionId id : string)
  : served (list CallbackRow) :=
  match consumed with
  | None => Ok rows
  | Some requestId =>
      match js_find (fun c => bool_decide (cq_id c = requestId)) rows with
      | None => Err CallbackMissing
      | Some original =>
          match insert_callback rows (consume_row original decisionId id) with
          | Ok rows' => Ok rows'
          | Err e => Err (CallbackWrite e)
          end
      end
  end.

(** What the gates decided, and the columns of the decision they fill. *)
Record Verdict := Verdict_ {
  ve_decision : ContactDecision;
  ve_reasonCode : string;
  ve_trace : list ContactPolicyTraceEntry;
  ve_aggregateVersion : option Z;
  ve_policyVersion : option Z;
  ve_outcome : option Cg3GateOutcome;
  ve_pins : option DecisionPins;
  ve_mismatch : option ShadowMismatch;
}.

Definition fact_query (contactId : string) (i : AuthorizeAndReserveInput) (now : Z) : Cg3FactQuery :=
  FactQuery contactId (ai_identityId i) (ai_channel i) (ai_purpose i) (ai_contactKind i) now.

(** From the baseline to the verdict. *)
Definition judge (g : Governance) (i : AuthorizeAndReserveInput) (decisionId mismatchId : string) (now : Z) : served Verdict :=
  let policyResult := baseline g i now in
  let plain := Verdict_ (cpr_decision policyResult) (cpr_reasonCode policyResult) (cpr_trace policyResult)
                 None None None None None in
  match cpr_decision policyResult, truthy (ai_contactId i) with
  | ALLOW, Some contactId =>
      if kill_switch_covers g (switch_subject contactId i) then
        Ok (Verdict_ REVIEW GOVERNANCE_KILL_SWITCH_ACTIVE
              (last_allow_passes (cpr_trace policyResult) ++
               [TraceEntry G_KILL_SWITCH O_REVIEW (Some GOVERNANCE_KILL_SWITCH_ACTIVE)])
              None None None None None)
      else
        let facts := loadCg3Facts (fact_tables g) (fact_query contactId i now) in
        let gated := policy_gate g i facts decisionId mismatchId now in
        let cg3 := gt_outcome gated in
        pins ← decision_pins facts gated;
        Ok {| ve_decision := default ALLOW (go_decision cg3);
              ve_reasonCode := match go_decision cg3 with
                               | Some _ => default "" (go_reasonCode cg3)
                               | None => "POLICY_PASSED"
                               end;
              ve_trace := last_allow_passes (cpr_trace policyResult) ++ go_trace cg3;
              ve_aggregateVersion := Some (fa_aggregateVersion facts);
              ve_policyVersion := gt_policyVersion gated;
              ve_outcome := Some cg3; ve_pins := pins; ve_mismatch := gt_mismatch gated |}
  | _, _ => Ok plain
  end.

(** [hashAuthorizationInput] *)
Definition hashAuthorizationInput (i : AuthorizeAndReserveInput) : string :=
  sha256_hex (json_print (JObj
    ([("actionKey", JStr (ai_actionKey i)); ("channel", JStr (channel_name (ai_channel i)))] ++
     match ai_contactId i with Some c => [("contactId", JStr c)] | None => [] end ++
     [("identityId", text_or_null (ai_identityId i)); ("policyVersion", JNum (NInt (ai_policyVersion i)));
      ("purpose", JStr (ai_purpose i)); ("source", JStr (ai_source i)); ("sourceId", JStr (ai_sourceId i));
      ("teamId", text_or_null (ai_teamId i)); ("contactKind", text_or_null (ai_contactKind i));
      ("senderIdentityId", text_or_null (ai_senderIdentityId i))] ++
     match ai_identityResolution i with Some r => [("identityResolution", JStr (resolution_text r))] | None => [] end))).

(** The latest decision on an action. *)
Definition decided (g : Governance) (actionKey : string) : option DecisionRow :=
  head (sort_by (fun a b => dl_decidedAt b <=? dl_decidedAt a)
          (js_filter (fun d => bool_decide (dl_actionKey d = actionKey)) (gv_decisions g))).

(** The reservation an allowed action gets; its decision is linked in the same transaction. *)
Definition new_reservation (i : AuthorizeAndReserveInput) (contactId : string) (v : Verdict) (id decisionId : string)
  (now : Z) : ReservationRow :=
  ReservationRow_
    {| bk_id := id; bk_contactId := contactId; bk_identityId := ai_identityId i; bk_channel := ai_channel i;
       bk_purpose := ai_purpose i; bk_source := ai_source i; bk_sourceId := ai_sourceId i; bk_teamId := ai_teamId i;
       bk_actionKey := ai_actionKey i; bk_inputHash := hashAuthorizationInput i; bk_expiresAt := now + RESERVATION_TTL_MS;
       bk_authorizationAggregateVersion := ve_aggregateVersion v; bk_authorizationPolicyVersion := ve_policyVersion v;
       bk_authorizationContactKind := ai_contactKind i; bk_authorizationContextVersion := 1;
       bk_authorizationDecisionId := Some decisionId |}
    (Lease None None None None) (Submission None None)
    (Outcome_ RESERVED None None None (Some T_UNCLAIMED) None None None).

(** The insert, with the unique action key of the table. *)
Definition reserve (g : Governance) (i : AuthorizeAndReserveInput) (v : Verdict) (id decisionId : string) (now : Z)
  : served (option ReservationRow) :=
  match ve_decision v with
  | ALLOW =>
      match truthy (ai_contactId i) with
      | None => Err ContactRequired
      | Some contactId =>
          throw_if (js_some (fun r => bool_decide (rv_actionKey r = ai_actionKey i) || bool_decide (rv_id r = id))
                      (gv_reservations g)) ReservationUniqueViolation ;;
          Ok (Some (new_reservation i contactId v id decisionId now))
      end
  | _ => Ok None
  end.

Definition new_decision (g : Governance) (i : AuthorizeAndReserveInput) (v : Verdict) (id : string)
  (reservation : option ReservationRow) (now : Z) : DecisionRow :=
  {| dl_id := id; dl_contactId := known_contact g i; dl_identityId := known_identity g i; dl_channel := ai_channel i;
     dl_purpose := ai_purpose i; dl_source := ai_source i; dl_sourceId := ai_sourceId i; dl_teamId := ai_teamId i;
     dl_actionKey := ai_actionKey i; dl_inputHash := hashAuthorizationInput i; dl_decision := ve_decision v;
     dl_reasonCode := ve_reasonCode v; dl_policyVersion := cpr_policyVersion (baseline g i now);
     dl_gate := match last (ve_trace v) with Some e => te_gate e | None => G_IDENTITY end; dl_trace := ve_trace v;
     dl_reservationId := rv_id <$> reservation; dl_decidedAt := now; dl_aggregateVersion := ve_aggregateVersion v;
     dl_preferenceVersion := ve_outcome v ≫= go_preferenceVersion;
     dl_nextEligibleAt := (o ← ve_outcome v; t ← truthy (go_nextEligibleAt o); date_parse t);
     dl_timezoneSource := ve_outcome v ≫= go_timezoneSource; dl_matchedScope := ve_outcome v ≫= go_matchedScope;
     dl_matchedWindowRef := ve_outcome v ≫= go_matchedWindowRef; dl_exceptionMode := ve_outcome v ≫= go_exceptionMode;
     dl_exceptionRef := ve_outcome v ≫= go_exceptionRef; dl_cg4 := ve_pins v |}.

(** [authorizeAndReserve] *)
Definition authorizeAndReserve (g : Governance) (i : AuthorizeAndReserveInput) (now : Z)
  : served (AuthorizationOutcome * Governance) :=
  match decided g (ai_actionKey i) with
  | Some existing =>
      throw_if (negb (bool_decide (dl_inputHash existing = hashAuthorizationInput i))) (IdempotencyConflict (ai_actionKey i)) ;;
      Ok (toOutcome existing (reservation_of g existing), g)
  | None =>
      let next := cl_nextId (gv_callbacks g) in
      let decisionId := fresh next in
      verdict ← judge g i decisionId (fresh (1 + next)) now;
      rows ← consume_callback (cl_rows (gv_callbacks g)) (ve_outcome verdict ≫= go_consumedCallbackRequestId)
               decisionId (fresh (2 + next));
      reservation ← reserve g i verdict (fresh (3 + next)) decisionId now;
      let created := new_decision g i verdict decisionId reservation now in
      let g' :=
        {| gv_exceptions := gv_exceptions g; gv_policies := gv_policies g; gv_preferences := gv_preferences g;
           gv_cg3Policies := gv_cg3Policies g; gv_holidays := gv_holidays g; gv_restrictions := gv_restrictions g;
           gv_consents := gv_consents g; gv_rollout := gv_rollout g;
           gv_callbacks := CallbackTables_ rows (cl_receipts (gv_callbacks g)) (cl_audit (gv_callbacks g)) (4 + next);
           gv_mismatches := gv_mismatches g ++ match ve_mismatch verdict with Some m => [m] | None => [] end;
           gv_reservations := gv_reservations g ++ match reservation with Some r => [r] | None => [] end;
           gv_facts := gv_facts g;
           gv_decisions := gv_decisions g ++ [created] |} in
      Ok (toOutcome created reservation, g')
  end.
End Decide.

(** ** Commands on a reservation *)

(** The same tables with other reservations. *)
Definition with_reservations (rows : list ReservationRow) (g : Governance) : Governance :=
  Governance_ (gv_exceptions g) (gv_policies g) (gv_preferences g) (gv_cg3Policies g) (gv_holidays g)
    (gv_restrictions g) (gv_consents g) (gv_rollout g) (gv_callbacks g) (gv_mismatches g) rows (gv_facts g) (gv_decisions g).

(** The [data] of [changeReservationState]. *)
Definition moved_to (state : ReservationState) (now : Z) (r : ReservationRow) : ReservationRow :=
  let o := rv_outcome r in
  ReservationRow_ (rv_booking r) (rv_lease r) (rv_submission r)
    (Outcome_ state (if bool_decide (state = CONFIRMED) then Some now else oc_confirmedAt o)
       (if bool_decide (state = RELEASED) then Some now else oc_releasedAt o)
       (if bool_decide (state = REFUNDED) then Some now else oc_refundedAt o)
       (oc_status o) (oc_terminalOutcome o) (oc_terminalOutcomeRef o) (oc_settledAt o)).

Definition changeReservationState (g : Governance) (reservationId : string) (command : ReservationCommand) (now : Z)
  : served (ReservationRow * Governance) :=
  current ← from_option (find_reservation g reservationId) (ReservationNotFound reservationId);
  throw_if (bool_decide (is_Some (truthy (rv_deliveryId current))))
    (if bool_decide (is_Some (rv_submissionStartedAt current)) || bool_decide (is_Some (truthy (rv_providerRequestKey current)))
     then DeliveryReconciliationRequired else InvalidReservationTransition) ;;
  match transitionReservation (Reservation (rv_id current) (rv_state current)) command with
  | Err e => Err (TransitionRefused e)
  | Ok next =>
      if bool_decide (rs_state next = rv_state current) then Ok (current, g)
      else Ok (moved_to (rs_state next) now current,
               with_reservations (update_where (reservation_by (rv_id current)) (moved_to (rs_state next) now)
                                    (gv_reservations g)) g)
  end.

Definition validateReservationForDelivery (g : Governance) (reservationId : string) (now : Z) : served ReservationRow :=
  reservation ← from_option (find_reservation g reservationId) (NotUsable "RESERVATION_NOT_FOUND");
  throw_if (negb (bool_decide (rv_state reservation = RESERVED))) (NotUsable "RESERVATION_NOT_RESERVED") ;;
  throw_if (rv_expiresAt reservation <=? now) (NotUsable "RESERVATION_EXPIRED") ;;
  Ok reservation.

(** The [expired] rows of the sweep. *)
Definition lapsed (now : Z) (r : ReservationRow) : bool :=
  bool_decide (rv_state r = RESERVED) && bool_decide (rv_submissionStartedAt r = None) &&
  bool_decide (rv_providerRequestKey r = None) &&
  match rv_settlementStatus r with None | Some T_UNCLAIMED | Some T_CLAIMED => true | _ => false end &&
  (lapses_at r <=? now).

Definition swept (now : Z) (r : ReservationRow) : ReservationRow := released now r.

Definition lapse_before (a b : ReservationRow) : bool :=
  if lapses_at a =? lapses_at b then str_le (rv_id a) (rv_id b) else lapses_at a <=? lapses_at b.

(** [releaseExpiredReservations]: the number of rows released. One statement, which locks the rows it takes and
    leaves out those another transaction has locked; it holds no advisory lock, so a delivery command may have
    read a row before and write to it after ([DeliveryTheorems.sweep_races_submission]). Here, and as a step of
    the histories, it runs between commands. *)
Definition releaseExpiredReservations (g : Governance) (limit now : Z) : served (Z * Governance) :=
  throw_if ((limit <? 1) || (500 <? limit)) SweepLimit ;;
  let expired := firstn (Z.to_nat limit) (sort_by lapse_before (js_filter (lapsed now) (gv_reservations g))) in
  Ok (Z.of_nat (length expired),
      with_reservations (update_where (fun r => includes (map rv_id expired) (rv_id r)) (swept now) (gv_reservations g)) g).

(** ** The runtime over the tenant's tables *)

Definition runtime_of (g : Governance) : RuntimeTables := RuntimeTables_ (gv_reservations g) (gv_facts g).

Definition with_runtime (t : RuntimeTables) (g : Governance) : Governance :=
  Governance_ (gv_exceptions g) (gv_policies g) (gv_preferences g) (gv_cg3Policies g) (gv_holidays g)
    (gv_restrictions g) (gv_consents g) (gv_rollout g) (gv_callbacks g) (gv_mismatches g) (rt_reservations t) (rt_facts t)
    (gv_decisions g).
