(* ===== verification/GovernanceSystem.v ===== *)
(** * GovernanceSystem: histories of a tenant's contact governance

    The operations of [Governance] interleaved with those of the components it reads: callback
    requests, the exception lifecycle, the policy studio, the rollout, the reservation runtime and the
    other facts of the tenant; and what every history keeps: one decision and at most one reservation
    per action, and callbacks used at most once. *)
From stdpp Require Import base tactics list strings relations.
From Stdlib Require Import ZArith Lia Sorting.Permutation Sorting.Sorted.
From S2P Require Import Prelude JsMap Text JsDate JsValue Contracts ContactPolicy RuleRegistry ScopeKey Windows Cg3Facts Temporal ExceptionEval Cg3Evaluator Persistence Callbacks PolicyStore PolicyLifecycle PolicySystem PolicyReader Rollout ExceptionStore ExceptionSystem FactLoader ReservationRuntime DeliveryCommands Governance.

Open Scope string_scope.
Open Scope Z_scope.
Open Scope list_scope.

(** The tables, and the exception and policy commands that wait for their lock. *)
Record Tenant := Tenant_ {
  tn_tables : Governance;
  tn_exceptions : list (TransitionCg4ExceptionInput * Begun);
  tn_policies : list pending;
}.

Definition with_callbacks (c : CallbackTables) (g : Governance) : Governance :=
  Governance_ (gv_exceptions g) (gv_policies g) (gv_preferences g) (gv_cg3Policies g) (gv_holidays g)
    (gv_restrictions g) (gv_consents g) (gv_rollout g) c (gv_mismatches g) (gv_reservations g) (gv_facts g) (gv_decisions g).

Definition with_exceptions (s : Store) (g : Governance) : Governance :=
  Governance_ s (gv_policies g) (gv_preferences g) (gv_cg3Policies g) (gv_holidays g)
    (gv_restrictions g) (gv_consents g) (gv_rollout g) (gv_callbacks g) (gv_mismatches g) (gv_reservations g) (gv_facts g) (gv_decisions g).

Definition with_studio (s : PolicyStore) (g : Governance) : Governance :=
  Governance_ (gv_exceptions g) s (gv_preferences g) (gv_cg3Policies g) (gv_holidays g)
    (gv_restrictions g) (gv_consents g) (gv_rollout g) (gv_callbacks g) (gv_mismatches g) (gv_reservations g) (gv_facts g) (gv_decisions g).

Definition with_rollout (r : RolloutTables) (g : Governance) : Governance :=
  Governance_ (gv_exceptions g) (gv_policies g) (gv_preferences g) (gv_cg3Policies g) (gv_holidays g)
    (gv_restrictions g) (gv_consents g) r (gv_callbacks g) (gv_mismatches g) (gv_reservations g) (gv_facts g) (gv_decisions g).

(** The evidence a rollout command finds in the tables. *)
Definition evidence_of (g : Governance) (ledger : Z) : Evidence :=
  Evidence_ ledger (gv_mismatches g) (cl_rows (gv_callbacks g)) (map_keys (st_heads (gv_exceptions g))).

Section Steps.
Context `{Runtime, Host}.

Inductive governance_step : Tenant -> Tenant -> Prop :=
  | G_authorize g es ps i now o g' :
      authorizeAndReserve g i now = Ok (o, g') -> governance_step (Tenant_ g es ps) (Tenant_ g' es ps)
  | G_request g es ps i now r c :
      request (st_contacts (gv_exceptions g)) (st_identities (gv_exceptions g)) (gv_callbacks g) i now = Ok (r, c) ->
      governance_step (Tenant_ g es ps) (Tenant_ (with_callbacks c g) es ps)
  | G_change g es ps id command now r g' :
      changeReservationState g id command now = Ok (r, g') -> governance_step (Tenant_ g es ps) (Tenant_ g' es ps)
  | G_sweep g es ps limit now n g' :
      releaseExpiredReservations g limit now = Ok (n, g') -> governance_step (Tenant_ g es ps) (Tenant_ g' es ps)
  | G_runtime g es ps t :
      runtime_step (ExceptionStore.contact_version (gv_exceptions g)) (runtime_of g) t ->
      governance_step (Tenant_ g es ps) (Tenant_ (with_runtime t g) es ps)
  | G_exceptions g es ps s es' :
      ExceptionSystem.step (System_ (gv_exceptions g) es) (System_ s es') ->
      governance_step (Tenant_ g es ps) (Tenant_ (with_exceptions s g) es' ps)
  | G_studio g es ps s ps' :
      PolicySystem.step (PolicySystem_ (gv_policies g) ps) (PolicySystem_ s ps') ->
      governance_step (Tenant_ g es ps) (Tenant_ (with_studio s g) es ps')
  | G_transition g es ps ledger input q now t s :
      Rollout.transition (gv_rollout g) (evidence_of g ledger) input q now = Ok (t, s) ->
      governance_step (Tenant_ g es ps) (Tenant_ (with_rollout t g) es ps)
  | G_freeze g es ps input frozen now t s :
      setFrozen (gv_rollout g) input frozen now = Ok (t, s) ->
      governance_step (Tenant_ g es ps) (Tenant_ (with_rollout t g) es ps)
  | G_facts g es ps preferences policies holidays restrictions consents :
      governance_step (Tenant_ g es ps)
        (Tenant_ (Governance_ (gv_exceptions g) (gv_policies g) preferences policies holidays restrictions consents
                    (gv_rollout g) (gv_callbacks g) (gv_mismatches g) (gv_reservations g) (gv_facts g) (gv_decisions g)) es ps).

Definition governance_steps : Tenant -> Tenant -> Prop := rtc governance_step.

(** A tenant before its first command: its contacts and identities, the CG4 policies its exceptions
    bind, and any facts. *)
Definition new_tenant (n : Tenant) : Prop :=
  ExceptionSystem.initial (System_ (gv_exceptions (tn_tables n)) (tn_exceptions n)) /\
  PolicySystem.initial (PolicySystem_ (gv_policies (tn_tables n)) (tn_policies n)) /\
  gv_rollout (tn_tables n) = empty_rollout /\ gv_callbacks (tn_tables n) = CallbackTables_ [] [] [] 0 /\
  gv_mismatches (tn_tables n) = [] /\ gv_reservations (tn_tables n) = [] /\
  gv_facts (tn_tables n) = no_facts /\ gv_decisions (tn_tables n) = [].

Definition governed (n : Tenant) : Prop := exists n0, new_tenant n0 /\ governance_steps n0 n.

(** ** The components of a history are histories of the components *)

Lemma step_components n n' : governance_step n n' ->
  rtc ExceptionSystem.step (System_ (gv_exceptions (tn_tables n)) (tn_exceptions n))
    (System_ (gv_exceptions (tn_tables n')) (tn_exceptions n')) /\
  rtc PolicySystem.step (PolicySystem_ (gv_policies (tn_tables n)) (tn_policies n))
    (PolicySystem_ (gv_policies (tn_tables n')) (tn_policies n')) /\
  rollout_steps (gv_rollout (tn_tables n)) (gv_rollout (tn_tables n')).
Proof.
  intros Hs. destruct Hs as [g es ps i now o g' Hok|g es ps i now r c Hok|g es ps id command now r g' Hok
    |g es ps limit now k g' Hok|g es ps t Hr|g es ps s es' Hs|g es ps s ps' Hs|g es ps ledger input q now t s Hok
    |g es ps input frozen now t s Hok|]; cbn; try done.
  - unfold authorizeAndReserve in Hok. destruct (decided g (ai_actionKey i)) as [d|].
    + apply bind_throw_if_ok in Hok as [_ [= _ <-]]. done.
    + open_bind Hok v Hv. open_bind Hok rows Hrows. open_bind Hok r Hr. by injection Hok as _ <-.
  - unfold changeReservationState in Hok. open_bind Hok cur Hcur. apply bind_throw_if_ok in Hok as [_ Hok].
    destruct (transitionReservation _ _) as [nx|]; [|done]. case_bool_decide; by injection Hok as _ <-.
  - unfold releaseExpiredReservations in Hok. apply bind_throw_if_ok in Hok as [_ [= _ <-]]. done.
  - split; [by apply rtc_once|done].
  - split; [done|]. split; [by apply rtc_once|done].
  - do 2 (split; [done|]). apply rtc_once. by eapply Step_transition.
  - do 2 (split; [done|]). apply rtc_once. by eapply Step_freeze.
Qed.

Lemma governed_components n : governed n ->
  ExceptionSystem.reachable (System_ (gv_exceptions (tn_tables n)) (tn_exceptions n)) /\
  PolicySystem.reachable (PolicySystem_ (gv_policies (tn_tables n)) (tn_policies n)) /\
  rollout_steps empty_rollout (gv_rollout (tn_tables n)).
Proof.
  intros (n0 & (Hex & Hpo & Hro & _) & Hs). rewrite <- Hro. unfold ExceptionSystem.reachable, PolicySystem.reachable.
  unfold PolicySystem.initial in Hpo. rewrite <- Hpo.
  assert (Hm : rtc ExceptionSystem.step (System_ (gv_exceptions (tn_tables n0)) (tn_exceptions n0))
      (System_ (gv_exceptions (tn_tables n)) (tn_exceptions n)) /\
    rtc PolicySystem.step (PolicySystem_ (gv_policies (tn_tables n0)) (tn_policies n0))
      (PolicySystem_ (gv_policies (tn_tables n)) (tn_policies n)) /\
    rollout_steps (gv_rollout (tn_tables n0)) (gv_rollout (tn_tables n))).
  { clear Hex Hpo Hro. induction Hs as [n|n1 n2 n3 H12 _ (IH1 & IH2 & IH3)]; [done|].
    destruct (step_components _ _ H12) as (C1 & C2 & C3). split; [by etrans|]. split; [by etrans|].
    unfold rollout_steps in *. by etrans. }
  destruct Hm as (H1 & H2 & H3). split; [by eauto|done].
Qed.
End Steps.

(** ** One decision *)

Section Decisions.
Context `{Runtime, Host}.
Implicit Types (g : Governance) (i : AuthorizeAndReserveInput).

(** The tables after a decision that was not there before. *)
Record decided_by g i now (v : Verdict) (r : option ReservationRow) (rows : list CallbackRow) g' : Prop := {
  db_judge : judge g i (fresh (cl_nextId (gv_callbacks g))) (fresh (1 + cl_nextId (gv_callbacks g))) now = Ok v;
  db_consume : consume_callback (cl_rows (gv_callbacks g)) (ve_outcome v ≫= go_consumedCallbackRequestId)
                 (fresh (cl_nextId (gv_callbacks g))) (fresh (2 + cl_nextId (gv_callbacks g))) = Ok rows;
  db_reserve : reserve g i v (fresh (3 + cl_nextId (gv_callbacks g))) (fresh (cl_nextId (gv_callbacks g))) now = Ok r;
  db_rows : cl_rows (gv_callbacks g') = rows;
  db_reservations : gv_reservations g' = gv_reservations g ++ match r with Some x => [x] | None => [] end;
  db_decisions : gv_decisions g' = gv_decisions g ++ [new_decision g i v (fresh (cl_nextId (gv_callbacks g))) r now];
}.

Lemma authorize_cases g i now o g' : authorizeAndReserve g i now = Ok (o, g') ->
  (exists d, decided g (ai_actionKey i) = Some d /\ dl_inputHash d = hashAuthorizationInput i /\
     o = toOutcome d (reservation_of g d) /\ g' = g) \/
  (decided g (ai_actionKey i) = None /\ exists v r rows, decided_by g i now v r rows g' /\
     o = toOutcome (new_decision g i v (fresh (cl_nextId (gv_callbacks g))) r now) r).
Proof.
  unfold authorizeAndReserve. destruct (decided g (ai_actionKey i)) as [d|] eqn:Ed; intros Hok.
  - apply bind_throw_if_ok in Hok as [Hh [= <- <-]]. bool_prop. left. eauto 10.
  - open_bind Hok v Hv. open_bind Hok rows Hrows. open_bind Hok r Hr. injection Hok as <- <-.
    right. split; [done|]. exists v, r, rows. split; [by constructor|done].
Qed.

Lemma decided_none g k : decided g k = None <-> ~ In k (map dl_actionKey (gv_decisions g)).
Proof.
  unfold decided. rewrite in_map_iff. destruct (sort_by _ _) as [|d l] eqn:E; cbn.
  - split; [|done]. intros _ (d & Hk & Hd). assert (Hin : In d []); [|done]. rewrite <- E, sort_by_In, filter_In.
    by rewrite bool_decide_eq_true_2.
  - split; [done|]. intros Hn. exfalso. apply Hn. assert (Hin : In d (d :: l)) by by left.
    rewrite <- E, sort_by_In, filter_In in Hin. destruct Hin as [Hd Hk]. bool_prop. by exists d.
Qed.

Lemma decided_some g k d : decided g k = Some d -> In d (gv_decisions g) /\ dl_actionKey d = k.
Proof.
  unfold decided. intros Hd. destruct (sort_by _ _) as [|d' l] eqn:E; [done|]. injection Hd as ->.
  assert (Hin : In d (d :: l)) by by left. rewrite <- E, sort_by_In, filter_In in Hin.
  destruct Hin as [Hd Hk]. by bool_prop.
Qed.

(** The baseline allows a known contact that no restriction holds back and that consented. *)
Definition baseline_open g i now (contactId : string) : Prop :=
  known_contact g i = Some contactId /\ identity_resolution g i = ID_RESOLVED /\
  active_restriction g i now = None /\ exists c, current_consent g i now = Some c /\ co_status c = GRANTED.

Lemma known_contact_truthy g i c : known_contact g i = Some c ->
  truthy (ai_contactId i) = Some c /\ In c (st_contacts (gv_exceptions g)).
Proof.
  unfold known_contact. destruct (truthy _) as [c'|]; [|done].
  destruct (includes _ c') eqn:E; [|done]. intros [= ->]. by apply includes_spec in E.
Qed.

Lemma baseline_allows g i now :
  cpr_decision (baseline g i now) = ALLOW <-> exists c, baseline_open g i now c.
Proof.
  unfold baseline, baseline_open, evaluateContactPolicy. cbn -[active_restriction current_consent identity_resolution known_contact].
  split.
  - destruct (identity_resolution g i) eqn:Ei; try done.
    destruct (active_restriction g i now) eqn:Er; [done|].
    destruct (current_consent g i now) as [c|] eqn:Ec; [|done]. cbn. destruct (co_status c) eqn:Es; [|done..]. intros _.
    assert (Hk : known_contact g i <> None) by (unfold current_consent in Ec; by destruct (known_contact g i)).
    destruct (known_contact g i) as [k|]; [|done]. eauto 10.
  - intros (k & Hk & -> & -> & c & -> & Hs). cbn. by rewrite Hs.
Qed.

(** What [evaluate_with] evaluates. *)
Definition evaluation_input (i : AuthorizeAndReserveInput) (facts : Cg3Facts) (now : Z) (policy : option Cg3PolicyFacts)
  : Cg3EvaluationInput :=
  {| in_now := now; in_identityId := ai_identityId i; in_channel := ai_channel i; in_purpose := ai_purpose i;
     in_contactKind := ai_contactKind i; in_senderIdentityId := ai_senderIdentityId i;
     in_customerExplicitTimezone := None; in_customer360Timezone := None; in_tenantDefaultTimezone := None;
     in_preferences := fa_preferences facts; in_policy := policy; in_activeCallback := fa_activeCallback facts;
     in_source := Some (ai_source i); in_sourceId := Some (ai_sourceId i);
     in_activeExceptions := fa_activeExceptions facts |}.

(** The policy the rollout has the gate evaluate. *)
Definition gate_policy g i (facts : Cg3Facts) now : option Cg3PolicyFacts :=
  match rd_mode (cg4PolicyReaderFor (loadCg4RolloutState (gv_rollout g)) (request_scope i)) with
  | R_CG4 => read_policy (loadCg4PolicyFacts (gv_policies g) (request_scope i) now)
  | R_CG3 | R_CG3_WITH_SHADOW => fa_policy facts
  end.

(** The policy gate either evaluates that policy or fails closed. *)
Lemma gate_evaluates g i facts a b now :
  gt_outcome (policy_gate g i facts a b now) = evaluateCg3Policy (evaluation_input i facts now (gate_policy g i facts now)) \/
  (exists gate code, gt_outcome (policy_gate g i facts a b now) = cg4PolicyFailClosedOutcome gate code).
Proof.
  unfold policy_gate, gate_policy, shadowOutcome. destruct (rd_mode _); cbn.
  - by left.
  - case_bool_decide; cbn; [by left|]. destruct (rd_pilot _); [by eauto|by left].
  - destruct (loadCg4PolicyFacts _ _ _); cbn; eauto.
Qed.

Lemma gate_outcome g i facts a b now :
  (exists p, gt_outcome (policy_gate g i facts a b now) = evaluate_with i facts now p) \/
  (exists gate code, gt_outcome (policy_gate g i facts a b now) = cg4PolicyFailClosedOutcome gate code).
Proof. destruct (gate_evaluates g i facts a b now) as [->|?]; [left; by eexists|by right]. Qed.

(** The facts, the gate and the query of a decision. *)
Definition facts_for g i now (contactId : string) : Cg3Facts := loadCg3Facts (fact_tables g) (fact_query contactId i now).

Lemma judge_cases g i a b now v : judge g i a b now = Ok v ->
  (ve_decision v <> ALLOW /\ ve_outcome v ≫= go_consumedCallbackRequestId = None /\ ve_pins v = None) \/
  (exists c, baseline_open g i now c /\ kill_switch_covers g (switch_subject c i) = false /\
     let facts := facts_for g i now c in
     let gated := policy_gate g i facts a b now in
     ve_decision v = default ALLOW (go_decision (gt_outcome gated)) /\ ve_outcome v = Some (gt_outcome gated) /\
     decision_pins facts gated = Ok (ve_pins v)).
Proof.
  unfold judge. destruct (cpr_decision (baseline g i now)) eqn:Eb; try (intros [= <-]; left; done).
  pose proof (proj1 (baseline_allows g i now) Eb) as (c & Hc). pose proof Hc as [Hk _].
  apply known_contact_truthy in Hk as [Hk _]. rewrite Hk.
  destruct (kill_switch_covers g (switch_subject c i)) eqn:Ek; [intros [= <-]; by left|].
  intros Hv. open_bind Hv pins Hp. injection Hv as <-. right. exists c. cbn. eauto 10.
Qed.
(** A gate that decides refuses, and then uses nothing up and pins nothing. *)
Lemma gate_decides g i facts a b now : let o := gt_outcome (policy_gate g i facts a b now) in
  go_decision o = None \/
  (go_decision o <> None /\ go_decision o <> Some ALLOW /\ go_consumedCallbackRequestId o = None /\ go_appliedExceptions o = []).
Proof.
  intros o. destruct (gate_outcome g i facts a b now) as [[p Hp]|(gate & code & Hp)]; fold o in Hp; rewrite Hp.
  - unfold evaluate_with. pose proof (evaluate_cases {|
      in_now := now; in_identityId := ai_identityId i; in_channel := ai_channel i; in_purpose := ai_purpose i;
      in_contactKind := ai_contactKind i; in_senderIdentityId := ai_senderIdentityId i;
      in_customerExplicitTimezone := None; in_customer360Timezone := None; in_tenantDefaultTimezone := None;
      in_preferences := fa_preferences facts; in_policy := p; in_activeCallback := fa_activeCallback facts;
      in_source := Some (ai_source i); in_sourceId := Some (ai_sourceId i);
      in_activeExceptions := fa_activeExceptions facts |}) as Hc. cbv zeta in Hc.
    destruct Hc as [(q & t & _ & _ & _ & ->)|[(Hd & _ & Hcons & Happ) _]]; [by left|].
    right. rewrite Hcons, Happ. destruct Hd as [->|[-> | ->]]; done.
  - right. done.
Qed.

(** A verdict allows exactly when the baseline is open, no kill switch covers the request and the
    policy gate has nothing against it. *)
Lemma judge_allows g i a b now v : judge g i a b now = Ok v ->
  ve_decision v = ALLOW <->
  exists c, baseline_open g i now c /\ kill_switch_covers g (switch_subject c i) = false /\
    go_decision (gt_outcome (policy_gate g i (facts_for g i now c) a b now)) = None.
Proof.
  intros Hv. unfold judge in Hv. destruct (cpr_decision (baseline g i now)) eqn:Eb.
  2-4: (injection Hv as <-; split; [done|]; intros (c & Hc & _);
        assert (Ha : cpr_decision (baseline g i now) = ALLOW) by (apply baseline_allows; eauto); congruence).
  pose proof (proj1 (baseline_allows g i now) Eb) as (c & Hc). pose proof Hc as [Hk _].
  apply known_contact_truthy in Hk as [Hk _]. rewrite Hk in Hv.
  assert (Hone : forall c', baseline_open g i now c' -> c' = c).
  { intros c' [Hk' _]. apply known_contact_truthy in Hk' as [Hk' _]. congruence. }
  destruct (kill_switch_covers g (switch_subject c i)) eqn:Ek.
  { injection Hv as <-. split; [done|]. intros (c' & Hc' & Hk' & _). rewrite (Hone c' Hc') in Hk'. congruence. }
  open_bind Hv pins Hp. injection Hv as <-. cbn.
  destruct (gate_decides g i (facts_for g i now c) a b now) as [Hd|(Hn & Hna & _)].
  - unfold facts_for in Hd. rewrite Hd. cbn. split; [|done]. intros _. by exists c.
  - unfold facts_for in Hn, Hna. split.
    + destruct (go_decision _) eqn:Eg; [cbn; congruence|done].
    + intros (c' & Hc' & _ & Hd). by rewrite (Hone c' Hc') in Hd.
Qed.

(** An allowing verdict carries the version of the contact it was made at. *)
Lemma judge_version g i a b now v : judge g i a b now = Ok v -> ve_decision v = ALLOW -> is_Some (ve_aggregateVersion v).
Proof.
  unfold judge. destruct (cpr_decision (baseline g i now)) eqn:Eb; try (intros [= <-]; done).
  destruct (truthy (ai_contactId i)) as [c|] eqn:Ec.
  - destruct (kill_switch_covers _ _); [by intros [= <-]|]. intros Hv _. open_bind Hv pins Hp. by injection Hv as <-.
  - apply baseline_allows in Eb as (c & Hk & _). apply known_contact_truthy in Hk as [Hk _]. congruence.
Qed.

(** A callback is used up only by a decision that allows; it is the live callback of the facts. *)
Lemma judge_consumes g i a b now v id : judge g i a b now = Ok v ->
  ve_outcome v ≫= go_consumedCallbackRequestId = Some id ->
  ve_decision v = ALLOW /\ exists c cb, baseline_open g i now c /\
    fa_activeCallback (facts_for g i now c) = Some cb /\ id = cb_requestId cb /\ expires_by cb now = false.
Proof.
  intros Hv Hid. destruct (judge_cases g i a b now v Hv) as [(_ & Hn & _)|(c & Hc & _ & Hd & Ho & _)]; [congruence|].
  rewrite Ho in Hid. cbn in Hid.
  destruct (gate_decides g i (facts_for g i now c) a b now) as [Hg|(_ & _ & Hg & _)]; [|congruence].
  split; [by rewrite Hd, Hg|]. exists c.
  destruct (gate_outcome g i (facts_for g i now c) a b now) as [[p Hp]|(gate & code & Hp)]; rewrite Hp in Hid; [|done].
  destruct (proj1 (override_evidence _) id Hid) as (_ & block & cb & _ & -> & Hl & _).
  exists cb. split; [done|]. destruct Hl as (Hcb & _ & _ & _ & _ & He & _). done.
Qed.
End Decisions.

(** ** What every history keeps *)

(** A decision and the reservation it made. *)
Definition booked (d : DecisionRow) (r : ReservationRow) : Prop :=
  dl_decision d = ALLOW /\ dl_reservationId d = Some (rv_id r) /\ rv_actionKey r = dl_actionKey d /\
  rv_authorizationDecisionId r = Some (dl_id d) /\ dl_contactId d = Some (rv_contactId r) /\
  rv_channel r = dl_channel d /\ rv_purpose r = dl_purpose d /\ rv_expiresAt r = dl_decidedAt d + RESERVATION_TTL_MS /\
  bk_authorizationAggregateVersion (rv_booking r) = dl_aggregateVersion d /\ is_Some (dl_aggregateVersion d).

Record logged (ds : list DecisionRow) (rs : list ReservationRow) : Prop := {
  lg_actions : List.NoDup (map dl_actionKey ds);
  lg_keys : List.NoDup (map rv_actionKey rs);
  lg_ids : List.NoDup (map rv_id rs);
  lg_decision : forall d, In d ds ->
    (dl_decision d <> ALLOW /\ dl_reservationId d = None) \/ exists r, In r rs /\ booked d r;
  lg_reservation : forall r, In r rs -> exists d, In d ds /\ booked d r;
}.

(** A used callback: the request it supersedes and the decision that used it. *)
Definition used_by (ds : list DecisionRow) (rows : list CallbackRow) (c : CallbackRow) : Prop :=
  exists o d, In o rows /\ In d ds /\ cq_mutationKind o = CB_REQUEST /\
    cq_supersedesId c = Some (cq_id o) /\ cq_seriesId c = cq_seriesId o /\ cq_version c = cq_version o + 1 /\
    cq_evidenceRef c = "system:authorizeAndReserve:" +:+ dl_id d /\ dl_decision d = ALLOW /\
    dl_contactId d = Some (cq_contactId o) /\ dl_channel d = cq_channel o /\ dl_purpose d = cq_purpose o.

Record callbacks_kept (ds : list DecisionRow) (rows : list CallbackRow) : Prop := {
  ck_checks : forall c, In c rows -> 0 < cq_version c /\ cq_requestedAt c < cq_expiresAt c;
  ck_unique : forall a b, In a rows -> In b rows -> callback_clash a b = true -> a = b;
  ck_used : forall c, In c rows -> cq_mutationKind c = CB_CONSUME -> used_by ds rows c;
}.

Lemma clash_sym a b : callback_clash a b = callback_clash b a.
Proof.
  unfold callback_clash. rewrite (Z.eqb_sym (cq_version a)).
  rewrite (bool_decide_ext (cq_id a = cq_id b) (cq_id b = cq_id a)) by done.
  rewrite (bool_decide_ext (cq_seriesId a = cq_seriesId b) (cq_seriesId b = cq_seriesId a)) by done.
  rewrite (bool_decide_ext (cq_oneUseTokenHash a = cq_oneUseTokenHash b) (cq_oneUseTokenHash b = cq_oneUseTokenHash a)) by done.
  rewrite (bool_decide_ext (cq_contactId a = cq_contactId b) (cq_contactId b = cq_contactId a)) by done.
  rewrite (bool_decide_ext (cq_sourceKind a = cq_sourceKind b) (cq_sourceKind b = cq_sourceKind a)) by done.
  destruct (cq_sourceVersion a) as [v|], (cq_sourceVersion b) as [w|]; try done.
  by rewrite (bool_decide_ext (v = w) (w = v)) by done.
Qed.

Lemma insert_callback_ok rows c rows' : insert_callback rows c = Ok rows' ->
  rows' = rows ++ [c] /\ (0 < cq_version c /\ cq_requestedAt c < cq_expiresAt c) /\
  forall a, In a rows -> callback_clash c a = false.
Proof.
  unfold insert_callback. intros Hi. apply bind_throw_if_ok in Hi as [Hch Hi]. bool_prop. apply bind_throw_if_ok in Hi as [Hn [= <-]].
  split; [done|]. split; [done|]. intros a Ha. apply not_true_iff_false. intros Hc. apply not_true_iff_false in Hn. apply Hn.
  apply existsb_exists. eauto.
Qed.

Lemma checks_insert rows c : (forall a, In a rows -> 0 < cq_version a /\ cq_requestedAt a < cq_expiresAt a) ->
  0 < cq_version c /\ cq_requestedAt c < cq_expiresAt c ->
  forall a, In a (rows ++ [c]) -> 0 < cq_version a /\ cq_requestedAt a < cq_expiresAt a.
Proof. intros Hr Hc a Ha. apply in_app_iff in Ha as [Ha|[<-|[]]]; auto. Qed.

Lemma unique_insert rows c : (forall a b, In a rows -> In b rows -> callback_clash a b = true -> a = b) ->
  (forall a, In a rows -> callback_clash c a = false) ->
  forall a b, In a (rows ++ [c]) -> In b (rows ++ [c]) -> callback_clash a b = true -> a = b.
Proof.
  intros Hu Hc a b Ha Hb Hab. apply in_app_iff in Ha as [Ha|[<-|[]]]; apply in_app_iff in Hb as [Hb|[<-|[]]].
  - by apply Hu.
  - rewrite clash_sym, (Hc a Ha) in Hab. done.
  - by rewrite (Hc b Hb) in Hab.
  - done.
Qed.

Lemma used_by_grows ds rows c ds' rows' : (forall d, In d ds -> In d ds') -> (forall o, In o rows -> In o rows') ->
  used_by ds rows c -> used_by ds' rows' c.
Proof. intros Hd Hr (o & d & Ho & Hin & H). exists o, d. eauto. Qed.

Section Kept.
Context `{Runtime, Host}.

Record kept (g : Governance) : Prop := {
  kp_logged : logged (gv_decisions g) (gv_reservations g);
  kp_callbacks : callbacks_kept (gv_decisions g) (cl_rows (gv_callbacks g));
  kp_runtime : runtime_ok (runtime_of g);
}.

(** The callback of the facts is a request of the table, of the scope of the decision. *)
Lemma loaded_callback_spec rows q cb : loaded_callback rows q = Some cb ->
  exists c, In c rows /\ cq_mutationKind c = CB_REQUEST /\ cq_id c = cb_requestId cb /\
    cq_contactId c = fq_contactId q /\ cq_identityId c = fq_identityId q /\ cq_channel c = fq_channel q /\
    cq_purpose c = fq_purpose q /\ cb_expiresAt cb = toISOString (cq_expiresAt c).
Proof.
  unfold loaded_callback, latest_callback. destruct (sort_by _ _) as [|c l] eqn:E; cbn; [done|].
  case_bool_decide as Hk; [|done]. intros [= <-]. exists c.
  assert (Hin : In c (c :: l)) by by left. rewrite <- E, sort_by_In, filter_In in Hin. destruct Hin as [Hin Hs].
  unfold in_callback_scope in Hs. bool_prop. done.
Qed.

Lemma consume_callback_ok rows consumed decisionId id rows' : consume_callback rows consumed decisionId id = Ok rows' ->
  (consumed = None /\ rows' = rows) \/
  (exists o, consumed = Some (cq_id o) /\ In o rows /\ rows' = rows ++ [consume_row o decisionId id] /\
     (0 < cq_version (consume_row o decisionId id) /\ cq_requestedAt o < cq_expiresAt o) /\
     forall a, In a rows -> callback_clash (consume_row o decisionId id) a = false).
Proof.
  unfold consume_callback. destruct consumed as [k|]; [|intros [= <-]; by left].
  destruct (js_find _ rows) as [o|] eqn:Ef; [|done]. apply find_some in Ef as [Ho Hk]. bool_prop. subst k.
  destruct (insert_callback _ _) as [rows2|] eqn:Ei; [|done]. intros [= <-].
  apply insert_callback_ok in Ei as (-> & Hch & Hc). right. exists o. done.
Qed.

Lemma authorize_callbacks g i now v r rows g' :
  kept g -> decided_by g i now v r rows g' -> callbacks_kept (gv_decisions g') (cl_rows (gv_callbacks g')).
Proof.
  intros [_ [Hch Hu Hused]] [Hj Hc Hr -> Hres Hds]. rewrite Hds.
  assert (Hgrow : forall d, In d (gv_decisions g) -> In d (gv_decisions g ++ [new_decision g i v (fresh (cl_nextId (gv_callbacks g))) r now]))
    by (intros; apply in_app_iff; by left).
  apply consume_callback_ok in Hc as [[Hn ->]|(o & Ho & Hin & -> & Hco & Hcl)].
  { constructor; [done|done|]. intros c Hc Hk. eapply used_by_grows; [done| |by apply Hused]. done. }
  constructor; [by apply checks_insert|by apply unique_insert|]. intros c Hc Hk. apply in_app_iff in Hc as [Hc|[<-|[]]].
  { eapply used_by_grows; [done| |by apply Hused]. intros; apply in_app_iff; by left. }
  destruct (judge_consumes _ _ _ _ _ _ _ Hj Ho) as (Ha & k & cb & Hopen & Hcb & Hid & _).
  apply loaded_callback_spec in Hcb as (o' & Hin' & Hreq & Hid' & Hct & _ & Hcn & Hpu & _).
  assert (o = o') as <-.
  { apply Hu; [done|done|]. unfold callback_clash. by rewrite bool_decide_eq_true_2 by congruence. }
  exists o, (new_decision g i v (fresh (cl_nextId (gv_callbacks g))) r now).
  split; [apply in_app_iff; by left|]. split; [apply in_app_iff; right; by left|].
  cbn in Hct, Hcn, Hpu |- *. rewrite Hct. pose proof Hopen as [Hkn _]. rewrite Hkn. by rewrite Ha.
Qed.
Lemma reserve_ok g i v id decisionId now r : reserve g i v id decisionId now = Ok r ->
  (ve_decision v <> ALLOW /\ r = None) \/
  (ve_decision v = ALLOW /\ exists c, truthy (ai_contactId i) = Some c /\
     r = Some (new_reservation i c v id decisionId now) /\
     forall x, In x (gv_reservations g) -> rv_actionKey x <> ai_actionKey i /\ rv_id x <> id).
Proof.
  unfold reserve. destruct (ve_decision v); try (intros [= <-]; by left).
  destruct (truthy _) as [c|]; [|done]. intros Hr. apply bind_throw_if_ok in Hr as [Hn [= <-]]. right. split; [done|].
  exists c. split; [done|]. split; [done|]. intros x Hx. split; intros He; apply not_true_iff_false in Hn; apply Hn;
    apply existsb_exists; exists x; (split; [done|]); rewrite (bool_decide_eq_true_2 _ He); by rewrite ?orb_true_r.
Qed.

Lemma authorize_logged g i now v r rows g' : kept g -> decided g (ai_actionKey i) = None ->
  decided_by g i now v r rows g' -> logged (gv_decisions g') (gv_reservations g').
Proof.
  intros [[La Lk Li Ld Lr] _ _] Hn [Hj _ Hr _ Hres Hds]. rewrite Hres, Hds.
  set (d := new_decision g i v (fresh (cl_nextId (gv_callbacks g))) r now) in *.
  assert (Hd : ~ In (dl_actionKey d) (map dl_actionKey (gv_decisions g))) by by apply decided_none.
  assert (Hacts : List.NoDup (map dl_actionKey (gv_decisions g ++ [d]))) by (rewrite map_app; by apply NoDup_snoc).
  destruct (reserve_ok _ _ _ _ _ _ _ Hr) as [[Hna ->]|(Ha & c & Hc & -> & Hfree)].
  - rewrite app_nil_r. constructor; [done|done|done| |].
    + intros x Hx. apply in_app_iff in Hx as [Hx|[<-|[]]]; [by apply Ld|by left].
    + intros x Hx. destruct (Lr x Hx) as (y & Hy & Hb). exists y. split; [apply in_app_iff; by left|done].
  - set (x := new_reservation i c v _ _ now) in *.
    assert (Hb : booked d x).
    { pose proof (judge_version _ _ _ _ _ _ Hj Ha) as Hver. apply judge_allows in Hj as [Hj _]. destruct (Hj Ha) as (c' & [Hk _] & _).
      pose proof (proj1 (known_contact_truthy _ _ _ Hk)) as Hk'. assert (c' = c) as -> by congruence.
      unfold booked, d, x. cbn. by rewrite Hk, Ha. }
    constructor; [done| | | |].
    + rewrite map_app. apply NoDup_snoc; [done|]. intros Hin. apply in_map_iff in Hin as (y & He & Hy).
      by apply (proj1 (Hfree y Hy)).
    + rewrite map_app. apply NoDup_snoc; [done|]. intros Hin. apply in_map_iff in Hin as (y & He & Hy).
      by apply (proj2 (Hfree y Hy)).
    + intros y Hy. apply in_app_iff in Hy as [Hy|[<-|[]]].
      * destruct (Ld y Hy) as [Hl|(z & Hz & Hb')]; [by left|]. right. exists z. split; [apply in_app_iff; by left|done].
      * right. exists x. split; [apply in_app_iff; right; by left|done].
    + intros y Hy. apply in_app_iff in Hy as [Hy|[<-|[]]].
      * destruct (Lr y Hy) as (z & Hz & Hb'). exists z. split; [apply in_app_iff; by left|done].
      * exists d. split; [apply in_app_iff; right; by left|done].
Qed.

Lemma booked_same d r r' : rv_booking r' = rv_booking r -> booked d r -> booked d r'.
Proof.
  unfold booked, rv_id, rv_actionKey, rv_authorizationDecisionId, rv_contactId, rv_channel, rv_purpose, rv_expiresAt.
  by intros ->.
Qed.

Lemma logged_runtime ds rs rs' : Forall2 row_step rs rs' -> logged ds rs -> logged ds rs'.
Proof.
  intros Hf [La Lk Li Ld Lr]. constructor; [done| | | |].
  - rewrite (Forall2_map_eq row_step rv_actionKey rs rs'); [done| |done]. intros x y [Hb _]. unfold rv_actionKey. by rewrite Hb.
  - by rewrite (Forall2_map_eq _ rv_id _ _ row_step_id Hf).
  - intros d Hd. destruct (Ld d Hd) as [Hl|(r & Hr & Hb)]; [by left|]. right.
    destruct (Forall2_In_l _ _ _ _ Hf Hr) as (y & Hy & [Hs _]). exists y. split; [done|by eapply booked_same].
  - intros r Hr. destruct (Forall2_In_r _ _ _ _ Hf Hr) as (x & Hx & [Hs _]). destruct (Lr x Hx) as (d & Hd & Hb).
    exists d. split; [done|by eapply booked_same].
Qed.

Lemma update_still p f rs : (forall r, In r rs -> p r = true -> still_step r (f r)) -> Forall2 still_step rs (update_where p f rs).
Proof.
  unfold update_where. induction rs as [|r rs IH]; cbn; intros Hf; constructor.
  - destruct (p r) eqn:E; [apply Hf; [by left|done]|split; [reflexivity|done]].
  - apply IH. intros x Hx. apply Hf. by right.
Qed.
End Kept.

Section Growth.
Context `{Runtime, Host}.

Lemma request_ok contacts identities t i now r t' : request contacts identities t i now = Ok (r, t') ->
  t' = t \/ exists c, cl_rows t' = cl_rows t ++ [c] /\ cq_mutationKind c = CB_REQUEST /\
    (0 < cq_version c /\ cq_requestedAt c < cq_expiresAt c) /\
    forall a, In a (cl_rows t) -> callback_clash c a = false.
Proof.
  unfold request. intros Hr. open_bind Hr ts Hts. destruct ts as [ra ex].
  destruct (map_get _ _) as [[hash response]|].
  - apply bind_throw_if_ok in Hr as [_ [= _ <-]]. by left.
  - apply bind_throw_if_ok in Hr as [_ Hr]. apply bind_throw_if_ok in Hr as [_ Hr].
    open_bind Hr rows Hrows. injection Hr as _ <-. apply insert_callback_ok in Hrows as (-> & Hch & Hc). right.
    eexists. split; [reflexivity|]. done.
Qed.

(** How the tables a step does not own grow: decisions are appended, reservations move by steps of
    their contract, and callbacks are appended. *)
Record grown (g g' : Governance) : Prop := {
  gr_decisions : exists ds, gv_decisions g' = gv_decisions g ++ ds;
  gr_reservations : exists rs rs', gv_reservations g' = rs ++ rs' /\ Forall2 row_steps (gv_reservations g) rs;
  gr_callbacks : exists cs, cl_rows (gv_callbacks g') = cl_rows (gv_callbacks g) ++ cs;
  gr_receipts : exists ks, df_receipts (gv_facts g') = df_receipts (gv_facts g) ++ ks;
}.

Lemma rows_refl rs : Forall2 row_steps rs rs.
Proof. induction rs; constructor; [apply rtc_refl|done]. Qed.

Lemma rows_once rs rs' : Forall2 row_step rs rs' -> Forall2 row_steps rs rs'.
Proof. induction 1; constructor; [by apply rtc_once|done]. Qed.

(** Tables that keep what they had. *)
Lemma grown_by g g' ds rs cs ks : gv_decisions g' = gv_decisions g ++ ds -> gv_reservations g' = gv_reservations g ++ rs ->
  cl_rows (gv_callbacks g') = cl_rows (gv_callbacks g) ++ cs -> df_receipts (gv_facts g') = df_receipts (gv_facts g) ++ ks -> grown g g'.
Proof.
  intros Hd Hr Hc Hk. constructor; [by exists ds| |by exists cs|by exists ks].
  exists (gv_reservations g), rs. split; [done|apply rows_refl].
Qed.

Lemma grown_same g g' : gv_decisions g' = gv_decisions g -> gv_reservations g' = gv_reservations g ->
  cl_rows (gv_callbacks g') = cl_rows (gv_callbacks g) -> gv_facts g' = gv_facts g -> grown g g'.
Proof. intros Hd Hr Hc Hk. apply (grown_by g g' [] [] [] []); by rewrite app_nil_r, ?Hk. Qed.

Lemma grown_refl g : grown g g.
Proof. by apply grown_same. Qed.

Lemma still_refl rs : Forall2 still_step rs rs.
Proof. induction rs; constructor; [split; [reflexivity|done]|done]. Qed.

Lemma moved_still command now nx r : transitionReservation (Reservation (rv_id r) (rv_state r)) command = Ok nx ->
  rs_state nx <> rv_state r -> truthy (rv_deliveryId r) = None -> still_step r (moved_to (rs_state nx) now r).
Proof.
  intros Ht Hne Hd. eapply (direct_step command now (rs_state nx)); try done.
  rewrite Ht. f_equal. destruct nx as [k st]. pose proof (transition_lifecycle _ _ _ Ht) as [Hi _]. cbn in *. by subst.
Qed.

Lemma swept_still now r : lapsed now r = true -> still_step r (swept now r).
Proof.
  unfold lapsed. intros Hl. bool_prop. split; [|done]. apply released_step; [done| |done].
  unfold status. destruct (rv_settlementStatus r) as [[]|]; done.
Qed.

(** The rows an update by key rewrites, where keys are distinct. *)
Lemma update_key rs f cur : List.NoDup (map rv_id rs) -> In cur rs -> still_step cur (f cur) ->
  Forall2 still_step rs (update_where (reservation_by (rv_id cur)) f rs).
Proof.
  intros Hnd Hc Hs. apply update_still. intros r Hr Hp. unfold reservation_by in Hp. bool_prop.
  by rewrite (NoDup_map_inj rv_id rs r cur Hnd Hr Hc Hp).
Qed.

Lemma reservations_change g id command now r g' : kept g -> changeReservationState g id command now = Ok (r, g') ->
  exists rs, g' = with_reservations rs g /\ Forall2 still_step (gv_reservations g) rs.
Proof.
  intros [[_ _ Li _ _] _ _] Hok. unfold changeReservationState in Hok. open_bind Hok cur Hcur. apply bind_throw_if_ok in Hok as [Hd Hok].
  bool_prop. destruct (transitionReservation _ _) as [nx|] eqn:Ht; [|done]. case_bool_decide as Hst; injection Hok as _ <-.
  - exists (gv_reservations g). split; [by destruct g|apply still_refl].
  - eexists. split; [reflexivity|]. unfold find_reservation in Hcur. destruct (js_find _ _) as [c'|] eqn:Ef; [|done].
    injection Hcur as ->. apply find_some in Ef as [Hin _]. apply update_key; [done|done|].
    eapply moved_still; [exact Ht|done|]. by apply eq_None_not_Some.
Qed.

Lemma firstn_incl {A} n (l : list A) x : In x (firstn n l) -> In x l.
Proof. intros Hx. rewrite <- (firstn_skipn n l). apply in_app_iff. by left. Qed.

Lemma reservations_sweep g limit now n g' : kept g -> releaseExpiredReservations g limit now = Ok (n, g') ->
  exists rs, g' = with_reservations rs g /\ Forall2 still_step (gv_reservations g) rs.
Proof.
  intros [[_ _ Li _ _] _ _]. unfold releaseExpiredReservations. intros Hok. apply bind_throw_if_ok in Hok as [_ [= _ <-]].
  eexists. split; [reflexivity|]. apply update_still. intros r Hr Hp. apply swept_still.
  apply includes_spec, in_map_iff in Hp as (x & Hx & Hxin). apply firstn_incl, sort_by_In, filter_In in Hxin as [Hxr Hl].
  by rewrite <- (NoDup_map_inj rv_id (gv_reservations g) x r Li Hxr Hr Hx).
Qed.

(** Tables whose reservations moved without their deliveries. *)
Lemma reservations_kept g rs : kept g -> Forall2 still_step (gv_reservations g) rs ->
  kept (with_reservations rs g) /\ grown g (with_reservations rs g).
Proof.
  intros [Hl Hc Hr] Hf. pose proof (still_row_steps _ _ Hf) as Hf'. split.
  - constructor; [by eapply logged_runtime|done|]. by eapply runtime_ok_still.
  - constructor; [by exists []; cbn; rewrite app_nil_r| |by exists []; cbn; rewrite app_nil_r..].
    exists rs, []. cbn. rewrite app_nil_r. split; [done|by apply rows_once].
Qed.

Lemma runtime_kept g t : kept g -> runtime_step (ExceptionStore.contact_version (gv_exceptions g)) (runtime_of g) t ->
  kept (with_runtime t g) /\ grown g (with_runtime t g).
Proof.
  intros [Hl Hc Hr] Hs. destruct (runtime_step_ok _ _ _ Hr Hs) as [Hr' Hf]. split.
  - constructor; [by eapply logged_runtime|done|]. by destruct t.
  - constructor; [by exists []; cbn; rewrite app_nil_r| |by exists []; cbn; rewrite app_nil_r|].
    + exists (rt_reservations t), []. cbn. rewrite app_nil_r. split; [done|by apply rows_once].
    + by apply (runtime_step_receipts _ _ _ Hr Hs).
Qed.

Lemma authorize_kept g i now v r rows g' : kept g -> decided g (ai_actionKey i) = None -> gv_facts g' = gv_facts g ->
  decided_by g i now v r rows g' -> kept g' /\ grown g g'.
Proof.
  intros Hk Hn Hf Hd. split.
  - constructor; [by eapply authorize_logged|by eapply authorize_callbacks|].
    unfold runtime_of. rewrite Hf, (db_reservations _ _ _ _ _ _ _ Hd).
    destruct Hk as [_ _ Hr], Hd as [_ _ Hres _ _ _].
    apply reserve_ok in Hres as [[_ ->]|(_ & c & _ & -> & Hfree)]; [by rewrite app_nil_r|].
    apply runtime_ok_new; [done|done|]. intros Hin. apply in_map_iff in Hin as (y & He & Hy). by apply (proj2 (Hfree y Hy)).
  - destruct Hd as [_ Hc _ Hrw Hre Hds]. apply consume_callback_ok in Hc as [[_ ->]|(y & _ & _ & -> & _ & _)].
    + eapply (grown_by g g' _ _ [] []); [done|done|by rewrite app_nil_r|by rewrite app_nil_r, Hf].
    + eapply (grown_by g g' _ _ _ []); [done|done|done|by rewrite app_nil_r, Hf].
Qed.

Lemma authorize_facts g i now o g' : authorizeAndReserve g i now = Ok (o, g') -> gv_facts g' = gv_facts g.
Proof.
  unfold authorizeAndReserve. intros Hok. destruct (decided g (ai_actionKey i)) as [d|].
  - by apply bind_throw_if_ok in Hok as [_ [= _ <-]].
  - open_bind Hok v Hv. open_bind Hok rows Hrows. open_bind Hok r Hr. by injection Hok as _ <-.
Qed.

Lemma request_kept g t' i now c : kept g -> request (st_contacts (gv_exceptions g)) (st_identities (gv_exceptions g)) (gv_callbacks g) i now = Ok (c, t') ->
  kept (with_callbacks t' g) /\ grown g (with_callbacks t' g).
Proof.
  intros [Hl [Hc2 Hu Hused] Hr] Hok. apply request_ok in Hok as [->|(x & Hx & Hkx & Hch & Hcl)].
  { split; [by constructor|by apply grown_same]. }
  split; [constructor; [done| |done]|]; cbn.
  - rewrite Hx. constructor; [by apply checks_insert|by apply unique_insert|].
    intros c' Hc' Hk'. apply in_app_iff in Hc' as [Hc'|[<-|[]]]; [|congruence].
    eapply used_by_grows; [done| |by apply Hused]. intros; apply in_app_iff; by left.
  - apply (grown_by _ _ [] [] [x] []); cbn; rewrite ?app_nil_r; done.
Qed.

Lemma governance_step_kept n n' : governance_step n n' -> kept (tn_tables n) ->
  kept (tn_tables n') /\ grown (tn_tables n) (tn_tables n').
Proof.
  intros Hs Hk. destruct Hs as [g es ps i now o g' Hok|g es ps i now r c Hok|g es ps id command now r g' Hok
    |g es ps limit now k g' Hok|g es ps t Hr|g es ps s es' Hs|g es ps s ps' Hs|g es ps ledger input q now t s Hok
    |g es ps input frozen now t s Hok|g es ps pf po ho re co]; cbn [tn_tables] in *;
    try (split; [by destruct Hk; constructor|by apply grown_same]).
  - pose proof (authorize_facts _ _ _ _ _ Hok) as Hf.
    destruct (authorize_cases _ _ _ _ _ Hok) as [(d & _ & _ & _ & ->)|(Hn & v & r & rows & Hd & _)].
    + split; [done|apply grown_refl].
    + by eapply authorize_kept.
  - by eapply request_kept.
  - destruct (reservations_change _ _ _ _ _ _ Hk Hok) as (rs & -> & Hf). by apply reservations_kept.
  - destruct (reservations_sweep _ _ _ _ _ Hk Hok) as (rs & -> & Hf). by apply reservations_kept.
  - by apply runtime_kept.
Qed.
End Growth.
