(* ===== verification/GovernanceTheorems.v ===== *)
(** * GovernanceTheorems: what authorizing a contact guarantees

    The theorems over the histories of [GovernanceSystem], with a worked tenant. *)
From stdpp Require Import base tactics list strings relations.
From Stdlib Require Import ZArith Lia Sorting.Permutation Sorting.Sorted.
From S2P Require Import Prelude JsMap Text JsDate JsValue Contracts ContactPolicy RuleRegistry ScopeKey Windows Cg3Facts PolicyCompiler Temporal ExceptionEval Cg3Evaluator Authorization Persistence Callbacks PolicyStore PolicyLifecycle PolicySystem PolicyReader Rollout ExceptionStore ExceptionSystem FactLoader ReservationRuntime DeliveryCommands Governance GovernanceSystem.

Open Scope string_scope.
Open Scope Z_scope.
Open Scope list_scope.

Section Histories.
Context `{Runtime, Host}.

Lemma grown_trans g1 g2 g3 : grown g1 g2 -> grown g2 g3 -> grown g1 g3.
Proof.
  intros [[d1 D1] (r1 & s1 & R1 & F1) [c1 C1] [k1 K1]] [[d2 D2] (r2 & s2 & R2 & F2) [c2 C2] [k2 K2]]. constructor.
  - exists (d1 ++ d2). by rewrite D2, D1, app_assoc.
  - rewrite R1 in F2. apply Forall2_app_inv_l in F2 as (x & y & Fx & Fy & ->). exists x, (y ++ s2).
    split; [by rewrite R2, app_assoc|]. eapply Forall2_trans; [|exact F1|exact Fx]. intros a b c. unfold row_steps. by etrans.
  - exists (c1 ++ c2). by rewrite C2, C1, app_assoc.
  - exists (k1 ++ k2). by rewrite K2, K1, app_assoc.
Qed.

Lemma governance_steps_kept n n' : governance_steps n n' -> kept (tn_tables n) ->
  kept (tn_tables n') /\ grown (tn_tables n) (tn_tables n').
Proof.
  induction 1 as [n|n1 n2 n3 H12 _ IH]; intros Hk; [split; [done|apply grown_refl]|].
  destruct (governance_step_kept _ _ H12 Hk) as [Hk2 G12]. destruct (IH Hk2) as [Hk3 G23]. split; [done|by eapply grown_trans].
Qed.

Lemma new_tenant_kept n : new_tenant n -> kept (tn_tables n).
Proof.
  intros (_ & _ & _ & Hc & _ & Hr & Hf & Hd).
  constructor; unfold runtime_of; rewrite ?Hd, ?Hr, ?Hc, ?Hf; constructor; cbn; try done; constructor; cbn; try done; constructor.
Qed.

Lemma governed_kept n : governed n -> kept (tn_tables n).
Proof. intros (n0 & Hn & Hs). by apply (governance_steps_kept n0 n Hs), new_tenant_kept. Qed.

(** A decision of the log is found by its action, and so is its reservation by its key. *)
Lemma decided_unique g d : kept g -> In d (gv_decisions g) -> decided g (dl_actionKey d) = Some d.
Proof.
  intros [[La _ _ _ _] _ _] Hd. destruct (decided g (dl_actionKey d)) as [d'|] eqn:E.
  - apply decided_some in E as [Hd' Hk]. f_equal. by apply (NoDup_map_inj dl_actionKey (gv_decisions g)).
  - apply decided_none in E. exfalso. apply E. by apply in_map.
Qed.

Lemma find_reservation_unique g r : kept g -> In r (gv_reservations g) -> find_reservation g (rv_id r) = Some r.
Proof.
  intros [[_ _ Li _ _] _ _] Hr. unfold find_reservation. destruct (js_find _ _) as [r'|] eqn:E.
  - apply find_some in E as [Hr' Hi]. bool_prop. f_equal. by apply (NoDup_map_inj rv_id (gv_reservations g)).
  - apply (find_none _ _ E) in Hr. by rewrite bool_decide_eq_true_2 in Hr.
Qed.

(** C2: one decision and at most one reservation for an action, in every history of a tenant. Action
    keys are decided at most once and reserved at most once; a decision that allows has the reservation
    its column names, made for the same action, contact, channel and purpose, running out fifteen
    minutes after the decision and naming it; any other decision has none, and every reservation is that
    of an allowing decision. *)
Theorem one_reservation_per_action n : governed n ->
  let g := tn_tables n in
  List.NoDup (map dl_actionKey (gv_decisions g)) /\ List.NoDup (map rv_actionKey (gv_reservations g)) /\
  (forall d, In d (gv_decisions g) ->
     match reservation_of g d with
     | Some r => booked d r
     | None => dl_decision d <> ALLOW /\ dl_reservationId d = None
     end) /\
  (forall r, In r (gv_reservations g) -> exists d, In d (gv_decisions g) /\ booked d r /\ reservation_of g d = Some r).
Proof.
  intros Hg g. pose proof (governed_kept n Hg) as Hk. pose proof Hk as [[La Lk Li Ld Lr] _ _].
  assert (Hof : forall d r, In r (gv_reservations g) -> booked d r -> reservation_of g d = Some r).
  { intros d r Hr (_ & Hid & _). unfold reservation_of. rewrite Hid. cbn. by apply find_reservation_unique. }
  split; [done|]. split; [done|]. split.
  - intros d Hd. destruct (Ld d Hd) as [[Hna Hno]|(r & Hr & Hb)].
    + unfold reservation_of. rewrite Hno. done.
    + by rewrite (Hof d r Hr Hb).
  - intros r Hr. destruct (Lr r Hr) as (d & Hd & Hb). exists d. split; [done|]. split; [done|by apply Hof].
Qed.

Lemma created_in g i now v r rows g' : decided_by g i now v r rows g' ->
  In (new_decision g i v (fresh (cl_nextId (gv_callbacks g))) r now) (gv_decisions g').
Proof. intros [_ _ _ _ _ ->]. apply in_app_iff. right. by left. Qed.

(** The outcome of an authorization, as a decision of the log and its reservation. *)
Lemma authorize_logged_outcome g i now o g' : kept g -> authorizeAndReserve g i now = Ok (o, g') ->
  exists d, In d (gv_decisions g') /\ dl_actionKey d = ai_actionKey i /\ dl_inputHash d = hashAuthorizationInput i /\
    o = toOutcome d (reservation_of g' d).
Proof.
  intros Hk Hok. destruct (authorize_cases _ _ _ _ _ Hok) as [(d & Hd & Hh & -> & ->)|(Hn & v & r & rows & Hd & ->)].
  - exists d. by apply decided_some in Hd as [Hd Ha].
  - pose proof (created_in _ _ _ _ _ _ _ Hd) as Hin. eexists. split; [exact Hin|]. split; [done|]. split; [done|].
    f_equal. destruct Hd as [Hj Hc Hr _ Hres Hds]. unfold reservation_of. cbn.
    destruct r as [r|]; [|done]. cbn.
    assert (Hk' : kept g') by (destruct (governance_step_kept (Tenant_ g [] []) (Tenant_ g' [] [])) as [? _]; [by eapply G_authorize|done|done]).
    symmetry. apply find_reservation_unique; [done|]. rewrite Hres. apply in_app_iff. right. by left.
Qed.

Lemma outcome_grown g g' d : kept g -> kept g' -> grown g g' -> In d (gv_decisions g) ->
  In d (gv_decisions g') /\ toOutcome d (reservation_of g' d) = toOutcome d (reservation_of g d).
Proof.
  intros Hk Hk' [[ds Hds] (rs & rs' & Hrs & Hf) _ _] Hd.
  split; [rewrite Hds; apply in_app_iff; by left|].
  pose proof Hk as [[_ _ _ Ld _] _ _]. destruct (Ld d Hd) as [[_ Hno]|(r & Hr & Hb)].
  - unfold reservation_of. by rewrite Hno.
  - pose proof Hb as (_ & Hid & _). unfold reservation_of. rewrite Hid. cbn.
    rewrite (find_reservation_unique g r Hk Hr). destruct (Forall2_In_l _ _ _ _ Hf Hr) as (r' & Hr' & Hs).
    destruct (row_steps_phases _ _ Hs) as [Hbk _].
    assert (Hi : rv_id r' = rv_id r) by (unfold rv_id; by rewrite Hbk).
    assert (He : rv_expiresAt r' = rv_expiresAt r) by (unfold rv_expiresAt; by rewrite Hbk).
    assert (Hin : In r' (gv_reservations g')) by (rewrite Hrs; apply in_app_iff; by left).
    rewrite <- Hi, (find_reservation_unique g' r' Hk' Hin). unfold toOutcome. cbn. by rewrite Hi, He.
Qed.

(** Authorizing is idempotent. Once an action was authorized, the same input gives the same outcome
    at any later time, whatever happened to the tenant in between, and changes nothing; another input
    under the same action key is refused. *)
Theorem authorize_idempotent n i now o g' n' j now' :
  governed n -> authorizeAndReserve (tn_tables n) i now = Ok (o, g') ->
  governance_steps (Tenant_ g' (tn_exceptions n) (tn_policies n)) n' -> ai_actionKey j = ai_actionKey i ->
  authorizeAndReserve (tn_tables n') j now' =
    if bool_decide (hashAuthorizationInput j = hashAuthorizationInput i) then Ok (o, tn_tables n')
    else Err (IdempotencyConflict (ai_actionKey j)).
Proof.
  intros Hg Hok Hs Ha. pose proof (governed_kept n Hg) as Hk. destruct n as [g es ps]. cbn in *.
  destruct (governance_step_kept (Tenant_ g es ps) (Tenant_ g' es ps)) as [Hk' _]; [by eapply G_authorize|done|].
  destruct (governance_steps_kept _ _ Hs Hk') as [Hk2 G2]. cbn in *.
  destruct (authorize_logged_outcome g i now o g' Hk Hok) as (d & Hd & Hda & Hdh & ->).
  destruct (outcome_grown g' (tn_tables n') d Hk' Hk2 G2 Hd) as [Hd2 Ho].
  unfold authorizeAndReserve. rewrite Ha, <- Hda, (decided_unique _ d Hk2 Hd2), Hdh.
  repeat case_bool_decide; try congruence; cbn; [by rewrite Ho|done].
Qed.

(** C28: a callback is used at most once. In every history of a tenant, a callback that was used up was
    used by one decision, which allowed a contact of the very contact, channel and purpose the callback
    asked for: no two rows of the table use up the same request. *)
Theorem callback_used_once n : governed n ->
  let g := tn_tables n in
  let rows := cl_rows (gv_callbacks g) in
  (forall c, In c rows -> cq_mutationKind c = CB_CONSUME -> used_by (gv_decisions g) rows c) /\
  (forall a b, In a rows -> In b rows -> cq_mutationKind a = CB_CONSUME -> cq_mutationKind b = CB_CONSUME ->
     cq_supersedesId a = cq_supersedesId b -> a = b).
Proof.
  intros Hg g rows. destruct (governed_kept n Hg) as [_ [_ Hu Hused] _]. split; [done|].
  intros a b Ha Hb Hka Hkb Hs. destruct (Hused a Ha Hka) as (o & d & Ho & _ & _ & Hsa & Hea & Hva & _).
  destruct (Hused b Hb Hkb) as (o' & d' & Ho' & _ & _ & Hsb & Heb & Hvb & _).
  assert (o = o') as ->.
  { apply Hu; [done|done|]. unfold callback_clash. by rewrite bool_decide_eq_true_2 by congruence. }
  apply Hu; [done|done|]. unfold callback_clash.
  rewrite (bool_decide_eq_true_2 (cq_seriesId a = cq_seriesId b)) by congruence.
  rewrite (proj2 (Z.eqb_eq (cq_version a) (cq_version b))) by congruence. by rewrite orb_true_r.
Qed.

(** C1: what a decision to allow means. On an action not decided before, the outcome is ALLOW exactly
    when the tenant knows the contact (and the identity, if one is named), no restriction is in force,
    the latest consent is granted and has not run out, no active kill switch covers the request, and the
    gate of the policy reader the rollout selects has nothing against it; and then, and only then, the
    outcome carries a reservation. *)
Theorem authorize_allows_iff g i now o g' : authorizeAndReserve g i now = Ok (o, g') ->
  decided g (ai_actionKey i) = None ->
  let decisionId := fresh (cl_nextId (gv_callbacks g)) in
  let mismatchId := fresh (1 + cl_nextId (gv_callbacks g)) in
  (ao_decision o = ALLOW <->
     exists c, baseline_open g i now c /\ kill_switch_covers g (switch_subject c i) = false /\
       go_decision (gt_outcome (policy_gate g i (facts_for g i now c) decisionId mismatchId now)) = None) /\
  (is_Some (ao_reservation o) <-> ao_decision o = ALLOW).
Proof.
  intros Hok Hn decisionId mismatchId.
  destruct (authorize_cases _ _ _ _ _ Hok) as [(d & Hd & _)|(_ & v & r & rows & [Hj _ Hr _ _ _] & ->)]; [congruence|].
  cbn. split; [by apply judge_allows|].
  destruct (reserve_ok _ _ _ _ _ _ _ Hr) as [[Hna ->]|(Ha & c & _ & -> & _)]; cbn; [|done].
  split; [by intros [? ?]|done].
Qed.
End Histories.

(** ** Exceptions behind a decision *)

Section Backed.
Context `{Runtime, Host} (fresh_inj : forall m n, fresh m = fresh n -> m = n).

(** What stands behind a pin: an exception of the contact that is approved by its tier's quorum, in its
    window, for this purpose and source, and that lifts the very rule the pin names. *)
Definition backed_by (g : Governance) (i : AuthorizeAndReserveInput) (now : Z) (contactId : string)
  (pin : Cg4AppliedExceptionPin) (r : ExceptionRow) : Prop :=
  in_force_at (gv_exceptions g) (fact_query contactId i now) r /\ approved_by_quorum (gv_exceptions g) r /\
  pin_seriesId pin = xr_exceptionId r /\ pin_revisionId pin = xr_id r /\ pin_version pin = xr_revision r /\
  pin_contentDigest pin = xr_requestHash r /\ In (pin_matchedRuleCode pin) (xr_allowedRuleCodes r) /\
  xr_purpose r = ai_purpose i /\ xr_sourceType r = ai_source i /\ xr_sourceId r = ai_sourceId i /\
  channel_of (xr_channel r) = Some (ai_channel i).

(** Why the exception was needed: the rule the pin names is the one that blocks the request in the
    evaluation the gate runs, under the policy the rollout selects; and without exceptions the request
    is stopped, unless a live callback of the very request lifts that rule too. *)
Definition stopped_but_for (g : Governance) (i : AuthorizeAndReserveInput) (now : Z) (contactId : string)
  (pin : Cg4AppliedExceptionPin) : Prop :=
  let facts := facts_for g i now contactId in
  let input := evaluation_input i facts now (gate_policy g i facts now) in
  exists b, temporal_block input (winner_of input) = Some b /\ pin_matchedRuleCode pin = reason_code (tb_reason b) /\
    (go_decision (evaluateCg3Policy (without_exceptions input)) <> None \/
     exists cb, callback_live input (tb_reason b) cb).

(** The pins of an evaluation are of exceptions that lift the rule. *)
Lemma gate_pins g i facts a b now pin :
  In pin (go_appliedExceptions (gt_outcome (policy_gate g i facts a b now))) ->
  go_decision (gt_outcome (policy_gate g i facts a b now)) = None /\
  let input := evaluation_input i facts now (gate_policy g i facts now) in
  exists e block, In e (fa_activeExceptions facts) /\ temporal_block input (winner_of input) = Some block /\
    pin = exception_pin e (reason_code (tb_reason block)) /\
    lifts e (MatchContext (ai_identityId i) (ai_channel i) (ai_purpose i) (ai_source i) (ai_sourceId i) now)
      (reason_code (tb_reason block)).
Proof.
  destruct (gate_evaluates g i facts a b now) as [Hp|(gate & code & Hp)]; rewrite Hp; [|done]. intros Hin.
  destruct (proj1 (proj2 (override_evidence _)) pin Hin) as (Hd & block & e & series & Hb & -> & He & src & sid & Hsrc & Hsid & Hl).
  split; [done|]. exists e, block. split; [|split; [done|split; [done|]]].
  - by apply exception_candidates_In in He.
  - cbn in Hsrc, Hsid. injection Hsrc as <-. injection Hsid as <-. exact Hl.
Qed.

(** C3: an exception a decision applied was approved, and was needed. Where the exceptions of a tenant
    come of the commands of their lifecycle, every exception pinned by an authorization is, at that
    moment, the current revision of a series of the decision's contact that is APPROVED with the quorum
    of its tier, whose window holds the instant, whose purpose, channel and source are the request's and
    whose rules include the one the pin names. That rule is the one that blocks the request in the
    evaluation of the policy the rollout selects; without exceptions that evaluation would have stopped
    it, unless a live callback of the request lifts the rule as well. And the decision allows. *)
Theorem applied_exception_approved g begun i now o g' pins pin :
  ExceptionSystem.reachable (System_ (gv_exceptions g) begun) ->
  authorizeAndReserve g i now = Ok (o, g') -> decided g (ai_actionKey i) = None ->
  ao_cg4 o = Some pins -> In pin (dp_appliedExceptions pins) ->
  ao_decision o = ALLOW /\ exists contactId r, known_contact g i = Some contactId /\ backed_by g i now contactId pin r /\
    stopped_but_for g i now contactId pin.
Proof.
  intros Hreach Hok Hn Hpins Hpin. pose proof (reachable_sys_wf fresh_inj _ Hreach) as [Hwf _]. cbn in Hwf.
  destruct (authorize_cases _ _ _ _ _ Hok) as [(d & Hd & _)|(_ & v & r & rows & [Hj _ _ _ _ _] & ->)]; [congruence|].
  cbn in Hpins |- *. destruct (judge_cases _ _ _ _ _ _ Hj) as [(_ & _ & Hno)|(c & Hopen & _ & Hd & Ho & Hp)]; [congruence|].
  rewrite Hpins in Hp. cbv zeta in Hd, Hp. set (gated := policy_gate _ _ _ _ _ _) in *.
  assert (Happ : dp_appliedExceptions pins = go_appliedExceptions (gt_outcome gated)).
  { unfold decision_pins in Hp. destruct (gt_headBinding gated), (go_appliedExceptions (gt_outcome gated)) as [|f l] eqn:E;
      try done; try (injection Hp as <-; done). destruct (js_find _ _); [|done]. by injection Hp as <-. }
  rewrite Happ in Hpin. unfold gated in Hpin. apply gate_pins in Hpin as (Hdec & e & block & He & Hb & -> & Hl).
  split; [rewrite Hd; unfold gated; by rewrite Hdec|]. exists c. apply loaded_exceptions in He as (r' & ch & Hf & Hch & ->); [|done].
  exists r'. split; [apply Hopen|]. split; [|exists block; split; [exact Hb|split; [done|by apply exception_needed]]].
  destruct Hl as [_ _ Hsc Hr _ _ _]. unfold in_scope in Hsc.
  destruct Hsc as (_ & Hc1 & Hc2 & Hc3 & Hc4). cbn in Hr, Hc1, Hc2, Hc3, Hc4. unfold backed_by. cbn.
  assert (Hq : approved_by_quorum (gv_exceptions g) r').
  { destruct Hf as ((h & Hcur & Hst) & _). by apply (wf_quorum _ Hwf _ h r' Hcur); left. }
  repeat (split; [done|]). change (channel_of (xr_channel r') = Some (ai_channel i)). by rewrite Hch, Hc1.
Qed.
End Backed.

(** ** Policy heads behind a decision *)

Section Switched.
Context `{Runtime, Host}.
Context (fresh_some : forall n, fresh n <> "") (fresh_inj : forall m n, fresh m = fresh n -> m = n).

(** The decision's policy pin. *)
Definition pinned_policy (o : AuthorizationOutcome) : option Cg4PolicyBinding := dp_policy <$> ao_cg4 o.

(** C4: after the switch, what decides is the active policy. Where the tenant's policies come of the
    studio's commands, whatever they did between the moments the heads and the rows were read, and the
    rollout reads a request from the CG4 heads, an authorization that allows found no activation due
    among the jobs it read, and either the version that was ACTIVE when the heads were read and had the
    one most specific scope of those that take the request in is still so in the rows read: then the
    request passed the gates under what that version's stored content compiles to, and the decision pins
    that version, by its identifier, number and content digest; or no ACTIVE version took the request
    in: then it passed them under no policy at all. *)
Theorem switched_decision_pins_head yh yr g i now o g' :
  PolicySystem.reachable yh -> rtc PolicySystem.step yh yr ->
  ps_heads (gv_policies g) = ps_heads (py_store yh) -> ps_policies (gv_policies g) = ps_policies (py_store yr) ->
  rd_mode (cg4PolicyReaderFor (loadCg4RolloutState (gv_rollout g)) (request_scope i)) = R_CG4 ->
  authorizeAndReserve g i now = Ok (o, g') -> decided g (ai_actionKey i) = None -> ao_decision o = ALLOW ->
  due_job (gv_policies g) (request_scope i) now = None /\
  exists contactId, known_contact g i = Some contactId /\
  let passed policy := go_decision (evaluate_with i (facts_for g i now contactId) now policy) = None in
  ((exists r compiled, serves (py_store yh) (request_scope i) r /\ In r (ps_policies (py_store yr)) /\
     compile_row r = Ok compiled /\ passed (Some (cp_facts compiled)) /\
     pinned_policy o = Some (PolicyBinding (pr_policyId r) (pr_id r) (pr_version r) (pr_contentDigest r)
                               CG4_POLICY_SCHEMA_VERSION CG4_RULE_REGISTRY_VERSION CG4_EVALUATOR_VERSION)) \/
  ((forall r, In r (ps_policies (py_store yh)) -> pr_status r = S_ACTIVE -> ~ scope_takes (request_scope i) r) /\
   passed None)).
Proof.
  intros Hyh Hst Hheads Hrows Hmode Hok Hn Ha.
  destruct (authorize_cases _ _ _ _ _ Hok) as [(d & Hd & _)|(_ & v & r & rows & [Hj _ _ _ _ _] & ->)]; [congruence|].
  cbn in Ha. pose proof (proj1 (judge_allows _ _ _ _ _ _ Hj) Ha) as (c & Hopen & _ & Hpass).
  destruct (judge_cases _ _ _ _ _ _ Hj) as [(Hna & _)|(c' & Hopen' & _ & _ & _ & Hpins)]; [done|].
  assert (c' = c) as -> by (destruct Hopen as [Hk _], Hopen' as [Hk' _]; congruence).
  cbv zeta in Hpins. set (facts := facts_for g i now c) in *.
  pose proof (reader_reads_later fresh_some fresh_inj yh yr (gv_policies g) (request_scope i) now Hyh Hst
    (Build_seen _ _ _ Hheads Hrows)) as Hread.
  unfold policy_gate in Hpass, Hpins. rewrite Hmode in Hpass, Hpins. unfold pinned_policy. cbn.
  destruct (loadCg4PolicyFacts (gv_policies g) (request_scope i) now) as [pf binding hv k| |reason dt]; cbn in Hpass, Hpins.
  - destruct Hread as (Hdue & x & h & compiled & Hs & Hx & _ & _ & _ & _ & Hc & -> & ->). split; [done|]. exists c.
    split; [apply Hopen|]. left. exists x, compiled. rewrite Hrows in Hx. do 4 (split; [done|]). unfold decision_pins in Hpins. cbn in Hpins.
    injection Hpins as <-. done.
  - destruct Hread as (Hdue & Hnone). split; [done|]. exists c. split; [apply Hopen|]. right. split; [|done].
    intros x Hx Hax Ht. specialize (Hnone x Hx Hax). unfold scope_may_match in Hnone. by rewrite Ht in Hnone.
  - done.
Qed.
End Switched.

(** ** Callbacks with a source version *)

Section Sourced.
Context `{Runtime, Host}.

(** A callback that records its source's version can never be used. The row that uses a callback up
    repeats its contact, source kind and source version, and the table keeps those three unique: so every
    authorization that would use such a callback fails on the index, and neither the decision nor the
    reservation is written. *)
Theorem sourced_callback_unusable n i now v c sourceVersion : governed n ->
  let g := tn_tables n in
  let next := cl_nextId (gv_callbacks g) in
  decided g (ai_actionKey i) = None -> judge g i (fresh next) (fresh (1 + next)) now = Ok v ->
  In c (cl_rows (gv_callbacks g)) -> ve_outcome v ≫= go_consumedCallbackRequestId = Some (cq_id c) ->
  cq_sourceVersion c = Some sourceVersion ->
  ve_decision v = ALLOW /\ authorizeAndReserve g i now = Err (CallbackWrite CB_UNIQUE_VIOLATION).
Proof.
  intros Hg g next Hn Hj Hin Hc Hsv. destruct (governed_kept n Hg) as [_ [Hch Hu _] _].
  split; [by eapply judge_consumes|]. unfold authorizeAndReserve. rewrite Hn. fold next. rewrite Hj.
  cbn [mbind result_bind]. rewrite Hc. unfold consume_callback.
  destruct (js_find _ _) as [x|] eqn:Ef.
  2:{ apply (find_none _ _ Ef) in Hin. by rewrite bool_decide_eq_true_2 in Hin. }
  apply find_some in Ef as [Hx Hid]. bool_prop.
  assert (x = c) as ->.
  { apply Hu; [done|done|]. unfold callback_clash. by rewrite bool_decide_eq_true_2. }
  destruct (Hch c Hin) as [Hv Ht]. unfold insert_callback. cbn [cq_version cq_requestedAt cq_expiresAt consume_row].
  rewrite (proj2 (Z.ltb_lt _ _)) by lia. rewrite (proj2 (Z.ltb_lt _ _)) by lia. cbn [negb orb throw_if mbind result_bind].
  rewrite (proj2 (existsb_exists _ _)); [done|]. exists c. split; [done|]. unfold callback_clash.
  cbn [cq_contactId cq_sourceKind cq_sourceVersion consume_row]. rewrite Hsv.
  rewrite (bool_decide_eq_true_2 (cq_contactId c = _) eq_refl), (bool_decide_eq_true_2 (cq_sourceKind c = _) eq_refl),
    (bool_decide_eq_true_2 (sourceVersion = _) eq_refl). by rewrite !orb_true_r.
Qed.
End Sourced.
