(* ===== verification/Revalidation.v ===== *)
(** * Revalidation: asking again before acting

    [revalidateAuthorizedAction] of [contact-governance-service.ts]: what the facts of this moment say of
    a reservation made earlier, after an event of the governance streams; it reads and writes nothing. *)
From stdpp Require Import base tactics list strings relations.
From Stdlib Require Import ZArith Lia.
From S2P Require Import Prelude JsMap Text JsDate JsValue Contracts ContactPolicy RuleRegistry ScopeKey Windows Cg3Facts Temporal ExceptionEval Cg3Evaluator PolicyPreview Persistence Callbacks PolicyStore PolicyReader Rollout ExceptionStore FactLoader ReservationRuntime DeliveryCommands Governance GovernanceSystem.

Open Scope string_scope.
Open Scope Z_scope.
Open Scope list_scope.

Inductive SourceAggregateType := SRC_CONTACT | SRC_POLICY.
#[export] Instance SourceAggregateType_eq_dec : EqDecision SourceAggregateType.
Proof. solve_decision. Defined.

Inductive SourceContract := SRC_CG3 | SRC_CG4.
#[export] Instance SourceContract_eq_dec : EqDecision SourceContract.
Proof. solve_decision. Defined.

Record RevalidateAuthorizedActionInput := RevalidateInput {
  va_reservationId : string;
  va_actionKey : string;
  va_sourceAggregateType : SourceAggregateType;
  va_sourceAggregateId : string;
  va_sourceAggregateVersion : Z;
  va_contactKind : option string;
  va_sourceContract : option SourceContract;
  va_sourceEventType : option string;
  va_sourceScopeKey : option string;
}.

Record RevalidateAuthorizedActionOutcome := RevalidateOutcome {
  vo_decision : ContactDecision;
  vo_reasonCode : string;
  vo_observedAggregateVersion : Z;
  vo_observedPolicyVersion : option Z;
  vo_nextEligibleAt : option string;
  vo_decisionDigest : string;
}.

Definition KILL_SWITCH_CHANGED : string := "governance.kill-switch.changed".
Definition GOVERNANCE_CONTEXT_UNAVAILABLE : string := "GOVERNANCE_CONTEXT_UNAVAILABLE".

Section Revalidate.
Context `{Runtime, Host}.

(** The closure [digest]. *)
Definition decision_digest (decision : ContactDecision) (reasonCode : string) (aggregateVersion : Z) (policyVersion : option Z) : string :=
  sha256_hex (json_print (JObj
    [("decision", JStr (decision_text decision)); ("reasonCode", JStr reasonCode);
     ("aggregateVersion", JNum (NInt aggregateVersion));
     ("policyVersion", match policyVersion with Some v => JNum (NInt v) | None => JNull end)])).

Definition concluded (decision : ContactDecision) (reasonCode : string) (aggregateVersion : Z) (policyVersion : option Z)
  (nextEligibleAt : option string) : RevalidateAuthorizedActionOutcome :=
  RevalidateOutcome decision reasonCode aggregateVersion policyVersion nextEligibleAt
    (decision_digest decision reasonCode aggregateVersion policyVersion).

(** The closure [review]. *)
Definition review (reasonCode : string) (aggregateVersion : Z) (policyVersion : option Z) : RevalidateAuthorizedActionOutcome :=
  concluded REVIEW reasonCode aggregateVersion policyVersion None.

(** What the reservation's columns say of the request: the sender is the one that claimed it. *)
Definition reservation_request (r : ReservationRow) : AuthorizeAndReserveInput :=
  let b := rv_booking r in
  {| ai_contactId := Some (rv_contactId r); ai_identityId := rv_identityId r; ai_identityResolution := None;
     ai_channel := rv_channel r; ai_purpose := rv_purpose r; ai_source := rv_source r; ai_sourceId := bk_sourceId b;
     ai_actionKey := rv_actionKey r; ai_policyVersion := 0; ai_teamId := bk_teamId b;
     ai_contactKind := bk_authorizationContactKind b; ai_senderIdentityId := ls_senderIdentityId (rv_lease r) |}.

(** The version check of the source event, against the contact, the CG3 policy, the scope head or the
    kill switch it names. *)
Definition stale_source (g : Governance) (i : RevalidateAuthorizedActionInput) (facts : Cg3Facts) : option string :=
  if bool_decide (va_sourceContract i = Some SRC_CG4) && bool_decide (va_sourceAggregateType i = SRC_POLICY) then
    if bool_decide (va_sourceEventType i = Some KILL_SWITCH_CHANGED) then
      if js_some (fun k => bool_decide (ks_id k = va_sourceAggregateId i)) (ps_switches (gv_policies g)) then None
      else Some (review_reason_text GOVERNANCE_STATE_UNAVAILABLE)
    else
      match (key ← truthy (va_sourceScopeKey i); map_get key (ps_heads (gv_policies g))) with
      | Some head =>
          if hd_headVersion head <? va_sourceAggregateVersion i then Some (review_reason_text GOVERNANCE_VERSION_STALE) else None
      | None => Some (review_reason_text GOVERNANCE_VERSION_STALE)
      end
  else if (bool_decide (va_sourceAggregateType i = SRC_CONTACT) && (fa_aggregateVersion facts <? va_sourceAggregateVersion i)) ||
          (bool_decide (va_sourceAggregateType i = SRC_POLICY) &&
             (match fa_policy facts with Some p => pf_version p | None => 0 end <? va_sourceAggregateVersion i))
  then Some (review_reason_text GOVERNANCE_VERSION_STALE)
  else None.

Definition reservation_identity (g : Governance) (r : ReservationRow) : IdentityResolution :=
  match truthy (rv_identityId r) with
  | Some id => if includes (st_identities (gv_exceptions g)) (id, rv_contactId r) then ID_RESOLVED else ID_NOT_FOUND
  | None => ID_RESOLVED
  end.

(** The baseline of the reservation's contact, as it stands now. *)
Definition reservation_baseline (g : Governance) (r : ReservationRow) (policyVersion : option Z) (now : Z) : ContactPolicyResult :=
  let i := reservation_request r in
  let restriction :=
    rx_restriction <$> head (sort_by (fun a b => rx_startsAt b <=? rx_startsAt a)
                               (js_filter (restriction_applies (rv_contactId r) i now) (gv_restrictions g))) in
  let consent :=
    consent_facts now <$> head (sort_by (fun a b => cn_createdAt b <=? cn_createdAt a)
                                  (js_filter (consent_applies (rv_contactId r) i) (gv_consents g))) in
  evaluateContactPolicy (PolicyFacts (default 0 policyVersion) (reservation_identity g r) restriction consent).

(** The policy gate, which records no mismatch. *)
Definition revalidation_gate (g : Governance) (i : AuthorizeAndReserveInput) (facts : Cg3Facts) (now : Z)
  : Cg4AuthorizationReviewReason + Cg3GateOutcome :=
  let evaluate := evaluate_with i facts now in
  let request := request_scope i in
  let reader := cg4PolicyReaderFor (loadCg4RolloutState (gv_rollout g)) request in
  let read := loadCg4PolicyFacts (gv_policies g) request now in
  match rd_mode reader with
  | R_CG4 =>
      match read with
      | READ_FAIL_CLOSED reason _ => inl reason
      | _ => inr (evaluate (read_policy read))
      end
  | R_CG3 => inr (evaluate (fa_policy facts))
  | R_CG3_WITH_SHADOW =>
      let cg3 := evaluate (fa_policy facts) in
      if rd_pilot reader && negb (bool_decide (cg4ShadowDecisionDigest cg3 = cg4ShadowDecisionDigest (shadowOutcome read evaluate)))
      then inl GOVERNANCE_SHADOW_MISMATCH
      else inr cg3
  end.

Definition revalidateAuthorizedAction (g : Governance) (i : RevalidateAuthorizedActionInput) (now : Z)
  : RevalidateAuthorizedActionOutcome :=
  match js_find (fun r => reservation_by (va_reservationId i) r && bool_decide (rv_actionKey r = va_actionKey i)) (gv_reservations g) with
  | None => review GOVERNANCE_CONTEXT_UNAVAILABLE 0 None
  | Some r =>
      let b := rv_booking r in
      if negb (bk_authorizationContextVersion b =? 1) || negb (bool_decide (va_contactKind i = bk_authorizationContactKind b))
      then review GOVERNANCE_CONTEXT_UNAVAILABLE 0 None
      else if (va_sourceAggregateVersion i <? 1) ||
              (bool_decide (va_sourceAggregateType i = SRC_CONTACT) && negb (bool_decide (va_sourceAggregateId i = rv_contactId r)))
      then review GOVERNANCE_CONTEXT_UNAVAILABLE 0 None
      else
        let request := reservation_request r in
        let facts := loadCg3Facts (fact_tables g) (fact_query (rv_contactId r) request now) in
        let aggregateVersion := fa_aggregateVersion facts in
        let policyVersion := pf_version <$> fa_policy facts in
        match stale_source g i facts with
        | Some reason => review reason aggregateVersion policyVersion
        | None =>
            if kill_switch_covers g (switch_subject (rv_contactId r) request)
            then review GOVERNANCE_KILL_SWITCH_ACTIVE aggregateVersion policyVersion
            else
              let base := reservation_baseline g r policyVersion now in
              match cpr_decision base with
              | ALLOW =>
                  match revalidation_gate g request facts now with
                  | inl reason => review (review_reason_text reason) aggregateVersion policyVersion
                  | inr cg3 =>
                      concluded (default ALLOW (go_decision cg3)) (default "POLICY_PASSED" (go_reasonCode cg3))
                        aggregateVersion policyVersion (truthy (go_nextEligibleAt cg3))
                  end
              | decision => concluded decision (cpr_reasonCode base) aggregateVersion policyVersion None
              end
        end
  end.
End Revalidate.

(** ** Revalidation agrees with authorization *)

Section Agreement.
Context `{Runtime, Host}.

(** A gate that decides says why. *)
Lemma gate_reasons g i facts a b now : let o := gt_outcome (policy_gate g i facts a b now) in
  (go_decision o = None /\ go_reasonCode o = None) \/ (is_Some (go_decision o) /\ is_Some (go_reasonCode o)).
Proof.
  intros o. destruct (gate_outcome g i facts a b now) as [[p Hp]|(gate & code & Hp)]; fold o in Hp; rewrite Hp; [|right; cbn; eauto].
  unfold evaluate_with. match goal with |- context [evaluateCg3Policy ?x] => pose proof (evaluate_cases x) as Hc end.
  cbv zeta in Hc. destruct Hc as [(q & t & _ & _ & _ & ->)|[(Hd & Hr & _ & _) _]]; [by left|right].
  split; [|done]. destruct Hd as [->|[-> | ->]]; eauto.
Qed.

(** The gate of a revalidation is that of an authorization, but for the mismatch it does not record. *)
Lemma revalidation_gate_outcome g i facts a b now :
  match revalidation_gate g i facts now with
  | inl reason => go_decision (gt_outcome (policy_gate g i facts a b now)) = Some REVIEW /\
      go_reasonCode (gt_outcome (policy_gate g i facts a b now)) = Some (review_reason_text reason)
  | inr o => gt_outcome (policy_gate g i facts a b now) = o
  end.
Proof.
  unfold revalidation_gate, policy_gate. destruct (rd_mode _); [done| |].
  - destruct (rd_pilot _) eqn:Ep; cbn [andb]; [|by case_bool_decide]. by case_bool_decide.
  - destruct (loadCg4PolicyFacts _ _ _) eqn:El; unfold shadowOutcome; cbn; done.
Qed.

Lemma reservation_baseline_agrees g r policyVersion now :
  known_contact g (reservation_request r) = Some (rv_contactId r) ->
  let base := reservation_baseline g r policyVersion now in
  let there := baseline g (reservation_request r) now in
  cpr_decision base = cpr_decision there /\ cpr_reasonCode base = cpr_reasonCode there.
Proof.
  intros Hk. unfold reservation_baseline, baseline, active_restriction, current_consent. rewrite Hk.
  assert (Hid : identity_resolution g (reservation_request r) = reservation_identity g r).
  { unfold identity_resolution, reservation_identity, known_identity. rewrite Hk. cbn [reservation_request ai_identityResolution ai_identityId ai_contactId].
    destruct (truthy (rv_identityId r)) as [id|]; [|reflexivity]. destruct (includes _ _); reflexivity. }
  rewrite Hid. destruct (reservation_identity g r) eqn:E; try done.
  rewrite bool_decide_eq_true_2 by done. set (consent := consent_facts now <$> _).
  destruct (rx_restriction <$> _); [done|]. destruct consent as [c|]; cbn; [|done]. by destruct (co_status c).
Qed.

(** The reservation is the one the event's consumer means, under the context it was authorized in, and
    the source of the event is known and not ahead of the tables. *)
Record current_for (g : Governance) (i : RevalidateAuthorizedActionInput) (r : ReservationRow) (now : Z) : Prop := {
  cu_found : js_find (fun r => reservation_by (va_reservationId i) r && bool_decide (rv_actionKey r = va_actionKey i))
               (gv_reservations g) = Some r;
  cu_context : bk_authorizationContextVersion (rv_booking r) = 1;
  cu_kind : va_contactKind i = bk_authorizationContactKind (rv_booking r);
  cu_version : 1 <= va_sourceAggregateVersion i;
  cu_contact : va_sourceAggregateType i = SRC_CONTACT -> va_sourceAggregateId i = rv_contactId r;
  cu_fresh : stale_source g i (facts_for g (reservation_request r) now (rv_contactId r)) = None;
}.

(** A revalidation either holds the action back with a REVIEW, or finds the reservation current. *)
Lemma revalidation_cases g i now : let o := revalidateAuthorizedAction g i now in
  (vo_decision o = REVIEW /\ ~ exists r, current_for g i r now) \/
  exists r, current_for g i r now /\
    ((kill_switch_covers g (switch_subject (rv_contactId r) (reservation_request r)) = true /\
      vo_decision o = REVIEW /\ vo_reasonCode o = GOVERNANCE_KILL_SWITCH_ACTIVE) \/
     (kill_switch_covers g (switch_subject (rv_contactId r) (reservation_request r)) = false /\
      let facts := facts_for g (reservation_request r) now (rv_contactId r) in
      let base := reservation_baseline g r (pf_version <$> fa_policy facts) now in
      match cpr_decision base, revalidation_gate g (reservation_request r) facts now with
      | ALLOW, inl reason => vo_decision o = REVIEW /\ vo_reasonCode o = review_reason_text reason
      | ALLOW, inr cg3 => vo_decision o = default ALLOW (go_decision cg3) /\ vo_reasonCode o = default "POLICY_PASSED" (go_reasonCode cg3)
      | _, _ => vo_decision o = cpr_decision base /\ vo_reasonCode o = cpr_reasonCode base
      end)).
Proof.
  intros o. unfold o, revalidateAuthorizedAction. destruct (js_find _ _) as [r|] eqn:Ef.
  2:{ left. split; [done|]. intros (r & [Hf _ _ _ _ _]). congruence. }
  assert (Hone : forall r', current_for g i r' now -> r' = r) by (intros r' [Hf _ _ _ _ _]; congruence).
  destruct (negb (bk_authorizationContextVersion _ =? 1) || _) eqn:E1.
  { left. split; [done|]. intros (r' & Hc). pose proof (Hone r' Hc) as ->. destruct Hc as [_ Hv Hk _ _ _]. rewrite Hv, Hk in E1.
    by rewrite bool_decide_eq_true_2 in E1. }
  destruct ((va_sourceAggregateVersion i <? 1) || _) eqn:E2.
  { left. split; [done|]. intros (r' & Hc). pose proof (Hone r' Hc) as ->. destruct Hc as [_ _ _ Hv Hct _].
    apply orb_prop in E2 as [E2|E2]; [lia|]. apply andb_prop in E2 as [Ha Hb]. apply bool_decide_eq_true in Ha.
    apply negb_true_iff, bool_decide_eq_false in Hb. by apply Hb, Hct. }
  change (loadCg3Facts _ _) with (facts_for g (reservation_request r) now (rv_contactId r)). cbv zeta.
  destruct (stale_source _ _ _) as [reason|] eqn:E3.
  { left. split; [done|]. intros (r' & Hc). pose proof (Hone r' Hc) as ->. destruct Hc as [_ _ _ _ _ Hfr]. congruence. }
  right. exists r. bool_prop. split.
  { constructor; try done; try lia. intros Hs. rewrite Hs in *.
    destruct (bool_decide (va_sourceAggregateId i = _)) eqn:Eid; [by bool_prop|done]. }
  destruct (kill_switch_covers _ _) eqn:Ek; [by left|right; split; [done|]].
  destruct (cpr_decision _) eqn:Eb; try done. by destruct (revalidation_gate _ _ _ _).
Qed.

(** C22: asking again is authorizing again. A revalidation holds the action back with a REVIEW unless it
    finds the reservation under the context it was authorized in and the source of the event no newer
    than the tables. Otherwise it allows exactly when an authorization of the reservation's request would
    allow at this moment, and where no kill switch covers the request it gives that authorization's
    decision and reason. *)
Theorem revalidation_agrees g i now :
  let o := revalidateAuthorizedAction g i now in
  ((~ exists r, current_for g i r now) -> vo_decision o = REVIEW) /\
  (forall r a b v, current_for g i r now -> known_contact g (reservation_request r) = Some (rv_contactId r) ->
     judge g (reservation_request r) a b now = Ok v ->
     (vo_decision o = ALLOW <-> ve_decision v = ALLOW) /\
     (kill_switch_covers g (switch_subject (rv_contactId r) (reservation_request r)) = false ->
      vo_decision o = ve_decision v /\ vo_reasonCode o = ve_reasonCode v)).
Proof.
  intros o. pose proof (revalidation_cases g i now) as Hcases. cbv zeta in Hcases. fold o in Hcases.
  destruct Hcases as [[Hd Hno]|(r & Hcur & Hcase)].
  { split; [done|]. intros r a b v Hr. exfalso. apply Hno. by exists r. }
  split; [intros Hno; exfalso; apply Hno; by exists r|]. intros r' a b v Hcur' Hk Hj.
  assert (r' = r) as -> by (pose proof (cu_found _ _ _ _ Hcur); pose proof (cu_found _ _ _ _ Hcur'); congruence).
  pose proof (known_contact_truthy _ _ _ Hk) as [Hct _].
  destruct Hcase as [(Hks & Hdec & Hrs)|(Hks & Hcase)].
  - split; [|congruence]. rewrite Hdec. split; [done|]. intros Ha. exfalso.
    apply (judge_allows _ _ _ _ _ _ Hj) in Ha as (c & [Hkc _] & Hks' & _). congruence.
  - set (facts := facts_for g (reservation_request r) now (rv_contactId r)) in *. cbv zeta in Hcase.
    set (base := reservation_baseline g r (pf_version <$> fa_policy facts) now) in *.
    destruct (reservation_baseline_agrees g r (pf_version <$> fa_policy facts) now Hk) as [Hbd Hbr]. fold base in Hbd, Hbr.
    enough (Hag : vo_decision o = ve_decision v /\ vo_reasonCode o = ve_reasonCode v) by (split; [by rewrite (proj1 Hag)|done]).
    unfold judge in Hj. rewrite Hct, Hks in Hj. rewrite <- Hbd, <- Hbr in Hj.
    destruct (cpr_decision base) eqn:Eb; try (injection Hj as <-; exact Hcase).
    change (loadCg3Facts _ _) with facts in Hj. open_bind Hj pins Hp. injection Hj as <-. cbn [ve_decision ve_reasonCode].
    pose proof (revalidation_gate_outcome g (reservation_request r) facts a b now) as Hg.
    pose proof (gate_reasons g (reservation_request r) facts a b now) as Hw. cbv zeta in Hw.
    destruct (revalidation_gate _ _ _ _) as [reason|cg3]; [destruct Hg as [Hgd Hgr]; rewrite Hgd, Hgr; exact Hcase|].
    rewrite Hg in Hw |- *. destruct Hcase as [-> ->].
    destruct Hw as [[-> ->]|[[d ->] [code ->]]]; done.
Qed.
End Agreement.
