(* ===== verification/GovernanceScenario.v ===== *)
(** * GovernanceScenario: a worked tenant

    A contact who gave consent and asked to be called back at a quiet hour: her call is authorized once,
    uses the callback up and is repeated. An exception that lifts the quiet hours of another tenant, and
    a tenant whose policies moved to the studio's heads. The theorems of [GovernanceTheorems] at them. *)
From stdpp Require Import base tactics list strings relations.
From Stdlib Require Import ZArith Lia.
From S2P Require Import Prelude JsMap Text JsDate JsValue Contracts ContactPolicy RuleRegistry ScopeKey Windows Cg3Facts PolicyCompiler Temporal ExceptionEval Cg3Evaluator PolicyPreview Authorization Persistence Callbacks PolicyStore PolicyLifecycle PolicySystem PolicyScenario PolicyTheorems PolicyReader Rollout ExceptionStore ExceptionSystem ExceptionTheorems FactLoader ReservationRuntime DeliveryCommands Governance GovernanceSystem GovernanceTheorems.

Open Scope string_scope.
Open Scope Z_scope.
Open Scope list_scope.

(** ** A callback at a quiet hour *)

#[local] Existing Instance two_zone_host.
#[local] Existing Instance demo_host.

(** Monday, 5 January 2026, 21:00 in Bangkok. *)
Definition late_monday : Z := 1767621600000.

Definition quiet_monday : Cg3PolicyRow :=
  {| c3_policyId := "house"; c3_version := 3; c3_channel := None; c3_purpose := None; c3_contactKind := None;
     c3_timezoneFallback := Some "Asia/Bangkok"; c3_quietHours := [Window [1] "20:00" "22:00"];
     c3_callbackMode := SCOPED_OVERRIDE; c3_overridableRules := ["QUIET_HOURS"]; c3_published := true;
     c3_effectiveFrom := 0; c3_effectiveTo := None; c3_publishedAt := Some 0 |}.

Definition ann_consents : ConsentRow := ConsentRow_ "ann" None "SERVICE" VOICE GRANTED "CONTRACT" None 0.

Definition tenant_of (exceptions : Store) (policies : PolicyStore) (rows : list Cg3PolicyRow) (consents : list ConsentRow)
  (rollout : RolloutTables) : Governance :=
  {| gv_exceptions := exceptions; gv_policies := policies; gv_preferences := []; gv_cg3Policies := rows;
     gv_holidays := []; gv_restrictions := []; gv_consents := consents; gv_rollout := rollout;
     gv_callbacks := CallbackTables_ [] [] [] 0; gv_mismatches := []; gv_reservations := [];
     gv_facts := no_facts; gv_decisions := [] |}.

Definition ann_tenant : Governance :=
  tenant_of (empty_store ["ann"] [("i1", "ann")] []) empty_policies [quiet_monday] [ann_consents] empty_rollout.

Definition ann_asks (sourceVersion : option string) : RequestCallbackInput :=
  RequestCallbackInput_ "t" "ann" (Some "i1") VOICE "SERVICE" "2026-01-05T13:00:00.000Z" "Asia/Bangkok"
    "2026-01-05T15:00:00.000Z" "AGENT" sourceVersion "ev" "AGENT" "maria" "k1" 0 "corr".

Definition call_ann (key : string) : AuthorizeAndReserveInput :=
  AuthorizeInput (Some "ann") (Some "i1") None VOICE "SERVICE" "DIALER" "d1" key 3 None None None.

Definition asked (sourceVersion : option string) : Governance :=
  match request ["ann"] [("i1", "ann")] (CallbackTables_ [] [] [] 0) (ann_asks sourceVersion) late_monday with
  | Ok (_, c) => with_callbacks c ann_tenant
  | Err _ => ann_tenant
  end.

Definition called : Governance := Eval vm_compute in
  match authorizeAndReserve (asked None) (call_ann "act") late_monday with Ok (_, g) => g | Err _ => ann_tenant end.
Definition call_outcome : option AuthorizationOutcome := Eval vm_compute in
  match authorizeAndReserve (asked None) (call_ann "act") late_monday with Ok (o, _) => Some o | Err _ => None end.

Definition at_rest (g : Governance) : Tenant := Tenant_ g [] [].

Lemma ann_new : new_tenant (at_rest ann_tenant).
Proof. split; [by eexists _, _, _|]. split; [reflexivity|]. repeat (split; [reflexivity|]). reflexivity. Qed.

Lemma asked_step sourceVersion c r :
  request ["ann"] [("i1", "ann")] (CallbackTables_ [] [] [] 0) (ann_asks sourceVersion) late_monday = Ok (r, c) ->
  governed (at_rest (asked sourceVersion)).
Proof.
  intros Hr. exists (at_rest ann_tenant). split; [exact ann_new|]. apply rtc_once. unfold asked. rewrite Hr.
  by eapply G_request.
Qed.

Lemma asked_governed : governed (at_rest (asked None)).
Proof. eapply asked_step. vm_compute. reflexivity. Qed.

Lemma called_outcome : exists o, call_outcome = Some o /\ ao_decision o = ALLOW /\
  authorizeAndReserve (asked None) (call_ann "act") late_monday = Ok (o, called).
Proof. eexists. split; [|split]; vm_compute; reflexivity. Qed.

Lemma called_governed : governed (at_rest called).
Proof.
  destruct asked_governed as (n0 & Hn & Hs). exists n0. split; [exact Hn|]. etrans; [exact Hs|]. apply rtc_once.
  destruct called_outcome as (o & _ & _ & Ho). by eapply G_authorize.
Qed.

Lemma one_reservation_per_action_witness :
  match gv_decisions called with [d] => exists r, reservation_of called d = Some r /\ booked d r | _ => False end.
Proof.
  destruct (one_reservation_per_action (at_rest called) called_governed) as (_ & _ & Hd & _).
  change (match gv_decisions called with [d] => exists r, reservation_of called d = Some r /\ booked d r | _ => False end).
  destruct (gv_decisions called) as [|d [|]] eqn:E; [discriminate E| |discriminate E].
  specialize (Hd d). cbn [tn_tables at_rest] in Hd. rewrite E in Hd. specialize (Hd (or_introl eq_refl)).
  destruct (reservation_of called d) as [r|] eqn:Er.
  - by exists r.
  - exfalso. destruct Hd as [Ha _]. apply Ha. assert (Hf : [d] = gv_decisions called) by (by rewrite E).
    injection Hf as ->. reflexivity.
Defined.

(** Ten minutes later the same input is repeated, and another identity tries the same action. *)
Lemma authorize_idempotent_witness : exists o, call_outcome = Some o /\
  authorizeAndReserve called (call_ann "act") (late_monday + 600000) = Ok (o, called).
Proof.
  destruct called_outcome as (o & Ho & _ & Hc). exists o. split; [exact Ho|].
  pose proof (authorize_idempotent (at_rest (asked None)) (call_ann "act") late_monday o called (at_rest called)
    (call_ann "act") (late_monday + 600000) asked_governed Hc (rtc_refl _ _) eq_refl) as Hr.
  rewrite bool_decide_eq_true_2 in Hr by reflexivity. exact Hr.
Defined.

Lemma callback_used_once_witness :
  match cl_rows (gv_callbacks called) with
  | [asked_row; used] => cq_mutationKind used = CB_CONSUME /\ cq_supersedesId used = Some (cq_id asked_row) /\
      used_by (gv_decisions called) (cl_rows (gv_callbacks called)) used
  | _ => False
  end.
Proof.
  destruct (callback_used_once (at_rest called) called_governed) as [Hu _]. cbn [tn_tables at_rest] in Hu.
  destruct (cl_rows (gv_callbacks called)) as [|a [|b [|]]] eqn:E; try discriminate E.
  injection E as <- <-. do 2 (split; [reflexivity|]). apply Hu; [right; by left|reflexivity].
Defined.

Lemma authorize_allows_iff_witness :
  exists c, baseline_open (asked None) (call_ann "act") late_monday c /\
    kill_switch_covers (asked None) (switch_subject c (call_ann "act")) = false.
Proof.
  destruct called_outcome as (o & _ & Ho & Hc).
  destruct (authorize_allows_iff (asked None) (call_ann "act") late_monday o called Hc eq_refl) as [[Ha _] _].
  destruct Ha as (c & Hb & Hk & _); [exact Ho|]. exists c. split; [exact Hb|exact Hk].
Defined.

(** The same callback recorded with the version of its source. *)
Lemma sourced_governed : governed (at_rest (asked (Some "form-7"))).
Proof. eapply asked_step. vm_compute. reflexivity. Qed.

Lemma sourced_callback_unusable_witness :
  authorizeAndReserve (asked (Some "form-7")) (call_ann "act") late_monday = Err (CallbackWrite CB_UNIQUE_VIOLATION).
Proof.
  destruct (cl_rows (gv_callbacks (asked (Some "form-7")))) as [|c [|]] eqn:E; try (vm_compute in E; discriminate E).
  destruct (judge (asked (Some "form-7")) (call_ann "act") "6" "7" late_monday) as [v|] eqn:Ev;
    [|vm_compute in Ev; discriminate Ev].
  apply (sourced_callback_unusable (at_rest (asked (Some "form-7"))) (call_ann "act") late_monday v c "form-7" sourced_governed).
  - reflexivity.
  - exact Ev.
  - cbn [tn_tables at_rest]. rewrite E. by left.
  - vm_compute in Ev, E. injection Ev as <-. injection E as <-. reflexivity.
  - vm_compute in E. injection E as <-. reflexivity.
Defined.

(** ** Policies from the studio's heads *)

Definition switched_tenant : Governance :=
  tenant_of (empty_store ["ann"] [("i1", "ann")] []) first_store [] [ann_consents] enabled.

Definition switched_outcome : AuthorizationOutcome * Governance := Eval vm_compute in
  match authorizeAndReserve switched_tenant (call_ann "act") noon_ms with
  | Ok p => p
  | Err _ => (Outcome "" BLOCK "" 0 [] None None None None None None None None None None, switched_tenant)
  end.

Lemma switched_authorizes : authorizeAndReserve switched_tenant (call_ann "act") noon_ms =
  Ok (fst switched_outcome, snd switched_outcome).
Proof. vm_compute. reflexivity. Qed.

Lemma switched_decision_pins_head_witness : exists r,
  serves first_store (request_scope (call_ann "act")) r /\
  pinned_policy (fst switched_outcome) = Some (PolicyBinding (pr_policyId r) (pr_id r) (pr_version r)
    (pr_contentDigest r) CG4_POLICY_SCHEMA_VERSION CG4_RULE_REGISTRY_VERSION CG4_EVALUATOR_VERSION).
Proof.
  destruct (switched_decision_pins_head demo_fresh_some demo_fresh_inj (PolicySystem_ first_store [])
    (PolicySystem_ first_store []) switched_tenant (call_ann "act") noon_ms
    (fst switched_outcome) (snd switched_outcome)) as (_ & c & _ & Hor).
  - exact first_reachable.
  - apply rtc_refl.
  - reflexivity.
  - reflexivity.
  - vm_compute. reflexivity.
  - exact switched_authorizes.
  - reflexivity.
  - reflexivity.
  - destruct Hor as [(r & compiled & Hs & _ & _ & _ & Hp)|[Hno _]]; [exists r; split; [exact Hs|exact Hp]|].
    exfalso. apply (Hno first_row); [by left|reflexivity|vm_compute; reflexivity].
Defined.

(** ** An exception to the quiet hours *)

#[local] Existing Instance demo_runtime.

Definition quiet_thursday : Cg3PolicyRow :=
  {| c3_policyId := "house"; c3_version := 3; c3_channel := None; c3_purpose := None; c3_contactKind := None;
     c3_timezoneFallback := Some "UTC"; c3_quietHours := [Window [4] "00:00" "03:00"];
     c3_callbackMode := SCOPED_OVERRIDE; c3_overridableRules := []; c3_published := true;
     c3_effectiveFrom := 0; c3_effectiveTo := None; c3_publishedAt := Some 0 |}.

(** The policy version the exceptions are bound to. *)
Definition bound_version : PolicyVersion :=
  PolicyVersion_ (VersionIdentity_ "p-1" "p" 1 any_scope CG4_RULE_REGISTRY_VERSION 1 CG4_EVALUATOR_VERSION 0 "maria" None)
    (DraftColumns_ (JObj [("allowedOperationalRuleCodes", JArr [JStr "QUIET_HOURS"; JStr "MIN_GAP"])]) demo_digest 1)
    no_binding drafted.

Definition excepted : Governance :=
  tenant_of demo_final
    (with_policies [bound_version] empty_policies) [quiet_thursday]
    [ConsentRow_ "ann" None "MARKETING" VOICE GRANTED "CONSENT" None 0] empty_rollout.

Definition campaign_call : AuthorizeAndReserveInput :=
  AuthorizeInput (Some "ann") (Some "i1") None VOICE "MARKETING" "CAMPAIGN" "c1" "act" 3 None None None.

Definition half_past : Z := demo_now + 1800000.

Definition excepted_outcome : AuthorizationOutcome * Governance := Eval vm_compute in
  match authorizeAndReserve excepted campaign_call half_past with
  | Ok p => p
  | Err _ => (Outcome "" BLOCK "" 0 [] None None None None None None None None None None, excepted)
  end.

Lemma excepted_authorizes : authorizeAndReserve excepted campaign_call half_past =
  Ok (fst excepted_outcome, snd excepted_outcome).
Proof. vm_compute. reflexivity. Qed.

Lemma applied_exception_approved_witness : exists pins pin c r,
  ao_cg4 (fst excepted_outcome) = Some pins /\ dp_appliedExceptions pins = [pin] /\ pin_matchedRuleCode pin = "QUIET_HOURS" /\
  backed_by excepted campaign_call half_past c pin r /\ stopped_but_for excepted campaign_call half_past c pin.
Proof.
  destruct (ao_cg4 (fst excepted_outcome)) as [pins|] eqn:Ep; [|discriminate Ep].
  destruct (dp_appliedExceptions pins) as [|pin [|]] eqn:El; try (injection Ep as <-; discriminate El).
  exists pins, pin.
  destruct (applied_exception_approved demo_fresh_inj excepted [] campaign_call half_past (fst excepted_outcome)
    (snd excepted_outcome) pins pin) as (_ & c & r & _ & Hb).
  - exact demo_final_reachable.
  - exact excepted_authorizes.
  - reflexivity.
  - exact Ep.
  - rewrite El. by left.
  - exists c, r. split; [reflexivity|]. split; [exact El|]. split; [|exact Hb].
    injection Ep as <-. injection El as <-. reflexivity.
Defined.
