(* ===== verification/DeliveryTheorems.v ===== *)
(** * DeliveryTheorems: what a reservation guarantees to a delivery

    The contract of [ContactGovernancePort] over the histories of a tenant: the rows refine the machine
    of [DeliveryCommands], a submission is that of an allowing decision the contact has not changed
    since, outcomes are final, and the attempts and touches follow them. The operations of a history come
    one after another; the last theorem is what the sweep does to a command it is not kept from. *)
From stdpp Require Import base tactics list strings relations.
From Stdlib Require Import ZArith Lia.
From S2P Require Import Prelude JsMap Text JsDate JsValue Contracts ContactPolicy ScopeKey Persistence Callbacks PolicyStore PolicySystem PolicyReader Rollout ExceptionStore ExceptionSystem FactLoader ReservationRuntime DeliveryCommands Governance GovernanceSystem GovernanceTheorems.

Open Scope string_scope.
Open Scope Z_scope.
Open Scope list_scope.

Section Rows.
Context `{Runtime, Host}.

(** Every step of a tenant moves each reservation by at most one step of the contract, and adds
    unclaimed ones. *)
Lemma step_rows n n' : kept (tn_tables n) -> governance_step n n' -> exists old new,
  gv_reservations (tn_tables n') = old ++ new /\ Forall2 row_step (gv_reservations (tn_tables n)) old /\
  forall r, In r new -> has_phase r Unclaimed.
Proof.
  intros Hk Hs.
  assert (Hsame : forall g, exists old new : list ReservationRow, gv_reservations g = old ++ new /\
    Forall2 row_step (gv_reservations g) old /\ forall r, In r new -> has_phase r Unclaimed).
  { intros g. exists (gv_reservations g), []. rewrite app_nil_r. split; [done|]. split; [|done].
    apply still_row_steps, still_refl. }
  destruct Hs as [g es ps i now o g' Hok|g es ps i now r c Hok|g es ps id command now r g' Hok
    |g es ps limit now k g' Hok|g es ps t Hr|g es ps s es' Hs|g es ps s ps' Hs|g es ps ledger input q now t s Hok
    |g es ps input frozen now t s Hok|g es ps pf po ho re co]; cbn [tn_tables] in *; try (exact (Hsame g)).
  - destruct (authorize_cases _ _ _ _ _ Hok) as [(d & _ & _ & _ & ->)|(_ & v & r & rows & [_ _ Hr _ Hre _] & _)]; [exact (Hsame g)|].
    rewrite Hre. exists (gv_reservations g), (match r with Some x => [x] | None => [] end). split; [done|].
    split; [apply still_row_steps, still_refl|]. intros x Hx.
    apply reserve_ok in Hr as [[_ ->]|(_ & c & _ & -> & _)]; [done|]. by destruct Hx as [<-|[]].
  - destruct (reservations_change _ _ _ _ _ _ Hk Hok) as (rs & -> & Hf). exists rs, []. cbn. rewrite app_nil_r.
    split; [done|]. split; [by apply still_row_steps|done].
  - destruct (reservations_sweep _ _ _ _ _ Hk Hok) as (rs & -> & Hf). exists rs, []. cbn. rewrite app_nil_r.
    split; [done|]. split; [by apply still_row_steps|done].
  - exists (rt_reservations t), []. cbn. rewrite app_nil_r. split; [done|]. split; [|done].
    by apply (runtime_step_ok _ _ _ (kp_runtime _ Hk) Hr).
Qed.

(** C5: reservations follow the delivery contract. In every history of a tenant each reservation is in
    a phase the contract's machine can reach, its columns being those of the phase; a step of any
    component leaves it or moves it by one step of the machine and never changes what was booked; and
    the reservations a step adds are unclaimed. *)
Theorem delivery_refines n n' : governed n -> governance_step n n' ->
  (forall r, In r (gv_reservations (tn_tables n)) -> exists p, has_phase r p /\ phase_reachable (rv_expiresAt r) p) /\
  exists old new, gv_reservations (tn_tables n') = old ++ new /\
    Forall2 (fun r r' => rv_booking r' = rv_booking r /\
      forall p, has_phase r p -> phase_reachable (rv_expiresAt r) p ->
        exists p', has_phase r' p' /\ (p' = p \/ phase_moves (rv_expiresAt r) p p'))
      (gv_reservations (tn_tables n)) old /\
    forall r, In r new -> has_phase r Unclaimed.
Proof.
  intros Hg Hs. pose proof (governed_kept n Hg) as Hk. split; [|by apply step_rows]. apply (ru_rows _ (kp_runtime _ Hk)).
Qed.

(** A reservation later in its history: the path its phase took. *)
Lemma later_row n n' r : governed n -> governance_steps n n' -> In r (gv_reservations (tn_tables n)) ->
  exists r' p p', In r' (gv_reservations (tn_tables n')) /\ rv_booking r' = rv_booking r /\ has_phase r p /\
    phase_reachable (rv_expiresAt r) p /\ has_phase r' p' /\ rtc (phase_moves (rv_expiresAt r)) p p'.
Proof.
  intros Hg Hs Hr. pose proof (governed_kept n Hg) as Hk.
  destruct (governance_steps_kept _ _ Hs Hk) as [_ [_ (rs & rs' & Hrs & Hf) _ _]].
  destruct (Forall2_In_l _ _ _ _ Hf Hr) as (r' & Hr' & Hst). destruct (row_steps_phases _ _ Hst) as [Hb Hp].
  destruct (ru_rows _ (kp_runtime _ Hk) r Hr) as (p & Hph & Hre). destruct (Hp p Hph Hre) as (p' & Hph' & Hpath).
  exists r', p, p'. split; [rewrite Hrs; apply in_app_iff; by left|]. done.
Qed.

(** C19: the first terminal outcome wins. Once a reservation closed (it was released, or settled with an
    outcome), no later operation changes it in any column. *)
Theorem first_outcome_wins n n' r : governed n -> governance_steps n n' -> In r (gv_reservations (tn_tables n)) ->
  closed r = true -> In r (gv_reservations (tn_tables n')).
Proof.
  intros Hg Hs Hr Hc. destruct (later_row n n' r Hg Hs Hr) as (r' & p & p' & Hr' & Hb & Hp & Hre & Hp' & Hpath).
  assert (Ht : is_terminal p = true).
  { unfold has_phase in Hp. destruct r as [bo lo su ou]. cbn in Hp. unfold closed, status, rv_settlementStatus, rv_terminalOutcome in Hc.
    destruct p; cbn in Hp; injection Hp as -> -> ->; cbn in Hc; done. }
  apply (terminal_stays _ _ _ Ht) in Hpath as ->. unfold has_phase in *.
  assert (r' = r) as <-; [|done]. destruct r, r'. cbn in *. congruence.
Qed.

(** C7: after the submission barrier a reservation belongs to its delivery. Whatever happens to it later
    - the lease or the reservation running out, the sweep, a cancellation - it keeps the delivery, the
    sender, the request key and the start of the submission, and it is given up only on the provider's
    word: it is released only by a rejection and refunded only by a failed delivery. *)
Theorem barrier_holds n n' r s : governed n -> governance_steps n n' -> In r (gv_reservations (tn_tables n)) ->
  rv_submissionStartedAt r = Some s -> exists r', In r' (gv_reservations (tn_tables n')) /\
    rv_booking r' = rv_booking r /\ rv_lease r' = rv_lease r /\ rv_submission r' = rv_submission r /\
    (rv_state r' = RELEASED -> rv_terminalOutcome r' = Some PROVIDER_REJECTED) /\
    (rv_state r' = REFUNDED -> rv_terminalOutcome r' = Some DELIVERY_FAILED).
Proof.
  intros Hg Hs Hr Hst. destruct (later_row n n' r Hg Hs Hr) as (r' & p & p' & Hr' & Hb & Hp & Hre & Hp' & Hpath).
  exists r'. split; [done|]. split; [done|].
  assert (Hx : exists x, submission_of p = Some x).
  { unfold has_phase in Hp. destruct r as [bo lo su ou]. cbn in Hp, Hst. unfold rv_submissionStartedAt in Hst. cbn in Hst.
    destruct p as [| | | | |[]|]; cbn in Hp |- *; injection Hp as -> -> ->; by eauto || done. }
  destruct Hx as [x Hx]. pose proof (submission_stays _ _ _ _ Hx Hpath) as Hx'.
  assert (Hwf : phase_wf (rv_expiresAt r) p') by (apply reachable_phase_wf; unfold phase_reachable in *; by etrans).
  unfold has_phase in Hp, Hp'. destruct r as [bo lo su ou], r' as [bo' lo' su' ou']. unfold rv_state, rv_terminalOutcome. cbn in *.
  assert (Hcols : forall q h key st, submission_of q = Some (h, key, st) ->
    fst (fst (columns_of q)) = lease_of h /\ snd (fst (columns_of q)) = Submission (Some key) (Some st)).
  { intros q h key st Hq. destruct q; cbn in Hq |- *; try done; by injection Hq as -> -> ->. }
  destruct x as [[h key] st]. destruct (Hcols p _ _ _ Hx) as [H1 H2], (Hcols p' _ _ _ Hx') as [H3 H4].
  rewrite <- Hp in H1, H2. rewrite <- Hp' in H3, H4. cbn in *. split; [congruence|]. split; [congruence|].
  destruct p'; cbn in Hx', Hp', Hwf; try done; injection Hp' as -> -> ->; cbn; try done.
  destruct Hwf as (_ & _ & Hset). by inversion Hset.
Qed.
End Rows.

Section Facts.
Context `{Runtime, Host}.

(** C20: attempts and touches follow the outcomes, under every settlement policy. Each attempt is that of
    a reservation settled with its outcome, about its delivery, contact and channel, and a reservation
    has at most one; each touch is of one attempt, which was seen as delivered, or which the provider
    accepted and a response answered; and an attempt has at most one touch. *)
Theorem facts_follow_outcomes n : governed n ->
  let rows := gv_reservations (tn_tables n) in
  let f := gv_facts (tn_tables n) in
  (forall a, In a (df_attempts f) -> exists r, In r rows /\ attempt_of r a) /\
  (forall a b, In a (df_attempts f) -> In b (df_attempts f) -> fc_reservationId a = fc_reservationId b -> a = b) /\
  (forall t, In t (df_touches f) -> exists a, In a (df_attempts f) /\ touches a t) /\
  (forall t u, In t (df_touches f) -> In u (df_touches f) -> tc_attemptId t = tc_attemptId u -> t = u).
Proof.
  intros Hg rows f. pose proof (kp_runtime _ (governed_kept n Hg)) as [Hid _ _ _ [Hi Hr Ha Ht Hto]]. cbn in *.
  split; [exact Ha|]. split; [|split; [exact Hto|]].
  - intros a b Hina Hinb Hab. destruct (Ha a Hina) as (ra & Hra & Hfa), (Ha b Hinb) as (rb & Hrb & Hfb).
    assert (ra = rb) as ->.
    { apply (NoDup_map_inj rv_id (gv_reservations (tn_tables n))); [done..|].
      destruct Hfa as [<- _], Hfb as [<- _]. done. }
    destruct Hfa as (_ & _ & _ & Hrefa & _), Hfb as (_ & _ & _ & Hrefb & _).
    apply (NoDup_map_inj fc_outcomeRef (df_attempts f)); [done..|]. congruence.
  - intros t u Hint Hinu He. by apply (NoDup_map_inj tc_attemptId (df_touches f)).
Qed.

(** C6: a submission is authorized. A delivery first crosses the submission barrier only on the
    reservation of a decision that allowed the same action, which it claimed under a lease that has not
    run out, at most fifteen minutes after the decision; and the contact's governance state is at the
    very version the decision was made at. *)
Theorem submission_authorized n policyOf i now v t' : governed n ->
  let g := tn_tables n in
  execute (contact_version (gv_exceptions g)) policyOf (runtime_of g) (C_begin i) now = Ok (v, t') ->
  find_receipt (gv_facts g) OP_BEGIN_SUBMISSION (dm_reservationId (bg_command i)) = None ->
  exists r d lease, In r (gv_reservations g) /\ In d (gv_decisions g) /\ booked d r /\
    rv_id r = dm_reservationId (bg_command i) /\ dl_actionKey d = dm_actionKey (bg_command i) /\
    rv_deliveryId r = Some (bg_deliveryId i) /\ rv_leaseExpiresAt r = Some lease /\
    now < lease <= dl_decidedAt d + RESERVATION_TTL_MS /\
    dl_aggregateVersion d = Some (contact_version (gv_exceptions g) (rv_contactId r)) /\
    In (barred i now r) (rt_reservations t').
Proof.
  intros Hg g Hok Hno. pose proof (governed_kept n Hg) as Hk. fold g in Hk.
  destruct (execute_cases _ _ _ _ _ _ _ Hok) as [(k & Hsome & _)|(_ & at_ & r & t1 & _ & Hr & Ha & Hh & ->)].
  { cbn in Hsome. congruence. }
  cbn in Hr, Ha, Hh. apply find_some in Hr as [Hr Hid]. unfold reservation_by in Hid. bool_prop.
  destruct (lg_reservation _ _ (kp_logged _ Hk) r Hr) as (d & Hd & Hb). pose proof Hb as (_ & _ & Hkey & _ & _ & _ & _ & Hexp & Hver & [ver Hdv]).
  destruct (ru_rows _ (kp_runtime _ Hk) r Hr) as (p & Hp & Hre). apply reachable_phase_wf in Hre.
  unfold begin_handler in Hh. open_bind Hh u Hu. guards Hh. open_bind Hh lease Hl. apply lease_guard in Hl as [_ Hl]. guards Hh.
  apply rewrite_ok in Hh as ->. exists r, d, lease.
  assert (Hle : lease <= rv_expiresAt r).
  { unfold has_phase in Hp. unfold rv_leaseExpiresAt in Hl. destruct r as [bo lo su ou]. cbn in Hp, Hl.
    destruct p as [| | | | |[]|]; cbn in Hp, Hre; injection Hp as -> -> ->; cbn in Hl; try done;
      injection Hl as <-; naive_solver. }
  assert (Hdl : rv_deliveryId r = Some (bg_deliveryId i)).
  { unfold assertDeliveryBinding, assertActionBinding, fail_if in Hu. open_bind Hu w Hw. apply throw_if_ok in Hu. by bool_prop. }
  split_and?; try done; try congruence; try lia.
  - rewrite Hver, Hdv in *. bool_prop. by f_equal.
  - cbn. apply (update_where_hit _ (fun _ => barred i now r) _ r); [done|]. unfold reservation_by. by apply bool_decide_eq_true.
Qed.
End Facts.

Section Commands.
Context `{Runtime, Host}.

(** The same command under another correlation identifier. *)
Definition correlated (k : string) (c : DeliveryCommand) : DeliveryCommand :=
  DeliveryCommand_ (dm_tenantId c) k (dm_reservationId c) (dm_actionKey c).

Definition with_correlation (k : string) (c : Command) : Command :=
  match c with
  | C_claim i => C_claim (ClaimInput (correlated k (cl_command i)) (cl_deliveryId i) (cl_contactId i) (cl_identityId i)
                            (cl_channel i) (cl_purpose i) (cl_senderIdentityId i) (cl_leaseExpiresAt i))
  | C_renew i => C_renew (RenewInput (correlated k (rn_command i)) (rn_deliveryId i) (rn_expectedLeaseVersion i) (rn_leaseExpiresAt i))
  | C_begin i => C_begin (BeginInput (correlated k (bg_command i)) (bg_deliveryId i) (bg_expectedLeaseVersion i) (bg_providerRequestKey i))
  | C_confirm i => C_confirm (ConfirmInput (correlated k (cf_command i)) (cf_deliveryId i) (cf_providerRequestKey i))
  | C_release i => C_release (ReleaseInput (correlated k (rl_command i)) (rl_deliveryId i) (rl_reason i))
  | C_settle i => C_settle (SettleInput (correlated k (se_command i)) (se_deliveryId i) (se_providerRequestKey i) (se_outcomeRef i)
                              (se_outcome i) (se_rejectionScope i) (se_occurredAt i))
  end.

Lemma with_correlation_same k c : receipt_key (with_correlation k c) = receipt_key c /\
  command_hash (with_correlation k c) = command_hash c /\ parsed (with_correlation k c) = parsed c /\
  dm_reservationId (command_of (with_correlation k c)) = dm_reservationId (command_of c).
Proof. by destruct c. Qed.

(** A command whose receipt is there. *)
Lemma execute_repeated cv policyOf t c now k : find_receipt (rt_facts t) (fst (receipt_key c)) (snd (receipt_key c)) = Some k ->
  (exists at_, parsed c = Ok at_) -> execute cv policyOf t c now =
    if bool_decide (cr_reservationId k = dm_reservationId (command_of c)) && bool_decide (cr_inputHash k = command_hash c)
    then Ok (cr_response k, t) else Err (ReservationBindingError RESERVATION_IDEMPOTENCY_CONFLICT).
Proof.
  intros Hk Hp. rewrite execute_command. destruct Hp as [at_ ->]. cbn [mbind result_bind].
  unfold run_command. rewrite Hk. unfold fail_if. by repeat case_bool_decide.
Qed.

(** C21: delivery commands are idempotent. Once a command succeeded, the same command - whatever its
    correlation identifier, at any later time and in whatever state - is answered with the same view
    and changes nothing; another input under its key is refused. *)
Theorem commands_idempotent n policyOf c now v t' n' : governed n -> branded c ->
  execute (contact_version (gv_exceptions (tn_tables n))) policyOf (runtime_of (tn_tables n)) c now = Ok (v, t') ->
  governance_steps (Tenant_ (with_runtime t' (tn_tables n)) (tn_exceptions n) (tn_policies n)) n' ->
  let later := execute (contact_version (gv_exceptions (tn_tables n'))) in
  (forall policyOf' now' k, later policyOf' (runtime_of (tn_tables n')) (with_correlation k c) now' = Ok (v, runtime_of (tn_tables n'))) /\
  (forall policyOf' now' c2, receipt_key c2 = receipt_key c -> (exists at_, parsed c2 = Ok at_) -> command_hash c2 <> command_hash c ->
     later policyOf' (runtime_of (tn_tables n')) c2 now' = Err (ReservationBindingError RESERVATION_IDEMPOTENCY_CONFLICT)).
Proof.
  intros Hg Hb Hok Hs later. pose proof (governed_kept n Hg) as Hk. pose proof (kp_runtime _ Hk) as Hr.
  destruct (execute_receipt _ _ _ _ _ _ _ Hr Hb Hok) as (k & Hfind & Hid & Hh & Hv).
  assert (Hk' : kept (with_runtime t' (tn_tables n))) by (apply runtime_kept; [done|by econstructor]).
  destruct (governance_steps_kept _ _ Hs Hk') as [_ [_ _ _ [ks Hks]]]. cbn in Hks.
  apply (find_receipt_grows _ (rt_facts (runtime_of (tn_tables n'))) _ _ _ _ Hks) in Hfind.
  assert (Hp : (exists at_, parsed c = Ok at_)).
  { rewrite execute_command in Hok. open_bind Hok at_ Hat. by exists at_. }
  split.
  - intros policyOf' now' x. destruct (with_correlation_same x c) as (E1 & E2 & E3 & E4).
    unfold later. rewrite (execute_repeated _ _ _ _ _ k); rewrite ?E1, ?E3; [|done..].
    rewrite E2, E4. by rewrite !bool_decide_eq_true_2, Hv.
  - intros policyOf' now' c2 E Hp2 Hne. unfold later. rewrite (execute_repeated _ _ _ _ _ k); rewrite ?E; [|done..].
    rewrite (bool_decide_eq_false_2 (cr_inputHash k = _)) by congruence. by rewrite andb_false_r.
Qed.
End Commands.

(** ** What a settlement counts *)

(** The matrix of [defaultSettlementPolicy]: the state an outcome leaves, and whether it is an attempt
    and a touch. *)
Definition settlement_matrix (outcome : TerminalDeliveryOutcome) (scope : option DeliveryRejectionScope)
  : ReservationState * nat * nat :=
  match outcome, scope with
  | PROVIDER_ACCEPTED, _ => (CONFIRMED, 1%nat, 0%nat)
  | PROVIDER_REJECTED, Some OPERATIONAL => (RELEASED, 0%nat, 0%nat)
  | PROVIDER_REJECTED, _ => (RELEASED, 1%nat, 0%nat)
  | DELIVERED, _ => (CONFIRMED, 1%nat, 1%nat)
  | DELIVERY_FAILED, _ => (REFUNDED, 1%nat, 0%nat)
  end.

Section Settling.
Context `{Runtime, Host}.

Lemma settled_state_default i outcome r state : settled_state outcome (defaultSettlementPolicy i outcome r) r = Ok state ->
  state = fst (fst (settlement_matrix outcome (se_rejectionScope i))).
Proof.
  unfold settled_state, fail_if. destruct outcome; cbn; intros Hs; [|by injection Hs as <-..|].
  - apply bind_throw_if_ok in Hs as [_ [= <-]]. by destruct (se_rejectionScope i) as [[]|].
  - by apply bind_throw_if_ok in Hs as [_ [= <-]].
Qed.

(** What a settlement counts. The first terminal outcome of a reservation, under the default policy,
    leaves it in the matrix's state with that outcome, and records the matrix's number of attempts (one,
    but none for an operational rejection) and touches (one for a delivery seen, none otherwise). *)
Theorem settlement_counts n i outcome now v t' r : governed n ->
  let g := tn_tables n in
  execute (contact_version (gv_exceptions g)) defaultSettlementPolicy (runtime_of g) (C_settle i) now = Ok (v, t') ->
  find_receipt (gv_facts g) OP_SETTLE (se_outcomeRef i) = None -> se_outcome i = Terminal outcome ->
  In r (gv_reservations g) -> rv_id r = dm_reservationId (se_command i) -> closed r = false ->
  let '(state, attempts, touches_) := settlement_matrix outcome (se_rejectionScope i) in
  exists r' as_ ts, In r' (rt_reservations t') /\ rv_booking r' = rv_booking r /\ rv_state r' = state /\
    rv_terminalOutcome r' = Some outcome /\
    df_attempts (rt_facts t') = df_attempts (gv_facts g) ++ as_ /\ length as_ = attempts /\
    (forall a, In a as_ -> attempt_of r' a) /\
    df_touches (rt_facts t') = df_touches (gv_facts g) ++ ts /\ length ts = touches_.
Proof.
  intros Hg g Hok Hno Ho Hr Hid Hc. pose proof (kp_runtime _ (governed_kept n Hg)) as Hwf. fold g in Hwf.
  destruct (execute_cases _ _ _ _ _ _ _ Hok) as [(k & Hsome & _)|(_ & at_ & r1 & t1 & _ & Hr1 & _ & Hh & ->)].
  { cbn in Hsome. congruence. }
  cbn in Hr1, Hh. apply find_some in Hr1 as [Hr1 Hid1]. unfold reservation_by in Hid1. bool_prop.
  assert (r1 = r) as -> by (apply (NoDup_map_inj rv_id (gv_reservations g)); [apply Hwf|done..|congruence]).
  unfold settle_handler in Hh. open_bind Hh u Hu. rewrite Hc, Ho in Hh. pose proof (provider_binding _ _ _ _ _ Hu) as (Hdl & _ & _).
  open_bind Hh u2 Hp. open_bind Hh state Hs. open_bind Hh p Hup. destruct p as [v1 t2]. apply rewrite_ok in Hup as ->.
  pose proof (settled_state_default _ _ _ _ Hs) as Hstate.
  set (r' := settled_row outcome (se_outcomeRef i) state now r) in *. cbn [rt_reservations rt_facts runtime_of] in Hh.
  assert (Hin : In r' (update_where (reservation_by (rv_id r)) (fun _ => r') (gv_reservations g))).
  { apply (update_where_hit _ (fun _ => r') _ r); [done|]. unfold reservation_by. by apply bool_decide_eq_true. }
  destruct (settlement_matrix outcome (se_rejectionScope i)) as [[st na] nt] eqn:Em. cbn in Hstate. subst st.
  destruct (sp_countsAsAttempt _) eqn:Ecount; cbn in Hh.
  - open_bind Hh x Hx. destruct x as [rec f']. injection Hh as _ <-. cbn.
    apply record_attempt_ok in Hx; [|apply Hwf|exact (assert_settlement _ _ _ Hp)].
    destruct Hx as [[_ (b & Hb & Hbid)]|(occ & id & ts & k & -> & _ & _ & _ & _ & Hlen)].
    + exfalso. destruct (fo_attempts _ _ (ru_facts _ Hwf) b Hb) as (rb & Hrb & Hat). cbn in Hbid, Hrb.
      assert (rb = r) as -> by (apply (NoDup_map_inj rv_id (gv_reservations g)); [apply Hwf|done..|]; destruct Hat as [<- _]; congruence).
      apply attempt_closed in Hat. congruence.
    + exists r', [factData (settled_fact i r outcome (sp_countsAsSuccessfulTouch (defaultSettlementPolicy i outcome r))) occ id], ts.
      split; [done|]. do 3 (split; [done|]). split; [done|]. split_and?; try done.
      * unfold defaultSettlementPolicy in Ecount. destruct outcome, (se_rejectionScope i) as [[]|]; cbn in Em, Ecount; (done || by injection Em).
      * intros a [<-|[]]. by apply settled_attempt.
      * rewrite Hlen. destruct outcome, (se_rejectionScope i) as [[]|]; cbn in Em |- *; (done || by injection Em).
  - injection Hh as _ <-. cbn. exists r', [], []. rewrite !app_nil_r. do 4 (split; [done|]). split_and?; try done.
    + unfold defaultSettlementPolicy in Ecount. destruct outcome, (se_rejectionScope i) as [[]|]; cbn in Em, Ecount; (done || by injection Em).
    + unfold defaultSettlementPolicy in Ecount. destruct outcome, (se_rejectionScope i) as [[]|]; cbn in Em, Ecount; (done || by injection Em).
Qed.

(** A command reads its row under an advisory lock and writes columns of it by its identifier; the sweep takes
    no such lock, only those of the rows it finds. Where a lease runs out between the two reads of
    [beginSubmission] and the sweep, the command's columns are written to the row the sweep released: the
    submission begins on a released reservation, which is in no phase of the contract, is not closed, cannot
    be confirmed, and is not swept again. The histories above take each operation alone and never come here. *)
Theorem sweep_races_submission contactVersion t i now later r v t' : row_ok r -> begin_handler contactVersion t i now r = Ok (v, t') ->
  lapses_at r <= later ->
  lapsed later r = true /\
  let r2 := barred i now (swept later r) in
  rv_state r2 = RELEASED /\ rv_submissionStartedAt r2 = Some now /\ status r2 = T_UNKNOWN_RECONCILING /\
  closed r2 = false /\ (forall p, ~ has_phase r2 p) /\ (forall when_, lapsed when_ r2 = false) /\
  forall t2 c when_, exists e, confirm_handler t2 c when_ r2 = Err e.
Proof.
  intros (p & Hp & Hr) Hok Hl. unfold begin_handler, fail_if in Hok. open_bind Hok u Hu. apply bind_throw_if_ok in Hok as [Hs _].
  apply orb_false_elim in Hs as [Hst Hcl]. bool_prop. pose proof (reachable_phase_wf _ _ Hr) as Hwf.
  destruct r as [b l sb oc]. unfold has_phase in Hp. cbn in Hp.
  destruct p as [|? ? ? ?|[d sd vn le]|[d sd vn le] ky st|[d sd vn le] ky st cf|[[d sd vn le]|] ?|[d sd vn le] ky st cf ? ? ? ?]; cbn in Hp;
    injection Hp as -> -> ->; cbn in Hst, Hcl; try done.
  split; [unfold lapsed; cbn in *; by apply Z.leb_le|]. split; [done|]. split; [done|]. split; [done|]. split; [done|]. split; [|split; [done|]].
  - intros [|? ? ? ?|[]|[] ? ?|[] ? ? ?|[[]|] ?|[] ? ? ? ? ? ? ?] Hq; unfold has_phase in Hq; cbn in Hq; done.
  - intros t2 c when_. unfold confirm_handler, fail_if. destruct (assertProviderBinding _ _ _ _); [|by eexists]. cbn. by eexists.
Qed.
End Settling.
