(* ===== verification/DeliveryScenario.v ===== *)
(** * DeliveryScenario: a delivery on the worked tenant

    The reservation of Ann's call ([GovernanceScenario]) is claimed, submitted, and settled as delivered;
    the theorems of [DeliveryTheorems] and [Revalidation] at it. *)
From stdpp Require Import base tactics list strings relations.
From Stdlib Require Import ZArith Lia.
From S2P Require Import Prelude JsMap Text JsDate JsValue Contracts ContactPolicy PolicyPreview ScopeKey Persistence Callbacks PolicyStore PolicySystem PolicyScenario PolicyReader Rollout ExceptionStore ExceptionSystem FactLoader ReservationRuntime DeliveryCommands Governance GovernanceSystem GovernanceTheorems Revalidation GovernanceScenario DeliveryTheorems.

Open Scope string_scope.
Open Scope Z_scope.
Open Scope list_scope.

#[local] Existing Instance two_zone_host.
#[local] Existing Instance demo_host.

Definition run (g : Governance) (c : Command) (now : Z) : runtime (SettlementView * RuntimeTables) :=
  execute (contact_version (gv_exceptions g)) defaultSettlementPolicy (runtime_of g) c now.

(** The view and the tables a command leaves. *)
Definition result_of (g : Governance) (c : Command) (now : Z) : SettlementView * RuntimeTables :=
  match run g c now with
  | Ok p => p
  | Err _ => (SettlementView_ "" "" None RESERVED T_UNCLAIMED None None, runtime_of g)
  end.

Lemma run_step g c now v t : branded c -> run g c now = Ok (v, t) ->
  governance_step (at_rest g) (at_rest (with_runtime t g)).
Proof. intros Hb Hr. apply G_runtime. exact (RS_command _ _ defaultSettlementPolicy c now v t Hb Hr). Qed.

Lemma step_governed g g' : governed (at_rest g) -> governance_step (at_rest g) (at_rest g') -> governed (at_rest g').
Proof. intros (n0 & Hn & Hs) Hst. exists n0. split; [exact Hn|]. etrans; [exact Hs|]. by apply rtc_once. Qed.

Lemma run_governed g c now v t : governed (at_rest g) -> branded c -> run g c now = Ok (v, t) ->
  governed (at_rest (with_runtime t g)).
Proof. intros Hg Hb Hr. eapply step_governed; [exact Hg|by eapply run_step]. Qed.

(** ** The call is delivered *)

Definition on_call : DeliveryCommand := DeliveryCommand_ "t" "corr" "9" "act".
Definition claim_call : ClaimReservationForDeliveryInput :=
  ClaimInput on_call "dl-1" "ann" (Some "i1") VOICE "SERVICE" "sender" "2026-01-05T14:05:00.000Z".
Definition begin_call : BeginProviderSubmissionInput := BeginInput on_call "dl-1" 1 "req-1".
Definition settle_call (outcome : TerminalDeliveryOutcome) : SettleDeliveryInput :=
  SettleInput on_call "dl-1" "req-1" "out-1" (Terminal outcome) None "2026-01-05T14:02:00.000Z".

Definition claim_result := Eval vm_compute in result_of called (C_claim claim_call) (late_monday + 30000).
Definition held : Governance := with_runtime (snd claim_result) called.
Definition begin_result := Eval vm_compute in result_of held (C_begin begin_call) (late_monday + 60000).
Definition begun_call : Governance := with_runtime (snd begin_result) held.
Definition settle_result := Eval vm_compute in result_of begun_call (C_settle (settle_call DELIVERED)) (late_monday + 120000).
Definition delivered : Governance := with_runtime (snd settle_result) begun_call.

Lemma claim_runs : run called (C_claim claim_call) (late_monday + 30000) = Ok (fst claim_result, snd claim_result).
Proof. vm_compute. reflexivity. Qed.

Lemma begin_runs : run held (C_begin begin_call) (late_monday + 60000) = Ok (fst begin_result, snd begin_result).
Proof. vm_compute. reflexivity. Qed.

Lemma settle_runs : run begun_call (C_settle (settle_call DELIVERED)) (late_monday + 120000) = Ok (fst settle_result, snd settle_result).
Proof. vm_compute. reflexivity. Qed.

Lemma held_governed : governed (at_rest held).
Proof. refine (run_governed called (C_claim claim_call) _ _ _ called_governed _ claim_runs). discriminate. Qed.

Lemma submitted_governed : governed (at_rest begun_call).
Proof. exact (run_governed held (C_begin begin_call) _ _ _ held_governed I begin_runs). Qed.

Lemma delivered_governed : governed (at_rest delivered).
Proof. exact (run_governed begun_call (C_settle (settle_call DELIVERED)) _ _ _ submitted_governed I settle_runs). Qed.

(** A step of the worked tenant: the reservations that run out are swept, an hour later. *)
Definition sweep_late (g : Governance) : Governance :=
  match releaseExpiredReservations g 10 (late_monday + 3600000) with Ok (_, g') => g' | Err _ => g end.

Lemma sweep_step g : governance_step (at_rest g) (at_rest (sweep_late g)).
Proof. eapply (G_sweep g [] [] 10 (late_monday + 3600000)). unfold sweep_late. reflexivity. Qed.

Lemma delivery_refines_witness : exists r r' p', gv_reservations called = [r] /\ gv_reservations held = [r'] /\
  has_phase r Unclaimed /\ has_phase r' p' /\ phase_moves (rv_expiresAt r) Unclaimed p'.
Proof.
  destruct (delivery_refines (at_rest called) (at_rest held) called_governed) as (_ & old & new & Hrs & Hf & _).
  { refine (run_step called (C_claim claim_call) _ _ _ _ claim_runs). discriminate. }
  cbn [tn_tables at_rest] in Hrs, Hf.
  destruct (gv_reservations called) as [|r [|]] eqn:E; [discriminate E| |discriminate E].
  inversion Hf as [|r0 r' l l' [_ Hp] Hnil]; subst. inversion Hnil; subst.
  destruct (Hp Unclaimed) as (p' & Hp' & Hmv).
  - vm_compute in E. injection E as <-. reflexivity.
  - apply rtc_refl.
  - cbn in Hrs. exists r, r', p'. destruct new; [|discriminate Hrs]. split; [reflexivity|]. split; [exact Hrs|].
    assert (Hr : has_phase r Unclaimed) by (vm_compute in E; injection E as <-; reflexivity).
    split; [exact Hr|]. split; [exact Hp'|]. destruct Hmv as [-> |Hmv]; [|exact Hmv].
    exfalso. vm_compute in Hrs. injection Hrs as <-. discriminate Hp'.
Defined.

Lemma first_outcome_wins_witness : exists r, gv_reservations delivered = [r] /\ closed r = true /\
  In r (gv_reservations (sweep_late delivered)).
Proof.
  destruct (gv_reservations delivered) as [|r [|]] eqn:E; [discriminate E| |discriminate E].
  exists r. split; [reflexivity|].
  assert (Hc : closed r = true) by (vm_compute in E; injection E as <-; reflexivity). split; [exact Hc|].
  apply (first_outcome_wins (at_rest delivered) (at_rest (sweep_late delivered)) r delivered_governed).
  - apply rtc_once. apply sweep_step.
  - cbn [tn_tables at_rest]. rewrite E. left. reflexivity.
  - exact Hc.
Defined.

Lemma barrier_holds_witness : exists r r', gv_reservations begun_call = [r] /\ In r' (gv_reservations (sweep_late begun_call)) /\
  rv_lease r' = rv_lease r /\ rv_submission r' = rv_submission r.
Proof.
  destruct (gv_reservations begun_call) as [|r [|]] eqn:E; [discriminate E| |discriminate E].
  destruct (barrier_holds (at_rest begun_call) (at_rest (sweep_late begun_call)) r (late_monday + 60000) submitted_governed)
    as (r' & Hr' & _ & Hl & Hs & _).
  - apply rtc_once. apply sweep_step.
  - cbn [tn_tables at_rest]. rewrite E. left. reflexivity.
  - vm_compute in E. injection E as <-. reflexivity.
  - exists r, r'. split; [reflexivity|]. split; [exact Hr'|]. split; [exact Hl|exact Hs].
Defined.

Lemma facts_follow_outcomes_witness : exists a t, df_attempts (gv_facts delivered) = [a] /\ df_touches (gv_facts delivered) = [t] /\
  touches a t /\ fc_outcome a = DELIVERED /\ tc_evidence t = None.
Proof.
  destruct (facts_follow_outcomes (at_rest delivered) delivered_governed) as (_ & _ & Ht & _). cbn [tn_tables at_rest] in Ht.
  destruct (df_touches (gv_facts delivered)) as [|t [|]] eqn:Et; [discriminate Et| |discriminate Et].
  destruct (Ht t) as (a & Ha & Hta); [left; reflexivity|].
  destruct (df_attempts (gv_facts delivered)) as [|b [|]] eqn:Ea; [discriminate Ea| |discriminate Ea].
  destruct Ha as [->|[]]. exists a, t. split; [reflexivity|]. split; [reflexivity|]. split; [exact Hta|].
  vm_compute in Ea, Et. injection Ea as <-. injection Et as <-. split; reflexivity.
Defined.

Lemma submission_authorized_witness : exists r d lease, In d (gv_decisions held) /\ booked d r /\
  late_monday + 60000 < lease <= dl_decidedAt d + RESERVATION_TTL_MS /\
  dl_aggregateVersion d = Some (contact_version (gv_exceptions held) (rv_contactId r)).
Proof.
  destruct (submission_authorized (at_rest held) defaultSettlementPolicy begin_call (late_monday + 60000) (fst begin_result)
    (snd begin_result) held_governed begin_runs) as (r & d & lease & _ & Hd & Hb & _ & _ & _ & _ & Hl & Hv & _).
  - reflexivity.
  - exists r, d, lease. split; [exact Hd|]. split; [exact Hb|]. split; [exact Hl|exact Hv].
Defined.

(** The claim is repeated, traced otherwise, after the submission began; another delivery's is refused. *)
Definition other_claim : ClaimReservationForDeliveryInput :=
  ClaimInput on_call "dl-2" "ann" (Some "i1") VOICE "SERVICE" "sender" "2026-01-05T14:05:00.000Z".

Lemma commands_idempotent_witness :
  run begun_call (with_correlation "again" (C_claim claim_call)) (late_monday + 90000) = Ok (fst claim_result, runtime_of begun_call) /\
  run begun_call (C_claim other_claim) (late_monday + 90000) = Err (ReservationBindingError RESERVATION_IDEMPOTENCY_CONFLICT).
Proof.
  assert (Hb : branded (C_claim claim_call)) by discriminate.
  destruct (commands_idempotent (at_rest called) defaultSettlementPolicy (C_claim claim_call) (late_monday + 30000)
    (fst claim_result) (snd claim_result) (at_rest begun_call) called_governed Hb claim_runs) as [Hsame Hother].
  - apply rtc_once. exact (run_step held (C_begin begin_call) _ _ _ I begin_runs).
  - split; [apply Hsame|]. apply Hother.
    + reflexivity.
    + eexists. vm_compute. reflexivity.
    + vm_compute. discriminate.
Defined.

Lemma settlement_counts_witness : exists r' as_ ts, In r' (gv_reservations delivered) /\ rv_state r' = CONFIRMED /\
  df_attempts (gv_facts delivered) = as_ /\ length as_ = 1%nat /\ df_touches (gv_facts delivered) = ts /\ length ts = 1%nat.
Proof.
  destruct (gv_reservations begun_call) as [|r [|]] eqn:E; [discriminate E| |discriminate E].
  pose proof (settlement_counts (at_rest begun_call) (settle_call DELIVERED) DELIVERED (late_monday + 120000) (fst settle_result)
    (snd settle_result) r submitted_governed settle_runs eq_refl eq_refl) as Hc. cbn [tn_tables at_rest] in Hc. rewrite E in Hc.
  destruct Hc as (r' & as_ & ts & Hr' & _ & Hs & _ & Ha & Hla & _ & Ht & Hlt).
  - left. reflexivity.
  - vm_compute in E. injection E as <-. reflexivity.
  - vm_compute in E. injection E as <-. reflexivity.
  - exists r', as_, ts. split; [exact Hr'|]. split; [exact Hs|]. split; [exact Ha|]. split; [exact Hla|]. split; [exact Ht|exact Hlt].
Defined.

(** ** Asking again *)

(** After an event of the policy's scope head, the call the studio's policy allowed is still allowed. *)
Definition head_event (version : Z) : RevalidateAuthorizedActionInput :=
  RevalidateInput "3" "act" SRC_POLICY "p" version None (Some SRC_CG4) (Some "governance.policy.changed")
    (Some "channel=*|contactKind=*|purpose=*|sourceType=*").

Lemma revalidation_agrees_witness : exists r v,
  gv_reservations (snd switched_outcome) = [r] /\
  judge (snd switched_outcome) (reservation_request r) "a" "b" (noon_ms + 60000) = Ok v /\
  vo_decision (revalidateAuthorizedAction (snd switched_outcome) (head_event 1) (noon_ms + 60000)) = ve_decision v /\
  ve_decision v = ALLOW /\
  vo_decision (revalidateAuthorizedAction (snd switched_outcome) (head_event 2) (noon_ms + 60000)) = REVIEW.
Proof.
  destruct (gv_reservations (snd switched_outcome)) as [|r [|]] eqn:E; [discriminate E| |discriminate E].
  destruct (judge (snd switched_outcome) (reservation_request r) "a" "b" (noon_ms + 60000)) as [v|] eqn:Ev;
    [|vm_compute in E; injection E as <-; vm_compute in Ev; discriminate Ev].
  exists r, v. split; [reflexivity|]. split; [exact Ev|].
  destruct (revalidation_agrees (snd switched_outcome) (head_event 1) (noon_ms + 60000)) as [_ Hag].
  destruct (revalidation_agrees (snd switched_outcome) (head_event 2) (noon_ms + 60000)) as [Hno _].
  destruct (Hag r "a" "b" v) as [_ Hsame].
  - vm_compute in E. injection E as <-. constructor; try (vm_compute; reflexivity); vm_compute; [discriminate|intros [=]].
  - vm_compute in E. injection E as <-. vm_compute. reflexivity.
  - exact Ev.
  - split; [apply Hsame; vm_compute in E; injection E as <-; vm_compute; reflexivity|].
    split; [vm_compute in E; injection E as <-; vm_compute in Ev; injection Ev as <-; reflexivity|].
    apply Hno. intros (r' & [Hf _ _ _ _ Hstale]). vm_compute in Hf. injection Hf as <-. vm_compute in Hstale. discriminate Hstale.
Defined.

(** But the call a callback allowed at a quiet hour is deferred when it is asked about again: the
    decision used the callback up. *)
Lemma callback_call_deferred :
  let o := revalidateAuthorizedAction called (RevalidateInput "9" "act" SRC_POLICY "house" 3 None None None None) (late_monday + 60000) in
  vo_decision o = DEFER /\ vo_reasonCode o = "QUIET_HOURS".
Proof. vm_compute. done. Qed.
