(* ===== verification/Program.v ===== *)
(** * Program: asynchronous code over a shared store

    An [async] method is a tree of calls: each call is one transaction of the database or one request
    to the outside, answered before the method goes on, and between two calls other methods run. A pool
    of methods over one store steps one call at a time; a method may stop for ever between two of its
    calls, which is what a process that dies does. The rule at the end proves an invariant of the store
    for every interleaving from what each method guarantees of its own calls. *)
From stdpp Require Import base tactics list relations.
From S2P Require Import Prelude.

Open Scope list_scope.

Section Program.
(** The store, and what calls throw. *)
Context {S X : Type}.

Inductive Prog (A : Type) : Type :=
  | Done (r : result X A)
  | Call {B : Type} (c : S -> result X B * S) (k : result X B -> Prog A).
Arguments Done {A} r.
Arguments Call {A B} c k.

Definition ret {A} (a : A) : Prog A := Done (Ok a).
Definition throw {A} (x : X) : Prog A := Done (Err x).

(** [await p] and what follows; a rejection goes to the caller. *)
Fixpoint bind {A B} (k : A -> Prog B) (p : Prog A) : Prog B :=
  match p with
  | Done (Ok a) => k a
  | Done (Err x) => throw x
  | Call c k' => Call c (fun r => bind k (k' r))
  end.

(** [try { .. } catch (error) { .. }] *)
Fixpoint catch {A} (h : X -> Prog A) (p : Prog A) : Prog A :=
  match p with
  | Done (Ok a) => ret a
  | Done (Err x) => h x
  | Call c k => Call c (fun r => catch h (k r))
  end.

(** A transaction, which changes nothing when it throws; a read; and code that only throws or not. *)
Definition transact {B} (t : S -> result X (B * S)) : Prog B :=
  Call (fun s => match t s with Ok (b, s') => (Ok b, s') | Err x => (Err x, s) end) Done.
Definition query {B} (q : S -> B) : Prog B := Call (fun s => (Ok (q s), s)) Done.
Definition lift {B} (r : result X B) : Prog B := Done r.

(** [for (const x of l) ys.push(await f(x))] *)
Fixpoint map_prog {A B} (f : A -> Prog B) (l : list A) : Prog (list B) :=
  match l with
  | [] => ret []
  | x :: l' => bind (fun y => bind (fun ys => ret (y :: ys)) (map_prog f l')) (f x)
  end.

(** ** The pool *)

(** A method that runs alone, to its end. *)
Fixpoint run {A} (p : Prog A) (s : S) : result X A * S :=
  match p with
  | Done r => (r, s)
  | Call c k => let '(r, s') := c s in run (k r) s'
  end.

Lemma run_bind {A B} (p : Prog A) (k : A -> Prog B) s :
  run (bind k p) s = match run p s with (Ok a, s') => run (k a) s' | (Err x, s') => (Err x, s') end.
Proof. revert s. induction p as [[a|x]|C c k' IH]; intros s; cbn; [done..|]. destruct (c s) as [r s']. apply IH. Qed.

Lemma run_catch {A} (p : Prog A) (h : X -> Prog A) s :
  run (catch h p) s = match run p s with (Ok a, s') => (Ok a, s') | (Err x, s') => run (h x) s' end.
Proof. revert s. induction p as [[a|x]|C c k' IH]; intros s; cbn; [done..|]. destruct (c s) as [r s']. apply IH. Qed.

Lemma run_transact {B} (t : S -> result X (B * S)) s :
  run (transact t) s = match t s with Ok (b, s') => (Ok b, s') | Err x => (Err x, s) end.
Proof. cbn. by destruct (t s) as [[b s']|x]. Qed.

Lemma run_query {B} (q : S -> B) s : run (query q) s = (Ok (q s), s).
Proof. done. Qed.

(** One that stops after [n] of its calls. *)
Fixpoint run_until {A} (n : nat) (p : Prog A) (s : S) : S :=
  match n, p with
  | Datatypes.S n', Call c k => let '(r, s') := c s in run_until n' (k r) s'
  | _, _ => s
  end.

Context (starts : Prog unit -> Prop) (others : S -> S -> Prop).

(** Methods start, make a call, or stop; the rest of the system moves on its own. *)
Inductive pool_step : S * list (Prog unit) -> S * list (Prog unit) -> Prop :=
  | Pool_start s ps p : starts p -> pool_step (s, ps) (s, p :: ps)
  | Pool_call {B} s ps1 (c : S -> result X B * S) k ps2 r s' : c s = (r, s') ->
      pool_step (s, ps1 ++ Call c k :: ps2) (s', ps1 ++ k r :: ps2)
  | Pool_stop s ps1 p ps2 : pool_step (s, ps1 ++ p :: ps2) (s, ps1 ++ ps2)
  | Pool_other s ps s' : others s s' -> pool_step (s, ps) (s', ps).

(** The stores a pool of methods can come to. *)
Definition pool_reaches (s s' : S) : Prop := exists ps, rtc pool_step (s, []) (s', ps).

(** Where a method that runs alone is after [n] of its calls, and what it has left to do. *)
Fixpoint after {A} (n : nat) (p : Prog A) (s : S) : S * Prog A :=
  match n, p with
  | Datatypes.S n', Call c k => let '(r, s') := c s in after n' (k r) s'
  | _, _ => (s, p)
  end.

Lemma after_steps n (p : Prog unit) s ps : rtc pool_step (s, p :: ps) (fst (after n p s), snd (after n p s) :: ps).
Proof.
  revert p s. induction n as [|n IH]; intros [r|B c k] s; cbn; try apply rtc_refl.
  destruct (c s) as [r s'] eqn:Hc. eapply rtc_l; [by apply (Pool_call s [] c k ps)|]. apply IH.
Qed.

(** A method that runs alone, to its end or to where it stops, is a history of the pool. *)
Lemma run_until_reaches n (p : Prog unit) s s' : starts p -> pool_reaches s s' -> pool_reaches s (run_until n p s').
Proof.
  intros Hp [ps Hr].
  assert (Hrun : forall m q t, rtc pool_step (t, q :: ps) (run_until m q t, ps)).
  { induction m as [|m IH]; intros [r|B c k] t; cbn; try (apply rtc_once, (Pool_stop t [] _ ps)).
    destruct (c t) as [r t'] eqn:Hc. eapply rtc_l; [by apply (Pool_call t [] c k ps)|]. apply IH. }
  exists ps. etrans; [exact Hr|]. eapply rtc_l; [by apply Pool_start|]. apply Hrun.
Qed.

Lemma pool_reaches_other s s' s'' : pool_reaches s s' -> others s' s'' -> pool_reaches s s''.
Proof. intros [ps Hr] Ho. exists ps. eapply rtc_r; [exact Hr|]. by constructor. Qed.

Lemma pool_reaches_refl s : pool_reaches s s.
Proof. exists []. apply rtc_refl. Qed.

(** ** The rule *)

(** [inv] holds between any two calls; [moves] is what any step may do to the store. *)
Context (inv : S -> Prop) (moves : S -> S -> Prop) `{!PreOrder moves}.

(** From [s] on, whatever the others do, each call of the method keeps to [inv] and [moves], and the
    method ends in [post]. *)
Fixpoint safe {A} (p : Prog A) (post : result X A -> S -> Prop) (s : S) : Prop :=
  forall s', moves s s' -> inv s' ->
  match p with
  | Done r => post r s'
  | Call c k => forall r s'', c s' = (r, s'') -> inv s'' /\ moves s' s'' /\ safe (k r) post s''
  end.

Lemma safe_moves {A} (p : Prog A) post s s' : moves s s' -> safe p post s -> safe p post s'.
Proof. intros Hm. destruct p; cbn; intros Hs s'' Hm' Hi; apply Hs; [by etrans|done|by etrans|done]. Qed.

Lemma safe_later {A} (p : Prog A) post s : (forall s', moves s s' -> inv s' -> safe p post s') -> safe p post s.
Proof. intros Hs. destruct p; cbn in *; intros s' Hm Hi; by apply (Hs s' Hm Hi s'). Qed.

Lemma safe_weaken {A} (p : Prog A) (post post' : result X A -> S -> Prop) s :
  (forall r s', moves s s' -> inv s' -> post r s' -> post' r s') -> safe p post s -> safe p post' s.
Proof.
  revert s. induction p as [r|B c k IH]; cbn; intros s Hp Hs s' Hm Hi; [auto|].
  intros r s'' Ha. destruct (Hs s' Hm Hi r s'' Ha) as (Hi' & Hm' & Hk). split; [done|]. split; [done|].
  apply IH; [|done]. intros r' s3 Hm3 Hi3. apply Hp; [|done]. etrans; [done|by etrans].
Qed.

Lemma safe_done {A} (r : result X A) (post : result X A -> S -> Prop) s :
  (forall s', moves s s' -> inv s' -> post r s') -> safe (Done r) post s.
Proof. done. Qed.

Lemma safe_bind {A B} (p : Prog A) (k : A -> Prog B) post s :
  safe p (fun r s' => match r with Ok a => safe (k a) post s' | Err x => post (Err x) s' end) s ->
  safe (bind k p) post s.
Proof.
  revert s. induction p as [[a|x]|C c k' IH]; cbn; intros s Hs; [by apply safe_later|done|].
  intros s' Hm Hi r s'' Ha. destruct (Hs s' Hm Hi r s'' Ha) as (Hi' & Hm' & Hk). split; [done|]. split; [done|]. by apply IH.
Qed.

Lemma safe_catch {A} (p : Prog A) (h : X -> Prog A) post s :
  safe p (fun r s' => match r with Ok a => post (Ok a) s' | Err x => safe (h x) post s' end) s ->
  safe (catch h p) post s.
Proof.
  revert s. induction p as [[a|x]|C c k' IH]; cbn; intros s Hs; [done|by apply safe_later|].
  intros s' Hm Hi r s'' Ha. destruct (Hs s' Hm Hi r s'' Ha) as (Hi' & Hm' & Hk). split; [done|]. split; [done|]. by apply IH.
Qed.

(** What follows knows what held when the call was made, and that it still does, as far as [moves] keeps it. *)
Lemma safe_transact {B} (t : S -> result X (B * S)) (post : result X B -> S -> Prop) s :
  (forall s' b s'', moves s s' -> inv s' -> t s' = Ok (b, s'') -> inv s'' /\ moves s' s'' /\
     forall s3, moves s'' s3 -> inv s3 -> post (Ok b) s3) ->
  (forall s' x, moves s s' -> inv s' -> post (Err x) s') ->
  safe (transact t) post s.
Proof.
  intros Hok Herr s' Hm Hi r s'' Ha. destruct (t s') as [[b s1]|x] eqn:Ht; injection Ha as <- <-.
  - by apply (Hok s' b s1).
  - split; [done|]. split; [done|]. intros s3 Hm3 Hi3. apply Herr; [by etrans|done].
Qed.

Lemma safe_query {B} (q : S -> B) (post : result X B -> S -> Prop) s :
  (forall s' s'', moves s s' -> inv s' -> moves s' s'' -> inv s'' -> post (Ok (q s')) s'') -> safe (query q) post s.
Proof. intros Hq s' Hm Hi r s'' [= <- <-]. split; [done|]. split; [done|]. intros s3 Hm3 Hi3. by apply (Hq s'). Qed.

Lemma safe_map_prog {A B} (f : A -> Prog B) l s :
  (forall x s', moves s s' -> inv s' -> safe (f x) (fun _ _ => True) s') -> safe (map_prog f l) (fun _ _ => True) s.
Proof.
  revert s. induction l as [|x l IH]; intros s Hf; cbn [map_prog]; [by apply safe_done|].
  apply safe_later. intros s' Hm Hi. apply safe_bind, (safe_weaken _ (fun _ _ => True)); [|by apply Hf].
  intros [y|e] s1 Hm1 Hi1 _; [|done]. apply safe_bind, (safe_weaken _ (fun _ _ => True)).
  - intros [ys|e] s2 Hm2 Hi2 _; [by apply safe_done|done].
  - apply IH. intros z s2 Hm2 Hi2. apply Hf; [|done]. etrans; [exact Hm|by etrans].
Qed.

(** A method each of whose calls keeps to them needs no more. *)
Fixpoint within (R : S -> S -> Prop) {A} (p : Prog A) : Prop :=
  match p with
  | Done _ => True
  | Call c k => (forall s r s', c s = (r, s') -> R s s') /\ forall r, within R (k r)
  end.

Lemma within_safe (R : S -> S -> Prop) {A} (p : Prog A) s : (forall s s', inv s -> R s s' -> inv s' /\ moves s s') ->
  within R p -> safe p (fun _ _ => True) s.
Proof.
  intros HR. revert s. induction p as [r|B c k IH]; cbn; intros s Hw s' Hm Hi; [done|]. intros r s'' Ha. destruct Hw as [Hc Hk].
  destruct (HR s' s'' Hi (Hc s' r s'' Ha)) as [Hi' Hm']. split; [done|]. split; [done|]. by apply IH.
Qed.

Lemma within_bind R {A B} (p : Prog A) (k : A -> Prog B) : within R p -> (forall a, within R (k a)) -> within R (bind k p).
Proof. intros Hp Hk. induction p as [[a|x]|C c k' IH]; cbn in *; [done..|]. split; [apply Hp|]. intros r. by apply IH, Hp. Qed.

Lemma within_catch R {A} (p : Prog A) (h : X -> Prog A) : within R p -> (forall x, within R (h x)) -> within R (catch h p).
Proof. intros Hp Hh. induction p as [[a|x]|C c k' IH]; cbn in *; [done..|]. split; [apply Hp|]. intros r. by apply IH, Hp. Qed.

Lemma within_map R {A B} (f : A -> Prog B) l : (forall x, within R (f x)) -> within R (map_prog f l).
Proof. intros Hf. induction l as [|x l IH]; cbn [map_prog]; [done|]. apply within_bind; [done|]. intros y. by apply within_bind. Qed.

Lemma within_query (R : S -> S -> Prop) {B} (q : S -> B) : (forall s, R s s) -> within R (query q).
Proof. intros HR. split; [|done]. by intros s r s' [= _ <-]. Qed.

Lemma within_transact (R : S -> S -> Prop) {B} (t : S -> result X (B * S)) : (forall s, R s s) ->
  (forall s b s', t s = Ok (b, s') -> R s s') -> within R (transact t).
Proof. intros HR Ht. split; [|done]. intros s r s'. destruct (t s) as [[b s1]|x] eqn:E; intros [= _ <-]; [by eapply Ht|done]. Qed.

(** Whatever moves on its own keeps to the invariant and the moves, and so does every method. *)
Context (others_ok : forall s s', inv s -> others s s' -> inv s' /\ moves s s').
Context (starts_ok : forall (p : Prog unit) s, starts p -> inv s -> safe p (fun _ _ => True) s).

Definition pool_ok (q : S * list (Prog unit)) : Prop :=
  inv (fst q) /\ forall p, In p (snd q) -> safe p (fun _ _ => True) (fst q).

Lemma pool_step_ok q q' : pool_ok q -> pool_step q q' -> pool_ok q' /\ moves (fst q) (fst q').
Proof.
  intros [Hi Hp] Hs. destruct Hs as [s ps p Hp0|B s ps1 c k ps2 r s' Ha|s ps1 p ps2|s ps s' Ho]; cbn in *.
  - split; [|done]. split; [done|]. intros p' [<-|Hin]; [by apply starts_ok|by apply Hp].
  - destruct (Hp (Call c k) ltac:(apply in_app_iff; cbn; tauto) s ltac:(done) Hi r s' Ha) as (Hi' & Hm & Hk).
    split; [|done]. split; [done|]. intros p Hin. apply in_app_iff in Hin as [Hin|[<-|Hin]]; [|done|].
    + apply (safe_moves _ _ s); [done|]. apply Hp, in_app_iff. tauto.
    + apply (safe_moves _ _ s); [done|]. apply Hp, in_app_iff. cbn. tauto.
  - split; [|done]. split; [done|]. intros p' Hin. apply Hp, in_app_iff. apply in_app_iff in Hin as [?|?]; cbn; tauto.
  - destruct (others_ok _ _ Hi Ho) as [Hi' Hm]. split; [|done]. split; [done|].
    intros p Hin. by apply (safe_moves _ _ s), Hp.
Qed.

Lemma pool_steps_ok q q' : pool_ok q -> rtc pool_step q q' -> pool_ok q' /\ moves (fst q) (fst q').
Proof.
  intros Hq Hr. revert Hq. induction Hr as [q|q q1 q2 Hs _ IH]; intros Hq; [done|].
  destruct (pool_step_ok _ _ Hq Hs) as [Hq1 Hm]. destruct (IH Hq1) as [? ?]. split; [done|by etrans].
Qed.

Lemma pool_empty_ok s : inv s -> pool_ok (s, []).
Proof. intros Hi. split; [done|cbn; tauto]. Qed.

Theorem pool_reaches_ok s s' : inv s -> pool_reaches s s' -> inv s' /\ moves s s'.
Proof. intros Hi [ps Hr]. by destruct (pool_steps_ok _ _ (pool_empty_ok s Hi) Hr) as [[? _] ?]. Qed.
End Program.

Arguments Prog S X A : clear implicits.
Arguments Done {S X A} r.
Arguments Call {S X A B} c k.

(** [const x = await p; k] is [x ← p; k], and [await p; k] is [p ;; k]. *)
#[export] Instance prog_ret {S X} : MRet (Prog S X) := fun A => ret.
#[export] Instance prog_bind {S X} : MBind (Prog S X) := fun A B => bind.
