(* ===== verification/LineDelivery.v ===== *)
(** * LineDelivery: the vocabulary of LINE delivery, and what an answer of the provider means

    [packages/cxa-contracts/src/line-delivery.ts], and of [apps/delivery/src] the classification and the
    HTTP transport of [line-provider-transport.ts] and the requests of [line-push-request.ts]. *)
From stdpp Require Import base tactics list strings.
From Stdlib Require Import ZArith Lia Ascii.
From S2P Require Import Prelude JsMap Text JsDate JsValue Contracts ScopeKey Persistence ReservationRuntime.

Open Scope string_scope.
Open Scope Z_scope.
Open Scope list_scope.

(** ** Vocabulary *)

Inductive LineProviderOutcomeCode :=
  | LINE_ACCEPTED | LINE_ACCEPTED_REPLAY | LINE_REQUEST_REJECTED | LINE_AUTH_INVALID | LINE_RATE_LIMITED
  | LINE_MONTHLY_QUOTA_EXHAUSTED | LINE_PROVIDER_UNAVAILABLE | LINE_UNKNOWN_OUTCOME | LINE_RESPONSE_INVALID
  | LINE_RETRY_WINDOW_EXPIRED.
#[export] Instance LineProviderOutcomeCode_eq_dec : EqDecision LineProviderOutcomeCode.
Proof. solve_decision. Defined.

Inductive LineProviderOutcomeClass := CLASS_ACCEPTED | CLASS_TERMINAL_REJECTED | CLASS_RETRYABLE_UNKNOWN | CLASS_QUARANTINED.
#[export] Instance LineProviderOutcomeClass_eq_dec : EqDecision LineProviderOutcomeClass.
Proof. solve_decision. Defined.

Definition LINE_PROVIDER_OUTCOME_CLASS (code : LineProviderOutcomeCode) : LineProviderOutcomeClass :=
  match code with
  | LINE_ACCEPTED | LINE_ACCEPTED_REPLAY => CLASS_ACCEPTED
  | LINE_REQUEST_REJECTED | LINE_AUTH_INVALID | LINE_RATE_LIMITED | LINE_MONTHLY_QUOTA_EXHAUSTED => CLASS_TERMINAL_REJECTED
  | LINE_PROVIDER_UNAVAILABLE | LINE_UNKNOWN_OUTCOME | LINE_RESPONSE_INVALID => CLASS_RETRYABLE_UNKNOWN
  | LINE_RETRY_WINDOW_EXPIRED => CLASS_QUARANTINED
  end.

(** The code as it is written. *)
Definition outcome_code_text (code : LineProviderOutcomeCode) : string :=
  match code with
  | LINE_ACCEPTED => "LINE_ACCEPTED"
  | LINE_ACCEPTED_REPLAY => "LINE_ACCEPTED_REPLAY"
  | LINE_REQUEST_REJECTED => "LINE_REQUEST_REJECTED"
  | LINE_AUTH_INVALID => "LINE_AUTH_INVALID"
  | LINE_RATE_LIMITED => "LINE_RATE_LIMITED"
  | LINE_MONTHLY_QUOTA_EXHAUSTED => "LINE_MONTHLY_QUOTA_EXHAUSTED"
  | LINE_PROVIDER_UNAVAILABLE => "LINE_PROVIDER_UNAVAILABLE"
  | LINE_UNKNOWN_OUTCOME => "LINE_UNKNOWN_OUTCOME"
  | LINE_RESPONSE_INVALID => "LINE_RESPONSE_INVALID"
  | LINE_RETRY_WINDOW_EXPIRED => "LINE_RETRY_WINDOW_EXPIRED"
  end.

Definition LINE_ALWAYS_OPERATIONAL_REJECTIONS : list LineProviderOutcomeCode :=
  [LINE_AUTH_INVALID; LINE_RATE_LIMITED; LINE_MONTHLY_QUOTA_EXHAUSTED].

Inductive LineRolloutState := DISABLED | DRY_RUN | PROVIDER_CONFORMANCE | CAPPED_PILOT.
#[export] Instance LineRolloutState_eq_dec : EqDecision LineRolloutState.
Proof. solve_decision. Defined.

(** [LINE_CONTROL_SIGNALS] *)
Inductive LineControlSignal :=
  | CROSS_TENANT_LEAK | ALLOWLIST_BINDING_MISMATCH | CG3_BYPASS | DUPLICATE_BUSINESS_EFFECT | PII_OR_CREDENTIAL_LEAK
  | EVIDENCE_HASH_MISMATCH | UNKNOWN_OUTCOME_EXPIRED | PROVIDER_ATTEMPTS_EXHAUSTED | AUTH_FAILURE | QUOTA_EXHAUSTED
  | CAP_ACCOUNTING_INCONSISTENCY.
#[export] Instance LineControlSignal_eq_dec : EqDecision LineControlSignal.
Proof. solve_decision. Defined.

(** [LINE_KILL_REASONS]: the signals by their names, and three of people. *)
Inductive LineKillReason := SIGNALLED (s : LineControlSignal) | OPERATOR_KILL | COMPLIANCE_KILL | PILOT_ROLLBACK.
#[export] Instance LineKillReason_eq_dec : EqDecision LineKillReason.
Proof. solve_decision. Defined.

Inductive LineGateErrorCode :=
  | LINE_GATE_AUTHORIZATION_DENIED | LINE_GATE_SCOPE_NOT_ALLOWED | LINE_GATE_INVALID_TRANSITION | LINE_GATE_KILLED
  | LINE_GATE_TECHNICAL_SWITCH_OFF | SUBMISSION_WINDOW_CAP_EXCEEDED | CONCURRENT_SUBMISSION_CAP_EXCEEDED
  | CONTACT_WINDOW_CAP_EXCEEDED | CONCURRENT_UNKNOWN_RECONCILING_CAP_EXCEEDED | RUN_DELIVERY_CAP_EXCEEDED
  | LIFETIME_CAP_EXCEEDED | PROVIDER_ATTEMPT_CAP_EXCEEDED | CODE_CAP_ACCOUNTING_INCONSISTENCY
  | RUN_AUTHORIZATION_MISSING | RUN_AUTHORIZATION_EXPIRED | RUN_AUTHORIZATION_CONSUMED | CREDENTIAL_UNAVAILABLE
  | CREDENTIAL_VERSION_MISMATCH | CONFIG_DIGEST_MISMATCH.
#[export] Instance LineGateErrorCode_eq_dec : EqDecision LineGateErrorCode.
Proof. solve_decision. Defined.

Inductive LineRunAuthorizationState := RUN_PROPOSED | RUN_APPROVED | RUN_CONSUMED | RUN_EXPIRED | RUN_REVOKED.
#[export] Instance LineRunAuthorizationState_eq_dec : EqDecision LineRunAuthorizationState.
Proof. solve_decision. Defined.

Inductive LineCapKind := LOGICAL_DELIVERY | PROVIDER_ATTEMPT | CONCURRENT_SUBMISSION | CONCURRENT_UNKNOWN.
#[export] Instance LineCapKind_eq_dec : EqDecision LineCapKind.
Proof. solve_decision. Defined.

Inductive LineCapReservationState := CAP_RESERVED | CAP_COMMITTED | CAP_RELEASED.
#[export] Instance LineCapReservationState_eq_dec : EqDecision LineCapReservationState.
Proof. solve_decision. Defined.

Inductive LineCredentialKind := CHANNEL_ACCESS_TOKEN_V2_1 | CHANNEL_ACCESS_TOKEN_LONG_LIVED | CHANNEL_SECRET.
#[export] Instance LineCredentialKind_eq_dec : EqDecision LineCredentialKind.
Proof. solve_decision. Defined.

Inductive LineCredentialStatus := CRED_CANDIDATE | CRED_ACTIVE | CRED_RETIRED | CRED_REVOKED.
#[export] Instance LineCredentialStatus_eq_dec : EqDecision LineCredentialStatus.
Proof. solve_decision. Defined.

Inductive LineLifecycleState := PRE_BARRIER | POST_BARRIER | LC_ACCEPTED | LC_RECONCILING | LC_SETTLED.
#[export] Instance LineLifecycleState_eq_dec : EqDecision LineLifecycleState.
Proof. solve_decision. Defined.

(** [LINE_PILOT_CAPS] and [LINE_TEAM_TRIAL_MAX_CAPS] *)
Module Pilot.
Definition PROFILE : string := "S2_LINE_LOCAL_PILOT_V1".
Definition logicalDeliveriesPerRun : Z := 1.
Definition runAuthorizationTtlMinutes : Z := 30.
Definition logicalDeliveriesPerRecipientPer24h : Z := 1.
Definition logicalDeliveriesPer24h : Z := 3.
Definition logicalDeliveriesLifetime : Z := 10.
Definition concurrentSubmissions : Z := 1.
Definition concurrentUnknownReconciling : Z := 1.
Definition providerAttemptsPerLogicalDelivery : Z := 4.
End Pilot.

Module Trial.
Definition PROFILE : string := "S2_LINE_TEAM_TRIAL_V1".
Definition logicalDeliveriesPerRun : Z := 600.
Definition logicalDeliveriesPerRecipientPer24h : Z := 20.
Definition logicalDeliveriesPer24h : Z := 100.
Definition logicalDeliveriesLifetime : Z := 3000.
Definition runAuthorizationTtlDays : Z := 30.
Definition providerAttemptsPerLogicalDelivery : Z := 4.
Definition CONTENT_CLASS : string := "content-class:text-500/v1".
End Trial.

(** ** Outcomes as Governance takes them *)

(** [LineOutcomeScopeError] *)
Inductive OutcomeScopeError := LineOutcomeScopeError (code : LineProviderOutcomeCode) (scope : option DeliveryRejectionScope).
#[export] Instance OutcomeScopeError_eq_dec : EqDecision OutcomeScopeError.
Proof. solve_decision. Defined.

Definition assertLineOutcomeScope (code : LineProviderOutcomeCode) (scope : option DeliveryRejectionScope)
  : result OutcomeScopeError LineProviderOutcomeClass :=
  let outcomeClass := LINE_PROVIDER_OUTCOME_CLASS code in
  let valid :=
    if bool_decide (outcomeClass = CLASS_TERMINAL_REJECTED)
    then bool_decide (is_Some scope) &&
         (bool_decide (scope = Some OPERATIONAL) || negb (includes LINE_ALWAYS_OPERATIONAL_REJECTIONS code))
    else bool_decide (scope = None) in
  throw_if (negb valid) (LineOutcomeScopeError code scope) ;; Ok outcomeClass.

Definition lineNormalizedOutcome (code : LineProviderOutcomeCode) : NormalizedDeliveryOutcome :=
  match LINE_PROVIDER_OUTCOME_CLASS code with
  | CLASS_ACCEPTED => Terminal PROVIDER_ACCEPTED
  | CLASS_TERMINAL_REJECTED => Terminal PROVIDER_REJECTED
  | _ => UNKNOWN_RECONCILING
  end.

Definition lineProviderSettlement (code : LineProviderOutcomeCode) (scope : option DeliveryRejectionScope)
  : result OutcomeScopeError SettlementPolicyDecision :=
  outcomeClass ← assertLineOutcomeScope code scope;
  Ok (SettlementDecision
        (bool_decide (outcomeClass = CLASS_ACCEPTED) ||
         (bool_decide (outcomeClass = CLASS_TERMINAL_REJECTED) && bool_decide (scope = Some RECIPIENT)))
        false false).

(** ** Answers of the provider *)

Record LinePushResponse := PushResponse {
  pr_httpStatus : Z;
  pr_requestId : option string;
  pr_acceptedRequestId : option string;
  pr_sentMessageIds : option (list string);
  pr_errorCode : option string;
}.

Inductive NoResponseReason := TIMEOUT | NETWORK | INVALID_RESPONSE.
#[export] Instance NoResponseReason_eq_dec : EqDecision NoResponseReason.
Proof. solve_decision. Defined.

Inductive LineTransportResult := RESPONSE (response : LinePushResponse) | NO_RESPONSE (reason : NoResponseReason).

Record LineClassification := Classification {
  lc_outcomeCode : LineProviderOutcomeCode;
  lc_rejectionScope : option DeliveryRejectionScope;
  lc_accepted : bool;
  lc_reconcile : bool;
}.

Definition accepted_as (code : LineProviderOutcomeCode) : LineClassification := Classification code None true false.
Definition rejected_as (code : LineProviderOutcomeCode) (scope : DeliveryRejectionScope) : LineClassification :=
  Classification code (Some scope) false false.
Definition unknown_as (code : LineProviderOutcomeCode) : LineClassification := Classification code None false true.

Definition classifyLineResponse (result : LineTransportResult) : LineClassification :=
  match result with
  | NO_RESPONSE reason =>
      unknown_as (if bool_decide (reason = INVALID_RESPONSE) then LINE_RESPONSE_INVALID else LINE_UNKNOWN_OUTCOME)
  | RESPONSE r =>
      let httpStatus := pr_httpStatus r in
      if (200 <=? httpStatus) && (httpStatus <? 300) then
        if match pr_sentMessageIds r with Some l => 0 <? Z.of_nat (length l) | None => false end
        then accepted_as LINE_ACCEPTED else unknown_as LINE_RESPONSE_INVALID
      else if httpStatus =? 409 then
        if bool_decide (is_Some (truthy (pr_acceptedRequestId r)))
        then accepted_as LINE_ACCEPTED_REPLAY else unknown_as LINE_RESPONSE_INVALID
      else if (httpStatus =? 401) || (httpStatus =? 403) then rejected_as LINE_AUTH_INVALID OPERATIONAL
      else if httpStatus =? 429 then
        rejected_as (if bool_decide (pr_errorCode r = Some "MONTHLY_QUOTA_EXHAUSTED")
                     then LINE_MONTHLY_QUOTA_EXHAUSTED else LINE_RATE_LIMITED) OPERATIONAL
      else if (400 <=? httpStatus) && (httpStatus <? 500) then rejected_as LINE_REQUEST_REJECTED RECIPIENT
      else if 500 <=? httpStatus then unknown_as LINE_PROVIDER_UNAVAILABLE
      else unknown_as LINE_RESPONSE_INVALID
  end.

(** ** The HTTP transport *)

(** What [fetch] gives: it throws, by an abort or not, or a response whose body [response.json()] parses
    or not. *)
Inductive FetchResult :=
  | Fetch_throws (aborted : bool)
  | Fetch_responds (status : Z) (headers : string -> option string) (body : option jsval).

(** [value?.key] *)
Definition optional_member (key : string) (v : jsval) : jsval :=
  match v with JObj fs | JInstance fs => field key fs | _ => JUndefined end.

(** [(payload?.sentMessages ?? []).map((message) => message?.id).filter(isString)]; a value that is not
    an array has no [map] to call, and throws. *)
Definition sent_message_ids (payload : jsval) : option (list string) :=
  match nullish (optional_member "sentMessages" payload) (JArr []) with
  | JArr l => Some (omap (fun m => match optional_member "id" m with JStr s => Some s | _ => None end) l)
  | _ => None
  end.

(** [HttpLineProviderTransport.push] *)
Definition http_push (fetched : FetchResult) : LineTransportResult :=
  match fetched with
  | Fetch_throws aborted => NO_RESPONSE (if aborted then TIMEOUT else NETWORK)
  | Fetch_responds status headers body =>
      match sent_message_ids (default JUndefined body) with
      | None => NO_RESPONSE NETWORK
      | Some ids =>
          RESPONSE {| pr_httpStatus := status; pr_requestId := truthy (headers "x-line-request-id");
                      pr_acceptedRequestId := truthy (headers "x-line-accepted-request-id");
                      pr_sentMessageIds := match ids with [] => None | _ => Some ids end; pr_errorCode := None |}
      end
  end.

(** ** The request *)

(** A message as the object sent, in the order of its keys. *)
Definition LineMessage : Type := list (string * jsval).

(** [LineResolvedContent] *)
Record LineResolvedContent := ResolvedContent {
  ln_contentRef : string;
  ln_version : Z;
  ln_messages : list LineMessage;
  ln_gateDigest : string;
}.

Record LineCanonicalRequest := CanonicalRequest {
  cq_contentRef : string;
  cq_fixtureVersion : Z;
  cq_messages : list LineMessage;
  cq_providerPayloadDigest : string;
  cq_recipientFingerprint : string;
}.

(** [LINE_SERVICE_NOTIFICATION_FIXTURES]: the reference, the version and the messages, whose text is
    given by the bytes of its encoding. *)
Definition LINE_SERVICE_NOTIFICATION_FIXTURES : list (string * (Z * list LineMessage)) :=
  [("fixture:service-notification/v1",
    (1, [[("type", JStr "text");
          ("text", JStr "แจ้งเตือนจากระบบบริการลูกค้า กรุณาตอบกลับข้อความนี้หากต้องการให้ติดต่อกลับ")]]))].

Definition isLineFixtureRef (contentRef : string) : bool := map_has contentRef LINE_SERVICE_NOTIFICATION_FIXTURES.

Definition messages_json (l : list LineMessage) : jsval := JArr (map JObj l).

Definition LINE_RETRY_WINDOW_MS : Z := 23 * 60 * 60 * 1000.
Definition LINE_BACKOFF_BASE_MS : Z := 30000.
Definition LINE_BACKOFF_MAX_MS : Z := 15 * 60000.

Definition lineBackoffMs (attemptNo : Z) : Z :=
  Z.min (LINE_BACKOFF_BASE_MS * 2 ^ Z.max 0 (attemptNo - 1)) LINE_BACKOFF_MAX_MS.

Definition lineRetryWindowExpired (firstAttemptAt now : Z) : bool := LINE_RETRY_WINDOW_MS <=? now - firstAttemptAt.

(** [HEX_UUID] *)
Definition isLineRetryKey (value : string) : bool :=
  match split_char "-"%char value with
  | [a; b; c; d; e] =>
      forallb (fun p => Nat.eqb (String.length (fst p)) (snd p) && string_forall is_lower_hex (fst p))
        [(a, 8%nat); (b, 4%nat); (c, 4%nat); (d, 4%nat); (e, 12%nat)]
  | _ => false
  end.

(** [Number.parseInt(c, 16) & 0x3] of the character at a position, 0 where there is none or it is no digit. *)
Definition low_bits (c : option ascii) : Z :=
  match c with
  | Some c => if is_lower_hex c then Z.land (hex_value c) 3
              else if is_hex_digit c then Z.land (code c - 55) 3 else 0
  | None => 0
  end.

(** [s.slice(from, to)] *)
Definition slice (from to : nat) (s : string) : string := String.substring from (to - from) s.

Section Requests.
Context `{Host}.

Definition lineContentDigest (contentRef : string) : option string :=
  match map_get contentRef LINE_SERVICE_NOTIFICATION_FIXTURES with
  | None => None
  | Some (version, messages) =>
      Some (sha256_hex (json_print (JObj [("contentRef", JStr contentRef); ("version", JNum (NInt version));
                                          ("messages", messages_json messages)])))
  end.

(** [LINE_FIXTURE_CONTENT_SOURCE.resolve]; [None] is the error of an unknown fixture. *)
Definition fixture_content (contentRef : string) : option LineResolvedContent :=
  match map_get contentRef LINE_SERVICE_NOTIFICATION_FIXTURES, lineContentDigest contentRef with
  | Some (version, messages), Some digest => Some (ResolvedContent contentRef version messages digest)
  | _, _ => None
  end.

(** [lineContentClassDigest] *)
Definition lineContentClassDigest (contentClass : string) (maxLength : Z) : string :=
  sha256_hex (json_print (JObj [("contentClass", JStr contentClass); ("version", JNum (NInt 1)); ("type", JStr "text");
                                ("maxLength", JNum (NInt maxLength))])).

Definition buildLineCanonicalRequestFrom (content : LineResolvedContent) (recipientFingerprint : string) : LineCanonicalRequest :=
  {| cq_contentRef := ln_contentRef content; cq_fixtureVersion := ln_version content; cq_messages := ln_messages content;
     cq_providerPayloadDigest :=
       sha256_hex (json_print (JObj [("contentRef", JStr (ln_contentRef content)); ("version", JNum (NInt (ln_version content)));
                                     ("messages", messages_json (ln_messages content));
                                     ("recipientFingerprint", JStr recipientFingerprint)]));
     cq_recipientFingerprint := recipientFingerprint |}.

(** [buildLineCanonicalRequest], of a fixture. *)
Definition buildLineCanonicalRequest (contentRef recipientFingerprint : string) : option LineCanonicalRequest :=
  match map_get contentRef LINE_SERVICE_NOTIFICATION_FIXTURES with
  | None => None
  | Some (version, messages) =>
      Some {| cq_contentRef := contentRef; cq_fixtureVersion := version; cq_messages := messages;
              cq_providerPayloadDigest :=
                sha256_hex (json_print (JObj [("contentRef", JStr contentRef); ("version", JNum (NInt version));
                                              ("messages", messages_json messages);
                                              ("recipientFingerprint", JStr recipientFingerprint)]));
              cq_recipientFingerprint := recipientFingerprint |}
  end.

Definition deriveLineRetryKey (tenantId deliveryId : string) : string :=
  let digest := sha256_hex ("line-retry|" +:+ tenantId +:+ "|" +:+ deliveryId) in
  let hex := slice 0 32 digest in
  let v4 := slice 0 12 hex +:+ "4" +:+ slice 13 16 hex in
  let variant := String (hex_digit (Z.lor (low_bits (String.get 16 hex)) 8)) "" +:+ slice 17 20 hex in
  slice 0 8 v4 +:+ "-" +:+ slice 8 12 v4 +:+ "-" +:+ slice 12 16 v4 +:+ "-" +:+ variant +:+ "-" +:+ slice 20 32 hex.
End Requests.

(** ** What the classification promises *)

(** The provider's word that it took the request: an answer that names the messages sent, or a conflict
    that names the request it accepted before. *)
Inductive provider_took : LineTransportResult -> Prop :=
  | Took_now r m ms : 200 <= pr_httpStatus r < 300 -> pr_sentMessageIds r = Some (m :: ms) -> provider_took (RESPONSE r)
  | Took_before r a : pr_httpStatus r = 409 -> pr_acceptedRequestId r = Some a -> a <> "" -> provider_took (RESPONSE r).

Lemma truthy_is_some o : is_Some (truthy o) <-> exists s, o = Some s /\ s <> "".
Proof.
  split.
  - destruct o as [[|c s]|]; cbn; intros [x Hx]; try done. eauto.
  - intros (s & -> & Hs). destruct s; [done|]. by eexists.
Qed.

Lemma classify_cases result :
  (exists code, classifyLineResponse result = accepted_as code /\ provider_took result /\
                LINE_PROVIDER_OUTCOME_CLASS code = CLASS_ACCEPTED) \/
  (exists code scope, classifyLineResponse result = rejected_as code scope /\ ~ provider_took result /\
                assertLineOutcomeScope code (Some scope) = Ok CLASS_TERMINAL_REJECTED) \/
  (exists code, classifyLineResponse result = unknown_as code /\ ~ provider_took result /\
                LINE_PROVIDER_OUTCOME_CLASS code = CLASS_RETRYABLE_UNKNOWN).
Proof.
  destruct result as [[st rq ac sent err]|reason]; cbn.
  2:{ right. right. eexists. split; [reflexivity|]. split; [by inversion 1|]. by destruct reason. }
  assert (Hnot : ~ (200 <= st < 300) -> st <> 409 -> ~ provider_took (RESPONSE (PushResponse st rq ac sent err)))
    by (intros H1 H2 Ht; inversion Ht; cbn in *; lia).
  destruct ((200 <=? st) && (st <? 300)) eqn:H2.
  - bool_prop. destruct sent as [[|m ms]|]; cbn.
    + right. right. eexists. split; [reflexivity|]. split; [|done]. inversion 1; cbn in *; [done|lia].
    + left. eexists. split; [reflexivity|]. split; [|done]. econstructor; cbn; [lia|done].
    + right. right. eexists. split; [reflexivity|]. split; [|done]. inversion 1; cbn in *; [done|lia].
  - assert (~ (200 <= st < 300)) by (destruct (Z.leb_spec 200 st), (Z.ltb_spec st 300); cbn in *; [done|lia..]).
    destruct (Z.eqb_spec st 409) as [->|]; [case_bool_decide as Ha|].
    + apply truthy_is_some in Ha as (a & -> & Ha). left. eexists. split; [reflexivity|]. split; [|done]. by eapply Took_before.
    + right. right. eexists. split; [reflexivity|]. split; [|done]. intros Ht. apply Ha, truthy_is_some.
      inversion Ht; cbn in *; [done|eauto].
    + specialize (Hnot H ltac:(done)).
      destruct ((st =? 401) || (st =? 403)); [|destruct (st =? 429); [|destruct ((400 <=? st) && (st <? 500)); [|destruct (500 <=? st)]]].
      * right. left. eexists _, _. by split.
      * right. left. eexists _, _. split; [reflexivity|]. split; [done|]. by case_bool_decide.
      * right. left. eexists _, _. by split.
      * right. right. eexists. by split.
      * right. right. eexists. by split.
Qed.

(** C32: an answer of the provider is taken as acceptance exactly when the provider said that it took the
    request, and what is recorded of it is consistent: its scope fits its code, only an acceptance or a
    rejection of the recipient counts as an attempt, and nothing stays open but an unknown outcome. *)
Theorem acceptance_is_never_guessed (answer : LineTransportResult) :
  let c := classifyLineResponse answer in
  (lc_accepted c = true <-> provider_took answer) /\
  exists outcomeClass, assertLineOutcomeScope (lc_outcomeCode c) (lc_rejectionScope c) = Ok outcomeClass /\
    (lc_accepted c = true <-> lineNormalizedOutcome (lc_outcomeCode c) = Terminal PROVIDER_ACCEPTED) /\
    (lc_reconcile c = true <-> lineNormalizedOutcome (lc_outcomeCode c) = UNKNOWN_RECONCILING) /\
    (is_Some (lc_rejectionScope c) <-> lineNormalizedOutcome (lc_outcomeCode c) = Terminal PROVIDER_REJECTED) /\
    lineProviderSettlement (lc_outcomeCode c) (lc_rejectionScope c) =
      Ok (SettlementDecision (lc_accepted c || bool_decide (lc_rejectionScope c = Some RECIPIENT)) false false).
Proof.
  unfold lineNormalizedOutcome, lineProviderSettlement.
  destruct (classify_cases answer) as [(code & -> & Ht & Hc)|[(code & scope & -> & Ht & Hs)|(code & -> & Ht & Hc)]]; cbn.
  - split; [tauto|]. exists CLASS_ACCEPTED. unfold assertLineOutcomeScope. rewrite Hc. cbn. split_and?; try done; by split; [intros []|].
  - split; [split; [done|tauto]|]. exists CLASS_TERMINAL_REJECTED. rewrite Hs. unfold assertLineOutcomeScope in Hs.
    apply bind_throw_if_ok in Hs as [_ [= Hc]]. rewrite Hc. cbn. split_and?; [done..| |by destruct scope]. split; [done|]. by eexists.
  - split; [split; [done|tauto]|]. exists CLASS_RETRYABLE_UNKNOWN. unfold assertLineOutcomeScope. rewrite Hc. cbn.
    split_and?; try done; by split; [intros []|].
Qed.

(** Whatever LINE answers, the HTTP transport reports no error code, so an exhausted monthly quota
    is taken for a rate limit and never for the signal that stops the scope. *)
Theorem http_never_reports_quota (fetched : FetchResult) :
  lc_outcomeCode (classifyLineResponse (http_push fetched)) <> LINE_MONTHLY_QUOTA_EXHAUSTED /\
  forall headers body, sent_message_ids (default JUndefined body) <> None ->
    classifyLineResponse (http_push (Fetch_responds 429 headers body)) = rejected_as LINE_RATE_LIMITED OPERATIONAL.
Proof.
  split.
  - destruct fetched as [[]|st headers body]; [done..|]. cbn. destruct (sent_message_ids _) as [ids|]; [|done].
    cbn. destruct (_ && _); [destruct ids; cbn; [done|by destruct (Z.ltb_spec 0 (Z.of_nat (S (length ids))))]|].
    destruct (st =? 409); [by case_bool_decide|]. destruct (_ || _); [done|]. destruct (st =? 429); [done|].
    destruct (_ && _); [done|]. by destruct (500 <=? st).
  - intros headers body Hb. cbn. destruct (sent_message_ids _); [done|congruence].
Qed.

(** The canonical request built from the resolved content of a fixture is that built from the
    fixture. *)
Theorem canonical_fixture_agrees `{Host} (contentRef recipientFingerprint : string) :
  buildLineCanonicalRequest contentRef recipientFingerprint =
  (fun c => buildLineCanonicalRequestFrom c recipientFingerprint) <$> fixture_content contentRef.
Proof.
  unfold buildLineCanonicalRequest, fixture_content, lineContentDigest. by destruct (map_get _ _) as [[]|].
Qed.

(** The wait between attempts. *)
Lemma backoff_bounds n : LINE_BACKOFF_BASE_MS <= lineBackoffMs n <= LINE_BACKOFF_MAX_MS.
Proof.
  unfold lineBackoffMs, LINE_BACKOFF_BASE_MS, LINE_BACKOFF_MAX_MS.
  pose proof (Z.pow_pos_nonneg 2 (Z.max 0 (n - 1))). lia.
Qed.

(** ** The key of a delivery *)

Lemma string_forall_substring p n m s : string_forall p s = true -> string_forall p (String.substring n m s) = true.
Proof.
  revert n m. induction s as [|c s IH]; intros [|n] [|m]; cbn; try done; intros Hs; apply andb_prop in Hs as [Hc Hs].
  - rewrite Hc. by apply IH.
  - by apply IH.
  - by apply IH.
Qed.

Lemma length_substring n m s : (n + m <= String.length s)%nat -> String.length (String.substring n m s) = m.
Proof.
  revert n m. induction s as [|c s IH]; intros [|n] [|m]; cbn; intros Hl; try done; try lia.
  - f_equal. apply IH. cbn. lia.
  - apply IH. lia.
  - apply IH. lia.
Qed.

Lemma length_append s t : String.length (s +:+ t) = (String.length s + String.length t)%nat.
Proof. induction s as [|c s IH]; [done|]. rewrite append_cons. cbn. by rewrite IH. Qed.

Lemma hex_free s : string_forall is_lower_hex s = true -> string_forall (fun c => negb (Ascii.eqb c "-"%char)) s = true.
Proof.
  induction s as [|c s IH]; cbn; [done|]. intros Hs. apply andb_prop in Hs as [Hc Hs]. rewrite IH by done.
  rewrite andb_true_r. by destruct (Ascii.eqb_spec c "-"%char) as [->|].
Qed.

Lemma retry_key_parts a b c d e :
  Forall (fun p => String.length (fst p) = snd p /\ string_forall is_lower_hex (fst p) = true)
    [(a, 8%nat); (b, 4%nat); (c, 4%nat); (d, 4%nat); (e, 12%nat)] ->
  isLineRetryKey (a +:+ "-" +:+ b +:+ "-" +:+ c +:+ "-" +:+ d +:+ "-" +:+ e) = true.
Proof.
  intros Hall. unfold isLineRetryKey. rewrite Forall_forall in Hall.
  assert (Hf : forall s n, (s, n) ∈ [(a, 8%nat); (b, 4%nat); (c, 4%nat); (d, 4%nat); (e, 12%nat)] ->
                 string_forall (fun c => negb (Ascii.eqb c "-"%char)) s = true).
  { intros s n Hs. apply hex_free. exact (proj2 (Hall (s, n) Hs)). }
  rewrite !(append_cons "-"%char), !append_nil_l.
  rewrite !split_char_app, split_char_free by (eapply Hf; repeat (apply list_elem_of_here || apply list_elem_of_further)).
  apply forallb_forall. intros p Hp. apply list_elem_of_In in Hp.
  destruct (Hall p Hp) as [-> ->]. by rewrite Nat.eqb_refl.
Qed.

(** The key derived for a delivery is one LINE takes, whatever the tenant and the delivery are
    named. *)
Theorem derived_retry_key_valid `{Host} (tenantId deliveryId : string)
  (sha256_hex_format : forall s, String.length (sha256_hex s) = 64%nat /\ string_forall is_lower_hex (sha256_hex s) = true) :
  isLineRetryKey (deriveLineRetryKey tenantId deliveryId) = true.
Proof.
  unfold deriveLineRetryKey, slice. set (digest := sha256_hex _).
  destruct (sha256_hex_format ("line-retry|" +:+ tenantId +:+ "|" +:+ deliveryId)) as [Hl Hx]. fold digest in Hl, Hx.
  set (hex := String.substring 0 (32 - 0) digest).
  assert (Hhl : String.length hex = 32%nat) by (apply length_substring; lia).
  assert (Hhx : string_forall is_lower_hex hex = true) by (by apply string_forall_substring).
  set (v4 := _ +:+ "4" +:+ _).
  assert (Hvl : String.length v4 = 16%nat).
  { unfold v4. rewrite !length_append, !length_substring by lia. done. }
  assert (Hvx : string_forall is_lower_hex v4 = true).
  { unfold v4. rewrite !string_forall_app, !string_forall_substring by done. done. }
  apply retry_key_parts. repeat constructor; cbn [fst snd];
    try (by apply string_forall_substring); try (apply length_substring; lia).
  - rewrite length_append, length_substring by lia. done.
  - rewrite string_forall_app, string_forall_substring by done. rewrite andb_true_r. cbn. rewrite andb_true_r.
    assert (Hb : 0 <= low_bits (String.get 16 hex) < 4).
    { unfold low_bits. destruct (String.get 16 hex) as [c|]; [|lia].
      change 3 with (Z.ones 2). rewrite !Z.land_ones by lia.
      destruct (is_lower_hex c); [|destruct (is_hex_digit c); [|lia]]; apply Z.mod_pos_bound; lia. }
    assert (Hc : low_bits (String.get 16 hex) = 0 \/ low_bits (String.get 16 hex) = 1 \/
                 low_bits (String.get 16 hex) = 2 \/ low_bits (String.get 16 hex) = 3) by lia.
    by destruct Hc as [-> |[-> |[-> | ->]]].
Qed.
