(* ===== verification/LineControlPolicy.v ===== *)
(** * LineControlPolicy: who may do what, which caps apply, when a scope is killed

    [apps/delivery/src/line-control-policy.ts]: the decision tables of the LINE control plane, without
    input or output. Instants are milliseconds since the epoch. *)
From stdpp Require Import base tactics list strings.
From Stdlib Require Import ZArith Lia.
From S2P Require Import Prelude JsMap Text JsDate JsValue Contracts ScopeKey Persistence ReservationRuntime LineDelivery.

Open Scope string_scope.
Open Scope Z_scope.
Open Scope list_scope.

(** ** Authority *)

Inductive LineControlActorRole := TENANT_ADMIN | COMPLIANCE | PLATFORM_OPERATOR | SYSTEM.
#[export] Instance LineControlActorRole_eq_dec : EqDecision LineControlActorRole.
Proof. solve_decision. Defined.

Inductive LineControlAction :=
  | ADVANCE_STATE | LOWER_STATE | SET_TECHNICAL_SWITCH | KILL | CLEAR_KILL | REGISTER_ALLOWLIST | REVOKE_ALLOWLIST
  | REGISTER_CREDENTIAL | ACTIVATE_CREDENTIAL | REVOKE_CREDENTIAL | PROPOSE_RUN | APPROVE_RUN_TENANT_ADMIN
  | APPROVE_RUN_COMPLIANCE | CLOSE_RUN | EXECUTE_RUN.
#[export] Instance LineControlAction_eq_dec : EqDecision LineControlAction.
Proof. solve_decision. Defined.

Definition LINE_CONTROL_AUTHORITY (action : LineControlAction) : list LineControlActorRole :=
  match action with
  | ADVANCE_STATE => [COMPLIANCE]
  | LOWER_STATE => [COMPLIANCE; PLATFORM_OPERATOR]
  | SET_TECHNICAL_SWITCH => [PLATFORM_OPERATOR]
  | KILL => [TENANT_ADMIN; COMPLIANCE; PLATFORM_OPERATOR; SYSTEM]
  | CLEAR_KILL => [COMPLIANCE]
  | REGISTER_ALLOWLIST => [TENANT_ADMIN]
  | REVOKE_ALLOWLIST => [TENANT_ADMIN; COMPLIANCE]
  | REGISTER_CREDENTIAL | ACTIVATE_CREDENTIAL => [PLATFORM_OPERATOR]
  | REVOKE_CREDENTIAL => [PLATFORM_OPERATOR; COMPLIANCE]
  | PROPOSE_RUN => [PLATFORM_OPERATOR]
  | APPROVE_RUN_TENANT_ADMIN => [TENANT_ADMIN]
  | APPROVE_RUN_COMPLIANCE => [COMPLIANCE]
  | CLOSE_RUN => [PLATFORM_OPERATOR; COMPLIANCE]
  | EXECUTE_RUN => [PLATFORM_OPERATOR]
  end.

(** What the services of [apps/delivery] throw: their own errors, Governance's, and the refusals of the
    database (a unique index, a check or a trigger). *)
Inductive LineError :=
  | OutcomeScopeThrown (e : OutcomeScopeError)
  | LineControlAuthorizationError (role : LineControlActorRole) (action : LineControlAction)
  | LineBindingRejectedError
  | LineIdempotencyConflictError (subject : string)
  | OutboxEntryAlreadyExistsError (actionKey : string)
  | LineContentUnavailable (contentRef : string)
  | InlineContentRejectedError
  | LineForbiddenFieldError (key : string)
  | LineDeliveryNotFound (deliveryId : string)
  | GovernanceThrew (e : RuntimeError)
  | UniqueViolation
  | JsonSyntaxError
  | DatabaseRefusal (code : string).
#[export] Instance LineError_eq_dec : EqDecision LineError.
Proof. solve_decision. Defined.

Definition mayPerform (role : LineControlActorRole) (action : LineControlAction) : bool :=
  includes (LINE_CONTROL_AUTHORITY action) role.

Definition assertControlAuthority (role : LineControlActorRole) (action : LineControlAction) : result LineError unit :=
  throw_if (negb (mayPerform role action)) (LineControlAuthorizationError role action).

(** ** Business state and operations *)

Inductive LineProviderOperation := LOCAL_VALIDATION | TOKEN_VERIFY | QUOTA_READ | MESSAGE_VALIDATE | WEBHOOK_TEST | PUSH.
#[export] Instance LineProviderOperation_eq_dec : EqDecision LineProviderOperation.
Proof. solve_decision. Defined.

Definition LINE_OPERATION_MINIMUM_STATE (op : LineProviderOperation) : LineRolloutState :=
  match op with
  | LOCAL_VALIDATION => DRY_RUN
  | TOKEN_VERIFY | QUOTA_READ | MESSAGE_VALIDATE | WEBHOOK_TEST => PROVIDER_CONFORMANCE
  | PUSH => CAPPED_PILOT
  end.

Definition LINE_OPERATIONS_NEEDING_PROVIDER : list LineProviderOperation :=
  [TOKEN_VERIFY; QUOTA_READ; MESSAGE_VALIDATE; WEBHOOK_TEST; PUSH].

(** The position in [ROLLOUT_ORDER]. *)
Definition rolloutRank (state : LineRolloutState) : Z :=
  match state with DISABLED => 0 | DRY_RUN => 1 | PROVIDER_CONFORMANCE => 2 | CAPPED_PILOT => 3 end.

Definition allowsOperation (state : LineRolloutState) (op : LineProviderOperation) : bool :=
  if bool_decide (state = DISABLED) then false
  else rolloutRank (LINE_OPERATION_MINIMUM_STATE op) <=? rolloutRank state.

Definition needsProviderCredential (op : LineProviderOperation) : bool := includes LINE_OPERATIONS_NEEDING_PROVIDER op.

Definition isSingleStepAdvance (from to : LineRolloutState) : bool := rolloutRank to =? rolloutRank from + 1.
Definition isLowering (from to : LineRolloutState) : bool := rolloutRank to <? rolloutRank from.

(** ** Caps *)

Definition DAY_MS : Z := 24 * 60 * 60000.

Record LineDeliveryCaps := DeliveryCaps {
  cp_perRun : Z;
  cp_perRecipientPer24h : Z;
  cp_per24h : Z;
  cp_lifetime : Z;
}.

Definition LINE_PILOT_DELIVERY_CAPS : LineDeliveryCaps :=
  {| cp_perRun := Pilot.logicalDeliveriesPerRun; cp_perRecipientPer24h := Pilot.logicalDeliveriesPerRecipientPer24h;
     cp_per24h := Pilot.logicalDeliveriesPer24h; cp_lifetime := Pilot.logicalDeliveriesLifetime |}.

(** [LineRunCapSource]: the columns of an authorization that caps derive from. *)
Record LineRunCapSource := RunCapSource {
  rc_profile : string;
  rc_capLogicalDeliveries : Z;
  rc_capRecipientPer24h : option Z;
  rc_capPer24h : option Z;
  rc_capLifetime : option Z;
}.

Definition isTeamTrialRun (profile : string) : bool := bool_decide (profile = Trial.PROFILE).

Definition lineDeliveryCapsFor (run : LineRunCapSource) : LineDeliveryCaps :=
  if negb (isTeamTrialRun (rc_profile run)) then LINE_PILOT_DELIVERY_CAPS
  else
    let bounded value max := Z.min (Z.max (default 0 value) 0) max in
    {| cp_perRun := bounded (Some (rc_capLogicalDeliveries run)) Trial.logicalDeliveriesPerRun;
       cp_perRecipientPer24h := bounded (rc_capRecipientPer24h run) Trial.logicalDeliveriesPerRecipientPer24h;
       cp_per24h := bounded (rc_capPer24h run) Trial.logicalDeliveriesPer24h;
       cp_lifetime := bounded (rc_capLifetime run) Trial.logicalDeliveriesLifetime |}.

(** [LineCapLimit] of [line-control-repository.ts] *)
Record LineCapLimit := CapLimit {
  li_code : LineGateErrorCode;
  li_capKind : LineCapKind;
  li_max : Z;
  li_sameRecipient : bool;
  li_sameRun : bool;
  li_sameDelivery : bool;
  li_since : option Z;
  li_activeOnly : bool;
}.

Definition lineCapLimits (capKind : LineCapKind) (at_ : Z) (runCapProviderAttempts : option Z)
  (deliveryCaps : option LineDeliveryCaps) : list LineCapLimit :=
  let since := Some (at_ - DAY_MS) in
  let caps := default LINE_PILOT_DELIVERY_CAPS deliveryCaps in
  match capKind with
  | LOGICAL_DELIVERY =>
      [CapLimit RUN_DELIVERY_CAP_EXCEEDED LOGICAL_DELIVERY (cp_perRun caps) false true false None false;
       CapLimit CONTACT_WINDOW_CAP_EXCEEDED LOGICAL_DELIVERY (cp_perRecipientPer24h caps) true false false since false;
       CapLimit SUBMISSION_WINDOW_CAP_EXCEEDED LOGICAL_DELIVERY (cp_per24h caps) false false false since false;
       CapLimit LIFETIME_CAP_EXCEEDED LOGICAL_DELIVERY (cp_lifetime caps) false false false None false]
  | CONCURRENT_SUBMISSION =>
      [CapLimit CONCURRENT_SUBMISSION_CAP_EXCEEDED CONCURRENT_SUBMISSION Pilot.concurrentSubmissions false false false None true]
  | CONCURRENT_UNKNOWN =>
      [CapLimit CONCURRENT_UNKNOWN_RECONCILING_CAP_EXCEEDED CONCURRENT_UNKNOWN Pilot.concurrentUnknownReconciling
         false false false None true]
  | PROVIDER_ATTEMPT =>
      [CapLimit PROVIDER_ATTEMPT_CAP_EXCEEDED PROVIDER_ATTEMPT
         (Z.min (default Pilot.providerAttemptsPerLogicalDelivery runCapProviderAttempts) Pilot.providerAttemptsPerLogicalDelivery)
         false false true None false]
  end.

(** ** Proposals *)

Record LineTrialDimensions := TrialDimensions {
  td_trialRef : string;
  td_capRecipientPer24h : Z;
  td_capPer24h : Z;
  td_capLifetime : Z;
  td_contactId : string;
  td_identityId : option string;
}.

Record LineRunProposalDigestInput := RunProposalDigestInput {
  pd_tenantId : string;
  pd_gateId : string;
  pd_channelAccountId : string;
  pd_senderIdentityId : string;
  pd_purpose : string;
  pd_contactKind : string;
  pd_allowlistEntryId : string;
  pd_recipientFingerprint : string;
  pd_contentDigest : string;
  pd_configDigest : string;
  pd_credentialRefId : string;
  pd_credentialVersion : Z;
  pd_capLogicalDeliveries : Z;
  pd_capProviderAttempts : Z;
  pd_proposedBy : string;
  pd_proposalRef : string;
  pd_proposedAt : Z;
  pd_expiresAt : Z;
  pd_trial : option LineTrialDimensions;
}.

(** The pairs the digest is taken of, before they are sorted by their names. *)
Definition proposal_pairs (i : LineRunProposalDigestInput) : list (string * string) :=
  ("profile", if bool_decide (is_Some (pd_trial i)) then Trial.PROFILE else Pilot.PROFILE) ::
  match pd_trial i with
  | Some t =>
      [("trialRef", td_trialRef t); ("capRecipientPer24h", show (td_capRecipientPer24h t));
       ("capPer24h", show (td_capPer24h t)); ("capLifetime", show (td_capLifetime t));
       ("contactId", td_contactId t); ("identityId", default "" (td_identityId t))]
  | None => []
  end ++
  [("tenantId", pd_tenantId i); ("gateId", pd_gateId i); ("channelAccountId", pd_channelAccountId i);
   ("senderIdentityId", pd_senderIdentityId i); ("purpose", pd_purpose i); ("contactKind", pd_contactKind i);
   ("allowlistEntryId", pd_allowlistEntryId i); ("recipientFingerprint", pd_recipientFingerprint i);
   ("contentDigest", pd_contentDigest i); ("configDigest", pd_configDigest i);
   ("credentialRefId", pd_credentialRefId i); ("credentialVersion", show (pd_credentialVersion i));
   ("capLogicalDeliveries", show (pd_capLogicalDeliveries i)); ("capProviderAttempts", show (pd_capProviderAttempts i));
   ("proposedBy", pd_proposedBy i); ("proposalRef", pd_proposalRef i); ("proposedAt", toISOString (pd_proposedAt i));
   ("expiresAt", toISOString (pd_expiresAt i))].

Definition pair_json (p : string * string) : jsval := JArr [JStr (fst p); JStr (snd p)].

Definition lineRunProposalDigest `{Host} (i : LineRunProposalDigestInput) : string :=
  sha256_hex (json_print (JArr (map pair_json (sort_by (fun a b => locale_le (fst a) (fst b)) (proposal_pairs i))))).

Definition lineTeamTrialExpiry (proposedAt days : Z) : Z :=
  proposedAt + Z.min (Z.max days 1) Trial.runAuthorizationTtlDays * DAY_MS.

Definition lineRunExpiry (proposedAt : Z) : Z := proposedAt + Pilot.runAuthorizationTtlMinutes * 60000.

(** ** Quota *)

(** [LineQuotaSnapshot]; [None] for the limit where it is missing or not finite. *)
Record LineQuotaSnapshot := QuotaSnapshot {
  qs_limited : bool;
  qs_targetLimit : option Z;
  qs_totalUsage : Z;
  qs_observedAt : Z;
}.

Inductive LineQuotaAdvisoryStatus := QUOTA_OK | QUOTA_IS_EXHAUSTED | QUOTA_STALE | QUOTA_UNAVAILABLE.
#[export] Instance LineQuotaAdvisoryStatus_eq_dec : EqDecision LineQuotaAdvisoryStatus.
Proof. solve_decision. Defined.

Definition LINE_QUOTA_SNAPSHOT_MAX_AGE_MS : Z := Pilot.runAuthorizationTtlMinutes / 2 * 60000.

Definition evaluateQuotaAdvisory (snapshot : option LineQuotaSnapshot) (at_ : Z) : LineQuotaAdvisoryStatus :=
  match snapshot with
  | None => QUOTA_UNAVAILABLE
  | Some q =>
      let age := at_ - qs_observedAt q in
      if (age <? 0) || (LINE_QUOTA_SNAPSHOT_MAX_AGE_MS <? age) then QUOTA_STALE
      else if negb (qs_limited q) then QUOTA_OK
      else match qs_targetLimit q with
           | None => QUOTA_UNAVAILABLE
           | Some limit => if Pilot.logicalDeliveriesPerRun <=? limit - qs_totalUsage q then QUOTA_OK else QUOTA_IS_EXHAUSTED
           end
  end.

(** ** Kills *)

Definition automaticKillReasonFor (signal : LineControlSignal) : LineKillReason := SIGNALLED signal.

Definition operatorKillReasonFor (role : LineControlActorRole) : LineKillReason :=
  if bool_decide (role = COMPLIANCE) then COMPLIANCE_KILL else OPERATOR_KILL.

Definition killSignalForOutcome (code : LineProviderOutcomeCode) : option LineControlSignal :=
  match code with
  | LINE_AUTH_INVALID => Some AUTH_FAILURE
  | LINE_MONTHLY_QUOTA_EXHAUSTED => Some QUOTA_EXHAUSTED
  | LINE_RETRY_WINDOW_EXPIRED => Some UNKNOWN_OUTCOME_EXPIRED
  | _ => None
  end.

(** ** Laws of the tables *)

(** Caps of a trial stay under its ceilings, and those of a pilot are fixed. *)
Lemma delivery_caps_bounded run :
  0 <= cp_perRun (lineDeliveryCapsFor run) <= Trial.logicalDeliveriesPerRun /\
  0 <= cp_perRecipientPer24h (lineDeliveryCapsFor run) <= Trial.logicalDeliveriesPerRecipientPer24h /\
  0 <= cp_per24h (lineDeliveryCapsFor run) <= Trial.logicalDeliveriesPer24h /\
  0 <= cp_lifetime (lineDeliveryCapsFor run) <= Trial.logicalDeliveriesLifetime.
Proof.
  unfold lineDeliveryCapsFor. destruct (negb _); cbn [cp_perRun cp_perRecipientPer24h cp_per24h cp_lifetime LINE_PILOT_DELIVERY_CAPS];
    unfold Trial.logicalDeliveriesPerRun, Trial.logicalDeliveriesPerRecipientPer24h, Trial.logicalDeliveriesPer24h,
      Trial.logicalDeliveriesLifetime, Pilot.logicalDeliveriesPerRun, Pilot.logicalDeliveriesPerRecipientPer24h,
      Pilot.logicalDeliveriesPer24h, Pilot.logicalDeliveriesLifetime; lia.
Qed.

Lemma may_perform_spec role action : mayPerform role action = true <-> In role (LINE_CONTROL_AUTHORITY action).
Proof. apply includes_spec. Qed.

(** A kill is open to everyone, lifting one or moving up to Compliance alone, and sending to the operator alone. *)
Lemma authority_separated role :
  mayPerform role KILL = true /\
  (mayPerform role CLEAR_KILL = true <-> role = COMPLIANCE) /\ (mayPerform role ADVANCE_STATE = true <-> role = COMPLIANCE) /\
  (mayPerform role EXECUTE_RUN = true <-> role = PLATFORM_OPERATOR) /\
  (mayPerform role PROPOSE_RUN = true -> mayPerform role APPROVE_RUN_TENANT_ADMIN = false /\ mayPerform role APPROVE_RUN_COMPLIANCE = false).
Proof. by destruct role. Qed.
