(* ===== verification/LineTables.v ===== *)
(** * LineTables: the rows of LINE delivery and the guards the database keeps on them

    The tables of [packages/db/prisma/migrations/20260922160100_add_s2_line_persistence] and
    [20261001120000_add_line_team_trial] with their checks, keys and triggers, and [dl_outbox_entries], for
    one tenant: every transaction runs under row level security for it. The formats of identifiers,
    references and digests are left out. *)
From stdpp Require Import base tactics list strings.
From Stdlib Require Import ZArith Lia.
From S2P Require Import Prelude JsMap Text JsDate JsValue Contracts ScopeKey Persistence ReservationRuntime LineDelivery LineControlPolicy.

Open Scope string_scope.
Open Scope Z_scope.
Open Scope list_scope.

(** ** Rows *)

(** [LineGateScope] within the tenant. *)
Record LineGateScope := GateScope {
  sc_channelAccountId : string;
  sc_senderIdentityId : string;
  sc_purpose : string;
  sc_contactKind : string;
}.
#[export] Instance LineGateScope_eq_dec : EqDecision LineGateScope.
Proof. solve_decision. Defined.

(** [dl_line_scope_gates]; [killed], its reason and its instant stand or fall together. *)
Record ScopeGate := ScopeGate_ {
  gt_id : string;
  gt_scope : LineGateScope;
  gt_businessState : LineRolloutState;
  gt_technicalSwitchOn : bool;
  gt_kill : option (LineKillReason * Z);
  gt_killClearedRef : option string;
  gt_configDigest : option string;
  gt_version : Z;
}.
Definition gt_killed (g : ScopeGate) : bool := bool_decide (is_Some (gt_kill g)).

(** The columns of [dl_line_allowlist_entries] that never change. *)
Record AllowlistTuple := AllowlistTuple_ {
  al_id : string;
  al_gateId : string;
  al_scope : LineGateScope;
  al_recipientFingerprint : string;
  al_recipientProtectedRef : string;
  al_contentRef : string;
  al_contentDigest : string;
  al_configDigest : string;
  al_validFrom : Z;
  al_validUntil : Z;
  al_approvalAuditRef : string;
}.
#[export] Instance AllowlistTuple_eq_dec : EqDecision AllowlistTuple.
Proof. solve_decision. Defined.

Record AllowlistEntry := AllowlistEntry_ {
  al_tuple : AllowlistTuple;
  al_revoked : option (Z * string);
}.

(** The metadata [dl_line_credential_refs] pins. *)
Record CredentialMeta := CredentialMeta_ {
  cd_id : string;
  cd_channelAccountId : string;
  cd_credentialKind : LineCredentialKind;
  cd_version : Z;
  cd_keychainService : string;
  cd_keychainAccount : string;
  cd_fingerprint : string;
  cd_keyId : option string;
  cd_issuedAt : Z;
  cd_expiresAt : option Z;
  cd_longLivedExceptionRef : option string;
}.
#[export] Instance CredentialMeta_eq_dec : EqDecision CredentialMeta.
Proof. solve_decision. Defined.

Record CredentialRef := CredentialRef_ {
  cd_meta : CredentialMeta;
  cd_status : LineCredentialStatus;
  cd_verifiedAt : option Z;
  cd_activatedAt : option Z;
  cd_retiredAt : option Z;
  cd_revokedAt : option Z;
}.

(** The class of a credential: an access token of either kind, or the channel secret. *)
Definition is_secret (k : LineCredentialKind) : bool := bool_decide (k = CHANNEL_SECRET).

(** The proposal of [dl_line_run_authorizations]: the columns of a trial stand or fall together. *)
Record RunProposal := RunProposal_ {
  rp_id : string;
  rp_gateId : string;
  rp_allowlistEntryId : string;
  rp_credentialRefId : string;
  rp_credentialVersion : Z;
  rp_proposalDigest : string;
  rp_configDigest : string;
  rp_capLogicalDeliveries : Z;
  rp_capProviderAttempts : Z;
  rp_proposedBy : string;
  rp_proposedAt : Z;
  rp_expiresAt : Z;
  rp_trial : option LineTrialDimensions;
}.
#[export] Instance LineTrialDimensions_eq_dec : EqDecision LineTrialDimensions.
Proof. solve_decision. Defined.
#[export] Instance RunProposal_eq_dec : EqDecision RunProposal.
Proof. solve_decision. Defined.

Record RunAuthorization := RunAuthorization_ {
  ru_proposal : RunProposal;
  ru_tenantAdminApproved : option (string * Z);
  ru_complianceApproved : option (string * Z);
  ru_state : LineRunAuthorizationState;
  ru_consumed : option (Z * string);
  ru_closedAt : option Z;
}.
Definition ru_id (r : RunAuthorization) := rp_id (ru_proposal r).
Definition ru_gateId (r : RunAuthorization) := rp_gateId (ru_proposal r).
Definition is_trial (p : RunProposal) : bool := bool_decide (is_Some (rp_trial p)).
Definition rp_profile (p : RunProposal) : string := if is_trial p then Trial.PROFILE else Pilot.PROFILE.

(** The columns its caps derive from. *)
Definition cap_source (p : RunProposal) : LineRunCapSource :=
  {| rc_profile := rp_profile p; rc_capLogicalDeliveries := rp_capLogicalDeliveries p;
     rc_capRecipientPer24h := td_capRecipientPer24h <$> rp_trial p; rc_capPer24h := td_capPer24h <$> rp_trial p;
     rc_capLifetime := td_capLifetime <$> rp_trial p |}.
Definition run_caps (p : RunProposal) : LineDeliveryCaps := lineDeliveryCapsFor (cap_source p).

(** [dl_line_cap_ledger]: what a unit is of, and its state. *)
Record CapUnit := CapUnit_ {
  cu_id : string;
  cu_gateId : string;
  cu_runAuthorizationId : string;
  cu_deliveryId : string;
  cu_capKind : LineCapKind;
  cu_attemptNo : Z;
  cu_recipientFingerprint : string;
  cu_reservedAt : Z;
}.
#[export] Instance CapUnit_eq_dec : EqDecision CapUnit.
Proof. solve_decision. Defined.

Record CapLedgerEntry := CapLedgerEntry_ {
  ce_unit : CapUnit;
  ce_state : LineCapReservationState;
  ce_settledAt : option Z;
}.

(** The key of a reservation: delivery, kind and attempt. *)
Definition cap_key (u : CapUnit) : string * LineCapKind * Z := (cu_deliveryId u, cu_capKind u, cu_attemptNo u).

Inductive LineAuditCategory := AUDIT_GATE | AUDIT_KILL | AUDIT_ALLOWLIST | AUDIT_RUN_AUTHORIZATION | AUDIT_CAP | AUDIT_CREDENTIAL | AUDIT_PROVIDER
  | AUDIT_WEBHOOK.
#[export] Instance LineAuditCategory_eq_dec : EqDecision LineAuditCategory.
Proof. solve_decision. Defined.

Record AuditEvent := AuditEvent_ {
  au_id : string;
  au_eventId : string;
  au_category : LineAuditCategory;
  au_code : string;
  au_actorKind : LineControlActorRole;
  au_actorRef : string;
  au_subjectId : option string;
  au_deliveryId : option string;
  au_evidenceDigest : option string;
  au_occurredAt : Z;
}.

Inductive DlDeliveryAdapter := TEST_ADAPTER | LINE_MESSAGING_API | FREESWITCH_ORIGINATE.
#[export] Instance DlDeliveryAdapter_eq_dec : EqDecision DlDeliveryAdapter.
Proof. solve_decision. Defined.

Inductive DlDeliveryState := QUEUED | SUBMITTING | SUBMITTED | RECONCILING | SETTLED.
#[export] Instance DlDeliveryState_eq_dec : EqDecision DlDeliveryState.
Proof. solve_decision. Defined.

(** What [dl_outbox_guard_identity] holds fixed in [dl_outbox_entries], and the lease and trace it is made with. *)
Record OutboxIdentity := OutboxIdentity_ {
  ob_id : string;
  ob_actionKey : string;
  ob_reservationId : string;
  ob_deliveryId : string;
  ob_providerRequestKey : string;
  ob_adapter : DlDeliveryAdapter;
  ob_channel : ContactChannel;
  ob_contactId : string;
  ob_identityId : option string;
  ob_purpose : string;
  ob_source : string;
  ob_senderIdentityId : string;
  ob_contentRef : string;
  ob_inputHash : string;
  ob_leaseVersion : Z;
  ob_leaseExpiresAt : Z;
  ob_correlationId : string;
  ob_causationId : option string;
}.

Record OutboxEntry := OutboxEntry_ {
  ob_identity : OutboxIdentity;
  ob_state : DlDeliveryState;
  ob_submittedAt : option Z;
  ob_settledAt : option Z;
  ob_outcome : option TerminalDeliveryOutcome;
  ob_outcomeRef : option string;
}.
Definition ob_delivery (e : OutboxEntry) := ob_deliveryId (ob_identity e).
Definition ob_is (adapter : DlDeliveryAdapter) (deliveryId : string) (e : OutboxEntry) : bool :=
  bool_decide (ob_delivery e = deliveryId) && bool_decide (ob_adapter (ob_identity e) = adapter).

(** [dl_provider_submission_attempts] *)
Record SubmissionAttempt := SubmissionAttempt_ {
  sa_id : string;
  sa_deliveryId : string;
  sa_providerRequestKey : string;
  sa_attemptNo : Z;
  sa_providerPayloadDigest : string;
  sa_startedAt : Z;
  sa_finishedAt : Z;
  sa_httpStatus : option Z;
  sa_outcomeCode : LineProviderOutcomeCode;
  sa_outcomeClass : LineProviderOutcomeClass;
  sa_rejectionScope : option DeliveryRejectionScope;
  sa_lineRequestId : option string;
  sa_lineAcceptedRequestId : option string;
  sa_sentMessageIds : list string;
}.

(** A row of [dl_line_event_outbox]; the payload of a lifecycle event is the object of its fields. *)
Record LineEventRow := LineEventRow_ {
  le_id : string;
  le_eventId : string;
  le_orderingKey : string;
  le_payload : jsval;
  le_payloadHash : string;
  le_occurredAt : Z;
}.

(** ** Checks and triggers *)

(** [CHECK]s of the gate: a kill switches off, and only the first two states go without a configuration. *)
Definition gate_check (g : ScopeGate) : bool :=
  negb (gt_killed g && gt_technicalSwitchOn g) &&
  (includes [DISABLED; DRY_RUN] (gt_businessState g) || bool_decide (is_Some (gt_configDigest g))).

(** [dl_line_guard_scope_gate]: the refusal of an update, if any. *)
Definition dl_line_guard_scope_gate (old new : ScopeGate) : option string :=
  if negb (bool_decide (gt_id new = gt_id old) && bool_decide (gt_scope new = gt_scope old)) then Some "DL_LINE_GATE_SCOPE_IMMUTABLE"
  else if negb (gt_version new =? gt_version old + 1) then Some "DL_LINE_GATE_VERSION_CAS"
  else if rolloutRank (gt_businessState old) + 1 <? rolloutRank (gt_businessState new) then Some "DL_LINE_GATE_STEP"
  else if (gt_killed old || gt_killed new) && (rolloutRank (gt_businessState old) <? rolloutRank (gt_businessState new))
  then Some "DL_LINE_GATE_KILLED_ADVANCE"
  else if gt_killed old && negb (gt_killed new) then
    if bool_decide (gt_killClearedRef new = None) || bool_decide (gt_killClearedRef new = gt_killClearedRef old)
    then Some "DL_LINE_GATE_KILL_CLEAR_REF"
    else if negb (bool_decide (gt_businessState new = DISABLED)) then Some "DL_LINE_GATE_KILL_CLEAR_STATE"
    else if gate_check new then None else Some "dl_line_scope_gates_check"
  else if negb (bool_decide (gt_killClearedRef new = gt_killClearedRef old)) then Some "DL_LINE_GATE_KILL_CLEARED_REF_IMMUTABLE"
  else if gt_killed old && gt_killed new && negb (bool_decide (gt_kill new = gt_kill old)) then Some "DL_LINE_GATE_KILL_REASON_IMMUTABLE"
  else if gate_check new then None else Some "dl_line_scope_gates_check".

Definition dl_line_guard_allowlist (old new : AllowlistEntry) : option string :=
  if bool_decide (is_Some (al_revoked old)) then Some "DL_LINE_ALLOWLIST_REVOKED"
  else if negb (bool_decide (al_tuple new = al_tuple old)) then Some "DL_LINE_ALLOWLIST_IMMUTABLE"
  else None.

(** The order [CANDIDATE], [ACTIVE], [RETIRED], [REVOKED]. *)
Definition credential_rank (s : LineCredentialStatus) : Z :=
  match s with CRED_CANDIDATE => 0 | CRED_ACTIVE => 1 | CRED_RETIRED => 2 | CRED_REVOKED => 3 end.

Definition credential_check (c : CredentialRef) : bool :=
  let m := cd_meta c in
  (1 <=? cd_version m) &&
  match cd_expiresAt m with Some e => cd_issuedAt m <? e | None => true end &&
  (negb (bool_decide (cd_credentialKind m = CHANNEL_ACCESS_TOKEN_V2_1)) ||
   match cd_expiresAt m with Some e => e <=? cd_issuedAt m + 30 * DAY_MS | None => false end) &&
  Bool.eqb (bool_decide (cd_credentialKind m = CHANNEL_ACCESS_TOKEN_LONG_LIVED)) (bool_decide (is_Some (cd_longLivedExceptionRef m))) &&
  (bool_decide (cd_status c = CRED_CANDIDATE) || bool_decide (cd_status c = CRED_REVOKED) ||
   (bool_decide (is_Some (cd_verifiedAt c)) && bool_decide (is_Some (cd_activatedAt c)))) &&
  (negb (bool_decide (cd_status c = CRED_RETIRED)) || bool_decide (is_Some (cd_retiredAt c))) &&
  Bool.eqb (bool_decide (cd_status c = CRED_REVOKED)) (bool_decide (is_Some (cd_revokedAt c))).

Definition dl_line_guard_credential_ref (old new : CredentialRef) : option string :=
  if negb (bool_decide (cd_meta new = cd_meta old)) then Some "DL_LINE_CREDENTIAL_PINNED"
  else if bool_decide (cd_status old = CRED_REVOKED) then Some "DL_LINE_CREDENTIAL_REVOKED"
  else if credential_rank (cd_status new) <? credential_rank (cd_status old) then Some "DL_LINE_CREDENTIAL_STATUS_BACKWARD"
  else if negb (bool_decide (cd_status old = CRED_CANDIDATE)) && negb (bool_decide (cd_verifiedAt new = cd_verifiedAt old))
  then Some "DL_LINE_CREDENTIAL_VERIFIED_IMMUTABLE"
  else if credential_check new then None else Some "dl_line_credential_refs_check".

(** The [CHECK]s of an authorization: caps within the profile, a time to live, approvals before it is
    approved, and a trial that is never consumed. *)
Definition run_check (r : RunAuthorization) : bool :=
  let p := ru_proposal r in
  (rp_proposedAt p <? rp_expiresAt p) && (1 <=? rp_capProviderAttempts p) && (rp_capProviderAttempts p <=? 4) &&
  match rp_trial p with
  | None => (rp_capLogicalDeliveries p =? 1) && (rp_expiresAt p <=? rp_proposedAt p + 30 * 60000)
  | Some t =>
      (1 <=? rp_capLogicalDeliveries p) && (rp_capLogicalDeliveries p <=? 600) &&
      (1 <=? td_capRecipientPer24h t) && (td_capRecipientPer24h t <=? 20) && (1 <=? td_capPer24h t) && (td_capPer24h t <=? 100) &&
      (1 <=? td_capLifetime t) && (td_capLifetime t <=? 3000) && (rp_expiresAt p <=? rp_proposedAt p + 30 * DAY_MS) &&
      negb (bool_decide (ru_state r = RUN_CONSUMED))
  end &&
  (negb (includes [RUN_APPROVED; RUN_CONSUMED] (ru_state r)) ||
   (bool_decide (is_Some (ru_tenantAdminApproved r)) && bool_decide (is_Some (ru_complianceApproved r)))) &&
  Bool.eqb (bool_decide (ru_state r = RUN_CONSUMED)) (bool_decide (is_Some (ru_consumed r))) &&
  match ru_consumed r with Some (at_, _) => at_ <=? rp_expiresAt p | None => true end &&
  Bool.eqb (includes [RUN_EXPIRED; RUN_REVOKED] (ru_state r)) (bool_decide (is_Some (ru_closedAt r))).

Definition run_transition (from to : LineRunAuthorizationState) : bool :=
  bool_decide (to = from) ||
  (bool_decide (from = RUN_PROPOSED) && includes [RUN_APPROVED; RUN_EXPIRED; RUN_REVOKED] to) ||
  (bool_decide (from = RUN_APPROVED) && includes [RUN_CONSUMED; RUN_EXPIRED; RUN_REVOKED] to).

Definition dl_line_guard_run_authorization (old new : RunAuthorization) : option string :=
  if includes [RUN_CONSUMED; RUN_EXPIRED; RUN_REVOKED] (ru_state old) then Some "DL_LINE_RUN_CLOSED"
  else if negb (bool_decide (ru_proposal new = ru_proposal old)) then Some "DL_LINE_RUN_PINNED"
  else if (bool_decide (is_Some (ru_tenantAdminApproved old)) && negb (bool_decide (ru_tenantAdminApproved new = ru_tenantAdminApproved old))) ||
          (bool_decide (is_Some (ru_complianceApproved old)) && negb (bool_decide (ru_complianceApproved new = ru_complianceApproved old)))
  then Some "DL_LINE_RUN_APPROVAL_IMMUTABLE"
  else if bool_decide (ru_state old = RUN_APPROVED) &&
          (negb (bool_decide (fst <$> ru_tenantAdminApproved new = fst <$> ru_tenantAdminApproved old)) ||
           negb (bool_decide (fst <$> ru_complianceApproved new = fst <$> ru_complianceApproved old)))
  then Some "DL_LINE_RUN_APPROVAL_AFTER_APPROVED"
  else if negb (run_transition (ru_state old) (ru_state new)) then Some "DL_LINE_RUN_TRANSITION"
  else if run_check new then None else Some "dl_line_run_authorizations_check".

Definition cap_check (e : CapLedgerEntry) : bool :=
  let u := ce_unit e in
  Bool.eqb (bool_decide (cu_capKind u = PROVIDER_ATTEMPT)) ((1 <=? cu_attemptNo u) && (cu_attemptNo u <=? 4)) &&
  (bool_decide (cu_capKind u = PROVIDER_ATTEMPT) || (cu_attemptNo u =? 0)) &&
  Bool.eqb (bool_decide (ce_state e = CAP_RESERVED)) (bool_decide (ce_settledAt e = None)) &&
  match ce_settledAt e with Some t => cu_reservedAt u <=? t | None => true end.

Definition dl_line_guard_cap_ledger (old new : CapLedgerEntry) : option string :=
  if negb (bool_decide (ce_state old = CAP_RESERVED)) then Some "DL_LINE_CAP_SETTLED"
  else if negb (bool_decide (ce_unit new = ce_unit old)) then Some "DL_LINE_CAP_IDENTITY_IMMUTABLE"
  else if cap_check new then None else Some "dl_line_cap_ledger_check".

(** [dl_outbox_entries_line_binding_check] *)
Definition outbox_check (e : OutboxEntry) : bool :=
  let i := ob_identity e in
  negb (bool_decide (ob_adapter i = LINE_MESSAGING_API)) ||
  (bool_decide (ob_channel i = LINE) && isLineRetryKey (ob_providerRequestKey i) &&
   match ob_outcome e with None | Some PROVIDER_ACCEPTED | Some PROVIDER_REJECTED => true | _ => false end).

(** The [CHECK]s of an attempt: its number, its values, its class by its code, its scope by its class,
    and the evidence of an acceptance. *)
Definition attempt_check (a : SubmissionAttempt) : bool :=
  (1 <=? sa_attemptNo a) && (sa_attemptNo a <=? 4) && (sa_startedAt a <=? sa_finishedAt a) &&
  match sa_httpStatus a with Some st => (100 <=? st) && (st <=? 599) | None => true end &&
  (Z.of_nat (length (sa_sentMessageIds a)) <=? 5) &&
  bool_decide (sa_outcomeClass a = LINE_PROVIDER_OUTCOME_CLASS (sa_outcomeCode a)) &&
  Bool.eqb (bool_decide (sa_outcomeClass a = CLASS_TERMINAL_REJECTED)) (bool_decide (is_Some (sa_rejectionScope a))) &&
  negb (bool_decide (sa_rejectionScope a = Some RECIPIENT) && includes LINE_ALWAYS_OPERATIONAL_REJECTIONS (sa_outcomeCode a)) &&
  (negb (bool_decide (sa_outcomeCode a = LINE_ACCEPTED)) ||
   (match sa_httpStatus a with Some st => (200 <=? st) && (st <=? 299) | None => false end && bool_decide (is_Some (sa_lineRequestId a)))) &&
  (negb (bool_decide (sa_outcomeCode a = LINE_ACCEPTED_REPLAY)) ||
   (bool_decide (sa_httpStatus a = Some 409) && bool_decide (is_Some (sa_lineAcceptedRequestId a)))).

(** [dl_line_guard_attempt_insert]: attempts follow one another, stop at an outcome, and stay within a
    day of the first. *)
Definition dl_line_guard_attempt_insert (rows : list SubmissionAttempt) (new : SubmissionAttempt) : option string :=
  let previous := js_filter (fun a => bool_decide (sa_deliveryId a = sa_deliveryId new)) rows in
  if (1 <? sa_attemptNo new) && negb (js_some (fun a => sa_attemptNo a =? sa_attemptNo new - 1) previous)
  then Some "DL_LINE_ATTEMPT_SEQUENCE"
  else if js_some (fun a => negb (bool_decide (sa_outcomeClass a = CLASS_RETRYABLE_UNKNOWN))) previous
  then Some "DL_LINE_ATTEMPT_AFTER_OUTCOME"
  else if negb (bool_decide (sa_outcomeClass new = CLASS_QUARANTINED)) &&
          js_some (fun a => sa_startedAt a + DAY_MS <=? sa_startedAt new) previous
  then Some "DL_LINE_RETRY_WINDOW_EXPIRED"
  else if attempt_check new then None else Some "dl_provider_submission_attempts_check".

(** ** The store *)

Record LineControl := LineControl_ {
  lt_gates : list ScopeGate;
  lt_allowlist : list AllowlistEntry;
  lt_credentials : list CredentialRef;
  lt_runs : list RunAuthorization;
  lt_ledger : list CapLedgerEntry;
  lt_audit : list AuditEvent;
}.

Record LineDeliveries := LineDeliveries_ {
  ld_outbox : list OutboxEntry;
  ld_attempts : list SubmissionAttempt;
  ld_events : list LineEventRow;
}.

(** A request as the provider receives it. *)
Record LinePushRequest := PushRequest {
  pq_to : string;
  pq_messages : list LineMessage;
  pq_retryKey : string;
  pq_accessToken : string;
}.

(** What is outside: the clock, the identifiers to come, the answers of the provider to come ([None]: the
    transport throws), the keychain, the versions of the contacts, and the requests the provider has
    received, the last one first. *)
Record LineOutside := LineOutside_ {
  lo_clock : Z;
  lo_nextId : nat;
  lo_answers : list (option LineTransportResult);
  lo_recipients : string -> option string;
  lo_tokens : string -> Z -> option string;
  lo_contactVersion : string -> Z;
  lo_pushes : list LinePushRequest;
}.

Record LineWorld := LineWorld_ {
  lw_control : LineControl;
  lw_deliveries : LineDeliveries;
  lw_governance : RuntimeTables;
  lw_outside : LineOutside;
}.

Definition with_control (f : LineControl -> LineControl) (w : LineWorld) : LineWorld :=
  LineWorld_ (f (lw_control w)) (lw_deliveries w) (lw_governance w) (lw_outside w).
Definition with_deliveries (f : LineDeliveries -> LineDeliveries) (w : LineWorld) : LineWorld :=
  LineWorld_ (lw_control w) (f (lw_deliveries w)) (lw_governance w) (lw_outside w).
Definition with_governance (t : RuntimeTables) (w : LineWorld) : LineWorld :=
  LineWorld_ (lw_control w) (lw_deliveries w) t (lw_outside w).
Definition with_outside (f : LineOutside -> LineOutside) (w : LineWorld) : LineWorld :=
  LineWorld_ (lw_control w) (lw_deliveries w) (lw_governance w) (f (lw_outside w)).

Definition set_gates (l : list ScopeGate) (c : LineControl) : LineControl :=
  LineControl_ l (lt_allowlist c) (lt_credentials c) (lt_runs c) (lt_ledger c) (lt_audit c).
Definition set_allowlist (l : list AllowlistEntry) (c : LineControl) : LineControl :=
  LineControl_ (lt_gates c) l (lt_credentials c) (lt_runs c) (lt_ledger c) (lt_audit c).
Definition set_credentials (l : list CredentialRef) (c : LineControl) : LineControl :=
  LineControl_ (lt_gates c) (lt_allowlist c) l (lt_runs c) (lt_ledger c) (lt_audit c).
Definition set_runs (l : list RunAuthorization) (c : LineControl) : LineControl :=
  LineControl_ (lt_gates c) (lt_allowlist c) (lt_credentials c) l (lt_ledger c) (lt_audit c).
Definition set_ledger (l : list CapLedgerEntry) (c : LineControl) : LineControl :=
  LineControl_ (lt_gates c) (lt_allowlist c) (lt_credentials c) (lt_runs c) l (lt_audit c).
Definition set_audit (l : list AuditEvent) (c : LineControl) : LineControl :=
  LineControl_ (lt_gates c) (lt_allowlist c) (lt_credentials c) (lt_runs c) (lt_ledger c) l.

Definition set_outbox (l : list OutboxEntry) (d : LineDeliveries) : LineDeliveries := LineDeliveries_ l (ld_attempts d) (ld_events d).
Definition set_attempts (l : list SubmissionAttempt) (d : LineDeliveries) : LineDeliveries := LineDeliveries_ (ld_outbox d) l (ld_events d).
Definition set_events (l : list LineEventRow) (d : LineDeliveries) : LineDeliveries := LineDeliveries_ (ld_outbox d) (ld_attempts d) l.

(** ** [updateMany] under a trigger *)

(** The rows rewritten and their number; one refusal refuses the statement. *)
Definition update_guarded {A} (guard : A -> A -> option string) (p : A -> bool) (f : A -> A) (rows : list A)
  : result LineError (Z * list A) :=
  match omap (fun r => guard r (f r)) (js_filter p rows) with
  | code :: _ => Err (DatabaseRefusal code)
  | [] => Ok (count_where p rows, update_where p f rows)
  end.

Lemma update_guarded_ok {A} (guard : A -> A -> option string) p f (rows : list A) n rows' :
  update_guarded guard p f rows = Ok (n, rows') ->
  n = count_where p rows /\ rows' = update_where p f rows /\
  Forall2 (fun r r' => r' = r \/ (p r = true /\ r' = f r /\ guard r r' = None)) rows rows'.
Proof.
  unfold update_guarded. destruct (omap _ _) as [|? ?] eqn:Hg; [|done]. intros [= <- <-]. split; [done|]. split; [done|].
  induction rows as [|r rows IH]; [constructor|]. unfold update_where in *. cbn in *. destruct (p r) eqn:Hp.
  - cbn in Hg. destruct (guard r (f r)) eqn:Hr; cbn in Hg; [done|]. constructor; [eauto|by apply IH].
  - constructor; [eauto|by apply IH].
Qed.
