(* ===== verification/LineStore.v ===== *)
(** * LineStore: the transactions of the LINE repositories

    [line-control-repository.ts], [line-audit-repository.ts], [line-attempt-repository.ts],
    [line-event-outbox.ts] and [outbox-repository.ts] of [apps/delivery/src]. Each definition is one
    transaction: it answers and gives the world it leaves, or throws and leaves it. A method of two
    transactions is two definitions, which its program calls one after the other. *)
From stdpp Require Import base tactics list strings.
From Stdlib Require Import ZArith Lia.
From S2P Require Import Prelude JsMap Text JsDate JsValue Contracts ScopeKey Persistence ReservationRuntime LineDelivery LineControlPolicy LineTables.

Open Scope string_scope.
Open Scope Z_scope.
Open Scope list_scope.

Abbreviation transaction A := (result LineError (A * LineWorld)).

(** [if (cond) throw error;] *)
Definition refuse_if (cond : bool) (e : LineError) : result LineError unit := throw_if cond e.

(** ** Gates *)

Definition gate_by (id : string) (g : ScopeGate) : bool := bool_decide (gt_id g = id).

Definition findGate (scope : LineGateScope) (w : LineWorld) : option ScopeGate :=
  js_find (fun g => bool_decide (gt_scope g = scope)) (lt_gates (lw_control w)).

(** [createMany] with [skipDuplicates], then the row of the scope; an identifier already in use leaves
    nothing to find. *)
Definition ensureGate (id : string) (scope : LineGateScope) (w : LineWorld) : transaction ScopeGate :=
  match findGate scope w with
  | Some g => Ok (g, w)
  | None =>
      refuse_if (js_some (gate_by id) (lt_gates (lw_control w))) (DatabaseRefusal "P2025") ;;
      let g := ScopeGate_ id scope DISABLED false None None None 1 in
      Ok (g, with_control (fun c => set_gates (lt_gates c ++ [g]) c) w)
  end.

(** [LineGatePatch] *)
Record LineGatePatch := GatePatch {
  gp_businessState : option LineRolloutState;
  gp_technicalSwitchOn : option bool;
  gp_configDigest : option (option string);
}.

Definition patched (p : LineGatePatch) (g : ScopeGate) : ScopeGate :=
  ScopeGate_ (gt_id g) (gt_scope g) (default (gt_businessState g) (gp_businessState p))
    (default (gt_technicalSwitchOn g) (gp_technicalSwitchOn p)) (gt_kill g) (gt_killClearedRef g)
    (default (gt_configDigest g) (gp_configDigest p)) (gt_version g + 1).

(** The gate of an identifier after an update of gates; nothing where none was updated. *)
Definition updated_gate (id : string) (updated : Z * list ScopeGate) (w : LineWorld) : option ScopeGate * LineWorld :=
  let '(count, gates) := updated in
  let w' := with_control (set_gates gates) w in
  (if count =? 0 then None else js_find (gate_by id) gates, w').

Definition compareAndSetGate (id : string) (expectedVersion : Z) (patch : LineGatePatch) (w : LineWorld)
  : transaction (option ScopeGate) :=
  updated ← update_guarded dl_line_guard_scope_gate (fun g => gate_by id g && (gt_version g =? expectedVersion))
              (patched patch) (lt_gates (lw_control w));
  Ok (updated_gate id updated w).

Definition killed_by (reason : LineKillReason) (at_ : Z) (g : ScopeGate) : ScopeGate :=
  ScopeGate_ (gt_id g) (gt_scope g) (gt_businessState g) false (Some (reason, at_)) (gt_killClearedRef g)
    (gt_configDigest g) (gt_version g + 1).

Definition killGate (id : string) (reason : LineKillReason) (at_ : Z) (w : LineWorld) : transaction ScopeGate :=
  updated ← update_guarded dl_line_guard_scope_gate (fun g => gate_by id g && negb (gt_killed g)) (killed_by reason at_)
              (lt_gates (lw_control w));
  gate ← from_option (js_find (gate_by id) (snd updated)) LineBindingRejectedError;
  Ok (gate, with_control (set_gates (snd updated)) w).

Definition kill_cleared (ref : string) (g : ScopeGate) : ScopeGate :=
  ScopeGate_ (gt_id g) (gt_scope g) DISABLED (gt_technicalSwitchOn g) None (Some ref) (gt_configDigest g) (gt_version g + 1).

Definition clearGateKill (id : string) (expectedVersion : Z) (ref : string) (w : LineWorld) : transaction (option ScopeGate) :=
  updated ← update_guarded dl_line_guard_scope_gate
              (fun g => gate_by id g && (gt_version g =? expectedVersion) && gt_killed g) (kill_cleared ref)
              (lt_gates (lw_control w));
  Ok (updated_gate id updated w).

(** ** Allowlist *)

Definition al_by (id : string) (a : AllowlistEntry) : bool := bool_decide (al_id (al_tuple a) = id).

Definition same_tuple (t u : AllowlistTuple) : bool :=
  bool_decide (al_gateId t = al_gateId u) && bool_decide (al_recipientFingerprint t = al_recipientFingerprint u) &&
  bool_decide (al_contentDigest t = al_contentDigest u) && bool_decide (al_configDigest t = al_configDigest u).

(** The insert: its check, its keys, and the gate of the same scope it refers to. *)
Definition addAllowlistEntry (t : AllowlistTuple) (w : LineWorld) : transaction AllowlistEntry :=
  let rows := lt_allowlist (lw_control w) in
  refuse_if (al_validUntil t <=? al_validFrom t) (DatabaseRefusal "dl_line_allowlist_entries_values_check") ;;
  refuse_if (js_some (fun a => al_by (al_id t) a || same_tuple (al_tuple a) t) rows) UniqueViolation ;;
  refuse_if (negb (js_some (fun g => gate_by (al_gateId t) g && bool_decide (gt_scope g = al_scope t)) (lt_gates (lw_control w))))
    LineBindingRejectedError ;;
  let entry := AllowlistEntry_ t None in
  Ok (entry, with_control (set_allowlist (rows ++ [entry])) w).

Definition findAllowlistEntry (id : string) (w : LineWorld) : option AllowlistEntry :=
  js_find (al_by id) (lt_allowlist (lw_control w)).

Definition findAllowlistEntryByTuple (gateId recipientFingerprint contentDigest configDigest : string) (w : LineWorld)
  : option AllowlistEntry :=
  js_find (fun a => bool_decide (al_gateId (al_tuple a) = gateId) &&
                    bool_decide (al_recipientFingerprint (al_tuple a) = recipientFingerprint) &&
                    bool_decide (al_contentDigest (al_tuple a) = contentDigest) &&
                    bool_decide (al_configDigest (al_tuple a) = configDigest)) (lt_allowlist (lw_control w)).

Definition revokeAllowlistEntry (id code : string) (at_ : Z) (w : LineWorld) : transaction bool :=
  updated ← update_guarded dl_line_guard_allowlist (fun a => al_by id a && bool_decide (al_revoked a = None))
              (fun a => AllowlistEntry_ (al_tuple a) (Some (at_, code))) (lt_allowlist (lw_control w));
  Ok (fst updated =? 1, with_control (set_allowlist (snd updated)) w).

(** ** Credentials *)

Definition cred_by (id : string) (c : CredentialRef) : bool := bool_decide (cd_id (cd_meta c) = id).

(** ACTIVE rows of the same channel and class. *)
Definition active_of (channelAccountId : string) (secret : bool) (c : CredentialRef) : bool :=
  bool_decide (cd_channelAccountId (cd_meta c) = channelAccountId) && bool_decide (cd_status c = CRED_ACTIVE) &&
  Bool.eqb (is_secret (cd_credentialKind (cd_meta c))) secret.

Definition registerCredentialRef (m : CredentialMeta) (w : LineWorld) : transaction CredentialRef :=
  let rows := lt_credentials (lw_control w) in
  let c := CredentialRef_ m CRED_CANDIDATE None None None None in
  refuse_if (negb (credential_check c)) (DatabaseRefusal "dl_line_credential_refs_check") ;;
  refuse_if (js_some (fun d => cred_by (cd_id m) d ||
                               (bool_decide (cd_channelAccountId (cd_meta d) = cd_channelAccountId m) &&
                                bool_decide (cd_credentialKind (cd_meta d) = cd_credentialKind m) &&
                                (cd_version (cd_meta d) =? cd_version m))) rows) UniqueViolation ;;
  Ok (c, with_control (set_credentials (rows ++ [c])) w).

Definition findCredentialRef (id : string) (w : LineWorld) : option CredentialRef :=
  js_find (cred_by id) (lt_credentials (lw_control w)).

Definition findActiveCredentialRef (channelAccountId : string) (secret : bool) (w : LineWorld) : option CredentialRef :=
  js_find (active_of channelAccountId secret) (lt_credentials (lw_control w)).

Definition with_status (s : LineCredentialStatus) (verifiedAt activatedAt retiredAt revokedAt : option Z) (c : CredentialRef) : CredentialRef :=
  CredentialRef_ (cd_meta c) s verifiedAt activatedAt retiredAt revokedAt.

Definition retired (at_ : Z) (c : CredentialRef) : CredentialRef :=
  with_status CRED_RETIRED (cd_verifiedAt c) (cd_activatedAt c) (Some at_) (cd_revokedAt c) c.
Definition activated (verifiedAt at_ : Z) (c : CredentialRef) : CredentialRef :=
  with_status CRED_ACTIVE (Some verifiedAt) (Some at_) (cd_retiredAt c) (cd_revokedAt c) c.
Definition revoked (at_ : Z) (c : CredentialRef) : CredentialRef :=
  with_status CRED_REVOKED (cd_verifiedAt c) (cd_activatedAt c) (cd_retiredAt c) (Some at_) c.

Definition is_candidate (id : string) (c : CredentialRef) : bool := cred_by id c && bool_decide (cd_status c = CRED_CANDIDATE).

Definition activateCredentialRef (id : string) (verifiedAt at_ : Z) (w : LineWorld) : transaction (option CredentialRef) :=
  match js_find (is_candidate id) (lt_credentials (lw_control w)) with
  | None => Ok (None, w)
  | Some candidate =>
      let m := cd_meta candidate in
      retired_rows ← update_guarded dl_line_guard_credential_ref
                       (active_of (cd_channelAccountId m) (is_secret (cd_credentialKind m))) (retired at_) (lt_credentials (lw_control w));
      updated ← update_guarded dl_line_guard_credential_ref (is_candidate id) (activated verifiedAt at_) (snd retired_rows);
      Ok (if fst updated =? 0 then None else js_find (cred_by id) (snd updated), with_control (set_credentials (snd updated)) w)
  end.

Definition revokeCredentialRef (id : string) (at_ : Z) (w : LineWorld) : transaction bool :=
  updated ← update_guarded dl_line_guard_credential_ref
              (fun c => cred_by id c && negb (bool_decide (cd_status c = CRED_REVOKED))) (revoked at_) (lt_credentials (lw_control w));
  Ok (fst updated =? 1, with_control (set_credentials (snd updated)) w).

(** ** Run authorizations *)

Definition run_by (id : string) (r : RunAuthorization) : bool := bool_decide (ru_id r = id).

Definition findRun (id : string) (w : LineWorld) : option RunAuthorization := js_find (run_by id) (lt_runs (lw_control w)).

(** The insert of [proposeRun]. *)
Definition createRun (p : RunProposal) (w : LineWorld) : transaction RunAuthorization :=
  let rows := lt_runs (lw_control w) in
  let r := RunAuthorization_ p None None RUN_PROPOSED None None in
  refuse_if (negb (run_check r)) (DatabaseRefusal "dl_line_run_authorizations_check") ;;
  refuse_if (js_some (fun x => run_by (rp_id p) x || bool_decide (rp_proposalDigest (ru_proposal x) = rp_proposalDigest p)) rows)
    UniqueViolation ;;
  refuse_if (negb (js_some (fun a => al_by (rp_allowlistEntryId p) a && bool_decide (al_gateId (al_tuple a) = rp_gateId p))
                     (lt_allowlist (lw_control w))) ||
             negb (js_some (fun c => cred_by (rp_credentialRefId p) c && (cd_version (cd_meta c) =? rp_credentialVersion p))
                     (lt_credentials (lw_control w)))) LineBindingRejectedError ;;
  Ok (r, with_control (set_runs (rows ++ [r])) w).

Definition findRunByDigest (digest : string) (w : LineWorld) : option RunAuthorization :=
  js_find (fun r => bool_decide (rp_proposalDigest (ru_proposal r) = digest)) (lt_runs (lw_control w)).

(** The comparison [proposeRun] makes of the row it finds. *)
Definition same_binding (existing input : RunProposal) : bool :=
  bool_decide (rp_gateId existing = rp_gateId input) && bool_decide (rp_allowlistEntryId existing = rp_allowlistEntryId input) &&
  bool_decide (rp_credentialRefId existing = rp_credentialRefId input) &&
  (rp_credentialVersion existing =? rp_credentialVersion input) && bool_decide (rp_configDigest existing = rp_configDigest input).

Definition with_run_state (s : LineRunAuthorizationState) (r : RunAuthorization) : RunAuthorization :=
  RunAuthorization_ (ru_proposal r) (ru_tenantAdminApproved r) (ru_complianceApproved r) s (ru_consumed r) (ru_closedAt r).

(** The approval of one role. *)
Definition approved_by (compliance : bool) (actor : string) (at_ : Z) (r : RunAuthorization) : RunAuthorization :=
  RunAuthorization_ (ru_proposal r) (if compliance then ru_tenantAdminApproved r else Some (actor, at_))
    (if compliance then Some (actor, at_) else ru_complianceApproved r) (ru_state r) (ru_consumed r) (ru_closedAt r).

Definition approveRun (id : string) (compliance : bool) (actor : string) (at_ : Z) (w : LineWorld)
  : transaction (option RunAuthorization) :=
  updated ← update_guarded dl_line_guard_run_authorization
              (fun r => run_by id r && bool_decide (ru_state r = RUN_PROPOSED) &&
                        bool_decide ((if compliance then ru_complianceApproved r else ru_tenantAdminApproved r) = None))
              (approved_by compliance actor at_) (lt_runs (lw_control w));
  if fst updated =? 0 then Ok (None, w)
  else
    completed ← update_guarded dl_line_guard_run_authorization
                  (fun r => run_by id r && bool_decide (ru_state r = RUN_PROPOSED) &&
                            bool_decide (is_Some (ru_tenantAdminApproved r)) && bool_decide (is_Some (ru_complianceApproved r)))
                  (with_run_state RUN_APPROVED) (snd updated);
    Ok (js_find (run_by id) (snd completed), with_control (set_runs (snd completed)) w).

Definition consumed_as (deliveryId : string) (at_ : Z) (r : RunAuthorization) : RunAuthorization :=
  RunAuthorization_ (ru_proposal r) (ru_tenantAdminApproved r) (ru_complianceApproved r) RUN_CONSUMED (Some (at_, deliveryId)) (ru_closedAt r).

(** What [consumeRun] answers. *)
Inductive ConsumeLineRunResult := CONSUMED (r : RunAuthorization) | CONSUME_DENIED (code : LineGateErrorCode).

(** The delivery exists in the LINE outbox. *)
Definition line_delivery (deliveryId : string) (w : LineWorld) : bool :=
  js_some (ob_is LINE_MESSAGING_API deliveryId) (ld_outbox (lw_deliveries w)).

(** [consumeRun]: another authorization of the same delivery is a conflict, an unknown delivery a
    binding error. *)
Definition consumeRun (id deliveryId : string) (at_ : Z) (w : LineWorld) : transaction ConsumeLineRunResult :=
  let rows := lt_runs (lw_control w) in
  let takes r := run_by id r && bool_decide (ru_state r = RUN_APPROVED) && (at_ <=? rp_expiresAt (ru_proposal r)) in
  updated ← update_guarded dl_line_guard_run_authorization takes (consumed_as deliveryId at_) rows;
  refuse_if (js_some takes rows && js_some (fun r => negb (takes r) && bool_decide (snd <$> ru_consumed r = Some deliveryId)) rows)
    (LineIdempotencyConflictError "dl_line_run_authorizations") ;;
  refuse_if (js_some takes rows && negb (line_delivery deliveryId w)) LineBindingRejectedError ;;
  let w' := with_control (set_runs (snd updated)) w in
  Ok (match js_find (run_by id) (snd updated) with
      | None => CONSUME_DENIED RUN_AUTHORIZATION_MISSING
      | Some r =>
          if fst updated =? 1 then CONSUMED r
          else match ru_state r with
               | RUN_PROPOSED | RUN_REVOKED => CONSUME_DENIED RUN_AUTHORIZATION_MISSING
               | RUN_CONSUMED => CONSUME_DENIED RUN_AUTHORIZATION_CONSUMED
               | RUN_APPROVED | RUN_EXPIRED => CONSUME_DENIED RUN_AUTHORIZATION_EXPIRED
               end
      end, w').

(** The two states [closeRun] is called with. *)
Inductive RunClosing := CLOSE_EXPIRED | CLOSE_REVOKED.
Definition closing_state (c : RunClosing) : LineRunAuthorizationState := match c with CLOSE_EXPIRED => RUN_EXPIRED | CLOSE_REVOKED => RUN_REVOKED end.

Definition closed_as (c : RunClosing) (at_ : Z) (r : RunAuthorization) : RunAuthorization :=
  RunAuthorization_ (ru_proposal r) (ru_tenantAdminApproved r) (ru_complianceApproved r) (closing_state c) (ru_consumed r) (Some at_).

Definition closeRun (id : string) (state : RunClosing) (at_ : Z) (w : LineWorld) : transaction bool :=
  updated ← update_guarded dl_line_guard_run_authorization
              (fun r => run_by id r && includes [RUN_PROPOSED; RUN_APPROVED] (ru_state r)) (closed_as state at_) (lt_runs (lw_control w));
  Ok (fst updated =? 1, with_control (set_runs (snd updated)) w).

(** ** The cap ledger *)

Inductive ReserveLineCapResult := CAP_TAKEN (entry : CapLedgerEntry) (replay : bool) | CAP_DENIED (code : LineGateErrorCode).

(** The entries a limit counts for a unit. *)
Definition counts_for (l : LineCapLimit) (u : CapUnit) (e : CapLedgerEntry) : bool :=
  let v := ce_unit e in
  bool_decide (cu_gateId v = cu_gateId u) && bool_decide (cu_capKind v = li_capKind l) &&
  (if li_activeOnly l then bool_decide (ce_state e = CAP_RESERVED) else includes [CAP_RESERVED; CAP_COMMITTED] (ce_state e)) &&
  (negb (li_sameRecipient l) || bool_decide (cu_recipientFingerprint v = cu_recipientFingerprint u)) &&
  (negb (li_sameRun l) || bool_decide (cu_runAuthorizationId v = cu_runAuthorizationId u)) &&
  (negb (li_sameDelivery l) || bool_decide (cu_deliveryId v = cu_deliveryId u)) &&
  match li_since l with Some t => t <=? cu_reservedAt v | None => true end.

(** The first limit that is reached. *)
Definition reached (limits : list LineCapLimit) (u : CapUnit) (rows : list CapLedgerEntry) : option LineGateErrorCode :=
  li_code <$> js_find (fun l => li_max l <=? count_where (counts_for l u) rows) limits.

(** [reserveCap], under the row lock of its gate. *)
Definition reserveCap (u : CapUnit) (limits : list LineCapLimit) (w : LineWorld) : transaction ReserveLineCapResult :=
  let rows := lt_ledger (lw_control w) in
  gate ← from_option (js_find (gate_by (cu_gateId u)) (lt_gates (lw_control w))) LineBindingRejectedError;
  match js_find (fun e => bool_decide (cap_key (ce_unit e) = cap_key u)) rows with
  | Some existing =>
      let v := ce_unit existing in
      refuse_if (negb (bool_decide (cu_gateId v = cu_gateId u)) ||
                 negb (bool_decide (cu_runAuthorizationId v = cu_runAuthorizationId u)) ||
                 negb (bool_decide (cu_recipientFingerprint v = cu_recipientFingerprint u)))
        (LineIdempotencyConflictError "dl_line_cap_ledger") ;;
      Ok (CAP_TAKEN existing true, w)
  | None =>
      if gt_killed gate then Ok (CAP_DENIED LINE_GATE_KILLED, w)
      else
        match reached limits u rows with
        | Some code => Ok (CAP_DENIED code, w)
        | None =>
            let entry := CapLedgerEntry_ u CAP_RESERVED None in
            refuse_if (negb (cap_check entry)) (DatabaseRefusal "dl_line_cap_ledger_check") ;;
            refuse_if (js_some (fun e => bool_decide (cu_id (ce_unit e) = cu_id u)) rows) UniqueViolation ;;
            refuse_if (negb (js_some (run_by (cu_runAuthorizationId u)) (lt_runs (lw_control w))) ||
                       negb (line_delivery (cu_deliveryId u) w)) LineBindingRejectedError ;;
            Ok (CAP_TAKEN entry false, with_control (set_ledger (rows ++ [entry])) w)
        end
  end.

Definition listActiveCapEntries (gateId : string) (capKind : LineCapKind) (w : LineWorld) : list CapLedgerEntry :=
  sort_by (fun a b => (cu_reservedAt (ce_unit a) <? cu_reservedAt (ce_unit b)) ||
                      ((cu_reservedAt (ce_unit a) =? cu_reservedAt (ce_unit b)) && str_le (cu_id (ce_unit a)) (cu_id (ce_unit b))))
    (js_filter (fun e => bool_decide (cu_gateId (ce_unit e) = gateId) && bool_decide (cu_capKind (ce_unit e) = capKind) &&
                         bool_decide (ce_state e = CAP_RESERVED)) (lt_ledger (lw_control w))).

(** The two states [settleCap] is called with. *)
Inductive CapSettling := COMMIT_CAP | RELEASE_CAP.
Definition settling_state (s : CapSettling) : LineCapReservationState := match s with COMMIT_CAP => CAP_COMMITTED | RELEASE_CAP => CAP_RELEASED end.

Definition settleCap (deliveryId : string) (capKind : LineCapKind) (attemptNo : Z) (state : CapSettling) (at_ : Z) (w : LineWorld)
  : transaction bool :=
  updated ← update_guarded dl_line_guard_cap_ledger
              (fun e => bool_decide (cap_key (ce_unit e) = (deliveryId, capKind, attemptNo)) && bool_decide (ce_state e = CAP_RESERVED))
              (fun e => CapLedgerEntry_ (ce_unit e) (settling_state state) (Some at_)) (lt_ledger (lw_control w));
  Ok (fst updated =? 1, with_control (set_ledger (snd updated)) w).

(** ** Audit *)

(** The insert of [append]. *)
Definition createAudit (a : AuditEvent) (w : LineWorld) : transaction AuditEvent :=
  let rows := lt_audit (lw_control w) in
  refuse_if (js_some (fun b => bool_decide (au_id b = au_id a) || bool_decide (au_eventId b = au_eventId a)) rows) UniqueViolation ;;
  Ok (a, with_control (set_audit (rows ++ [a])) w).

Definition findAudit (eventId : string) (w : LineWorld) : option AuditEvent :=
  js_find (fun b => bool_decide (au_eventId b = eventId)) (lt_audit (lw_control w)).

(** The comparison of [append] with the row it finds. *)
Definition same_audit (a b : AuditEvent) : bool :=
  bool_decide (au_category a = au_category b) && bool_decide (au_code a = au_code b) &&
  bool_decide (au_actorKind a = au_actorKind b) && bool_decide (au_actorRef a = au_actorRef b) &&
  bool_decide (au_subjectId a = au_subjectId b) && bool_decide (au_deliveryId a = au_deliveryId b) &&
  bool_decide (au_evidenceDigest a = au_evidenceDigest b) && (au_occurredAt a =? au_occurredAt b).

(** ** The outbox *)

Definition findByActionKey (actionKey : string) (w : LineWorld) : option OutboxEntry :=
  js_find (fun e => bool_decide (ob_actionKey (ob_identity e) = actionKey)) (ld_outbox (lw_deliveries w)).

Definition findByDeliveryId (adapter : DlDeliveryAdapter) (deliveryId : string) (w : LineWorld) : option OutboxEntry :=
  js_find (ob_is adapter deliveryId) (ld_outbox (lw_deliveries w)).

(** One of the unique indexes is taken. *)
Definition outbox_clash (i j : OutboxIdentity) : bool :=
  bool_decide (ob_id i = ob_id j) || bool_decide (ob_actionKey i = ob_actionKey j) ||
  bool_decide (ob_deliveryId i = ob_deliveryId j) || bool_decide (ob_providerRequestKey i = ob_providerRequestKey j).

(** [create], with the reservation it refers to. *)
Definition createOutbox (i : OutboxIdentity) (w : LineWorld) : transaction OutboxEntry :=
  let rows := ld_outbox (lw_deliveries w) in
  let e := OutboxEntry_ i QUEUED None None None None in
  refuse_if (negb (outbox_check e)) (DatabaseRefusal "dl_outbox_entries_line_binding_check") ;;
  refuse_if (js_some (fun x => outbox_clash (ob_identity x) i) rows) (OutboxEntryAlreadyExistsError (ob_actionKey i)) ;;
  refuse_if (negb (js_some (reservation_by (ob_reservationId i)) (rt_reservations (lw_governance w)))) (DatabaseRefusal "P2003") ;;
  Ok (e, with_deliveries (set_outbox (rows ++ [e])) w).

(** The columns [advance] may set. *)
Record OutboxPatch := OutboxPatch_ {
  op_state : DlDeliveryState;
  op_submittedAt : option Z;
  op_settledAt : option Z;
  op_outcome : option TerminalDeliveryOutcome;
  op_outcomeRef : option string;
}.

Definition keep_or {A} (new old : option A) : option A := match new with Some a => Some a | None => old end.

Definition advanced (p : OutboxPatch) (e : OutboxEntry) : OutboxEntry :=
  OutboxEntry_ (ob_identity e) (op_state p) (keep_or (op_submittedAt p) (ob_submittedAt e)) (keep_or (op_settledAt p) (ob_settledAt e))
    (keep_or (op_outcome p) (ob_outcome e)) (keep_or (op_outcomeRef p) (ob_outcomeRef e)).

Definition advances (adapter : DlDeliveryAdapter) (deliveryId : string) (expected : list DlDeliveryState) (e : OutboxEntry) : bool :=
  ob_is adapter deliveryId e && includes expected (ob_state e).

(** [advance]; the outcome reference is unique in the tenant. *)
Definition advance (adapter : DlDeliveryAdapter) (deliveryId : string) (expected : list DlDeliveryState) (p : OutboxPatch) (w : LineWorld)
  : transaction (option OutboxEntry) :=
  let rows := ld_outbox (lw_deliveries w) in
  let hits := advances adapter deliveryId expected in
  refuse_if (js_some (fun e => hits e && negb (outbox_check (advanced p e))) rows) (DatabaseRefusal "dl_outbox_entries_line_binding_check") ;;
  refuse_if (js_some hits rows && bool_decide (is_Some (op_outcomeRef p)) &&
             js_some (fun e => negb (hits e) && bool_decide (ob_outcomeRef e = op_outcomeRef p)) rows) UniqueViolation ;;
  let rows' := update_where hits (advanced p) rows in
  Ok (if count_where hits rows =? 0 then None else js_find (ob_is adapter deliveryId) rows', with_deliveries (set_outbox rows') w).

Definition findReconcilable (adapter : DlDeliveryAdapter) (notAfter : Z) (w : LineWorld) : list OutboxEntry :=
  sort_by (fun a b => ob_leaseExpiresAt (ob_identity a) <=? ob_leaseExpiresAt (ob_identity b))
    (js_filter (fun e => bool_decide (ob_adapter (ob_identity e) = adapter) && includes [SUBMITTING; SUBMITTED] (ob_state e) &&
                         (ob_leaseExpiresAt (ob_identity e) <=? notAfter)) (ld_outbox (lw_deliveries w))).

(** ** Attempts *)

(** The insert of [record]: its trigger, its keys, and the delivery under its key. *)
Definition createAttempt (a : SubmissionAttempt) (w : LineWorld) : transaction SubmissionAttempt :=
  let rows := ld_attempts (lw_deliveries w) in
  match dl_line_guard_attempt_insert rows a with
  | Some code => Err (DatabaseRefusal code)
  | None =>
      refuse_if (js_some (fun b => bool_decide (sa_id b = sa_id a) ||
                                   (bool_decide (sa_deliveryId b = sa_deliveryId a) && (sa_attemptNo b =? sa_attemptNo a)) ||
                                   (bool_decide (is_Some (sa_lineRequestId a)) && bool_decide (sa_lineRequestId b = sa_lineRequestId a))) rows)
        UniqueViolation ;;
      refuse_if (negb (js_some (fun e => ob_is LINE_MESSAGING_API (sa_deliveryId a) e &&
                                         bool_decide (ob_providerRequestKey (ob_identity e) = sa_providerRequestKey a)) (ld_outbox (lw_deliveries w))))
        LineBindingRejectedError ;;
      Ok (a, with_deliveries (set_attempts (rows ++ [a])) w)
  end.

Definition findAttempt (deliveryId : string) (attemptNo : Z) (w : LineWorld) : option SubmissionAttempt :=
  js_find (fun a => bool_decide (sa_deliveryId a = deliveryId) && (sa_attemptNo a =? attemptNo)) (ld_attempts (lw_deliveries w)).

Definition listAttempts (deliveryId : string) (w : LineWorld) : list SubmissionAttempt :=
  sort_by (fun a b => sa_attemptNo a <=? sa_attemptNo b)
    (js_filter (fun a => bool_decide (sa_deliveryId a = deliveryId)) (ld_attempts (lw_deliveries w))).

(** [sameReceipt] *)
Definition sameReceipt (row input : SubmissionAttempt) : bool :=
  bool_decide (sa_providerRequestKey row = sa_providerRequestKey input) &&
  bool_decide (sa_providerPayloadDigest row = sa_providerPayloadDigest input) &&
  (sa_startedAt row =? sa_startedAt input) && (sa_finishedAt row =? sa_finishedAt input) &&
  bool_decide (sa_httpStatus row = sa_httpStatus input) && bool_decide (sa_outcomeCode row = sa_outcomeCode input) &&
  bool_decide (sa_rejectionScope row = sa_rejectionScope input) && bool_decide (sa_lineRequestId row = sa_lineRequestId input) &&
  bool_decide (sa_lineAcceptedRequestId row = sa_lineAcceptedRequestId input) &&
  bool_decide (join (String (Ascii.ascii_of_nat 10) "") (sa_sentMessageIds row) = join (String (Ascii.ascii_of_nat 10) "") (sa_sentMessageIds input)).

(** ** Events *)

(** [LineEventOutboxRepository.enqueue]: an event already there stays, and must be the same. *)
Definition enqueueEvent (e : LineEventRow) (w : LineWorld) : transaction LineEventRow :=
  let rows := ld_events (lw_deliveries w) in
  match js_find (fun x => bool_decide (le_eventId x = le_eventId e)) rows with
  | Some existing =>
      refuse_if (negb (bool_decide (le_payloadHash existing = le_payloadHash e))) (LineIdempotencyConflictError "dl_line_event_outbox") ;;
      Ok (existing, w)
  | None =>
      refuse_if (js_some (fun x => bool_decide (le_id x = le_id e)) rows) (DatabaseRefusal "P2025") ;;
      Ok (e, with_deliveries (set_events (rows ++ [e])) w)
  end.
