(* ===== verification/LineLedger.v ===== *)
(** * LineLedger: the caps a ledger keeps

    What [reserveCap] and [settleCap] of LineStore keep of the cap ledger of a gate: one unit for each key,
    one submission and one unknown outcome at a time, and logical deliveries within the caps of the gate's
    runs for a recipient, a sliding day, a run and the lifetime. *)
From stdpp Require Import base tactics list strings.
From Stdlib Require Import ZArith Lia.
From S2P Require Import Prelude JsMap Text JsDate JsValue Contracts ScopeKey Persistence ReservationRuntime LineDelivery LineControlPolicy LineTables LineStore.

Open Scope string_scope.
Open Scope Z_scope.
Open Scope list_scope.

(** ** Counting *)

Lemma count_where_snoc {A} (p : A -> bool) rows x : count_where p (rows ++ [x]) = count_where p rows + (if p x then 1 else 0).
Proof. unfold count_where. rewrite List.filter_app, length_app. cbn. destruct (p x); cbn; lia. Qed.

Lemma count_where_le {A} (p q : A -> bool) rows :
  (forall x, In x rows -> p x = true -> q x = true) -> count_where p rows <= count_where q rows.
Proof.
  unfold count_where. induction rows as [|x rows IH]; cbn; intros Hpq; [lia|].
  specialize (IH (fun y Hy => Hpq y (or_intror Hy))). specialize (Hpq x (or_introl eq_refl)).
  destruct (p x), (q x); cbn; try lia; by specialize (Hpq eq_refl).
Qed.

Lemma count_where_update {A} (p hit : A -> bool) f rows :
  (forall x, hit x = true -> p (f x) = true -> p x = true) -> count_where p (update_where hit f rows) <= count_where p rows.
Proof.
  unfold count_where, update_where. intros Hf. induction rows as [|x rows IH]; cbn; [lia|].
  specialize (Hf x). destruct (hit x), (p x), (p (f x)); cbn; try lia; by specialize (Hf eq_refl eq_refl).
Qed.

(** A new row under a limit that was not reached. *)
Lemma count_where_room {A} (p q : A -> bool) rows x max :
  count_where p rows <= max -> (p x = true -> forall y, In y rows -> p y = true -> q y = true) -> (p x = true -> count_where q rows < max) ->
  count_where p (rows ++ [x]) <= max.
Proof.
  intros Hle Hpq Hq. rewrite count_where_snoc. destruct (p x); [|lia].
  pose proof (count_where_le p q rows (Hpq eq_refl)). specialize (Hq eq_refl). lia.
Qed.

(** ** Bounds *)

(** Units of a kind at a gate that are held, and logical deliveries that are held or went out. *)
Definition held (gateId : string) (capKind : LineCapKind) (e : CapLedgerEntry) : bool :=
  bool_decide (cu_gateId (ce_unit e) = gateId) && bool_decide (cu_capKind (ce_unit e) = capKind) && bool_decide (ce_state e = CAP_RESERVED).
Definition spent (gateId : string) (e : CapLedgerEntry) : bool :=
  bool_decide (cu_gateId (ce_unit e) = gateId) && bool_decide (cu_capKind (ce_unit e) = LOGICAL_DELIVERY) &&
  includes [CAP_RESERVED; CAP_COMMITTED] (ce_state e).

Definition of_recipient (fingerprint : string) (e : CapLedgerEntry) : bool := bool_decide (cu_recipientFingerprint (ce_unit e) = fingerprint).
Definition of_run (runId : string) (e : CapLedgerEntry) : bool := bool_decide (cu_runAuthorizationId (ce_unit e) = runId).
(** Reserved in the day that ends at an instant. *)
Definition in_day (t : Z) (e : CapLedgerEntry) : bool := (t - DAY_MS <=? cu_reservedAt (ce_unit e)) && (cu_reservedAt (ce_unit e) <=? t).

(** Deliveries within caps: for each run, each recipient and day, each day, and ever. *)
Record within_caps (rows : list CapLedgerEntry) (gateId : string) (caps : LineDeliveryCaps) : Prop := {
  wc_run : forall runId, count_where (fun e => spent gateId e && of_run runId e) rows <= cp_perRun caps;
  wc_recipient : forall f t, count_where (fun e => spent gateId e && of_recipient f e && in_day t e) rows <= cp_perRecipientPer24h caps;
  wc_day : forall t, count_where (fun e => spent gateId e && in_day t e) rows <= cp_per24h caps;
  wc_lifetime : count_where (spent gateId) rows <= cp_lifetime caps;
}.

(** The ceilings of a team trial. *)
Definition trial_ceilings : LineDeliveryCaps :=
  {| cp_perRun := Trial.logicalDeliveriesPerRun; cp_perRecipientPer24h := Trial.logicalDeliveriesPerRecipientPer24h;
     cp_per24h := Trial.logicalDeliveriesPer24h; cp_lifetime := Trial.logicalDeliveriesLifetime |}.

(** A run of a trial has reserved at the gate. *)
Definition trial_at (runs : list RunAuthorization) (rows : list CapLedgerEntry) (gateId : string) : Prop :=
  exists e r, In e rows /\ cu_gateId (ce_unit e) = gateId /\ cu_capKind (ce_unit e) = LOGICAL_DELIVERY /\
    In r runs /\ ru_id r = cu_runAuthorizationId (ce_unit e) /\ is_trial (ru_proposal r) = true.

Record gate_bounds (runs : list RunAuthorization) (rows : list CapLedgerEntry) (gateId : string) : Prop := {
  gb_submission : count_where (held gateId CONCURRENT_SUBMISSION) rows <= Pilot.concurrentSubmissions;
  gb_unknown : count_where (held gateId CONCURRENT_UNKNOWN) rows <= Pilot.concurrentUnknownReconciling;
  gb_deliveries : within_caps rows gateId LINE_PILOT_DELIVERY_CAPS \/
                  (trial_at runs rows gateId /\ within_caps rows gateId trial_ceilings);
}.

(** Caps that are no wider. *)
Definition caps_le (a b : LineDeliveryCaps) : Prop :=
  cp_perRun a <= cp_perRun b /\ cp_perRecipientPer24h a <= cp_perRecipientPer24h b /\ cp_per24h a <= cp_per24h b /\
  cp_lifetime a <= cp_lifetime b.

Lemma within_caps_le rows gateId a b : caps_le a b -> within_caps rows gateId a -> within_caps rows gateId b.
Proof.
  intros (Hr & Hf & Hd & Hl) [Wr Wf Wd Wl]. constructor; [intros r; specialize (Wr r)|intros f t; specialize (Wf f t)|intros t; specialize (Wd t)|]; lia.
Qed.

Lemma pilot_le_trial : caps_le LINE_PILOT_DELIVERY_CAPS trial_ceilings.
Proof. by unfold caps_le. Qed.

Lemma run_caps_le_trial p : caps_le (run_caps p) trial_ceilings.
Proof. pose proof (delivery_caps_bounded (cap_source p)). unfold caps_le, run_caps. cbn. tauto. Qed.

Lemma run_caps_pilot p : is_trial p = false -> run_caps p = LINE_PILOT_DELIVERY_CAPS.
Proof. intros Hp. unfold run_caps, lineDeliveryCapsFor, cap_source, rp_profile. cbn. by rewrite Hp. Qed.

(** ** A new unit *)

Lemma reached_none limits u rows l : reached limits u rows = None -> In l limits -> count_where (counts_for l u) rows < li_max l.
Proof.
  unfold reached. intros Hn Hl. destruct (js_find _ _) eqn:Ef; [done|].
  eapply List.find_none in Ef; [|exact Hl]. cbn in Ef. by bool_prop.
Qed.

(** A row counted by a bound is counted by the limit of a unit the bound counts. *)
Ltac counted :=
  unfold counts_for, spent, held, of_recipient, of_run, in_day in *; cbn in *; bool_prop; subst;
  repeat (apply andb_true_intro; split);
  try (apply bool_decide_eq_true; congruence); try (apply Z.leb_le; lia); try done.

Section NewUnit.
Context (u : CapUnit) (rows : list CapLedgerEntry).
Let e := CapLedgerEntry_ u CAP_RESERVED None.

(** Units of other kinds count for nothing. *)
Lemma other_kind_caps gateId caps : cu_capKind u <> LOGICAL_DELIVERY -> within_caps rows gateId caps -> within_caps (rows ++ [e]) gateId caps.
Proof.
  intros Hk [Wr Wf Wd Wl].
  assert (He : spent gateId e = false) by (unfold spent; cbn; rewrite (bool_decide_eq_false_2 (cu_capKind u = _)) by done; by rewrite andb_false_r).
  constructor; [intros r|intros f t|intros t|]; rewrite count_where_snoc, He; cbn [andb]; rewrite Z.add_0_r; auto.
Qed.

(** And so do those of other gates. *)
Lemma other_gate_caps gateId caps : cu_gateId u <> gateId -> within_caps rows gateId caps -> within_caps (rows ++ [e]) gateId caps.
Proof.
  intros Hk [Wr Wf Wd Wl].
  assert (He : spent gateId e = false) by (unfold spent; cbn; by rewrite (bool_decide_eq_false_2 (cu_gateId u = _))).
  constructor; [intros r|intros f t|intros t|]; rewrite count_where_snoc, He; cbn [andb]; rewrite Z.add_0_r; auto.
Qed.

(** A logical delivery none of whose limits was reached stays within caps that are no narrower. *)
Lemma delivery_caps caps wider gateId : cu_capKind u = LOGICAL_DELIVERY ->
  reached (lineCapLimits LOGICAL_DELIVERY (cu_reservedAt u) None (Some caps)) u rows = None ->
  caps_le caps wider -> within_caps rows gateId wider -> within_caps (rows ++ [e]) gateId wider.
Proof.
  intros Hk Hn Hle [Wr Wf Wd Wl]. pose proof (fun l => reached_none _ u rows l Hn) as Hroom. cbn [lineCapLimits In] in Hroom.
  destruct Hle as (Lr & Lf & Ld & Ll).
  assert (He : spent gateId e = true -> gateId = cu_gateId u).
  { unfold spent. cbn. intros H. by bool_prop. }
  pose proof (Hroom _ (or_introl eq_refl)) as R1. pose proof (Hroom _ (or_intror (or_introl eq_refl))) as R2.
  pose proof (Hroom _ (or_intror (or_intror (or_introl eq_refl)))) as R3.
  pose proof (Hroom _ (or_intror (or_intror (or_intror (or_introl eq_refl))))) as R4. cbn in R1, R2, R3, R4. clear Hroom.
  constructor; [intros r|intros f t|intros t|].
  - eapply count_where_room; [apply Wr| |intros _; eapply Z.lt_le_trans; [exact R1|exact Lr]]. intros Hx y _ Hy. counted.
  - eapply count_where_room; [apply Wf| |intros _; eapply Z.lt_le_trans; [exact R2|exact Lf]]. intros Hx y _ Hy. counted.
  - eapply count_where_room; [apply Wd| |intros _; eapply Z.lt_le_trans; [exact R3|exact Ld]]. intros Hx y _ Hy. counted.
  - eapply count_where_room; [apply Wl| |intros _; eapply Z.lt_le_trans; [exact R4|exact Ll]]. intros Hx y _ Hy. counted.
Qed.

(** The one unit of concurrency: nothing else is held when one is taken. *)
Lemma concurrent_unit capKind gateId l : cu_capKind u = capKind ->
  reached [l] u rows = None -> li_capKind l = capKind -> li_activeOnly l = true -> li_sameRecipient l = false -> li_sameRun l = false ->
  li_sameDelivery l = false -> li_since l = None -> count_where (held gateId capKind) rows <= li_max l ->
  count_where (held gateId capKind) (rows ++ [e]) <= li_max l.
Proof.
  intros Hk Hn H1 H2 H3 H4 H5 H6 Hle. pose proof (reached_none _ u rows l Hn (or_introl eq_refl)) as Hroom.
  eapply count_where_room; [exact Hle| |intros _; exact Hroom].
  intros Hx y _ Hy. unfold counts_for. rewrite H1, H2, H3, H4, H5, H6. counted.
Qed.

Lemma other_kind_held capKind gateId : cu_capKind u <> capKind ->
  count_where (held gateId capKind) (rows ++ [e]) = count_where (held gateId capKind) rows.
Proof.
  intros Hk. rewrite count_where_snoc. unfold held at 2. cbn. rewrite (bool_decide_eq_false_2 (cu_capKind u = _)) by done.
  rewrite andb_false_r. cbn. lia.
Qed.

Context (runs : list RunAuthorization).

Lemma trial_at_grows rows' gateId : (forall x, In x rows -> In x rows') -> trial_at runs rows gateId -> trial_at runs rows' gateId.
Proof. intros Hi (x & r & Hx & H). exists x, r. split; [by apply Hi|done]. Qed.

(** The limits [reserve] passes: those of its kind, and for a logical delivery those of its run. *)
Definition limits_of_unit (limits : list LineCapLimit) : Prop :=
  match cu_capKind u with
  | LOGICAL_DELIVERY => exists r, In r runs /\ ru_id r = cu_runAuthorizationId u /\
      limits = lineCapLimits LOGICAL_DELIVERY (cu_reservedAt u) None (Some (run_caps (ru_proposal r)))
  | k => exists n c, limits = lineCapLimits k (cu_reservedAt u) n c
  end.

Lemma gate_bounds_unit limits gateId : limits_of_unit limits -> reached limits u rows = None ->
  gate_bounds runs rows gateId -> gate_bounds runs (rows ++ [e]) gateId.
Proof.
  intros Hl Hn [Bs Bu Bd].
  assert (Hin : forall x, In x rows -> In x (rows ++ [e])) by (intros x Hx; apply in_app_iff; by left).
  assert (Hother : cu_capKind u <> LOGICAL_DELIVERY -> within_caps (rows ++ [e]) gateId LINE_PILOT_DELIVERY_CAPS \/
                     (trial_at runs (rows ++ [e]) gateId /\ within_caps (rows ++ [e]) gateId trial_ceilings)).
  { intros Hk. destruct Bd as [Bd|[Ht Bd]]; [left|right; split; [by eapply trial_at_grows|]]; by apply other_kind_caps. }
  unfold limits_of_unit in Hl. destruct (cu_capKind u) eqn:Hk; [destruct Hl as (r & Hr & Hid & ->)|destruct Hl as (n & c & ->)..].
  - constructor; [rewrite other_kind_held by congruence; done..|].
    destruct (decide (cu_gateId u = gateId)) as [Hg|Hg]; cycle 1.
    { destruct Bd as [Bd|[Ht Bd]]; [left|right; split; [by eapply trial_at_grows|]]; by apply other_gate_caps. }
    destruct (is_trial (ru_proposal r)) eqn:Ht.
    + right. split.
      * exists e, r. split; [apply in_app_iff; right; by left|done].
      * eapply delivery_caps; [done..|apply run_caps_le_trial|]. destruct Bd as [Bd|[_ Bd]]; [|done]. by eapply within_caps_le, Bd.
    + rewrite run_caps_pilot in Hn by done. destruct Bd as [Bd|[Ht' Bd]].
      * left. by eapply delivery_caps.
      * right. split; [by eapply trial_at_grows|]. eapply delivery_caps; [done..|apply pilot_le_trial|done].
  - constructor; [rewrite other_kind_held by congruence; done..|]. apply Hother. congruence.
  - constructor; [|rewrite other_kind_held by congruence; done|apply Hother; congruence].
    by eapply (concurrent_unit _ _ (CapLimit _ _ _ _ _ _ _ _)).
  - constructor; [rewrite other_kind_held by congruence; done| |apply Hother; congruence].
    by eapply (concurrent_unit _ _ (CapLimit _ _ _ _ _ _ _ _)).
Qed.
End NewUnit.

(** ** Settled units *)

Lemma gate_bounds_settled runs hit f rows gateId :
  (forall x, ce_unit (f x) = ce_unit x /\ ce_state (f x) <> CAP_RESERVED) -> (forall x, hit x = true -> ce_state x = CAP_RESERVED) ->
  gate_bounds runs rows gateId -> gate_bounds runs (update_where hit f rows) gateId.
Proof.
  intros Hf Hhit [Bs Bu Bd].
  assert (Hheld : forall k, count_where (held gateId k) (update_where hit f rows) <= count_where (held gateId k) rows).
  { intros k. apply count_where_update. intros x _. unfold held. destruct (Hf x) as [-> Hs]. rewrite (bool_decide_eq_false_2 _ Hs). by rewrite andb_false_r. }
  assert (Hsp : forall x, hit x = true -> spent gateId (f x) = true -> spent gateId x = true).
  { intros x Hx. unfold spent. destruct (Hf x) as [-> _]. rewrite (Hhit x Hx). intros H. bool_prop. by rewrite !bool_decide_eq_true_2. }
  assert (Hcaps : forall caps, within_caps rows gateId caps -> within_caps (update_where hit f rows) gateId caps).
  { intros caps [Wr Wf Wd Wl]. constructor; [intros r|intros g t|intros t|];
      (etrans; [apply count_where_update|auto]); intros x Hx; unfold of_run, of_recipient, in_day; rewrite ?(proj1 (Hf x)); intros H; bool_prop;
      rewrite ?Hsp by done; cbn; rewrite ?bool_decide_eq_true_2 by done; try done; cbn; rewrite !(proj2 (Z.leb_le _ _)) by done; done. }
  constructor; [specialize (Hheld CONCURRENT_SUBMISSION); lia|specialize (Hheld CONCURRENT_UNKNOWN); lia|].
  destruct Bd as [Bd|[(x & r & Hx & H) Bd]]; [left; auto|right; split; [|auto]].
  destruct (hit x) eqn:Eh.
  - exists (f x), r. split; [by apply update_where_hit|]. by rewrite !(proj1 (Hf x)).
  - exists x, r. split; [by apply update_where_keep|done].
Qed.

Lemma gate_bounds_runs runs runs' rows gateId : (forall r, In r runs -> exists r', In r' runs' /\ ru_proposal r' = ru_proposal r) ->
  gate_bounds runs rows gateId -> gate_bounds runs' rows gateId.
Proof.
  intros Hr [Bs Bu Bd]. constructor; [done..|]. destruct Bd as [Bd|[(x & r & Hx & Hg & Hk & Hin & Hid & Ht) Bd]]; [by left|right; split; [|done]].
  destruct (Hr r Hin) as (r' & Hin' & Hp). exists x, r'. unfold ru_id in *. by rewrite Hp.
Qed.
