(* ===== verification/LineControlPlane.v ===== *)
(** * LineControlPlane: the rollout authority of LINE

    [apps/delivery/src/line-control-plane.ts], and of [line-control-repository.ts] and
    [line-audit-repository.ts] the methods of more than one transaction: every method as a program over
    the tables of LineTables, one call for each transaction. *)
From stdpp Require Import base tactics list strings.
From Stdlib Require Import ZArith Lia Ascii.
From S2P Require Import Prelude JsMap Text JsDate JsValue Contracts ScopeKey Persistence ReservationRuntime Program LineDelivery LineControlPolicy LineTables LineStore.

Open Scope string_scope.
Open Scope Z_scope.
Open Scope list_scope.

Abbreviation prog := (Prog LineWorld LineError).

(** ** Names *)

Definition rollout_text (s : LineRolloutState) : string :=
  match s with
  | DISABLED => "DISABLED" | DRY_RUN => "DRY_RUN" | PROVIDER_CONFORMANCE => "PROVIDER_CONFORMANCE" | CAPPED_PILOT => "CAPPED_PILOT"
  end.

Definition signal_text (s : LineControlSignal) : string :=
  match s with
  | CROSS_TENANT_LEAK => "CROSS_TENANT_LEAK" | ALLOWLIST_BINDING_MISMATCH => "ALLOWLIST_BINDING_MISMATCH"
  | CG3_BYPASS => "CG3_BYPASS" | DUPLICATE_BUSINESS_EFFECT => "DUPLICATE_BUSINESS_EFFECT"
  | PII_OR_CREDENTIAL_LEAK => "PII_OR_CREDENTIAL_LEAK" | EVIDENCE_HASH_MISMATCH => "EVIDENCE_HASH_MISMATCH"
  | UNKNOWN_OUTCOME_EXPIRED => "UNKNOWN_OUTCOME_EXPIRED" | PROVIDER_ATTEMPTS_EXHAUSTED => "PROVIDER_ATTEMPTS_EXHAUSTED"
  | AUTH_FAILURE => "AUTH_FAILURE" | QUOTA_EXHAUSTED => "QUOTA_EXHAUSTED"
  | CAP_ACCOUNTING_INCONSISTENCY => "CAP_ACCOUNTING_INCONSISTENCY"
  end.

Definition kill_reason_text (r : LineKillReason) : string :=
  match r with
  | SIGNALLED s => signal_text s | OPERATOR_KILL => "OPERATOR_KILL" | COMPLIANCE_KILL => "COMPLIANCE_KILL" | PILOT_ROLLBACK => "PILOT_ROLLBACK"
  end.

Definition credential_kind_text (k : LineCredentialKind) : string :=
  match k with
  | CHANNEL_ACCESS_TOKEN_V2_1 => "CHANNEL_ACCESS_TOKEN_V2_1" | CHANNEL_ACCESS_TOKEN_LONG_LIVED => "CHANNEL_ACCESS_TOKEN_LONG_LIVED"
  | CHANNEL_SECRET => "CHANNEL_SECRET"
  end.

Definition category_text (c : LineAuditCategory) : string :=
  match c with
  | AUDIT_GATE => "GATE" | AUDIT_KILL => "KILL" | AUDIT_ALLOWLIST => "ALLOWLIST" | AUDIT_RUN_AUTHORIZATION => "RUN_AUTHORIZATION"
  | AUDIT_CAP => "CAP" | AUDIT_CREDENTIAL => "CREDENTIAL" | AUDIT_PROVIDER => "PROVIDER" | AUDIT_WEBHOOK => "WEBHOOK"
  end.

Definition gate_error_text (c : LineGateErrorCode) : string :=
  match c with
  | LINE_GATE_AUTHORIZATION_DENIED => "LINE_GATE_AUTHORIZATION_DENIED" | LINE_GATE_SCOPE_NOT_ALLOWED => "LINE_GATE_SCOPE_NOT_ALLOWED"
  | LINE_GATE_INVALID_TRANSITION => "LINE_GATE_INVALID_TRANSITION" | LINE_GATE_KILLED => "LINE_GATE_KILLED"
  | LINE_GATE_TECHNICAL_SWITCH_OFF => "LINE_GATE_TECHNICAL_SWITCH_OFF" | SUBMISSION_WINDOW_CAP_EXCEEDED => "SUBMISSION_WINDOW_CAP_EXCEEDED"
  | CONCURRENT_SUBMISSION_CAP_EXCEEDED => "CONCURRENT_SUBMISSION_CAP_EXCEEDED" | CONTACT_WINDOW_CAP_EXCEEDED => "CONTACT_WINDOW_CAP_EXCEEDED"
  | CONCURRENT_UNKNOWN_RECONCILING_CAP_EXCEEDED => "CONCURRENT_UNKNOWN_RECONCILING_CAP_EXCEEDED"
  | RUN_DELIVERY_CAP_EXCEEDED => "RUN_DELIVERY_CAP_EXCEEDED" | LIFETIME_CAP_EXCEEDED => "LIFETIME_CAP_EXCEEDED"
  | PROVIDER_ATTEMPT_CAP_EXCEEDED => "PROVIDER_ATTEMPT_CAP_EXCEEDED" | CODE_CAP_ACCOUNTING_INCONSISTENCY => "CAP_ACCOUNTING_INCONSISTENCY"
  | RUN_AUTHORIZATION_MISSING => "RUN_AUTHORIZATION_MISSING" | RUN_AUTHORIZATION_EXPIRED => "RUN_AUTHORIZATION_EXPIRED"
  | RUN_AUTHORIZATION_CONSUMED => "RUN_AUTHORIZATION_CONSUMED" | CREDENTIAL_UNAVAILABLE => "CREDENTIAL_UNAVAILABLE"
  | CREDENTIAL_VERSION_MISMATCH => "CREDENTIAL_VERSION_MISMATCH" | CONFIG_DIGEST_MISMATCH => "CONFIG_DIGEST_MISMATCH"
  end.

(** ** Requests and answers *)

Record LineControlActor := ControlActor {
  ac_role : LineControlActorRole;
  ac_ref : string;
}.

Inductive LineControlOutcome (A : Type) := APPLIED (a : A) | STALE | DENIED (code : LineGateErrorCode).
Arguments APPLIED {A} a.
Arguments STALE {A}.
Arguments DENIED {A} code.

Record LineGateEvaluationRequest := GateEvaluationRequest {
  gr_scope : LineGateScope;
  gr_operation : LineProviderOperation;
  gr_at : Z;
  gr_configDigest : option string;
  gr_quota : option LineQuotaSnapshot;
  gr_runAuthorizationId : option string;
  gr_deliveryId : option string;
  gr_recipientFingerprint : option string;
  gr_contentDigest : option string;
}.

Record LineGateAllowed := GateAllowed {
  ga_gate : ScopeGate;
  ga_credential : option CredentialRef;
  ga_allowlistEntry : option AllowlistEntry;
  ga_run : option RunAuthorization;
  ga_alreadyConsumed : bool;
}.

Record LineGateDenied := GateDenied {
  gd_code : LineGateErrorCode;
  gd_signal : option LineControlSignal;
}.

Inductive LineGateDecision := ALLOWED (a : LineGateAllowed) | GATE_DENIED (d : LineGateDenied).

(** Whether the barrier is still ahead, and the slot of concurrency held until it. *)
Inductive LineBarrier := PRE (concurrencySlot : CapLedgerEntry) | POST.

Record LineRunGrant := RunGrant {
  rg_gate : ScopeGate;
  rg_run : RunAuthorization;
  rg_allowlistEntry : AllowlistEntry;
  rg_credential : CredentialRef;
  rg_logicalDelivery : CapLedgerEntry;
  rg_barrier : LineBarrier;
}.

Inductive LineRunResult := AUTHORIZED (g : LineRunGrant) | RUN_DENIED (d : LineGateDenied).

Record BeginLineRunCommand := BeginRunCommand {
  br_scope : LineGateScope;
  br_runAuthorizationId : string;
  br_deliveryId : string;
  br_recipientFingerprint : string;
  br_contentDigest : string;
  br_configDigest : string;
  br_quota : option LineQuotaSnapshot;
  br_at : Z;
}.

Record RegisterLineAllowlistCommand := RegisterAllowlistCommand {
  ra_gateId : string;
  ra_scope : LineGateScope;
  ra_recipientFingerprint : string;
  ra_recipientProtectedRef : string;
  ra_contentRef : string;
  ra_contentDigest : string;
  ra_configDigest : string;
  ra_validFrom : Z;
  ra_validUntil : Z;
  ra_approvalAuditRef : string;
}.

Record ProposeLineRunCommand := ProposeRunCommand {
  pc_gate : ScopeGate;
  pc_allowlistEntry : AllowlistEntry;
  pc_credential : CredentialRef;
  pc_proposalRef : string;
  pc_proposedAt : Z;
  pc_capProviderAttempts : option Z;
}.

Record TrialRecipient := TrialRecipient_ {
  tr_allowlistEntry : AllowlistEntry;
  tr_contactId : string;
  tr_identityId : option string;
}.

Record ProposeLineTeamTrialCommand := ProposeTeamTrialCommand {
  pt_gate : ScopeGate;
  pt_credential : CredentialRef;
  pt_recipients : list TrialRecipient;
  pt_trialRef : string;
  pt_proposedAt : Z;
  pt_ttlDays : Z;
  pt_perRecipientPer24h : Z;
  pt_per24h : Z;
  pt_lifetime : Z;
  pt_capProviderAttempts : option Z;
}.

(** [ACCESS_TOKEN_KINDS.includes(kind)] *)
Definition is_access_token (k : LineCredentialKind) : bool :=
  includes [CHANNEL_ACCESS_TOKEN_V2_1; CHANNEL_ACCESS_TOKEN_LONG_LIVED] k.

(** [/^[A-Za-z0-9._:\-/]{1,200}$/], [CONTENT_REFERENCE_PATTERN] of [evidence.ts] *)
Definition content_reference_char (c : Ascii.ascii) : bool :=
  let n := code c in
  ((48 <=? n) && (n <=? 58)) || ((65 <=? n) && (n <=? 90)) || ((97 <=? n) && (n <=? 122)) ||
  includes [45; 46; 47; 95] n.
Definition opaque_content_ref (s : string) : bool :=
  Nat.leb 1 (String.length s) && Nat.leb (String.length s) 200 && string_forall content_reference_char s.
Definition assertOpaqueContentRef (s : string) : result LineError unit :=
  refuse_if (negb (opaque_content_ref s)) InlineContentRejectedError.

(** [/^trial-[0-9a-f-]{36}$/] *)
Definition trial_ref_ok (s : string) : bool :=
  bool_decide (slice 0 6 s = "trial-") && Nat.eqb (String.length s) 42 &&
  string_forall (fun c => is_lower_hex c || Ascii.eqb c "-"%char) (slice 6 42 s).

(** An entry outside its validity at an instant, or revoked. *)
Definition not_valid_at (a : AllowlistEntry) (at_ : Z) : bool :=
  bool_decide (is_Some (al_revoked a)) || (at_ <? al_validFrom (al_tuple a)) || (al_validUntil (al_tuple a) <=? at_).

(** [credential.expiresAt !== null && credential.expiresAt <= t] *)
Definition expires_by (c : CredentialRef) (t : Z) : bool :=
  match cd_expiresAt (cd_meta c) with Some e => e <=? t | None => false end.

Section Plane.
Context `{Host} (tenantId : string).

(** [this.newId()] *)
Definition newId : prog string :=
  transact (fun w => let o := lw_outside w in
    Ok (fresh (lo_nextId o),
        with_outside (fun o => LineOutside_ (lo_clock o) (S (lo_nextId o)) (lo_answers o) (lo_recipients o) (lo_tokens o)
                                 (lo_contactVersion o) (lo_pushes o)) w)).

(** [this.now()] *)
Definition now : prog Z := query (fun w => lo_clock (lw_outside w)).

(** [LineAuditRepository.append] *)
Definition append_audit (a : AuditEvent) : prog AuditEvent :=
  catch (fun e =>
    if bool_decide (e = UniqueViolation) then
      existing ← query (findAudit (au_eventId a));
      match existing with
      | Some b => if same_audit b a then ret b else throw (LineIdempotencyConflictError "dl_line_audit_events")
      | None => throw (LineIdempotencyConflictError "dl_line_audit_events")
      end
    else throw e)
    (transact (createAudit a)).

(** [record] *)
Definition record (category : LineAuditCategory) (code : string) (actor : LineControlActor) (at_ : Z)
  (subjectId deliveryId evidenceDigest : option string) (salt : list string) : prog unit :=
  let hash := slice 0 16 (sha256_hex (join "|" ([category_text category; code; ac_ref actor] ++ salt))) in
  let eventId := "s2.3." +:+ toLowerCase (category_text category) +:+ ":" +:+ default "scope" subjectId +:+ ":" +:+ hash in
  id ← newId;
  append_audit (AuditEvent_ id eventId category code (ac_role actor) (ac_ref actor) (truthy subjectId) (truthy deliveryId)
                  (truthy evidenceDigest) at_) ;;
  ret tt.

Definition authorized (actor : LineControlActor) (action : LineControlAction) : prog unit :=
  lift (assertControlAuthority (ac_role actor) action).

(** ** Gate lifecycle *)

Definition ensureScope (actor : LineControlActor) (scope : LineGateScope) : prog ScopeGate :=
  authorized actor SET_TECHNICAL_SWITCH ;;
  id ← newId;
  transact (ensureGate id scope).

(** What follows an update of a gate: its record, or that it came too late. *)
Definition applied_gate (updated : option ScopeGate) (category : LineAuditCategory) (code : string) (actor : LineControlActor)
  (at_ : Z) (salt : ScopeGate -> list string) : prog (LineControlOutcome ScopeGate) :=
  match updated with
  | None => ret STALE
  | Some g => record category code actor at_ (Some (gt_id g)) None None (salt g) ;; ret (APPLIED g)
  end.

Definition advanceState (actor : LineControlActor) (gate : ScopeGate) (target : LineRolloutState) (configDigest : option string) (at_ : Z)
  : prog (LineControlOutcome ScopeGate) :=
  authorized actor ADVANCE_STATE ;;
  if gt_killed gate then ret (DENIED LINE_GATE_KILLED)
  else if negb (isSingleStepAdvance (gt_businessState gate) target) then ret (DENIED LINE_GATE_INVALID_TRANSITION)
  else
    let digest := match configDigest with Some d => Some d | None => gt_configDigest gate end in
    if negb (bool_decide (target = DRY_RUN)) && bool_decide (truthy digest = None) then ret (DENIED CONFIG_DIGEST_MISMATCH)
    else
      updated ← transact (compareAndSetGate (gt_id gate) (gt_version gate)
                  (GatePatch (Some target) None (if bool_decide (digest = gt_configDigest gate) then None else Some digest)));
      applied_gate updated AUDIT_GATE ("GATE_ADVANCED_" +:+ rollout_text target) actor at_ (fun g => [show (gt_version g)]).

Definition lowerState (actor : LineControlActor) (gate : ScopeGate) (target : LineRolloutState) (at_ : Z) : prog (LineControlOutcome ScopeGate) :=
  authorized actor LOWER_STATE ;;
  if negb (isLowering (gt_businessState gate) target) then ret (DENIED LINE_GATE_INVALID_TRANSITION)
  else
    updated ← transact (compareAndSetGate (gt_id gate) (gt_version gate) (GatePatch (Some target) None None));
    applied_gate updated AUDIT_GATE ("GATE_LOWERED_" +:+ rollout_text target) actor at_ (fun g => [show (gt_version g)]).

Definition setTechnicalSwitch (actor : LineControlActor) (gate : ScopeGate) (on : bool) (at_ : Z) : prog (LineControlOutcome ScopeGate) :=
  authorized actor SET_TECHNICAL_SWITCH ;;
  if on && gt_killed gate then ret (DENIED LINE_GATE_KILLED)
  else
    updated ← transact (compareAndSetGate (gt_id gate) (gt_version gate) (GatePatch None (Some on) None));
    applied_gate updated AUDIT_GATE (if on then "GATE_TECHNICAL_SWITCH_ON" else "GATE_TECHNICAL_SWITCH_OFF") actor at_
      (fun g => [show (gt_version g)]).

Definition kill (actor : LineControlActor) (gate : ScopeGate) (reason : LineKillReason) (at_ : Z) : prog ScopeGate :=
  authorized actor KILL ;;
  killed ← transact (killGate (gt_id gate) reason at_);
  record AUDIT_KILL ("KILL_" +:+ kill_reason_text reason) actor at_ (Some (gt_id gate)) None None
    [kill_reason_text reason; toISOString at_] ;;
  ret killed.

Definition killOnSignal (gate : ScopeGate) (signal : LineControlSignal) (at_ : Z) : prog ScopeGate :=
  kill (ControlActor SYSTEM ("system." +:+ toLowerCase (signal_text signal))) gate (automaticKillReasonFor signal) at_.

Definition killByActor (actor : LineControlActor) (gate : ScopeGate) (at_ : Z) : prog ScopeGate :=
  kill actor gate (operatorKillReasonFor (ac_role actor)) at_.

Definition clearWithApproval (actor : LineControlActor) (gate : ScopeGate) (killClearedRef : string) (at_ : Z)
  : prog (LineControlOutcome ScopeGate) :=
  authorized actor CLEAR_KILL ;;
  if negb (gt_killed gate) then ret (DENIED LINE_GATE_INVALID_TRANSITION)
  else if bool_decide (Some killClearedRef = gt_killClearedRef gate) then ret (DENIED LINE_GATE_AUTHORIZATION_DENIED)
  else
    updated ← transact (clearGateKill (gt_id gate) (gt_version gate) killClearedRef);
    applied_gate updated AUDIT_KILL "KILL_CLEARED" actor at_ (fun g => [killClearedRef; show (gt_version g)]).

(** ** Allowlist and credentials *)

Definition registerAllowlistEntry (actor : LineControlActor) (c : RegisterLineAllowlistCommand) (at_ : Z) : prog AllowlistEntry :=
  authorized actor REGISTER_ALLOWLIST ;;
  lift (assertOpaqueContentRef (ra_contentRef c)) ;;
  id ← newId;
  entry ← transact (addAllowlistEntry (AllowlistTuple_ id (ra_gateId c) (ra_scope c) (ra_recipientFingerprint c)
            (ra_recipientProtectedRef c) (ra_contentRef c) (ra_contentDigest c) (ra_configDigest c) (ra_validFrom c)
            (ra_validUntil c) (ra_approvalAuditRef c)));
  record AUDIT_ALLOWLIST "ALLOWLIST_REGISTERED" actor at_ (Some (al_id (al_tuple entry))) None None [ra_approvalAuditRef c] ;;
  ret entry.

(** The record of an update that took effect. *)
Definition recorded_if (done_ : bool) (category : LineAuditCategory) (code : string) (actor : LineControlActor) (at_ : Z)
  (subjectId : string) (salt : list string) : prog bool :=
  if done_ then record category code actor at_ (Some subjectId) None None salt ;; ret true else ret false.

Definition revokeAllowlist (actor : LineControlActor) (id revocationCode : string) (at_ : Z) : prog bool :=
  authorized actor REVOKE_ALLOWLIST ;;
  revoked ← transact (revokeAllowlistEntry id revocationCode at_);
  recorded_if revoked AUDIT_ALLOWLIST "ALLOWLIST_REVOKED" actor at_ id [revocationCode].

(** The metadata of a command, under a new identifier. *)
Definition registerCredential (actor : LineControlActor) (m : string -> CredentialMeta) (at_ : Z) : prog CredentialRef :=
  authorized actor REGISTER_CREDENTIAL ;;
  id ← newId;
  credential ← transact (registerCredentialRef (m id));
  record AUDIT_CREDENTIAL "CREDENTIAL_REGISTERED" actor at_ (Some (cd_id (cd_meta credential))) None None
    [credential_kind_text (cd_credentialKind (m id)); show (cd_version (m id))] ;;
  ret credential.

(** [LineControlOutcome] with the signal a caller must kill on. *)
Definition verifyAndActivateCredential (actor : LineControlActor) (credentialId verifiedChannel : string) (verifiedAt at_ : Z)
  : prog (LineControlOutcome CredentialRef * option LineControlSignal) :=
  authorized actor ACTIVATE_CREDENTIAL ;;
  found ← query (findCredentialRef credentialId);
  match found with
  | None => ret (DENIED CREDENTIAL_UNAVAILABLE, None)
  | Some candidate =>
      if negb (bool_decide (cd_channelAccountId (cd_meta candidate) = verifiedChannel))
      then ret (DENIED CREDENTIAL_UNAVAILABLE, Some AUTH_FAILURE)
      else if expires_by candidate at_ then ret (DENIED CREDENTIAL_UNAVAILABLE, None)
      else
        activated ← transact (activateCredentialRef credentialId verifiedAt at_);
        match activated with
        | None => ret (STALE, None)
        | Some c =>
            record AUDIT_CREDENTIAL "CREDENTIAL_ACTIVATED" actor at_ (Some (cd_id (cd_meta c))) None None [show (cd_version (cd_meta c))] ;;
            ret (APPLIED c, None)
        end
  end.

Definition revokeCredential (actor : LineControlActor) (credentialId : string) (at_ : Z) : prog bool :=
  authorized actor REVOKE_CREDENTIAL ;;
  revoked ← transact (revokeCredentialRef credentialId at_);
  recorded_if revoked AUDIT_CREDENTIAL "CREDENTIAL_REVOKED" actor at_ credentialId [toISOString at_].

(** ** Run authorizations *)

(** [LineControlRepository.proposeRun] *)
Definition propose_run (p : RunProposal) : prog RunAuthorization :=
  catch (fun e =>
    if bool_decide (e = UniqueViolation) then
      existing ← query (findRunByDigest (rp_proposalDigest p));
      match existing with
      | Some r => if same_binding (ru_proposal r) p then ret r else throw (LineIdempotencyConflictError "dl_line_run_authorizations")
      | None => throw (LineIdempotencyConflictError "dl_line_run_authorizations")
      end
    else throw e)
    (transact (createRun p)).

(** The dimensions the digest of a proposal is taken of. *)
Definition digest_input (gate : ScopeGate) (a : AllowlistTuple) (c : CredentialMeta) (capLogicalDeliveries capProviderAttempts : Z)
  (proposedBy proposalRef : string) (proposedAt expiresAt : Z) (trial : option LineTrialDimensions) : LineRunProposalDigestInput :=
  {| pd_tenantId := tenantId; pd_gateId := gt_id gate; pd_channelAccountId := sc_channelAccountId (gt_scope gate);
     pd_senderIdentityId := sc_senderIdentityId (gt_scope gate); pd_purpose := sc_purpose (gt_scope gate);
     pd_contactKind := sc_contactKind (gt_scope gate); pd_allowlistEntryId := al_id a;
     pd_recipientFingerprint := al_recipientFingerprint a; pd_contentDigest := al_contentDigest a;
     pd_configDigest := al_configDigest a; pd_credentialRefId := cd_id c; pd_credentialVersion := cd_version c;
     pd_capLogicalDeliveries := capLogicalDeliveries; pd_capProviderAttempts := capProviderAttempts;
     pd_proposedBy := proposedBy; pd_proposalRef := proposalRef; pd_proposedAt := proposedAt; pd_expiresAt := expiresAt;
     pd_trial := trial |}.

(** The digest, the row and its record. *)
Definition propose_recorded (actor : LineControlActor) (gate : ScopeGate) (a : AllowlistTuple) (c : CredentialMeta)
  (capLogicalDeliveries capProviderAttempts : Z) (proposalRef : string) (proposedAt expiresAt at_ : Z)
  (trial : option LineTrialDimensions) : prog RunAuthorization :=
  let digest := lineRunProposalDigest (digest_input gate a c capLogicalDeliveries capProviderAttempts (ac_ref actor) proposalRef
                                         proposedAt expiresAt trial) in
  id ← newId;
  run ← propose_run (RunProposal_ id (gt_id gate) (al_id a) (cd_id c) (cd_version c) digest (al_configDigest a)
          capLogicalDeliveries capProviderAttempts (ac_ref actor) proposedAt expiresAt trial);
  record AUDIT_RUN_AUTHORIZATION "RUN_PROPOSED" actor at_ (Some (ru_id run)) None None [digest] ;;
  ret run.

Definition proposeRun (actor : LineControlActor) (c : ProposeLineRunCommand) (at_ : Z) : prog (LineControlOutcome RunAuthorization) :=
  authorized actor PROPOSE_RUN ;;
  let gate := pc_gate c in
  let a := al_tuple (pc_allowlistEntry c) in
  let credential := pc_credential c in
  let expiresAt := lineRunExpiry (pc_proposedAt c) in
  if gt_killed gate then ret (DENIED LINE_GATE_KILLED)
  else if negb (bool_decide (al_gateId a = gt_id gate)) || not_valid_at (pc_allowlistEntry c) (pc_proposedAt c)
  then ret (DENIED LINE_GATE_SCOPE_NOT_ALLOWED)
  else if negb (bool_decide (gt_configDigest gate = Some (al_configDigest a))) then ret (DENIED CONFIG_DIGEST_MISMATCH)
  else if negb (bool_decide (cd_status credential = CRED_ACTIVE)) || negb (is_access_token (cd_credentialKind (cd_meta credential))) ||
          expires_by credential expiresAt
  then ret (DENIED CREDENTIAL_UNAVAILABLE)
  else
    let capProviderAttempts := Z.min (default Pilot.providerAttemptsPerLogicalDelivery (pc_capProviderAttempts c))
                                 Pilot.providerAttemptsPerLogicalDelivery in
    run ← propose_recorded actor gate a (cd_meta credential) Pilot.logicalDeliveriesPerRun capProviderAttempts (pc_proposalRef c)
            (pc_proposedAt c) expiresAt at_ None;
    ret (APPLIED run).

(** What the recipients of a trial are checked for, one after the other. *)
Definition trial_recipient_denied (gate : ScopeGate) (proposedAt expiresAt : Z) (r : TrialRecipient) : option LineGateErrorCode :=
  let e := tr_allowlistEntry r in
  let a := al_tuple e in
  if negb (bool_decide (al_gateId a = gt_id gate)) || bool_decide (is_Some (al_revoked e)) ||
     negb (bool_decide (al_contentRef a = Trial.CONTENT_CLASS)) || (proposedAt <? al_validFrom a) || (al_validUntil a <? expiresAt)
  then Some LINE_GATE_SCOPE_NOT_ALLOWED
  else if negb (bool_decide (gt_configDigest gate = Some (al_configDigest a))) then Some CONFIG_DIGEST_MISMATCH
  else None.

(** [Math.ceil(x / 86_400_000)] *)
Definition days_ceil (ms : Z) : Z := - (- ms / DAY_MS).

Definition proposeTeamTrial (actor : LineControlActor) (c : ProposeLineTeamTrialCommand) (at_ : Z)
  : prog (LineControlOutcome (list RunAuthorization)) :=
  authorized actor PROPOSE_RUN ;;
  let gate := pt_gate c in
  let credential := pt_credential c in
  let within v max := (1 <=? v) && (v <=? max) in
  let expiresAt := lineTeamTrialExpiry (pt_proposedAt c) (pt_ttlDays c) in
  if gt_killed gate then ret (DENIED LINE_GATE_KILLED)
  else if negb (trial_ref_ok (pt_trialRef c)) then ret (DENIED LINE_GATE_SCOPE_NOT_ALLOWED)
  else if bool_decide (pt_recipients c = []) ||
          negb (within (pt_perRecipientPer24h c) Trial.logicalDeliveriesPerRecipientPer24h) ||
          negb (within (pt_per24h c) Trial.logicalDeliveriesPer24h) || negb (within (pt_lifetime c) Trial.logicalDeliveriesLifetime)
  then ret (DENIED LINE_GATE_SCOPE_NOT_ALLOWED)
  else if negb (bool_decide (cd_status credential = CRED_ACTIVE)) || negb (is_access_token (cd_credentialKind (cd_meta credential))) ||
          expires_by credential expiresAt
  then ret (DENIED CREDENTIAL_UNAVAILABLE)
  else
    match omap (trial_recipient_denied gate (pt_proposedAt c) expiresAt) (pt_recipients c) with
    | code :: _ => ret (DENIED code)
    | [] =>
        let capProviderAttempts := Z.min (default Trial.providerAttemptsPerLogicalDelivery (pt_capProviderAttempts c))
                                     Trial.providerAttemptsPerLogicalDelivery in
        let capLogicalDeliveries := Z.min (pt_perRecipientPer24h c * days_ceil (expiresAt - pt_proposedAt c)) Trial.logicalDeliveriesPerRun in
        runs ← map_prog (fun r =>
                 let a := al_tuple (tr_allowlistEntry r) in
                 propose_recorded actor gate a (cd_meta credential) capLogicalDeliveries capProviderAttempts
                   (pt_trialRef c +:+ ":" +:+ al_id a) (pt_proposedAt c) expiresAt at_
                   (Some (TrialDimensions (pt_trialRef c) (pt_perRecipientPer24h c) (pt_per24h c) (pt_lifetime c) (tr_contactId r) (tr_identityId r))))
                 (pt_recipients c);
        ret (APPLIED runs)
    end.

Definition approveRunAs (actor : LineControlActor) (runId : string) (at_ : Z) : prog (LineControlOutcome RunAuthorization) :=
  let compliance := bool_decide (ac_role actor = COMPLIANCE) in
  authorized actor (if compliance then APPROVE_RUN_COMPLIANCE else APPROVE_RUN_TENANT_ADMIN) ;;
  found ← query (findRun runId);
  match found with
  | None => ret (DENIED RUN_AUTHORIZATION_MISSING)
  | Some run =>
      if bool_decide (rp_proposedBy (ru_proposal run) = ac_ref actor) then ret (DENIED LINE_GATE_AUTHORIZATION_DENIED)
      else if negb (bool_decide (ru_state run = RUN_PROPOSED)) then ret (DENIED RUN_AUTHORIZATION_MISSING)
      else if rp_expiresAt (ru_proposal run) <? at_ then ret (DENIED RUN_AUTHORIZATION_EXPIRED)
      else
        approved ← transact (approveRun runId compliance (ac_ref actor) at_);
        match approved with
        | None => ret STALE
        | Some r =>
            record AUDIT_RUN_AUTHORIZATION (if compliance then "RUN_APPROVED_COMPLIANCE" else "RUN_APPROVED_TENANT_ADMIN") actor at_
              (Some runId) None None [rp_proposalDigest (ru_proposal run)] ;;
            ret (APPLIED r)
        end
  end.

Definition closeRunAs (actor : LineControlActor) (runId : string) (state : RunClosing) (at_ : Z) : prog bool :=
  authorized actor CLOSE_RUN ;;
  closed ← transact (closeRun runId state at_);
  recorded_if closed AUDIT_RUN_AUTHORIZATION
    (match state with CLOSE_EXPIRED => "RUN_EXPIRED" | CLOSE_REVOKED => "RUN_REVOKED" end) actor at_ runId [toISOString at_].

(** ** Evaluation *)

Definition gate_denied (code : LineGateErrorCode) : prog LineGateDecision := ret (GATE_DENIED (GateDenied code None)).
Definition gate_signals (code : LineGateErrorCode) (signal : LineControlSignal) : prog LineGateDecision :=
  ret (GATE_DENIED (GateDenied code (Some signal))).

Definition matchedAllowlistEntry (gate : ScopeGate) (r : LineGateEvaluationRequest) : prog (option AllowlistEntry) :=
  match truthy (gr_recipientFingerprint r), truthy (gr_contentDigest r), truthy (gr_configDigest r) with
  | Some recipient, Some content, Some config =>
      found ← query (findAllowlistEntryByTuple (gt_id gate) recipient content config);
      ret (match found with Some e => if not_valid_at e (gr_at r) then None else Some e | None => None end)
  | _, _, _ => ret None
  end.

(** The last checks of a push: the state of its authorization. *)
Definition evaluate_run (gate : ScopeGate) (credential : CredentialRef) (entry : AllowlistEntry) (run : RunAuthorization)
  (r : LineGateEvaluationRequest) : prog LineGateDecision :=
  let allowed consumed := ret (ALLOWED (GateAllowed gate (Some credential) (Some entry) (Some run) consumed)) in
  if negb (bool_decide (rp_credentialRefId (ru_proposal run) = cd_id (cd_meta credential))) ||
     negb (rp_credentialVersion (ru_proposal run) =? cd_version (cd_meta credential))
  then gate_denied CREDENTIAL_VERSION_MISMATCH
  else
    match ru_state run with
    | RUN_CONSUMED =>
        if bool_decide (is_Some (truthy (gr_deliveryId r))) && bool_decide (snd <$> ru_consumed run = gr_deliveryId r)
        then allowed true else gate_denied RUN_AUTHORIZATION_CONSUMED
    | RUN_EXPIRED => gate_denied RUN_AUTHORIZATION_EXPIRED
    | RUN_APPROVED =>
        if rp_expiresAt (ru_proposal run) <? gr_at r then gate_denied RUN_AUTHORIZATION_EXPIRED else allowed false
    | RUN_PROPOSED | RUN_REVOKED => gate_denied RUN_AUTHORIZATION_MISSING
    end.

(** The checks of a push: its authorization and the entry of the allowlist it was approved for. *)
Definition evaluate_push (gate : ScopeGate) (credential : CredentialRef) (r : LineGateEvaluationRequest) : prog LineGateDecision :=
  match truthy (gr_runAuthorizationId r), truthy (gr_recipientFingerprint r), truthy (gr_contentDigest r) with
  | Some runId, Some recipient, Some content =>
      found ← query (findRun runId);
      match found with
      | None => gate_denied RUN_AUTHORIZATION_MISSING
      | Some run =>
          if negb (bool_decide (ru_gateId run = gt_id gate)) then gate_denied RUN_AUTHORIZATION_MISSING
          else if negb (bool_decide (Some (rp_configDigest (ru_proposal run)) = gt_configDigest gate))
          then gate_signals CONFIG_DIGEST_MISMATCH ALLOWLIST_BINDING_MISMATCH
          else
            entry ← query (findAllowlistEntry (rp_allowlistEntryId (ru_proposal run)));
            match entry with
            | None => gate_denied LINE_GATE_SCOPE_NOT_ALLOWED
            | Some e =>
                if not_valid_at e (gr_at r) then gate_denied LINE_GATE_SCOPE_NOT_ALLOWED
                else if negb (bool_decide (al_recipientFingerprint (al_tuple e) = recipient)) ||
                        negb (bool_decide (al_contentDigest (al_tuple e) = content)) ||
                        negb (bool_decide (Some (al_configDigest (al_tuple e)) = gr_configDigest r))
                then gate_signals LINE_GATE_SCOPE_NOT_ALLOWED ALLOWLIST_BINDING_MISMATCH
                else evaluate_run gate credential e run r
            end
      end
  | _, _, _ => gate_denied RUN_AUTHORIZATION_MISSING
  end.

Definition evaluate (r : LineGateEvaluationRequest) : prog LineGateDecision :=
  found ← query (findGate (gr_scope r));
  match found with
  | None => gate_denied LINE_GATE_SCOPE_NOT_ALLOWED
  | Some gate =>
      if gt_killed gate then gate_denied LINE_GATE_KILLED
      else if negb (gt_technicalSwitchOn gate) then gate_denied LINE_GATE_TECHNICAL_SWITCH_OFF
      else if negb (allowsOperation (gt_businessState gate) (gr_operation r)) then gate_denied LINE_GATE_AUTHORIZATION_DENIED
      else if negb (needsProviderCredential (gr_operation r)) then
        if bool_decide (is_Some (gr_recipientFingerprint r)) || bool_decide (is_Some (gr_contentDigest r)) then
          entry ← matchedAllowlistEntry gate r;
          match entry with
          | None => gate_denied LINE_GATE_SCOPE_NOT_ALLOWED
          | Some e => ret (ALLOWED (GateAllowed gate None (Some e) None false))
          end
        else ret (ALLOWED (GateAllowed gate None None None false))
      else if bool_decide (truthy (gt_configDigest gate) = None) || negb (bool_decide (gt_configDigest gate = gr_configDigest r))
      then gate_denied CONFIG_DIGEST_MISMATCH
      else
        active ← query (findActiveCredentialRef (sc_channelAccountId (gt_scope gate)) false);
        match active with
        | None => gate_denied CREDENTIAL_UNAVAILABLE
        | Some credential =>
            if expires_by credential (gr_at r) then gate_denied CREDENTIAL_UNAVAILABLE
            else
              match evaluateQuotaAdvisory (gr_quota r) (gr_at r) with
              | QUOTA_IS_EXHAUSTED => gate_signals LINE_GATE_AUTHORIZATION_DENIED QUOTA_EXHAUSTED
              | QUOTA_STALE | QUOTA_UNAVAILABLE => gate_denied LINE_GATE_AUTHORIZATION_DENIED
              | QUOTA_OK =>
                  if negb (bool_decide (gr_operation r = PUSH)) then ret (ALLOWED (GateAllowed gate (Some credential) None None false))
                  else evaluate_push gate credential r
              end
        end
  end.

(** ** Runs and caps *)

(** [reserve] *)
Definition reserve (c : BeginLineRunCommand) (gateId runId : string) (capKind : LineCapKind) (runCapProviderAttempts : option Z)
  (attemptNo : Z) (deliveryCaps : option LineDeliveryCaps) : prog ReserveLineCapResult :=
  id ← newId;
  transact (reserveCap (CapUnit_ id gateId runId (br_deliveryId c) capKind attemptNo (br_recipientFingerprint c) (br_at c))
              (lineCapLimits capKind (br_at c) runCapProviderAttempts deliveryCaps)).

Definition denyRun (actor : LineControlActor) (c : BeginLineRunCommand) (denied : LineGateDenied) : prog LineRunResult :=
  match gd_signal denied with
  | Some signal =>
      found ← query (findGate (br_scope c));
      match found with Some gate => killOnSignal gate signal (br_at c) ;; ret tt | None => ret tt end
  | None => ret tt
  end ;;
  record AUDIT_RUN_AUTHORIZATION "RUN_DENIED" actor (br_at c) (Some (br_runAuthorizationId c)) (Some (br_deliveryId c)) None
    [br_deliveryId c; gate_error_text (gd_code denied); toISOString (br_at c)] ;;
  ret (RUN_DENIED denied).

Definition deny (actor : LineControlActor) (c : BeginLineRunCommand) (code : LineGateErrorCode) : prog LineRunResult :=
  denyRun actor c (GateDenied code None).
Definition deny_inconsistent (actor : LineControlActor) (c : BeginLineRunCommand) : prog LineRunResult :=
  denyRun actor c (GateDenied CODE_CAP_ACCOUNTING_INCONSISTENCY (Some CAP_ACCOUNTING_INCONSISTENCY)).

(** The request [beginRun] has evaluated. *)
Definition push_request (c : BeginLineRunCommand) : LineGateEvaluationRequest :=
  {| gr_scope := br_scope c; gr_operation := PUSH; gr_at := br_at c; gr_configDigest := Some (br_configDigest c);
     gr_quota := br_quota c; gr_runAuthorizationId := Some (br_runAuthorizationId c); gr_deliveryId := Some (br_deliveryId c);
     gr_recipientFingerprint := Some (br_recipientFingerprint c); gr_contentDigest := Some (br_contentDigest c) |}.

(** The rest of [beginRun], once the authorization is the delivery's: the unit of a logical delivery,
    then the slot of concurrency. *)
Definition take_caps (actor : LineControlActor) (c : BeginLineRunCommand) (gate : ScopeGate) (run : RunAuthorization)
  (entry : AllowlistEntry) (credential : CredentialRef) : prog LineRunResult :=
  logical ← reserve c (gt_id gate) (ru_id run) LOGICAL_DELIVERY (Some (rp_capProviderAttempts (ru_proposal run))) 0
              (Some (run_caps (ru_proposal run)));
  match logical with
  | CAP_DENIED code => deny actor c code
  | CAP_TAKEN unit replay =>
      match ce_state unit with
      | CAP_RELEASED => deny_inconsistent actor c
      | CAP_COMMITTED => ret (AUTHORIZED (RunGrant gate run entry credential unit POST))
      | CAP_RESERVED =>
          slot ← reserve c (gt_id gate) (ru_id run) CONCURRENT_SUBMISSION None 0 None;
          match slot with
          | CAP_DENIED code =>
              (if replay then ret false else transact (settleCap (br_deliveryId c) LOGICAL_DELIVERY 0 RELEASE_CAP (br_at c))) ;;
              deny actor c code
          | CAP_TAKEN slot_entry _ =>
              if negb (bool_decide (ce_state slot_entry = CAP_RESERVED)) then deny_inconsistent actor c
              else
                (if replay then ret tt
                 else record AUDIT_CAP "CAP_RESERVED" actor (br_at c) (Some (cu_id (ce_unit unit))) (Some (br_deliveryId c)) None
                        [br_deliveryId c; "LOGICAL_DELIVERY"]) ;;
                ret (AUTHORIZED (RunGrant gate run entry credential unit (PRE slot_entry)))
          end
      end
  end.

Definition beginRun (actor : LineControlActor) (c : BeginLineRunCommand) : prog LineRunResult :=
  authorized actor EXECUTE_RUN ;;
  decision ← evaluate (push_request c);
  match decision with
  | GATE_DENIED d => denyRun actor c d
  | ALLOWED a =>
      match ga_run a, ga_allowlistEntry a, ga_credential a with
      | Some run, Some entry, Some credential =>
          let gate := ga_gate a in
          unknown ← query (listActiveCapEntries (gt_id gate) CONCURRENT_UNKNOWN);
          if js_some (fun e => negb (bool_decide (cu_deliveryId (ce_unit e) = br_deliveryId c))) unknown
          then deny actor c CONCURRENT_UNKNOWN_RECONCILING_CAP_EXCEEDED
          else if negb (ga_alreadyConsumed a) && negb (is_trial (ru_proposal run)) then
            consumed ← transact (consumeRun (ru_id run) (br_deliveryId c) (br_at c));
            match consumed with
            | CONSUME_DENIED code => deny actor c code
            | CONSUMED _ =>
                record AUDIT_RUN_AUTHORIZATION "RUN_CONSUMED" actor (br_at c) (Some (ru_id run)) (Some (br_deliveryId c)) None
                  [br_deliveryId c] ;;
                take_caps actor c gate run entry credential
            end
          else take_caps actor c gate run entry credential
      | _, _, _ => ret (RUN_DENIED (GateDenied RUN_AUTHORIZATION_MISSING None))
      end
  end.

Definition reserveProviderAttempt (actor : LineControlActor) (c : BeginLineRunCommand) (gate : ScopeGate) (run : RunAuthorization)
  (attemptNo : Z) : prog (LineControlOutcome CapLedgerEntry) :=
  authorized actor EXECUTE_RUN ;;
  if gt_killed gate then ret (DENIED LINE_GATE_KILLED)
  else
    reserved ← reserve c (gt_id gate) (ru_id run) PROVIDER_ATTEMPT (Some (rp_capProviderAttempts (ru_proposal run))) attemptNo None;
    match reserved with
    | CAP_DENIED code =>
        (if bool_decide (code = PROVIDER_ATTEMPT_CAP_EXCEEDED)
         then killOnSignal gate PROVIDER_ATTEMPTS_EXHAUSTED (br_at c) ;; ret tt else ret tt) ;;
        ret (DENIED code)
    | CAP_TAKEN entry _ => ret (APPLIED entry)
    end.

Definition recordProviderReplayProbe (actor : LineControlActor) (runAuthorizationId deliveryId evidenceDigest : string) (at_ : Z) : prog unit :=
  authorized actor EXECUTE_RUN ;;
  record AUDIT_PROVIDER "PROVIDER_REPLAY_PROBE" actor at_ (Some runAuthorizationId) (Some deliveryId) (Some evidenceDigest)
    [deliveryId; evidenceDigest].

Definition commitDelivery (deliveryId : string) (at_ : Z) : prog bool :=
  committed ← transact (settleCap deliveryId LOGICAL_DELIVERY 0 COMMIT_CAP at_);
  transact (settleCap deliveryId CONCURRENT_SUBMISSION 0 RELEASE_CAP at_) ;;
  ret committed.

Definition releaseDelivery (deliveryId : string) (at_ : Z) : prog bool :=
  released ← transact (settleCap deliveryId LOGICAL_DELIVERY 0 RELEASE_CAP at_);
  transact (settleCap deliveryId CONCURRENT_SUBMISSION 0 RELEASE_CAP at_) ;;
  ret released.

Definition enterUnknownReconciling (c : BeginLineRunCommand) (gateId runAuthorizationId : string) : prog (LineControlOutcome CapLedgerEntry) :=
  reserved ← reserve c gateId runAuthorizationId CONCURRENT_UNKNOWN None 0 None;
  ret (match reserved with CAP_DENIED code => DENIED code | CAP_TAKEN entry _ => APPLIED entry end).

Definition exitUnknownReconciling (deliveryId : string) (at_ : Z) : prog bool :=
  transact (settleCap deliveryId CONCURRENT_UNKNOWN 0 RELEASE_CAP at_).
End Plane.
