(* ===== verification/LineAdapter.v ===== *)
(** * LineAdapter: enqueueing a LINE delivery, submitting it, and reconciling it

    [LineDeliveryEnqueue] of [apps/delivery/src/line-delivery-enqueue.ts] and [LineOutboundAdapter] of
    [line-outbound-adapter.ts], as programs over the tables of LineTables: the repositories' transactions,
    the control plane's methods, the commands of Governance and the request to the provider, in the order
    of the code, with a call for each read of the clock. *)
From stdpp Require Import base tactics list strings.
From Stdlib Require Import ZArith Lia.
From S2P Require Import Prelude JsMap Text JsDate JsValue Contracts ScopeKey Persistence ReservationRuntime DeliveryCommands Program LineDelivery LineControlPolicy LineTables LineStore LineControlPlane.

Open Scope string_scope.
Open Scope Z_scope.
Open Scope list_scope.

(** ** Redaction *)

(** [LINE_FORBIDDEN_EVIDENCE_FIELDS], and [FORBIDDEN_FIELDS] of [line-credential-boundary.ts]. *)
Definition LINE_FORBIDDEN_EVIDENCE_FIELDS : list string :=
  ["userId"; "recipient"; "to"; "text"; "body"; "messages"; "replyToken"; "quoteToken"; "postbackData"; "accessToken";
   "channelAccessToken"; "channelSecret"; "signature"; "x-line-signature"; "authorization"].
Definition FORBIDDEN_FIELDS : list string := map toLowerCase LINE_FORBIDDEN_EVIDENCE_FIELDS.

(** The name of the first forbidden field [assertRedactedPayload] comes to; the path to it, which the
    error spells, is left out. *)
Fixpoint forbidden_field (value : jsval) : option string :=
  match value with
  | JArr l => head (omap forbidden_field l)
  | JObj fs | JInstance fs =>
      head (omap (fun f => if includes FORBIDDEN_FIELDS (toLowerCase (fst f)) then Some (fst f) else forbidden_field (snd f)) fs)
  | _ => None
  end.

Definition assertRedactedPayload (value : jsval) : result LineError unit :=
  match forbidden_field value with Some key => Err (LineForbiddenFieldError key) | None => Ok tt end.

(** ** Names *)

Definition lifecycle_text (s : LineLifecycleState) : string :=
  match s with
  | PRE_BARRIER => "PRE_BARRIER" | POST_BARRIER => "POST_BARRIER" | LC_ACCEPTED => "ACCEPTED" | LC_RECONCILING => "RECONCILING"
  | LC_SETTLED => "SETTLED"
  end.

(** [outcomeRef] *)
Definition outcome_ref (e : OutboxEntry) (code : LineProviderOutcomeCode) : string :=
  slice 0 64 ("ocr_line_" +:+ ob_delivery e +:+ "_" +:+ toLowerCase (outcome_code_text code)).

(** ** Enqueue *)

Record EnqueueLineDeliveryCommand := EnqueueCommand {
  eq_correlationId : string;
  eq_causationId : option string;
  eq_reservationId : string;
  eq_actionKey : string;
  eq_contactId : string;
  eq_identityId : option string;
  eq_purpose : string;
  eq_source : string;
  eq_senderIdentityId : string;
  eq_contentRef : string;
  eq_leaseExpiresAt : string;
}.

Inductive EnqueueErrorCode := CONTENT_NOT_APPROVED | IDEMPOTENCY_CONFLICT | BINDING_ERROR (code : ReservationBindingErrorCode).

Inductive EnqueueLineDeliveryResult :=
  | ENQUEUED (deliveryId providerRequestKey : string)
  | REPLAYED (deliveryId providerRequestKey : string)
  | ENQUEUE_ERROR (code : EnqueueErrorCode).

(** ** Submissions *)

Record LineSubmitCommand := SubmitCommand {
  sm_deliveryId : string;
  sm_scope : LineGateScope;
  sm_runAuthorizationId : string;
  sm_recipientFingerprint : string;
  sm_recipientProtectedRef : string;
  sm_correlationId : string;
  sm_quota : option LineQuotaSnapshot;
}.

Inductive LineSubmitOutcome :=
  | OUT_ACCEPTED (outcomeCode : LineProviderOutcomeCode) (attemptNo : Z)
  | OUT_REJECTED (outcomeCode : LineProviderOutcomeCode) (rejectionScope : DeliveryRejectionScope) (attemptNo : Z)
  | OUT_RECONCILING (outcomeCode : LineProviderOutcomeCode) (attemptNo nextAttemptAt : Z)
  | OUT_QUARANTINED (attemptNo : Z)
  | OUT_DENIED (code : string)
  | OUT_NOOP (settled : bool).

Section Adapter.
Context `{Runtime, Host} (tenantId : string).

(** The options: the actor, the configuration, the sources of content and its approval where they are
    given, the keys of new requests, and Governance's settlement policy. *)
Context (actor : LineControlActor) (configDigest : string).
Context (content_source : option (string -> option LineResolvedContent)) (approvedContent : option (string -> bool)).
Context (requestKey : nat -> string) (policyOf : SettlementPolicy).

(** ** Calls *)

(** A command of [ContactGovernancePort]. *)
Definition govern (c : Command) : prog SettlementView :=
  transact (fun w =>
    let o := lw_outside w in
    match execute (lo_contactVersion o) policyOf (lw_governance w) c (lo_clock o) with
    | Ok (view, t) => Ok (view, with_governance t w)
    | Err e => Err (GovernanceThrew e)
    end).

(** A brand of the contract: it is not blank. *)
Definition branded_id (value kind : string) : prog string :=
  lift (match identifier value kind with Ok v => Ok v | Err e => Err (GovernanceThrew e) end).

(** [this.requestKey()] *)
Definition newRequestKey : prog string :=
  transact (fun w => let o := lw_outside w in
    Ok (requestKey (lo_nextId o),
        with_outside (fun o => LineOutside_ (lo_clock o) (S (lo_nextId o)) (lo_answers o) (lo_recipients o) (lo_tokens o)
                                 (lo_contactVersion o) (lo_pushes o)) w)).

(** [transport.push], and [NO_RESPONSE] where it throws: the provider receives the request, whatever
    comes back. *)
Definition push (q : LinePushRequest) : prog LineTransportResult :=
  transact (fun w => let o := lw_outside w in
    Ok (default (NO_RESPONSE NETWORK) (default None (head (lo_answers o))),
        with_outside (fun o => LineOutside_ (lo_clock o) (lo_nextId o) (tail (lo_answers o)) (lo_recipients o) (lo_tokens o)
                                 (lo_contactVersion o) (q :: lo_pushes o)) w)).

(** ** [LineDeliveryEnqueue] *)

Definition approved_content (contentRef : string) : bool := (default isLineFixtureRef approvedContent) contentRef.

Definition lineInputHash (c : EnqueueLineDeliveryCommand) : string :=
  sha256_hex (json_print (JArr (map JStr
    [tenantId; eq_reservationId c; eq_actionKey c; eq_contactId c; default "" (eq_identityId c); eq_purpose c; eq_source c;
     eq_senderIdentityId c; eq_contentRef c]))).

Definition lineDeliveryId (actionKey inputHash : string) : string :=
  "dlv_line_" +:+ slice 0 32 (sha256_hex ("line-delivery|" +:+ tenantId +:+ "|" +:+ actionKey +:+ "|" +:+ inputHash)).

Definition replay (existing : OutboxEntry) (inputHash : string) : EnqueueLineDeliveryResult :=
  let i := ob_identity existing in
  if negb (bool_decide (ob_adapter i = LINE_MESSAGING_API)) || negb (bool_decide (ob_inputHash i = inputHash))
  then ENQUEUE_ERROR IDEMPOTENCY_CONFLICT
  else REPLAYED (ob_deliveryId i) (ob_providerRequestKey i).

(** The claim of the reservation: the version of the lease, or the binding error answered. *)
Definition claim_delivery (c : EnqueueLineDeliveryCommand) (deliveryId : string) : prog (ReservationBindingErrorCode + Z) :=
  catch (fun e => match e with GovernanceThrew (ReservationBindingError code) => ret (inl code) | _ => throw e end)
    (delivery ← branded_id deliveryId "DeliveryId";
     view ← govern (C_claim (ClaimInput (DeliveryCommand_ tenantId (eq_correlationId c) (eq_reservationId c) (eq_actionKey c))
              delivery (eq_contactId c) (truthy (eq_identityId c)) LINE (eq_purpose c) (eq_senderIdentityId c) (eq_leaseExpiresAt c)));
     ret (inr (default 1 (sw_leaseVersion view)))).

(** [new Date(text)] written to a column. *)
Definition date_column (text : string) : prog Z := lift (from_option (date_parse text) (DatabaseRefusal "P2009")).

Definition enqueue (c : EnqueueLineDeliveryCommand) : prog EnqueueLineDeliveryResult :=
  if negb (approved_content (eq_contentRef c)) then ret (ENQUEUE_ERROR CONTENT_NOT_APPROVED)
  else
    let inputHash := lineInputHash c in
    existing ← query (findByActionKey (eq_actionKey c));
    match existing with
    | Some e => ret (replay e inputHash)
    | None =>
        let deliveryId := lineDeliveryId (eq_actionKey c) inputHash in
        claimed ← claim_delivery c deliveryId;
        match claimed with
        | inl code => ret (ENQUEUE_ERROR (BINDING_ERROR code))
        | inr leaseVersion =>
            key ← newRequestKey;
            catch (fun e =>
              match e with
              | OutboxEntryAlreadyExistsError _ =>
                  winner ← query (findByActionKey (eq_actionKey c));
                  ret (match winner with Some e => replay e inputHash | None => ENQUEUE_ERROR IDEMPOTENCY_CONFLICT end)
              | _ => throw e
              end)
              (id ← newId;
               leaseExpiresAt ← date_column (eq_leaseExpiresAt c);
               transact (createOutbox (OutboxIdentity_ id (eq_actionKey c) (eq_reservationId c) deliveryId key LINE_MESSAGING_API LINE
                 (eq_contactId c) (truthy (eq_identityId c)) (eq_purpose c) (eq_source c) (eq_senderIdentityId c) (eq_contentRef c)
                 inputHash leaseVersion leaseExpiresAt (eq_correlationId c) (truthy (eq_causationId c)))) ;;
               ret (ENQUEUED deliveryId key))
        end
    end.

(** ** [LineOutboundAdapter] *)

Definition retry_key (e : OutboxEntry) : string :=
  let key := ob_providerRequestKey (ob_identity e) in
  if isLineRetryKey key then key else deriveLineRetryKey tenantId (ob_delivery e).

(** [require] *)
Definition require_entry (c : LineSubmitCommand) : prog OutboxEntry :=
  found ← query (findByDeliveryId LINE_MESSAGING_API (sm_deliveryId c));
  match found with Some e => ret e | None => throw (LineDeliveryNotFound (sm_deliveryId c)) end.

Definition resolve_content (e : OutboxEntry) : prog LineResolvedContent :=
  let ref := ob_contentRef (ob_identity e) in
  lift (from_option ((default fixture_content content_source) ref) (LineContentUnavailable ref)).

(** The command of a run for a submission. *)
Definition run_command_of (c : LineSubmitCommand) (content : LineResolvedContent) (at_ : Z) : BeginLineRunCommand :=
  BeginRunCommand (sm_scope c) (sm_runAuthorizationId c) (sm_deliveryId c) (sm_recipientFingerprint c) (ln_gateDigest content)
    configDigest (sm_quota c) at_.

(** The event: an identifier of its state and outcome, and its fields in their order. *)
Definition lifecycle_event (e : OutboxEntry) (state : LineLifecycleState) (correlationId : string)
  (outcomeCode : option LineProviderOutcomeCode) (occurredAt : Z) : string * jsval :=
  let i := ob_identity e in
  let eventId := "line-lifecycle:" +:+ ob_delivery e +:+ ":" +:+ lifecycle_text state +:+
                 match outcomeCode with Some code => ":" +:+ outcome_code_text code | None => "" end in
  (eventId,
   JObj ([("type", JStr "delivery.line.lifecycle.v1"); ("eventId", JStr eventId); ("tenantId", JStr tenantId);
          ("occurredAt", JStr (toISOString occurredAt)); ("correlationId", JStr correlationId); ("state", JStr (lifecycle_text state));
          ("actionKey", JStr (ob_actionKey i)); ("reservationId", JStr (ob_reservationId i)); ("deliveryId", JStr (ob_delivery e));
          ("providerRequestKey", JStr (retry_key e))] ++
         match outcomeCode with Some code => [("outcomeCode", JStr (outcome_code_text code))] | None => [] end)).

Definition emit (e : OutboxEntry) (state : LineLifecycleState) (correlationId : string) (outcomeCode : option LineProviderOutcomeCode)
  : prog unit :=
  let i := ob_identity e in
  branded_id tenantId "TenantId" ;;
  occurredAt ← now;
  branded_id (ob_actionKey i) "ActionKey" ;;
  branded_id (ob_reservationId i) "ReservationId" ;;
  branded_id (ob_delivery e) "DeliveryId" ;;
  branded_id (retry_key e) "ProviderRequestKey" ;;
  let '(eventId, payload) := lifecycle_event e state correlationId outcomeCode occurredAt in
  id ← newId;
  lift (assertRedactedPayload payload) ;;
  transact (enqueueEvent (LineEventRow_ id eventId (ob_delivery e) payload (sha256_hex (json_print payload)) occurredAt)) ;;
  ret tt.

(** [LineProviderAttemptRepository.record] *)
Definition record_receipt (a : SubmissionAttempt) : prog SubmissionAttempt :=
  catch (fun e =>
    if bool_decide (e = UniqueViolation) then
      existing ← query (findAttempt (sa_deliveryId a) (sa_attemptNo a));
      match existing with
      | Some row => if sameReceipt row a then ret row else throw (LineIdempotencyConflictError "dl_provider_submission_attempts")
      | None => throw (LineIdempotencyConflictError "dl_provider_submission_attempts")
      end
    else throw e)
    (transact (createAttempt a)).

(** The receipt of an answer; its class is that of its code. *)
Definition receipt_of (id deliveryId retryKey : string) (attemptNo : Z) (digest : string) (startedAt finishedAt : Z)
  (answer : LineTransportResult) (outcomeClass : LineProviderOutcomeClass) : SubmissionAttempt :=
  let c := classifyLineResponse answer in
  let response := match answer with RESPONSE r => Some r | NO_RESPONSE _ => None end in
  {| sa_id := id; sa_deliveryId := deliveryId; sa_providerRequestKey := retryKey; sa_attemptNo := attemptNo;
     sa_providerPayloadDigest := digest; sa_startedAt := startedAt; sa_finishedAt := finishedAt;
     sa_httpStatus := match response with Some r => if pr_httpStatus r =? 0 then None else Some (pr_httpStatus r) | None => None end;
     sa_outcomeCode := lc_outcomeCode c; sa_outcomeClass := outcomeClass; sa_rejectionScope := lc_rejectionScope c;
     sa_lineRequestId := response ≫= fun r => truthy (pr_requestId r);
     sa_lineAcceptedRequestId := response ≫= fun r => truthy (pr_acceptedRequestId r);
     sa_sentMessageIds := default [] (response ≫= pr_sentMessageIds) |}.

(** The binding of a delivery in Governance's commands. *)
Definition bound_command (e : OutboxEntry) (c : LineSubmitCommand) : prog DeliveryCommand :=
  let i := ob_identity e in
  tenant ← branded_id tenantId "TenantId";
  reservation ← branded_id (ob_reservationId i) "ReservationId";
  action ← branded_id (ob_actionKey i) "ActionKey";
  ret (DeliveryCommand_ tenant (sm_correlationId c) reservation action).

(** [advance] with a state alone. *)
Definition to_state (s : DlDeliveryState) : OutboxPatch := OutboxPatch_ s None None None None.

(** The submission barrier. *)
Definition cross_barrier (e : OutboxEntry) (c : LineSubmitCommand) : prog unit :=
  command ← bound_command e c;
  delivery ← branded_id (ob_delivery e) "DeliveryId";
  key ← branded_id (retry_key e) "ProviderRequestKey";
  govern (C_begin (BeginInput command delivery (ob_leaseVersion (ob_identity e)) key)) ;;
  transact (advance LINE_MESSAGING_API (sm_deliveryId c) [QUEUED] (to_state SUBMITTING)) ;;
  at_ ← now;
  commitDelivery (sm_deliveryId c) at_ ;;
  emit e POST_BARRIER (sm_correlationId c) None.

(** The command that settles a delivery. *)
Definition settle_command (e : OutboxEntry) (c : LineSubmitCommand) (code : LineProviderOutcomeCode)
  (outcome : NormalizedDeliveryOutcome) (scope : option DeliveryRejectionScope) : prog SettlementView :=
  command ← bound_command e c;
  delivery ← branded_id (ob_delivery e) "DeliveryId";
  key ← branded_id (retry_key e) "ProviderRequestKey";
  ref ← branded_id (outcome_ref e code) "OutcomeRef";
  at_ ← now;
  govern (C_settle (SettleInput command delivery key ref outcome scope (toISOString at_))).

(** The states a receipt may find a row in. *)
Definition in_flight : list DlDeliveryState := [SUBMITTING; RECONCILING].

(** [settle] *)
Definition settle_row (e : OutboxEntry) (c : LineSubmitCommand) (code : LineProviderOutcomeCode) : prog unit :=
  settledAt ← now;
  transact (advance LINE_MESSAGING_API (sm_deliveryId c) [SUBMITTING; SUBMITTED; RECONCILING]
    (OutboxPatch_ SETTLED None (Some settledAt)
       (Some (if bool_decide (lineNormalizedOutcome code = Terminal PROVIDER_ACCEPTED) then PROVIDER_ACCEPTED else PROVIDER_REJECTED))
       (Some (outcome_ref e code)))) ;;
  at_ ← now;
  exitUnknownReconciling (sm_deliveryId c) at_ ;;
  emit e LC_SETTLED (sm_correlationId c) (Some code).

Definition confirm_accepted (e : OutboxEntry) (c : LineSubmitCommand) (code : LineProviderOutcomeCode) (attemptNo : Z)
  : prog LineSubmitOutcome :=
  command ← bound_command e c;
  delivery ← branded_id (ob_delivery e) "DeliveryId";
  key ← branded_id (retry_key e) "ProviderRequestKey";
  govern (C_confirm (ConfirmInput command delivery key)) ;;
  submittedAt ← now;
  transact (advance LINE_MESSAGING_API (sm_deliveryId c) in_flight (OutboxPatch_ SUBMITTED (Some submittedAt) None None None)) ;;
  emit e LC_ACCEPTED (sm_correlationId c) (Some code) ;;
  settle_command e c code (lineNormalizedOutcome code) None ;;
  settle_row e c code ;;
  ret (OUT_ACCEPTED code attemptNo).

(** [killOnSignal] of the gate of a scope, where there is one. *)
Definition kill_scope (scope : LineGateScope) (signal : LineControlSignal) : prog unit :=
  gate ← query (findGate scope);
  match gate with
  | Some g => at_ ← now; killOnSignal g signal at_ ;; ret tt
  | None => ret tt
  end.

Definition reject (e : OutboxEntry) (c : LineSubmitCommand) (code : LineProviderOutcomeCode) (scope : DeliveryRejectionScope) (attemptNo : Z)
  : prog LineSubmitOutcome :=
  settlement ← lift (match lineProviderSettlement code (Some scope) with Ok s => Ok s | Err x => Err (OutcomeScopeThrown x) end);
  settle_command e c code (lineNormalizedOutcome code) (Some (if sp_countsAsAttempt settlement then RECIPIENT else OPERATIONAL)) ;;
  (if bool_decide (code = LINE_AUTH_INVALID) || bool_decide (code = LINE_MONTHLY_QUOTA_EXHAUSTED)
   then kill_scope (sm_scope c) (if bool_decide (code = LINE_AUTH_INVALID) then AUTH_FAILURE else QUOTA_EXHAUSTED) else ret tt) ;;
  settle_row e c code ;;
  ret (OUT_REJECTED code scope attemptNo).

Definition markReconciling (e : OutboxEntry) (c : LineSubmitCommand) (code : LineProviderOutcomeCode) (attemptNo : Z)
  (content : LineResolvedContent) : prog LineSubmitOutcome :=
  transact (advance LINE_MESSAGING_API (sm_deliveryId c) in_flight (to_state RECONCILING)) ;;
  gate ← query (findGate (sm_scope c));
  match gate with
  | Some g =>
      at_ ← now;
      enterUnknownReconciling (run_command_of (SubmitCommand (sm_deliveryId c) (sm_scope c) (sm_runAuthorizationId c)
        (sm_recipientFingerprint c) (sm_recipientProtectedRef c) (sm_correlationId c) None) content at_) (gt_id g)
        (sm_runAuthorizationId c) ;;
      ret tt
  | None => ret tt
  end ;;
  settle_command e c code UNKNOWN_RECONCILING None ;;
  emit e LC_RECONCILING (sm_correlationId c) (Some code) ;;
  at_ ← now;
  ret (OUT_RECONCILING code attemptNo (at_ + lineBackoffMs attemptNo)).

Definition quarantine (e : OutboxEntry) (c : LineSubmitCommand) (attemptNo : Z) : prog LineSubmitOutcome :=
  transact (advance LINE_MESSAGING_API (sm_deliveryId c) in_flight (to_state RECONCILING)) ;;
  kill_scope (sm_scope c) UNKNOWN_OUTCOME_EXPIRED ;;
  emit e LC_RECONCILING (sm_correlationId c) (Some LINE_RETRY_WINDOW_EXPIRED) ;;
  ret (OUT_QUARANTINED attemptNo).

(** What [attempt] does with the answer. *)
Definition conclude (e : OutboxEntry) (c : LineSubmitCommand) (answer : LineTransportResult) (attemptNo : Z)
  (content : LineResolvedContent) : prog LineSubmitOutcome :=
  let k := classifyLineResponse answer in
  if lc_accepted k then confirm_accepted e c (lc_outcomeCode k) attemptNo
  else if negb (lc_reconcile k) then
    match lc_rejectionScope k with
    | Some scope => reject e c (lc_outcomeCode k) scope attemptNo
    | None => throw (OutcomeScopeThrown (LineOutcomeScopeError (lc_outcomeCode k) None))
    end
  else markReconciling e c (lc_outcomeCode k) attemptNo content.

(** The request, its receipt, and what follows of it. *)
Definition send (e : OutboxEntry) (c : LineSubmitCommand) (canonical : LineCanonicalRequest) (userId accessToken : string)
  (attemptNo : Z) (content : LineResolvedContent) : prog LineSubmitOutcome :=
  startedAt ← now;
  answer ← push (PushRequest userId (cq_messages canonical) (retry_key e) accessToken);
  finishedAt ← now;
  id ← newId;
  let k := classifyLineResponse answer in
  outcomeClass ← lift (match assertLineOutcomeScope (lc_outcomeCode k) (lc_rejectionScope k) with
                       | Ok oc => Ok oc | Err x => Err (OutcomeScopeThrown x) end);
  record_receipt (receipt_of id (sm_deliveryId c) (retry_key e) attemptNo (cq_providerPayloadDigest canonical) startedAt finishedAt
                    answer outcomeClass) ;;
  conclude e c answer attemptNo content.

Definition attempt (e : OutboxEntry) (c : LineSubmitCommand) (canonical : LineCanonicalRequest) (grant : LineRunGrant) (attemptNo : Z)
  (content : LineResolvedContent) : prog LineSubmitOutcome :=
  at_ ← now;
  reserved ← reserveProviderAttempt actor (run_command_of c content at_) (rg_gate grant) (rg_run grant) attemptNo;
  match reserved with
  | DENIED code => ret (OUT_DENIED (gate_error_text code))
  | _ =>
      recipient ← query (fun w => lo_recipients (lw_outside w) (sm_recipientProtectedRef c));
      credential ← query (fun w => lo_tokens (lw_outside w) (cd_id (cd_meta (rg_credential grant))) (cd_version (cd_meta (rg_credential grant))));
      match recipient, credential with
      | Some userId, Some accessToken =>
          (if bool_decide (ob_state e = QUEUED) then cross_barrier e c else ret tt) ;;
          send e c canonical userId accessToken attemptNo content
      | _, _ => ret (OUT_DENIED "LINE_CREDENTIAL_UNAVAILABLE")
      end
  end.

(** Whether the window of the first attempt is over. *)
Definition window_over (first : option SubmissionAttempt) : prog bool :=
  match first with
  | Some a => at_ ← now; ret (lineRetryWindowExpired (sa_startedAt a) at_)
  | None => ret false
  end.

Definition reconcile (c : LineSubmitCommand) (granted : option LineRunGrant) : prog LineSubmitOutcome :=
  e ← require_entry c;
  if bool_decide (ob_state e = SETTLED) then ret (OUT_NOOP true)
  else if bool_decide (ob_state e = SUBMITTED) then ret (OUT_NOOP false)
  else
    content ← resolve_content e;
    let canonical := buildLineCanonicalRequestFrom content (sm_recipientFingerprint c) in
    history ← query (listAttempts (sm_deliveryId c));
    let attemptNo := Z.of_nat (length history) + 1 in
    expired ← window_over (head history);
    if (expired : bool) then quarantine e c (attemptNo - 1)
    else
      match granted with
      | Some grant => attempt e c canonical grant attemptNo content
      | None =>
          at' ← now;
          result ← beginRun actor (run_command_of c content at');
          match result with
          | AUTHORIZED grant => attempt e c canonical grant attemptNo content
          | RUN_DENIED _ => ret (OUT_DENIED "LINE_GATE_AUTHORIZATION_DENIED")
          end
      end.

Definition submit (c : LineSubmitCommand) : prog LineSubmitOutcome :=
  e ← require_entry c;
  if bool_decide (ob_state e = SETTLED) then ret (OUT_NOOP true)
  else if bool_decide (ob_state e = SUBMITTED) then ret (OUT_NOOP false)
  else if negb (bool_decide (ob_state e = QUEUED)) then reconcile c None
  else
    content ← resolve_content e;
    let canonical := buildLineCanonicalRequestFrom content (sm_recipientFingerprint c) in
    at_ ← now;
    result ← beginRun actor (run_command_of c content at_);
    match result with
    | RUN_DENIED d => ret (OUT_DENIED (gate_error_text (gd_code d)))
    | AUTHORIZED grant =>
        match rg_barrier grant with
        | POST => reconcile c (Some grant)
        | PRE _ => emit e PRE_BARRIER (sm_correlationId c) None ;; attempt e c canonical grant 1 content
        end
    end.
End Adapter.
