(* ===== verification/LineInvariant.v ===== *)
(** * LineInvariant: what holds of the LINE tables between any two calls

    The invariant of the tables, how their rows may move, and what each repository's transaction keeps. *)
From stdpp Require Import base tactics list strings relations.
From Stdlib Require Import ZArith Lia.
From S2P Require Import Prelude JsMap Text JsDate JsValue Contracts ScopeKey Persistence ReservationRuntime DeliveryCommands Program LineDelivery LineControlPolicy LineTables LineStore LineLedger.

Open Scope string_scope.
Open Scope Z_scope.
Open Scope list_scope.

(** ** Rows that move *)

(** Every row is found again, moved by [R]. *)
Definition grows {A} (R : A -> A -> Prop) (l l' : list A) : Prop := forall x, In x l -> exists y, In y l' /\ R x y.

#[export] Instance grows_preorder {A} (R : A -> A -> Prop) `{!PreOrder R} : PreOrder (grows R).
Proof.
  split; [intros l x Hx; by exists x|]. intros l1 l2 l3 H12 H23 x Hx. destruct (H12 x Hx) as (y & Hy & Hxy).
  destruct (H23 y Hy) as (z & Hz & Hyz). exists z. split; [done|by etrans].
Qed.

Lemma grows_snoc {A} (R : A -> A -> Prop) `{!PreOrder R} l x : grows R l (l ++ [x]).
Proof. intros y Hy. exists y. split; [apply in_app_iff; by left|done]. Qed.

(** Updates a trigger let pass. *)
Definition allowed_by {A} (guard : A -> A -> option string) : A -> A -> Prop := rtc (fun x y => guard x y = None).

#[export] Instance allowed_by_preorder {A} (guard : A -> A -> option string) : PreOrder (allowed_by guard).
Proof. unfold allowed_by. apply _. Qed.

(** A property an update keeps, at every later row. *)
Lemma allowed_by_keeps {A} guard (P : A -> Prop) x y : (forall a b, guard a b = None -> P a -> P b) -> allowed_by guard x y -> P x -> P y.
Proof. intros Hk. induction 1 as [|a b c Hab _ IH]; [done|]. intros Ha. by eapply IH, Hk. Qed.

Lemma update_guarded_grows {A} (guard : A -> A -> option string) p f (rows : list A) n rows' :
  update_guarded guard p f rows = Ok (n, rows') ->
  rows' = update_where p f rows /\ grows (allowed_by guard) rows rows' /\
  forall y, In y rows' -> In y rows \/ exists x, In x rows /\ p x = true /\ y = f x /\ guard x y = None.
Proof.
  intros Hu. apply update_guarded_ok in Hu as (_ & He & Hf). split; [done|]. clear He. split.
  - intros x Hx. destruct (Forall2_In_l _ _ _ _ Hf Hx) as (y & Hy & [-> |(_ & -> & Hg)]); [by exists x|].
    exists (f x). split; [done|]. by apply rtc_once.
  - intros y Hy. destruct (Forall2_In_r _ _ _ _ Hf Hy) as (x & Hx & [-> |(Hp & -> & Hg)]); [by left|right]. by exists x.
Qed.

(** ** Gates *)

Lemma guard_gate_check old new : dl_line_guard_scope_gate old new = None -> gate_check new = true.
Proof. unfold dl_line_guard_scope_gate. intros Hg. by repeat (destruct (_ : bool); try done). Qed.

(** What an update the trigger lets pass does to a gate: its version counts it, it moves up by one state
    at most, not at all when it is killed, and a kill is lifted only into [DISABLED]. *)
Lemma guard_gate old new : dl_line_guard_scope_gate old new = None ->
  gt_id new = gt_id old /\ gt_scope new = gt_scope old /\ gt_version new = gt_version old + 1 /\
  rolloutRank (gt_businessState new) <= rolloutRank (gt_businessState old) + 1 /\
  (gt_killed old = true -> gt_killed new = false -> gt_businessState new = DISABLED).
Proof.
  unfold dl_line_guard_scope_gate. destruct (negb (_ && _)) eqn:Hid; [done|]. destruct (negb (_ =? _)) eqn:Hv; [done|].
  destruct (_ <? _) eqn:Hr; [done|]. destruct (_ && _) in |- *; [done|]. intros Hg. bool_prop. split_and?; try done; try lia.
  intros Hk Hk'. rewrite Hk, Hk' in Hg. cbn in Hg. destruct (_ || _); [done|]. destruct (negb (bool_decide (gt_businessState new = _))) eqn:Hs; [done|]. by bool_prop.
Qed.

(** ** Authorizations *)

(** Approved for the tenant and for Compliance, by no one who proposed it. *)
Definition approvals (r : RunAuthorization) : list (string * Z) :=
  match ru_tenantAdminApproved r with Some a => [a] | None => [] end ++ match ru_complianceApproved r with Some a => [a] | None => [] end.
Definition both_approved (r : RunAuthorization) : Prop := is_Some (ru_tenantAdminApproved r) /\ is_Some (ru_complianceApproved r).
Definition run_wf (r : RunAuthorization) : Prop :=
  run_check r = true /\ forall a, In a (approvals r) -> fst a <> rp_proposedBy (ru_proposal r).

Lemma guard_run old new : dl_line_guard_run_authorization old new = None ->
  run_check new = true /\ ru_proposal new = ru_proposal old /\ (both_approved old -> both_approved new) /\
  (is_Some (ru_consumed old) -> run_check old = true -> False).
Proof.
  unfold dl_line_guard_run_authorization. intros Hg. destruct (includes _ (ru_state old)) eqn:Hc; [done|].
  destruct (negb (bool_decide (ru_proposal new = _))) eqn:Hp; [done|].
  destruct (_ || _) eqn:Ha; [done|]. apply orb_false_elim in Ha as [Ha1 Ha2].
  destruct (bool_decide (ru_state old = RUN_APPROVED) && _); [done|]. destruct (negb (run_transition _ _)); [done|].
  destruct (run_check new) eqn:Hn; [|done]. bool_prop. split; [done|]. split; [done|]. split.
  - intros [Ht Hco]. apply andb_false_iff in Ha1 as [H|H]; [by bool_prop|]. apply andb_false_iff in Ha2 as [H'|H']; [by bool_prop|].
    bool_prop. unfold both_approved. by rewrite H, H'.
  - intros Hs Ho. unfold run_check in Ho. bool_prop.
    match goal with H : Bool.eqb (bool_decide (ru_state old = RUN_CONSUMED)) _ = true |- _ => apply Bool.eqb_prop in H; rewrite (bool_decide_eq_true_2 _ Hs) in H end.
    bool_prop. apply not_true_iff_false in Hc. apply Hc, includes_spec. left. done.
Qed.

(** Later than a row: its proposal, its approvals, and what consumed it. *)
Definition run_later (r r' : RunAuthorization) : Prop :=
  ru_proposal r' = ru_proposal r /\ (both_approved r -> both_approved r') /\ (forall c, ru_consumed r = Some c -> ru_consumed r' = Some c).

Lemma allowed_run_later r r' : run_wf r -> allowed_by dl_line_guard_run_authorization r r' -> run_later r r'.
Proof.
  intros [Hw _]. induction 1 as [r|a b c Hab _ IH]; [done|]. destruct (guard_run _ _ Hab) as (Hc & Hp & Ha & Hcons).
  destruct (IH Hc) as (Hp' & Ha' & Hcons'). split; [congruence|]. split; [auto|]. intros x Hx. exfalso. apply Hcons; [by rewrite Hx|done].
Qed.

(** ** Units of the ledger *)

Lemma guard_cap old new : dl_line_guard_cap_ledger old new = None ->
  cap_check new = true /\ ce_unit new = ce_unit old /\ ce_state old = CAP_RESERVED.
Proof.
  unfold dl_line_guard_cap_ledger. destruct (negb (bool_decide (ce_state old = _))) eqn:Hs; [done|].
  destruct (negb (bool_decide (ce_unit new = _))) eqn:Hu; [done|]. destruct (cap_check new); [|done]. by bool_prop.
Qed.

Lemma allowed_cap_unit e e' : allowed_by dl_line_guard_cap_ledger e e' -> ce_unit e' = ce_unit e.
Proof. induction 1 as [|a b c Hab _ IH]; [done|]. destruct (guard_cap _ _ Hab) as (_ & Hu & _). congruence. Qed.

Lemma guard_allowlist old new : dl_line_guard_allowlist old new = None -> al_tuple new = al_tuple old.
Proof. unfold dl_line_guard_allowlist. destruct (bool_decide _); [done|]. destruct (negb _) eqn:E; [done|]. by bool_prop. Qed.

Lemma allowed_tuple a a' : allowed_by dl_line_guard_allowlist a a' -> al_tuple a' = al_tuple a.
Proof. induction 1 as [|a b c Hab _ IH]; [done|]. rewrite IH. by apply guard_allowlist. Qed.

(** A logical delivery is that of an authorization of its gate, approved by both, for the recipient of
    its entry of the allowlist, and where it is a pilot's, consumed by the delivery. *)
Definition unit_authorized (runs : list RunAuthorization) (allowlist : list AllowlistEntry) (u : CapUnit) : Prop :=
  exists r a, In r runs /\ ru_id r = cu_runAuthorizationId u /\ ru_gateId r = cu_gateId u /\ both_approved r /\
    (is_trial (ru_proposal r) = true \/ snd <$> ru_consumed r = Some (cu_deliveryId u)) /\
    In a allowlist /\ al_id (al_tuple a) = rp_allowlistEntryId (ru_proposal r) /\
    al_recipientFingerprint (al_tuple a) = cu_recipientFingerprint u.

Definition unit_wf (runs : list RunAuthorization) (allowlist : list AllowlistEntry) (e : CapLedgerEntry) : Prop :=
  cap_check e = true /\ (cu_capKind (ce_unit e) = LOGICAL_DELIVERY -> unit_authorized runs allowlist (ce_unit e)).

Lemma unit_authorized_later runs runs' allowlist allowlist' u : grows run_later runs runs' ->
  grows (allowed_by dl_line_guard_allowlist) allowlist allowlist' -> unit_authorized runs allowlist u -> unit_authorized runs' allowlist' u.
Proof.
  intros Hr Ha (r & a & Hin & Hid & Hg & Hb & Hc & Hain & Haid & Haf). destruct (Hr r Hin) as (r' & Hin' & Hp & Hb' & Hc').
  destruct (Ha a Hain) as (a' & Hain' & Hat). apply allowed_tuple in Hat. exists r', a'. unfold ru_id, ru_gateId in *. rewrite Hp, Hat.
  split_and?; auto. destruct Hc as [Hc|Hc]; [by left|right]. destruct (ru_consumed r) as [x|]; [|done]. by rewrite (Hc' x eq_refl).
Qed.

(** ** Receipts *)

Definition of_delivery (deliveryId : string) (a : SubmissionAttempt) : bool := bool_decide (sa_deliveryId a = deliveryId).
Definition unknown_outcome (a : SubmissionAttempt) : Prop := sa_outcomeClass a = CLASS_RETRYABLE_UNKNOWN.

(** The receipts of a delivery are numbered from one, and only the last one knows the outcome. *)
Definition receipts_of (rows : list SubmissionAttempt) (deliveryId : string) : Prop :=
  let l := js_filter (of_delivery deliveryId) rows in
  map sa_attemptNo l = seqZ 1 (Z.of_nat (length l)) /\ Forall unknown_outcome (removelast l).

Definition receipts_wf (rows : list SubmissionAttempt) : Prop :=
  (forall d, receipts_of rows d) /\ forall a, In a rows -> attempt_check a = true.

Lemma guard_attempt rows a : dl_line_guard_attempt_insert rows a = None ->
  attempt_check a = true /\ Forall unknown_outcome (js_filter (of_delivery (sa_deliveryId a)) rows) /\
  (1 < sa_attemptNo a -> exists b, In b (js_filter (of_delivery (sa_deliveryId a)) rows) /\ sa_attemptNo b = sa_attemptNo a - 1).
Proof.
  unfold dl_line_guard_attempt_insert. fold (of_delivery (sa_deliveryId a)).
  destruct (_ && negb (js_some _ _)) eqn:Hs; [done|]. destruct (js_some _ _) eqn:Hu in |- *; [done|]. destruct (_ && _) in |- *; [done|].
  destruct (attempt_check a); [|done]. intros _. split; [done|]. split.
  - apply Forall_forall. intros b Hb. apply list_elem_of_In in Hb. destruct (decide (unknown_outcome b)) as [|Hn]; [done|].
    exfalso. apply not_true_iff_false in Hu. apply Hu, existsb_exists. exists b. split; [done|]. unfold unknown_outcome in Hn. by rewrite bool_decide_eq_false_2.
  - intros Hlt. rewrite (proj2 (Z.ltb_lt _ _) Hlt) in Hs. cbn in Hs. bool_prop. apply existsb_exists in Hs as (b & Hb & Hno). bool_prop. eauto.
Qed.

Lemma receipts_snoc rows a : receipts_wf rows -> dl_line_guard_attempt_insert rows a = None ->
  (forall b, In b rows -> sa_deliveryId b = sa_deliveryId a -> sa_attemptNo b <> sa_attemptNo a) -> receipts_wf (rows ++ [a]).
Proof.
  intros [Hr Hc] Hg Hu. destruct (guard_attempt _ _ Hg) as (Hca & Hun & Hseq). split.
  - intros d. specialize (Hr d). unfold receipts_of in *. rewrite List.filter_app. cbn. destruct (of_delivery d a) eqn:Hd; [|by rewrite app_nil_r].
    unfold of_delivery in Hd. bool_prop. subst d. set (l := js_filter _ rows) in *. destruct Hr as [Hn _].
    rewrite removelast_last. split; [|done]. rewrite map_app, Hn, length_app. cbn.
    rewrite Nat2Z.inj_add, seqZ_app by lia. f_equal.
    assert (Hno : sa_attemptNo a = 1 + Z.of_nat (length l)); [|by rewrite Hno].
    assert (Hfresh : ~ In (sa_attemptNo a) (map sa_attemptNo l)).
    { intros Hin. apply in_map_iff in Hin as (b & Hb & Hbl). apply filter_In in Hbl as [Hbl Hbd]. unfold of_delivery in Hbd. bool_prop. by apply (Hu b). }
    rewrite Hn, <- list_elem_of_In, elem_of_seqZ in Hfresh. unfold attempt_check in Hca. bool_prop.
    destruct (Z.ltb_spec 1 (sa_attemptNo a)) as [Hlt|Hle]; [|lia].
    destruct (Hseq Hlt) as (b & Hb & Hbn). assert (Hin : In (sa_attemptNo b) (map sa_attemptNo l)) by (by apply in_map).
    rewrite Hn, <- list_elem_of_In, elem_of_seqZ in Hin. lia.
  - intros b Hb. apply in_app_iff in Hb as [Hb|[<-|[]]]; auto.
Qed.

(** ** Rows of the outbox *)

Definition ob_rank (s : DlDeliveryState) : Z :=
  match s with QUEUED => 0 | SUBMITTING => 1 | RECONCILING => 2 | SUBMITTED => 3 | SETTLED => 4 end.

(** Later than a row: the same delivery, no further back, and as it was once it settled. *)
Definition ob_later (e e' : OutboxEntry) : Prop :=
  ob_identity e' = ob_identity e /\ ob_rank (ob_state e) <= ob_rank (ob_state e') /\ (ob_state e = SETTLED -> e' = e).

#[export] Instance ob_later_preorder : PreOrder ob_later.
Proof.
  split; [by intros e|]. intros e1 e2 e3 (Hi & Hr & Hs) (Hi' & Hr' & Hs'). split; [congruence|]. split; [lia|].
  intros H. specialize (Hs H). subst. auto.
Qed.

Lemma not_queued e e' : ob_later e e' -> ob_state e <> QUEUED -> ob_state e' <> QUEUED.
Proof. intros (_ & Hr & _) Hn He. rewrite He in Hr. destruct (ob_state e); cbn in Hr; [done|lia..]. Qed.

(** The submission of a reservation has begun. *)
Definition begun (rows : list ReservationRow) (reservationId : string) : Prop :=
  exists r, In r rows /\ rv_id r = reservationId /\ is_Some (rv_submissionStartedAt r).

(** A receipt of a delivery that says so. *)
Definition receipt_says (attempts : list SubmissionAttempt) (deliveryId : string) (outcome : TerminalDeliveryOutcome) : Prop :=
  exists a, In a attempts /\ sa_deliveryId a = deliveryId /\ lineNormalizedOutcome (sa_outcomeCode a) = Terminal outcome.

(** A row past the barrier has its reservation submitted, and has no outcome but that of a receipt. *)
Record row_wf (attempts : list SubmissionAttempt) (rows : list ReservationRow) (e : OutboxEntry) : Prop := {
  rw_begun : ob_state e <> QUEUED -> begun rows (ob_reservationId (ob_identity e));
  rw_accepted : ob_state e = SUBMITTED -> receipt_says attempts (ob_delivery e) PROVIDER_ACCEPTED;
  rw_settled : ob_state e = SETTLED -> exists o, ob_outcome e = Some o /\ receipt_says attempts (ob_delivery e) o;
  rw_open : ob_state e <> SETTLED -> ob_outcome e = None;
}.

(** Later than a reservation: a submission is not taken back. *)
Definition rv_later (r r' : ReservationRow) : Prop :=
  rv_id r' = rv_id r /\ (is_Some (rv_submissionStartedAt r) -> is_Some (rv_submissionStartedAt r')).

#[export] Instance rv_later_preorder : PreOrder rv_later.
Proof. split; [by intros r|]. intros r1 r2 r3 [Hi Hs] [Hi' Hs']. split; [congruence|auto]. Qed.

Lemma row_step_later r r' : row_ok r -> row_step r r' -> rv_later r r'.
Proof.
  intros (p & Hp & Hr) Hs. split; [by apply row_step_id|]. destruct Hs as [_ Hm]. destruct (Hm p Hp Hr) as (p' & Hp' & Hmv).
  assert (Hsub : forall q x, has_phase x q -> is_Some (rv_submissionStartedAt x) <-> is_Some (submission_of q)).
  { intros q x Hq. unfold has_phase in Hq. unfold rv_submissionStartedAt.
    destruct q; cbn in Hq; injection Hq as _ -> _; cbn; split; intros [? ?]; try done; by eexists. }
  rewrite (Hsub p r Hp), (Hsub p' r' Hp'). intros [x Hx]. exists x.
  eapply submission_stays; [exact Hx|]. destruct Hmv as [-> |Hmv]; [apply rtc_refl|by apply rtc_once].
Qed.

Lemma begun_later rows rows' id : grows rv_later rows rows' -> begun rows id -> begun rows' id.
Proof. intros Hg (r & Hr & Hid & Hs). destruct (Hg r Hr) as (r' & Hr' & Hid' & Hs'). exists r'. split; [done|]. split; [congruence|auto]. Qed.

Lemma receipt_says_later attempts attempts' d o : (forall a, In a attempts -> In a attempts') -> receipt_says attempts d o -> receipt_says attempts' d o.
Proof. intros Hi (a & Ha & H). exists a. auto. Qed.

Lemma row_wf_later attempts attempts' rows rows' e : (forall a, In a attempts -> In a attempts') -> grows rv_later rows rows' ->
  row_wf attempts rows e -> row_wf attempts' rows' e.
Proof.
  intros Ha Hr [Hb Hac Hs Ho]. constructor; [|intros He|intros He|done].
  - intros Hn. eapply begun_later; [exact Hr|auto].
  - eapply receipt_says_later; [exact Ha|auto].
  - destruct (Hs He) as (o & Hoo & Hsays). exists o. split; [done|]. by eapply receipt_says_later.
Qed.

(** ** Requests *)

(** A unit of a delivery is in the ledger. *)
Definition has_unit (ledger : list CapLedgerEntry) (deliveryId : string) (k : LineCapKind) : Prop :=
  exists x, In x ledger /\ cu_deliveryId (ce_unit x) = deliveryId /\ cu_capKind (ce_unit x) = k.

Lemma has_unit_later ledger ledger' d k : grows (allowed_by dl_line_guard_cap_ledger) ledger ledger' -> has_unit ledger d k -> has_unit ledger' d k.
Proof. intros Hg (x & Hx & H). destruct (Hg x Hx) as (y & Hy & Hxy). apply allowed_cap_unit in Hxy. exists y. rewrite Hxy. auto. Qed.

(** A request is that of a delivery past the barrier: under its key, with its content, and with units of
    the ledger for the delivery and for an attempt. *)
Definition request_wf (content_of : string -> option LineResolvedContent) (outbox : list OutboxEntry) (ledger : list CapLedgerEntry)
  (q : LinePushRequest) : Prop :=
  exists e content, In e outbox /\ ob_adapter (ob_identity e) = LINE_MESSAGING_API /\
    ob_providerRequestKey (ob_identity e) = pq_retryKey q /\ ob_state e <> QUEUED /\
    content_of (ob_contentRef (ob_identity e)) = Some content /\ pq_messages q = ln_messages content /\
    has_unit ledger (ob_delivery e) LOGICAL_DELIVERY /\ has_unit ledger (ob_delivery e) PROVIDER_ATTEMPT.

Lemma request_wf_later content_of outbox outbox' ledger ledger' q : grows ob_later outbox outbox' ->
  grows (allowed_by dl_line_guard_cap_ledger) ledger ledger' -> request_wf content_of outbox ledger q -> request_wf content_of outbox' ledger' q.
Proof.
  intros Ho Hl (e & content & He & Had & Hk & Hs & Hc & Hm & Hu & Hu'). destruct (Ho e He) as (e' & He' & Hl'). pose proof Hl' as (Hi & _ & _).
  exists e', content. unfold ob_delivery in *. rewrite Hi. split_and?; try done; [by eapply not_queued|by eapply has_unit_later..].
Qed.

(** ** The world *)

(** Attempts and touches are only appended. *)
Definition facts_later (f f' : DeliveryFacts) : Prop :=
  (forall a, In a (df_attempts f) -> In a (df_attempts f')) /\ (forall t, In t (df_touches f) -> In t (df_touches f')).

#[export] Instance facts_later_preorder : PreOrder facts_later.
Proof. split; [by intros f|]. intros f1 f2 f3 [Ha Ht] [Ha' Ht']. split; auto. Qed.

(** A receipt of a submission that began is of a reservation whose submission has begun. *)
Definition begin_receipts (t : RuntimeTables) : Prop :=
  forall k, In k (df_receipts (rt_facts t)) -> cr_operation k = OP_BEGIN_SUBMISSION -> begun (rt_reservations t) (cr_reservationId k).

Section World.
Context (content_of : string -> option LineResolvedContent).

Record line_ok (w : LineWorld) : Prop := {
  ok_gates : forall g, In g (lt_gates (lw_control w)) -> gate_check g = true;
  ok_gate_ids : List.NoDup (map gt_id (lt_gates (lw_control w)));
  ok_runs : forall r, In r (lt_runs (lw_control w)) -> run_wf r;
  ok_run_ids : List.NoDup (map ru_id (lt_runs (lw_control w)));
  ok_keys : List.NoDup (map (fun e => cap_key (ce_unit e)) (lt_ledger (lw_control w)));
  ok_units : forall e, In e (lt_ledger (lw_control w)) -> unit_wf (lt_runs (lw_control w)) (lt_allowlist (lw_control w)) e;
  ok_bounds : forall gateId, gate_bounds (lt_runs (lw_control w)) (lt_ledger (lw_control w)) gateId;
  ok_deliveries : List.NoDup (map ob_delivery (ld_outbox (lw_deliveries w)));
  ok_requests : List.NoDup (map (fun e => ob_providerRequestKey (ob_identity e)) (ld_outbox (lw_deliveries w)));
  ok_outbox : forall e, In e (ld_outbox (lw_deliveries w)) ->
    outbox_check e = true /\ row_wf (ld_attempts (lw_deliveries w)) (rt_reservations (lw_governance w)) e;
  ok_receipts : receipts_wf (ld_attempts (lw_deliveries w));
  ok_runtime : runtime_ok (lw_governance w);
  ok_begun : begin_receipts (lw_governance w);
  ok_pushes : forall q, In q (lo_pushes (lw_outside w)) ->
    request_wf content_of (ld_outbox (lw_deliveries w)) (lt_ledger (lw_control w)) q;
}.

Record line_moves (w w' : LineWorld) : Prop := {
  mv_gates : grows (allowed_by dl_line_guard_scope_gate) (lt_gates (lw_control w)) (lt_gates (lw_control w'));
  mv_allowlist : grows (allowed_by dl_line_guard_allowlist) (lt_allowlist (lw_control w)) (lt_allowlist (lw_control w'));
  mv_runs : grows (allowed_by dl_line_guard_run_authorization) (lt_runs (lw_control w)) (lt_runs (lw_control w'));
  mv_ledger : grows (allowed_by dl_line_guard_cap_ledger) (lt_ledger (lw_control w)) (lt_ledger (lw_control w'));
  mv_outbox : grows ob_later (ld_outbox (lw_deliveries w)) (ld_outbox (lw_deliveries w'));
  mv_attempts : forall a, In a (ld_attempts (lw_deliveries w)) -> In a (ld_attempts (lw_deliveries w'));
  mv_rows : grows rv_later (rt_reservations (lw_governance w)) (rt_reservations (lw_governance w'));
  mv_facts : facts_later (rt_facts (lw_governance w)) (rt_facts (lw_governance w'));
}.

#[export] Instance line_moves_preorder : PreOrder line_moves.
Proof.
  split; [intros w; constructor; try reflexivity; auto|].
  intros w1 w2 w3 [] []. constructor; try (by etrans); auto.
Qed.

(** What a transaction has to do. *)
Definition keeps (w w' : LineWorld) : Prop := line_ok w -> line_ok w' /\ line_moves w w'.

Lemma keeps_refl w : keeps w w.
Proof. by intros Hw. Qed.

Ltac kept := intros [] ; split; [constructor|constructor]; cbn; try assumption; try reflexivity; auto.

Lemma keeps_gates w gates : grows (allowed_by dl_line_guard_scope_gate) (lt_gates (lw_control w)) gates ->
  (forall g, In g gates -> In g (lt_gates (lw_control w)) \/ gate_check g = true) ->
  (List.NoDup (map gt_id (lt_gates (lw_control w))) -> List.NoDup (map gt_id gates)) -> keeps w (with_control (set_gates gates) w).
Proof. intros Hg Hc Hids. kept. intros g Hin. destruct (Hc g Hin); auto. Qed.

Lemma keeps_allowlist w rows : grows (allowed_by dl_line_guard_allowlist) (lt_allowlist (lw_control w)) rows ->
  keeps w (with_control (set_allowlist rows) w).
Proof.
  intros Hg. kept. intros e He. destruct (ok_units0 e He) as [Hc Hu]. split; [done|]. intros Hk. eapply unit_authorized_later; [|exact Hg|auto].
  intros r Hr. exists r. split; [done|]. by unfold run_later.
Qed.

Lemma keeps_credentials w rows : keeps w (with_control (set_credentials rows) w).
Proof. kept. Qed.

Lemma keeps_audit w rows : keeps w (with_control (set_audit rows) w).
Proof. kept. Qed.

Lemma keeps_events w rows : keeps w (with_deliveries (set_events rows) w).
Proof. kept. Qed.

Lemma keeps_outside w f : lo_pushes (f (lw_outside w)) = lo_pushes (lw_outside w) -> keeps w (with_outside f w).
Proof. intros Hp. kept. by rewrite Hp. Qed.

Lemma keeps_runs w runs : grows (allowed_by dl_line_guard_run_authorization) (lt_runs (lw_control w)) runs ->
  (forall r, In r runs -> In r (lt_runs (lw_control w)) \/ run_wf r) ->
  (List.NoDup (map ru_id (lt_runs (lw_control w))) -> List.NoDup (map ru_id runs)) -> keeps w (with_control (set_runs runs) w).
Proof.
  intros Hg Hc Hids. kept.
  - intros r Hr. destruct (Hc r Hr); auto.
  - intros e He. destruct (ok_units0 e He) as [Hch Hu]. split; [done|]. intros Hk. eapply unit_authorized_later; [|reflexivity|auto].
    intros r Hr. destruct (Hg r Hr) as (r' & Hr' & Hal). exists r'. split; [done|]. apply allowed_run_later; auto.
  - intros g. eapply gate_bounds_runs; [|auto]. intros r Hr. destruct (Hg r Hr) as (r' & Hr' & Hal). exists r'. split; [done|].
    by apply (allowed_run_later r r' (ok_runs0 r Hr)).
Qed.

Lemma keeps_ledger w rows : grows (allowed_by dl_line_guard_cap_ledger) (lt_ledger (lw_control w)) rows ->
  List.NoDup (map (fun e => cap_key (ce_unit e)) rows) ->
  (forall e, In e rows -> In e (lt_ledger (lw_control w)) \/ unit_wf (lt_runs (lw_control w)) (lt_allowlist (lw_control w)) e) ->
  (forall g, gate_bounds (lt_runs (lw_control w)) rows g) -> keeps w (with_control (set_ledger rows) w).
Proof.
  intros Hg Hn Hc Hb. kept.
  - intros e He. destruct (Hc e He); auto.
  - intros q Hq. eapply request_wf_later; [reflexivity|exact Hg|auto].
Qed.

Lemma keeps_outbox w rows : grows ob_later (ld_outbox (lw_deliveries w)) rows -> List.NoDup (map ob_delivery rows) ->
  List.NoDup (map (fun e => ob_providerRequestKey (ob_identity e)) rows) ->
  (forall e, In e rows -> In e (ld_outbox (lw_deliveries w)) \/
     (outbox_check e = true /\ row_wf (ld_attempts (lw_deliveries w)) (rt_reservations (lw_governance w)) e)) ->
  keeps w (with_deliveries (set_outbox rows) w).
Proof.
  intros Hg Hd Hr Hc. kept.
  - intros e He. destruct (Hc e He); auto.
  - intros q Hq. eapply request_wf_later; [exact Hg|reflexivity|auto].
Qed.

Lemma keeps_attempts w a : receipts_wf (ld_attempts (lw_deliveries w)) -> receipts_wf (ld_attempts (lw_deliveries w) ++ [a]) ->
  keeps w (with_deliveries (set_attempts (ld_attempts (lw_deliveries w) ++ [a])) w).
Proof.
  intros Hr Hr'. assert (Hin : forall b, In b (ld_attempts (lw_deliveries w)) -> In b (ld_attempts (lw_deliveries w) ++ [a]))
    by (intros b Hb; apply in_app_iff; by left).
  kept. intros e He. destruct (ok_outbox0 e He) as [Hc Hw]. split; [done|]. by eapply row_wf_later; [exact Hin|reflexivity|].
Qed.

Lemma keeps_governance w t :
  (line_ok w -> runtime_ok t /\ begin_receipts t /\ grows rv_later (rt_reservations (lw_governance w)) (rt_reservations t) /\
     facts_later (rt_facts (lw_governance w)) (rt_facts t)) ->
  keeps w (with_governance t w).
Proof.
  intros Ht Hw. destruct (Ht Hw) as (Hok & Hb & Hg & Hfl). revert Hw. kept. intros e He. destruct (ok_outbox0 e He) as [Hc Hwf].
  split; [done|]. by eapply row_wf_later; [auto|exact Hg|].
Qed.
End World.
