(* ===== verification/LineTransactions.v ===== *)
(** * LineTransactions: every transaction keeps the invariant

    For each transaction of LineStore, and for the calls of the adapter, that it keeps [line_ok] and moves
    the rows as [line_moves] lets them; with what a caller has to know of the world where it must. *)
From stdpp Require Import base tactics list strings relations.
From Stdlib Require Import ZArith Lia.
From S2P Require Import Prelude JsMap Text JsDate JsValue Contracts ScopeKey Persistence ReservationRuntime DeliveryCommands Program LineDelivery LineControlPolicy LineTables LineStore LineLedger LineControlPlane LineAdapter LineInvariant.

Open Scope string_scope.
Open Scope Z_scope.
Open Scope list_scope.

Section Transactions.
Context (content_of : string -> option LineResolvedContent).
Abbreviation keeps := (keeps content_of).

Lemma keeps_trans w1 w2 w3 : keeps w1 w2 -> keeps w2 w3 -> keeps w1 w3.
Proof. intros H12 H23 Hw. destruct (H12 Hw) as [Hw2 Hm]. destruct (H23 Hw2) as [Hw3 Hm']. split; [done|by etrans]. Qed.

(** ** Gates *)

Lemma guarded_gates w p f n gates : update_guarded dl_line_guard_scope_gate p f (lt_gates (lw_control w)) = Ok (n, gates) ->
  (forall g, gt_id (f g) = gt_id g) -> keeps w (with_control (set_gates gates) w).
Proof.
  intros Hu Hf. apply update_guarded_grows in Hu as (He & Hg & Hin). apply keeps_gates; [done| |by rewrite He, update_where_map]. intros g Hg'.
  destruct (Hin g Hg') as [?|(x & _ & _ & -> & Hx)]; [by left|right; by eapply guard_gate_check].
Qed.

Lemma ensureGate_keeps id scope w g w' : ensureGate id scope w = Ok (g, w') -> keeps w w'.
Proof.
  unfold ensureGate, refuse_if. destruct (findGate scope w); [intros [= _ <-]; apply keeps_refl|]. intros Hok.
  apply bind_throw_if_ok in Hok as [Hu [= _ <-]]. apply (keeps_gates _ w (lt_gates (lw_control w) ++ [_])); [apply grows_snoc, _| |].
  - intros x Hx. apply in_app_iff in Hx as [Hx|[<-|[]]]; [by left|by right].
  - intros Hids. apply NoDup_snoc_map; [done|]. intros Hin. apply in_map_iff in Hin as (x & He & Hx). apply not_true_iff_false in Hu.
    apply Hu, existsb_exists. exists x. split; [done|]. unfold gate_by. by rewrite (bool_decide_eq_true_2 _ He).
Qed.

Lemma compareAndSetGate_keeps id v p w r w' : compareAndSetGate id v p w = Ok (r, w') -> keeps w w'.
Proof. unfold compareAndSetGate, updated_gate. intros Hok. open_bind Hok u Hu. destruct u as [n gates]. injection Hok as _ <-. by eapply guarded_gates; [exact Hu|]. Qed.

Lemma killGate_keeps id reason at_ w r w' : killGate id reason at_ w = Ok (r, w') -> keeps w w'.
Proof. unfold killGate. intros Hok. open_bind Hok u Hu. open_bind Hok g Hg. destruct u as [n gates]. injection Hok as _ <-. by eapply guarded_gates; [exact Hu|]. Qed.

Lemma clearGateKill_keeps id v ref w r w' : clearGateKill id v ref w = Ok (r, w') -> keeps w w'.
Proof. unfold clearGateKill, updated_gate. intros Hok. open_bind Hok u Hu. destruct u as [n gates]. injection Hok as _ <-. by eapply guarded_gates; [exact Hu|]. Qed.

(** ** Allowlist and credentials *)

Lemma addAllowlistEntry_keeps t w r w' : addAllowlistEntry t w = Ok (r, w') -> keeps w w'.
Proof.
  unfold addAllowlistEntry, refuse_if. intros Hok. do 3 apply bind_throw_if_ok in Hok as [_ Hok]. injection Hok as _ <-.
  apply (keeps_allowlist _ w (lt_allowlist (lw_control w) ++ [_])), grows_snoc, _.
Qed.

Lemma revokeAllowlistEntry_keeps id code at_ w r w' : revokeAllowlistEntry id code at_ w = Ok (r, w') -> keeps w w'.
Proof.
  unfold revokeAllowlistEntry. intros Hok. open_bind Hok u Hu. destruct u as [n rows]. injection Hok as _ <-.
  apply update_guarded_grows in Hu as (_ & Hg & _). by apply keeps_allowlist.
Qed.

Lemma registerCredentialRef_keeps m w r w' : registerCredentialRef m w = Ok (r, w') -> keeps w w'.
Proof.
  unfold registerCredentialRef, refuse_if. intros Hok. do 2 apply bind_throw_if_ok in Hok as [_ Hok]. injection Hok as _ <-. apply keeps_credentials.
Qed.

Lemma activateCredentialRef_keeps id v at_ w r w' : activateCredentialRef id v at_ w = Ok (r, w') -> keeps w w'.
Proof.
  unfold activateCredentialRef. destruct (js_find _ _); [|intros [= _ <-]; apply keeps_refl]. intros Hok.
  open_bind Hok u Hu. open_bind Hok v' Hv. injection Hok as _ <-. apply keeps_credentials.
Qed.

Lemma revokeCredentialRef_keeps id at_ w r w' : revokeCredentialRef id at_ w = Ok (r, w') -> keeps w w'.
Proof. unfold revokeCredentialRef. intros Hok. open_bind Hok u Hu. injection Hok as _ <-. apply keeps_credentials. Qed.

(** ** Authorizations *)

Lemma guarded_runs w p f n rows : update_guarded dl_line_guard_run_authorization p f (lt_runs (lw_control w)) = Ok (n, rows) ->
  (forall r a, In r (lt_runs (lw_control w)) -> p r = true -> In a (approvals (f r)) -> In a (approvals r) \/ fst a <> rp_proposedBy (ru_proposal r)) ->
  (forall r, ru_id (f r) = ru_id r) -> keeps w (with_control (set_runs rows) w).
Proof.
  intros Hu Hf Hid Hw. pose proof (ok_runs _ w Hw) as Hruns. revert Hw. apply update_guarded_grows in Hu as (He & Hg & Hin).
  apply keeps_runs; [done| |by rewrite He, update_where_map]. intros r Hr. destruct (Hin r Hr) as [?|(x & Hx & Hp & -> & Hgx)]; [by left|right].
  destruct (guard_run _ _ Hgx) as (Hc & Hprop & _). split; [done|]. rewrite Hprop. intros a Ha.
  destruct (Hf x a Hx Hp Ha) as [Ha'|Ha']; [|done]. by apply (Hruns x Hx).
Qed.

Lemma createRun_keeps p w r w' : createRun p w = Ok (r, w') -> keeps w w'.
Proof.
  unfold createRun, refuse_if. intros Hok. apply bind_throw_if_ok in Hok as [Hc Hok]. apply bind_throw_if_ok in Hok as [Hu Hok].
  apply bind_throw_if_ok in Hok as [_ [= _ <-]]. apply (keeps_runs _ w (lt_runs (lw_control w) ++ [_])); [apply grows_snoc, _| |].
  - intros x Hx. apply in_app_iff in Hx as [Hx|[<-|[]]]; [by left|right]. split; [by bool_prop|done].
  - intros Hids. apply NoDup_snoc_map; [done|]. intros Hin. apply in_map_iff in Hin as (x & He & Hx). apply not_true_iff_false in Hu.
    apply Hu, existsb_exists. exists x. split; [done|]. unfold run_by. by rewrite (bool_decide_eq_true_2 _ He).
Qed.

Lemma approveRun_keeps id compliance actor at_ w r w' :
  (forall x, In x (lt_runs (lw_control w)) -> ru_id x = id -> rp_proposedBy (ru_proposal x) <> actor) ->
  approveRun id compliance actor at_ w = Ok (r, w') -> keeps w w'.
Proof.
  unfold approveRun. intros Hactor Hok. open_bind Hok u Hu. destruct (fst u =? 0); [injection Hok as _ <-; apply keeps_refl|].
  open_bind Hok v Hv. destruct u as [n rows], v as [m rows']. injection Hok as _ <-. cbn in *.
  apply (keeps_trans w (with_control (set_runs rows) w)).
  - eapply guarded_runs; [exact Hu| |done]. intros x a Hx Hp Ha. unfold run_by in Hp. bool_prop.
    assert (Hne : fst (actor, at_) <> rp_proposedBy (ru_proposal x)) by (intros He; by apply (Hactor x Hx)).
    unfold approvals, approved_by in *. destruct compliance; cbn in Ha; rewrite ?in_app_iff in *; cbn in Ha; naive_solver.
  - apply (guarded_runs (with_control (set_runs rows) w) _ _ _ _ Hv); [|done]. intros x a _ _ Ha. by left.
Qed.

Lemma consumeRun_keeps id d at_ w r w' : consumeRun id d at_ w = Ok (r, w') -> keeps w w'.
Proof.
  unfold consumeRun, refuse_if. intros Hok. open_bind Hok u Hu. do 2 apply bind_throw_if_ok in Hok as [_ Hok]. destruct u as [n rows].
  injection Hok as _ <-. eapply guarded_runs; [exact Hu| |done]. intros x a _ _ Ha. by left.
Qed.

Lemma closeRun_keeps id s at_ w r w' : closeRun id s at_ w = Ok (r, w') -> keeps w w'.
Proof.
  unfold closeRun. intros Hok. open_bind Hok u Hu. destruct u as [n rows]. injection Hok as _ <-. eapply guarded_runs; [exact Hu| |done].
  intros x a _ _ Ha. by left.
Qed.

(** ** The ledger *)

(** What [reserveCap] is called with: the limits of the unit's kind, and for a logical delivery an
    authorization that covers it. *)
Definition unit_covered (u : CapUnit) (limits : list LineCapLimit) (w : LineWorld) : Prop :=
  limits_of_unit u (lt_runs (lw_control w)) limits /\
  (cu_capKind u = LOGICAL_DELIVERY -> unit_authorized (lt_runs (lw_control w)) (lt_allowlist (lw_control w)) u).

Lemma reserveCap_ok u limits w r w' : reserveCap u limits w = Ok (r, w') ->
  (w' = w /\ match r with CAP_TAKEN e replay => In e (lt_ledger (lw_control w)) /\ cap_key (ce_unit e) = cap_key u /\ replay = true | _ => True end) \/
  (r = CAP_TAKEN (CapLedgerEntry_ u CAP_RESERVED None) false /\
   w' = with_control (set_ledger (lt_ledger (lw_control w) ++ [CapLedgerEntry_ u CAP_RESERVED None])) w /\
   cap_check (CapLedgerEntry_ u CAP_RESERVED None) = true /\ reached limits u (lt_ledger (lw_control w)) = None /\
   (exists g, In g (lt_gates (lw_control w)) /\ gt_id g = cu_gateId u /\ gt_killed g = false) /\
   forall e, In e (lt_ledger (lw_control w)) -> cap_key (ce_unit e) <> cap_key u).
Proof.
  unfold reserveCap, refuse_if. intros Hok. open_bind Hok g Hg. destruct (js_find _ (lt_ledger _)) as [x|] eqn:Ef.
  - apply bind_throw_if_ok in Hok as [_ [= <- <-]]. left. split; [done|]. apply find_some in Ef as [Hx Hk]. by bool_prop.
  - destruct (gt_killed g) eqn:Hkill; [injection Hok as <- <-; by left|]. destruct (reached _ _ _) eqn:Er; [injection Hok as <- <-; by left|].
    apply bind_throw_if_ok in Hok as [Hc Hok]. do 2 apply bind_throw_if_ok in Hok as [_ Hok]. injection Hok as <- <-. right. bool_prop.
    split_and?; try done.
    + destruct (js_find _ (lt_gates _)) as [g'|] eqn:Eg; [|done]. injection Hg as ->. apply find_some in Eg as [Hin Hid]. unfold gate_by in Hid.
      bool_prop. by exists g.
    + intros e He Hk. eapply List.find_none in Ef; [|exact He]. cbn in Ef. by bool_prop.
Qed.

Lemma reserveCap_keeps u limits w r w' : unit_covered u limits w -> reserveCap u limits w = Ok (r, w') -> keeps w w'.
Proof.
  intros [Hl Ha] Hok. apply reserveCap_ok in Hok as [[-> _]|(_ & -> & Hc & Hr & _ & Hk)]; [apply keeps_refl|].
  intros Hw. pose proof (ok_keys _ w Hw) as Hkeys; pose proof (ok_bounds _ w Hw) as Hbounds. revert Hw.
  apply (keeps_ledger _ w (lt_ledger (lw_control w) ++ [_])).
  - apply grows_snoc, _.
  - apply NoDup_snoc_map; [done|]. intros Hin. apply in_map_iff in Hin as (e & He & Hin). by apply (Hk e).
  - intros e He. apply in_app_iff in He as [He|[<-|[]]]; [by left|right]. by split.
  - intros g. by eapply gate_bounds_unit.
Qed.

Lemma settleCap_keeps d k n s at_ w r w' : settleCap d k n s at_ w = Ok (r, w') -> keeps w w'.
Proof.
  unfold settleCap. intros Hok. open_bind Hok u Hu. destruct u as [m rows]. injection Hok as _ <-.
  apply update_guarded_grows in Hu as (He & Hg & Hin). intros Hw. pose proof (ok_keys _ w Hw) as Hkeys; pose proof (ok_units _ w Hw) as Hunits; pose proof (ok_bounds _ w Hw) as Hbounds. revert Hw.
  apply (keeps_ledger _ w rows); [done|subst rows..].
  - by rewrite update_where_map.
  - intros e Hine. destruct (Hin e Hine) as [?|(x & Hx & _ & -> & Hgx)]; [by left|right].
    destruct (guard_cap _ _ Hgx) as (Hc & Hunit & _). split; [done|]. cbn. by apply (Hunits x Hx).
  - intros g. apply gate_bounds_settled; [|intros x Hx; by bool_prop|done]. intros x. by destruct s.
Qed.

(** ** Records *)

Lemma createAudit_keeps a w r w' : createAudit a w = Ok (r, w') -> keeps w w'.
Proof. unfold createAudit, refuse_if. intros Hok. apply bind_throw_if_ok in Hok as [_ [= _ <-]]. apply keeps_audit. Qed.

Lemma enqueueEvent_keeps e w r w' : enqueueEvent e w = Ok (r, w') -> keeps w w'.
Proof.
  unfold enqueueEvent, refuse_if. destruct (js_find _ _); intros Hok; apply bind_throw_if_ok in Hok as [_ [= _ <-]]; [apply keeps_refl|apply keeps_events].
Qed.

(** ** The outbox *)

Lemma createOutbox_keeps i w r w' : createOutbox i w = Ok (r, w') -> keeps w w'.
Proof.
  unfold createOutbox, refuse_if. intros Hok. apply bind_throw_if_ok in Hok as [Hc Hok]. apply bind_throw_if_ok in Hok as [Hu Hok].
  apply bind_throw_if_ok in Hok as [_ [= _ <-]]. bool_prop. intros Hw. pose proof (ok_deliveries _ w Hw) as Hd; pose proof (ok_requests _ w Hw) as Hr. revert Hw.
  assert (Hfree : forall x, In x (ld_outbox (lw_deliveries w)) -> outbox_clash (ob_identity x) i = false).
  { intros x Hx. apply not_true_iff_false. intros Hcl. apply not_true_iff_false in Hu. apply Hu, existsb_exists. by exists x. }
  apply (keeps_outbox _ w (ld_outbox (lw_deliveries w) ++ [_])).
  - apply grows_snoc, _.
  - apply NoDup_snoc_map; [done|]. intros Hin. apply in_map_iff in Hin as (x & He & Hx). specialize (Hfree x Hx). unfold outbox_clash in Hfree. by bool_prop.
  - apply NoDup_snoc_map; [done|]. intros Hin. apply in_map_iff in Hin as (x & He & Hx). specialize (Hfree x Hx). unfold outbox_clash in Hfree. by bool_prop.
  - intros e He. apply in_app_iff in He as [He|[<-|[]]]; [by left|right]. split; [done|]. by constructor.
Qed.

(** An update of the rows an [advance] takes: each may move so, and is well formed where it comes to. *)
Definition advance_ok (deliveryId : string) (expected : list DlDeliveryState) (p : OutboxPatch) (w : LineWorld) : Prop :=
  forall e, In e (ld_outbox (lw_deliveries w)) -> ob_delivery e = deliveryId -> In (ob_state e) expected ->
    ob_later e (advanced p e) /\
    (row_wf (ld_attempts (lw_deliveries w)) (rt_reservations (lw_governance w)) e ->
     row_wf (ld_attempts (lw_deliveries w)) (rt_reservations (lw_governance w)) (advanced p e)).

Lemma advance_keeps adapter d expected p w r w' : advance_ok d expected p w -> advance adapter d expected p w = Ok (r, w') -> keeps w w'.
Proof.
  unfold advance, refuse_if. intros Ha Hok. apply bind_throw_if_ok in Hok as [Hc Hok]. apply bind_throw_if_ok in Hok as [_ [= _ <-]].
  set (hits := advances adapter d expected) in *. intros Hw. pose proof (ok_deliveries _ w Hw) as Hd; pose proof (ok_requests _ w Hw) as Hr; pose proof (ok_outbox _ w Hw) as Ho. revert Hw.
  assert (Hhit : forall e, In e (ld_outbox (lw_deliveries w)) -> hits e = true -> ob_delivery e = d /\ In (ob_state e) expected).
  { intros e _ Hh. unfold hits, advances, ob_is in Hh. bool_prop. split; [done|]. by apply includes_spec. }
  apply (keeps_outbox _ w (update_where hits (advanced p) (ld_outbox (lw_deliveries w)))).
  - intros e He. destruct (hits e) eqn:Eh.
    + exists (advanced p e). split; [by apply update_where_hit|]. destruct (Hhit e He Eh). by apply Ha.
    + exists e. split; [by apply update_where_keep|done].
  - by rewrite update_where_map.
  - by rewrite update_where_map.
  - intros e He. apply update_where_In in He as (x & Hx & ->). destruct (hits x) eqn:Eh; [right|by left]. split.
    + destruct (outbox_check (advanced p x)) eqn:Ech; [done|]. exfalso. apply not_true_iff_false in Hc. apply Hc, existsb_exists.
      exists x. split; [done|]. by rewrite Eh, Ech.
    + destruct (Hhit x Hx Eh). apply Ha; [done..|]. by apply Ho.
Qed.

(** ** Receipts *)

Lemma createAttempt_ok a w r w' : createAttempt a w = Ok (r, w') ->
  r = a /\ w' = with_deliveries (set_attempts (ld_attempts (lw_deliveries w) ++ [a])) w /\
  dl_line_guard_attempt_insert (ld_attempts (lw_deliveries w)) a = None /\
  forall b, In b (ld_attempts (lw_deliveries w)) -> sa_deliveryId b = sa_deliveryId a -> sa_attemptNo b <> sa_attemptNo a.
Proof.
  unfold createAttempt, refuse_if. destruct (dl_line_guard_attempt_insert _ _) eqn:Hg; [done|]. intros Hok.
  apply bind_throw_if_ok in Hok as [Hu Hok]. apply bind_throw_if_ok in Hok as [_ [= <- <-]]. split_and?; try done.
  intros b Hb Hd Hn. apply not_true_iff_false in Hu. apply Hu, existsb_exists. exists b. split; [done|].
  rewrite (bool_decide_eq_true_2 _ Hd), (proj2 (Z.eqb_eq _ _) Hn). by rewrite orb_true_r.
Qed.

Lemma createAttempt_keeps a w r w' : createAttempt a w = Ok (r, w') -> keeps w w'.
Proof.
  intros Hok. apply createAttempt_ok in Hok as (_ & -> & Hg & Hu). intros Hw. pose proof (ok_receipts _ w Hw) as Hr. revert Hw.
  apply keeps_attempts; [done|]. by apply receipts_snoc.
Qed.
End Transactions.

(** ** Governance *)

Section Governance.
Context `{Runtime, Host}.

Lemma rows_later rows rows' : (forall r, In r rows -> row_ok r) -> Forall2 row_step rows rows' -> grows rv_later rows rows'.
Proof. intros Hok Hf r Hr. destruct (Forall2_In_l _ _ _ _ Hf Hr) as (r' & Hr' & Hs). exists r'. split; [done|]. by apply row_step_later; [apply Hok|]. Qed.

Lemma begin_handler_begun cv t i now r v t' : begin_handler cv t i now r = Ok (v, t') -> In r (rt_reservations t) ->
  begun (rt_reservations t') (rv_id r).
Proof.
  unfold begin_handler. intros Hok Hr. open_bind Hok u Hu. guards Hok. open_bind Hok c Hc. guards Hok. apply rewrite_ok in Hok as ->.
  exists (barred i now r). split; [|split; [done|by eexists]]. cbn. apply (update_where_hit _ (fun _ => barred i now r) _ r); [done|].
  unfold reservation_by. by apply bool_decide_eq_true.
Qed.

(** What a command leaves of the receipts and the rows. *)
Lemma execute_begin_receipts cv policyOf t c now v t' : runtime_ok t -> branded c -> execute cv policyOf t c now = Ok (v, t') ->
  begin_receipts t -> begin_receipts t' /\
  (forall i, c = C_begin i -> begun (rt_reservations t') (dm_reservationId (bg_command i))).
Proof.
  intros Hwf Hb Hok Hrec. destruct (runtime_step_ok cv t t' Hwf (RS_command _ _ _ _ _ _ _ Hb Hok)) as [_ Hf].
  pose proof (rows_later _ _ (ru_rows _ Hwf) Hf) as Hg.
  apply execute_cases in Hok as [(k & Hk & Hid & _ & _ & ->)|(_ & at_ & r & t1 & _ & Hr & _ & Hh & ->)].
  - split; [done|]. intros i ->. apply find_some in Hk as [Hin Hk]. bool_prop. cbn in *. rewrite <- Hid. by apply Hrec.
  - apply find_some in Hr as [Hr Hid]. unfold reservation_by in Hid. bool_prop.
    assert (Hbegun : forall i, c = C_begin i -> begun (rt_reservations t1) (dm_reservationId (bg_command i))).
    { intros i ->. cbn in *. rewrite <- Hid. by eapply begin_handler_begun. }
    split; [|exact Hbegun]. apply handle_handled in Hh; [|done..]. intros k Hk Hop. cbn in Hk. apply in_app_iff in Hk as [Hk|[<-|[]]].
    + eapply begun_later; [exact Hg|]. apply Hrec; [|done]. destruct Hh as [|r' f _ _ _ Hre]; [done|]. cbn in Hk. by rewrite (recorded_receipts _ _ _ Hre) in Hk.
    + destruct c; cbn in Hop; try done. cbn. by apply Hbegun.
Qed.

Lemma recorded_later r f f' : recorded r f f' -> facts_later f f'.
Proof. intros [|a ts n]; [done|]. split; intros x Hx; apply in_app_iff; by left. Qed.

(** A step only appends facts. *)
Lemma runtime_step_facts cv t t' : runtime_ok t -> runtime_step cv t t' -> facts_later (rt_facts t) (rt_facts t').
Proof.
  intros Hwf [policyOf c now v t1 Hb Hok|i touch t1 Hok].
  - apply execute_cases in Hok as [(k & _ & _ & _ & _ & ->)|(_ & at_ & r & t2 & _ & Hr & _ & Hh & ->)]; [done|].
    apply find_some in Hr as [Hr Hid]. unfold reservation_by in Hid. bool_prop.
    apply handle_handled in Hh; [|done..]. destruct Hh as [|r' f _ _ _ Hre]; [done|]. by apply recorded_later in Hre.
  - unfold recordCorrelatedTouch, fact_nonEmpty in Hok. do 2 apply bind_throw_if_ok in Hok as [_ Hok]. open_bind Hok kd Hk. open_bind Hok at_ Hat.
    apply bind_throw_if_ok in Hok as [_ Hok]. open_bind Hok a Ha. do 2 apply bind_throw_if_ok in Hok as [_ Hok].
    destruct (touch_of _ _); [apply bind_throw_if_ok in Hok as [_ [= _ <-]]; done|].
    destruct (insert_touch _ _) as [f'|[]] eqn:Ei; try done. injection Hok as _ <-. apply insert_touch_ok in Ei as (-> & _).
    split; [done|]. intros x Hx. apply in_app_iff. by left.
Qed.

Lemma runtime_step_moves cv t t' : runtime_ok t -> begin_receipts t -> runtime_step cv t t' ->
  runtime_ok t' /\ begin_receipts t' /\ grows rv_later (rt_reservations t) (rt_reservations t') /\ facts_later (rt_facts t) (rt_facts t').
Proof.
  intros Hwf Hrec Hs. destruct (runtime_step_ok _ _ _ Hwf Hs) as [Hok Hf]. pose proof (runtime_step_facts _ _ _ Hwf Hs) as Hfl.
  split; [done|]. split; [|split; [apply rows_later; [apply Hwf|done]|done]].
  destruct Hs as [policyOf c now v t1 Hb He|i touch t1 He]; [by destruct (execute_begin_receipts cv policyOf t c now v t1 Hwf Hb He Hrec)|].
  destruct (correlated_touch_ok _ _ _ _ He (ru_facts _ Hwf)) as (Hrs & _ & Hre & _). intros k Hk Hop. rewrite Hre in Hk. rewrite Hrs. by apply Hrec.
Qed.

(** What the rest of Governance does to the tables: commands of other deliveries, responses, decisions
    that reserve, and the service's own commands and sweeps. *)
Inductive governance_moves (t : RuntimeTables) : RuntimeTables -> Prop :=
  | GM_runtime cv t' : runtime_step cv t t' -> governance_moves t t'
  | GM_service rows : Forall2 still_step (rt_reservations t) rows -> governance_moves t (RuntimeTables_ rows (rt_facts t))
  | GM_reserve r : has_phase r Unclaimed -> ~ In (rv_id r) (map rv_id (rt_reservations t)) ->
      governance_moves t (RuntimeTables_ (rt_reservations t ++ [r]) (rt_facts t)).

Lemma governance_moves_ok t t' : runtime_ok t -> begin_receipts t -> governance_moves t t' ->
  runtime_ok t' /\ begin_receipts t' /\ grows rv_later (rt_reservations t) (rt_reservations t') /\ facts_later (rt_facts t) (rt_facts t').
Proof.
  intros Hwf Hrec Hm.
  assert (Hlater : forall rows, grows rv_later (rt_reservations t) rows -> begin_receipts (RuntimeTables_ rows (rt_facts t))).
  { intros rows Hg k Hk Hop. eapply begun_later; [exact Hg|]. by apply Hrec. }
  destruct Hm as [cv t' Hs|rows Hs|r Hp Hn]; [by eapply runtime_step_moves|destruct t as [rows0 f]; cbn in *..].
  - pose proof (rows_later _ _ (ru_rows _ Hwf) (still_row_steps _ _ Hs)) as Hg. split; [by eapply runtime_ok_still|]. split; [by apply Hlater|]. split; [done|]. done.
  - pose proof (grows_snoc rv_later rows0 r) as Hg. split; [by apply runtime_ok_new|]. split; [by apply Hlater|]. split; [done|]. done.
Qed.
End Governance.

(** ** Calls of the adapter *)

Section Calls.
Context `{Runtime, Host} (tenantId : string) (policyOf : SettlementPolicy) (requestKey : nat -> string).
Context (content_of : string -> option LineResolvedContent).
Abbreviation keeps := (keeps content_of).
Abbreviation line_ok := (line_ok content_of).

(** The transaction of [govern]. *)
Lemma govern_keeps c w view t : branded c ->
  execute (lo_contactVersion (lw_outside w)) policyOf (lw_governance w) c (lo_clock (lw_outside w)) = Ok (view, t) ->
  keeps w (with_governance t w).
Proof.
  intros Hb Hok. apply keeps_governance. intros Hw.
  apply (runtime_step_moves (lo_contactVersion (lw_outside w))); [apply Hw|apply Hw|]. by econstructor.
Qed.

(** A request under a delivery's key. *)
Lemma push_keeps w q f : lo_pushes (f (lw_outside w)) = q :: lo_pushes (lw_outside w) ->
  (line_ok w -> request_wf content_of (ld_outbox (lw_deliveries w)) (lt_ledger (lw_control w)) q) -> keeps w (with_outside f w).
Proof.
  intros Hf Hq Hw. specialize (Hq Hw). destruct Hw. split; [|constructor; cbn; try reflexivity; auto].
  constructor; cbn; try done. rewrite Hf. intros q' [<-|Hin]; auto.
Qed.
End Calls.
