(* ===== verification/LineMethods.v ===== *)
(** * LineMethods: the control plane's methods, call by call

    That every method of LineControlPlane keeps the invariant of LineInvariant at each of its calls,
    whatever other methods do between them, and what [beginRun] has assured when it authorizes a run. *)
From stdpp Require Import base tactics list strings relations.
From Stdlib Require Import ZArith Lia.
From S2P Require Import Prelude JsMap Text JsDate JsValue Contracts ScopeKey Persistence ReservationRuntime DeliveryCommands Program LineDelivery LineControlPolicy LineTables LineStore LineLedger LineControlPlane LineAdapter LineInvariant LineTransactions.

Open Scope string_scope.
Open Scope Z_scope.
Open Scope list_scope.

Create HintDb line discriminated.
#[export] Hint Constants Opaque : line.
#[export] Hint Variables Opaque : line.
#[export] Hint Resolve keeps_refl ensureGate_keeps compareAndSetGate_keeps killGate_keeps clearGateKill_keeps addAllowlistEntry_keeps
  revokeAllowlistEntry_keeps registerCredentialRef_keeps activateCredentialRef_keeps revokeCredentialRef_keeps createRun_keeps
  consumeRun_keeps closeRun_keeps settleCap_keeps createAudit_keeps enqueueEvent_keeps createOutbox_keeps createAttempt_keeps : line.

(** One layer of a method. *)
Ltac within_layer :=
  lazymatch goal with
  | |- within _ (mbind _ _) => apply within_bind; [|intros]
  | |- within _ (catch _ _) => apply within_catch; [|intros]
  | |- within _ (map_prog _ _) => apply within_map; intros
  | |- within _ (query _) => apply within_query, keeps_refl
  | |- within _ (transact _) => apply within_transact; [apply keeps_refl|intros; eauto with line]
  | |- within _ (match ?x with _ => _ end) => destruct x
  | |- within _ (if ?x then _ else _) => destruct x
  | |- within _ _ => exact I
  end.
Ltac within_all := repeat (first [solve [eauto 1 with line] | within_layer | progress cbn zeta]).

Section Methods.
Context `{Host} (tenantId : string) (content_of : string -> option LineResolvedContent).
Abbreviation keeps := (keeps content_of).
Abbreviation line_ok := (line_ok content_of).
Abbreviation safe := (safe line_ok line_moves).
Abbreviation held_within := (within keeps).

Lemma within_line {A} (p : prog A) s : held_within p -> safe p (fun _ _ => True) s.
Proof. apply within_safe. intros w w' Hw Hk. by apply Hk. Qed.

(** The rules of Program at this invariant and these moves. *)
Lemma done_line {A} (r : result LineError A) (post : result LineError A -> LineWorld -> Prop) s :
  (forall s', line_moves s s' -> line_ok s' -> post r s') -> safe (Done r) post s.
Proof. apply safe_done. Qed.

Lemma weaken_line {A} (p : prog A) (post post' : result LineError A -> LineWorld -> Prop) s :
  (forall r s', line_moves s s' -> line_ok s' -> post r s' -> post' r s') -> safe p post s -> safe p post' s.
Proof. apply safe_weaken. exact _. Qed.

Lemma bind_line {A B} (p : prog A) (k : A -> prog B) (post : result LineError B -> LineWorld -> Prop) s :
  safe p (fun r s' => match r with Ok a => safe (k a) post s' | Err x => post (Err x) s' end) s -> safe (p ≫= k) post s.
Proof. apply safe_bind. exact _. Qed.

Lemma catch_line {A} (p : prog A) (h : LineError -> prog A) (post : result LineError A -> LineWorld -> Prop) s :
  safe p (fun r s' => match r with Ok a => post (Ok a) s' | Err x => safe (h x) post s' end) s -> safe (catch h p) post s.
Proof. apply safe_catch. exact _. Qed.

Lemma query_line {B} (q : LineWorld -> B) (post : result LineError B -> LineWorld -> Prop) s :
  (forall s' s'', line_moves s s' -> line_ok s' -> line_moves s' s'' -> line_ok s'' -> post (Ok (q s')) s'') -> safe (query q) post s.
Proof. apply safe_query. exact _. Qed.

(** A transaction that keeps to the invariant where it is made. *)
Lemma transact_line {B} (t : LineWorld -> result LineError (B * LineWorld)) (post : result LineError B -> LineWorld -> Prop) s :
  (forall s' b s'', line_moves s s' -> line_ok s' -> t s' = Ok (b, s'') -> keeps s' s'' /\
     forall s3, line_moves s'' s3 -> line_ok s3 -> line_ok s'' -> line_moves s' s'' -> post (Ok b) s3) ->
  (forall s' x, line_moves s s' -> line_ok s' -> post (Err x) s') -> safe (transact t) post s.
Proof.
  intros Hok. apply safe_transact; [exact _|]. intros s' b s'' Hm Hs Ht. destruct (Hok s' b s'' Hm Hs Ht) as [Hk Hp].
  destruct (Hk Hs) as [Hs'' Hm'']. auto.
Qed.

(** What the calls leave standing stands after a method of such calls. *)
Lemma within_line_keep {A} (p : prog A) (post : result LineError A -> LineWorld -> Prop) s :
  held_within p -> (forall r s', line_moves s s' -> line_ok s' -> post r s') -> safe p post s.
Proof. intros Hp Hpost. eapply weaken_line; [|by apply within_line]. intros r s' Hm Hi _. auto. Qed.

Lemma newId_within : held_within newId.
Proof. apply within_transact; [apply keeps_refl|]. intros w b w' [= _ <-]. by apply keeps_outside. Qed.

Lemma now_within : held_within now.
Proof. apply within_query, keeps_refl. Qed.

Hint Resolve newId_within now_within : line.

Lemma append_audit_within a : held_within (append_audit a).
Proof. unfold append_audit. within_all. Qed.
Hint Resolve append_audit_within : line.

Lemma record_within category code actor at_ s d e salt : held_within (record category code actor at_ s d e salt).
Proof. unfold record. within_all. Qed.
Hint Resolve record_within : line.

Lemma authorized_within actor action : held_within (authorized actor action).
Proof. exact I. Qed.
Hint Resolve authorized_within : line.

(** ** Gates, allowlist and credentials *)

Lemma ensureScope_within actor scope : held_within (ensureScope actor scope).
Proof. unfold ensureScope. within_all. Qed.

Lemma applied_gate_within u category code actor at_ salt : held_within (applied_gate u category code actor at_ salt).
Proof. unfold applied_gate. within_all. Qed.
Hint Resolve applied_gate_within : line.

Lemma advanceState_within actor gate target digest at_ : held_within (advanceState actor gate target digest at_).
Proof. unfold advanceState. within_all. Qed.

Lemma lowerState_within actor gate target at_ : held_within (lowerState actor gate target at_).
Proof. unfold lowerState. within_all. Qed.

Lemma setTechnicalSwitch_within actor gate on at_ : held_within (setTechnicalSwitch actor gate on at_).
Proof. unfold setTechnicalSwitch. within_all. Qed.

Lemma kill_within actor gate reason at_ : held_within (kill actor gate reason at_).
Proof. unfold kill. within_all. Qed.
Hint Resolve kill_within : line.

Lemma killOnSignal_within gate signal at_ : held_within (killOnSignal gate signal at_).
Proof. unfold killOnSignal. within_all. Qed.
Hint Resolve killOnSignal_within : line.

Lemma killByActor_within actor gate at_ : held_within (killByActor actor gate at_).
Proof. unfold killByActor. within_all. Qed.

Lemma clearWithApproval_within actor gate ref at_ : held_within (clearWithApproval actor gate ref at_).
Proof. unfold clearWithApproval. within_all. Qed.

Lemma registerAllowlistEntry_within actor c at_ : held_within (registerAllowlistEntry actor c at_).
Proof. unfold registerAllowlistEntry. within_all. Qed.

Lemma recorded_if_within b category code actor at_ s salt : held_within (recorded_if b category code actor at_ s salt).
Proof. unfold recorded_if. within_all. Qed.
Hint Resolve recorded_if_within : line.

Lemma revokeAllowlist_within actor id code at_ : held_within (revokeAllowlist actor id code at_).
Proof. unfold revokeAllowlist. within_all. Qed.

Lemma registerCredential_within actor m at_ : held_within (registerCredential actor m at_).
Proof. unfold registerCredential. within_all. Qed.

Lemma verifyAndActivateCredential_within actor id ch v at_ : held_within (verifyAndActivateCredential actor id ch v at_).
Proof. unfold verifyAndActivateCredential. within_all. Qed.

Lemma revokeCredential_within actor id at_ : held_within (revokeCredential actor id at_).
Proof. unfold revokeCredential. within_all. Qed.

(** ** Authorizations *)

Lemma propose_run_within p : held_within (propose_run p).
Proof. unfold propose_run. within_all. Qed.
Hint Resolve propose_run_within : line.

Lemma propose_recorded_within actor gate a c l n ref pt et at_ trial : held_within (propose_recorded tenantId actor gate a c l n ref pt et at_ trial).
Proof. unfold propose_recorded. within_all. Qed.
Hint Resolve propose_recorded_within : line.

Lemma proposeRun_within actor c at_ : held_within (proposeRun tenantId actor c at_).
Proof. unfold proposeRun. within_all. Qed.

Lemma proposeTeamTrial_within actor c at_ : held_within (proposeTeamTrial tenantId actor c at_).
Proof. unfold proposeTeamTrial. within_all. Qed.

Lemma closeRunAs_within actor id state at_ : held_within (closeRunAs actor id state at_).
Proof. unfold closeRunAs. within_all. Qed.

(** ** Evaluation and caps *)

Lemma evaluate_within r : held_within (evaluate r).
Proof. unfold evaluate, matchedAllowlistEntry, evaluate_push, evaluate_run, gate_denied, gate_signals. within_all. Qed.

Lemma denyRun_within actor c d : held_within (denyRun actor c d).
Proof. unfold denyRun. within_all. Qed.
Hint Resolve denyRun_within : line.

Lemma commitDelivery_within d at_ : held_within (commitDelivery d at_).
Proof. unfold commitDelivery. within_all. Qed.

Lemma releaseDelivery_within d at_ : held_within (releaseDelivery d at_).
Proof. unfold releaseDelivery. within_all. Qed.

Lemma exitUnknownReconciling_within d at_ : held_within (exitUnknownReconciling d at_).
Proof. unfold exitUnknownReconciling. within_all. Qed.

Lemma recordProviderReplayProbe_within actor run d digest at_ : held_within (recordProviderReplayProbe actor run d digest at_).
Proof. unfold recordProviderReplayProbe. within_all. Qed.

(** ** What an evaluation found *)

(** An authorization that was approved, for the recipient of its entry of the allowlist. *)
Definition run_ready (w : LineWorld) (run : RunAuthorization) (fingerprint : string) : Prop :=
  exists r a, In r (lt_runs (lw_control w)) /\ ru_proposal r = ru_proposal run /\ both_approved r /\
    In a (lt_allowlist (lw_control w)) /\ al_id (al_tuple a) = rp_allowlistEntryId (ru_proposal run) /\
    al_recipientFingerprint (al_tuple a) = fingerprint.

(** The delivery has consumed the authorization. *)
Definition consumed_for (w : LineWorld) (runId deliveryId : string) : Prop :=
  exists r, In r (lt_runs (lw_control w)) /\ ru_id r = runId /\ snd <$> ru_consumed r = Some deliveryId.

Lemma run_moved w w' r : line_ok w -> line_moves w w' -> In r (lt_runs (lw_control w)) ->
  exists r', In r' (lt_runs (lw_control w')) /\ run_later r r'.
Proof.
  intros Hw Hm Hr. destruct (mv_runs _ _ Hm r Hr) as (r' & Hr' & Hal). exists r'. split; [done|]. apply allowed_run_later; [|done]. by apply Hw.
Qed.

Lemma entry_moved w w' a : line_moves w w' -> In a (lt_allowlist (lw_control w)) ->
  exists a', In a' (lt_allowlist (lw_control w')) /\ al_tuple a' = al_tuple a.
Proof. intros Hm Ha. destruct (mv_allowlist _ _ Hm a Ha) as (a' & Ha' & Hal). exists a'. split; [done|]. by apply allowed_tuple. Qed.

Lemma run_ready_later w w' run f : line_ok w -> line_moves w w' -> run_ready w run f -> run_ready w' run f.
Proof.
  intros Hw Hm (r & a & Hr & Hp & Hb & Ha & Hid & Hf). destruct (run_moved _ _ _ Hw Hm Hr) as (r' & Hr' & Hp' & Hb' & _).
  destruct (entry_moved _ _ _ Hm Ha) as (a' & Ha' & Ht). exists r', a'. rewrite Ht. split_and?; auto. congruence.
Qed.

Lemma consumed_for_later w w' runId d : line_ok w -> line_moves w w' -> consumed_for w runId d -> consumed_for w' runId d.
Proof.
  intros Hw Hm (r & Hr & Hid & Hc). destruct (run_moved _ _ _ Hw Hm Hr) as (r' & Hr' & Hp & _ & Hc'). exists r'.
  unfold ru_id in *. rewrite Hp. split; [done|]. split; [done|]. destruct (ru_consumed r) as [x|]; [|done]. by rewrite (Hc' x).
Qed.

(** The unit of a delivery under such an authorization. *)
Lemma ready_unit w run u : line_ok w -> run_ready w run (cu_recipientFingerprint u) -> ru_gateId run = cu_gateId u ->
  ru_id run = cu_runAuthorizationId u -> is_trial (ru_proposal run) = true \/ consumed_for w (ru_id run) (cu_deliveryId u) ->
  unit_authorized (lt_runs (lw_control w)) (lt_allowlist (lw_control w)) u.
Proof.
  intros Hw (r & a & Hr & Hp & Hb & Ha & Hid & Hf) Hg Hrun Hc. exists r, a. unfold ru_id, ru_gateId in *. rewrite Hp.
  split_and?; try done. destruct Hc as [Hc|(r2 & Hr2 & Hid2 & Hc2)]; [by left|right].
  assert (r = r2) as ->; [|done]. apply (NoDup_map_inj ru_id (lt_runs (lw_control w))); [apply Hw|done..|]. unfold ru_id in *. congruence.
Qed.

(** A run in use was approved by both. *)
Lemma used_run_approved r : run_wf r -> includes [RUN_APPROVED; RUN_CONSUMED] (ru_state r) = true -> both_approved r.
Proof. intros [Hc _] Hs. unfold run_check in Hc. rewrite Hs in Hc. bool_prop. cbn in *. bool_prop. by split. Qed.

(** What [evaluate] promises of an authorization it answers with. *)
Definition run_evaluated (r : LineGateEvaluationRequest) (a : LineGateAllowed) (w : LineWorld) : Prop :=
  forall run, ga_run a = Some run -> exists f, gr_recipientFingerprint r = Some f /\ ru_gateId run = gt_id (ga_gate a) /\
    run_ready w run f /\ (ga_alreadyConsumed a = true -> exists d, gr_deliveryId r = Some d /\ consumed_for w (ru_id run) d).
Definition evaluated (r : LineGateEvaluationRequest) (d : result LineError LineGateDecision) (w : LineWorld) : Prop :=
  match d with Ok (ALLOWED a) => run_evaluated r a w | _ => True end.

Lemma truthy_eq o s : truthy o = Some s -> o = Some s.
Proof. destruct o as [[|c o]|]; cbn; congruence. Qed.

Lemma evaluate_run_safe gate credential e run r s f : gr_recipientFingerprint r = Some f -> ru_gateId run = gt_id gate ->
  (includes [RUN_APPROVED; RUN_CONSUMED] (ru_state run) = true -> run_ready s run f) ->
  (forall d, snd <$> ru_consumed run = Some d -> consumed_for s (ru_id run) d) -> line_ok s ->
  safe (evaluate_run gate credential e run r) (evaluated r) s.
Proof.
  intros Hf Hg Hready Hcons Hs. unfold evaluate_run, gate_denied.
  assert (Hready' : forall s', line_moves s s' -> includes [RUN_APPROVED; RUN_CONSUMED] (ru_state run) = true -> run_ready s' run f).
  { intros s' Hm Hst. by apply (run_ready_later s); [..|apply Hready]. }
  destruct (_ || _); [by apply done_line|]. destruct (ru_state run) eqn:Hst; try by apply done_line.
  - destruct (_ <? _); [by apply done_line|]. apply done_line. intros s' Hm _ run' [= <-]. cbn. exists f. split_and?; auto. done.
  - destruct (bool_decide (is_Some _) && _) eqn:Hd; [|by apply done_line]. bool_prop. apply done_line. intros s' Hm _ run' [= <-]. cbn.
    exists f. split_and?; auto. intros _. destruct (gr_deliveryId r) as [d|] eqn:Ed; [|by destruct H0]. exists d. split; [done|].
    eapply consumed_for_later; [exact Hs|exact Hm|]. apply Hcons. congruence.
Qed.

Lemma evaluate_push_safe gate credential r s : safe (evaluate_push gate credential r) (evaluated r) s.
Proof.
  unfold evaluate_push, gate_denied, gate_signals.
  destruct (truthy (gr_runAuthorizationId r)) as [runId|]; [|by apply done_line].
  destruct (truthy (gr_recipientFingerprint r)) as [f|] eqn:Ef; [|by apply done_line]. apply truthy_eq in Ef.
  destruct (truthy (gr_contentDigest r)) as [content|]; [|by apply done_line].
  apply bind_line, query_line. intros s1 s1' _ Hs1 Hm1 _. destruct (findRun runId s1) as [run|] eqn:Er; [|by apply done_line].
  apply find_some in Er as [Hrun _]. destruct (negb (bool_decide (ru_gateId run = _))) eqn:Hg; [by apply done_line|].
  destruct (negb _) in |- *; [by apply done_line|].
  apply bind_line, query_line. intros s2 s3 Hm2 Hs2 Hm3 Hs3. destruct (findAllowlistEntry _ s2) as [e|] eqn:Ee; [|by apply done_line].
  apply find_some in Ee as [He Hid]. unfold al_by in Hid. destruct (not_valid_at e _); [by apply done_line|].
  destruct (_ || _) eqn:Ho; [by apply done_line|]. bool_prop.
  assert (Hm13 : line_moves s1 s3) by (etrans; [exact Hm1|]; by etrans).
  destruct (run_moved s1 s3 run Hs1 Hm13 Hrun) as (r' & Hr' & Hp & Hb & Hc).
  eapply (evaluate_run_safe _ _ _ _ _ _ f); [done|done| | |done].
  - intros Hst. destruct (entry_moved _ _ _ Hm3 He) as (a' & Ha' & Ht). exists r', a'. rewrite Ht. split_and?; try done.
    apply Hb. apply used_run_approved; [by apply (ok_runs _ _ Hs1)|done].
  - intros d Hd. exists r'. unfold ru_id. rewrite Hp. split_and?; try done. destruct (ru_consumed run) as [x|]; [|done]. by rewrite (Hc x).
Qed.

Lemma evaluate_safe r s : safe (evaluate r) (evaluated r) s.
Proof.
  unfold evaluate, gate_denied, gate_signals. apply bind_line, query_line. intros s1 s2 _ _ _ _.
  destruct (findGate _ s1) as [gate|]; [|by apply done_line]. do 3 (destruct (_ : bool) in |- *; [by apply done_line|]).
  destruct (negb _) in |- *.
  { destruct (_ || _); [|by apply done_line]. apply bind_line. eapply within_line_keep; [unfold matchedAllowlistEntry; within_all|].
    intros [[e|]|x] s3 _ _; [by apply done_line..|done]. }
  destruct (_ || _); [by apply done_line|]. apply bind_line, query_line. intros s3 s4 _ _ _ _.
  destruct (findActiveCredentialRef _ _ s3) as [credential|]; [|by apply done_line]. destruct (expires_by _ _); [by apply done_line|].
  destruct (evaluateQuotaAdvisory _ _); try by apply done_line. destruct (negb _); [by apply done_line|]. apply evaluate_push_safe.
Qed.

(** ** What a run is authorized with *)

Lemma reserve_safe c gateId runId k n attemptNo caps s :
  (forall s' id, line_moves s s' -> line_ok s' ->
     unit_covered (CapUnit_ id gateId runId (br_deliveryId c) k attemptNo (br_recipientFingerprint c) (br_at c)) (lineCapLimits k (br_at c) n caps) s') ->
  safe (reserve c gateId runId k n attemptNo caps)
    (fun r w => match r with Ok (CAP_TAKEN _ _) => has_unit (lt_ledger (lw_control w)) (br_deliveryId c) k | _ => True end) s.
Proof.
  intros Hc. unfold reserve. apply bind_line. eapply within_line_keep; [apply newId_within|]. intros [id|x] s1 Hm1 _; [|done].
  apply transact_line; [|done]. intros s2 b s3 Hm2 Hs2 Hok. assert (Hcov := Hc s2 id ltac:(by etrans) Hs2).
  split; [by eapply reserveCap_keeps|]. intros s4 Hm4 _ _ _.
  destruct b as [e replay|code]; [|done]. eapply has_unit_later; [apply (mv_ledger _ _ Hm4)|].
  apply reserveCap_ok in Hok as [[-> (He & Hk & _)]|([= -> ->] & -> & _)].
  - unfold cap_key in Hk. cbn in Hk. exists e. split; [done|]. split; congruence.
  - eexists. split; [apply in_app_iff; right; by left|done].
Qed.

(** Units of other kinds are covered by their own limits. *)
Lemma other_unit_covered id g run d k n f t a caps w : k <> LOGICAL_DELIVERY ->
  unit_covered (CapUnit_ id g run d k a f t) (lineCapLimits k t n caps) w.
Proof. intros Hk. split; [|done]. unfold limits_of_unit. cbn. destruct k; [done|exists n, caps; reflexivity..]. Qed.

Lemma reserve_within c gateId runId k n attemptNo caps : k <> LOGICAL_DELIVERY -> held_within (reserve c gateId runId k n attemptNo caps).
Proof.
  intros Hk. unfold reserve. apply within_bind; [apply newId_within|]. intros id. apply within_transact; [apply keeps_refl|].
  intros w b w' Hok. eapply reserveCap_keeps; [|exact Hok]. by apply other_unit_covered.
Qed.

Lemma reserveProviderAttempt_safe actor c gate run n s :
  safe (reserveProviderAttempt actor c gate run n)
    (fun r w => match r with Ok (DENIED _) | Err _ => True | _ => has_unit (lt_ledger (lw_control w)) (br_deliveryId c) PROVIDER_ATTEMPT end) s.
Proof.
  unfold reserveProviderAttempt. apply bind_line. eapply within_line_keep; [apply authorized_within|]. intros [[]|x] s1 _ _; [|done].
  destruct (gt_killed gate); [by apply done_line|]. apply bind_line. eapply weaken_line; [|apply reserve_safe].
  - intros [[e replay|code]|x] s2 _ _ Hu; [|apply bind_line|done].
    + apply done_line. intros s3 Hm _. eapply has_unit_later; [apply (mv_ledger _ _ Hm)|done].
    + eapply within_line_keep; [within_all|]. intros [[]|x] s3 _ _; [by apply done_line|done].
  - intros s' id _ _. by apply other_unit_covered.
Qed.

Lemma reserveProviderAttempt_within actor c gate run n : held_within (reserveProviderAttempt actor c gate run n).
Proof. unfold reserveProviderAttempt. pose proof (reserve_within c) as Hr. within_all; by apply Hr. Qed.

Lemma enterUnknownReconciling_within c g run : held_within (enterUnknownReconciling c g run).
Proof. unfold enterUnknownReconciling. pose proof (reserve_within c) as Hr. within_all; by apply Hr. Qed.

(** An authorized run has the unit of its delivery in the ledger. *)
Definition granted (c : BeginLineRunCommand) (r : result LineError LineRunResult) (w : LineWorld) : Prop :=
  match r with Ok (AUTHORIZED _) => has_unit (lt_ledger (lw_control w)) (br_deliveryId c) LOGICAL_DELIVERY | _ => True end.

Lemma denyRun_safe actor c d s : safe (denyRun actor c d) (granted c) s.
Proof.
  unfold denyRun. apply bind_line. eapply within_line_keep; [within_all|]. intros [[]|x] s1 _ _; [|done].
  apply bind_line. eapply within_line_keep; [within_all|]. intros [[]|x] s2 _ _; [|done]. by apply done_line.
Qed.

Lemma granted_later {A} (p : prog A) c (k : result LineError A -> LineWorld -> Prop) s :
  held_within p -> has_unit (lt_ledger (lw_control s)) (br_deliveryId c) LOGICAL_DELIVERY ->
  (forall r s', has_unit (lt_ledger (lw_control s')) (br_deliveryId c) LOGICAL_DELIVERY -> k r s') -> safe p k s.
Proof. intros Hp Hu Hk. eapply within_line_keep; [exact Hp|]. intros r s' Hm _. apply Hk. eapply has_unit_later; [apply (mv_ledger _ _ Hm)|done]. Qed.

Lemma take_caps_safe actor c gate run entry credential s : run_ready s run (br_recipientFingerprint c) -> ru_gateId run = gt_id gate ->
  is_trial (ru_proposal run) = true \/ consumed_for s (ru_id run) (br_deliveryId c) -> line_ok s ->
  safe (take_caps actor c gate run entry credential) (granted c) s.
Proof.
  intros Hready Hg Hc Hs. unfold take_caps. apply bind_line. eapply weaken_line; [|apply reserve_safe].
  - intros [[unit replay|code]|x] s1 _ _ Hu; [|apply denyRun_safe|done]. destruct (ce_state unit).
    + apply bind_line. eapply granted_later; [by apply reserve_within|exact Hu|]. intros [[slot _r|code]|x] s2 Hu2; [| |done].
      * destruct (negb _); [apply denyRun_safe|]. apply bind_line. eapply granted_later; [within_all|exact Hu2|].
        intros [[]|x] s3 Hu3; [|done]. apply done_line. intros s4 Hm _. eapply has_unit_later; [apply (mv_ledger _ _ Hm)|done].
      * apply bind_line. eapply within_line_keep; [within_all|]. intros [b|x] s3 _ _; [apply denyRun_safe|done].
    + apply done_line. intros s2 Hm _. eapply has_unit_later; [apply (mv_ledger _ _ Hm)|done].
    + apply denyRun_safe.
  - intros s' id Hm Hs'. split.
    + destruct Hready as (r & _ & Hr & Hp & _). destruct (run_moved _ _ _ Hs Hm Hr) as (r' & Hr' & Hp' & _).
      exists r'. unfold ru_id. rewrite Hp', Hp. by split_and?.
    + intros _. apply (ready_unit s' run); [done|by apply (run_ready_later s)|done..|].
      destruct Hc as [Hc|Hc]; [by left|right]. by apply (consumed_for_later s).
Qed.

(** What [consumeRun] leaves where it takes the authorization. *)
Lemma consumeRun_ok id d at_ w r w' : consumeRun id d at_ w = Ok (CONSUMED r, w') -> consumed_for w' id d.
Proof.
  unfold consumeRun, refuse_if. intros Hok. open_bind Hok u Hu. do 2 apply bind_throw_if_ok in Hok as [_ Hok].
  destruct u as [n rows]. apply update_guarded_ok in Hu as (Hn & Hrows & _). cbn in *. subst n.
  destruct (js_find _ rows) as [x|]; [|done]. destruct (count_where _ _ =? 1) eqn:E; [|destruct (ru_state x); congruence].
  injection Hok as <- <-. bool_prop. destruct (count_where_one _ _ E) as (y & Hy & Hp & _). exists (consumed_as d at_ y).
  split; [cbn; subst rows; by apply update_where_hit|]. unfold run_by in Hp. by bool_prop.
Qed.

Lemma beginRun_safe actor c s : safe (beginRun actor c) (granted c) s.
Proof.
  unfold beginRun. apply bind_line. eapply within_line_keep; [apply authorized_within|]. intros [[]|x] s1 _ _; [|done].
  apply bind_line. eapply weaken_line; [|apply evaluate_safe]. intros [[a|d]|x] s2 _ Hs2 He; [|apply denyRun_safe|done].
  destruct (ga_run a) as [run|] eqn:Er; [|by apply done_line]. destruct (ga_allowlistEntry a) as [entry|]; [|by apply done_line].
  destruct (ga_credential a) as [credential|]; [|by apply done_line]. destruct (He run Er) as (f & [= <-] & Hg & Hready & Hcons).
  apply bind_line, query_line. intros s3 s4 Hm3 _ Hm4 Hs4. destruct (js_some _ _); [apply denyRun_safe|].
  assert (Hready4 : run_ready s4 run (br_recipientFingerprint c)) by (apply (run_ready_later s2); [done|by etrans|done]).
  destruct (negb _ && _) eqn:Ec.
  - apply bind_line, transact_line; [|done]. intros s5 b s6 Hm5 Hs5 Hok. split; [by eapply consumeRun_keeps|].
    intros s7 Hm7 Hs7 Hs6 Hm6. destruct b as [r|code]; [|apply denyRun_safe]. apply consumeRun_ok in Hok.
    assert (Hr7 : run_ready s7 run (br_recipientFingerprint c)) by (apply (run_ready_later s4); [done|etrans; [exact Hm5|by etrans]|done]).
    assert (Hc7 : consumed_for s7 (ru_id run) (br_deliveryId c)) by (by apply (consumed_for_later s6)).
    apply bind_line. eapply within_line_keep; [apply record_within|]. intros [[]|x] s8 Hm8 Hs8; [|done].
    apply take_caps_safe; [by apply (run_ready_later s7)|done| |done]. right. by apply (consumed_for_later s7).
  - apply take_caps_safe; [done..| |done]. apply andb_false_iff in Ec as [Ec|Ec]; bool_prop; [|by left].
    right. destruct (Hcons Ec) as (d & [= <-] & Hc). apply (consumed_for_later s2); [done|by etrans|done].
Qed.

(** ** Approvals *)

Lemma approveRunAs_safe actor runId at_ s : safe (approveRunAs actor runId at_) (fun _ _ => True) s.
Proof.
  unfold approveRunAs. apply bind_line. eapply within_line_keep; [apply authorized_within|]. intros [[]|x] s1 _ _; [|done].
  apply bind_line, query_line. intros s2 s3 _ Hs2 Hm3 _. destruct (findRun runId s2) as [run|] eqn:Er; [|by apply done_line].
  apply find_some in Er as [Hrun Hid]. unfold run_by in Hid. destruct (bool_decide _) eqn:Hp in |- *; [by apply done_line|].
  destruct (negb _); [by apply done_line|]. destruct (_ <? _); [by apply done_line|]. bool_prop.
  apply bind_line, transact_line; [|done]. intros s4 b s5 Hm4 Hs4 Hok.
  split.
  { eapply approveRun_keeps; [|exact Hok]. intros x Hx Hidx He. apply Hp. destruct (run_moved s2 s4 run Hs2 ltac:(by etrans) Hrun) as (r' & Hr' & Hprop & _).
    assert (x = r') as -> by (apply (NoDup_map_inj ru_id (lt_runs (lw_control s4))); [apply Hs4|done..|unfold ru_id in *; congruence]). congruence. }
  intros s6 _ _ _ _. destruct b; [|by apply done_line].
  apply bind_line. eapply within_line_keep; [apply record_within|]. intros [[]|x] s7 _ _; [by apply done_line|done].
Qed.
End Methods.
