(* ===== verification/LinePool.v ===== *)
(** * LinePool: the adapter's methods, and every interleaving

    That enqueueing, submitting and reconciling keep the invariant of LineInvariant at each of their calls,
    and with LineMethods that it holds of whatever a pool of LINE methods comes to: any number of them at
    once, each able to stop for ever between two of its calls, while the clock, the provider, the keychain
    and the rest of Governance go on. *)
From stdpp Require Import base tactics list strings relations.
From Stdlib Require Import ZArith Lia.
From S2P Require Import Prelude JsMap Text JsDate JsValue Contracts ScopeKey Persistence ReservationRuntime DeliveryCommands Program LineDelivery LineControlPolicy LineTables LineStore LineLedger LineControlPlane LineAdapter LineInvariant LineTransactions LineMethods.

Open Scope string_scope.
Open Scope Z_scope.
Open Scope list_scope.

Section Pool.
Context `{Runtime, Host} (tenantId : string).
Context (actor : LineControlActor) (configDigest : string).
Context (content_source : option (string -> option LineResolvedContent)) (approvedContent : option (string -> bool)).
Context (requestKey : nat -> string) (policyOf : SettlementPolicy).

(** The content the adapter sends for a reference. *)
Definition content_of : string -> option LineResolvedContent := default fixture_content content_source.

Abbreviation keeps := (keeps content_of).
Abbreviation line_ok := (line_ok content_of).
Abbreviation safe := (safe line_ok line_moves).
Abbreviation held_within := (within keeps).

#[local] Hint Resolve newId_within now_within append_audit_within record_within authorized_within kill_within killOnSignal_within
  commitDelivery_within exitUnknownReconciling_within enterUnknownReconciling_within denyRun_within : line.

(** ** Calls *)

Lemma ret_bind {A B} (a : A) (k : A -> prog B) : ret a ≫= k = k a.
Proof. reflexivity. Qed.

Lemma branded_ok value kind : branded_id value kind = throw (GovernanceThrew (RuntimeTypeError kind)) \/
  (branded_id value kind = ret value /\ value <> "").
Proof.
  unfold branded_id, identifier. destruct (bool_decide (trim value = "")) eqn:E; cbn; [by left|right]. split; [done|].
  intros ->. by vm_compute in E.
Qed.

Lemma branded_within value kind : held_within (branded_id value kind).
Proof. by destruct (branded_ok value kind) as [-> |[-> _]]. Qed.

(** What follows a brand takes the value as it is. *)
Lemma branded_line {A} value kind (k : string -> prog A) post s : (value <> "" -> safe (k value) post s) ->
  (forall x s', line_moves s s' -> line_ok s' -> post (Err x) s') -> safe (branded_id value kind ≫= k) post s.
Proof. intros Hk Hx. destruct (branded_ok value kind) as [-> |[-> Hv]]; [by apply done_line; intros; apply Hx|by apply Hk]. Qed.

Lemma govern_within c : branded c -> held_within (govern policyOf c).
Proof.
  intros Hb. apply within_transact; [apply keeps_refl|]. intros w b w' Hok. cbn zeta in Hok.
  destruct (execute (lo_contactVersion (lw_outside w)) policyOf (lw_governance w) c (lo_clock (lw_outside w))) as [[view t]|x] eqn:E; [|done].
  injection Hok as _ <-. by eapply govern_keeps.
Qed.

Lemma newRequestKey_within : held_within (newRequestKey requestKey).
Proof. apply within_transact; [apply keeps_refl|]. intros w b w' [= _ <-]. by apply keeps_outside. Qed.
#[local] Hint Resolve branded_within newRequestKey_within : line.

Lemma emit_within e state correlationId code : held_within (emit tenantId e state correlationId code).
Proof. unfold emit, lifecycle_event. within_all. Qed.
#[local] Hint Resolve emit_within : line.

Lemma kill_scope_within scope signal : held_within (kill_scope scope signal).
Proof. unfold kill_scope. within_all. Qed.
#[local] Hint Resolve kill_scope_within : line.

Lemma bound_command_within e c : held_within (bound_command tenantId e c).
Proof. unfold bound_command. within_all. Qed.
#[local] Hint Resolve bound_command_within : line.

Lemma settle_command_within e c code outcome scope : held_within (settle_command tenantId policyOf e c code outcome scope).
Proof.
  unfold settle_command. pose proof (fun i => govern_within (C_settle i) I) as Hg. within_all.
Qed.
#[local] Hint Resolve settle_command_within : line.

(** ** Enqueue *)

Lemma claim_delivery_within c d : held_within (claim_delivery tenantId policyOf c d).
Proof.
  unfold claim_delivery. apply within_catch; [|intros [| | | | | | | | |[]| | |]; exact I].
  destruct (branded_ok d "DeliveryId") as [-> |[-> Hd]]; [exact I|].
  rewrite ret_bind. apply within_bind; [by apply govern_within|]. intros view. exact I.
Qed.
#[local] Hint Resolve claim_delivery_within : line.

Lemma enqueue_within c : held_within (enqueue tenantId approvedContent requestKey policyOf c).
Proof. unfold enqueue, date_column. within_all. Qed.

(** ** A delivery the adapter holds *)

(** The row the adapter read is still there, as it was or later. *)
Definition known (w : LineWorld) (e : OutboxEntry) (d : string) : Prop :=
  ob_delivery e = d /\ ob_adapter (ob_identity e) = LINE_MESSAGING_API /\ isLineRetryKey (ob_providerRequestKey (ob_identity e)) = true /\
  exists e', In e' (ld_outbox (lw_deliveries w)) /\ ob_later e e'.
(** And past the barrier. *)
Definition past (w : LineWorld) (e : OutboxEntry) : Prop :=
  exists e', In e' (ld_outbox (lw_deliveries w)) /\ ob_later e e' /\ ob_state e' <> QUEUED.
(** With the units an attempt has taken. *)
Definition units (w : LineWorld) (d : string) : Prop :=
  has_unit (lt_ledger (lw_control w)) d LOGICAL_DELIVERY /\ has_unit (lt_ledger (lw_control w)) d PROVIDER_ATTEMPT.
(** A receipt of the delivery under a code. *)
Definition receipted (w : LineWorld) (d : string) (code : LineProviderOutcomeCode) : Prop :=
  exists a, In a (ld_attempts (lw_deliveries w)) /\ sa_deliveryId a = d /\ sa_outcomeCode a = code.

Lemma known_later w w' e d : line_moves w w' -> known w e d -> known w' e d.
Proof.
  intros Hm (Hd & Ha & Hk & e1 & He1 & Hl). destruct (mv_outbox _ _ Hm e1 He1) as (e2 & He2 & Hl2).
  split; [done|]. split; [done|]. split; [done|]. exists e2. split; [done|by etrans].
Qed.

Lemma past_later w w' e : line_moves w w' -> past w e -> past w' e.
Proof.
  intros Hm (e1 & He1 & Hl & Hs). destruct (mv_outbox _ _ Hm e1 He1) as (e2 & He2 & Hl2).
  exists e2. split; [done|]. split; [by etrans|by eapply not_queued].
Qed.

Lemma units_later w w' d : line_moves w w' -> units w d -> units w' d.
Proof. intros Hm [Hl Hp]. split; (eapply has_unit_later; [apply (mv_ledger _ _ Hm)|done]). Qed.

Lemma receipted_later w w' d code : line_moves w w' -> receipted w d code -> receipted w' d code.
Proof. intros Hm (a & Ha & H'). exists a. split; [by apply (mv_attempts _ _ Hm)|done]. Qed.

(** The row of a known delivery is the only one of its. *)
Lemma known_row w e d x : line_ok w -> known w e d -> In x (ld_outbox (lw_deliveries w)) -> ob_delivery x = d -> ob_identity x = ob_identity e.
Proof.
  intros Hw (Hd & _ & _ & e' & He' & Hid & _) Hx Hxd. assert (x = e') as ->; [|done].
  apply (NoDup_map_inj ob_delivery (ld_outbox (lw_deliveries w))); [apply Hw|done..|]. unfold ob_delivery in *. congruence.
Qed.

(** An advance leaves the row of a known delivery past the barrier. *)
Lemma advanced_past w e d expected p r w' : known w e d -> advance LINE_MESSAGING_API d expected p w = Ok (r, w') ->
  advance_ok d expected p w -> op_state p <> QUEUED -> In QUEUED expected \/ past w e -> keeps w w' -> line_ok w -> past w' e.
Proof.
  intros Hk Hok Ha Hp [Hq|Hq] Hkeep Hw; [|destruct (Hkeep Hw) as [_ Hm]; by eapply past_later].
  destruct Hk as (Hd & Had & _ & e' & He' & Hl). pose proof Hl as (Hid & _ & _).
  unfold advance, refuse_if in Hok. do 2 apply bind_throw_if_ok in Hok as [_ Hok]. injection Hok as _ <-. cbn.
  assert (Hd' : ob_delivery e' = d) by (unfold ob_delivery in *; congruence).
  destruct (advances LINE_MESSAGING_API d expected e') eqn:Eh.
  - exists (advanced p e'). split; [by apply update_where_hit|]. split; [etrans; [exact Hl|]|done]. apply Ha; [done..|].
    unfold advances in Eh. bool_prop. by apply includes_spec.
  - exists e'. split; [by apply update_where_keep|]. split; [done|]. intros Hs. apply not_true_iff_false in Eh. apply Eh.
    unfold advances, ob_is. rewrite Hd', Hid, Had, !bool_decide_eq_true_2 by done. by apply includes_spec; rewrite Hs.
Qed.

(** ** Advances the adapter makes *)

Lemma advance_line d expected p (post : result LineError (option OutboxEntry) -> LineWorld -> Prop) s :
  (forall s', line_moves s s' -> line_ok s' -> advance_ok d expected p s') -> (forall r s', line_moves s s' -> line_ok s' -> post r s') ->
  safe (transact (advance LINE_MESSAGING_API d expected p)) post s.
Proof.
  intros Ha Hp. apply transact_line; [|auto]. intros s' b s'' Hm Hs Hok. split; [eapply advance_keeps; [by apply Ha|exact Hok]|].
  intros s3 Hm3 Hs3 _ Hm'. apply Hp; [|done]. etrans; [exact Hm|by etrans].
Qed.

Lemma reconciling_ok d w : advance_ok d in_flight (to_state RECONCILING) w.
Proof.
  intros e He Hd Hst. assert (Hs : ob_state e = SUBMITTING \/ ob_state e = RECONCILING) by (destruct Hst as [<-|[<-|[]]]; auto).
  split.
  - split; [done|]. destruct Hs as [Hs|Hs]; rewrite Hs; split; done.
  - intros [Hb Hac Hse Ho]. constructor; cbn; try done.
    + intros _. apply Hb. by destruct Hs as [-> | ->].
    + intros _. apply Ho. by destruct Hs as [-> | ->].
Qed.

Lemma submitted_ok d w at_ code : receipted w d code -> lineNormalizedOutcome code = Terminal PROVIDER_ACCEPTED ->
  advance_ok d in_flight (OutboxPatch_ SUBMITTED at_ None None None) w.
Proof.
  intros (a & Ha & Had & Hac) Hc e He Hd Hst.
  assert (Hs : ob_state e = SUBMITTING \/ ob_state e = RECONCILING) by (destruct Hst as [<-|[<-|[]]]; auto). split.
  - split; [done|]. destruct Hs as [Hs|Hs]; rewrite Hs; split; done.
  - intros [Hb Hacc Hse Ho]. constructor; cbn; try done.
    + intros _. apply Hb. by destruct Hs as [-> | ->].
    + intros _. exists a. unfold ob_delivery in *. cbn. rewrite Hac. split_and?; congruence.
    + intros _. apply Ho. by destruct Hs as [-> | ->].
Qed.

Lemma settled_ok d w at_ code o ref : receipted w d code -> lineNormalizedOutcome code = Terminal o ->
  advance_ok d [SUBMITTING; SUBMITTED; RECONCILING] (OutboxPatch_ SETTLED None at_ (Some o) ref) w.
Proof.
  intros (a & Ha & Had & Hac) Hc e He Hd Hst.
  assert (Hs : ob_state e <> QUEUED /\ ob_state e <> SETTLED) by (destruct Hst as [<-|[<-|[<-|[]]]]; done). destruct Hs as [Hs Hs']. split.
  - split; [done|]. split; [|done]. cbn. destruct (ob_state e); cbn; lia.
  - intros [Hb Hacc Hse Ho]. constructor; cbn; try done; [by intros _; apply Hb|]. intros _. exists o. split; [done|].
    exists a. unfold ob_delivery in *. cbn. rewrite Hac. split_and?; congruence.
Qed.

(** ** Conclusions *)

Lemma settle_row_safe e c code o s : receipted s (sm_deliveryId c) code -> lineNormalizedOutcome code = Terminal o ->
  o = PROVIDER_ACCEPTED \/ o = PROVIDER_REJECTED -> safe (settle_row tenantId e c code) (fun _ _ => True) s.
Proof.
  intros Hr Hc Ho. unfold settle_row. apply bind_line. eapply within_line_keep; [apply now_within|]. intros [t|x] s1 Hm1 _; [|done].
  assert (Hout : (if bool_decide (lineNormalizedOutcome code = Terminal PROVIDER_ACCEPTED) then PROVIDER_ACCEPTED else PROVIDER_REJECTED) = o).
  { rewrite Hc. destruct Ho as [-> | ->]; done. }
  rewrite Hout. apply bind_line, advance_line.
  - intros s2 Hm2 _. apply (settled_ok _ _ _ code); [|done]. eapply receipted_later; [|exact Hr]. by etrans.
  - intros [r|x] s2 _ _; [|done]. apply within_line. within_all.
Qed.

Lemma confirm_safe e c code n s : receipted s (sm_deliveryId c) code -> lineNormalizedOutcome code = Terminal PROVIDER_ACCEPTED ->
  safe (confirm_accepted tenantId policyOf e c code n) (fun _ _ => True) s.
Proof.
  intros Hr Hc. unfold confirm_accepted. do 3 (apply bind_line; eapply within_line_keep; [by eauto with line|]; intros [?|?] ? ? _; [|done]).
  apply bind_line. eapply within_line_keep; [by apply govern_within|]. intros [v|x] s1 Hm1 _; [|done].
  apply bind_line. eapply within_line_keep; [apply now_within|]. intros [t|x] s2 Hm2 _; [|done].
  assert (Hr2 : receipted s2 (sm_deliveryId c) code) by (eapply receipted_later; [|exact Hr]; do 4 (etrans; [eassumption|]); done).
  apply bind_line, advance_line.
  - intros s3 Hm3 _. apply (submitted_ok _ _ _ code); [|done]. by eapply receipted_later.
  - intros [r|x] s3 Hm3 _; [|done]. do 2 (apply bind_line; eapply within_line_keep; [by eauto with line|]; intros [?|?] ? ? _; [|done]).
    apply bind_line. eapply weaken_line; [|apply (settle_row_safe _ _ _ PROVIDER_ACCEPTED); [|done|by left]].
    + intros [[]|x] s4 _ _ _; [by apply done_line|done].
    + eapply receipted_later; [|exact Hr2]. do 2 (etrans; [eassumption|]). done.
Qed.

Lemma reject_safe e c code scope n s : receipted s (sm_deliveryId c) code -> lineNormalizedOutcome code = Terminal PROVIDER_REJECTED ->
  safe (reject tenantId policyOf e c code scope n) (fun _ _ => True) s.
Proof.
  intros Hr Hc. unfold reject. apply bind_line. eapply within_line_keep; [exact I|]. intros [st|x] s1 Hm1 _; [|done].
  do 2 (apply bind_line; eapply within_line_keep; [by within_all|]; intros [?|?] ? ? _; [|done]).
  apply bind_line. eapply weaken_line; [|apply (settle_row_safe _ _ _ PROVIDER_REJECTED); [|done|by right]].
  - intros [[]|x] s4 _ _ _; [by apply done_line|done].
  - eapply receipted_later; [|exact Hr]. do 2 (etrans; [eassumption|]). done.
Qed.

Lemma reconciling_within d : held_within (transact (advance LINE_MESSAGING_API d in_flight (to_state RECONCILING))).
Proof. apply within_transact; [apply keeps_refl|]. intros w b w' Hok. eapply advance_keeps; [|exact Hok]. apply reconciling_ok. Qed.
#[local] Hint Resolve reconciling_within : line.

Lemma markReconciling_within e c code n content :
  held_within (markReconciling tenantId configDigest policyOf e c code n content).
Proof. unfold markReconciling. within_all. Qed.

Lemma quarantine_within e c n : held_within (quarantine tenantId e c n).
Proof. unfold quarantine. within_all. Qed.

Lemma conclude_safe e c answer n content s : receipted s (sm_deliveryId c) (lc_outcomeCode (classifyLineResponse answer)) ->
  safe (conclude tenantId configDigest policyOf e c answer n content) (fun _ _ => True) s.
Proof.
  unfold conclude. destruct (classify_cases answer) as [(code & -> & _ & Hc)|[(code & scope & -> & _ & Hs)|(code & -> & _ & Hc)]];
    cbn [lc_accepted lc_reconcile lc_rejectionScope lc_outcomeCode accepted_as rejected_as unknown_as negb]; intros Hr.
  - apply confirm_safe; [done|]. unfold lineNormalizedOutcome. by rewrite Hc.
  - apply reject_safe; [done|]. unfold assertLineOutcomeScope in Hs. apply bind_throw_if_ok in Hs as [_ [= Hc]]. unfold lineNormalizedOutcome. by rewrite Hc.
  - apply within_line, markReconciling_within.
Qed.

(** ** The barrier and the request *)

Lemma govern_begin_safe i s : safe (govern policyOf (C_begin i))
  (fun r w => match r with Ok _ => begun (rt_reservations (lw_governance w)) (dm_reservationId (bg_command i)) | Err _ => True end) s.
Proof.
  unfold govern. apply transact_line; [|done]. intros s1 view s2 _ Hs1 Hok. cbn zeta in Hok.
  destruct (execute (lo_contactVersion (lw_outside s1)) policyOf (lw_governance s1) (C_begin i) (lo_clock (lw_outside s1))) as [[v t]|x] eqn:E; [|done].
  injection Hok as _ <-. split; [by eapply (govern_keeps _ _ (C_begin i))|]. intros s3 Hm _ _ _.
  eapply begun_later; [apply (mv_rows _ _ Hm)|]. cbn.
  by eapply (execute_begin_receipts _ policyOf (lw_governance s1) (C_begin i)); [apply Hs1|done|exact E|apply Hs1|].
Qed.

(** The advance across the barrier, once the reservation's submission has begun. *)
Lemma submitting_ok e d w : line_ok w -> known w e d -> begun (rt_reservations (lw_governance w)) (ob_reservationId (ob_identity e)) ->
  advance_ok d [QUEUED] (to_state SUBMITTING) w.
Proof.
  intros Hw Hk Hb x Hx Hd [Hst|[]]. pose proof (known_row w e d x Hw Hk Hx Hd) as Hid. split.
  - split; [done|]. rewrite <- Hst. split; done.
  - intros [_ _ _ Ho]. constructor; cbn; try done; intros _; [by rewrite Hid|]. apply Ho. by rewrite <- Hst.
Qed.

Lemma cross_barrier_safe e c s : known s e (sm_deliveryId c) ->
  safe (cross_barrier tenantId policyOf e c) (fun r w => match r with Ok _ => past w e | Err _ => True end) s.
Proof.
  intros Hk. unfold cross_barrier, bound_command.
  apply bind_line, branded_line; [|done]. intros _. apply branded_line; [|done]. intros _. apply branded_line; [|done]. intros _.
  apply done_line. intros s0 Hm0 Hs0. apply branded_line; [|done]. intros _. apply branded_line; [|done]. intros _.
  assert (Hk0 : known s0 e (sm_deliveryId c)) by (by eapply known_later).
  apply bind_line. eapply weaken_line; [|apply govern_begin_safe]. intros [v|x] s1 Hm1 _ Hb; [|done]. cbn in Hb.
  apply bind_line, transact_line; [|done]. intros s2 r s3 Hm2 Hs2 Hok.
  assert (Hk2 : known s2 e (sm_deliveryId c)) by (eapply known_later; [|exact Hk0]; by etrans).
  assert (Ha : advance_ok (sm_deliveryId c) [QUEUED] (to_state SUBMITTING) s2).
  { apply (submitting_ok e); [done..|]. eapply begun_later; [apply (mv_rows _ _ Hm2)|done]. }
  pose proof (advance_keeps content_of _ _ _ _ _ _ _ Ha Hok) as Hkeep. split; [exact Hkeep|]. intros s4 Hm4 _ _ _.
  assert (Hp : past s4 e).
  { eapply past_later; [exact Hm4|]. eapply (advanced_past s2); [done|exact Hok|exact Ha|done|by left; left|exact Hkeep|done]. }
  apply bind_line. eapply within_line_keep; [apply now_within|]. intros [t|x] s5 Hm5 _; [|done].
  apply bind_line. eapply within_line_keep; [apply commitDelivery_within|]. intros [b|x] s6 Hm6 _; [|done].
  eapply within_line_keep; [apply emit_within|]. intros [[]|x] s7 Hm7 _; [|done]. eapply past_later; [exact Hm7|]. by do 2 (eapply past_later; [eassumption|]).
Qed.

Lemma record_receipt_safe a s :
  safe (record_receipt a) (fun r w => match r with Ok _ => receipted w (sa_deliveryId a) (sa_outcomeCode a) | Err _ => True end) s.
Proof.
  unfold record_receipt. apply catch_line, transact_line.
  - intros s1 r s2 _ _ Hok. split; [by eapply createAttempt_keeps|]. intros s3 Hm _ _ _. eapply receipted_later; [exact Hm|].
    apply createAttempt_ok in Hok as (-> & -> & _). exists a. split; [apply in_app_iff; right; by left|done].
  - intros s1 x _ _. destruct (bool_decide (x = UniqueViolation)); [|by apply done_line].
    apply bind_line, query_line. intros s2 s3 _ _ Hm _. destruct (findAttempt _ _ s2) as [row|] eqn:Er; [|by apply done_line].
    destruct (sameReceipt row a) eqn:Es; [|by apply done_line]. apply done_line. intros s4 Hm4 _.
    eapply receipted_later; [exact Hm4|]. eapply receipted_later; [exact Hm|]. apply find_some in Er as [Hin Hd]. unfold sameReceipt in Es. bool_prop.
    exists row. by split_and?.
Qed.

(** The request is one the invariant allows. *)
Lemma push_safe e d q content s : known s e d -> past s e -> units s d -> content_of (ob_contentRef (ob_identity e)) = Some content ->
  pq_messages q = ln_messages content -> pq_retryKey q = ob_providerRequestKey (ob_identity e) -> safe (push q) (fun _ _ => True) s.
Proof.
  intros Hk Hp Hu Hc Hmsg Hkey. unfold push. apply transact_line; [|done]. intros s1 r s2 Hm1 _ Hok. injection Hok as _ <-. split; [|done].
  eapply push_keeps; [reflexivity|]. intros _. destruct (past_later _ _ _ Hm1 Hp) as (e' & He' & (Hid & _) & Hs).
  destruct (units_later _ _ _ Hm1 Hu) as [Hul Hup]. destruct Hk as (Hd & Had & _).
  assert (Hd' : ob_delivery e' = d) by (unfold ob_delivery in *; congruence).
  exists e', content. rewrite Hd', Hid. by split_and?.
Qed.

Lemma retry_key_known e d w : known w e d -> retry_key tenantId e = ob_providerRequestKey (ob_identity e).
Proof. intros (_ & _ & Hk & _). unfold retry_key. by rewrite Hk. Qed.

Lemma send_safe e c canonical userId token n content s : known s e (sm_deliveryId c) -> past s e -> units s (sm_deliveryId c) ->
  content_of (ob_contentRef (ob_identity e)) = Some content -> cq_messages canonical = ln_messages content ->
  safe (send tenantId configDigest policyOf e c canonical userId token n content) (fun _ _ => True) s.
Proof.
  intros Hk Hp Hu Hc Hmsg. unfold send. apply bind_line. eapply within_line_keep; [apply now_within|]. intros [t|x] s1 Hm1 _; [|done].
  apply bind_line. eapply weaken_line; [|apply (push_safe e (sm_deliveryId c) _ content)].
  2: by eapply known_later. 2: by eapply past_later. 2: by eapply units_later. 2-3: done. 2: by apply (retry_key_known _ (sm_deliveryId c) s).
  intros [answer|x] s2 _ _ _; [|done].
  do 2 (apply bind_line; eapply within_line_keep; [by eauto with line|]; intros [?|?] ? _ _; [|done]).
  apply bind_line, done_line. intros s3 _ _. destruct (assertLineOutcomeScope _ _) as [oc|x]; [|done].
  apply bind_line. eapply weaken_line; [|apply record_receipt_safe]. intros [row|x] s4 _ _ Hr; [|done]. by apply conclude_safe.
Qed.

Lemma attempt_safe e c canonical grant n content s : known s e (sm_deliveryId c) -> has_unit (lt_ledger (lw_control s)) (sm_deliveryId c) LOGICAL_DELIVERY ->
  (ob_state e = QUEUED \/ past s e) -> content_of (ob_contentRef (ob_identity e)) = Some content -> cq_messages canonical = ln_messages content ->
  safe (attempt tenantId actor configDigest policyOf e c canonical grant n content) (fun _ _ => True) s.
Proof.
  intros Hk Hu Hst Hc Hmsg. unfold attempt. apply bind_line. eapply within_line_keep; [apply now_within|]. intros [t|x] s1 Hm1 _; [|done].
  apply bind_line. eapply weaken_line; [|apply reserveProviderAttempt_safe]. intros [reserved|x] s2 Hm2 _ Hp; [|done].
  assert (Hm : line_moves s s2) by (by etrans).
  destruct reserved as [entry| |code]; [| |by apply done_line].
  1-2: apply bind_line, query_line; intros s3 s3' Hm3 _ Hm3' _; apply bind_line, query_line; intros s4 s4' Hm4 _ Hm4' _;
    destruct (lo_recipients _ _) as [userId|]; [|by apply done_line]; destruct (lo_tokens _ _ _) as [token|]; [|by apply done_line];
    (assert (Hm24 : line_moves s2 s4') by (do 3 (etrans; [eassumption|]); done));
    (assert (Hk4 : known s4' e (sm_deliveryId c)) by (eapply known_later; [|exact Hk]; by etrans));
    (assert (Hu4 : units s4' (sm_deliveryId c)) by
       (eapply units_later; [exact Hm24|]; split; [eapply has_unit_later; [apply (mv_ledger _ _ Hm)|exact Hu]|exact Hp]));
    apply bind_line; destruct (bool_decide (ob_state e = QUEUED)) eqn:Eq; bool_prop.
  1,3: eapply weaken_line; [|by apply cross_barrier_safe]; intros [[]|x] s5 Hm5 _ Hpast; [|done];
    apply send_safe; [by eapply known_later|done|by eapply units_later|done|done].
  1,2: apply done_line; intros s5 Hm5 _; apply send_safe; [by eapply known_later| |by eapply units_later|done|done];
    destruct Hst as [Hst|Hst]; [done|]; eapply past_later; [|exact Hst]; etrans; [exact Hm|]; by etrans.
Qed.

(** ** The adapter's methods *)

Lemma require_safe c s : safe (require_entry c)
  (fun r w => match r with Ok e => known w e (sm_deliveryId c) /\ (ob_state e <> QUEUED -> past w e) | Err _ => True end) s.
Proof.
  unfold require_entry. apply bind_line, query_line. intros s1 s2 _ Hs1 Hm _.
  destruct (findByDeliveryId _ _ s1) as [e|] eqn:Ef; [|by apply done_line]. apply find_some in Ef as [He Hd]. unfold ob_is in Hd. bool_prop.
  assert (Hk : known s1 e (sm_deliveryId c)).
  { split; [done|]. split; [done|]. destruct (ok_outbox _ _ Hs1 e He) as [Hc _]. unfold outbox_check in Hc.
    rewrite (bool_decide_eq_true_2 (ob_adapter _ = _)) in Hc by done. cbn in Hc. bool_prop. split; [done|]. by exists e. }
  apply done_line. intros s3 Hm3 _. assert (Hm13 : line_moves s1 s3) by (by etrans). split; [by eapply known_later|]. intros Hs.
  eapply past_later; [exact Hm13|]. by exists e.
Qed.

Lemma resolve_safe e s : safe (resolve_content content_source e)
  (fun r w => match r with Ok content => content_of (ob_contentRef (ob_identity e)) = Some content | Err _ => True end) s.
Proof.
  unfold resolve_content. apply done_line. intros s1 _ _. unfold content_of. by destruct (default fixture_content content_source _).
Qed.

Lemma window_within first : held_within (window_over first).
Proof. unfold window_over. within_all. Qed.

Lemma reconcile_safe c granted_ s :
  match granted_ with Some _ => has_unit (lt_ledger (lw_control s)) (sm_deliveryId c) LOGICAL_DELIVERY | None => True end ->
  safe (reconcile tenantId actor configDigest content_source policyOf c granted_) (fun _ _ => True) s.
Proof.
  intros Hg. unfold reconcile. apply bind_line. eapply weaken_line; [|apply require_safe]. intros [e|x] s1 Hm1 _ Hkp; [destruct Hkp as [Hk Hpast]|done].
  do 2 (destruct (bool_decide _) in |- *; [by apply done_line|]).
  apply bind_line. eapply weaken_line; [|apply resolve_safe]. intros [content|x] s2 Hm2 _ Hc; [|done].
  apply bind_line, query_line. intros s3 s3' Hm3 _ Hm3' _. apply bind_line. eapply within_line_keep; [apply window_within|].
  intros [expired|x] s4 Hm4 _; [|done].
  assert (Hm14 : line_moves s1 s4) by (do 3 (etrans; [eassumption|]); done).
  destruct expired; [apply within_line, quarantine_within|].
  assert (Hst : forall w, line_moves s4 w -> ob_state e = QUEUED \/ past w e).
  { intros w Hm. destruct (decide (ob_state e = QUEUED)) as [|Hn]; [by left|right]. eapply past_later; [|by apply Hpast]. by etrans. }
  destruct granted_ as [grant|].
  - apply attempt_safe; [by eapply known_later| |by apply Hst|done|done].
    eapply has_unit_later; [apply (mv_ledger s s4); by etrans|done].
  - apply bind_line. eapply within_line_keep; [apply now_within|]. intros [t'|x] s5 Hm5 _; [|done].
    apply bind_line. eapply weaken_line; [|apply beginRun_safe]. intros [[grant|d]|x] s6 Hm6 _ Hu; [|by apply done_line|done].
    assert (Hm46 : line_moves s4 s6) by (by etrans).
    apply attempt_safe; [eapply known_later; [|exact Hk]; by etrans|done|by apply Hst|done|done].
Qed.

Lemma submit_safe c s : safe (submit tenantId actor configDigest content_source policyOf c) (fun _ _ => True) s.
Proof.
  unfold submit. apply bind_line. eapply weaken_line; [|apply require_safe]. intros [e|x] s1 Hm1 _ Hkp; [destruct Hkp as [Hk Hpast]|done].
  do 2 (destruct (bool_decide _) in |- *; [by apply done_line|]).
  destruct (bool_decide (ob_state e = QUEUED)) eqn:Eq; cbn [negb]; [|by apply reconcile_safe]. bool_prop.
  apply bind_line. eapply weaken_line; [|apply resolve_safe]. intros [content|x] s2 Hm2 _ Hc; [|done].
  apply bind_line. eapply within_line_keep; [apply now_within|]. intros [t|x] s3 Hm3 _; [|done].
  apply bind_line. eapply weaken_line; [|apply beginRun_safe]. intros [[grant|d]|x] s4 Hm4 _ Hu; [|by apply done_line|done].
  destruct (rg_barrier grant); [|by apply reconcile_safe].
  apply bind_line. eapply within_line_keep; [apply emit_within|]. intros [[]|x] s5 Hm5 _; [|done].
  apply attempt_safe; [| |by left|done|done].
  - eapply known_later; [|exact Hk]. do 3 (etrans; [eassumption|]). done.
  - eapply has_unit_later; [apply (mv_ledger _ _ Hm5)|done].
Qed.
End Pool.
