(* ===== verification/LineTheorems.v ===== *)
(** * LineTheorems: what LINE delivery guarantees

    Over every interleaving of the methods of [apps/delivery]'s LINE services, each able to die between
    two of its calls: which requests reach the provider, how often, under which authorization, and what
    the tables say of them afterwards. *)
From stdpp Require Import base tactics list strings relations.
From Stdlib Require Import ZArith Lia.
From S2P Require Import Prelude JsMap Text JsDate JsValue Contracts ScopeKey Persistence ReservationRuntime DeliveryCommands Program LineDelivery LineControlPolicy LineTables LineStore LineLedger LineControlPlane LineAdapter LineInvariant LineTransactions LineMethods LinePool.

Open Scope string_scope.
Open Scope Z_scope.
Open Scope list_scope.

Section System.
Context `{Runtime, Host} (tenantId : string) (content_source : option (string -> option LineResolvedContent)).

(** ** The system *)

(** The methods of the LINE services, called by anyone with anything. *)
Inductive line_method : forall {A}, prog A -> Prop :=
  | M_ensureScope actor scope : line_method (ensureScope actor scope)
  | M_advanceState actor gate target digest at_ : line_method (advanceState actor gate target digest at_)
  | M_lowerState actor gate target at_ : line_method (lowerState actor gate target at_)
  | M_setTechnicalSwitch actor gate on at_ : line_method (setTechnicalSwitch actor gate on at_)
  | M_kill actor gate reason at_ : line_method (kill actor gate reason at_)
  | M_killOnSignal gate signal at_ : line_method (killOnSignal gate signal at_)
  | M_killByActor actor gate at_ : line_method (killByActor actor gate at_)
  | M_clearWithApproval actor gate ref at_ : line_method (clearWithApproval actor gate ref at_)
  | M_registerAllowlistEntry actor c at_ : line_method (registerAllowlistEntry actor c at_)
  | M_revokeAllowlist actor id code at_ : line_method (revokeAllowlist actor id code at_)
  | M_registerCredential actor m at_ : line_method (registerCredential actor m at_)
  | M_verifyAndActivateCredential actor id ch v at_ : line_method (verifyAndActivateCredential actor id ch v at_)
  | M_revokeCredential actor id at_ : line_method (revokeCredential actor id at_)
  | M_proposeRun actor c at_ : line_method (proposeRun tenantId actor c at_)
  | M_proposeTeamTrial actor c at_ : line_method (proposeTeamTrial tenantId actor c at_)
  | M_approveRun actor id at_ : line_method (approveRunAs actor id at_)
  | M_closeRun actor id state at_ : line_method (closeRunAs actor id state at_)
  | M_evaluate r : line_method (evaluate r)
  | M_beginRun actor c : line_method (beginRun actor c)
  | M_reserveProviderAttempt actor c gate run n : line_method (reserveProviderAttempt actor c gate run n)
  | M_recordProviderReplayProbe actor run d digest at_ : line_method (recordProviderReplayProbe actor run d digest at_)
  | M_commitDelivery d at_ : line_method (commitDelivery d at_)
  | M_releaseDelivery d at_ : line_method (releaseDelivery d at_)
  | M_enterUnknownReconciling c g run : line_method (enterUnknownReconciling c g run)
  | M_exitUnknownReconciling d at_ : line_method (exitUnknownReconciling d at_)
  | M_enqueue approved key policyOf c : line_method (enqueue tenantId approved key policyOf c)
  | M_submit actor digest policyOf c : line_method (submit tenantId actor digest content_source policyOf c)
  | M_reconcile actor digest policyOf c : line_method (reconcile tenantId actor digest content_source policyOf c None).

Definition line_starts (p : prog unit) : Prop := exists A (q : prog A), line_method q /\ p = bind (fun _ => ret tt) q.

(** The clock, the provider, the keychain and identifiers go on, and so does the rest of Governance. *)
Inductive line_others (w : LineWorld) : LineWorld -> Prop :=
  | Others_outside f : lo_pushes (f (lw_outside w)) = lo_pushes (lw_outside w) -> line_others w (with_outside f w)
  | Others_governance t : governance_moves (lw_governance w) t -> line_others w (with_governance t w).

Definition line_reaches : LineWorld -> LineWorld -> Prop := pool_reaches line_starts line_others.

(** A tenant before it has any LINE delivery. *)
Definition line_fresh (w : LineWorld) : Prop :=
  lw_control w = LineControl_ [] [] [] [] [] [] /\ lw_deliveries w = LineDeliveries_ [] [] [] /\
  runtime_ok (lw_governance w) /\ begin_receipts (lw_governance w) /\ lo_pushes (lw_outside w) = [].

Abbreviation line_ok := (line_ok (content_of content_source)).

(** ** The invariant over every interleaving *)

Lemma line_method_safe {A} (q : prog A) s : line_method q -> safe line_ok line_moves q (fun _ _ => True) s.
Proof.
  assert (Hw : forall B (p : prog B), within (keeps (content_of content_source)) p -> safe line_ok line_moves p (fun _ _ => True) s)
    by (intros B p; apply within_line).
  intros Hm. destruct Hm.
  - apply Hw, ensureScope_within.
  - apply Hw, advanceState_within.
  - apply Hw, lowerState_within.
  - apply Hw, setTechnicalSwitch_within.
  - apply Hw, kill_within.
  - apply Hw, killOnSignal_within.
  - apply Hw, killByActor_within.
  - apply Hw, clearWithApproval_within.
  - apply Hw, registerAllowlistEntry_within.
  - apply Hw, revokeAllowlist_within.
  - apply Hw, registerCredential_within.
  - apply Hw, verifyAndActivateCredential_within.
  - apply Hw, revokeCredential_within.
  - apply Hw, proposeRun_within.
  - apply Hw, proposeTeamTrial_within.
  - apply approveRunAs_safe.
  - apply Hw, closeRunAs_within.
  - apply Hw, evaluate_within.
  - eapply weaken_line; [|apply beginRun_safe]; done.
  - apply Hw, reserveProviderAttempt_within.
  - apply Hw, recordProviderReplayProbe_within.
  - apply Hw, commitDelivery_within.
  - apply Hw, releaseDelivery_within.
  - apply Hw, enterUnknownReconciling_within.
  - apply Hw, exitUnknownReconciling_within.
  - apply Hw, enqueue_within.
  - apply submit_safe.
  - by apply reconcile_safe.
Qed.

Lemma line_reaches_ok w w' : line_ok w -> line_reaches w w' -> line_ok w' /\ line_moves w w'.
Proof.
  apply pool_reaches_ok; [exact _| |].
  - intros s s' Hs Ho. destruct Ho as [f Hf|t Ht]; [by apply keeps_outside|].
    apply keeps_governance; [|done]. intros Hw. by apply governance_moves_ok; [apply Hw|apply Hw|].
  - intros p s (A & q & Hq & ->) Hs. apply safe_bind; [exact _|]. eapply weaken_line; [|by apply line_method_safe].
    intros [a|x] s' _ _ _; [by apply done_line|done].
Qed.

Lemma line_fresh_ok w : line_fresh w -> line_ok w.
Proof.
  intros (Hc & Hd & Hr & Hb & Hp). destruct w as [c dl g o]. cbn in *. subst c dl. constructor; cbn; try done; try (by constructor).
  - intros gateId. constructor; [done..|]. left. by constructor.
  - by rewrite Hp.
Qed.

(** A history from a fresh tenant. *)
Definition line_history (w : LineWorld) : Prop := exists w0, line_fresh w0 /\ line_reaches w0 w.

Lemma history_ok w : line_history w -> line_ok w.
Proof. intros (w0 & Hf & Hr). apply (line_reaches_ok w0 w); [by apply line_fresh_ok|done]. Qed.

(** ** Requests *)

(** C8: whatever reaches LINE was authorized. In every history, however its methods interleave and
    wherever they die, each request the provider received is that of a delivery of the outbox past its
    barrier: the submission of its reservation has begun, it carries the content approved for the
    reference, under the key the delivery was enqueued with; and the delivery has a unit of the ledger
    under an authorization of the unit's gate that was approved for the tenant and for Compliance, each time
    by someone who did not propose it, for the recipient of its entry of the allowlist, and that this very
    delivery consumed where it is a pilot's. *)
Theorem requests_authorized w q : line_history w -> In q (lo_pushes (lw_outside w)) ->
  exists e content u r a, In e (ld_outbox (lw_deliveries w)) /\ ob_providerRequestKey (ob_identity e) = pq_retryKey q /\
    isLineRetryKey (pq_retryKey q) = true /\ ob_state e <> QUEUED /\
    begun (rt_reservations (lw_governance w)) (ob_reservationId (ob_identity e)) /\
    content_of content_source (ob_contentRef (ob_identity e)) = Some content /\ pq_messages q = ln_messages content /\
    In u (lt_ledger (lw_control w)) /\ cu_deliveryId (ce_unit u) = ob_delivery e /\ cu_capKind (ce_unit u) = LOGICAL_DELIVERY /\
    In r (lt_runs (lw_control w)) /\ ru_id r = cu_runAuthorizationId (ce_unit u) /\ ru_gateId r = cu_gateId (ce_unit u) /\
    (exists x y, ru_tenantAdminApproved r = Some x /\ ru_complianceApproved r = Some y /\
       fst x <> rp_proposedBy (ru_proposal r) /\ fst y <> rp_proposedBy (ru_proposal r)) /\
    (is_trial (ru_proposal r) = true \/ snd <$> ru_consumed r = Some (ob_delivery e)) /\
    In a (lt_allowlist (lw_control w)) /\ al_id (al_tuple a) = rp_allowlistEntryId (ru_proposal r) /\
    al_recipientFingerprint (al_tuple a) = cu_recipientFingerprint (ce_unit u).
Proof.
  intros Hh Hq. pose proof (history_ok w Hh) as Hw.
  destruct (ok_pushes _ w Hw q Hq) as (e & content & He & Had & Hk & Hs & Hc & Hm & (u & Hu & Hud & Huk) & _).
  destruct (ok_outbox _ w Hw e He) as [Hch Hrow]. destruct (ok_units _ w Hw u Hu) as [_ Hun].
  destruct (Hun Huk) as (r & a & Hr & Hid & Hg & [[x Hx] [y Hy]] & Hcon & Ha & Haid & Haf). destruct (ok_runs _ w Hw r Hr) as [_ Hap].
  exists e, content, u, r, a. split_and?; try done.
  - rewrite <- Hk. unfold outbox_check in Hch. rewrite (bool_decide_eq_true_2 (ob_adapter _ = _)) in Hch by done. cbn in Hch. bool_prop. done.
  - by apply Hrow.
  - exists x, y. split; [done|]. split; [done|]. unfold approvals in Hap. rewrite Hx, Hy in Hap. cbn in Hap. auto.
  - by rewrite <- Hud.
Qed.

(** C10: a key is never used for anything else. In every history, two requests under one key are of one
    delivery and carry the same messages, however often and from wherever they were sent. *)
Theorem requests_repeat_exactly w q1 q2 : line_history w -> In q1 (lo_pushes (lw_outside w)) -> In q2 (lo_pushes (lw_outside w)) ->
  pq_retryKey q1 = pq_retryKey q2 ->
  pq_messages q1 = pq_messages q2 /\
  forall e1 e2, In e1 (ld_outbox (lw_deliveries w)) -> In e2 (ld_outbox (lw_deliveries w)) ->
    ob_providerRequestKey (ob_identity e1) = pq_retryKey q1 -> ob_providerRequestKey (ob_identity e2) = pq_retryKey q2 -> e1 = e2.
Proof.
  intros Hh H1 H2 Hkey. pose proof (history_ok w Hh) as Hw.
  assert (Huniq : forall e1 e2, In e1 (ld_outbox (lw_deliveries w)) -> In e2 (ld_outbox (lw_deliveries w)) ->
    ob_providerRequestKey (ob_identity e1) = pq_retryKey q1 -> ob_providerRequestKey (ob_identity e2) = pq_retryKey q2 -> e1 = e2).
  { intros e1 e2 He1 He2 Hk1 Hk2.
    apply (NoDup_map_inj (fun e => ob_providerRequestKey (ob_identity e)) (ld_outbox (lw_deliveries w))); [apply Hw|done..|congruence]. }
  split; [|exact Huniq]. destruct (ok_pushes _ w Hw q1 H1) as (e1 & c1 & He1 & _ & Hk1 & _ & Hc1 & Hm1 & _).
  destruct (ok_pushes _ w Hw q2 H2) as (e2 & c2 & He2 & _ & Hk2 & _ & Hc2 & Hm2 & _).
  rewrite (Huniq e1 e2 He1 He2 Hk1 Hk2) in Hc1. congruence.
Qed.

(** ** Caps *)

(** Attempts of a delivery in the ledger. *)
Definition attempt_unit (d : string) (e : CapLedgerEntry) : bool :=
  bool_decide (cu_deliveryId (ce_unit e) = d) && bool_decide (cu_capKind (ce_unit e) = PROVIDER_ATTEMPT).

(** Attempts are numbered apart, from one to four. *)
Lemma attempt_units_bounded rows d : List.NoDup (map (fun e => cap_key (ce_unit e)) rows) -> (forall e, In e rows -> cap_check e = true) ->
  count_where (attempt_unit d) rows <= 4.
Proof.
  intros Hn Hc. unfold count_where. set (l := js_filter (attempt_unit d) rows).
  assert (Hl : forall e, In e l -> attempt_unit d e = true /\ cap_check e = true).
  { intros e He. apply filter_In in He as [Hin Ha]. split; [done|by apply Hc]. }
  assert (Hnd : List.NoDup (map (fun e => cu_attemptNo (ce_unit e)) l)).
  { clear Hc Hl. subst l. induction rows as [|x rows IH]; cbn in *; [constructor|]. inversion Hn as [|? ? Hx Hn']; subst.
    destruct (attempt_unit d x) eqn:Ex; [|by apply IH]. cbn. constructor; [|by apply IH].
    intros Hin. apply in_map_iff in Hin as (y & Hy & Hyin). apply filter_In in Hyin as [Hyin Hay]. apply Hx, in_map_iff. exists y. split; [|done].
    unfold attempt_unit in *. bool_prop. unfold cap_key. congruence. }
  assert (Hincl : incl (map (fun e => cu_attemptNo (ce_unit e)) l) [1; 2; 3; 4]).
  { intros n Hin. apply in_map_iff in Hin as (e & <- & He). destruct (Hl e He) as [Ha Hch]. unfold attempt_unit, cap_check in *. bool_prop.
    match goal with H : Bool.eqb (bool_decide (cu_capKind _ = _)) _ = true |- _ => apply Bool.eqb_prop in H; rewrite bool_decide_eq_true_2 in H by done; symmetry in H end.
    bool_prop.
    cbn. lia. }
  pose proof (NoDup_incl_length Hnd Hincl) as Hlen. rewrite length_map in Hlen. cbn in Hlen. lia.
Qed.

(** C9: the caps hold under every interleaving. In every history, at each gate at most one submission
    and one unknown outcome are under way at a time; its logical deliveries that are held or went out are
    at most the pilot's one for a run, one for a recipient in any day, three in any day and ten ever, and
    where a run of a team trial took part, at most the ceilings of a trial; and no delivery has more than
    four attempts. *)
Theorem caps_hold w gateId d : line_history w ->
  let rows := lt_ledger (lw_control w) in
  count_where (held gateId CONCURRENT_SUBMISSION) rows <= 1 /\ count_where (held gateId CONCURRENT_UNKNOWN) rows <= 1 /\
  (within_caps rows gateId (DeliveryCaps 1 1 3 10) \/
   (trial_at (lt_runs (lw_control w)) rows gateId /\ within_caps rows gateId (DeliveryCaps 600 20 100 3000))) /\
  count_where (attempt_unit d) rows <= 4.
Proof.
  intros Hh rows. pose proof (history_ok w Hh) as Hw. destruct (ok_bounds _ w Hw gateId) as [Hs Hu Hd].
  split_and?; [done|done|exact Hd|]. apply attempt_units_bounded; [apply Hw|]. intros e He. by apply (ok_units _ w Hw e He).
Qed.

(** C12: an authorization of a pilot is for one delivery, and a unit for one recipient. In every history
    the logical deliveries reserved under one pilot authorization are of one delivery, and every delivery
    has at most one logical unit, so one recipient, gate and authorization. *)
Theorem authorization_used_once w e1 e2 : line_history w -> In e1 (lt_ledger (lw_control w)) -> In e2 (lt_ledger (lw_control w)) ->
  cu_capKind (ce_unit e1) = LOGICAL_DELIVERY -> cu_capKind (ce_unit e2) = LOGICAL_DELIVERY ->
  (cu_runAuthorizationId (ce_unit e1) = cu_runAuthorizationId (ce_unit e2) ->
   (forall r, In r (lt_runs (lw_control w)) -> ru_id r = cu_runAuthorizationId (ce_unit e1) -> is_trial (ru_proposal r) = false) -> e1 = e2) /\
  (cu_deliveryId (ce_unit e1) = cu_deliveryId (ce_unit e2) -> e1 = e2).
Proof.
  intros Hh H1 H2 Hk1 Hk2. pose proof (history_ok w Hh) as Hw. destruct (ok_units _ w Hw e1 H1) as [Hc1 Ha1], (ok_units _ w Hw e2 H2) as [Hc2 Ha2].
  assert (Hno : forall e, cap_check e = true -> cu_capKind (ce_unit e) = LOGICAL_DELIVERY -> cu_attemptNo (ce_unit e) = 0).
  { intros e Hc Hk. unfold cap_check in Hc. do 2 apply andb_prop in Hc as [Hc _]. apply andb_prop in Hc as [_ Hc].
    rewrite Hk, bool_decide_eq_false_2 in Hc by done. by apply Z.eqb_eq. }
  assert (Hd : cu_deliveryId (ce_unit e1) = cu_deliveryId (ce_unit e2) -> e1 = e2).
  { intros Hd. apply (NoDup_map_inj (fun e => cap_key (ce_unit e)) (lt_ledger (lw_control w))); [apply Hw|done..|]. unfold cap_key.
    rewrite Hd, Hk1, Hk2, !Hno by done. done. }
  split; [|exact Hd]. intros Hr Hp. apply Hd. destruct (Ha1 Hk1) as (r1 & _ & Hr1 & Hid1 & _ & _ & Hcon1 & _), (Ha2 Hk2) as (r2 & _ & Hr2 & Hid2 & _ & _ & Hcon2 & _).
  assert (r1 = r2) as -> by (apply (NoDup_map_inj ru_id (lt_runs (lw_control w))); [apply Hw|done..|congruence]).
  rewrite (Hp r2 Hr2 Hid1) in Hcon1, Hcon2. destruct Hcon1 as [?|Hcon1], Hcon2 as [?|Hcon2]; congruence.
Qed.

(** ** Outcomes *)

(** The receipt that knows the outcome is the last one. *)
Lemma known_receipt_last l a : Forall unknown_outcome (removelast l) -> In a l -> ~ unknown_outcome a -> last l = Some a.
Proof.
  intros Hu Hin Ha. destruct (exists_last (l := l)) as (l0 & x & ->); [by destruct l|]. rewrite removelast_last in Hu. rewrite last_snoc.
  apply in_app_iff in Hin as [Hin|[<-|[]]]; [|done]. exfalso. apply Ha. rewrite Forall_forall in Hu. by apply Hu, list_elem_of_In.
Qed.

(** The receipts of a delivery, as [receipts_wf] has them. *)
Lemma receipts_bounded rows d : receipts_wf rows -> (length (js_filter (of_delivery d) rows) <= 4)%nat.
Proof.
  intros [Hr Hc]. destruct (Hr d) as [Hn _]. set (l := js_filter (of_delivery d) rows) in *. destruct l as [|x0 l0] eqn:El; [cbn; lia|].
  assert (Hin : In (Z.of_nat (length l)) (map sa_attemptNo l)).
  { subst l. rewrite El, Hn, <- list_elem_of_In, elem_of_seqZ. cbn. lia. }
  apply in_map_iff in Hin as (a & Ha & Hin). apply filter_In in Hin as [Hin _]. specialize (Hc a Hin). unfold attempt_check in Hc. bool_prop.
  rewrite <- El. fold l. lia.
Qed.

Lemma final_code code o : lineNormalizedOutcome code = Terminal o -> LINE_PROVIDER_OUTCOME_CLASS code <> CLASS_RETRYABLE_UNKNOWN.
Proof. unfold lineNormalizedOutcome. intros Hc He. by rewrite He in Hc. Qed.

Lemma says_last rows d o : receipts_wf rows -> receipt_says rows d o ->
  exists a, last (js_filter (of_delivery d) rows) = Some a /\ lineNormalizedOutcome (sa_outcomeCode a) = Terminal o.
Proof.
  intros [Hr Hc] (a & Ha & Hd & Ho). exists a. split; [|done]. apply known_receipt_last; [by apply Hr| |].
  - apply filter_In. split; [done|]. by apply bool_decide_eq_true.
  - specialize (Hc a Ha). unfold attempt_check in Hc. bool_prop. unfold unknown_outcome. intros Hu. apply (final_code _ _ Ho). congruence.
Qed.

Lemma same_numbers (l l' : list SubmissionAttempt) n : map sa_attemptNo l = seqZ 1 n -> map sa_attemptNo l' = seqZ 1 n ->
  (forall a, In a l -> In a l') -> l = l'.
Proof.
  intros Hl Hl' Hi. apply list_eq. intros i.
  assert (Hat : forall k x, map sa_attemptNo k = seqZ 1 n -> k !! i = Some x -> sa_attemptNo x = 1 + Z.of_nat i).
  { intros k x Hk Hx. assert (Hm : map sa_attemptNo k !! i = Some (sa_attemptNo x)) by (by rewrite list_lookup_fmap, Hx).
    rewrite Hk in Hm. by apply lookup_seqZ in Hm as [-> _]. }
  destruct (l !! i) as [x|] eqn:Ex.
  - symmetry. assert (Hx : x ∈ l') by (apply list_elem_of_In, Hi, list_elem_of_In; by eapply list_elem_of_lookup_2).
    apply list_elem_of_lookup in Hx as [j Hj]. assert (j = i) as ->; [|done].
    assert (Hm : map sa_attemptNo l' !! j = Some (sa_attemptNo x)) by (by rewrite list_lookup_fmap, Hj).
    rewrite Hl' in Hm. apply lookup_seqZ in Hm as [Hm _]. rewrite (Hat l x Hl Ex) in Hm. lia.
  - symmetry. apply lookup_ge_None. apply lookup_ge_None in Ex. assert (Hlen : length (map sa_attemptNo l) = length (map sa_attemptNo l')) by congruence.
    rewrite !length_map in Hlen. lia.
Qed.

(** Receipts end with the outcome. *)
Lemma settled_receipts rows rows' d o : receipts_wf rows -> receipts_wf rows' -> (forall a, In a rows -> In a rows') ->
  receipt_says rows d o -> js_filter (of_delivery d) rows = js_filter (of_delivery d) rows'.
Proof.
  intros Hw Hw' Hi Hsays. assert (Hsays' : receipt_says rows' d o) by (by eapply receipt_says_later).
  pose proof Hsays as (a & Ha & Hd & Ho). pose proof (proj1 Hw d) as [Hn Hu]. pose proof (proj1 Hw' d) as [Hn' Hu'].
  assert (Hfin : ~ unknown_outcome a).
  { pose proof (proj2 Hw a Ha) as Hc. unfold attempt_check in Hc. bool_prop. unfold unknown_outcome. intros He. apply (final_code _ _ Ho). congruence. }
  assert (Hin : forall r, In a r -> In a (js_filter (of_delivery d) r)) by (intros r Hr; apply filter_In; split; [done|by apply bool_decide_eq_true]).
  assert (Hlen : forall k : list SubmissionAttempt, map sa_attemptNo k = seqZ 1 (Z.of_nat (length k)) -> last k = Some a -> sa_attemptNo a = Z.of_nat (length k)).
  { intros k Hk Hl. apply last_Some in Hl as (k0 & ->). rewrite length_app in *. rewrite map_app in Hk. cbn in *.
    rewrite Nat2Z.inj_add, seqZ_app in Hk by lia. apply app_inj_tail in Hk as [_ Hk]. lia. }
  pose proof (Hlen _ Hn (known_receipt_last _ _ Hu (Hin _ Ha) Hfin)) as H1.
  pose proof (Hlen _ Hn' (known_receipt_last _ _ Hu' (Hin _ (Hi _ Ha)) Hfin)) as H2.
  eapply same_numbers; [exact Hn|by rewrite Hn', <- H2, <- H1|]. intros x Hx. apply filter_In in Hx as [Hx Hxd]. apply filter_In. auto.
Qed.

(** C11: an outcome is what the provider said, once. In every history the receipts of a delivery are
    numbered from one, at most four, and none but the last knows the outcome; a row that settled has the
    outcome of a receipt, one that is taken for accepted a receipt of acceptance, and one that has not
    settled none; and whatever is done afterwards leaves a settled row as it is and adds no receipt that
    says otherwise. *)
Theorem outcomes_from_receipts w w' e : line_history w -> line_reaches w w' -> In e (ld_outbox (lw_deliveries w)) ->
  let receipts := js_filter (of_delivery (ob_delivery e)) (ld_attempts (lw_deliveries w)) in
  map sa_attemptNo receipts = seqZ 1 (Z.of_nat (length receipts)) /\ (length receipts <= 4)%nat /\
  Forall unknown_outcome (removelast receipts) /\
  (ob_state e = SUBMITTED -> exists a, last receipts = Some a /\ lineNormalizedOutcome (sa_outcomeCode a) = Terminal PROVIDER_ACCEPTED) /\
  (ob_state e <> SETTLED -> ob_outcome e = None) /\
  (ob_state e = SETTLED -> In e (ld_outbox (lw_deliveries w')) /\ exists o a, ob_outcome e = Some o /\ last receipts = Some a /\
     lineNormalizedOutcome (sa_outcomeCode a) = Terminal o /\
     js_filter (of_delivery (ob_delivery e)) (ld_attempts (lw_deliveries w')) = receipts).
Proof.
  intros Hh Hr He receipts. pose proof (history_ok w Hh) as Hw. destruct (line_reaches_ok w w' Hw Hr) as [Hw' Hm].
  destruct (ok_outbox _ w Hw e He) as [_ [_ Hacc Hset Hopen]]. pose proof (ok_receipts _ w Hw) as Hrec. destruct Hrec as [Hn Hc].
  destruct (Hn (ob_delivery e)) as [Hnum Hunk]. fold receipts in Hnum, Hunk.
  split; [done|]. split; [by apply receipts_bounded|]. split; [done|]. split; [|split; [done|]].
  - intros Hs. destruct (says_last _ _ _ (ok_receipts _ w Hw) (Hacc Hs)) as (a & Ha & Ho). by exists a.
  - intros Hs. destruct (Hset Hs) as (o & Hout & Hsays). destruct (says_last _ _ _ (ok_receipts _ w Hw) Hsays) as (a & Ha & Ho). split.
    + destruct (mv_outbox _ _ Hm e He) as (e' & He' & _ & _ & Hsame). by rewrite <- (Hsame Hs).
    + exists o, a. split_and?; try done. symmetry. by eapply settled_receipts; [apply Hw|apply Hw'|apply Hm|].
Qed.
(** ** Kills *)

(** C13: a killed gate comes back step by step. In every history, wherever a gate that was killed is
    found again, it is killed still, or it was cleared and has since been moved up one state at a time:
    each state above [DISABLED] has cost it an update of its own, so at [CAPPED_PILOT], where alone it
    allows requests, it is four versions on at least. *)
Theorem killed_gate_returns_stepwise w w' g g' : line_history w -> line_reaches w w' ->
  In g (lt_gates (lw_control w)) -> gt_killed g = true -> In g' (lt_gates (lw_control w')) -> gt_id g' = gt_id g ->
  gt_scope g' = gt_scope g /\ gt_version g <= gt_version g' /\
  (gt_killed g' = true \/ gt_version g + 1 + rolloutRank (gt_businessState g') <= gt_version g') /\
  (gt_killed g' = false -> allowsOperation (gt_businessState g') PUSH = true -> gt_version g + 4 <= gt_version g').
Proof.
  intros Hh Hr Hg Hk Hg' Hid. pose proof (history_ok w Hh) as Hw. destruct (line_reaches_ok w w' Hw Hr) as [Hw' Hm].
  destruct (mv_gates _ _ Hm g Hg) as (g1 & Hg1 & Hal).
  assert (Hstep : gt_id g1 = gt_id g /\ gt_scope g1 = gt_scope g /\ gt_version g <= gt_version g1 /\
                  (gt_killed g1 = true \/ gt_version g + 1 + rolloutRank (gt_businessState g1) <= gt_version g1)).
  { apply (allowed_by_keeps dl_line_guard_scope_gate (fun x => gt_id x = gt_id g /\ gt_scope x = gt_scope g /\ gt_version g <= gt_version x /\
      (gt_killed x = true \/ gt_version g + 1 + rolloutRank (gt_businessState x) <= gt_version x)) g g1); [|done|].
    - intros a b Hab (Hi & Hs & Hv & Hc). destruct (guard_gate _ _ Hab) as (Hi' & Hs' & Hv' & Hrk & Hcl).
      split; [congruence|]. split; [congruence|]. split; [lia|]. destruct (gt_killed b) eqn:Eb; [by left|right].
      destruct Hc as [Hc|Hc]; [|lia]. rewrite (Hcl Hc eq_refl). cbn. lia.
    - split; [done|]. split; [done|]. split; [lia|by left]. }
  assert (g1 = g') as -> by (apply (NoDup_map_inj gt_id (lt_gates (lw_control w'))); [apply Hw'|done..|destruct Hstep; congruence]).
  destruct Hstep as (_ & Hs & Hv & Hc). split_and?; try done. intros Hk' Ha. destruct Hc as [Hc|Hc]; [congruence|].
  destruct (gt_businessState g'); cbn in *; [done..|lia].
Qed.
End System.
