(* ===== verification/LineScenario.v ===== *)
(** * LineScenario: a pilot delivery, from its scope to its outcome

    A worked tenant: its scope is opened, a recipient allowlisted, a run approved by two, a delivery
    enqueued and sent; the theorems of LineTheorems at it, and what goes wrong where a process dies or the
    provider stays silent twice. *)
From stdpp Require Import base tactics list strings relations.
From Stdlib Require Import ZArith Lia.
From S2P Require Import Prelude JsMap Text JsDate JsValue Contracts PolicyPreview ScopeKey Persistence PolicyScenario ReservationRuntime DeliveryCommands Program LineDelivery LineControlPolicy LineTables LineStore LineLedger LineControlPlane LineAdapter LineInvariant LineTransactions LineMethods LinePool LineTheorems.

Open Scope string_scope.
Open Scope Z_scope.
Open Scope list_scope.

#[local] Existing Instance two_zone_host.

(** A checksum in sixty-four hexadecimal digits, the last one first; and identifiers in the form of a UUID. *)
Fixpoint hex_digits (n : nat) (z : Z) : string :=
  match n with O => "" | S n' => String (hex_digit (z mod 16)) (hex_digits n' (z / 16)) end.
Definition hex_host : Host :=
  {| sha256_hex s := hex_digits 64 (checksum s 7); locale_le := str_le;
     fresh n := "00000000-0000-4000-8000-" +:+ hex_digits 12 (Z.of_nat n) |}.
#[local] Existing Instance hex_host.

Lemma hex_digits_format n z : String.length (hex_digits n z) = n /\ string_forall is_lower_hex (hex_digits n z) = true.
Proof.
  revert z. induction n as [|n IH]; intros z; cbn; [done|]. destruct (IH (z / 16)) as [-> ->]. split; [done|]. rewrite andb_true_r.
  pose proof (Z.mod_pos_bound z 16 ltac:(lia)) as Hb. assert (Hc : In (z mod 16) [0; 1; 2; 3; 4; 5; 6; 7; 8; 9; 10; 11; 12; 13; 14; 15]) by (cbn; lia).
  cbn in Hc. repeat (destruct Hc as [<-|Hc]; [done|]). done.
Qed.

(** ** The tenant *)

Definition monday : Z := 1767621600000.
Definition minutes (n : Z) : Z := n * 60000.

Definition reservation (id action : string) : ReservationRow :=
  ReservationRow_ (Booking_ id "ann" None LINE "SERVICE" "campaign" "s1" None action "h" (monday + 4 * DAY_MS) None None None 0 None)
    no_lease no_submission (Outcome_ RESERVED None None None (Some T_UNCLAIMED) None None None).

Definition fresh_world : LineWorld :=
  LineWorld_ (LineControl_ [] [] [] [] [] []) (LineDeliveries_ [] [] [])
    (RuntimeTables_ [reservation "res-1" "act-1"; reservation "res-2" "act-2"] no_facts)
    (LineOutside_ monday 0 [] (fun _ => Some "U-ann") (fun _ _ => Some "token") (fun _ => 0) []).

(** A method to its [n]th call, and the clock and the provider's answers to come. *)
Definition calls {A} (n : nat) (q : prog A) (w : LineWorld) : LineWorld := run_until n (bind (fun _ => ret tt) q) w.
Definition outside (t : Z) (answers : list (option LineTransportResult)) : LineWorld -> LineWorld :=
  with_outside (fun o => LineOutside_ t (lo_nextId o) answers (lo_recipients o) (lo_tokens o) (lo_contactVersion o) (lo_pushes o)).
Definition whole {A} : prog A -> LineWorld -> LineWorld := calls 200.

(** What the recipient is known by: the digest the worker makes of the channel and of who responds. *)
Definition ann_fingerprint : string := Eval vm_compute in sha256_hex "oa-1|U-ann".
Definition operator : LineControlActor := ControlActor PLATFORM_OPERATOR "op".
Definition compliance : LineControlActor := ControlActor COMPLIANCE "carol".
Definition admin : LineControlActor := ControlActor TENANT_ADMIN "tess".
Definition scope : LineGateScope := GateScope "oa-1" "sender-1" "SERVICE" "CUSTOMER".
Definition gate_of (w : LineWorld) : ScopeGate := default (ScopeGate_ "" scope DISABLED false None None None 0) (findGate scope w).
Definition content_ref : string := "fixture:service-notification/v1".
Definition content_digest : string := default "" (lineContentDigest content_ref).

(** Its gate moved up state by state, and switched on. Each stage is computed once. *)
Definition listed : LineWorld := Eval vm_compute in whole (ensureScope operator scope) fresh_world.
Definition advances_to (s : LineRolloutState) (w : LineWorld) := advanceState compliance (gate_of w) s (Some "cfg") monday.
Definition dry : LineWorld := Eval vm_compute in whole (advances_to DRY_RUN listed) listed.
Definition conforming : LineWorld := Eval vm_compute in whole (advances_to PROVIDER_CONFORMANCE dry) dry.
Definition piloted : LineWorld := Eval vm_compute in whole (advances_to CAPPED_PILOT conforming) conforming.
Definition switches_on (w : LineWorld) := setTechnicalSwitch operator (gate_of w) true monday.
Definition opened : LineWorld := Eval vm_compute in whole (switches_on piloted) piloted.

Definition entry_of (w : LineWorld) : AllowlistEntry :=
  default (AllowlistEntry_ (AllowlistTuple_ "" "" scope "" "" "" "" "" 0 0 "") None) (head (lt_allowlist (lw_control w))).
Definition credential_of (w : LineWorld) : CredentialRef :=
  default (CredentialRef_ (CredentialMeta_ "" "" CHANNEL_SECRET 0 "" "" "" None 0 None None) CRED_CANDIDATE None None None None)
    (head (lt_credentials (lw_control w))).
Definition token_meta (id : string) : CredentialMeta :=
  CredentialMeta_ id "oa-1" CHANNEL_ACCESS_TOKEN_V2_1 1 "svc" "acct" "fp" (Some "kid") monday (Some (monday + 20 * DAY_MS)) None.

(** The recipient allowlisted and the token active. *)
Definition allows_ann := registerAllowlistEntry admin (RegisterAllowlistCommand (gt_id (gate_of opened)) scope ann_fingerprint "ref-ann" content_ref
  content_digest "cfg" monday (monday + 4 * DAY_MS) "audit-1") monday.
Definition allowlisted : LineWorld := Eval vm_compute in whole allows_ann opened.
Definition registers_token := registerCredential operator token_meta monday.
Definition registered : LineWorld := Eval vm_compute in whole registers_token allowlisted.
Definition activates_token := verifyAndActivateCredential operator (cd_id (cd_meta (credential_of registered))) "oa-1" monday monday.
Definition furnished : LineWorld := Eval vm_compute in whole activates_token registered.

Definition run_id (w : LineWorld) : string := default "" (ru_id <$> last (lt_runs (lw_control w))).

(** A run proposed and approved by two. *)
Definition proposes (ref : string) (t : Z) (w : LineWorld) :=
  proposeRun "t" operator (ProposeRunCommand (gate_of w) (entry_of w) (credential_of w) ref t None) t.
Definition approves (by_ : LineControlActor) (t : Z) (w : LineWorld) := approveRunAs by_ (run_id w) t.
Definition proposed : LineWorld := Eval vm_compute in whole (proposes "p-1" monday furnished) furnished.
Definition half_approved : LineWorld := Eval vm_compute in whole (approves admin monday proposed) proposed.
Definition approved : LineWorld := Eval vm_compute in whole (approves compliance monday half_approved) half_approved.

Definition key_of (n : nat) : string := "0000000" +:+ show (Z.of_nat (n mod 10)) +:+ "-0000-4000-8000-0000000000" +:+ show (Z.of_nat (10 + n)).
Definition enqueue_command (res action : string) : EnqueueLineDeliveryCommand :=
  EnqueueCommand "corr" None res action "ann" None "SERVICE" "campaign" "sender-1" content_ref (toISOString (monday + 3 * DAY_MS)).
Definition enqueues (res action : string) := enqueue "t" None key_of defaultSettlementPolicy (enqueue_command res action).
Definition ready : LineWorld := Eval vm_compute in whole (enqueues "res-1" "act-1") approved.

Definition delivery_of (action : string) (w : LineWorld) : string :=
  default "" (ob_delivery <$> findByActionKey action w).
Definition submission (action runId : string) (t : Z) (w : LineWorld) : LineSubmitCommand :=
  SubmitCommand (delivery_of action w) scope runId ann_fingerprint "ref-ann" "corr" (Some (QuotaSnapshot false None 0 t)).

(** A submission at a minute of the day, with the answers the provider gives, up to its [n]th call. *)
Definition submits (action runId : string) (t : Z) (w : LineWorld) : prog LineSubmitOutcome :=
  submit "t" operator "cfg" None defaultSettlementPolicy (submission action runId t w).
Definition asked (t : Z) (answers : list (option LineTransportResult)) : LineWorld -> LineWorld := outside (monday + minutes t) answers.
Definition submitted_at (n : nat) (action runId : string) (t : Z) (answers : list (option LineTransportResult)) (w : LineWorld) : LineWorld :=
  calls n (submits action runId (monday + minutes t) (asked t answers w)) (asked t answers w).
Definition answer_at (action runId : string) (t : Z) (answers : list (option LineTransportResult)) (w : LineWorld) : result LineError LineSubmitOutcome :=
  fst (Program.run (submits action runId (monday + minutes t) (asked t answers w)) (asked t answers w)).

Definition first_run : string := Eval vm_compute in run_id ready.
Definition taken : option LineTransportResult := Some (RESPONSE (PushResponse 200 (Some "req-1") None (Some ["100"]) None)).
Definition silent : option LineTransportResult := Some (NO_RESPONSE TIMEOUT).

(** The delivery sent and accepted. *)
Definition accepted_world : LineWorld := Eval vm_compute in submitted_at 200 "act-1" first_run 1 [taken] ready.

(** ** Histories *)

Abbreviation reaches := (line_reaches "t" None).
Abbreviation history := (line_history "t" None).

Lemma fresh_is_fresh : line_fresh fresh_world.
Proof.
  split; [reflexivity|]. split; [reflexivity|]. split; [|split; [intros k []|reflexivity]].
  change (runtime_ok (RuntimeTables_ (([] ++ [reservation "res-1" "act-1"]) ++ [reservation "res-2" "act-2"]) no_facts)).
  apply runtime_ok_new; [apply runtime_ok_new; [|reflexivity|intros []]|reflexivity|intros [E|[]]; discriminate E].
  constructor; cbn; try (intros; contradiction); [constructor|]. constructor; cbn; try constructor; intros; contradiction.
Qed.

Lemma reaches_calls {A} w0 n (q : prog A) w : line_method "t" None q -> reaches w0 w -> reaches w0 (calls n q w).
Proof. intros Hq Hr. apply run_until_reaches; [|exact Hr]. exists A, q. split; [exact Hq|reflexivity]. Qed.

Lemma reaches_outside w0 t answers w : reaches w0 w -> reaches w0 (outside t answers w).
Proof. intros Hr. eapply pool_reaches_other; [exact Hr|]. apply Others_outside. reflexivity. Qed.

Lemma reaches_to w0 w w' : w' = w -> reaches w0 w -> reaches w0 w'.
Proof. by intros ->. Qed.

(** A stage is what a method leaves of the one before. *)
Ltac stage w m := refine (reaches_to _ w _ _ (reaches_calls _ _ _ _ m _)); [vm_compute; reflexivity|].

Lemma piloted_reached : reaches fresh_world piloted.
Proof.
  stage (whole (advances_to CAPPED_PILOT conforming) conforming) (M_advanceState "t" None compliance (gate_of conforming) CAPPED_PILOT (Some "cfg") monday).
  stage (whole (advances_to PROVIDER_CONFORMANCE dry) dry) (M_advanceState "t" None compliance (gate_of dry) PROVIDER_CONFORMANCE (Some "cfg") monday).
  stage (whole (advances_to DRY_RUN listed) listed) (M_advanceState "t" None compliance (gate_of listed) DRY_RUN (Some "cfg") monday).
  stage (whole (ensureScope operator scope) fresh_world) (M_ensureScope "t" None operator scope).
  apply pool_reaches_refl.
Qed.
Lemma opened_reached : reaches fresh_world opened.
Proof. stage (whole (switches_on piloted) piloted) (M_setTechnicalSwitch "t" None operator (gate_of piloted) true monday). exact piloted_reached. Qed.

Lemma ready_reached : reaches fresh_world ready.
Proof.
  stage (whole (enqueues "res-1" "act-1") approved) (M_enqueue "t" None None key_of defaultSettlementPolicy (enqueue_command "res-1" "act-1")).
  stage (whole (approves compliance monday half_approved) half_approved) (M_approveRun "t" None compliance (run_id half_approved) monday).
  stage (whole (approves admin monday proposed) proposed) (M_approveRun "t" None admin (run_id proposed) monday).
  stage (whole (proposes "p-1" monday furnished) furnished) (M_proposeRun "t" None operator
    (ProposeRunCommand (gate_of furnished) (entry_of furnished) (credential_of furnished) "p-1" monday None) monday).
  stage (whole activates_token registered) (M_verifyAndActivateCredential "t" None operator (cd_id (cd_meta (credential_of registered))) "oa-1" monday monday).
  stage (whole registers_token allowlisted) (M_registerCredential "t" None operator token_meta monday).
  stage (whole allows_ann opened) (M_registerAllowlistEntry "t" None admin (RegisterAllowlistCommand (gt_id (gate_of opened)) scope ann_fingerprint "ref-ann"
    content_ref content_digest "cfg" monday (monday + 4 * DAY_MS) "audit-1") monday).
  exact opened_reached.
Qed.

Lemma reached_history w : reaches fresh_world w -> history w.
Proof. intros Hw. exists fresh_world. split; [exact fresh_is_fresh|exact Hw]. Qed.

Lemma submitted_reached w0 n action runId t answers w w' : w' = submitted_at n action runId t answers w -> reaches w0 w -> reaches w0 w'.
Proof. intros -> Hw. exact (reaches_calls _ _ _ _ (M_submit _ _ _ _ _ _) (reaches_outside _ _ _ _ Hw)). Qed.

(** A submission is one more. *)
Ltac sent n t a w := refine (submitted_reached _ n "act-1" first_run t a w _ _ _); [vm_compute; reflexivity|].

Lemma accepted_history : history accepted_world.
Proof. apply reached_history. sent 200%nat 1 [taken] ready. exact ready_reached. Qed.

(** ** Witnesses *)

Lemma derived_retry_key_valid_witness : isLineRetryKey (deriveLineRetryKey "t" "dlv_line_1") = true.
Proof. apply (derived_retry_key_valid "t" "dlv_line_1"). intros s. apply (hex_digits_format 64). Defined.

Lemma requests_authorized_witness : exists q e u, lo_pushes (lw_outside accepted_world) = [q] /\
  In e (ld_outbox (lw_deliveries accepted_world)) /\ ob_providerRequestKey (ob_identity e) = pq_retryKey q /\
  In u (lt_ledger (lw_control accepted_world)) /\ cu_deliveryId (ce_unit u) = ob_delivery e.
Proof.
  destruct (lo_pushes (lw_outside accepted_world)) as [|q [|]] eqn:E; [vm_compute in E; discriminate E| |vm_compute in E; discriminate E].
  destruct (requests_authorized "t" None accepted_world q accepted_history) as (e & _ & u & _ & _ & He & Hk & _ & _ & _ & _ & _ & Hu & Hd & _).
  - rewrite E. left. reflexivity.
  - exists q, e, u. split; [reflexivity|]. split; [exact He|]. split; [exact Hk|]. split; [exact Hu|exact Hd].
Defined.

(** Sent, lost, and sent again. *)
Definition silent_world : LineWorld := Eval vm_compute in submitted_at 200 "act-1" first_run 1 [silent] ready.
Definition resent_world : LineWorld := Eval vm_compute in submitted_at 200 "act-1" first_run 2 [taken] silent_world.

Lemma silent_reached : reaches fresh_world silent_world.
Proof. sent 200%nat 1 [silent] ready. exact ready_reached. Qed.
Lemma resent_history : history resent_world.
Proof. apply reached_history. sent 200%nat 2 [taken] silent_world. exact silent_reached. Qed.

Lemma requests_repeat_exactly_witness : exists q1 q2, lo_pushes (lw_outside resent_world) = [q2; q1] /\ pq_messages q1 = pq_messages q2.
Proof.
  destruct (lo_pushes (lw_outside resent_world)) as [|q2 [|q1 [|]]] eqn:E; try (vm_compute in E; discriminate E).
  exists q1, q2. split; [reflexivity|].
  apply (requests_repeat_exactly "t" None resent_world q1 q2 resent_history).
  - rewrite E. right. left. reflexivity.
  - rewrite E. left. reflexivity.
  - vm_compute in E. injection E as <- <-. reflexivity.
Defined.

Lemma caps_hold_witness : count_where (held (gt_id (gate_of opened)) CONCURRENT_SUBMISSION) (lt_ledger (lw_control resent_world)) <= 1 /\
  count_where (attempt_unit (delivery_of "act-1" ready)) (lt_ledger (lw_control resent_world)) = 2.
Proof.
  split; [|vm_compute; reflexivity].
  destruct (caps_hold "t" None resent_world (gt_id (gate_of opened)) (delivery_of "act-1" ready) resent_history) as [Hs _]. exact Hs.
Defined.

Lemma authorization_used_once_witness : exists e l, lt_ledger (lw_control accepted_world) = e :: l /\
  (cu_deliveryId (ce_unit e) = cu_deliveryId (ce_unit e) -> e = e).
Proof.
  destruct (lt_ledger (lw_control accepted_world)) as [|e l] eqn:E; [vm_compute in E; discriminate E|]. exists e, l. split; [reflexivity|].
  assert (Hk : cu_capKind (ce_unit e) = LOGICAL_DELIVERY) by (vm_compute in E; injection E as <- _; reflexivity).
  assert (Hin : In e (lt_ledger (lw_control accepted_world))) by (rewrite E; left; reflexivity).
  exact (proj2 (authorization_used_once "t" None accepted_world e e accepted_history Hin Hin Hk Hk)).
Defined.

(** The delivery after a further submission. *)
Definition later_world : LineWorld := Eval vm_compute in submitted_at 200 "act-1" first_run 3 [silent] accepted_world.

Lemma outcomes_from_receipts_witness : exists e, ld_outbox (lw_deliveries accepted_world) = [e] /\ ob_outcome e = Some PROVIDER_ACCEPTED /\
  In e (ld_outbox (lw_deliveries later_world)).
Proof.
  destruct (ld_outbox (lw_deliveries accepted_world)) as [|e [|]] eqn:E; try (vm_compute in E; discriminate E). exists e. split; [reflexivity|].
  split; [vm_compute in E; injection E as <-; reflexivity|].
  assert (Hin : In e (ld_outbox (lw_deliveries accepted_world))) by (rewrite E; left; reflexivity).
  destruct (outcomes_from_receipts "t" None accepted_world later_world e accepted_history) as (_ & _ & _ & _ & _ & Hs).
  - sent 200%nat 3 [silent] accepted_world. apply pool_reaches_refl.
  - exact Hin.
  - apply Hs. vm_compute in E. injection E as <-. reflexivity.
Defined.

(** The scope killed, cleared and opened again. *)
Definition killed_world : LineWorld := Eval vm_compute in whole (killByActor admin (gate_of opened) monday) opened.
Definition clears (w : LineWorld) := clearWithApproval compliance (gate_of w) "approval-1" monday.
Definition cleared_world : LineWorld := Eval vm_compute in whole (clears killed_world) killed_world.
Definition dry_again : LineWorld := Eval vm_compute in whole (advances_to DRY_RUN cleared_world) cleared_world.
Definition conforming_again : LineWorld := Eval vm_compute in whole (advances_to PROVIDER_CONFORMANCE dry_again) dry_again.
Definition reopened_world : LineWorld := Eval vm_compute in whole (advances_to CAPPED_PILOT conforming_again) conforming_again.

Lemma killed_history : history killed_world.
Proof.
  apply reached_history.
  stage (whole (killByActor admin (gate_of opened) monday) opened) (M_killByActor "t" None admin (gate_of opened) monday).
  exact opened_reached.
Qed.

Lemma reopened_reached : reaches killed_world reopened_world.
Proof.
  stage (whole (advances_to CAPPED_PILOT conforming_again) conforming_again)
    (M_advanceState "t" None compliance (gate_of conforming_again) CAPPED_PILOT (Some "cfg") monday).
  stage (whole (advances_to PROVIDER_CONFORMANCE dry_again) dry_again)
    (M_advanceState "t" None compliance (gate_of dry_again) PROVIDER_CONFORMANCE (Some "cfg") monday).
  stage (whole (advances_to DRY_RUN cleared_world) cleared_world)
    (M_advanceState "t" None compliance (gate_of cleared_world) DRY_RUN (Some "cfg") monday).
  stage (whole (clears killed_world) killed_world) (M_clearWithApproval "t" None compliance (gate_of killed_world) "approval-1" monday).
  apply pool_reaches_refl.
Qed.

Lemma killed_gate_returns_stepwise_witness : exists g g', lt_gates (lw_control killed_world) = [g] /\
  lt_gates (lw_control reopened_world) = [g'] /\ gt_version g + 4 <= gt_version g'.
Proof.
  destruct (lt_gates (lw_control killed_world)) as [|g [|]] eqn:E; try (vm_compute in E; discriminate E).
  destruct (lt_gates (lw_control reopened_world)) as [|g' [|]] eqn:E'; try (vm_compute in E'; discriminate E').
  exists g, g'. split; [reflexivity|]. split; [reflexivity|].
  destruct (killed_gate_returns_stepwise "t" None killed_world reopened_world g g' killed_history reopened_reached) as (_ & _ & _ & Hv).
  - rewrite E. left. reflexivity.
  - vm_compute in E. injection E as <-. reflexivity.
  - rewrite E'. left. reflexivity.
  - vm_compute in E, E'. injection E as <-. injection E' as <-. reflexivity.
  - apply Hv; vm_compute in E'; injection E' as <-; reflexivity.
Defined.

(** ** What is not recovered *)

(** A second silence throws. After two attempts of a delivery whose outcome is unknown for the same
    reason, at different instants, the second one throws instead of answering [RECONCILING]: Governance
    is told both under one outcome reference and finds the instants to differ. *)
Theorem second_silence_throws : history silent_world /\
  answer_at "act-1" first_run 1 [silent] ready = Ok (OUT_RECONCILING LINE_UNKNOWN_OUTCOME 1 (monday + minutes 1 + lineBackoffMs 1)) /\
  answer_at "act-1" first_run 2 [silent] silent_world = Err (GovernanceThrew (ReservationBindingError RESERVATION_IDEMPOTENCY_CONFLICT)).
Proof. split; [exact (reached_history _ silent_reached)|]. split; vm_compute; reflexivity. Qed.

(** The process died once the row was [SUBMITTED]. *)
Definition unsettled : LineWorld := Eval vm_compute in submitted_at 40 "act-1" first_run 1 [taken] ready.

Lemma unsettled_history : history unsettled.
Proof. apply reached_history. sent 40%nat 1 [taken] ready. exact ready_reached. Qed.

(** C33: a row that was left in [SUBMITTED] is never settled: whatever the world, submitting and
    reconciling such a delivery change nothing; and a history comes to one, when the process dies between
    the acceptance and the settlement. *)
Theorem submitted_row_is_left :
  (forall act digest policyOf c w e, findByDeliveryId LINE_MESSAGING_API (sm_deliveryId c) w = Some e -> ob_state e = SUBMITTED ->
     Program.run (submit "t" act digest None policyOf c) w = (Ok (OUT_NOOP false), w) /\
     Program.run (reconcile "t" act digest None policyOf c None) w = (Ok (OUT_NOOP false), w)) /\
  exists w e, history w /\ findByDeliveryId LINE_MESSAGING_API (delivery_of "act-1" ready) w = Some e /\ ob_state e = SUBMITTED /\
    ob_outcome e = None.
Proof.
  split.
  - intros act digest policyOf c w e He Hs.
    assert (Hreq : Program.run (require_entry c) w = (Ok e, w)) by (unfold require_entry; cbn; by rewrite He).
    assert (Hk : forall B (k : OutboxEntry -> prog B), Program.run (require_entry c ≫= k) w = Program.run (k e) w)
      by (intros B k; etrans; [apply run_bind|by rewrite Hreq]).
    unfold submit, reconcile. rewrite !Hk.
    rewrite (bool_decide_eq_false_2 (ob_state e = SETTLED)), (bool_decide_eq_true_2 (ob_state e = SUBMITTED)) by congruence. split; reflexivity.
  - destruct (findByDeliveryId LINE_MESSAGING_API (delivery_of "act-1" ready) unsettled) as [e|] eqn:E; [|vm_compute in E; discriminate E].
    exists unsettled, e. split; [exact unsettled_history|]. split; [exact E|].
    vm_compute in E. injection E as <-. split; reflexivity.
Qed.

(** A scope whose first delivery died on the barrier, was reconciled, and whose next run is approved a
    day later. *)
Definition on_barrier : LineWorld := Eval vm_compute in submitted_at 26 "act-1" first_run 1 [taken] ready.
Definition off_barrier : LineWorld := Eval vm_compute in submitted_at 200 "act-1" first_run 2 [taken] on_barrier.
Definition a_day : Z := monday + minutes 1500.
Definition proposed_next : LineWorld := Eval vm_compute in whole (proposes "p-2" a_day off_barrier) (asked 1500 [] off_barrier).
Definition half_next : LineWorld := Eval vm_compute in whole (approves admin a_day proposed_next) proposed_next.
Definition approved_next : LineWorld := Eval vm_compute in whole (approves compliance a_day half_next) half_next.
Definition next_day : LineWorld := Eval vm_compute in whole (enqueues "res-2" "act-2") approved_next.
Definition second_run : string := Eval vm_compute in run_id next_day.

Lemma next_day_history : history next_day.
Proof.
  apply reached_history.
  stage (whole (enqueues "res-2" "act-2") approved_next) (M_enqueue "t" None None key_of defaultSettlementPolicy (enqueue_command "res-2" "act-2")).
  stage (whole (approves compliance a_day half_next) half_next) (M_approveRun "t" None compliance (run_id half_next) a_day).
  stage (whole (approves admin a_day proposed_next) proposed_next) (M_approveRun "t" None admin (run_id proposed_next) a_day).
  stage (whole (proposes "p-2" a_day off_barrier) (asked 1500 [] off_barrier)) (M_proposeRun "t" None operator
    (ProposeRunCommand (gate_of off_barrier) (entry_of off_barrier) (credential_of off_barrier) "p-2" a_day None) a_day).
  apply reaches_outside. sent 200%nat 2 [taken] on_barrier. sent 26%nat 1 [taken] ready. exact ready_reached.
Qed.

(** A delivery that died on the barrier holds its scope. Where the process stopped between the row's
    advance and the commit of its caps, the delivery is accepted and settled later, but the scope's one
    slot of concurrency stays held, and every other delivery is refused for it. *)
Theorem barrier_crash_holds_scope : history next_day /\
  map ob_state (ld_outbox (lw_deliveries next_day)) = [SETTLED; QUEUED] /\
  count_where (held (gt_id (gate_of opened)) CONCURRENT_SUBMISSION) (lt_ledger (lw_control next_day)) = 1 /\
  answer_at "act-2" second_run 1501 [taken] next_day = Ok (OUT_DENIED "CONCURRENT_SUBMISSION_CAP_EXCEEDED").
Proof.
  split; [exact next_day_history|].
  split; [vm_compute; reflexivity|]. split; vm_compute; reflexivity.
Qed.

(** The process died after its request and before the receipt; and two days pass. *)
Definition unrecorded : LineWorld := Eval vm_compute in submitted_at 34 "act-1" first_run 1 [taken] ready.
Definition two_days_later : LineWorld := Eval vm_compute in submitted_at 200 "act-1" first_run 2880 [taken] unrecorded.

Lemma two_days_history : history two_days_later.
Proof. apply reached_history. sent 200%nat 2880 [taken] unrecorded. sent 34%nat 1 [taken] ready. exact ready_reached. Qed.

(** A request without its receipt is not counted. Where the process died between the two, the
    delivery may be sent again two days later, under a key the provider has long forgotten: no receipt
    starts the window, and the attempt is the first one still. *)
Theorem lost_receipt_reopens_window : history two_days_later /\
  length (lo_pushes (lw_outside unrecorded)) = 1%nat /\ ld_attempts (lw_deliveries unrecorded) = [] /\
  answer_at "act-1" first_run 2880 [taken] unrecorded = Ok (OUT_ACCEPTED LINE_ACCEPTED 1) /\
  length (lo_pushes (lw_outside two_days_later)) = 2%nat /\
  map sa_attemptNo (ld_attempts (lw_deliveries two_days_later)) = [1] /\
  lineRetryWindowExpired (monday + minutes 1) (monday + minutes 2880) = true.
Proof.
  split; [exact two_days_history|]. repeat split; vm_compute; reflexivity.
Qed.

(** A delivery that died with its acceptance recorded or its first event written is refused for
    ever: the receipt of a new attempt, or the event under the same identifier at another instant. *)
Theorem crashes_refused :
  answer_at "act-1" first_run 2 [taken] (submitted_at 37 "act-1" first_run 1 [taken] ready) = Err (DatabaseRefusal "DL_LINE_ATTEMPT_AFTER_OUTCOME") /\
  answer_at "act-1" first_run 2 [taken] (submitted_at 22 "act-1" first_run 1 [taken] ready) =
    Err (LineIdempotencyConflictError "dl_line_event_outbox").
Proof. split; vm_compute; reflexivity. Qed.

(** Who approved a run may execute it. The comment on [approveRun] keeps approvers apart from the
    proposer and from whoever executes; only the first is checked, so the very person who approved for
    Compliance submits the delivery as an operator, and it is sent. *)
Theorem approver_executes : exists r, findRun first_run ready = Some r /\ fst <$> ru_complianceApproved r = Some (ac_ref compliance) /\
  fst (Program.run (submit "t" (ControlActor PLATFORM_OPERATOR (ac_ref compliance)) "cfg" None defaultSettlementPolicy
                      (submission "act-1" first_run (monday + minutes 1) (asked 1 [taken] ready))) (asked 1 [taken] ready)) =
  Ok (OUT_ACCEPTED LINE_ACCEPTED 1).
Proof.
  destruct (findRun first_run ready) as [r|] eqn:E; [|vm_compute in E; discriminate E]. exists r. split; [reflexivity|].
  vm_compute in E. injection E as <-. split; vm_compute; reflexivity.
Qed.
