(* ===== verification/LineInbox.v ===== *)
(** * LineInbox: the rows of LINE's webhooks and the transactions on them

    The inbox, the correlations of responses and the messages projected, as
    [packages/db/prisma/migrations/20260922160100_add_s2_line_persistence],
    [20260923120000_add_s2_5_line_webhook_ingress] and [20260923121000_add_s2_5_line_payload_vault] have
    them, for one tenant, and [apps/delivery/src/line-webhook-repository.ts]. Of the formats, those of
    what an event brings from outside are kept: its identifier, its type and the identifiers of messages. *)
From stdpp Require Import base tactics list strings.
From Stdlib Require Import ZArith Lia Ascii.
From S2P Require Import Prelude JsMap Text JsDate JsValue Contracts ScopeKey Persistence ReservationRuntime LineDelivery LineControlPolicy LineTables LineStore.

Open Scope string_scope.
Open Scope Z_scope.
Open Scope list_scope.

(** ** Rows *)

Inductive LineWebhookInboxState := INBOX_PENDING | INBOX_PROCESSING | INBOX_COMPLETED | INBOX_QUARANTINED.
#[export] Instance LineWebhookInboxState_eq_dec : EqDecision LineWebhookInboxState.
Proof. solve_decision. Defined.

Inductive LineWebhookCode :=
  | WEBHOOK_ACCEPTED | WEBHOOK_DUPLICATE | WEBHOOK_EMPTY_VERIFICATION | WEBHOOK_SIGNATURE_INVALID | WEBHOOK_DESTINATION_MISMATCH
  | WEBHOOK_SCHEMA_INVALID | WEBHOOK_IDEMPOTENCY_CONFLICT | WEBHOOK_UNSUPPORTED_EVENT_TYPE | WEBHOOK_DURABILITY_UNAVAILABLE
  | WEBHOOK_QUARANTINED.
#[export] Instance LineWebhookCode_eq_dec : EqDecision LineWebhookCode.
Proof. solve_decision. Defined.

(** The columns of [dl_line_webhook_inbox] its trigger holds fixed. *)
Record InboxEvent := InboxEvent_ {
  ie_id : string;
  ie_channelAccountId : string;
  ie_webhookEventId : string;
  ie_payloadHash : string;
  ie_eventType : string;
  ie_standby : bool;
  ie_isRedelivery : bool;
  ie_providerTimestamp : Z;
  ie_receivedAt : Z;
  ie_protectedPayloadRef : string;
}.
#[export] Instance InboxEvent_eq_dec : EqDecision InboxEvent.
Proof. solve_decision. Defined.

(** A row; owner and end of a lease are written together. *)
Record InboxEntry := InboxEntry_ {
  in_event : InboxEvent;
  in_state : LineWebhookInboxState;
  in_outcomeCode : option LineWebhookCode;
  in_attempts : Z;
  in_lease : option (string * Z);
  in_completedAt : option Z;
}.
Definition in_id (e : InboxEntry) : string := ie_id (in_event e).

(** What identifies an event: its channel and the identifier LINE gave it. *)
Definition event_key (v : InboxEvent) : string * string := (ie_channelAccountId v, ie_webhookEventId v).

Inductive LineTouchCorrelationState := CORRELATION_PENDING | CORRELATION_BOUND | CORRELATION_QUARANTINED.
#[export] Instance LineTouchCorrelationState_eq_dec : EqDecision LineTouchCorrelationState.
Proof. solve_decision. Defined.

(** The evidence of a row of [dl_line_touch_correlations]. *)
Record TouchEvidence := TouchEvidence_ {
  te_id : string;
  te_inboxEntryId : string;
  te_evidenceKind : TouchEvidenceKind;
  te_responseEvidenceRef : string;
  te_quotedMessageId : option string;
  te_providerTimestamp : Z;
  te_windowExpiresAt : Z;
}.
#[export] Instance TouchEvidence_eq_dec : EqDecision TouchEvidence.
Proof. solve_decision. Defined.

Record TouchCorrelation := TouchCorrelation_ {
  tk_evidence : TouchEvidence;
  tk_state : LineTouchCorrelationState;
  tk_deliveryId : option string;
  tk_attemptId : option string;
  tk_quarantineCode : option string;
  tk_resolvedAt : option Z;
}.
Definition tk_id (c : TouchCorrelation) : string := te_id (tk_evidence c).

(** [dl_line_inbound_messages] *)
Record InboundMessage := InboundMessage_ {
  im_id : string;
  im_channelAccountId : string;
  im_providerMessageId : string;
  im_inboxEntryId : string;
  im_quotedMessageId : option string;
  im_sourceFingerprint : string;
  im_providerTimestamp : Z;
  im_projectedAt : Z;
}.
Definition message_key (m : InboundMessage) : string * string := (im_channelAccountId m, im_providerMessageId m).

(** [dl_line_webhook_payloads] *)
Record WebhookPayload := WebhookPayload_ {
  wp_id : string;
  wp_protectedPayloadRef : string;
  wp_channelAccountId : string;
  wp_keyRef : string;
  wp_iv : string;
  wp_authTag : string;
  wp_ciphertext : string;
  wp_payloadHash : string;
  wp_receivedAt : Z;
}.

(** The tables, and what a [LinePostbackTokenPort] holds: its tokens, each of a message that was sent. *)
Record LineWebhooks := LineWebhooks_ {
  lh_inbox : list InboxEntry;
  lh_correlations : list TouchCorrelation;
  lh_messages : list InboundMessage;
  lh_payloads : list WebhookPayload;
  lh_tokens : list (string * string);
}.

Record WebhookWorld := WebhookWorld_ {
  ww_line : LineWorld;
  ww_hooks : LineWebhooks;
}.

Definition with_line (l : LineWorld) (w : WebhookWorld) : WebhookWorld := WebhookWorld_ l (ww_hooks w).
Definition with_hooks (f : LineWebhooks -> LineWebhooks) (w : WebhookWorld) : WebhookWorld := WebhookWorld_ (ww_line w) (f (ww_hooks w)).
Definition set_inbox (l : list InboxEntry) (h : LineWebhooks) : LineWebhooks :=
  LineWebhooks_ l (lh_correlations h) (lh_messages h) (lh_payloads h) (lh_tokens h).
Definition set_correlations (l : list TouchCorrelation) (h : LineWebhooks) : LineWebhooks :=
  LineWebhooks_ (lh_inbox h) l (lh_messages h) (lh_payloads h) (lh_tokens h).
Definition set_messages (l : list InboundMessage) (h : LineWebhooks) : LineWebhooks :=
  LineWebhooks_ (lh_inbox h) (lh_correlations h) l (lh_payloads h) (lh_tokens h).
Definition set_payloads (l : list WebhookPayload) (h : LineWebhooks) : LineWebhooks :=
  LineWebhooks_ (lh_inbox h) (lh_correlations h) (lh_messages h) l (lh_tokens h).
Definition set_tokens (l : list (string * string)) (h : LineWebhooks) : LineWebhooks :=
  LineWebhooks_ (lh_inbox h) (lh_correlations h) (lh_messages h) (lh_payloads h) l.

(** ** Checks and triggers *)

Definition is_letter (c : ascii) : bool := ((65 <=? code c) && (code c <=? 90)) || ((97 <=? code c) && (code c <=? 122)).
Definition length_within (lo hi : nat) (s : string) : bool := Nat.leb lo (String.length s) && Nat.leb (String.length s) hi.

(** ['^[A-Za-z0-9_-]{1,128}$'] of [webhook_event_id], and ['^[A-Za-z][A-Za-z0-9_]{0,63}$'] of [event_type] *)
Definition event_id_check (s : string) : bool :=
  length_within 1 128 s && string_forall (fun c => is_letter c || is_digit c || includes [95; 45] (code c)) s.
Definition event_type_check (s : string) : bool :=
  match s with
  | String c rest => is_letter c && length_within 0 63 rest && string_forall (fun d => is_letter d || is_digit d || (code d =? 95)) rest
  | EmptyString => false
  end.

(** ['^[0-9]{1,32}$'] of the identifiers of messages *)
Definition provider_id_check (s : string) : bool := length_within 1 32 s && string_forall is_digit s.
Definition quoted_id_check (s : option string) : bool := match s with Some id => provider_id_check id | None => true end.

Definition inbox_open (s : LineWebhookInboxState) : bool := includes [INBOX_PENDING; INBOX_PROCESSING] s.

(** [dl_line_webhook_inbox_values_check] and [dl_line_webhook_inbox_state_check] *)
Definition inbox_check (e : InboxEntry) : bool :=
  event_id_check (ie_webhookEventId (in_event e)) && event_type_check (ie_eventType (in_event e)) && (0 <=? in_attempts e) &&
  Bool.eqb (bool_decide (in_state e = INBOX_PROCESSING)) (bool_decide (is_Some (in_lease e))) &&
  Bool.eqb (negb (inbox_open (in_state e))) (bool_decide (is_Some (in_completedAt e))) &&
  (negb (bool_decide (in_state e = INBOX_COMPLETED)) || bool_decide (in_outcomeCode e = Some WEBHOOK_ACCEPTED)) &&
  (negb (bool_decide (in_state e = INBOX_QUARANTINED)) ||
   match in_outcomeCode e with
   | Some code => includes [WEBHOOK_DESTINATION_MISMATCH; WEBHOOK_SCHEMA_INVALID; WEBHOOK_IDEMPOTENCY_CONFLICT;
                            WEBHOOK_UNSUPPORTED_EVENT_TYPE; WEBHOOK_QUARANTINED] code
   | None => false
   end).

Definition dl_line_guard_webhook_inbox (old new : InboxEntry) : option string :=
  if negb (inbox_open (in_state old)) then Some "DL_LINE_INBOX_TERMINAL"
  else if negb (bool_decide (in_event new = in_event old)) then Some "DL_LINE_INBOX_EVENT_IMMUTABLE"
  else if in_attempts new <? in_attempts old then Some "DL_LINE_INBOX_ATTEMPTS_BACKWARD"
  else if inbox_check new then None else Some "dl_line_webhook_inbox_check".

(** [dl_line_touch_correlations_values_check] and [dl_line_touch_correlations_state_check] *)
Definition correlation_check (c : TouchCorrelation) : bool :=
  let v := tk_evidence c in
  Bool.eqb (bool_decide (te_evidenceKind v = USER_QUOTED_RESPONSE)) (bool_decide (is_Some (te_quotedMessageId v))) &&
  quoted_id_check (te_quotedMessageId v) && (te_providerTimestamp v <? te_windowExpiresAt v) && (te_windowExpiresAt v <=? te_providerTimestamp v + DAY_MS) &&
  match tk_state c with
  | CORRELATION_PENDING =>
      bool_decide (tk_attemptId c = None) && bool_decide (tk_resolvedAt c = None) && bool_decide (tk_quarantineCode c = None)
  | CORRELATION_BOUND =>
      bool_decide (is_Some (tk_deliveryId c)) && bool_decide (is_Some (tk_attemptId c)) && bool_decide (is_Some (tk_resolvedAt c)) &&
      bool_decide (tk_quarantineCode c = None)
  | CORRELATION_QUARANTINED =>
      bool_decide (tk_attemptId c = None) && bool_decide (is_Some (tk_resolvedAt c)) && bool_decide (is_Some (tk_quarantineCode c))
  end.

Definition dl_line_guard_touch_correlation (old new : TouchCorrelation) : option string :=
  if negb (bool_decide (tk_state old = CORRELATION_PENDING)) then Some "DL_LINE_CORRELATION_RESOLVED"
  else if negb (bool_decide (tk_evidence new = tk_evidence old)) then Some "DL_LINE_CORRELATION_EVIDENCE_IMMUTABLE"
  else if bool_decide (is_Some (tk_deliveryId old)) && negb (bool_decide (tk_deliveryId new = tk_deliveryId old))
  then Some "DL_LINE_CORRELATION_DELIVERY_IMMUTABLE"
  else if correlation_check new then None else Some "dl_line_touch_correlations_check".

(** ** Transactions *)

Abbreviation hook_transaction A := (result LineError (A * WebhookWorld)).

Definition inbox_by (id : string) (e : InboxEntry) : bool := bool_decide (in_id e = id).
Definition inbox_of (key : string * string) (e : InboxEntry) : bool := bool_decide (event_key (in_event e) = key).

(** [createMany] of one row with [skipDuplicates]: whether it was inserted. *)
Definition insert_inbox (e : InboxEntry) (w : WebhookWorld) : hook_transaction bool :=
  let rows := lh_inbox (ww_hooks w) in
  refuse_if (negb (inbox_check e)) (DatabaseRefusal "dl_line_webhook_inbox_check") ;;
  if js_some (fun x => inbox_by (in_id e) x || inbox_of (event_key (in_event e)) x) rows then Ok (false, w)
  else Ok (true, with_hooks (set_inbox (rows ++ [e])) w).

(** The row an event begins with. *)
Definition received (v : InboxEvent) : InboxEntry := InboxEntry_ v INBOX_PENDING None 0 None None.

(** An update to a terminal state. *)
Definition ended (s : LineWebhookInboxState) (code : LineWebhookCode) (at_ : Z) (e : InboxEntry) : InboxEntry :=
  InboxEntry_ (in_event e) s (Some code) (in_attempts e) None (Some at_).

Definition update_inbox (p : InboxEntry -> bool) (f : InboxEntry -> InboxEntry) (w : WebhookWorld) : hook_transaction Z :=
  updated ← update_guarded dl_line_guard_webhook_inbox p f (lh_inbox (ww_hooks w));
  Ok (fst updated, with_hooks (set_inbox (snd updated)) w).

(** [quarantine]: whoever calls, and whatever the lease. *)
Definition quarantineEntry (id : string) (code : LineWebhookCode) (at_ : Z) (w : WebhookWorld) : hook_transaction bool :=
  updated ← update_inbox (fun e => inbox_by id e && inbox_open (in_state e)) (ended INBOX_QUARANTINED code at_) w;
  Ok (fst updated =? 1, snd updated).

(** [complete]: only by the owner of the lease. *)
Definition complete (id leaseOwner : string) (at_ : Z) (w : WebhookWorld) : hook_transaction bool :=
  updated ← update_inbox (fun e => inbox_by id e && bool_decide (in_state e = INBOX_PROCESSING) &&
                                  bool_decide (fst <$> in_lease e = Some leaseOwner))
              (ended INBOX_COMPLETED WEBHOOK_ACCEPTED at_) w;
  Ok (fst updated =? 1, snd updated).

(** An identifier drawn by the database's client within a transaction. *)
Definition draw_id `{Host} (w : WebhookWorld) : string * WebhookWorld :=
  let o := lw_outside (ww_line w) in
  (fresh (lo_nextId o),
   with_line (with_outside (fun o => LineOutside_ (lo_clock o) (S (lo_nextId o)) (lo_answers o) (lo_recipients o) (lo_tokens o)
                                       (lo_contactVersion o) (lo_pushes o)) (ww_line w)) w).

(** [dlLineAuditEvent.createMany] of one row with [skipDuplicates]. *)
Definition audit_once (a : AuditEvent) (w : WebhookWorld) : WebhookWorld :=
  let rows := lt_audit (lw_control (ww_line w)) in
  if js_some (fun b => bool_decide (au_id b = au_id a) || bool_decide (au_eventId b = au_eventId a)) rows then w
  else with_line (with_control (set_audit (rows ++ [a])) (ww_line w)) w.

Definition INGRESS_ACTOR : string := "line-webhook-ingress".
Definition ingress_audit `{Host} (eventId code subjectId digest : string) (at_ : Z) (w : WebhookWorld) : WebhookWorld :=
  let '(id, w1) := draw_id w in
  audit_once (AuditEvent_ id eventId AUDIT_WEBHOOK code SYSTEM INGRESS_ACTOR (Some subjectId) None (Some digest) at_) w1.

Inductive WebhookAcceptance := EVENT_ACCEPTED | EVENT_DUPLICATE | EVENT_CONFLICT.
#[export] Instance WebhookAcceptance_eq_dec : EqDecision WebhookAcceptance.
Proof. solve_decision. Defined.

(** One event of a batch: inserted, there already, or there with another payload, which quarantines it.
    The identifier is that of the row. *)
Definition accept_event `{Host} (v : InboxEvent) (w : WebhookWorld) : hook_transaction (string * WebhookAcceptance) :=
  inserted ← insert_inbox (received v) w;
  if (fst inserted : bool) then Ok ((ie_id v, EVENT_ACCEPTED), snd inserted)
  else
    existing ← from_option (js_find (inbox_of (event_key v)) (lh_inbox (ww_hooks w))) (DatabaseRefusal "P2025");
    if bool_decide (ie_payloadHash (in_event existing) = ie_payloadHash v) then Ok ((in_id existing, EVENT_DUPLICATE), w)
    else
      updated ← update_inbox (fun e => inbox_by (in_id existing) e && inbox_open (in_state e))
                  (ended INBOX_QUARANTINED WEBHOOK_IDEMPOTENCY_CONFLICT (ie_receivedAt v)) w;
      Ok ((in_id existing, EVENT_CONFLICT),
          ingress_audit ("webhook-conflict:" +:+ in_id existing +:+ ":" +:+ ie_payloadHash v) "WEBHOOK_IDEMPOTENCY_CONFLICT"
            (in_id existing) (ie_payloadHash v) (ie_receivedAt v) (snd updated)).

(** [acceptBatch] *)
Fixpoint acceptBatch `{Host} (events : list InboxEvent) (w : WebhookWorld) : hook_transaction (list (string * string * WebhookAcceptance)) :=
  match events with
  | [] => Ok ([], w)
  | v :: rest =>
      accepted ← accept_event v w;
      others ← acceptBatch rest (snd accepted);
      Ok ((ie_webhookEventId v, fst (fst accepted), snd (fst accepted)) :: fst others, snd others)
  end.

(** ** Leases *)

Definition claimable (now : Z) (e : InboxEntry) : bool :=
  bool_decide (in_state e = INBOX_PENDING) ||
  (bool_decide (in_state e = INBOX_PROCESSING) && match in_lease e with Some (_, expiresAt) => expiresAt <=? now | None => false end).

(** [ORDER BY received_at, id] *)
Definition inbox_order (a b : InboxEntry) : bool :=
  (ie_receivedAt (in_event a) <? ie_receivedAt (in_event b)) ||
  ((ie_receivedAt (in_event a) =? ie_receivedAt (in_event b)) && str_le (in_id a) (in_id b)).

Definition leased (leaseOwner : string) (until : Z) (e : InboxEntry) : InboxEntry :=
  InboxEntry_ (in_event e) INBOX_PROCESSING (in_outcomeCode e) (in_attempts e + 1) (Some (leaseOwner, until)) (in_completedAt e).

(** [claim]; transactions run one at a time here, so there is no row locked by another to skip. *)
Definition claim (leaseOwner : string) (now leaseMs : Z) (limit : nat) (w : WebhookWorld) : hook_transaction (list InboxEntry) :=
  let rows := lh_inbox (ww_hooks w) in
  let ids := map in_id (take limit (sort_by inbox_order (js_filter (claimable now) rows))) in
  updated ← update_inbox (fun e => includes ids (in_id e)) (leased leaseOwner (now + leaseMs)) w;
  Ok (sort_by inbox_order (js_filter (fun e => includes ids (in_id e)) (lh_inbox (ww_hooks (snd updated)))), snd updated).

(** ** Correlations *)

Definition correlation_by (id : string) (c : TouchCorrelation) : bool := bool_decide (tk_id c = id).

(** The insert of [openCorrelation]: its check, its keys, and the entry and the delivery it refers to. *)
Definition createCorrelation (v : TouchEvidence) (deliveryId : option string) (w : WebhookWorld) : hook_transaction TouchCorrelation :=
  let rows := lh_correlations (ww_hooks w) in
  let c := TouchCorrelation_ v CORRELATION_PENDING deliveryId None None None in
  refuse_if (negb (correlation_check c)) (DatabaseRefusal "dl_line_touch_correlations_check") ;;
  refuse_if (js_some (fun x => correlation_by (te_id v) x || bool_decide (te_responseEvidenceRef (tk_evidence x) = te_responseEvidenceRef v) ||
                               bool_decide (te_inboxEntryId (tk_evidence x) = te_inboxEntryId v)) rows) UniqueViolation ;;
  refuse_if (negb (js_some (inbox_by (te_inboxEntryId v)) (lh_inbox (ww_hooks w))) ||
             match deliveryId with Some d => negb (line_delivery d (ww_line w)) | None => false end) LineBindingRejectedError ;;
  Ok (c, with_hooks (set_correlations (rows ++ [c])) w).

Definition findCorrelationByEvidence (ref : string) (w : WebhookWorld) : option TouchCorrelation :=
  js_find (fun c => bool_decide (te_responseEvidenceRef (tk_evidence c) = ref)) (lh_correlations (ww_hooks w)).

(** The comparison of [openCorrelation] with the row it finds. *)
Definition same_correlation (v u : TouchEvidence) : bool :=
  bool_decide (te_inboxEntryId v = te_inboxEntryId u) && bool_decide (te_evidenceKind v = te_evidenceKind u) &&
  bool_decide (te_quotedMessageId v = te_quotedMessageId u) && (te_providerTimestamp v =? te_providerTimestamp u).

Definition bound_to (deliveryId attemptId : string) (at_ : Z) (c : TouchCorrelation) : TouchCorrelation :=
  TouchCorrelation_ (tk_evidence c) CORRELATION_BOUND (Some deliveryId) (Some attemptId) (tk_quarantineCode c) (Some at_).

(** The rows [bindCorrelation] takes. *)
Definition bindable (id deliveryId : string) (c : TouchCorrelation) : bool :=
  correlation_by id c && bool_decide (tk_state c = CORRELATION_PENDING) &&
  (bool_decide (tk_deliveryId c = None) || bool_decide (tk_deliveryId c = Some deliveryId)).

(** [bindCorrelation]: a second response of an attempt is a conflict, an attempt or a delivery that is
    not there a binding error. *)
Definition bindCorrelation (id deliveryId attemptId : string) (at_ : Z) (w : WebhookWorld) : hook_transaction (option TouchCorrelation) :=
  let rows := lh_correlations (ww_hooks w) in
  let takes := bindable id deliveryId in
  updated ← update_guarded dl_line_guard_touch_correlation takes (bound_to deliveryId attemptId at_) rows;
  refuse_if (js_some takes rows &&
             js_some (fun c => negb (takes c) && bool_decide (tk_state c = CORRELATION_BOUND) && bool_decide (tk_attemptId c = Some attemptId)) rows)
    (LineIdempotencyConflictError "dl_line_touch_correlations") ;;
  refuse_if (js_some takes rows &&
             (negb (line_delivery deliveryId (ww_line w)) ||
              negb (js_some (fun a => bool_decide (fc_id a = attemptId)) (df_attempts (rt_facts (lw_governance (ww_line w)))))))
    LineBindingRejectedError ;;
  let w' := with_hooks (set_correlations (snd updated)) w in
  Ok (if fst updated =? 0 then None else js_find (correlation_by id) (snd updated), w').

Definition quarantined_as (code : string) (at_ : Z) (c : TouchCorrelation) : TouchCorrelation :=
  TouchCorrelation_ (tk_evidence c) CORRELATION_QUARANTINED (tk_deliveryId c) (tk_attemptId c) (Some code) (Some at_).

Definition quarantineCorrelation (id code : string) (at_ : Z) (w : WebhookWorld) : hook_transaction bool :=
  updated ← update_guarded dl_line_guard_touch_correlation
              (fun c => correlation_by id c && bool_decide (tk_state c = CORRELATION_PENDING)) (quarantined_as code at_)
              (lh_correlations (ww_hooks w));
  Ok (fst updated =? 1, with_hooks (set_correlations (snd updated)) w).

Definition listPendingCorrelations (limit : nat) (w : WebhookWorld) : list TouchCorrelation :=
  take limit (sort_by (fun a b => te_windowExpiresAt (tk_evidence a) <=? te_windowExpiresAt (tk_evidence b))
    (js_filter (fun c => bool_decide (tk_state c = CORRELATION_PENDING)) (lh_correlations (ww_hooks w)))).

(** ** Messages, payloads and tokens *)

(** [dl_line_inbound_messages_values_check] *)
Definition message_check (m : InboundMessage) : bool := provider_id_check (im_providerMessageId m) && quoted_id_check (im_quotedMessageId m).

(** [createMany] of one row with [skipDuplicates]: of a message another event brought, or another row of
    the same event, nothing is inserted; an entry that is not there is a violation. *)
Definition insert_message (m : InboundMessage) (w : WebhookWorld) : hook_transaction bool :=
  let rows := lh_messages (ww_hooks w) in
  refuse_if (negb (message_check m)) (DatabaseRefusal "dl_line_inbound_messages_values_check") ;;
  if js_some (fun x => bool_decide (im_id x = im_id m) || bool_decide (message_key x = message_key m) ||
                       bool_decide (im_inboxEntryId x = im_inboxEntryId m)) rows then Ok (false, w)
  else
    refuse_if (negb (js_some (inbox_by (im_inboxEntryId m)) (lh_inbox (ww_hooks w)))) (DatabaseRefusal "P2003") ;;
    Ok (true, with_hooks (set_messages (rows ++ [m])) w).

Definition insert_payload (p : WebhookPayload) (w : WebhookWorld) : WebhookWorld :=
  let rows := lh_payloads (ww_hooks w) in
  if js_some (fun x => bool_decide (wp_id x = wp_id p) || bool_decide (wp_protectedPayloadRef x = wp_protectedPayloadRef p)) rows then w
  else with_hooks (set_payloads (rows ++ [p])) w.

(** [consume] of the port: a token is there once. *)
Definition consume_token (token : string) (w : WebhookWorld) : option string * WebhookWorld :=
  (map_get token (lh_tokens (ww_hooks w)), with_hooks (set_tokens (map_delete token (lh_tokens (ww_hooks w)))) w).
