(* ===== verification/LineWebhook.v ===== *)
(** * LineWebhook: LINE's webhooks as they come in

    [line-webhook-signature.ts], [line-webhook-ingress.ts], [line-webhook-payload-vault.ts] and
    [line-touch-governance.ts] of [apps/delivery/src], as programs over the tables of LineInbox and of LINE
    delivery. *)
From stdpp Require Import base tactics list strings.
From Stdlib Require Import ZArith Lia Ascii.
From S2P Require Import Prelude JsMap Text JsDate JsValue Contracts ScopeKey Persistence ReservationRuntime Program LineDelivery LineControlPolicy LineTables LineStore LineControlPlane LineAdapter LineInbox.

Open Scope string_scope.
Open Scope Z_scope.
Open Scope list_scope.

(** The platform's HMAC in base 64, of a secret and a body; AES-256-GCM, of a key, an initialization vector
    and a text, to a ciphertext and its tag, and back where the tag fits; random vectors; and [JSON.parse],
    [None] where it throws, whose objects name each field once. *)
Class WebhookHost := {
  hmac_sha256_base64 : string -> string -> string;
  aes_gcm_seal : string -> string -> string -> string * string;
  aes_gcm_open : string -> string -> string -> string -> option string;
  random_iv : nat -> string;
  JSON_parse : string -> option jsval;
}.

Abbreviation wprog := (Prog WebhookWorld LineError).

(** A transaction on LINE's own tables. *)
Definition line_transaction {A} (t : LineWorld -> result LineError (A * LineWorld)) (w : WebhookWorld) : hook_transaction A :=
  done_ ← t (ww_line w); Ok (fst done_, with_line (snd done_) w).

(** ** Values *)

(** [asObject] *)
Definition asObject (v : jsval) : option (list (string * jsval)) :=
  match v with JObj fs | JInstance fs => Some fs | _ => None end.
Definition object_at (key : string) (fs : list (string * jsval)) : option (list (string * jsval)) := asObject (field key fs).
(** [typeof value?.key === 'string' ? value.key : undefined] *)
Definition string_at (key : string) (fs : option (list (string * jsval))) : option string :=
  match fs with Some l => match field key l with JStr s => Some s | _ => None end | None => None end.

(** The length of a text in UTF-16, of its UTF-8. *)
Fixpoint utf16_length (s : string) : Z :=
  match s with
  | EmptyString => 0
  | String c rest => (if (128 <=? code c) && (code c <=? 191) then 0 else if 240 <=? code c then 2 else 1) + utf16_length rest
  end.

(** The greatest instant of a [Date]. *)
Definition MAX_DATE_MS : Z := 8640000000000000.

(** [typeof timestamp === 'number' && Number.isFinite(timestamp) && timestamp > 0], and then
    [new Date(timestamp)], [None] for an invalid one: a fraction is cut off, and one written with an
    exponent is less than one or too great. *)
Definition positive_number (v : jsval) : option (option Z) :=
  match v with
  | JNum (NInt z) => if z <=? 0 then None else Some (if z <=? MAX_DATE_MS then Some z else None)
  | JNum (NFrac text) =>
      match text with
      | String "-" _ => None
      | _ => Some (match split_char "e" text with
                   | [_; String "-" _] => Some 0
                   | [plain] => match cut_at "." plain with
                                | Some (whole_, _) => match js_number whole_ with Some z => if z <? MAX_DATE_MS then Some z else None | None => None end
                                | None => None
                                end
                   | _ => None
                   end)
      end
  | _ => None
  end.

(** ** Signature *)

Definition LINE_WEBHOOK_MAX_BODY_BYTES : Z := 1024 * 1024.

Section Webhook.
Context `{Runtime, Host, WebhookHost} (tenantId : string).

Definition lineSignature (rawBody channelSecret : string) : string := hmac_sha256_base64 channelSecret rawBody.

Definition verifyLineSignature (rawBody channelSecret : string) (headerSignature : option string) : bool :=
  match truthy headerSignature with Some h => bool_decide (h = lineSignature rawBody channelSecret) | None => false end.

(** ** Ingress *)

Record LineWebhookBinding := WebhookBinding {
  bi_channelAccountId : string;
  bi_destination : string;
  bi_channelSecret : string;
  bi_payloadKeyRef : string;
  bi_payloadKey : string;
}.

Record LineWebhookRequest := WebhookRequest {
  wq_rawBody : string;
  wq_signature : option string;
  wq_receivedAt : Z;
}.

Record LineWebhookIngressResult := IngressResult {
  ir_status : Z;
  ir_code : LineWebhookCode;
  ir_accepted : Z;
  ir_duplicates : Z;
  ir_conflicts : Z;
}.
Definition answered (status : Z) (c : LineWebhookCode) : LineWebhookIngressResult := IngressResult status c 0 0 0.

Record ParsedLineEvent := ParsedEvent {
  pe_webhookEventId : string;
  pe_eventType : string;
  pe_standby : bool;
  pe_isRedelivery : bool;
  pe_providerTimestamp : option Z;
  pe_raw : list (string * jsval);
}.

(** [/^[A-Za-z0-9][A-Za-z0-9._:-]{0,255}$/] *)
Definition WEBHOOK_EVENT_ID (s : string) : bool :=
  match s with
  | String c rest => (is_letter c || is_digit c) && length_within 0 255 rest &&
                     string_forall (fun d => is_letter d || is_digit d || includes [46; 95; 58; 45] (code d)) rest
  | EmptyString => false
  end.

Definition parseEvent (value : jsval) : option ParsedLineEvent :=
  event ← asObject value;
  match field "webhookEventId" event, field "type" event with
  | JStr webhookEventId, JStr eventType =>
      if negb (WEBHOOK_EVENT_ID webhookEventId) || (utf16_length eventType =? 0) || (64 <? utf16_length eventType) then None
      else
        providerTimestamp ← positive_number (field "timestamp" event);
        isRedelivery ← match match object_at "deliveryContext" event with Some context => field "isRedelivery" context | None => JUndefined end with
                       | JUndefined => Some false | JBool b => Some b | _ => None
                       end;
        standby ← match field "mode" event with
                  | JUndefined => Some false
                  | JStr mode => if bool_decide (mode = "standby") then Some true else if bool_decide (mode = "active") then Some false else None
                  | _ => None
                  end;
        Some (ParsedEvent webhookEventId eventType standby isRedelivery providerTimestamp event)
  | _, _ => None
  end.

Definition lineProtectedPayloadRef (channelAccountId webhookEventId : string) : string :=
  "wh_" +:+ slice 0 48 (sha256_hex (channelAccountId +:+ "|" +:+ webhookEventId)).

Definition lineEventPayloadDigest (event : list (string * jsval)) : string :=
  sha256_hex (json_print (JObj (js_filter (fun f => negb (bool_decide (fst f = "deliveryContext"))) event))).

Section Ingress.
Context (binding : LineWebhookBinding).
Abbreviation channel := (bi_channelAccountId binding).

(** The columns of an event; an invalid date is refused when it is written. *)
Definition event_columns (id : string) (p : ParsedLineEvent) (receivedAt : Z) : result LineError InboxEvent :=
  providerTimestamp ← from_option (pe_providerTimestamp p) (DatabaseRefusal "P2009");
  Ok (InboxEvent_ id channel (pe_webhookEventId p) (lineEventPayloadDigest (pe_raw p)) (pe_eventType p) (pe_standby p) (pe_isRedelivery p)
        providerTimestamp receivedAt (lineProtectedPayloadRef channel (pe_webhookEventId p))).

(** [storePayload] *)
Definition storePayload (v : InboxEvent) (p : ParsedLineEvent) (w : WebhookWorld) : WebhookWorld :=
  let iv := random_iv (lo_nextId (lw_outside (ww_line w))) in
  let '(ciphertext, authTag) := aes_gcm_seal (bi_payloadKey binding) iv (json_print (JObj (pe_raw p))) in
  let '(id, w1) := draw_id w in
  insert_payload (WebhookPayload_ id (ie_protectedPayloadRef v) channel (bi_payloadKeyRef binding) iv authTag ciphertext
                    (ie_payloadHash v) (ie_receivedAt v)) w1.

(** The event of an event that was accepted. *)
Definition inbound_event (v : InboxEvent) : string * jsval :=
  let eventId := "line-inbound:" +:+ channel +:+ ":" +:+ ie_webhookEventId v in
  let at_ := toISOString (ie_providerTimestamp v) in
  (eventId,
   JObj [("type", JStr "channel.line.inbound.v1"); ("eventId", JStr eventId); ("tenantId", JStr tenantId); ("occurredAt", JStr at_);
         ("correlationId", JStr (ie_protectedPayloadRef v)); ("channelAccountId", JStr channel); ("webhookEventId", JStr (ie_webhookEventId v));
         ("eventType", JStr (ie_eventType v)); ("providerTimestamp", JStr at_); ("payloadHash", JStr (ie_payloadHash v));
         ("protectedPayloadRef", JStr (ie_protectedPayloadRef v))]).

(** [LineEventOutboxRepository.enqueue] within the caller's transaction. *)
Definition enqueue_within (event : string * jsval) (orderingKey : string) (occurredAt : Z) (w : WebhookWorld) : hook_transaction LineEventRow :=
  let '(id, w1) := draw_id w in
  assertRedactedPayload (snd event) ;;
  line_transaction (enqueueEvent (LineEventRow_ id (fst event) orderingKey (snd event) (sha256_hex (json_print (snd event))) occurredAt)) w1.

(** One event of [persist]. *)
Definition persist_event (p : ParsedLineEvent) (receivedAt : Z) (w : WebhookWorld) : hook_transaction WebhookAcceptance :=
  let '(id, w1) := draw_id w in
  v ← event_columns id p receivedAt;
  accepted ← accept_event v w1;
  if bool_decide (snd (fst accepted) = EVENT_ACCEPTED) then
    let w2 := storePayload v p (snd accepted) in
    match identifier tenantId "TenantId" with
    | Err e => Err (GovernanceThrew e)
    | Ok _ =>
        enqueued ← enqueue_within (inbound_event v) channel (ie_providerTimestamp v) w2;
        Ok (EVENT_ACCEPTED, snd enqueued)
    end
  else Ok (snd (fst accepted), snd accepted).

(** The loop of [persist], to what became of each event. *)
Fixpoint persist_events (events : list ParsedLineEvent) (receivedAt : Z) (w : WebhookWorld) : hook_transaction (list WebhookAcceptance) :=
  match events with
  | [] => Ok ([], w)
  | p :: rest =>
      one ← persist_event p receivedAt w;
      others ← persist_events rest receivedAt (snd one);
      Ok (fst one :: fst others, snd others)
  end.

Definition persist (events : list ParsedLineEvent) (receivedAt : Z) (w : WebhookWorld) : hook_transaction LineWebhookIngressResult :=
  done_ ← persist_events events receivedAt w;
  let counted a := count_where (fun b => bool_decide (b = a)) (fst done_) in
  let conflicts := counted EVENT_CONFLICT in
  let accepted := counted EVENT_ACCEPTED in
  let code := if 0 <? conflicts then WEBHOOK_IDEMPOTENCY_CONFLICT else if 0 <? accepted then WEBHOOK_ACCEPTED else WEBHOOK_DUPLICATE in
  Ok (IngressResult 200 code accepted (counted EVENT_DUPLICATE) conflicts, snd done_).

(** [recordDestinationMismatch] *)
Fixpoint recordDestinationMismatch (events : list ParsedLineEvent) (receivedAt : Z) (w : WebhookWorld) : hook_transaction unit :=
  match events with
  | [] => Ok (tt, w)
  | p :: rest =>
      let '(id, w1) := draw_id w in
      v ← event_columns id p receivedAt;
      inserted ← insert_inbox (InboxEntry_ v INBOX_QUARANTINED (Some WEBHOOK_DESTINATION_MISMATCH) 0 None (Some receivedAt)) w1;
      recordDestinationMismatch rest receivedAt
        (ingress_audit ("webhook-destination:" +:+ channel +:+ ":" +:+ pe_webhookEventId p) "WEBHOOK_DESTINATION_MISMATCH" id
           (lineEventPayloadDigest (pe_raw p)) receivedAt (snd inserted))
  end.

(** The events of a body, where each can be read. *)
Definition parsed_events (events : list jsval) : option (list ParsedLineEvent) := mapM parseEvent events.

(** [handle] *)
Definition handle (q : LineWebhookRequest) : wprog LineWebhookIngressResult :=
  if LINE_WEBHOOK_MAX_BODY_BYTES <? Z.of_nat (String.length (wq_rawBody q)) then ret (answered 413 WEBHOOK_SCHEMA_INVALID)
  else if negb (verifyLineSignature (wq_rawBody q) (bi_channelSecret binding) (wq_signature q)) then ret (answered 401 WEBHOOK_SIGNATURE_INVALID)
  else
    match JSON_parse (wq_rawBody q) with
    | None => ret (answered 400 WEBHOOK_SCHEMA_INVALID)
    | Some parsed =>
        match asObject parsed with
        | None => ret (answered 400 WEBHOOK_SCHEMA_INVALID)
        | Some body =>
            match field "events" body with
            | JArr [] => ret (answered 200 WEBHOOK_EMPTY_VERIFICATION)
            | JArr events =>
                match parsed_events events with
                | None => ret (answered 400 WEBHOOK_SCHEMA_INVALID)
                | Some events =>
                    let destination := default "" (string_at "destination" (Some body)) in
                    catch (fun e => match e with
                                    | LineIdempotencyConflictError _ => ret (answered 200 WEBHOOK_IDEMPOTENCY_CONFLICT)
                                    | _ => ret (answered 503 WEBHOOK_DURABILITY_UNAVAILABLE)
                                    end)
                      (transact (fun w =>
                         if negb (bool_decide (destination = bi_destination binding)) then
                           recorded ← recordDestinationMismatch events (wq_receivedAt q) w;
                           Ok (answered 200 WEBHOOK_DESTINATION_MISMATCH, snd recorded)
                         else persist events (wq_receivedAt q) w))
                end
            | _ => ret (answered 400 WEBHOOK_SCHEMA_INVALID)
            end
        end
    end.
End Ingress.

(** ** The vault *)

(** [LineInboundProjection] *)
Record LineInboundProjection := InboundProjection {
  pj_providerMessageId : option string;
  pj_quotedMessageId : option string;
  pj_sourceFingerprint : string;
  pj_isOneToOne : bool;
  pj_postbackToken : option string;
}.

Definition lineSourceFingerprint (channelAccountId userId : string) : string := sha256_hex (channelAccountId +:+ "|" +:+ userId).

(** The key of each reference that has one. *)
Context (keyring : string -> option string).

(** [decrypt]; a text that is not JSON throws. *)
Definition decrypt (e : InboxEntry) (w : WebhookWorld) : result LineError (option (list (string * jsval))) :=
  match js_find (fun p => bool_decide (wp_protectedPayloadRef p = ie_protectedPayloadRef (in_event e))) (lh_payloads (ww_hooks w)) with
  | None => Ok None
  | Some row =>
      match keyring (wp_keyRef row) with
      | None => Ok None
      | Some key =>
          match aes_gcm_open key (wp_iv row) (wp_authTag row) (wp_ciphertext row) with
          | None => Ok None
          | Some plaintext => value ← from_option (JSON_parse plaintext) JsonSyntaxError; Ok (asObject value)
          end
      end
  end.

(** What [read] makes of an event. *)
Definition projection_of (channelAccountId : string) (event : list (string * jsval)) : option LineInboundProjection :=
  let source := object_at "source" event in
  let message := object_at "message" event in
  userId ← truthy (string_at "userId" source);
  Some (InboundProjection (truthy (string_at "id" message)) (truthy (string_at "quotedMessageId" message))
          (lineSourceFingerprint channelAccountId userId) (bool_decide (string_at "type" source = Some "user"))
          (truthy (string_at "data" (object_at "postback" event)))).

Definition vault_read (e : InboxEntry) (w : WebhookWorld) : result LineError (option LineInboundProjection) :=
  event ← decrypt e w;
  Ok (match event with Some fs => projection_of (ie_channelAccountId (in_event e)) fs | None => None end).

(** [payloads.read] *)
Definition read_payload (e : InboxEntry) : wprog (option LineInboundProjection) :=
  found ← query (vault_read e); lift found.

(** ** Accepted attempts *)

Record LineAcceptedAttempt := AcceptedAttempt {
  la_deliveryId : string;
  la_attemptId : string;
  la_reservationId : string;
  la_actionKey : string;
  la_recipientFingerprint : string;
  la_acceptedAt : Z;
}.

(** The delivery a message was sent for on a channel, and the fingerprint of its recipient: the first
    receipt of acceptance that has it, the logical unit of the delivery, and the gate of that unit. *)
Definition delivery_binding (channelAccountId messageId : string) (l : LineWorld) : option (string * string) :=
  receipt ← head (sort_by (fun a b => sa_attemptNo a <=? sa_attemptNo b)
              (js_filter (fun a => bool_decide (sa_outcomeClass a = CLASS_ACCEPTED) && includes (sa_sentMessageIds a) messageId)
                 (ld_attempts (lw_deliveries l))));
  ledger ← js_find (fun u => bool_decide (cu_deliveryId (ce_unit u) = sa_deliveryId receipt) &&
                             bool_decide (cu_capKind (ce_unit u) = LOGICAL_DELIVERY)) (lt_ledger (lw_control l));
  gate ← js_find (gate_by (cu_gateId (ce_unit ledger))) (lt_gates (lw_control l));
  if bool_decide (sc_channelAccountId (gt_scope gate) = channelAccountId)
  then Some (sa_deliveryId receipt, cu_recipientFingerprint (ce_unit ledger)) else None.

(** Governance's accepted attempt of a delivery, with the action of its reservation. *)
Definition accepted_attempt (deliveryId : string) (l : LineWorld) : option (FactRow * string) :=
  attempt ← findAcceptedAttempt (rt_facts (lw_governance l)) deliveryId;
  reservation ← js_find (reservation_by (fc_reservationId attempt)) (rt_reservations (lw_governance l));
  Some (attempt, rv_actionKey reservation).

(** A brand of the contract. *)
Definition brand (value kind : string) : wprog string :=
  lift (match identifier value kind with Ok v => Ok v | Err e => Err (GovernanceThrew e) end).

(** [findAcceptedAttemptByMessage]; [acceptedAt] goes through its text and back. *)
Definition findAcceptedAttemptByMessage (channelAccountId messageId : string) : wprog (option LineAcceptedAttempt) :=
  binding ← query (fun w => delivery_binding channelAccountId messageId (ww_line w));
  match binding with
  | None => ret None
  | Some (deliveryId, fingerprint) =>
      brand tenantId "TenantId" ;;
      brand deliveryId "DeliveryId" ;;
      found ← query (fun w => accepted_attempt deliveryId (ww_line w));
      match found with
      | None => ret None
      | Some (attempt, actionKey) =>
          brand (fc_reservationId attempt) "ReservationId" ;;
          brand actionKey "ActionKey" ;;
          brand (fc_deliveryId attempt) "DeliveryId" ;;
          ret (Some (AcceptedAttempt deliveryId (fc_id attempt) (fc_reservationId attempt) actionKey fingerprint (fc_occurredAt attempt)))
      end
  end.
End Webhook.
