(* ===== verification/LineWebhookWorker.v ===== *)
(** * LineWebhookWorker: from the inbox to the touch

    [apps/delivery/src/line-webhook-worker.ts] and [line-webhook-worker-loop.ts]: what a worker does with the
    entries it claims and with the responses that wait, as programs over the tables of LineInbox. *)
From stdpp Require Import base tactics list strings.
From Stdlib Require Import ZArith Lia.
From S2P Require Import Prelude JsMap Text JsDate JsValue Contracts ScopeKey Persistence ReservationRuntime Program LineDelivery LineControlPolicy LineTables LineStore LineControlPlane LineAdapter LineInbox LineWebhook.

Open Scope string_scope.
Open Scope Z_scope.
Open Scope list_scope.

Definition LINE_TOUCH_WINDOW_MS : Z := 24 * 60 * 60 * 1000.
Definition LINE_SUPPORTED_EVENT_TYPES : list string := ["message"; "postback"; "follow"; "unfollow"].

Definition evidence_kind_text (k : TouchEvidenceKind) : string :=
  match k with USER_QUOTED_RESPONSE => "USER_QUOTED_RESPONSE" | SIGNED_POSTBACK => "SIGNED_POSTBACK" end.

(** [LineWebhookWorkerResult] *)
Record WorkerResult := WorkerResult_ {
  wr_processed : Z;
  wr_projected : Z;
  wr_touches : Z;
  wr_pending : Z;
  wr_quarantined : Z;
}.
Definition no_work : WorkerResult := WorkerResult_ 0 0 0 0 0.
Definition plus_work (processed projected touches pending quarantined : Z) (r : WorkerResult) : WorkerResult :=
  WorkerResult_ (wr_processed r + processed) (wr_projected r + projected) (wr_touches r + touches) (wr_pending r + pending)
    (wr_quarantined r + quarantined).

(** The evidence of an event: the message it quotes, or the token it brings. *)
Inductive ResponseEvidence := QUOTES (messageId : string) | BRINGS (token : string).
Definition evidence_kind (v : ResponseEvidence) : TouchEvidenceKind := match v with QUOTES _ => USER_QUOTED_RESPONSE | BRINGS _ => SIGNED_POSTBACK end.
Definition quoted_message (v : ResponseEvidence) : option string := match v with QUOTES m => Some m | BRINGS _ => None end.

Section Worker.
Context `{Runtime, Host, WebhookHost} (tenantId leaseOwner : string).

(** The options: the keys of payloads, whether a port of tokens is given, the length of a lease and the
    number of entries claimed at once. *)
Context (keyring : string -> option string) (postbacks : bool) (leaseMs : Z) (batchSize : nat).

Definition lineResponseEvidenceRef (channelAccountId webhookEventId : string) : string :=
  "resp_" +:+ slice 0 48 (sha256_hex ("resp|" +:+ channelAccountId +:+ "|" +:+ webhookEventId)).
Definition response_ref (e : InboxEntry) : string :=
  lineResponseEvidenceRef (ie_channelAccountId (in_event e)) (ie_webhookEventId (in_event e)).

(** [this.now()] and [this.id()] *)
Definition worker_now : wprog Z := query (fun w => lo_clock (lw_outside (ww_line w))).
Definition worker_id : wprog string := transact (fun w => Ok (draw_id w)).

(** [LineWebhookRepository.openCorrelation] *)
Definition openCorrelation (v : TouchEvidence) (deliveryId : option string) : wprog TouchCorrelation :=
  catch (fun e =>
    if bool_decide (e = UniqueViolation) then
      existing ← query (findCorrelationByEvidence (te_responseEvidenceRef v));
      match existing with
      | Some c => if same_correlation (tk_evidence c) v then ret c else throw (LineIdempotencyConflictError "dl_line_touch_correlations")
      | None => throw (LineIdempotencyConflictError "dl_line_touch_correlations")
      end
    else throw e)
    (transact (createCorrelation v deliveryId)).

(** [project] *)
Definition project (e : InboxEntry) (p : LineInboundProjection) (messageId : string) : wprog bool :=
  id ← worker_id;
  at_ ← worker_now;
  transact (insert_message (InboundMessage_ id (ie_channelAccountId (in_event e)) messageId (in_id e) (pj_quotedMessageId p)
    (pj_sourceFingerprint p) (ie_providerTimestamp (in_event e)) at_)).

(** [evidenceOf] *)
Definition evidenceOf (e : InboxEntry) (p : LineInboundProjection) : option ResponseEvidence :=
  let eventType := ie_eventType (in_event e) in
  if negb (pj_isOneToOne p) then None
  else if bool_decide (eventType = "message") && bool_decide (is_Some (pj_quotedMessageId p)) then QUOTES <$> pj_quotedMessageId p
  else if bool_decide (eventType = "postback") && bool_decide (is_Some (pj_postbackToken p)) && postbacks then BRINGS <$> pj_postbackToken p
  else None.

(** ** Touches *)

Definition USER_RESPONSE_UNBOUND : string := "USER_RESPONSE_UNBOUND".
Definition unbound (correlationId : string) : wprog bool :=
  at_ ← worker_now;
  transact (quarantineCorrelation correlationId USER_RESPONSE_UNBOUND at_) ;;
  ret false.

(** [recordCorrelatedTouch] of Governance. *)
Definition record_touch (i : RecordCorrelatedTouchInput) : wprog unit :=
  transact (fun w =>
    match recordCorrelatedTouch (lw_governance (ww_line w)) i with
    | Ok (_, t) => Ok (tt, with_line (with_governance t (ww_line w)) w)
    | Err e => Err (GovernanceThrew e)
    end).

Definition touch_input (correlationId ref : string) (kind : TouchEvidenceKind) (a : LineAcceptedAttempt) (e : InboxEntry) : RecordCorrelatedTouchInput :=
  CorrelatedTouchInput correlationId (la_reservationId a) (la_actionKey a) (la_deliveryId a) (la_attemptId a) ref (Some kind)
    (toISOString (ie_providerTimestamp (in_event e))).

(** The event of a touch. *)
Definition touch_event (correlationId ref : string) (kind : TouchEvidenceKind) (a : LineAcceptedAttempt) (e : InboxEntry) : string * jsval :=
  let eventId := "line-touch:" +:+ la_attemptId a in
  (eventId,
   JObj [("type", JStr "contact.touch.correlated.v1"); ("eventId", JStr eventId); ("tenantId", JStr tenantId);
         ("occurredAt", JStr (toISOString (ie_providerTimestamp (in_event e)))); ("correlationId", JStr correlationId);
         ("attemptId", JStr (la_attemptId a)); ("deliveryId", JStr (la_deliveryId a)); ("responseEvidenceRef", JStr ref);
         ("evidenceKind", JStr (evidence_kind_text kind))]).

(** [commitTouch] *)
Definition commitTouch (correlationId ref : string) (kind : TouchEvidenceKind) (a : LineAcceptedAttempt) (p : LineInboundProjection) (e : InboxEntry)
  : wprog bool :=
  if negb (bool_decide (la_recipientFingerprint a = pj_sourceFingerprint p)) then unbound correlationId
  else if ie_providerTimestamp (in_event e) <? la_acceptedAt a then unbound correlationId
  else
    at_ ← worker_now;
    bound ← transact (bindCorrelation correlationId (la_deliveryId a) (la_attemptId a) at_);
    match bound with
    | None => ret false
    | Some _ =>
        brand tenantId "TenantId" ;;
        brand (la_reservationId a) "ReservationId" ;;
        brand (la_actionKey a) "ActionKey" ;;
        brand (la_deliveryId a) "DeliveryId" ;;
        brand ref "OutcomeRef" ;;
        record_touch (touch_input correlationId ref kind a e) ;;
        let event := touch_event correlationId ref kind a e in
        id ← worker_id;
        lift (assertRedactedPayload (snd event)) ;;
        transact (line_transaction (enqueueEvent (LineEventRow_ id (fst event) (la_deliveryId a) (snd event) (sha256_hex (json_print (snd event)))
          (ie_providerTimestamp (in_event e))))) ;;
        ret true
    end.

(** [bind] *)
Definition bind_response (e : InboxEntry) (p : LineInboundProjection) (kind : TouchEvidenceKind) (quoted : option string)
  (attempt : option LineAcceptedAttempt) : wprog bool :=
  let ref := response_ref e in
  let sent := ie_providerTimestamp (in_event e) in
  id ← worker_id;
  correlation ← openCorrelation (TouchEvidence_ id (in_id e) kind ref (truthy quoted) sent (sent + LINE_TOUCH_WINDOW_MS)) (la_deliveryId <$> attempt);
  if negb (bool_decide (tk_state correlation = CORRELATION_PENDING)) then ret (bool_decide (tk_state correlation = CORRELATION_BOUND))
  else
    match attempt with
    | None => ret false
    | Some a => commitTouch (tk_id correlation) ref kind a p e
    end.

(** [correlate]: whether it was bound, and the tokens refused. *)
Definition correlate (e : InboxEntry) (p : LineInboundProjection) (v : ResponseEvidence) : wprog (bool * Z) :=
  let channel := ie_channelAccountId (in_event e) in
  match v with
  | BRINGS token =>
      consumed ← transact (fun w => Ok (consume_token token w));
      match consumed with
      | None => ret (false, 1)
      | Some messageId =>
          attempt ← findAcceptedAttemptByMessage tenantId channel messageId;
          bound ← bind_response e p SIGNED_POSTBACK None attempt;
          ret (bound, 0)
      end
  | QUOTES messageId =>
      attempt ← findAcceptedAttemptByMessage tenantId channel messageId;
      bound ← bind_response e p USER_QUOTED_RESPONSE (Some messageId) attempt;
      ret (bound, 0)
  end.

(** ** Entries *)

(** [inbox.complete] and [inbox.quarantine] at the clock. *)
Definition completed (e : InboxEntry) : wprog bool := at_ ← worker_now; transact (complete (in_id e) leaseOwner at_).
Definition quarantined (e : InboxEntry) (c : LineWebhookCode) : wprog bool := at_ ← worker_now; transact (quarantineEntry (in_id e) c at_).

(** [process] *)
Definition process (e : InboxEntry) (r : WorkerResult) : wprog WorkerResult :=
  if negb (includes LINE_SUPPORTED_EVENT_TYPES (ie_eventType (in_event e)))
  then quarantined e WEBHOOK_UNSUPPORTED_EVENT_TYPE ;; ret (plus_work 0 0 0 0 1 r)
  else
    projection ← read_payload keyring e;
    match projection with
    | None => quarantined e WEBHOOK_SCHEMA_INVALID ;; ret (plus_work 0 0 0 0 1 r)
    | Some p =>
        projected ← match (if bool_decide (ie_eventType (in_event e) = "message") then pj_providerMessageId p else None) with
                    | Some messageId => project e p messageId
                    | None => ret false
                    end;
        let r1 := plus_work 0 (if projected : bool then 1 else 0) 0 0 0 r in
        match evidenceOf e p with
        | None => completed e ;; ret r1
        | Some v =>
            found ← correlate e p v;
            completed e ;;
            ret (plus_work 0 0 (if fst found : bool then 1 else 0) (if fst found : bool then 0 else 1) (snd found) r1)
        end
    end.

Fixpoint process_all (entries : list InboxEntry) (r : WorkerResult) : wprog WorkerResult :=
  match entries with
  | [] => ret r
  | e :: rest => r1 ← process e (plus_work 1 0 0 0 0 r); process_all rest r1
  end.

(** [runOnce] *)
Definition runOnce : wprog WorkerResult :=
  now ← worker_now;
  claimed ← transact (claim leaseOwner now leaseMs batchSize);
  process_all claimed no_work.

(** ** Responses that wait *)

(** One turn of the loop of [resolvePending]. *)
Definition resolve_one (c : TouchCorrelation) (r : WorkerResult) : wprog WorkerResult :=
  let v := tk_evidence c in
  now ← worker_now;
  found ← query (fun w => js_find (inbox_by (te_inboxEntryId v)) (lh_inbox (ww_hooks w)));
  e ← lift (from_option found (DatabaseRefusal "P2025"));
  projection ← read_payload keyring e;
  let quoted := truthy (te_quotedMessageId v) in
  bound ← match projection, quoted with
          | Some p, Some messageId =>
              attempt ← findAcceptedAttemptByMessage tenantId (ie_channelAccountId (in_event e)) messageId;
              match attempt with
              | Some a => commitTouch (tk_id c) (te_responseEvidenceRef v) (te_evidenceKind v) a p e
              | None => ret false
              end
          | _, _ => ret false
          end;
  if bound : bool then ret (plus_work 0 0 1 0 0 r)
  else if te_windowExpiresAt v <=? now then
    transact (quarantineCorrelation (tk_id c) USER_RESPONSE_UNBOUND now) ;; ret (plus_work 0 0 0 0 1 r)
  else ret (plus_work 0 0 0 1 0 r).

Fixpoint resolve_all (pending : list TouchCorrelation) (r : WorkerResult) : wprog WorkerResult :=
  match pending with
  | [] => ret r
  | c :: rest => r1 ← resolve_one c (plus_work 1 0 0 0 0 r); resolve_all rest r1
  end.

(** [resolvePending] *)
Definition resolvePending (limit : nat) : wprog WorkerResult :=
  pending ← query (listPendingCorrelations limit);
  resolve_all pending no_work.

(** ** The loop *)

(** One turn of [LineWebhookWorkerLoop.loop]: the failures so far and after it, and how long it sleeps.
    [resolvePending] takes fifty by default. *)
Definition loop_turn (idleMs maxBackoffMs : Z) (failures : nat) : wprog (nat * Z) :=
  catch (fun _ => ret (S failures, Z.min (idleMs * 2 ^ Z.of_nat (S failures)) maxBackoffMs))
    (projected ← runOnce;
     resolved ← resolvePending 50;
     ret (0%nat, if wr_processed projected + wr_processed resolved =? 0 then idleMs else 0)).
End Worker.
