(* ===== verification/LineTouches.v ===== *)
(** * LineTouches: what holds of LINE's webhooks between any two calls

    The invariant of the tables of LineInbox over those of LINE delivery, how their rows may move, and
    what each transaction keeps. *)
From stdpp Require Import base tactics list strings relations.
From Stdlib Require Import ZArith Lia.
From S2P Require Import Prelude JsMap Text JsDate JsValue Contracts ScopeKey Persistence ReservationRuntime DeliveryCommands Program LineDelivery LineControlPolicy LineTables LineStore LineLedger LineControlPlane LineAdapter LineInvariant LineTransactions LineInbox LineWebhook LineWebhookWorker.

Open Scope string_scope.
Open Scope Z_scope.
Open Scope list_scope.

(** ** Rows that move *)

Lemma guard_inbox old new : dl_line_guard_webhook_inbox old new = None ->
  inbox_open (in_state old) = true /\ in_event new = in_event old /\ in_attempts old <= in_attempts new /\ inbox_check new = true.
Proof.
  unfold dl_line_guard_webhook_inbox. destruct (negb (inbox_open _)) eqn:Ho; [done|]. destruct (negb (bool_decide _)) eqn:He; [done|].
  destruct (_ <? _) eqn:Ha; [done|]. destruct (inbox_check new); [|done]. by bool_prop.
Qed.

(** What can happen to an entry of the inbox: a claim takes it when it waits or the lease it is under has
    run out at the claim's instant; the one who holds the lease completes it; or it is quarantined. *)
Inductive entry_event :=
  | E_claimed (owner : string) (t ms : Z)
  | E_completed (owner : string) (at_ : Z)
  | E_quarantined (code : LineWebhookCode) (at_ : Z).

Inductive entry_step : entry_event -> InboxEntry -> InboxEntry -> Prop :=
  | es_claimed owner t ms e : claimable t e = true -> entry_step (E_claimed owner t ms) e (leased owner (t + ms) e)
  | es_completed owner at_ e : in_state e = INBOX_PROCESSING -> fst <$> in_lease e = Some owner ->
      entry_step (E_completed owner at_) e (ended INBOX_COMPLETED WEBHOOK_ACCEPTED at_ e)
  | es_quarantined code at_ e : inbox_open (in_state e) = true ->
      entry_step (E_quarantined code at_) e (ended INBOX_QUARANTINED code at_ e).

Definition entry_moves (e e' : InboxEntry) : Prop := exists ev, entry_step ev e e'.

(** Later than an entry: the same event, as it was once it ended, and by such steps. *)
Definition inbox_later (e e' : InboxEntry) : Prop :=
  in_event e' = in_event e /\ in_attempts e <= in_attempts e' /\ (inbox_open (in_state e) = false -> e' = e) /\
  rtc entry_moves e e'.

#[export] Instance inbox_later_preorder : PreOrder inbox_later.
Proof.
  split; [by intros e; split_and!; try apply rtc_refl|]. intros e1 e2 e3 (Hv & Ha & Ht & Hs) (Hv' & Ha' & Ht' & Hs').
  split; [congruence|]. split; [lia|]. split; [|by etrans]. intros Ho. specialize (Ht Ho). subst. auto.
Qed.

Lemma guard_inbox_later old new : dl_line_guard_webhook_inbox old new = None -> entry_moves old new -> inbox_later old new.
Proof.
  intros Hg Hm. destruct (guard_inbox _ _ Hg) as (Ho & He & Ha & _). split; [done|]. split; [done|].
  split; [congruence|by apply rtc_once].
Qed.

Lemma guard_correlation old new : dl_line_guard_touch_correlation old new = None ->
  tk_state old = CORRELATION_PENDING /\ tk_evidence new = tk_evidence old /\ correlation_check new = true /\
  (is_Some (tk_deliveryId old) -> tk_deliveryId new = tk_deliveryId old).
Proof.
  unfold dl_line_guard_touch_correlation. destruct (negb (bool_decide (tk_state old = _))) eqn:Hs; [done|].
  destruct (negb (bool_decide (tk_evidence new = _))) eqn:He; [done|]. destruct (_ && _) eqn:Hd; [done|].
  destruct (correlation_check new); [|done]. intros _. bool_prop. split_and?; try done. intros Hi.
  rewrite (bool_decide_eq_true_2 _ Hi) in Hd. cbn in Hd. by bool_prop.
Qed.

(** Later than a correlation: of the same evidence, and as it was once it was resolved. *)
Definition correlation_later (c c' : TouchCorrelation) : Prop :=
  tk_evidence c' = tk_evidence c /\ (tk_state c <> CORRELATION_PENDING -> c' = c).

#[export] Instance correlation_later_preorder : PreOrder correlation_later.
Proof.
  split; [done|]. intros c1 c2 c3 [Hv Ht] [Hv' Ht']. split; [congruence|]. intros Ho. specialize (Ht Ho). subst. auto.
Qed.

Lemma guard_correlation_later old new : dl_line_guard_touch_correlation old new = None -> correlation_later old new.
Proof. intros Hg. destruct (guard_correlation _ _ Hg) as (Hs & He & _). split; [done|]. congruence. Qed.

Lemma guarded_grows {A} (guard : A -> A -> option string) (R : A -> A -> Prop) `{!PreOrder R} p f rows n rows' :
  (forall x y, guard x y = None -> R x y) -> update_guarded guard p f rows = Ok (n, rows') -> grows R rows rows'.
Proof.
  intros HR Hu. apply update_guarded_ok in Hu as (_ & _ & Hf). intros x Hx.
  destruct (Forall2_In_l _ _ _ _ Hf Hx) as (y & Hy & [-> |(_ & _ & Hg)]); [by exists x|]. exists y. split; [done|by apply HR].
Qed.

(** The same, where what an update does is known of the rows it takes. *)
Lemma guarded_rows_grow {A} (guard : A -> A -> option string) (R : A -> A -> Prop) `{!PreOrder R} p f rows n rows' :
  (forall x, In x rows -> p x = true -> guard x (f x) = None -> R x (f x)) -> update_guarded guard p f rows = Ok (n, rows') ->
  grows R rows rows'.
Proof.
  intros HR Hu. apply update_guarded_ok in Hu as (_ & _ & Hf). intros x Hx.
  destruct (Forall2_In_l _ _ _ _ Hf Hx) as (y & Hy & [-> |(Hp & -> & Hg)]); [by exists x|]. exists (f x). auto.
Qed.

(** What the trigger holds fixed stays in every row. *)
Lemma guarded_map {A B} (guard : A -> A -> option string) (g : A -> B) p f rows n rows' :
  (forall x y, guard x y = None -> g y = g x) -> update_guarded guard p f rows = Ok (n, rows') -> map g rows' = map g rows.
Proof.
  intros Hg Hu. apply update_guarded_ok in Hu as (_ & _ & Hf). induction Hf as [|x y l l' Hxy _ IH]; [done|]. cbn. rewrite IH. f_equal.
  destruct Hxy as [-> |(_ & _ & Hn)]; [done|by apply Hg].
Qed.

(** What no row has. *)
Lemma some_none {A} (f : A -> bool) l x : js_some f l = false -> In x l -> f x = false.
Proof. intros Hs Hx. apply not_true_iff_false. intros Hf. apply not_true_iff_false in Hs. apply Hs, existsb_exists. by exists x. Qed.

(** The row of a key that is unique is the one found under it. *)
Lemma find_keyed {A B} `{EqDecision B} (key : A -> B) l x : List.NoDup (map key l) -> In x l -> js_find (fun y => bool_decide (key y = key x)) l = Some x.
Proof.
  intros Hn Hx. destruct (js_find _ l) as [y|] eqn:Ef.
  - apply find_some in Ef as [Hy Hk]. bool_prop. f_equal. by apply (NoDup_map_inj key l).
  - exfalso. apply (find_none _ _ Ef) in Hx. by bool_prop.
Qed.

(** ** What a correlation stands for *)

Section Touches.
Context `{Runtime, Host, WebhookHost} (keyring : string -> option string).

(** The projection of an entry, read from its payload. *)
Definition reads (w : WebhookWorld) (e : InboxEntry) (p : LineInboundProjection) : Prop := vault_read keyring e w = Ok (Some p).

(** A message was sent for a delivery on a channel, as a receipt of acceptance has it; the delivery's
    logical unit is of that channel's gate and has the fingerprint of its recipient. *)
Definition sent_for (l : LineWorld) (channel messageId deliveryId fingerprint : string) : Prop :=
  exists r u g, In r (ld_attempts (lw_deliveries l)) /\ sa_deliveryId r = deliveryId /\ sa_outcomeClass r = CLASS_ACCEPTED /\
    In messageId (sa_sentMessageIds r) /\
    In u (lt_ledger (lw_control l)) /\ cu_deliveryId (ce_unit u) = deliveryId /\ cu_capKind (ce_unit u) = LOGICAL_DELIVERY /\
    cu_recipientFingerprint (ce_unit u) = fingerprint /\
    In g (lt_gates (lw_control l)) /\ gt_id g = cu_gateId (ce_unit u) /\ sc_channelAccountId (gt_scope g) = channel.

(** An attempt Governance has, of the delivery a message was sent for. *)
Definition attempt_for (l : LineWorld) (channel messageId : string) (a : LineAcceptedAttempt) : Prop :=
  sent_for l channel messageId (la_deliveryId a) (la_recipientFingerprint a) /\
  exists f, In f (df_attempts (rt_facts (lw_governance l))) /\ fc_id f = la_attemptId a /\ fc_deliveryId f = la_deliveryId a /\
    fc_outcome f = PROVIDER_ACCEPTED /\ fc_occurredAt f = la_acceptedAt a.

(** A bound correlation is with such an attempt: to the sender of the event, accepted no later than it was
    sent, and of the message it quotes where it quotes one. *)
Definition bound_wf (l : LineWorld) (v : InboxEvent) (p : LineInboundProjection) (c : TouchCorrelation) : Prop :=
  exists messageId a, attempt_for l (ie_channelAccountId v) messageId a /\
    tk_deliveryId c = Some (la_deliveryId a) /\ tk_attemptId c = Some (la_attemptId a) /\
    la_recipientFingerprint a = pj_sourceFingerprint p /\ la_acceptedAt a <= ie_providerTimestamp v /\
    (forall q, te_quotedMessageId (tk_evidence c) = Some q -> messageId = q).

(** The evidence of a correlation is of an event from one person. *)
Definition evidence_wf (e : InboxEntry) (p : LineInboundProjection) (v : TouchEvidence) : Prop :=
  in_id e = te_inboxEntryId v /\ te_responseEvidenceRef v = response_ref e /\ te_providerTimestamp v = ie_providerTimestamp (in_event e) /\
  te_windowExpiresAt v = te_providerTimestamp v + LINE_TOUCH_WINDOW_MS /\ pj_isOneToOne p = true /\
  match te_evidenceKind v with
  | USER_QUOTED_RESPONSE => ie_eventType (in_event e) = "message" /\ te_quotedMessageId v = pj_quotedMessageId p
  | SIGNED_POSTBACK => ie_eventType (in_event e) = "postback" /\ is_Some (pj_postbackToken p) /\ te_quotedMessageId v = None
  end.

Definition correlation_wf (w : WebhookWorld) (c : TouchCorrelation) : Prop :=
  correlation_check c = true /\
  exists e p, In e (lh_inbox (ww_hooks w)) /\ reads w e p /\ evidence_wf e p (tk_evidence c) /\
    (tk_state c = CORRELATION_BOUND -> bound_wf (ww_line w) (in_event e) p c).

(** A message is that of an entry of its channel. *)
Definition message_wf (inbox : list InboxEntry) (m : InboundMessage) : Prop :=
  exists e, In e inbox /\ in_id e = im_inboxEntryId m /\ ie_channelAccountId (in_event e) = im_channelAccountId m /\
    ie_eventType (in_event e) = "message" /\ ie_providerTimestamp (in_event e) = im_providerTimestamp m.

Record hooks_ok (w : WebhookWorld) : Prop := {
  hk_ids : List.NoDup (map in_id (lh_inbox (ww_hooks w)));
  hk_events : List.NoDup (map (fun e => event_key (in_event e)) (lh_inbox (ww_hooks w)));
  hk_inbox : forall e, In e (lh_inbox (ww_hooks w)) -> inbox_check e = true;
  hk_correlation_ids : List.NoDup (map tk_id (lh_correlations (ww_hooks w)));
  hk_refs : List.NoDup (map (fun c => te_responseEvidenceRef (tk_evidence c)) (lh_correlations (ww_hooks w)));
  hk_entries : List.NoDup (map (fun c => te_inboxEntryId (tk_evidence c)) (lh_correlations (ww_hooks w)));
  hk_attempts : List.NoDup (omap tk_attemptId (lh_correlations (ww_hooks w)));
  hk_correlations : forall c, In c (lh_correlations (ww_hooks w)) -> correlation_wf w c;
  hk_message_keys : List.NoDup (map message_key (lh_messages (ww_hooks w)));
  hk_message_entries : List.NoDup (map im_inboxEntryId (lh_messages (ww_hooks w)));
  hk_messages : forall m, In m (lh_messages (ww_hooks w)) -> message_wf (lh_inbox (ww_hooks w)) m;
  hk_payloads : List.NoDup (map wp_protectedPayloadRef (lh_payloads (ww_hooks w)));
}.

Record hooks_move (h h' : LineWebhooks) : Prop := {
  hm_inbox : grows inbox_later (lh_inbox h) (lh_inbox h');
  hm_correlations : grows correlation_later (lh_correlations h) (lh_correlations h');
  hm_messages : forall m, In m (lh_messages h) -> In m (lh_messages h');
  hm_payloads : forall p, In p (lh_payloads h) -> In p (lh_payloads h');
}.

#[export] Instance hooks_move_preorder : PreOrder hooks_move.
Proof. split; [by intros h; constructor|]. intros h1 h2 h3 [] []. constructor; try (by etrans); auto. Qed.

Definition webhook_moves (w w' : WebhookWorld) : Prop := line_moves (ww_line w) (ww_line w') /\ hooks_move (ww_hooks w) (ww_hooks w').

#[export] Instance webhook_moves_preorder : PreOrder webhook_moves.
Proof. split; [by intros w|]. intros w1 w2 w3 [Hl Hh] [Hl' Hh']. split; by etrans. Qed.

(** ** What stays *)

Lemma sent_for_later l l' channel m d fp : line_moves l l' -> sent_for l channel m d fp -> sent_for l' channel m d fp.
Proof.
  intros Hm (r & u & g & Hr & Hrd & Hrc & Hrm & Hu & Hud & Huk & Huf & Hg & Hgi & Hgc).
  destruct (mv_ledger _ _ Hm u Hu) as (u' & Hu' & Hal). apply allowed_cap_unit in Hal.
  destruct (mv_gates _ _ Hm g Hg) as (g' & Hg' & Hag).
  assert (Hgs : gt_id g' = gt_id g /\ gt_scope g' = gt_scope g).
  { clear - Hag. induction Hag as [|x y z Hxy _ IH]; [done|]. destruct (guard_gate _ _ Hxy) as (Hi & Hs & _). destruct IH. split; congruence. }
  destruct Hgs as [Hgi' Hgs]. exists r, u', g'. rewrite Hal, Hgi', Hgs. split_and?; try done. by apply (mv_attempts _ _ Hm).
Qed.

Lemma attempt_for_later l l' channel m a : line_moves l l' -> attempt_for l channel m a -> attempt_for l' channel m a.
Proof.
  intros Hm (Hs & f & Hf & Ha). split; [by eapply sent_for_later|]. exists f. split; [by apply (mv_facts _ _ Hm)|done].
Qed.

Lemma bound_wf_later l l' v p c : line_moves l l' -> bound_wf l v p c -> bound_wf l' v p c.
Proof. intros Hm (m & a & Ha & Hb). exists m, a. split; [by eapply attempt_for_later|done]. Qed.

(** A payload that was read is read again, of whatever has the same event. *)
Lemma reads_later w w' e e' p : (forall x, In x (lh_payloads (ww_hooks w)) -> In x (lh_payloads (ww_hooks w'))) ->
  List.NoDup (map wp_protectedPayloadRef (lh_payloads (ww_hooks w'))) -> in_event e' = in_event e -> reads w e p -> reads w' e' p.
Proof.
  intros Hp Hn He. unfold reads, vault_read, decrypt. rewrite He. destruct (js_find _ (lh_payloads (ww_hooks w))) as [row|] eqn:Ef; [|done].
  apply find_some in Ef as [Hin Href]. bool_prop. rewrite <- Href, (find_keyed wp_protectedPayloadRef _ row); [done..|by apply Hp].
Qed.

Lemma evidence_wf_later e e' p v : in_event e' = in_event e -> evidence_wf e p v -> evidence_wf e' p v.
Proof. intros He. unfold evidence_wf, response_ref, in_id. by rewrite He. Qed.

Lemma correlation_wf_later w w' c : line_moves (ww_line w) (ww_line w') -> grows inbox_later (lh_inbox (ww_hooks w)) (lh_inbox (ww_hooks w')) ->
  (forall x, In x (lh_payloads (ww_hooks w)) -> In x (lh_payloads (ww_hooks w'))) ->
  List.NoDup (map wp_protectedPayloadRef (lh_payloads (ww_hooks w'))) -> correlation_wf w c -> correlation_wf w' c.
Proof.
  intros Hl Hi Hp Hn (Hc & e & p & He & Hr & Hv & Hb). split; [done|]. destruct (Hi e He) as (e' & He' & Hev & _). exists e', p.
  split; [done|]. split; [by eapply reads_later|]. split; [by eapply evidence_wf_later|]. rewrite Hev. intros Hs. eapply bound_wf_later; [exact Hl|auto].
Qed.

Lemma message_wf_later inbox inbox' m : grows inbox_later inbox inbox' -> message_wf inbox m -> message_wf inbox' m.
Proof.
  intros Hg (e & He & Hi & Hc & Ht & Hp). destruct (Hg e He) as (e' & He' & Hev & _). exists e'. unfold in_id in *. rewrite Hev. auto.
Qed.

(** ** Transactions *)

Context (content_of : string -> option LineResolvedContent).

(** The invariant of both parts. *)
Definition webhook_ok (w : WebhookWorld) : Prop := line_ok content_of (ww_line w) /\ hooks_ok w.

(** What a transaction has to do. *)
Definition hkeeps (w w' : WebhookWorld) : Prop := webhook_ok w -> webhook_ok w' /\ webhook_moves w w'.

#[export] Instance hkeeps_preorder : PreOrder hkeeps.
Proof.
  split; [by intros w Hw|]. intros w1 w2 w3 H12 H23 Hw. destruct (H12 Hw) as [Hw2 Hm]. destruct (H23 Hw2) as [Hw3 Hm'].
  split; [done|by etrans].
Qed.

Lemma hkeeps_line w l : keeps content_of (ww_line w) l -> hkeeps w (with_line l w).
Proof.
  intros Hk [Hl [? ? ? ? ? ? ? Hc ? ? ? ?]]. destruct (Hk Hl) as [Hl' Hm]. split; [|by split]. split; [done|]. constructor; try done.
  intros c Hin. by eapply correlation_wf_later; [exact Hm| | | |by apply Hc].
Qed.

Lemma hkeeps_line_transaction {A} (t : LineWorld -> result LineError (A * LineWorld)) w a w' :
  (forall l b l', t l = Ok (b, l') -> keeps content_of l l') -> line_transaction t w = Ok (a, w') -> hkeeps w w'.
Proof. unfold line_transaction. intros Ht Hok. open_bind Hok d Hd. destruct d as [b l]. injection Hok as <- <-. by eapply hkeeps_line, Ht. Qed.

Lemma draw_id_keeps w id w' : draw_id w = (id, w') -> hkeeps w w'.
Proof. intros [= <- <-]. by apply hkeeps_line, keeps_outside. Qed.

Lemma audit_once_keeps a w : hkeeps w (audit_once a w).
Proof. unfold audit_once. destruct (js_some _ _); [done|]. apply hkeeps_line, keeps_audit. Qed.

Lemma ingress_audit_keeps eventId c subjectId digest at_ w : hkeeps w (ingress_audit eventId c subjectId digest at_ w).
Proof. unfold ingress_audit. destruct (draw_id w) as [id w1] eqn:Ed. etrans; [by eapply draw_id_keeps|apply audit_once_keeps]. Qed.

(** The inbox rewritten: rows that move, and new ones of other events. *)
Lemma hkeeps_inbox w rows : (webhook_ok w -> grows inbox_later (lh_inbox (ww_hooks w)) rows) ->
  (webhook_ok w -> List.NoDup (map in_id rows) /\ List.NoDup (map (fun e => event_key (in_event e)) rows)) ->
  (forall e, In e rows -> In e (lh_inbox (ww_hooks w)) \/ inbox_check e = true) -> hkeeps w (with_hooks (set_inbox rows) w).
Proof.
  intros Hg Hn Hc Hw. specialize (Hg Hw). destruct (Hn Hw) as [Hi He]. destruct Hw as [Hl []]. split; [split; [done|constructor]|split; [done|constructor]]; cbn; try reflexivity; auto.
  - intros e Hin. destruct (Hc e Hin); auto.
  - intros c Hin. by eapply correlation_wf_later; [..|apply hk_correlations0].
  - intros m Hin. by eapply message_wf_later; [|apply hk_messages0].
Qed.

Lemma update_inbox_keeps p f w n w' :
  (webhook_ok w -> forall x, In x (lh_inbox (ww_hooks w)) -> p x = true -> entry_moves x (f x)) ->
  update_inbox p f w = Ok (n, w') -> hkeeps w w'.
Proof.
  unfold update_inbox. intros Hf Hok. open_bind Hok u Hu. destruct u as [m rows]. injection Hok as _ <-.
  pose proof (guarded_map _ in_event _ _ _ _ _ (fun x y Hg => proj1 (proj2 (guard_inbox x y Hg))) Hu) as Hev.
  apply hkeeps_inbox.
  - intros Hw. eapply guarded_rows_grow; [exact _| |exact Hu]. intros x Hx Hp Hg. apply guard_inbox_later; [done|by apply Hf].
  - intros [_ []]. unfold in_id in *. rewrite <- !(map_map in_event) in *. by rewrite Hev.
  - intros e He. apply update_guarded_grows in Hu as (_ & _ & Hin). destruct (Hin e He) as [?|(x & _ & _ & _ & Hg)]; [by left|right].
    by apply guard_inbox in Hg as (_ & _ & _ & ?).
Qed.

Lemma quarantineEntry_keeps id c at_ w b w' : quarantineEntry id c at_ w = Ok (b, w') -> hkeeps w w'.
Proof.
  unfold quarantineEntry. intros Hok. open_bind Hok u Hu. destruct u as [n w1]. injection Hok as _ <-.
  eapply update_inbox_keeps; [|exact Hu]. intros _ x _ Hp. apply andb_prop in Hp as [_ Hp]. eexists. by apply es_quarantined.
Qed.

Lemma complete_keeps id owner at_ w b w' : complete id owner at_ w = Ok (b, w') -> hkeeps w w'.
Proof.
  unfold complete. intros Hok. open_bind Hok u Hu. destruct u as [n w1]. injection Hok as _ <-.
  eapply update_inbox_keeps; [|exact Hu]. intros _ x _ Hp. apply andb_prop in Hp as [Hp Ho]. apply andb_prop in Hp as [_ Hp]. apply bool_decide_eq_true in Hp, Ho.
  eexists. exact (es_completed owner at_ x Hp Ho).
Qed.

(** The entries of a claim are claimable. *)
Lemma claimed_claimable now limit w x : List.NoDup (map in_id (lh_inbox (ww_hooks w))) -> In x (lh_inbox (ww_hooks w)) ->
  includes (map in_id (take limit (sort_by inbox_order (js_filter (claimable now) (lh_inbox (ww_hooks w)))))) (in_id x) = true ->
  claimable now x = true.
Proof.
  intros Hn Hx Hi. apply includes_spec, in_map_iff in Hi as (y & Hy & Hin).
  apply list_elem_of_In, elem_of_take in Hin as (i & Hi & _). apply list_elem_of_lookup_2, list_elem_of_In, sort_by_In, filter_In in Hi as [Hi Hc].
  assert (x = y) as ->; [|done]. by apply (NoDup_map_inj in_id (lh_inbox (ww_hooks w))).
Qed.

Lemma claim_keeps owner now ms limit w l w' : claim owner now ms limit w = Ok (l, w') -> hkeeps w w'.
Proof.
  unfold claim. intros Hok. open_bind Hok u Hu. destruct u as [n w1]. injection Hok as _ <-.
  eapply update_inbox_keeps; [|exact Hu]. intros [_ Hw] x Hx Hp. eexists. apply es_claimed.
  eapply claimed_claimable; [apply Hw|done|exact Hp].
Qed.

Lemma insert_inbox_keeps e w b w' : insert_inbox e w = Ok (b, w') -> hkeeps w w'.
Proof.
  unfold insert_inbox, refuse_if. intros Hok. apply bind_throw_if_ok in Hok as [Hc Hok]. destruct (js_some _ _) eqn:Hs; injection Hok as _ <-; [done|].
  bool_prop. apply hkeeps_inbox; [intros _; apply grows_snoc, _| |].
  - intros [_ []]. split; apply NoDup_snoc_map; try done.
    + apply (some_clash in_id). intros x Hx. by destruct (orb_false_elim _ _ (some_none _ _ x Hs Hx)).
    + apply (some_clash (fun e => event_key (in_event e))). intros x Hx. by destruct (orb_false_elim _ _ (some_none _ _ x Hs Hx)).
  - intros x Hx. apply in_app_iff in Hx as [Hx|[<-|[]]]; auto.
Qed.

Lemma accept_event_keeps v w a w' : accept_event v w = Ok (a, w') -> hkeeps w w'.
Proof.
  unfold accept_event. intros Hok. open_bind Hok i Hi. destruct i as [[|] w1]; cbn in Hok; [injection Hok as _ <-; by eapply insert_inbox_keeps|].
  open_bind Hok e He. destruct (bool_decide _); [by injection Hok as _ <-|]. open_bind Hok u Hu. destruct u as [n w2]. injection Hok as _ <-.
  etrans; [|apply ingress_audit_keeps]. eapply update_inbox_keeps; [|exact Hu]. intros _ x _ Hp. apply andb_prop in Hp as [_ Hp].
  eexists. by apply es_quarantined.
Qed.

Lemma acceptBatch_keeps l w a w' : acceptBatch l w = Ok (a, w') -> hkeeps w w'.
Proof.
  revert w a w'. induction l as [|v l IH]; intros w a w' Hok; cbn [acceptBatch] in Hok; [by injection Hok as _ <-|].
  open_bind Hok x Hx. destruct x as [x w1]. open_bind Hok y Hy. destruct y as [y w2]. injection Hok as _ <-.
  etrans; [by eapply accept_event_keeps|by eapply IH].
Qed.

(** ** The ingress *)

Lemma insert_payload_keeps p w : hkeeps w (insert_payload p w).
Proof.
  unfold insert_payload. destruct (js_some _ _) eqn:Hs; [done|]. intros [Hl Hok]. pose proof Hok as [].
  assert (Hn : List.NoDup (map wp_protectedPayloadRef (lh_payloads (ww_hooks w) ++ [p]))).
  { apply NoDup_snoc_map; [done|]. apply (some_clash wp_protectedPayloadRef). intros x Hx.
    by destruct (orb_false_elim _ _ (some_none _ _ x Hs Hx)). }
  assert (Hin : forall x, In x (lh_payloads (ww_hooks w)) -> In x (lh_payloads (ww_hooks w) ++ [p])) by (intros x Hx; apply in_app_iff; by left).
  split; [split; [done|constructor]|split; [done|constructor]]; cbn; try reflexivity; auto.
  intros c Hc. by eapply correlation_wf_later; [..|apply hk_correlations0].
Qed.

Section Ingress.
Context (tenantId : string) (binding : LineWebhookBinding).

Lemma enqueue_within_keeps ev key at_ w r w' : enqueue_within ev key at_ w = Ok (r, w') -> hkeeps w w'.
Proof.
  unfold enqueue_within. destruct (draw_id w) as [id w1] eqn:Ed. intros Hok. apply bind_unit_ok in Hok as [_ Hok].
  etrans; [by eapply draw_id_keeps|]. eapply hkeeps_line_transaction; [|exact Hok]. intros l b l' H'. by eapply enqueueEvent_keeps.
Qed.

Lemma storePayload_keeps v p w : hkeeps w (storePayload binding v p w).
Proof.
  unfold storePayload. destruct (aes_gcm_seal _ _ _) as [ct tag]. destruct (draw_id w) as [id w1] eqn:Ed.
  etrans; [by eapply draw_id_keeps|apply insert_payload_keeps].
Qed.

Lemma persist_event_keeps p at_ w r w' : persist_event tenantId binding p at_ w = Ok (r, w') -> hkeeps w w'.
Proof.
  unfold persist_event. destruct (draw_id w) as [id w1] eqn:Ed. intros Hok. open_bind Hok v Hv. open_bind Hok a Ha. destruct a as [[i a] w2]. cbn [fst snd] in Hok.
  etrans; [by eapply draw_id_keeps|]. etrans; [by eapply accept_event_keeps|].
  destruct (bool_decide _); [|by injection Hok as _ <-]. destruct (identifier _ _); [|done]. open_bind Hok q Hq. destruct q as [q w3].
  injection Hok as _ <-. etrans; [apply storePayload_keeps|by eapply enqueue_within_keeps].
Qed.

Lemma persist_events_keeps l at_ w r w' : persist_events tenantId binding l at_ w = Ok (r, w') -> hkeeps w w'.
Proof.
  revert w r w'. induction l as [|p l IH]; intros w r w' Hok; cbn [persist_events] in Hok; [by injection Hok as _ <-|].
  open_bind Hok x Hx. destruct x as [x w1]. open_bind Hok y Hy. destruct y as [y w2]. injection Hok as _ <-.
  etrans; [by eapply persist_event_keeps|by eapply IH].
Qed.

Lemma persist_keeps l at_ w r w' : persist tenantId binding l at_ w = Ok (r, w') -> hkeeps w w'.
Proof. unfold persist. intros Hok. open_bind Hok x Hx. destruct x as [x w1]. injection Hok as _ <-. by eapply persist_events_keeps. Qed.

Lemma mismatch_keeps l at_ w r w' : recordDestinationMismatch binding l at_ w = Ok (r, w') -> hkeeps w w'.
Proof.
  revert w r w'. induction l as [|p l IH]; intros w r w' Hok; cbn [recordDestinationMismatch] in Hok; [by injection Hok as _ <-|].
  destruct (draw_id w) as [id w1] eqn:Ed. open_bind Hok v Hv. open_bind Hok i Hi. destruct i as [i w2].
  etrans; [by eapply draw_id_keeps|]. etrans; [by eapply insert_inbox_keeps|]. etrans; [apply ingress_audit_keeps|by eapply IH].
Qed.

(** A request keeps the invariant, whatever it brings. *)
Lemma handle_within q : within hkeeps (handle tenantId binding q).
Proof.
  unfold handle. repeat (match goal with |- within _ (if ?b then _ else _) => destruct b | |- within _ (match ?x with _ => _ end) => destruct x end; try exact I).
  apply within_catch; [|by intros []]. apply within_transact; [done|]. intros s b s'. cbv zeta beta.
  destruct (negb _); [|apply persist_keeps]. intros Hok. open_bind Hok x Hx. destruct x as [x w1]. injection Hok as _ <-. by eapply mismatch_keeps.
Qed.
End Ingress.

(** ** Correlations *)

(** The correlations rewritten, in a world with the same inbox. *)
Lemma hkeeps_correlations w rows : grows correlation_later (lh_correlations (ww_hooks w)) rows ->
  (webhook_ok w -> List.NoDup (map tk_id rows) /\ List.NoDup (map (fun c => te_responseEvidenceRef (tk_evidence c)) rows) /\
     List.NoDup (map (fun c => te_inboxEntryId (tk_evidence c)) rows) /\ List.NoDup (omap tk_attemptId rows) /\
     forall c, In c rows -> correlation_wf w c) -> hkeeps w (with_hooks (set_correlations rows) w).
Proof.
  intros Hg Hn Hw. destruct (Hn Hw) as (Hi & Hr & He & Ha & Hc). destruct Hw as [Hl []].
  split; [split; [done|constructor]|split; [done|constructor]]; cbn; try reflexivity; auto.
Qed.

(** A new correlation of an event that is there and its payload. *)
Lemma createCorrelation_keeps v d w c w' : createCorrelation v d w = Ok (c, w') ->
  (webhook_ok w -> exists e p, In e (lh_inbox (ww_hooks w)) /\ reads w e p /\ evidence_wf e p v) -> hkeeps w w'.
Proof.
  unfold createCorrelation, refuse_if. intros Hok Hv. apply bind_throw_if_ok in Hok as [Hc Hok]. apply bind_throw_if_ok in Hok as [Hs Hok].
  apply bind_throw_if_ok in Hok as [_ [= <- <-]]. bool_prop.
  assert (Hfree : forall x, In x (lh_correlations (ww_hooks w)) -> correlation_by (te_id v) x = false /\
            bool_decide (te_responseEvidenceRef (tk_evidence x) = te_responseEvidenceRef v) = false /\
            bool_decide (te_inboxEntryId (tk_evidence x) = te_inboxEntryId v) = false).
  { intros x Hx. destruct (orb_false_elim _ _ (some_none _ _ x Hs Hx)) as [Hf ?]. by destruct (orb_false_elim _ _ Hf). }
  apply hkeeps_correlations; [apply grows_snoc, _|]. intros Hw. specialize (Hv Hw). destruct Hw as [_ []].
  split_and?; [apply NoDup_snoc_map; [done|]; apply (some_clash tk_id); intros x Hx; by apply Hfree| | | |].
  - apply NoDup_snoc_map; [done|]. apply (some_clash (fun c => te_responseEvidenceRef (tk_evidence c))). intros x Hx. by apply Hfree.
  - apply NoDup_snoc_map; [done|]. apply (some_clash (fun c => te_inboxEntryId (tk_evidence c))). intros x Hx. by apply Hfree.
  - rewrite omap_app. cbn. by rewrite app_nil_r.
  - intros x Hx. apply in_app_iff in Hx as [Hx|[<-|[]]]; [by apply hk_correlations0|]. split; [done|].
    destruct Hv as (e & p & He & Hr & Hev). exists e, p. by split_and?.
Qed.

(** An update of correlations, each as its trigger lets it be. *)
Lemma update_correlations_keeps p f w n rows : update_guarded dl_line_guard_touch_correlation p f (lh_correlations (ww_hooks w)) = Ok (n, rows) ->
  (webhook_ok w -> List.NoDup (omap tk_attemptId rows) /\
     forall c e pj, In c (lh_correlations (ww_hooks w)) -> p c = true -> In e (lh_inbox (ww_hooks w)) -> reads w e pj -> evidence_wf e pj (tk_evidence c) ->
       tk_state (f c) = CORRELATION_BOUND -> bound_wf (ww_line w) (in_event e) pj (f c)) -> hkeeps w (with_hooks (set_correlations rows) w).
Proof.
  intros Hu Hb. pose proof (guarded_map _ tk_evidence _ _ _ _ _ (fun x y Hg => proj1 (proj2 (guard_correlation x y Hg))) Hu) as Hev.
  apply hkeeps_correlations; [eapply guarded_grows; [exact _|exact guard_correlation_later|exact Hu]|]. intros Hw. destruct (Hb Hw) as [Hn Hbound].
  destruct Hw as [_ []]. unfold tk_id in *. rewrite <- !(map_map tk_evidence) in *. rewrite Hev. split_and?; try done. intros c Hc.
  apply update_guarded_grows in Hu as (_ & _ & Hin). destruct (Hin c Hc) as [?|(x & Hx & Hp & -> & Hg)]; [by apply hk_correlations0|].
  destruct (guard_correlation _ _ Hg) as (_ & Hve & Hch & _). destruct (hk_correlations0 x Hx) as (_ & e & pj & He & Hr & Hevw & _). split; [done|].
  exists e, pj. rewrite Hve. split_and?; try done. intros Hs. by apply Hbound.
Qed.

Lemma omap_update_same {A B} (g : A -> option B) p f rows : (forall x, In x rows -> p x = true -> g (f x) = g x) ->
  omap g (update_where p f rows) = omap g rows.
Proof.
  unfold update_where. induction rows as [|x rows IH]; intros Hg; cbn; [done|]. rewrite IH by (intros y Hy; apply Hg; by right).
  destruct (p x) eqn:Hp; [|done]. by rewrite (Hg x (or_introl eq_refl) Hp).
Qed.

(** A pending correlation has no attempt. *)
Lemma pending_no_attempt c : correlation_check c = true -> tk_state c = CORRELATION_PENDING -> tk_attemptId c = None.
Proof. unfold correlation_check. intros Hc Hs. rewrite Hs in Hc. by bool_prop. Qed.
Lemma attempt_bound c a : correlation_check c = true -> tk_attemptId c = Some a -> tk_state c = CORRELATION_BOUND.
Proof. unfold correlation_check. intros Hc Ha. destruct (tk_state c); [|done|]; bool_prop; congruence. Qed.

Lemma quarantineCorrelation_keeps id c at_ w b w' : quarantineCorrelation id c at_ w = Ok (b, w') -> hkeeps w w'.
Proof.
  unfold quarantineCorrelation. intros Hok. open_bind Hok u Hu. destruct u as [n rows]. injection Hok as _ <-.
  eapply update_correlations_keeps; [exact Hu|]. intros [_ Hh]. split; [|done]. apply update_guarded_ok in Hu as (_ & -> & _).
  rewrite omap_update_same; [apply Hh|done].
Qed.

(** Binding one of them takes an attempt no other has. *)
Lemma bind_attempts rows takes id d a at_ : List.NoDup (map tk_id rows) -> List.NoDup (omap tk_attemptId rows) ->
  (forall c, In c rows -> takes c = true -> tk_id c = id) -> (forall c, In c rows -> takes c = false -> tk_attemptId c <> Some a) ->
  List.NoDup (omap tk_attemptId (update_where takes (bound_to d a at_) rows)).
Proof.
  assert (Hin : forall l x, In x (omap tk_attemptId l) <-> exists c, In c l /\ tk_attemptId c = Some x).
  { intros l x. rewrite <- !list_elem_of_In, list_elem_of_omap. by setoid_rewrite list_elem_of_In. }
  assert (Hcons : forall c l, omap tk_attemptId (c :: l) = match tk_attemptId c with Some x => [x] | None => [] end ++ omap tk_attemptId l).
  { intros c l. cbn. by destruct (tk_attemptId c). }
  induction rows as [|c rows IH]; intros Hi Hn Ht Hf; [done|]. inversion Hi as [|? ? Hci Hi']; subst. rewrite Hcons in Hn.
  assert (Hn' : List.NoDup (omap tk_attemptId rows)) by (destruct (tk_attemptId c); [by inversion Hn|done]).
  unfold update_where. cbn [map]. fold (update_where takes (bound_to d a at_) rows). rewrite Hcons. destruct (takes c) eqn:Etc.
  - cbn [bound_to tk_attemptId app]. assert (Hrest : forall x, In x rows -> takes x = false).
    { intros x Hx. apply not_true_iff_false. intros Htx. apply Hci. rewrite (Ht c (or_introl eq_refl) Etc), <- (Ht x (or_intror Hx) Htx). by apply in_map. }
    assert (Hsame : update_where takes (bound_to d a at_) rows = rows).
    { unfold update_where. rewrite <- (map_id rows) at 2. apply map_ext_in. intros x Hx. by rewrite Hrest. }
    rewrite Hsame. constructor; [|done]. intros Hx. apply Hin in Hx as (x & Hx & Hxa). by apply (Hf x (or_intror Hx) (Hrest x Hx)).
  - assert (Hrec : List.NoDup (omap tk_attemptId (update_where takes (bound_to d a at_) rows))).
    { apply IH; [done..| |]; intros x Hx; [apply Ht|apply Hf]; by right. }
    destruct (tk_attemptId c) as [y|] eqn:Ey; [|done]. cbn in *. inversion Hn as [|? ? Hy _]; subst. constructor; [|done].
    intros Hx. apply Hin in Hx as (x & Hx & Hxa). apply update_where_In in Hx as (z & Hz & ->). destruct (takes z) eqn:Etz.
    + cbn in Hxa. apply (Hf c (or_introl eq_refl) Etc). congruence.
    + apply Hy, Hin. by exists z.
Qed.

Lemma bindCorrelation_keeps id d a at_ w r w' : bindCorrelation id d a at_ w = Ok (r, w') ->
  (webhook_ok w -> forall c e pj, In c (lh_correlations (ww_hooks w)) -> tk_id c = id -> In e (lh_inbox (ww_hooks w)) -> reads w e pj ->
     evidence_wf e pj (tk_evidence c) -> bound_wf (ww_line w) (in_event e) pj (bound_to d a at_ c)) -> hkeeps w w'.
Proof.
  unfold bindCorrelation, refuse_if. intros Hok Hb. open_bind Hok u Hu. destruct u as [n rows]. apply bind_throw_if_ok in Hok as [Hc Hok].
  apply bind_throw_if_ok in Hok as [_ [= _ <-]]. set (takes := bindable id d) in *.
  assert (Htk : forall c, takes c = true -> tk_id c = id /\ tk_state c = CORRELATION_PENDING).
  { intros c Htc. unfold takes, bindable, correlation_by in Htc. apply andb_prop in Htc as [Htc _]. by bool_prop. }
  eapply update_correlations_keeps; [exact Hu|]. intros Hw. split.
  - apply update_guarded_ok in Hu as (_ & -> & _). specialize (Hb Hw). destruct Hw as [_ []].
    destruct (js_some takes (lh_correlations (ww_hooks w))) eqn:Et; cbn in Hc.
    + eapply bind_attempts; [done|done|intros c _ Htc; by apply Htk|]. intros c Hin Hft Hat. pose proof (some_none _ _ c Hc Hin) as Hno. cbn in Hno.
      rewrite Hft in Hno. cbn in Hno. rewrite (bool_decide_eq_true_2 (tk_attemptId c = _)), andb_true_r in Hno by done. bool_prop.
      apply Hno. eapply attempt_bound; [by apply hk_correlations0|done].
    + rewrite omap_update_same; [done|]. intros c Hin Htc. by rewrite (some_none _ _ c Et Hin) in Htc.
  - intros c e pj Hin Htc He Hr Hev _. destruct (Htk c Htc). by apply (Hb Hw).
Qed.

(** ** Messages, tokens and touches *)

Lemma insert_message_keeps m w b w' : insert_message m w = Ok (b, w') -> (webhook_ok w -> message_wf (lh_inbox (ww_hooks w)) m) -> hkeeps w w'.
Proof.
  unfold insert_message, refuse_if. intros Hok Hm. apply bind_throw_if_ok in Hok as [_ Hok].
  destruct (js_some _ (lh_messages _)) eqn:Hs; [by injection Hok as _ <-|]. apply bind_throw_if_ok in Hok as [_ [= _ <-]]. intros Hw. specialize (Hm Hw). destruct Hw as [Hl []].
  assert (Hfree : forall x, In x (lh_messages (ww_hooks w)) -> bool_decide (message_key x = message_key m) = false /\
            bool_decide (im_inboxEntryId x = im_inboxEntryId m) = false).
  { intros x Hx. destruct (orb_false_elim _ _ (some_none _ _ x Hs Hx)) as [Hf ?]. by destruct (orb_false_elim _ _ Hf). }
  split; [split; [done|constructor]|split; [done|constructor]]; cbn; try reflexivity; auto.
  - apply NoDup_snoc_map; [done|]. apply (some_clash message_key). intros x Hx. by apply Hfree.
  - apply NoDup_snoc_map; [done|]. apply (some_clash im_inboxEntryId). intros x Hx. by apply Hfree.
  - intros x Hx. apply in_app_iff in Hx as [Hx|[<-|[]]]; auto.
  - intros x Hx. apply in_app_iff. by left.
Qed.

Lemma hkeeps_tokens l w : hkeeps w (with_hooks (set_tokens l) w).
Proof. intros [Hl []]. split; [split; [done|by constructor]|]. split; [done|]. by constructor. Qed.

Lemma record_touch_keeps i w x t : recordCorrelatedTouch (lw_governance (ww_line w)) i = Ok (x, t) -> hkeeps w (with_line (with_governance t (ww_line w)) w).
Proof.
  intros Hok. apply hkeeps_line, keeps_governance. intros Hw. apply (runtime_step_moves (fun _ => 0)); [apply Hw|apply Hw|]. by eapply RS_touch.
Qed.
End Touches.
