(* ===== verification/LineWebhookPool.v ===== *)
(** * LineWebhookPool: the ingress and the worker, call by call

    That every method of LineWebhook and LineWebhookWorker keeps the invariant of LineTouches at each of
    its calls, whatever other methods do between them, LINE's own among them. *)
From stdpp Require Import base tactics list strings relations.
From Stdlib Require Import ZArith Lia.
From S2P Require Import Prelude JsMap Text JsDate JsValue Contracts ScopeKey Persistence ReservationRuntime DeliveryCommands Program LineDelivery LineControlPolicy LineTables LineStore LineLedger LineControlPlane LineAdapter LineInvariant LineTransactions LineInbox LineWebhook LineWebhookWorker LineTouches.

Open Scope string_scope.
Open Scope Z_scope.
Open Scope list_scope.

Section Pool.
Context `{Runtime, Host, WebhookHost} (tenantId : string) (keyring : string -> option string).
Context (content_of : string -> option LineResolvedContent).

Abbreviation ok := (webhook_ok keyring content_of).
Abbreviation hkeeps := (hkeeps keyring content_of).
Abbreviation safe := (safe ok webhook_moves).
Abbreviation reads := (reads keyring).

(** ** The rules of Program at this invariant *)

Lemma within_hook {A} (p : wprog A) s : within hkeeps p -> safe p (fun _ _ => True) s.
Proof. apply within_safe. intros w w' Hw Hk. by apply Hk. Qed.

Lemma done_hook {A} (r : result LineError A) (post : result LineError A -> WebhookWorld -> Prop) s :
  (forall s', webhook_moves s s' -> ok s' -> post r s') -> safe (Done r) post s.
Proof. apply safe_done. Qed.

Lemma weaken_hook {A} (p : wprog A) (post post' : result LineError A -> WebhookWorld -> Prop) s :
  (forall r s', webhook_moves s s' -> ok s' -> post r s' -> post' r s') -> safe p post s -> safe p post' s.
Proof. apply safe_weaken. exact _. Qed.

Lemma bind_hook {A B} (p : wprog A) (k : A -> wprog B) (post : result LineError B -> WebhookWorld -> Prop) s :
  safe p (fun r s' => match r with Ok a => safe (k a) post s' | Err x => post (Err x) s' end) s -> safe (p ≫= k) post s.
Proof. apply safe_bind. exact _. Qed.

Lemma query_hook {B} (q : WebhookWorld -> B) (post : result LineError B -> WebhookWorld -> Prop) s :
  (forall s' s'', webhook_moves s s' -> ok s' -> webhook_moves s' s'' -> ok s'' -> post (Ok (q s')) s'') -> safe (query q) post s.
Proof. apply safe_query. exact _. Qed.

(** A transaction that keeps the invariant, with what is known when it is made. *)
Lemma transact_hook {B} (t : WebhookWorld -> result LineError (B * WebhookWorld)) (post : result LineError B -> WebhookWorld -> Prop) s :
  (forall s' b s'', webhook_moves s s' -> ok s' -> t s' = Ok (b, s'') -> hkeeps s' s'' /\
     forall s3, webhook_moves s'' s3 -> ok s3 -> post (Ok b) s3) ->
  (forall s' x, webhook_moves s s' -> ok s' -> post (Err x) s') -> safe (transact t) post s.
Proof.
  intros Ht He. apply safe_transact; [exact _| |done]. intros s' b s'' Hm Hs Hok. destruct (Ht s' b s'' Hm Hs Hok) as [Hk Hp].
  destruct (Hk Hs). auto.
Qed.

(** A call that needs no more than to keep it, and what follows. *)
Lemma call_hook {A B} (p : wprog A) (k : A -> wprog B) (post : result LineError B -> WebhookWorld -> Prop) s : within hkeeps p ->
  (forall a s', webhook_moves s s' -> ok s' -> safe (k a) post s') ->
  (forall x s', webhook_moves s s' -> ok s' -> post (Err x) s') -> safe (p ≫= k) post s.
Proof. intros Hp Hk Hx. apply bind_hook. eapply weaken_hook; [|by apply within_hook]. intros [a|x] s' Hm Hs _; auto. Qed.

(** ** Calls *)

Lemma worker_now_within : within hkeeps worker_now.
Proof. apply within_query. intros s. reflexivity. Qed.

Lemma worker_id_within : within hkeeps worker_id.
Proof. apply within_transact; [intros s; reflexivity|]. intros s b s' Hok. eapply draw_id_keeps. by inversion Hok. Qed.

Lemma brand_within value kind : within hkeeps (brand value kind).
Proof. exact I. Qed.

Lemma quarantined_within e c : within hkeeps (quarantined e c).
Proof.
  apply within_bind; [apply worker_now_within|]. intros t. apply within_transact; [intros s; reflexivity|].
  intros s b s' Hok. by eapply quarantineEntry_keeps.
Qed.

Lemma completed_within owner e : within hkeeps (completed owner e).
Proof.
  apply within_bind; [apply worker_now_within|]. intros t. apply within_transact; [intros s; reflexivity|].
  intros s b s' Hok. by eapply complete_keeps.
Qed.

Lemma quarantine_entry_within id c t : within hkeeps (transact (quarantineCorrelation id c t)).
Proof. apply within_transact; [intros s; reflexivity|]. intros s b s' Hok. by eapply quarantineCorrelation_keeps. Qed.

Lemma unbound_within id : within hkeeps (unbound id).
Proof. apply within_bind; [apply worker_now_within|]. intros t. apply within_bind; [apply quarantine_entry_within|]. intros b. exact I. Qed.

Lemma record_touch_within i : within hkeeps (record_touch i).
Proof.
  apply within_transact; [intros s; reflexivity|]. intros s b s' Hok. destruct (recordCorrelatedTouch _ _) as [[x t]|] eqn:Er; [|done].
  injection Hok as _ <-. by eapply record_touch_keeps.
Qed.

(** What follows the binding. *)
Lemma enqueue_touch_within row : within hkeeps (transact (line_transaction (enqueueEvent row))).
Proof.
  apply within_transact; [intros s; reflexivity|]. intros s b s' Hok. eapply hkeeps_line_transaction; [|exact Hok].
  intros l c l' H'. by eapply enqueueEvent_keeps.
Qed.

(** ** What a method knows *)

(** An entry is there, as it was or later. *)
Definition entry_known (w : WebhookWorld) (e : InboxEntry) : Prop := exists e', In e' (lh_inbox (ww_hooks w)) /\ in_event e' = in_event e.
(** A correlation with this evidence. *)
Definition evidence_known (w : WebhookWorld) (v : TouchEvidence) : Prop :=
  exists c, In c (lh_correlations (ww_hooks w)) /\ tk_evidence c = v.

Lemma entry_known_later w w' e : webhook_moves w w' -> entry_known w e -> entry_known w' e.
Proof. intros [_ Hm] (e1 & He & Hv). destruct (hm_inbox _ _ Hm e1 He) as (e2 & He2 & Hv2 & _). exists e2. split; [done|congruence]. Qed.

Lemma evidence_known_later w w' v : webhook_moves w w' -> evidence_known w v -> evidence_known w' v.
Proof. intros [_ Hm] (c & Hc & Hv). destruct (hm_correlations _ _ Hm c Hc) as (c2 & Hc2 & Hv2 & _). exists c2. split; [done|congruence]. Qed.

Lemma reads_moves w w' e p : webhook_moves w w' -> ok w' -> reads w e p -> reads w' e p.
Proof. intros [_ Hm] [_ Hok]. apply reads_later; [apply Hm|apply Hok|done]. Qed.

Lemma attempt_for_moves w w' channel m a : webhook_moves w w' -> attempt_for (ww_line w) channel m a -> attempt_for (ww_line w') channel m a.
Proof. intros [Hm _]. by apply attempt_for_later. Qed.

Lemma truthy_idem v : truthy (truthy v) = truthy v.
Proof. unfold truthy. by destruct v as [[|]|]. Qed.

(** A reading names no empty message. *)
Lemma reads_truthy w e p : reads w e p -> truthy (pj_quotedMessageId p) = pj_quotedMessageId p.
Proof.
  unfold LineTouches.reads, vault_read. intros Hr. open_bind Hr d Hd. injection Hr as Hp. destruct d as [fs|]; [|done].
  unfold projection_of in Hp. apply bind_Some in Hp as (u & _ & [= <-]). apply truthy_idem.
Qed.

(** Two readings of one event are the same. *)
Lemma reads_agree w e e' p p' : in_event e' = in_event e -> reads w e p -> reads w e' p' -> p' = p.
Proof. unfold LineTouches.reads, vault_read, decrypt. intros ->. congruence. Qed.

Lemma entry_same w e e' : ok w -> In e (lh_inbox (ww_hooks w)) -> entry_known w e' -> in_id e = in_id e' -> in_event e = in_event e'.
Proof.
  intros [_ Hok] He (x & Hx & Hv) Hid. assert (e = x) as ->; [|done].
  apply (NoDup_map_inj in_id (lh_inbox (ww_hooks w))); [apply Hok|done..|]. unfold in_id in *. congruence.
Qed.

(** ** Readings and attempts *)

Lemma read_payload_safe e s : safe (read_payload keyring e) (fun r w => match r with Ok (Some p) => reads w e p | _ => True end) s.
Proof.
  unfold read_payload. apply bind_hook, query_hook. intros s1 s2 _ _ Hm _. apply done_hook. intros s3 Hm3 Hs3.
  destruct (vault_read keyring e s1) as [[p|]|] eqn:Er; [|done..]. apply (reads_moves s1); [by etrans|done|done].
Qed.

Lemma head_sort_In {A} (le : A -> A -> bool) l x : head (sort_by le l) = Some x -> In x l.
Proof. intros Hh. apply (sort_by_In le). destruct (sort_by le l); [done|]. injection Hh as ->. by left. Qed.

Lemma delivery_binding_sound l channel m d fp : delivery_binding channel m l = Some (d, fp) -> sent_for l channel m d fp.
Proof.
  unfold delivery_binding. intros Hb. apply bind_Some in Hb as (r & Hr & Hb). apply bind_Some in Hb as (u & Hu & Hb).
  apply bind_Some in Hb as (g & Hg & Hb). destruct (bool_decide _) eqn:Ec; [|done]. injection Hb as <- <-.
  apply head_sort_In, filter_In in Hr as [Hr Hrc]. apply find_some in Hu as [Hu Huc]. apply find_some in Hg as [Hg Hgc]. unfold gate_by in Hgc.
  apply andb_prop in Hrc as [Hrc Hrm]. apply includes_spec in Hrm. bool_prop. exists r, u, g. by split_and?.
Qed.

Lemma accepted_attempt_sound d l f key : accepted_attempt d l = Some (f, key) ->
  In f (df_attempts (rt_facts (lw_governance l))) /\ fc_deliveryId f = d /\ fc_outcome f = PROVIDER_ACCEPTED.
Proof.
  unfold accepted_attempt, findAcceptedAttempt. intros Hb. apply bind_Some in Hb as (x & Hx & Hb). apply bind_Some in Hb as (r & _ & [= <- _]).
  apply head_sort_In, filter_In in Hx as [Hx Hc]. by bool_prop.
Qed.

Lemma find_attempt_safe channel m s : safe (findAcceptedAttemptByMessage tenantId channel m)
  (fun r w => match r with Ok (Some a) => attempt_for (ww_line w) channel m a | _ => True end) s.
Proof.
  unfold findAcceptedAttemptByMessage. apply bind_hook, query_hook. intros s1 s2 _ _ Hm2 _.
  destruct (delivery_binding channel m (ww_line s1)) as [[d fp]|] eqn:Eb; [|by apply done_hook]. apply delivery_binding_sound in Eb.
  do 2 (apply call_hook; [apply brand_within| |done]; intros _ ? ? _). apply bind_hook, query_hook. intros s3 s4 Hm3 _ Hm4 _.
  destruct (accepted_attempt d (ww_line s3)) as [[f key]|] eqn:Ea; [|by apply done_hook]. apply accepted_attempt_sound in Ea as (Hf & Hfd & Hfo).
  do 3 (apply call_hook; [apply brand_within| |done]; intros _ ? ? _). apply done_hook. intros s5 Hm5 _.
  assert (Hm35 : webhook_moves s3 s5) by (do 4 (etrans; [eassumption|]); done).
  assert (Hm15 : webhook_moves s1 s5) by (do 4 (etrans; [eassumption|]); done).
  split; [eapply sent_for_later; [apply Hm15|exact Eb]|]. exists f. split_and?; try done. by apply (mv_facts _ _ (proj1 Hm35)).
Qed.

(** ** Correlations *)

Lemma openCorrelation_safe e p v d s : entry_known s e -> reads s e p -> evidence_wf e p v ->
  safe (openCorrelation v d)
    (fun r w => match r with Ok c => evidence_known w (tk_evidence c) /\ same_correlation (tk_evidence c) v = true | Err _ => True end) s.
Proof.
  intros He Hr Hv. unfold openCorrelation. apply safe_catch; [exact _|]. apply transact_hook.
  - intros s1 c s2 Hm1 Hs1 Hok. split.
    + eapply createCorrelation_keeps; [exact Hok|]. intros _. destruct (entry_known_later _ _ _ Hm1 He) as (e' & He' & Hev). exists e', p.
      split; [done|]. split; [|by eapply evidence_wf_later]. eapply reads_later; [by auto|apply Hs1|exact Hev|by eapply reads_moves].
    + intros s3 Hm3 _. unfold createCorrelation, refuse_if in Hok. do 3 apply bind_throw_if_ok in Hok as [_ Hok]. injection Hok as <- <-. split.
      * eapply evidence_known_later; [exact Hm3|]. eexists. split; [apply in_app_iff; right; by left|done].
      * unfold same_correlation. cbn. by rewrite !bool_decide_eq_true_2, Z.eqb_refl.
  - intros s1 x _ _. destruct (bool_decide (x = UniqueViolation)); [|by apply done_hook].
    apply bind_hook, query_hook. intros s2 s3 _ _ Hm3 _. destruct (findCorrelationByEvidence _ s2) as [c|] eqn:Ef; [|by apply done_hook].
    destruct (same_correlation (tk_evidence c) v) eqn:Es; [|by apply done_hook]. apply done_hook. intros s4 Hm4 _. split; [|done].
    eapply evidence_known_later; [|exists c; split; [by apply find_some in Ef as [? _]|done]]. by etrans.
Qed.

(** What a binding needs to know. *)
Definition bindable_with (w : WebhookWorld) (cid : string) (a : LineAcceptedAttempt) (p : LineInboundProjection) (e : InboxEntry) : Prop :=
  entry_known w e /\ reads w e p /\ exists m v, attempt_for (ww_line w) (ie_channelAccountId (in_event e)) m a /\ evidence_known w v /\
    te_id v = cid /\ te_inboxEntryId v = in_id e /\ (forall q, te_quotedMessageId v = Some q -> m = q).

Lemma bindable_with_later w w' cid a p e : webhook_moves w w' -> ok w' -> bindable_with w cid a p e -> bindable_with w' cid a p e.
Proof.
  intros Hm Hw (He & Hr & m & v & Ha & Hv & Hrest). split; [by eapply entry_known_later|]. split; [by eapply reads_moves|].
  exists m, v. split; [by eapply attempt_for_moves|]. split; [by eapply evidence_known_later|done].
Qed.

Lemma bindable_bound w cid a p e at_ c e' p' : ok w -> bindable_with w cid a p e ->
  la_recipientFingerprint a = pj_sourceFingerprint p -> la_acceptedAt a <= ie_providerTimestamp (in_event e) ->
  In c (lh_correlations (ww_hooks w)) -> tk_id c = cid -> In e' (lh_inbox (ww_hooks w)) -> reads w e' p' -> evidence_wf e' p' (tk_evidence c) ->
  bound_wf (ww_line w) (in_event e') p' (bound_to (la_deliveryId a) (la_attemptId a) at_ c).
Proof.
  intros Hw (He & Hr & m & v & Ha & (c0 & Hc0 & Hv) & Hid & Hent & Hq) Hfp Hat Hc Hcid He' Hr' Hev.
  assert (c0 = c) as ->.
  { apply (NoDup_map_inj tk_id (lh_correlations (ww_hooks w))); [apply Hw|done..|]. unfold tk_id in *. congruence. }
  assert (Hsame : in_event e' = in_event e).
  { apply (entry_same w); [done..|]. destruct Hev as (Hi & _). congruence. }
  assert (p' = p) as -> by (by eapply reads_agree). rewrite Hsame. exists m, a. split_and?; try done. intros q Hcq. apply Hq. by rewrite <- Hv.
Qed.

Lemma commitTouch_safe cid ref kind a p e s : bindable_with s cid a p e -> safe (commitTouch tenantId cid ref kind a p e) (fun _ _ => True) s.
Proof.
  intros Hb. unfold commitTouch. destruct (negb (bool_decide _)) eqn:Ef; [apply within_hook, unbound_within|].
  destruct (_ <? _) eqn:Et; [apply within_hook, unbound_within|]. bool_prop.
  apply call_hook; [apply worker_now_within| |done]. intros at_ s1 Hm1 Hs1. apply bind_hook, transact_hook; [|done].
  intros s2 b s3 Hm2 Hs2 Hok. split.
  - eapply bindCorrelation_keeps; [exact Hok|]. intros _ c e' p' Hc Hid He' Hr' Hev.
    eapply bindable_bound; [exact Hs2| |done|done|exact Hc|exact Hid|done..]. eapply bindable_with_later; [|done|exact Hb]. by etrans.
  - intros s4 _ _. destruct b; [|by apply done_hook]. apply within_hook.
    do 5 (apply within_bind; [apply brand_within|intros _]). apply within_bind; [apply record_touch_within|intros _]. cbv zeta.
    apply within_bind; [apply worker_id_within|intros id]. apply within_bind; [exact I|intros _].
    apply within_bind; [apply enqueue_touch_within|intros _]. exact I.
Qed.

(** ** Entries *)

(** The evidence an event gives, under any identifier. *)
Definition gives (e : InboxEntry) (p : LineInboundProjection) (kind : TouchEvidenceKind) (quoted : option string) : Prop :=
  forall id, evidence_wf e p (TouchEvidence_ id (in_id e) kind (response_ref e) (truthy quoted) (ie_providerTimestamp (in_event e))
    (ie_providerTimestamp (in_event e) + LINE_TOUCH_WINDOW_MS)).

Lemma bind_response_safe e p kind quoted attempt s : entry_known s e -> reads s e p -> gives e p kind quoted ->
  (forall a, attempt = Some a -> exists m, attempt_for (ww_line s) (ie_channelAccountId (in_event e)) m a /\ forall q, truthy quoted = Some q -> m = q) ->
  safe (bind_response tenantId e p kind quoted attempt) (fun _ _ => True) s.
Proof.
  intros He Hr Hg Ha. unfold bind_response. cbv zeta. apply call_hook; [apply worker_id_within| |done]. intros id s1 Hm1 Hs1.
  apply bind_hook. eapply weaken_hook; [|apply (openCorrelation_safe e p); [by eapply entry_known_later|by eapply reads_moves|apply Hg]].
  intros [c|x] s2 Hm2 Hs2 Hc; [|done]. destruct Hc as [Hc Hsame]. destruct (negb _); [by apply done_hook|].
  destruct attempt as [a|]; [|by apply done_hook]. destruct (Ha a eq_refl) as (m & Hatt & Hq). apply commitTouch_safe.
  assert (Hm : webhook_moves s s2) by (by etrans). split; [by eapply entry_known_later|]. split; [by eapply reads_moves|].
  exists m, (tk_evidence c). split; [by eapply attempt_for_moves|]. unfold same_correlation in Hsame. cbn in Hsame. bool_prop.
  split; [done|]. split; [done|]. split; [done|]. intros q Hcq. apply Hq. congruence.
Qed.

Lemma evidenceOf_gives postbacks w e p v : reads w e p -> evidenceOf postbacks e p = Some v -> gives e p (evidence_kind v) (quoted_message v).
Proof.
  intros Hr. unfold evidenceOf. destruct (negb (pj_isOneToOne p)) eqn:Eo; [done|]. bool_prop. destruct (_ && bool_decide (is_Some (pj_quotedMessageId p))) eqn:Eq.
  - destruct (pj_quotedMessageId p) as [m|] eqn:Em; [|done]. intros [= <-] id. bool_prop. split_and?; try done. cbn [te_evidenceKind evidence_kind quoted_message].
    split; [done|]. cbn [te_quotedMessageId]. apply reads_truthy in Hr. by rewrite Em in Hr |- *.
  - destruct (_ && _ && postbacks) eqn:Ep; [|done]. destruct (pj_postbackToken p) as [t|] eqn:Em; [|done]. intros [= <-] id. bool_prop.
    by split_and?.
Qed.

Lemma correlate_safe e p v s : entry_known s e -> reads s e p -> gives e p (evidence_kind v) (quoted_message v) ->
  safe (correlate tenantId e p v) (fun _ _ => True) s.
Proof.
  intros He Hr Hg.
  assert (Hfound : forall m (att : option LineAcceptedAttempt) s', webhook_moves s s' -> ok s' ->
    match att with Some a => attempt_for (ww_line s') (ie_channelAccountId (in_event e)) m a | None => True end ->
    (forall q, truthy (quoted_message v) = Some q -> m = q) ->
    safe (bound ← bind_response tenantId e p (evidence_kind v) (quoted_message v) att; ret (bound, 0)) (fun _ _ => True) s').
  { intros m att s' Hm Hs' Hatt Hq. apply bind_hook. eapply weaken_hook; [|apply bind_response_safe; [by eapply entry_known_later|by eapply reads_moves|done|]].
    - intros [b|x] s'' _ _ _; [by apply done_hook|done].
    - intros a ->. by exists m. }
  destruct v as [m|token]; cbn [correlate].
  - apply bind_hook. eapply weaken_hook; [|apply find_attempt_safe]. intros [att|x] s1 Hm1 Hs1 Hatt; [|done]. apply (Hfound m att s1); [done..|].
    cbn. unfold truthy. intros q. by destruct m; intros [= <-].
  - apply call_hook; [apply within_transact; [intros s0; reflexivity|intros s0 b s0' [= _ <-]; apply hkeeps_tokens]| |done].
    intros [m|] s1 Hm1 Hs1; [|by apply done_hook]. apply bind_hook. eapply weaken_hook; [|apply find_attempt_safe].
    intros [att|x] s2 Hm2 Hs2 Hatt; [|done]. apply (Hfound m att s2); [by etrans|done..].
Qed.

Lemma project_safe e p m s : entry_known s e -> ie_eventType (in_event e) = "message" -> safe (project e p m) (fun _ _ => True) s.
Proof.
  intros He Ht. unfold project. apply call_hook; [apply worker_id_within| |done]. intros id s1 Hm1 Hs1.
  apply call_hook; [apply worker_now_within| |done]. intros t s2 Hm2 Hs2. apply transact_hook; [|done]. intros s3 b s4 Hm3 Hs3 Hok. split; [|done].
  eapply insert_message_keeps; [exact Hok|]. intros _. destruct (entry_known_later s s3 e) as (e' & He' & Hev); [do 2 (etrans; [eassumption|]); done|done|].
  exists e'. unfold in_id. rewrite Hev. by split_and?.
Qed.

Lemma process_safe owner postbacks e r s : entry_known s e -> safe (process tenantId owner keyring postbacks e r) (fun _ _ => True) s.
Proof.
  intros He. unfold process. destruct (negb _); [apply within_hook, within_bind; [apply quarantined_within|done]|].
  apply bind_hook. eapply weaken_hook; [|apply read_payload_safe]. intros [[p|]|x] s1 Hm1 Hs1 Hr; [| |done].
  2: apply within_hook, within_bind; [apply quarantined_within|done].
  assert (He1 : entry_known s1 e) by (by eapply entry_known_later).
  apply bind_hook, (weaken_hook _ (fun _ _ => True)).
  - intros [b|x] s2 Hm2 Hs2 _; [|done]. cbv zeta. destruct (evidenceOf postbacks e p) as [v|] eqn:Ev.
    + apply bind_hook, (weaken_hook _ (fun _ _ => True)).
      * intros [found|x] s3 _ _ _; [|done]. apply within_hook, within_bind; [apply completed_within|done].
      * apply correlate_safe; [by eapply entry_known_later|by eapply reads_moves|by eapply evidenceOf_gives].
    + apply within_hook, within_bind; [apply completed_within|done].
  - destruct (bool_decide (ie_eventType (in_event e) = "message")) eqn:Et; [|by apply done_hook]. bool_prop.
    destruct (pj_providerMessageId p); [|by apply done_hook]. by apply project_safe.
Qed.

Lemma process_all_safe owner postbacks l r s : (forall e, In e l -> entry_known s e) ->
  safe (process_all tenantId owner keyring postbacks l r) (fun _ _ => True) s.
Proof.
  revert r s. induction l as [|e l IH]; intros r s Hl; cbn [process_all]; [by apply done_hook|].
  apply bind_hook. eapply weaken_hook; [|apply process_safe, Hl; by left]. intros [r1|x] s1 Hm1 Hs1 _; [|done].
  apply IH. intros e' He'. eapply entry_known_later; [exact Hm1|]. apply Hl. by right.
Qed.

Lemma runOnce_safe owner postbacks ms n s : safe (runOnce tenantId owner keyring postbacks ms n) (fun _ _ => True) s.
Proof.
  unfold runOnce. apply call_hook; [apply worker_now_within| |done]. intros t s1 Hm1 Hs1. apply bind_hook, transact_hook; [|done].
  intros s2 l s3 _ _ Hok. split; [by eapply claim_keeps|]. intros s4 Hm4 _. apply process_all_safe. intros e He.
  unfold claim in Hok. open_bind Hok u Hu. destruct u as [n' w']. injection Hok as <- <-. cbn in He. apply sort_by_In, filter_In in He as [He _].
  eapply entry_known_later; [exact Hm4|]. by exists e.
Qed.

(** ** Responses that wait *)

Lemma resolve_one_safe c r s : evidence_known s (tk_evidence c) -> safe (resolve_one tenantId keyring c r) (fun _ _ => True) s.
Proof.
  intros Hc. unfold resolve_one. cbv zeta. apply call_hook; [apply worker_now_within| |done]. intros t s1 Hm1 Hs1.
  apply bind_hook, query_hook. intros s2 s2' Hm2 _ Hm2' _. apply bind_hook, done_hook. intros s3 Hm3 Hs3.
  destruct (js_find _ (lh_inbox (ww_hooks s2))) as [e|] eqn:Ef; [|done]. apply find_some in Ef as [He Hid]. unfold inbox_by in Hid. bool_prop.
  apply bind_hook. eapply weaken_hook; [|apply read_payload_safe].
  intros [proj|x] s4 Hm4 Hs4 Hr; [|done].
  assert (Hend : forall (b : bool) s', safe (if b then ret (plus_work 0 0 1 0 0 r)
      else if te_windowExpiresAt (tk_evidence c) <=? t then transact (quarantineCorrelation (tk_id c) USER_RESPONSE_UNBOUND t) ;; ret (plus_work 0 0 0 0 1 r)
      else ret (plus_work 0 0 0 1 0 r)) (fun _ _ => True) s').
  { intros b s'. apply within_hook. destruct b; [exact I|]. destruct (_ <=? _); [|exact I]. apply within_bind; [apply quarantine_entry_within|done]. }
  apply bind_hook, (weaken_hook _ (fun _ _ => True)); [intros [b|x] s5 _ _ _; [apply Hend|done]|].
  destruct proj as [p|]; [|by apply done_hook]. destruct (truthy _) as [m|] eqn:Eq; [|by apply done_hook].
  apply bind_hook. eapply weaken_hook; [|apply find_attempt_safe]. intros [[a|]|x] s5 Hm5 Hs5 Hatt; [|by apply done_hook|done].
  apply commitTouch_safe. assert (Hm25 : webhook_moves s2 s5) by (do 3 (etrans; [eassumption|]); done).
  split; [eapply entry_known_later; [exact Hm25|by exists e]|]. split; [by apply (reads_moves s4)|]. exists m, (tk_evidence c). split; [done|].
  split; [eapply evidence_known_later; [|exact Hc]; do 2 (etrans; [eassumption|]); done|]. split; [done|]. split; [done|].
  intros q Hq. rewrite Hq in Eq. unfold truthy in Eq. destruct q; [done|]. by injection Eq.
Qed.

Lemma resolve_all_safe l r s : (forall c, In c l -> evidence_known s (tk_evidence c)) -> safe (resolve_all tenantId keyring l r) (fun _ _ => True) s.
Proof.
  revert r s. induction l as [|c l IH]; intros r s Hl; cbn [resolve_all]; [by apply done_hook|].
  apply bind_hook. eapply weaken_hook; [|apply resolve_one_safe, Hl; by left]. intros [r1|x] s1 Hm1 Hs1 _; [|done].
  apply IH. intros c' Hc'. eapply evidence_known_later; [exact Hm1|]. apply Hl. by right.
Qed.

Lemma resolvePending_safe n s : safe (resolvePending tenantId keyring n) (fun _ _ => True) s.
Proof.
  unfold resolvePending. apply bind_hook, query_hook. intros s1 s2 _ _ Hm2 _. apply resolve_all_safe. intros c Hc.
  unfold listPendingCorrelations in Hc. apply list_elem_of_In, elem_of_take in Hc as (i & Hi & _). apply list_elem_of_lookup_2, list_elem_of_In, sort_by_In, filter_In in Hi as [Hi _].
  eapply evidence_known_later; [exact Hm2|]. by exists c.
Qed.

Lemma loop_turn_safe owner postbacks ms n idle cap failures s :
  safe (loop_turn tenantId owner keyring postbacks ms n idle cap failures) (fun _ _ => True) s.
Proof.
  unfold loop_turn. apply safe_catch; [exact _|]. apply bind_hook. eapply weaken_hook; [|apply runOnce_safe].
  intros [r|x] s1 _ _ _; [|by apply done_hook]. apply bind_hook. eapply weaken_hook; [|apply resolvePending_safe].
  intros [r'|x] s2 _ _ _; by apply done_hook.
Qed.
End Pool.
