(* ===== verification/LineWebhookTheorems.v ===== *)
(** * LineWebhookTheorems: what the webhooks of LINE guarantee

    Over every interleaving of the ingress and the workers with each other and with the methods of LINE
    delivery, each able to die between two of its calls: what a response is taken for, what becomes of an
    event, and what an answer to LINE means. *)
From stdpp Require Import base tactics list strings relations.
From Stdlib Require Import ZArith Lia.
From S2P Require Import Prelude JsMap Text JsDate JsValue Contracts ScopeKey Persistence ReservationRuntime DeliveryCommands Program LineDelivery LineControlPolicy LineTables LineStore LineLedger LineControlPlane LineAdapter LineInvariant LineTransactions LineMethods LinePool LineTheorems LineInbox LineWebhook LineWebhookWorker LineTouches LineWebhookPool.

Open Scope string_scope.
Open Scope Z_scope.
Open Scope list_scope.

(** Rows that have the same are one. *)
Lemma NoDup_omap_inj {A B} (g : A -> option B) l x y b : List.NoDup (omap g l) -> In x l -> In y l -> g x = Some b -> g y = Some b -> x = y.
Proof.
  assert (Hin : forall l z, In z l -> g z = Some b -> In b (omap g l)).
  { intros k z Hz Hzx. apply list_elem_of_In, list_elem_of_omap. exists z. split; [by apply list_elem_of_In|done]. }
  induction l as [|a l IH]; [done|]. intros Hn Hx Hy Hgx Hgy. cbn in Hn. destruct Hx as [<-|Hx], Hy as [<-|Hy]; [done| | |].
  - rewrite Hgx in Hn. inversion Hn as [|? ? Hno _]; subst. by destruct (Hno (Hin l y Hy Hgy)).
  - rewrite Hgy in Hn. inversion Hn as [|? ? Hno _]; subst. by destruct (Hno (Hin l x Hx Hgx)).
  - apply IH; try done. destruct (g a); [by inversion Hn|done].
Qed.

(** ** LINE's methods over the greater store *)

Fixpoint on_line {A} (p : prog A) : wprog A :=
  match p with
  | Done r => Done r
  | Call c k => Call (fun w => (fst (c (ww_line w)), with_line (snd (c (ww_line w))) w)) (fun r => on_line (k r))
  end.

Lemma on_line_safe `{Runtime, Host, WebhookHost} keyring content_of {A} (p : prog A) s :
  safe (line_ok content_of) line_moves p (fun _ _ => True) (ww_line s) ->
  safe (webhook_ok keyring content_of) webhook_moves (on_line p) (fun _ _ => True) s.
Proof.
  revert s. induction p as [r|B c k IH]; cbn; intros s Hp s' Hm Hs; [done|]. intros r s'' [= <- <-].
  destruct (Hp (ww_line s') (proj1 Hm) (proj1 Hs) (fst (c (ww_line s'))) (snd (c (ww_line s')))) as (Hok & Hmv & Hk); [by destruct (c _)|].
  destruct (hkeeps_line keyring content_of s' (snd (c (ww_line s')))) as [Hok' Hm']; [by intros _|done|]. split; [done|]. split; [done|]. by apply IH.
Qed.

Section System.
Context `{Runtime, Host, WebhookHost} (tenantId : string) (content_source : option (string -> option LineResolvedContent)).
Context (keyring : string -> option string).

(** ** The system *)

(** The methods of the ingress and the worker, whatever they are given; beside them run those of LINE
    delivery. *)
Inductive webhook_method : forall {A}, wprog A -> Prop :=
  | W_handle binding q : webhook_method (handle tenantId binding q)
  | W_acceptBatch events : webhook_method (transact (acceptBatch events))
  | W_runOnce owner postbacks ms n : webhook_method (runOnce tenantId owner keyring postbacks ms n)
  | W_resolvePending n : webhook_method (resolvePending tenantId keyring n)
  | W_loop_turn owner postbacks ms n idle cap failures : webhook_method (loop_turn tenantId owner keyring postbacks ms n idle cap failures).

Definition webhook_starts (p : wprog unit) : Prop :=
  (exists A (q : wprog A), webhook_method q /\ p = bind (fun _ => ret tt) q) \/
  (exists q, line_starts tenantId content_source q /\ p = on_line q).

(** What is outside LINE delivery goes on, and tokens are made. *)
Inductive webhook_others (w : WebhookWorld) : WebhookWorld -> Prop :=
  | WO_line l : line_others (ww_line w) l -> webhook_others w (with_line l w)
  | WO_tokens l : webhook_others w (with_hooks (set_tokens l) w).

Definition webhook_reaches : WebhookWorld -> WebhookWorld -> Prop := pool_reaches webhook_starts webhook_others.

Definition webhook_fresh (w : WebhookWorld) : Prop := line_fresh (ww_line w) /\ exists tokens, ww_hooks w = LineWebhooks_ [] [] [] [] tokens.
Definition webhook_history (w : WebhookWorld) : Prop := exists w0, webhook_fresh w0 /\ webhook_reaches w0 w.

Abbreviation ok := (webhook_ok keyring (content_of content_source)).

Lemma webhook_method_safe {A} (q : wprog A) s : webhook_method q -> safe ok webhook_moves q (fun _ _ => True) s.
Proof.
  intros Hm. destruct Hm.
  - apply within_hook, handle_within.
  - apply within_hook, within_transact; [intros w; reflexivity|]. intros w a w' Hok. by eapply acceptBatch_keeps.
  - by apply runOnce_safe.
  - apply resolvePending_safe.
  - apply loop_turn_safe.
Qed.

Lemma webhook_starts_safe p s : webhook_starts p -> ok s -> safe ok webhook_moves p (fun _ _ => True) s.
Proof.
  intros [(A & q & Hq & ->)|(q & (A & m & Hm & ->) & ->)] Hs.
  - apply safe_bind; [exact _|]. eapply weaken_hook; [|by apply webhook_method_safe]. intros [a|x] s' _ _ _; [by apply done_hook|done].
  - apply on_line_safe, safe_bind; [exact _|]. eapply weaken_line; [|by eapply line_method_safe]. intros [a|x] s' _ _ _; [by apply done_line|done].
Qed.

Lemma webhook_others_ok s s' : ok s -> webhook_others s s' -> ok s' /\ webhook_moves s s'.
Proof.
  intros Hs Ho. destruct Ho as [l Hl|l]; [|by apply hkeeps_tokens]. apply hkeeps_line; [|done].
  intros Hw. destruct Hl as [f Hf|t Ht]; [by apply keeps_outside|]. apply keeps_governance; [|done]. intros Hw'. by apply governance_moves_ok; [apply Hw'|apply Hw'|].
Qed.

Lemma webhook_reaches_ok w w' : ok w -> webhook_reaches w w' -> ok w' /\ webhook_moves w w'.
Proof. apply pool_reaches_ok; [exact _|exact webhook_others_ok|exact webhook_starts_safe]. Qed.

(** A history of LINE delivery is one of both. *)
Lemma line_reaches_lift w0 w l l' : line_reaches tenantId content_source l l' -> webhook_reaches w0 (with_line l w) -> webhook_reaches w0 (with_line l' w).
Proof.
  intros [ps Hl] [qs Hw]. assert (Hlift : forall x y : LineWorld * list (prog unit), rtc (pool_step (line_starts tenantId content_source) line_others) x y ->
    rtc (pool_step webhook_starts webhook_others) (with_line (fst x) w, map on_line (snd x) ++ qs) (with_line (fst y) w, map on_line (snd y) ++ qs)).
  { intros x y Hs. induction Hs as [x|x y z Hxy _ IH]; [apply rtc_refl|]. eapply rtc_l; [|exact IH]. clear IH Hw Hl.
    destruct Hxy as [s p1 p Hp|B s p1 c k p2 r s' Hc|s p1 p p2|s p1 s' Ho]; cbn; rewrite ?map_app; cbn; rewrite <- ?app_assoc; cbn.
    - apply Pool_start. right. by exists p.
    - apply (Pool_call _ _ (with_line s w) (map on_line p1) (fun w => (fst (c (ww_line w)), with_line (snd (c (ww_line w))) w)) (fun r => on_line (k r))).
      cbn. by rewrite Hc.
    - apply (Pool_stop _ _ (with_line s w)).
    - apply Pool_other. by apply (WO_line (with_line s w)). }
  exists (map on_line ps ++ qs). etrans; [exact Hw|]. apply (Hlift (l, []) (l', ps)). exact Hl.
Qed.

Lemma webhook_fresh_ok w : webhook_fresh w -> ok w.
Proof.
  intros [Hl [tokens Hh]]. split; [by apply line_fresh_ok|]. constructor; rewrite Hh; cbn; try done; constructor.
Qed.

Lemma webhook_history_ok w : webhook_history w -> ok w.
Proof. intros (w0 & Hf & Hr). apply (webhook_reaches_ok w0 w); [by apply webhook_fresh_ok|done]. Qed.

(** ** Touches *)

(** The attempt of a delivery is one. *)
Lemma delivery_attempt l f f' : runtime_ok (lw_governance l) -> In f (df_attempts (rt_facts (lw_governance l))) ->
  In f' (df_attempts (rt_facts (lw_governance l))) -> fc_deliveryId f = fc_deliveryId f' -> f = f'.
Proof.
  intros Hr Hf Hf' Hd. pose proof (ru_facts _ Hr) as Hfacts. destruct (fo_attempts _ _ Hfacts f Hf) as (r & Hin & Ha), (fo_attempts _ _ Hfacts f' Hf') as (r' & Hin' & Ha').
  assert (r = r') as ->.
  { destruct Ha as (_ & Hdel & _), Ha' as (_ & Hdel' & _). apply (ru_deliveries _ Hr r r' (fc_deliveryId f)); [done..|congruence]. }
  apply (NoDup_map_inj fc_outcomeRef (df_attempts (rt_facts (lw_governance l)))); [apply Hfacts|done..|].
  destruct Ha as (_ & _ & _ & Href & _), Ha' as (_ & _ & _ & Href' & _). congruence.
Qed.

(** C14: a response counts for what it answers. In every history, however the ingress, the workers and the
    sends interleave and wherever they die, a correlation that is bound is of an event of the inbox that
    one person sent, to a delivery of a message LINE took: a receipt of acceptance has that message, and it
    is the one the event quotes where it quotes one; Governance has the delivery's attempt as accepted, no
    later than the event was sent; the event came on the channel of the delivery's gate, from the person its
    unit of the ledger was for, whom an authorization approved for the tenant and for Compliance allowed;
    and no delivery has two. *)
Theorem touch_answers_delivery w c : webhook_history w -> In c (lh_correlations (ww_hooks w)) -> tk_state c = CORRELATION_BOUND ->
  exists e p messageId r u g f ru,
    In e (lh_inbox (ww_hooks w)) /\ in_id e = te_inboxEntryId (tk_evidence c) /\ vault_read keyring e w = Ok (Some p) /\ pj_isOneToOne p = true /\
    (te_evidenceKind (tk_evidence c) = USER_QUOTED_RESPONSE -> pj_quotedMessageId p = Some messageId) /\
    In r (ld_attempts (lw_deliveries (ww_line w))) /\ sa_outcomeClass r = CLASS_ACCEPTED /\ In messageId (sa_sentMessageIds r) /\
    tk_deliveryId c = Some (sa_deliveryId r) /\
    In f (df_attempts (rt_facts (lw_governance (ww_line w)))) /\ tk_attemptId c = Some (fc_id f) /\ fc_deliveryId f = sa_deliveryId r /\
    fc_outcome f = PROVIDER_ACCEPTED /\ fc_occurredAt f <= ie_providerTimestamp (in_event e) /\
    In u (lt_ledger (lw_control (ww_line w))) /\ cu_deliveryId (ce_unit u) = sa_deliveryId r /\ cu_capKind (ce_unit u) = LOGICAL_DELIVERY /\
    cu_recipientFingerprint (ce_unit u) = pj_sourceFingerprint p /\
    In g (lt_gates (lw_control (ww_line w))) /\ gt_id g = cu_gateId (ce_unit u) /\ sc_channelAccountId (gt_scope g) = ie_channelAccountId (in_event e) /\
    In ru (lt_runs (lw_control (ww_line w))) /\ ru_id ru = cu_runAuthorizationId (ce_unit u) /\ both_approved ru /\
    (forall c', In c' (lh_correlations (ww_hooks w)) -> tk_state c' = CORRELATION_BOUND -> tk_deliveryId c' = tk_deliveryId c -> c' = c).
Proof.
  intros Hh Hc Hs. pose proof (webhook_history_ok w Hh) as [Hl Hok]. destruct (hk_correlations _ _ Hok c Hc) as (_ & e & p & He & Hr & Hv & Hb).
  destruct (Hb Hs) as (m & a & ((r & u & g & Hrin & Hrd & Hrc & Hrm & Hu & Hud & Huk & Huf & Hg & Hgi & Hgc) & f & Hf & Hfi & Hfd & Hfo & Hft) & Hd & Ha & Hfp & Hat & Hq).
  destruct (ok_units _ _ Hl u Hu) as [_ Hun]. destruct (Hun Huk) as (ru & al & Hru & Hrid & _ & Hboth & _).
  destruct Hv as (Hid & _ & _ & _ & Hone & Hk). exists e, p, m, r, u, g, f, ru. split_and?; try done; try congruence.
  - intros Hkind. rewrite Hkind in Hk. destruct Hk as [_ Hk]. destruct (pj_quotedMessageId p) as [q|] eqn:Eq; [by rewrite (Hq q Hk)|].
    destruct (hk_correlations _ _ Hok c Hc) as [Hch _]. unfold correlation_check in Hch. rewrite Hkind, Hk in Hch. by rewrite bool_decide_eq_true_2 in Hch.
  - intros c' Hc' Hs' Hdd. destruct (hk_correlations _ _ Hok c' Hc') as (_ & e' & p' & _ & _ & _ & Hb').
    destruct (Hb' Hs') as (m' & a' & (_ & f' & Hf' & Hfi' & Hfd' & _) & Hd' & Ha' & _).
    assert (f' = f) as -> by (apply (delivery_attempt (ww_line w)); [apply Hl|done..|congruence]).
    assert (Hsame : tk_attemptId c' = tk_attemptId c) by congruence.
    eapply (NoDup_omap_inj tk_attemptId _ _ _ _ (hk_attempts _ _ Hok) Hc' Hc); [|exact Ha]. congruence.
Qed.

(** ** Events *)

(** C15: an event is kept once, and ends once. In every history an entry of the inbox is the only one of its
    event and of its identifier; whatever is done afterwards it is still there, of the same event, its
    payload's hash with it, and once it is completed or quarantined it stays as it is. A message is
    projected once for a channel, from an entry of that channel, once for an entry, and stays; and a
    response of an entry is correlated once, and stays as it is once it is bound or quarantined. *)
Theorem events_kept_once w w' : webhook_history w -> webhook_reaches w w' ->
  (forall e, In e (lh_inbox (ww_hooks w)) ->
     (forall x, In x (lh_inbox (ww_hooks w)) -> in_id x = in_id e \/ event_key (in_event x) = event_key (in_event e) -> x = e) /\
     exists e', In e' (lh_inbox (ww_hooks w')) /\ in_event e' = in_event e /\ (inbox_open (in_state e) = false -> e' = e)) /\
  (forall m, In m (lh_messages (ww_hooks w)) -> In m (lh_messages (ww_hooks w')) /\
     (forall x, In x (lh_messages (ww_hooks w)) -> message_key x = message_key m \/ im_inboxEntryId x = im_inboxEntryId m -> x = m) /\
     exists e, In e (lh_inbox (ww_hooks w)) /\ in_id e = im_inboxEntryId m /\ ie_channelAccountId (in_event e) = im_channelAccountId m /\
       ie_eventType (in_event e) = "message") /\
  (forall c, In c (lh_correlations (ww_hooks w)) ->
     (forall x, In x (lh_correlations (ww_hooks w)) -> te_inboxEntryId (tk_evidence x) = te_inboxEntryId (tk_evidence c) -> x = c) /\
     exists c', In c' (lh_correlations (ww_hooks w')) /\ tk_evidence c' = tk_evidence c /\ (tk_state c <> CORRELATION_PENDING -> c' = c)).
Proof.
  intros Hh Hr. pose proof (webhook_history_ok w Hh) as Hw. destruct (webhook_reaches_ok w w' Hw Hr) as [_ [_ Hm]]. destruct Hw as [_ Hok].
  split; [|split].
  - intros e He. split.
    + intros x Hx [Hi|Hk]; [by apply (NoDup_map_inj in_id (lh_inbox (ww_hooks w))); [apply Hok|..]|].
      by apply (NoDup_map_inj (fun e => event_key (in_event e)) (lh_inbox (ww_hooks w))); [apply Hok|..].
    + destruct (hm_inbox _ _ Hm e He) as (e' & He' & Hv & _ & Ht & _). by exists e'.
  - intros m Hin. split; [by apply (hm_messages _ _ Hm)|]. split.
    + intros x Hx [Hi|Hk]; [by apply (NoDup_map_inj message_key (lh_messages (ww_hooks w))); [apply Hok|..]|].
      by apply (NoDup_map_inj im_inboxEntryId (lh_messages (ww_hooks w))); [apply Hok|..].
    + destruct (hk_messages _ _ Hok m Hin) as (e & He & Hi & Hc & Ht & _). by exists e.
  - intros c Hc. split; [intros x Hx Hi|].
    + by apply (NoDup_map_inj (fun c => te_inboxEntryId (tk_evidence c)) (lh_correlations (ww_hooks w))); [apply Hok|..].
    + destruct (hm_correlations _ _ Hm c Hc) as (c' & Hc' & Hv & Ht). by exists c'.
Qed.

(** ** Answers *)

(** An entry of an event, under the hash of what came or against it. *)
Definition stored (w : WebhookWorld) (channel : string) (p : ParsedLineEvent) (a : WebhookAcceptance) : Prop :=
  exists e, In e (lh_inbox (ww_hooks w)) /\ event_key (in_event e) = (channel, pe_webhookEventId p) /\
    match a with
    | EVENT_CONFLICT => ie_payloadHash (in_event e) <> lineEventPayloadDigest (pe_raw p) /\ inbox_open (in_state e) = false
    | _ => ie_payloadHash (in_event e) = lineEventPayloadDigest (pe_raw p)
    end.

Lemma stored_later w w' channel p a : grows inbox_later (lh_inbox (ww_hooks w)) (lh_inbox (ww_hooks w')) -> stored w channel p a -> stored w' channel p a.
Proof.
  intros Hg (e & He & Hk & Ha). destruct (Hg e He) as (e' & He' & Hv & _ & Ht & _). exists e'. rewrite Hv. split; [done|]. split; [done|].
  destruct a; [done..|]. destruct Ha as [Hne Ho]. by rewrite (Ht Ho).
Qed.

(** The inbox moves alike whatever holds of the rest. *)
Lemma moves_inbox w w' : hkeeps keyring (content_of content_source) w w' -> ok w -> grows inbox_later (lh_inbox (ww_hooks w)) (lh_inbox (ww_hooks w')).
Proof. intros Hk Hw. destruct (Hk Hw) as [_ [_ Hm]]. apply Hm. Qed.

Lemma accept_event_stored v w a w' : accept_event v w = Ok (a, w') ->
  exists e, In e (lh_inbox (ww_hooks w')) /\ event_key (in_event e) = event_key v /\
    match snd a with
    | EVENT_CONFLICT => ie_payloadHash (in_event e) <> ie_payloadHash v /\ inbox_open (in_state e) = false
    | _ => ie_payloadHash (in_event e) = ie_payloadHash v
    end.
Proof.
  unfold accept_event, insert_inbox, refuse_if. intros Hok. open_bind Hok i Hi. destruct i as [b w1]. apply bind_throw_if_ok in Hi as [_ Hi]. cbn [fst snd] in Hok.
  destruct (js_some _ (lh_inbox (ww_hooks w))); injection Hi as <- <-.
  - open_bind Hok e He. destruct (js_find _ _) as [x|] eqn:Ef; [|done]. injection He as ->. apply find_some in Ef as [He Hk]. unfold inbox_of in Hk. bool_prop.
    destruct (bool_decide _) eqn:Eh; bool_prop; [injection Hok as <- <-; by exists e|].
    unfold update_inbox in Hok. open_bind Hok u Hu. destruct u as [n w2]. injection Hok as <- <-. open_bind Hu up Hup. destruct up as [n' rows]. injection Hu as _ <-.
    assert (Hsame : forall d c i h t x, ww_hooks (ingress_audit d c i h t x) = ww_hooks x).
    { intros d c i h t x. unfold ingress_audit, draw_id, audit_once. by destruct (js_some _ _). }
    rewrite Hsame. cbn. apply update_guarded_ok in Hup as (_ & -> & _). destruct (inbox_open (in_state e)) eqn:Eo.
    + exists (ended INBOX_QUARANTINED WEBHOOK_IDEMPOTENCY_CONFLICT (ie_receivedAt v) e). split; [|done]. apply update_where_hit; [done|].
      unfold inbox_by. by rewrite bool_decide_eq_true_2, Eo.
    + exists e. split; [|done]. apply update_where_keep; [done|]. by rewrite Eo, andb_false_r.
  - injection Hok as <- <-. exists (received v). cbn. split; [|done]. apply in_app_iff. right. by left.
Qed.

Lemma persist_event_stored binding p at_ w a w' : ok w -> persist_event tenantId binding p at_ w = Ok (a, w') ->
  stored w' (bi_channelAccountId binding) p a.
Proof.
  unfold persist_event. intros Hw Hok. destruct (draw_id w) as [id w1] eqn:Ed. open_bind Hok v Hv. open_bind Hok x Hx. destruct x as [[i x] w2]. cbn [fst snd] in Hok.
  assert (Hw2 : ok w2) by (eapply (accept_event_keeps keyring (content_of content_source)); [exact Hx|]; by eapply draw_id_keeps).
  pose proof (accept_event_stored _ _ _ _ Hx) as (e & He & Hk & Ha). cbn [snd] in Ha. unfold event_columns in Hv. open_bind Hv t Ht. injection Hv as <-.
  assert (Hst : stored w2 (bi_channelAccountId binding) p x) by (by exists e).
  destruct (bool_decide (x = EVENT_ACCEPTED)) eqn:Ex; [|by injection Hok as <- <-]. bool_prop. subst x.
  destruct (identifier tenantId "TenantId"); [|done]. open_bind Hok q Hq. destruct q as [q w3]. injection Hok as <- <-.
  eapply stored_later; [|exact Hst]. apply moves_inbox; [|done]. etrans; [apply storePayload_keeps|by eapply enqueue_within_keeps].
Qed.

Lemma persist_events_stored binding l at_ w fates w' : ok w -> persist_events tenantId binding l at_ w = Ok (fates, w') ->
  Forall2 (stored w' (bi_channelAccountId binding)) l fates.
Proof.
  revert w fates w'. induction l as [|p l IH]; intros w fates w' Hw Hok; cbn [persist_events] in Hok; [injection Hok as <- <-; constructor|].
  open_bind Hok a Ha. destruct a as [a w1]. open_bind Hok b Hb. destruct b as [b w2]. injection Hok as <- <-.
  assert (Hw1 : ok w1) by (by eapply (persist_event_keeps keyring (content_of content_source))).
  constructor; [|by eapply IH]. eapply stored_later; [|by apply (persist_event_stored binding p at_ w)]. apply moves_inbox; [|done]. by eapply persist_events_keeps.
Qed.

(** The events of a request, where its body has some and each can be read. *)
Definition events_of (q : LineWebhookRequest) : option (list ParsedLineEvent) :=
  parsed ← JSON_parse (wq_rawBody q);
  body ← asObject parsed;
  match field "events" body with JArr l => parsed_events l | _ => None end.

Definition signed (binding : LineWebhookBinding) (q : LineWebhookRequest) : Prop :=
  wq_signature q = Some (hmac_sha256_base64 (bi_channelSecret binding) (wq_rawBody q)).

Lemma verify_signed binding q : verifyLineSignature (wq_rawBody q) (bi_channelSecret binding) (wq_signature q) = true -> signed binding q.
Proof.
  unfold verifyLineSignature, truthy, signed, lineSignature. destruct (wq_signature q) as [[|c t]|]; [done| |done]. intros Hs. bool_prop. congruence.
Qed.

(** An answer without a write, a mismatch of the destination, or the events of the body persisted. *)
Lemma handle_cases binding q w :
  (exists n c, run (handle tenantId binding q) w = (Ok (answered n c), w) /\ (n = 401 \/ n = 413 \/ signed binding q)) \/
  (signed binding q /\ exists events a w', events_of q = Some events /\ run (handle tenantId binding q) w = (Ok a, w') /\
     (a = answered 200 WEBHOOK_DESTINATION_MISMATCH \/ persist tenantId binding events (wq_receivedAt q) w = Ok (a, w')) /\ ir_status a = 200).
Proof.
  unfold handle. destruct (_ <? _); [left; do 2 eexists; cbn; split; [done|auto]|].
  destruct (verifyLineSignature _ _ _) eqn:Es; cbn [negb]; [apply verify_signed in Es|left; do 2 eexists; cbn; split; [done|auto]].
  assert (Hplain : forall n c, exists n' c', run (ret (answered n c) : wprog _) w = (Ok (answered n' c'), w) /\ (n' = 401 \/ n' = 413 \/ signed binding q))
    by (intros n c; exists n, c; auto).
  unfold events_of. destruct (JSON_parse (wq_rawBody q)) as [parsed|]; [|by left]. cbn [mbind option_bind].
  destruct (asObject parsed) as [body|]; [|by left]. cbn [mbind option_bind]. destruct (field "events" body) as [| | | | |[|v vs]| |]; try by left.
  destruct (parsed_events (v :: vs)) as [events|]; [|by left]. cbn [run catch transact]. destruct (negb _).
  - destruct (recordDestinationMismatch _ _ _ _) as [[u w']|x]; cbn; [right; split; [done|]; by exists events, (answered 200 WEBHOOK_DESTINATION_MISMATCH), w'; auto|].
    left. destruct x; cbn; do 2 eexists; auto.
  - destruct (persist tenantId binding events (wq_receivedAt q) w) as [[a w']|x] eqn:Ep; cbn.
    + right. split; [done|]. exists events, a, w'. split_and?; auto. unfold persist in Ep. open_bind Ep d Hd. by injection Ep as <- _.
    + left. destruct x; cbn; do 2 eexists; auto.
Qed.

(** C16: an answer to LINE means what it says. Whatever a request brings, in every history, the ingress
    answers it. A status other than 200 leaves every table as it was; any but 401 and 413 is of a body
    signed with the channel's secret; and where events are counted as accepted, known or in conflict, each
    event of the body is in the inbox under its identifier: with the hash of what came, or, in a conflict,
    with the hash that came first, ended, and not overwritten. *)
Theorem answers_are_durable binding q w : webhook_history w ->
  exists a w', run (handle tenantId binding q) w = (Ok a, w') /\
    (ir_status a <> 200 -> w' = w) /\
    (ir_status a <> 401 -> ir_status a <> 413 -> signed binding q) /\
    (0 < ir_accepted a + ir_duplicates a + ir_conflicts a ->
     exists events fates, events_of q = Some events /\ Forall2 (stored w' (bi_channelAccountId binding)) events fates /\
       let counted f := count_where (fun b => bool_decide (b = f)) fates in
       ir_accepted a = counted EVENT_ACCEPTED /\ ir_duplicates a = counted EVENT_DUPLICATE /\ ir_conflicts a = counted EVENT_CONFLICT).
Proof.
  intros Hh. apply webhook_history_ok in Hh. destruct (handle_cases binding q w) as [(n & c & Hrun & Hn)|(Hs & events & a & w' & He & Hrun & Ha & Hst)].
  - exists (answered n c), w. split_and?; [done|done| |done]. cbn. tauto.
  - exists a, w'. split_and?; [done|by intros Hne|done|]. intros Hpos. destruct Ha as [-> |Hp]; [done|].
    unfold persist in Hp. open_bind Hp d Hd. destruct d as [fates w1]. injection Hp as <- <-. exists events, fates.
    split; [done|]. split; [by apply (persist_events_stored binding events (wq_receivedAt q) w)|done].
Qed.

(** ** Leases *)

(** The entries of a claim, as they are after it. *)
Lemma claim_leased owner now ms n w l w' : claim owner now ms n w = Ok (l, w') ->
  (forall e, In e l -> In e (lh_inbox (ww_hooks w')) /\ in_state e = INBOX_PROCESSING /\ in_lease e = Some (owner, now + ms)) /\
  (forall e, In e l -> exists x, In x (lh_inbox (ww_hooks w)) /\ in_id x = in_id e /\ claimable now x = true).
Proof.
  unfold claim, update_inbox. intros Hok. open_bind Hok u Hu. destruct u as [m w1]. injection Hok as <- <-. open_bind Hu up Hup. destruct up as [k rows].
  injection Hu as _ <-. apply update_guarded_ok in Hup as (_ & -> & _). cbn [ww_hooks with_hooks lh_inbox set_inbox].
  set (ids := map in_id (take n (sort_by inbox_order (js_filter (claimable now) (lh_inbox (ww_hooks w)))))). split; intros e He.
  - apply sort_by_In, filter_In in He as [He Hid]. split; [done|]. apply update_where_In in He as (x & _ & ->).
    destruct (includes ids (in_id x)) eqn:Ex; [done|]. cbn in Hid. by rewrite Ex in Hid.
  - apply sort_by_In, filter_In in He as [_ Hid]. apply includes_spec, in_map_iff in Hid as (x & Hx & Hin). exists x.
    apply list_elem_of_In, elem_of_take in Hin as (i & Hi & _). apply list_elem_of_lookup_2, list_elem_of_In, sort_by_In, filter_In in Hi as [Hi Hc]. auto.
Qed.

(** While an entry stands under a lease that runs, no claim takes it, and no one else completes it. *)
Lemma lease_holds w e owner until : List.NoDup (map in_id (lh_inbox (ww_hooks w))) -> In e (lh_inbox (ww_hooks w)) ->
  in_state e = INBOX_PROCESSING -> in_lease e = Some (owner, until) ->
  (forall owner2 now2 ms2 n2 l2 w2, now2 < until -> claim owner2 now2 ms2 n2 w = Ok (l2, w2) -> forall e2, In e2 l2 -> in_id e2 <> in_id e) /\
  (forall owner2 at_, owner2 <> owner -> complete (in_id e) owner2 at_ w = Ok (false, w)).
Proof.
  intros Hn He Hs Hle. assert (Hone : forall x, In x (lh_inbox (ww_hooks w)) -> in_id x = in_id e -> x = e).
  { intros x Hx Hi. by apply (NoDup_map_inj in_id (lh_inbox (ww_hooks w))). }
  split.
  - intros owner2 now2 ms2 n2 l2 w2 Hlt Hc2 e2 He2 Hid. destruct (claim_leased _ _ _ _ _ _ _ Hc2) as [_ Hl2].
    destruct (Hl2 e2 He2) as (x & Hx & Hxi & Hcl). assert (x = e) as -> by (apply Hone; [done|congruence]).
    unfold claimable in Hcl. rewrite Hs, Hle in Hcl. cbn in Hcl. apply Z.leb_le in Hcl. lia.
  - intros owner2 at_ Hne. unfold complete, update_inbox. set (p := fun x => _ && _ && _).
    assert (Hnone : forall x, In x (lh_inbox (ww_hooks w)) -> p x = false).
    { intros x Hx. unfold p, inbox_by. destruct (bool_decide (in_id x = in_id e)) eqn:Ei; [|done]. bool_prop. rewrite (Hone x Hx Ei), Hle.
      rewrite (bool_decide_eq_false_2 (_ = Some owner2)) by (cbn; congruence). by rewrite andb_false_r. }
    assert (Hf : js_filter p (lh_inbox (ww_hooks w)) = []) by (by apply filter_nil).
    unfold update_guarded, count_where. rewrite Hf. cbn. unfold update_where. rewrite (map_ext_in _ (fun x => x)), map_id.
    + by destruct w as [line []].
    + intros x Hx. by rewrite Hnone.
Qed.

(** A pool of methods, some of them under way. *)
Definition webhook_runs : WebhookWorld * list (wprog unit) -> WebhookWorld * list (wprog unit) -> Prop :=
  rtc (pool_step webhook_starts webhook_others).
Definition webhook_at (q : WebhookWorld * list (wprog unit)) : Prop := exists w0, webhook_fresh w0 /\ webhook_runs (w0, []) q.

Lemma webhook_runs_ok q q' : webhook_at q -> webhook_runs q q' -> ok (fst q') /\ webhook_moves (fst q) (fst q').
Proof.
  intros (w0 & Hf & Hr) Hq.
  destruct (pool_steps_ok _ _ _ _ webhook_others_ok webhook_starts_safe _ _ (pool_empty_ok _ _ w0 (webhook_fresh_ok w0 Hf)) Hr) as [Hok _].
  destruct (pool_steps_ok _ _ _ _ webhook_others_ok webhook_starts_safe _ _ Hok Hq) as [[Hi _] Hm]. done.
Qed.

(** What ends the lease a claim at [now] gave [owner] for [ms]. *)
Definition ends_lease (owner : string) (now ms : Z) (ev : entry_event) : Prop :=
  match ev with
  | E_claimed _ t _ => now + ms <= t
  | E_completed owner2 _ => owner2 = owner
  | E_quarantined _ _ => True
  end.

(** C17: an entry is one worker's at a time. Take any claim of any history, with whatever methods under way
    beside it, and any point after it, however far. Each entry of the claim is there, and either it is as the
    claim left it: then no claim at an instant before the lease runs out takes it, whoever makes it, and no
    one of another name completes it; or something has happened to it, and the first thing that did was a
    claim at an instant when the lease had run out, its completion by the claim's owner, or its
    quarantine. *)
Theorem claims_are_exclusive w owner now ms n l w1 ps q2 e :
  webhook_history w -> claim owner now ms n w = Ok (l, w1) -> webhook_at (w1, ps) -> webhook_runs (w1, ps) q2 -> In e l ->
  exists e2, In e2 (lh_inbox (ww_hooks (fst q2))) /\ in_id e2 = in_id e /\
  ((e2 = e /\
    (forall owner2 now2 ms2 n2 l2 w3, now2 < now + ms -> claim owner2 now2 ms2 n2 (fst q2) = Ok (l2, w3) ->
       forall e3, In e3 l2 -> in_id e3 <> in_id e) /\
    (forall owner2 at_, owner2 <> owner -> complete (in_id e) owner2 at_ (fst q2) = Ok (false, fst q2))) \/
   exists ev x, entry_step ev e x /\ rtc entry_moves x e2 /\ ends_lease owner now ms ev).
Proof.
  intros Hh Hc Hat Hr He. destruct (webhook_runs_ok _ _ Hat Hr) as [[_ Hok] [_ Hm]]. cbn in Hm.
  destruct (proj1 (claim_leased _ _ _ _ _ _ _ Hc) e He) as (Hin & Hs & Hle).
  destruct (hm_inbox _ _ Hm e Hin) as (e2 & He2 & Hev & _ & _ & Hsteps). exists e2. split; [done|].
  split; [unfold in_id; by rewrite Hev|]. destruct Hsteps as [e|e x e2 [ev Hx] Hrest].
  - left. split; [done|]. apply (lease_holds _ _ _ (now + ms)); [apply Hok|done..].
  - right. exists ev, x. split; [done|]. split; [done|]. destruct Hx as [o t ms' y Hcl|o at_ y _ Ho|code at_ y _]; cbn; [| |done].
    + unfold claimable in Hcl. rewrite Hs, Hle in Hcl. cbn in Hcl. by apply Z.leb_le in Hcl.
    + rewrite Hle in Ho. by injection Ho.
Qed.

(** ** Payloads *)

Lemma accept_event_new v w i w' : accept_event v w = Ok ((i, EVENT_ACCEPTED), w') ->
  w' = with_hooks (set_inbox (lh_inbox (ww_hooks w) ++ [received v])) w.
Proof.
  unfold accept_event, insert_inbox, refuse_if. intros Hok. open_bind Hok x Hx. destruct x as [b w1]. apply bind_throw_if_ok in Hx as [_ Hx]. cbn [fst snd] in Hok.
  destruct (js_some _ _); injection Hx as <- <-; [|by injection Hok as _ <-]. open_bind Hok e He. destruct (bool_decide _); [done|]. by open_bind Hok u Hu.
Qed.

(** The event is on record, and the webhooks are as they were. *)
Lemma enqueue_within_ok ev key at_ w r w' : enqueue_within ev key at_ w = Ok (r, w') ->
  ww_hooks w' = ww_hooks w /\ In (fst ev) (map le_eventId (ld_events (lw_deliveries (ww_line w')))).
Proof.
  unfold enqueue_within, draw_id, line_transaction, enqueueEvent, refuse_if. intros Hok. apply bind_unit_ok in Hok as [_ Hok].
  open_bind Hok d Hd. destruct d as [x l]. injection Hok as <- <-. destruct (js_find _ _) as [y|] eqn:Ef; apply bind_throw_if_ok in Hd as [_ [= <- <-]].
  - split; [done|]. apply find_some in Ef as [Hy Hk]. bool_prop. cbn in Hk. rewrite <- Hk. by apply (in_map le_eventId).
  - split; [done|]. cbn. rewrite map_app. apply in_app_iff. right. by left.
Qed.

Lemma find_snoc {A} (f : A -> bool) l x : (forall y, In y l -> f y = false) -> f x = true -> js_find f (l ++ [x]) = Some x.
Proof. induction l as [|y l IH]; cbn; intros Hl Hx; [by rewrite Hx|]. rewrite (Hl y (or_introl eq_refl)). apply IH; auto. Qed.

(** C18: what the worker reads is what was signed. Where the cipher opens what it seals, [JSON.parse] reads what
    [JSON.stringify] wrote of the event, the key is at hand, and neither the reference nor the identifier of
    its payload is taken, an event that is accepted is in the inbox, waiting, and reading its payload gives
    what the event says; and its inbound event is on record under its identifier. *)
Theorem payload_round_trip binding p receivedAt w w' :
  (forall key iv text, aes_gcm_open key iv (snd (aes_gcm_seal key iv text)) (fst (aes_gcm_seal key iv text)) = Some text) ->
  JSON_parse (json_print (JObj (pe_raw p))) = Some (JObj (pe_raw p)) ->
  keyring (bi_payloadKeyRef binding) = Some (bi_payloadKey binding) ->
  (forall x, In x (lh_payloads (ww_hooks w)) -> wp_protectedPayloadRef x <> lineProtectedPayloadRef (bi_channelAccountId binding) (pe_webhookEventId p) /\
     wp_id x <> fresh (S (lo_nextId (lw_outside (ww_line w))))) ->
  persist_event tenantId binding p receivedAt w = Ok (EVENT_ACCEPTED, w') ->
  exists e, In e (lh_inbox (ww_hooks w')) /\ event_key (in_event e) = (bi_channelAccountId binding, pe_webhookEventId p) /\
    in_state e = INBOX_PENDING /\ vault_read keyring e w' = Ok (projection_of (bi_channelAccountId binding) (pe_raw p)) /\
    In ("line-inbound:" +:+ bi_channelAccountId binding +:+ ":" +:+ pe_webhookEventId p) (map le_eventId (ld_events (lw_deliveries (ww_line w')))).
Proof.
  intros Haes Hjson Hkey Hfree. unfold persist_event. destruct (draw_id w) as [id w1] eqn:Ed. intros Hok. open_bind Hok v Hv. open_bind Hok x Hx. destruct x as [[i x] w2].
  cbn [fst snd] in Hok. destruct (bool_decide (x = EVENT_ACCEPTED)) eqn:Ex; bool_prop; [|injection Hok as -> _; done]. subst x.
  apply accept_event_new in Hx. destruct (identifier tenantId "TenantId"); [|done]. open_bind Hok q Hq. destruct q as [q w3]. injection Hok as <-.
  apply enqueue_within_ok in Hq as [Hh Hev]. unfold event_columns in Hv. open_bind Hv t Ht. injection Hv as <-. injection Ed as _ <-.
  exists (received (InboxEvent_ id (bi_channelAccountId binding) (pe_webhookEventId p) (lineEventPayloadDigest (pe_raw p)) (pe_eventType p) (pe_standby p)
    (pe_isRedelivery p) t receivedAt (lineProtectedPayloadRef (bi_channelAccountId binding) (pe_webhookEventId p)))).
  revert Hh. subst w2. unfold storePayload. remember (json_print (JObj (pe_raw p))) as text eqn:Etext. clear Etext. cbn [ww_line ww_hooks with_hooks with_line lw_outside with_outside lo_nextId].
  match goal with |- context [aes_gcm_seal ?k ?v ?t] => specialize (Haes k v t); destruct (aes_gcm_seal k v t) as [ct tag] end. cbn in Haes.
  unfold draw_id, insert_payload. cbn. destruct (js_some _ (lh_payloads (ww_hooks w))) eqn:Es.
  { exfalso. apply existsb_exists in Es as (y & Hy & Hc). destruct (Hfree y Hy) as [Hr Hi]. apply orb_prop in Hc as [Hc|Hc]; by bool_prop. }
  cbn. intros Hh. rewrite Hh. cbn. split; [apply in_app_iff; right; by left|]. split; [done|]. split; [done|]. split; [|exact Hev].
  unfold vault_read, decrypt. rewrite Hh. cbn. rewrite find_snoc.
  - cbn. rewrite Hkey, Haes, Hjson. done.
  - intros y Hy. apply bool_decide_eq_false. by apply Hfree.
  - by apply bool_decide_eq_true.
Qed.
End System.
