(* ===== verification/LineWebhookFaults.v ===== *)
(** * LineWebhookFaults: two ways a worker of LINE's webhooks fails a response

    A second answer to one message, which the worker cannot take and throws on; and a touch whose worker died
    between the binding of its correlation and the call to Governance. Both of any world of any history. *)
From stdpp Require Import base tactics list strings relations.
From Stdlib Require Import ZArith Lia.
From S2P Require Import Prelude JsMap Text JsDate JsValue Contracts ScopeKey Persistence ReservationRuntime DeliveryCommands Program LineDelivery LineControlPolicy LineTables LineStore LineLedger LineControlPlane LineAdapter LineInvariant LineTransactions LineMethods LinePool LineTheorems LineInbox LineWebhook LineWebhookWorker LineTouches LineWebhookPool LineWebhookTheorems.

Open Scope string_scope.
Open Scope Z_scope.
Open Scope list_scope.

(** An update whose rows the trigger lets pass goes through. *)
Lemma update_guarded_passes {A} (guard : A -> A -> option string) p f (rows : list A) :
  (forall x, In x rows -> p x = true -> guard x (f x) = None) -> update_guarded guard p f rows = Ok (count_where p rows, update_where p f rows).
Proof.
  intros Hg. unfold update_guarded. destruct (omap _ _) as [|code l] eqn:Eo; [done|].
  assert (Hin : code ∈ omap (fun r => guard r (f r)) (js_filter p rows)) by (rewrite Eo; left).
  apply list_elem_of_omap in Hin as (x & Hx & Hc). apply list_elem_of_In, filter_In in Hx as [Hx Hp]. by rewrite Hg in Hc.
Qed.

Section Faults.
Context `{Runtime, Host, WebhookHost} (tenantId : string) (content_source : option (string -> option LineResolvedContent)).
Context (keyring : string -> option string).

Abbreviation history := (webhook_history tenantId content_source keyring).
Abbreviation accepted_search := (findAcceptedAttemptByMessage tenantId).

(** ** What the calls before a binding leave alone *)

Record unmoved (w w' : WebhookWorld) : Prop := {
  um_control : lw_control (ww_line w') = lw_control (ww_line w);
  um_deliveries : lw_deliveries (ww_line w') = lw_deliveries (ww_line w);
  um_governance : lw_governance (ww_line w') = lw_governance (ww_line w);
  um_inbox : lh_inbox (ww_hooks w') = lh_inbox (ww_hooks w);
  um_payloads : lh_payloads (ww_hooks w') = lh_payloads (ww_hooks w);
}.

#[export] Instance unmoved_preorder : PreOrder unmoved.
Proof. split; [done|]. intros w1 w2 w3 [] []. split; congruence. Qed.

Lemma draw_id_unmoved w : unmoved w (snd (draw_id w)) /\ lh_correlations (ww_hooks (snd (draw_id w))) = lh_correlations (ww_hooks w).
Proof. done. Qed.

Lemma run_worker_id w : run worker_id w = (Ok (fst (draw_id w)), snd (draw_id w)).
Proof. done. Qed.

(** What the search for an attempt answers. *)
Definition named (value kind : string) : result LineError string :=
  match identifier value kind with Ok v => Ok v | Err e => Err (GovernanceThrew e) end.
Definition attempt_of (channel m : string) (l : LineWorld) : result LineError (option LineAcceptedAttempt) :=
  match delivery_binding channel m l with
  | None => Ok None
  | Some (d, fingerprint) =>
      named tenantId "TenantId" ;; named d "DeliveryId" ;;
      match accepted_attempt d l with
      | None => Ok None
      | Some (f, key) =>
          named (fc_reservationId f) "ReservationId" ;; named key "ActionKey" ;; named (fc_deliveryId f) "DeliveryId" ;;
          Ok (Some (AcceptedAttempt d (fc_id f) (fc_reservationId f) key fingerprint (fc_occurredAt f)))
      end
  end.

Lemma run_then_brand {B} value kind (k : string -> wprog B) w :
  run (brand value kind ≫= k) w = match named value kind with Ok v => run (k v) w | Err x => (Err x, w) end.
Proof. unfold brand, lift, named. cbn. by destruct (identifier value kind). Qed.

Lemma run_then_query {A B} (q : WebhookWorld -> A) (k : A -> wprog B) w : run (query q ≫= k) w = run (k (q w)) w.
Proof. done. Qed.

Lemma run_then_lift {A B} (r : result LineError A) (k : A -> wprog B) w :
  run (lift r ≫= k) w = match r with Ok a => run (k a) w | Err x => (Err x, w) end.
Proof. by destruct r. Qed.

Lemma find_runs channel m w : run (accepted_search channel m) w = (attempt_of channel m (ww_line w), w).
Proof.
  unfold findAcceptedAttemptByMessage, attempt_of. rewrite run_then_query. destruct (delivery_binding _ _ _) as [[d fp]|]; [|done].
  rewrite run_then_brand. destruct (named tenantId _); [|done]. rewrite run_then_brand. destruct (named d _); [|done].
  rewrite run_then_query. cbn [mbind result_bind]. destruct (accepted_attempt _ _) as [[f key]|]; [|done].
  rewrite run_then_brand. destruct (named (fc_reservationId f) _); [|done]. rewrite run_then_brand. destruct (named key _); [|done].
  rewrite run_then_brand. by destruct (named (fc_deliveryId f) _).
Qed.

Lemma attempt_unmoved channel m w w' : unmoved w w' -> attempt_of channel m (ww_line w') = attempt_of channel m (ww_line w).
Proof.
  intros [Hc Hd Hg _ _]. unfold attempt_of, delivery_binding, accepted_attempt. by rewrite Hc, Hd, Hg.
Qed.

Lemma vault_unmoved e w w' : unmoved w w' -> vault_read keyring e w' = vault_read keyring e w.
Proof. intros Hu. unfold vault_read, decrypt. by rewrite (um_payloads _ _ Hu). Qed.

Lemma run_read_payload e w : run (read_payload keyring e) w = (vault_read keyring e w, w).
Proof. unfold read_payload, mbind, prog_bind. rewrite run_bind, run_query. by destruct (vault_read keyring e w). Qed.

(** A message goes to the table, or is there: nothing else moves. *)
Lemma project_unmoved e p m w : In e (lh_inbox (ww_hooks w)) -> provider_id_check m = true -> quoted_id_check (pj_quotedMessageId p) = true ->
  exists b w', run (project e p m) w = (Ok b, w') /\ unmoved w w' /\ lh_correlations (ww_hooks w') = lh_correlations (ww_hooks w).
Proof.
  intros He Hm Hq. unfold project, worker_id, worker_now, mbind, prog_bind. cbn -[insert_message].
  destruct (insert_message _ _) as [[b w1]|x] eqn:Ei.
  - exists b, w1. split; [done|]. unfold insert_message, refuse_if in Ei. apply bind_throw_if_ok in Ei as [_ Ei].
    destruct (js_some _ _); [by injection Ei as <- <-|]. apply bind_throw_if_ok in Ei as [_ Ei]. by injection Ei as <- <-.
  - exfalso. unfold insert_message, refuse_if, message_check in Ei. cbn [im_providerMessageId im_quotedMessageId] in Ei. rewrite Hm, Hq in Ei. cbn in Ei.
    destruct (js_some _ _); [done|]. assert (Hin : js_some (inbox_by (in_id e)) (lh_inbox (ww_hooks w)) = true).
    { apply existsb_exists. exists e. split; [done|]. by apply bool_decide_eq_true. }
    by rewrite Hin in Ei.
Qed.

(** What is projected before a response is looked for. *)
Definition projecting (e : InboxEntry) (p : LineInboundProjection) : wprog bool :=
  match (if bool_decide (ie_eventType (in_event e) = "message") then pj_providerMessageId p else None) with
  | Some messageId => project e p messageId
  | None => ret false
  end.

Definition storable (p : LineInboundProjection) : Prop :=
  (forall m, pj_providerMessageId p = Some m -> provider_id_check m = true) /\ quoted_id_check (pj_quotedMessageId p) = true.

Lemma projecting_unmoved e p w : In e (lh_inbox (ww_hooks w)) -> storable p ->
  exists b w', run (projecting e p) w = (Ok b, w') /\ unmoved w w' /\ lh_correlations (ww_hooks w') = lh_correlations (ww_hooks w).
Proof.
  intros He [Hm Hq]. unfold projecting. destruct (bool_decide _); [|by exists false, w].
  destruct (pj_providerMessageId p) as [m|]; [|by exists false, w]. by apply project_unmoved; [|apply Hm|].
Qed.

(** ** Correlations that are there *)

Definition second_response : LineError := LineIdempotencyConflictError "dl_line_touch_correlations".

Lemma run_then {A B} (q : wprog A) (k : A -> wprog B) w :
  run (q ≫= k) w = match run q w with (Ok a, w') => run (k a) w' | (Err x, w') => (Err x, w') end.
Proof. apply run_bind. Qed.

(** The evidence of an entry that quotes a message. *)
Definition quote_of (id : string) (e : InboxEntry) (m : string) : TouchEvidence :=
  TouchEvidence_ id (in_id e) USER_QUOTED_RESPONSE (response_ref e) (Some m) (ie_providerTimestamp (in_event e))
    (ie_providerTimestamp (in_event e) + LINE_TOUCH_WINDOW_MS).

Lemma quote_check id e m d : quoted_id_check (Some m) = true ->
  correlation_check (TouchCorrelation_ (quote_of id e m) CORRELATION_PENDING d None None None) = true.
Proof.
  intros Hq. unfold correlation_check. cbn -[LINE_TOUCH_WINDOW_MS DAY_MS]. cbn in Hq. rewrite Hq.
  assert (Hw : LINE_TOUCH_WINDOW_MS = DAY_MS) by reflexivity. rewrite Hw. unfold DAY_MS in *.
  rewrite !andb_true_iff, Z.ltb_lt, Z.leb_le. split_and!; try done; lia.
Qed.

(** One that is there is taken as it is. *)
Lemma open_existing id e m d c w : quoted_id_check (Some m) = true ->
  List.NoDup (map (fun c => te_responseEvidenceRef (tk_evidence c)) (lh_correlations (ww_hooks w))) -> In c (lh_correlations (ww_hooks w)) ->
  te_responseEvidenceRef (tk_evidence c) = response_ref e -> same_correlation (tk_evidence c) (quote_of id e m) = true ->
  run (openCorrelation (quote_of id e m) d) w = (Ok c, w).
Proof.
  intros Hq Hn Hc Href Hsame. unfold openCorrelation. rewrite run_catch, run_transact. unfold createCorrelation, refuse_if. rewrite quote_check by done.
  cbn [negb throw_if mbind result_bind].
  assert (Hclash : js_some (fun x => correlation_by (te_id (quote_of id e m)) x || bool_decide (te_responseEvidenceRef (tk_evidence x) = te_responseEvidenceRef (quote_of id e m)) ||
    bool_decide (te_inboxEntryId (tk_evidence x) = te_inboxEntryId (quote_of id e m))) (lh_correlations (ww_hooks w)) = true).
  { apply existsb_exists. exists c. split; [done|]. rewrite (bool_decide_eq_true_2 (te_responseEvidenceRef (tk_evidence c) = _)) by done.
    by rewrite orb_true_r. }
  rewrite Hclash. cbn [throw_if mbind result_bind]. rewrite bool_decide_eq_true_2 by done. rewrite run_then_query.
  assert (Hf : findCorrelationByEvidence (te_responseEvidenceRef (quote_of id e m)) w = Some c).
  { unfold findCorrelationByEvidence. change (te_responseEvidenceRef (quote_of id e m)) with (response_ref e). rewrite <- Href.
    by apply (find_keyed (fun c => te_responseEvidenceRef (tk_evidence c))). }
  rewrite Hf, Hsame. done.
Qed.

(** A correlation for the entry, or the error of one that is of something else. *)
Lemma open_quote id e m d w (P : TouchCorrelation -> Prop) : quoted_id_check (Some m) = true -> In e (lh_inbox (ww_hooks w)) ->
  line_delivery d (ww_line w) = true ->
  (forall c, In c (lh_correlations (ww_hooks w)) -> te_inboxEntryId (tk_evidence c) = in_id e -> P c) ->
  P (TouchCorrelation_ (quote_of id e m) CORRELATION_PENDING (Some d) None None None) ->
  run (openCorrelation (quote_of id e m) (Some d)) w = (Err second_response, w) \/
  exists c w', run (openCorrelation (quote_of id e m) (Some d)) w = (Ok c, w') /\ unmoved w w' /\ In c (lh_correlations (ww_hooks w')) /\ P c /\
    (forall x, In x (lh_correlations (ww_hooks w)) -> In x (lh_correlations (ww_hooks w'))) /\
    (forall x, In x (lh_correlations (ww_hooks w')) -> In x (lh_correlations (ww_hooks w)) \/ correlation_check x = true).
Proof.
  intros Hq He Hd Hown Hnew. unfold openCorrelation. rewrite run_catch, run_transact. unfold createCorrelation, refuse_if. rewrite quote_check by done.
  cbn [negb throw_if mbind result_bind]. destruct (js_some _ (lh_correlations (ww_hooks w))); cbn [throw_if mbind result_bind].
  - rewrite bool_decide_eq_true_2 by done. rewrite run_then_query. destruct (findCorrelationByEvidence _ w) as [c|] eqn:Ef; [|by left].
    destruct (same_correlation _ _) eqn:Es; [|by left]. right. exists c, w. apply find_some in Ef as [Hc _]. unfold same_correlation in Es. bool_prop.
    split; [done|]. split; [done|]. split; [done|]. split; [by apply Hown|]. split; [done|]. auto.
  - assert (Hin : js_some (inbox_by (te_inboxEntryId (quote_of id e m))) (lh_inbox (ww_hooks w)) = true).
    { apply existsb_exists. exists e. split; [done|]. by apply bool_decide_eq_true. }
    rewrite Hin, Hd. cbn [negb orb throw_if mbind result_bind]. right. eexists _, _. split; [done|]. split; [done|]. cbn.
    split; [apply in_app_iff; right; by left|]. split; [done|]. split; [intros x Hx; apply in_app_iff; by left|].
    intros x Hx. apply in_app_iff in Hx as [Hx|[<-|[]]]; [by left|right]. by apply quote_check.
Qed.

(** ** A second answer *)

(** An attempt that is taken is not bound again. *)
Lemma taken_conflicts id d attempt at_ w : (forall c, In c (lh_correlations (ww_hooks w)) -> correlation_check c = true) ->
  (exists c, In c (lh_correlations (ww_hooks w)) /\ bindable id d c = true) ->
  (exists c, In c (lh_correlations (ww_hooks w)) /\ tk_state c = CORRELATION_BOUND /\ tk_attemptId c = Some attempt) ->
  bindCorrelation id d attempt at_ w = Err second_response.
Proof.
  intros Hcheck (c & Hc & Hb) (c1 & Hc1 & Hs1 & Ha1). unfold bindCorrelation, refuse_if. rewrite update_guarded_passes.
  2: { intros x Hx Hp. specialize (Hcheck x Hx). unfold bindable in Hp. apply andb_prop in Hp as [Hp Hdel]. apply andb_prop in Hp as [_ Hp]. apply bool_decide_eq_true in Hp.
    apply orb_prop in Hdel. rewrite !bool_decide_eq_true in Hdel. unfold dl_line_guard_touch_correlation. rewrite Hp. cbn [bound_to tk_evidence tk_deliveryId]. rewrite !bool_decide_eq_true_2 by done. cbn [negb].
    assert (Hdel' : bool_decide (is_Some (tk_deliveryId x)) && negb (bool_decide (Some d = tk_deliveryId x)) = false).
    { destruct Hdel as [-> | ->]; [done|]. by rewrite (bool_decide_eq_true_2 (Some d = Some d)) by done. }
    rewrite Hdel'. unfold correlation_check in *. rewrite Hp in Hcheck. cbn [bound_to tk_evidence tk_state tk_deliveryId tk_attemptId tk_resolvedAt tk_quarantineCode].
    rewrite !andb_true_iff in Hcheck. destruct Hcheck as ((((Hk & Hq) & Hw) & Hw2) & (_ & Hn)). rewrite Hk, Hq, Hw, Hw2, Hn. done. }
  cbn [mbind result_bind]. assert (Htakes : js_some (bindable id d) (lh_correlations (ww_hooks w)) = true) by (apply existsb_exists; eauto).
  rewrite Htakes. set (other := fun c => negb (bindable id d c) && _ && _).
  assert (Hother : js_some other (lh_correlations (ww_hooks w)) = true); [|by rewrite Hother].
  apply existsb_exists. exists c1. split; [done|]. unfold other, bindable.
  rewrite Hs1, Ha1, (bool_decide_eq_false_2 (CORRELATION_BOUND = CORRELATION_PENDING)) by done.
  rewrite andb_false_r. cbn [negb andb]. by rewrite !bool_decide_eq_true_2.
Qed.

(** A world in which an entry quotes a message whose attempt another response has: the same person answered
    it before, no earlier than it was accepted, and what the entry has of correlations is not resolved. *)
Record answers_again (w : WebhookWorld) (e : InboxEntry) (p : LineInboundProjection) (m : string) (a : LineAcceptedAttempt) : Prop := {
  aa_entry : In e (lh_inbox (ww_hooks w));
  aa_read : vault_read keyring e w = Ok (Some p);
  aa_message : pj_isOneToOne p = true /\ ie_eventType (in_event e) = "message" /\ pj_quotedMessageId p = Some m;
  aa_storable : storable p;
  aa_attempt : fst (run (accepted_search (ie_channelAccountId (in_event e)) m) w) = Ok (Some a);
  aa_delivery : line_delivery (la_deliveryId a) (ww_line w) = true;
  aa_same : la_recipientFingerprint a = pj_sourceFingerprint p /\ la_acceptedAt a <= ie_providerTimestamp (in_event e);
  aa_taken : exists c, In c (lh_correlations (ww_hooks w)) /\ tk_state c = CORRELATION_BOUND /\ tk_attemptId c = Some (la_attemptId a);
  aa_own : forall c, In c (lh_correlations (ww_hooks w)) -> te_inboxEntryId (tk_evidence c) = in_id e ->
    tk_state c = CORRELATION_PENDING /\ (tk_deliveryId c = None \/ tk_deliveryId c = Some (la_deliveryId a));
}.

Lemma commit_conflicts cid ref kind a p e w :
  la_recipientFingerprint a = pj_sourceFingerprint p -> la_acceptedAt a <= ie_providerTimestamp (in_event e) ->
  (forall at_, bindCorrelation cid (la_deliveryId a) (la_attemptId a) at_ w = Err second_response) ->
  run (commitTouch tenantId cid ref kind a p e) w = (Err second_response, w).
Proof.
  intros Hfp Ht Hb. unfold commitTouch. rewrite bool_decide_eq_true_2 by done. cbn [negb].
  destruct (Z.ltb_spec (ie_providerTimestamp (in_event e)) (la_acceptedAt a)); [lia|].
  unfold worker_now. rewrite run_then_query, run_then, run_transact. by rewrite Hb.
Qed.

Lemma bindable_own c d : tk_state c = CORRELATION_PENDING -> tk_deliveryId c = None \/ tk_deliveryId c = Some d -> bindable (tk_id c) d c = true.
Proof.
  intros Hs Hd. unfold bindable, correlation_by. rewrite Hs, !bool_decide_eq_true_2 by done. cbn.
  destruct Hd as [-> | ->]; [done|]. by rewrite (bool_decide_eq_true_2 (Some d = Some d)), orb_true_r.
Qed.

Section Again.
Context (w : WebhookWorld) (e : InboxEntry) (p : LineInboundProjection) (m : string) (a : LineAcceptedAttempt).
Context (Hok : webhook_ok keyring (content_of content_source) w) (Haa : answers_again w e p m a).

Lemma again_checks c : In c (lh_correlations (ww_hooks w)) -> correlation_check c = true.
Proof. intros Hc. by destruct (hk_correlations _ _ (proj2 Hok) c Hc). Qed.

Lemma again_quoted : truthy (Some m) = Some m /\ quoted_id_check (Some m) = true.
Proof.
  destruct (aa_message _ _ _ _ _ Haa) as (_ & _ & Hm). split.
  - pose proof (reads_truthy keyring w e p (aa_read _ _ _ _ _ Haa)) as Ht. by rewrite Hm in Ht.
  - destruct (aa_storable _ _ _ _ _ Haa) as [_ Hq]. by rewrite Hm in Hq.
Qed.

(** The worker's turn at the entry throws, and leaves the inbox as it is. *)
Lemma again_process owner postbacks r : exists w',
  run (process tenantId owner keyring postbacks e r) w = (Err second_response, w') /\ lh_inbox (ww_hooks w') = lh_inbox (ww_hooks w).
Proof.
  destruct (aa_message _ _ _ _ _ Haa) as (Hone & Htype & Hm). destruct again_quoted as [Htr Hq].
  destruct (projecting_unmoved e p w (aa_entry _ _ _ _ _ Haa) (aa_storable _ _ _ _ _ Haa)) as (b & w1 & Hp & Hu1 & Hc1).
  assert (Hfind : attempt_of (ie_channelAccountId (in_event e)) m (ww_line w) = Ok (Some a)).
  { rewrite <- (aa_attempt _ _ _ _ _ Haa). by rewrite find_runs. }
  assert (Hsup : includes LINE_SUPPORTED_EVENT_TYPES (ie_eventType (in_event e)) = true) by by rewrite Htype.
  unfold process. rewrite Hsup. cbn [negb]. rewrite run_then, run_read_payload, (aa_read _ _ _ _ _ Haa).
  fold (projecting e p). rewrite run_then, Hp. cbv zeta.
  assert (Hev : evidenceOf postbacks e p = Some (QUOTES m)).
  { unfold evidenceOf. rewrite Hone, Htype, Hm. cbn. by rewrite bool_decide_eq_true_2. }
  rewrite Hev, run_then. unfold correlate. rewrite run_then, find_runs, (attempt_unmoved _ _ w w1 Hu1), Hfind.
  rewrite run_then. unfold bind_response. rewrite run_then. rewrite run_worker_id. cbv zeta. rewrite Htr. set (w2 := snd (draw_id w1)). set (id := fst (draw_id w1)).
  assert (Hu2 : unmoved w w2) by (etrans; [exact Hu1|apply draw_id_unmoved]).
  assert (Hc2 : lh_correlations (ww_hooks w2) = lh_correlations (ww_hooks w)) by exact Hc1.
  rewrite run_then. change (TouchEvidence_ id _ _ _ _ _ _) with (quote_of id e m).
  destruct (open_quote id e m (la_deliveryId a) w2 (fun c => tk_state c = CORRELATION_PENDING /\
      (tk_deliveryId c = None \/ tk_deliveryId c = Some (la_deliveryId a)))) as [Ho|(c & w3 & Ho & Hu3 & Hc & [Hs Hd] & Hold & Hnew)].
  - done.
  - rewrite (um_inbox _ _ Hu2). apply Haa.
  - unfold line_delivery. rewrite (um_deliveries _ _ Hu2). apply (aa_delivery _ _ _ _ _ Haa).
  - rewrite Hc2. apply (aa_own _ _ _ _ _ Haa).
  - cbn. auto.
  - exists w2. split; [|apply Hu2]. cbn [fmap option_fmap option_map] in *. by rewrite Ho.
  - exists w3. split; [|rewrite (um_inbox _ _ Hu3); apply Hu2]. cbn [fmap option_fmap option_map] in *. rewrite Ho, Hs, bool_decide_eq_true_2 by done.
    cbn [negb]. destruct (aa_same _ _ _ _ _ Haa) as [Hfp Hat]. rewrite commit_conflicts; [done|done|done|]. intros at_.
    apply taken_conflicts.
    + intros x Hx. destruct (Hnew x Hx) as [Hx'|?]; [|done]. rewrite Hc2 in Hx'. by apply again_checks.
    + exists c. split; [done|]. by apply bindable_own.
    + destruct (aa_taken _ _ _ _ _ Haa) as (c1 & Hc1' & Hb). exists c1. split; [|done]. apply Hold. by rewrite Hc2.
Qed.

(** The round of the responses that wait throws at one that is the entry's, and changes nothing. *)
Lemma again_resolve c r : In c (lh_correlations (ww_hooks w)) -> te_inboxEntryId (tk_evidence c) = in_id e ->
  run (resolve_one tenantId keyring c r) w = (Err second_response, w).
Proof.
  intros Hc Hent. destruct (aa_message _ _ _ _ _ Haa) as (_ & Htype & Hm). destruct again_quoted as [Htr _].
  pose proof (aa_entry _ _ _ _ _ Haa) as He. destruct Hok as [_ Hh].
  assert (Hfind : attempt_of (ie_channelAccountId (in_event e)) m (ww_line w) = Ok (Some a)).
  { rewrite <- (aa_attempt _ _ _ _ _ Haa). by rewrite find_runs. }
  assert (Hq : te_quotedMessageId (tk_evidence c) = Some m).
  { destruct (hk_correlations _ _ Hh c Hc) as (_ & e' & p' & He' & Hr' & Hev & _). destruct Hev as (Hid & _ & _ & _ & _ & Hk).
    assert (e' = e) as -> by (apply (NoDup_map_inj in_id (lh_inbox (ww_hooks w))); [apply Hh|done..|congruence]).
    assert (p' = p) as -> by (unfold reads in Hr'; rewrite (aa_read _ _ _ _ _ Haa) in Hr'; by injection Hr').
    destruct (te_evidenceKind (tk_evidence c)); destruct Hk as [Ht Hk]; [congruence|]. rewrite Htype in Ht. discriminate Ht. }
  unfold resolve_one. cbv zeta. unfold worker_now. rewrite run_then_query, run_then_query.
  assert (Hf : js_find (inbox_by (te_inboxEntryId (tk_evidence c))) (lh_inbox (ww_hooks w)) = Some e).
  { rewrite Hent. apply (find_keyed in_id); [apply Hh|done]. }
  rewrite Hf, run_then_lift. cbn [from_option]. rewrite run_then, run_read_payload, (aa_read _ _ _ _ _ Haa), Hq, Htr.
  rewrite run_then, run_then, find_runs, Hfind. destruct (aa_same _ _ _ _ _ Haa) as [Hfp Hat].
  destruct (aa_own _ _ _ _ _ Haa c Hc Hent) as [Hs Hd]. rewrite commit_conflicts; [done|done|done|]. intros at_. apply taken_conflicts.
  - apply again_checks.
  - exists c. split; [done|]. by apply bindable_own.
  - apply (aa_taken _ _ _ _ _ Haa).
Qed.
End Again.

(** ** A touch that was not told *)

(** A world in which an entry quotes a message and its response is bound to an attempt: where a worker that
    dies between [bindCorrelation] and [recordCorrelatedTouch] leaves it. *)
Record left_bound (w : WebhookWorld) (e : InboxEntry) (p : LineInboundProjection) (m : string) (c : TouchCorrelation) : Prop := {
  lb_entry : In e (lh_inbox (ww_hooks w));
  lb_read : vault_read keyring e w = Ok (Some p);
  lb_storable : storable p;
  lb_answered : exists att, fst (run (accepted_search (ie_channelAccountId (in_event e)) m) w) = Ok att;
  lb_bound : In c (lh_correlations (ww_hooks w)) /\ te_inboxEntryId (tk_evidence c) = in_id e /\ tk_state c = CORRELATION_BOUND;
  lb_quotes : te_quotedMessageId (tk_evidence c) = Some m;
}.

(** The end of an entry goes through. *)
Lemma ended_check e at_ : inbox_check e = true -> inbox_check (ended INBOX_COMPLETED WEBHOOK_ACCEPTED at_ e) = true.
Proof.
  unfold inbox_check. rewrite !andb_true_iff. intros ((((((Hid & Ht) & Ha) & _) & _) & _) & _). cbn. by rewrite Hid, Ht, Ha.
Qed.

Lemma completed_runs owner e w : (forall x, In x (lh_inbox (ww_hooks w)) -> inbox_check x = true) ->
  exists b w', run (completed owner e) w = (Ok b, w') /\ ww_line w' = ww_line w /\ lh_correlations (ww_hooks w') = lh_correlations (ww_hooks w) /\
    (In e (lh_inbox (ww_hooks w)) -> in_state e = INBOX_PROCESSING -> fst <$> in_lease e = Some owner ->
     exists at_, In (ended INBOX_COMPLETED WEBHOOK_ACCEPTED at_ e) (lh_inbox (ww_hooks w'))).
Proof.
  intros Hck. unfold completed, worker_now. rewrite run_then_query. set (at_ := lo_clock _). rewrite run_transact. unfold complete, update_inbox.
  set (takes := fun x => inbox_by (in_id e) x && _ && _). rewrite update_guarded_passes.
  - cbn. eexists _, _. split; [done|]. split; [done|]. split; [done|]. intros He Hs Ho. exists at_. cbn.
    apply in_map_iff. exists e. split; [|done]. assert (takes e = true) as -> ; [|done]. unfold takes, inbox_by. by rewrite !bool_decide_eq_true_2.
  - intros x Hx Ht. unfold takes in Ht. apply andb_prop in Ht as [Ht _]. apply andb_prop in Ht as [_ Ht]. apply bool_decide_eq_true in Ht.
    unfold dl_line_guard_webhook_inbox. rewrite Ht, (bool_decide_eq_true_2 (in_event _ = _)) by done. cbn [inbox_open includes negb].
    rewrite ended_check by auto. cbn. by rewrite Z.ltb_irrefl.
Qed.

Section Left.
Context (w : WebhookWorld) (e : InboxEntry) (p : LineInboundProjection) (m : string) (c : TouchCorrelation).
Context (Hok : webhook_ok keyring (content_of content_source) w) (Hlb : left_bound w e p m c).

(** What is bound was opened for a message of the entry, that quotes [m]. *)
Lemma left_evidence : pj_isOneToOne p = true /\ ie_eventType (in_event e) = "message" /\ pj_quotedMessageId p = Some m /\ quoted_id_check (Some m) = true /\
  te_responseEvidenceRef (tk_evidence c) = response_ref e /\ forall id, same_correlation (tk_evidence c) (quote_of id e m) = true.
Proof.
  destruct (lb_bound _ _ _ _ _ Hlb) as (Hc & Hent & _). pose proof (lb_quotes _ _ _ _ _ Hlb) as Hq. destruct Hok as [_ Hh].
  destruct (hk_correlations _ _ Hh c Hc) as (Hck & e' & p' & He' & Hr' & (Hid & Href & Ht & _ & Hone & Hk) & _).
  assert (e' = e) as -> by (apply (NoDup_map_inj in_id (lh_inbox (ww_hooks w))); [apply Hh|done|apply Hlb|congruence]).
  assert (p' = p) as -> by (unfold reads in Hr'; rewrite (lb_read _ _ _ _ _ Hlb) in Hr'; by injection Hr').
  destruct (te_evidenceKind (tk_evidence c)) eqn:Ek; [destruct Hk as [Hty Hk]|destruct Hk as (_ & _ & Hk); congruence].
  split_and!; [done|done|congruence| |done|].
  - unfold correlation_check in Hck. rewrite !andb_true_iff in Hck. by destruct Hck as ((((_ & Hqc) & _) & _) & _); rewrite Hq in Hqc.
  - intros id. unfold same_correlation. cbn. by rewrite Hent, Ek, Hq, Ht, !bool_decide_eq_true_2, Z.eqb_refl.
Qed.

(** The next worker counts a touch, tells no one and completes the entry. *)
Lemma left_process owner postbacks r : exists r' w',
  run (process tenantId owner keyring postbacks e r) w = (Ok r', w') /\ wr_touches r' = wr_touches r + 1 /\ wr_pending r' = wr_pending r /\
  lw_governance (ww_line w') = lw_governance (ww_line w) /\ lw_deliveries (ww_line w') = lw_deliveries (ww_line w) /\
  lh_correlations (ww_hooks w') = lh_correlations (ww_hooks w) /\
  (in_state e = INBOX_PROCESSING -> fst <$> in_lease e = Some owner ->
   exists at_, In (ended INBOX_COMPLETED WEBHOOK_ACCEPTED at_ e) (lh_inbox (ww_hooks w'))).
Proof.
  destruct left_evidence as (Hone & Htype & Hm & Hq & Href & Hsame). destruct (lb_bound _ _ _ _ _ Hlb) as (Hc & _ & Hs).
  pose proof (lb_entry _ _ _ _ _ Hlb) as He. destruct Hok as [_ Hh].
  destruct (projecting_unmoved e p w He (lb_storable _ _ _ _ _ Hlb)) as (b & w1 & Hp & Hu1 & Hc1).
  destruct (lb_answered _ _ _ _ _ Hlb) as [att Hatt]. rewrite find_runs in Hatt. cbn in Hatt.
  assert (Hsup : includes LINE_SUPPORTED_EVENT_TYPES (ie_eventType (in_event e)) = true) by by rewrite Htype.
  unfold process. rewrite Hsup. cbn [negb]. rewrite run_then, run_read_payload, (lb_read _ _ _ _ _ Hlb).
  fold (projecting e p). rewrite run_then, Hp. cbv zeta.
  assert (Hev : evidenceOf postbacks e p = Some (QUOTES m)).
  { unfold evidenceOf. rewrite Hone, Htype, Hm. cbn. by rewrite bool_decide_eq_true_2. }
  assert (Htr : truthy (Some m) = Some m) by (rewrite <- Hm; by eapply (reads_truthy keyring), (lb_read _ _ _ _ _ Hlb)).
  rewrite Hev, run_then. unfold correlate. rewrite run_then, find_runs, (attempt_unmoved _ _ w w1 Hu1), Hatt.
  rewrite run_then. unfold bind_response. rewrite run_then. rewrite run_worker_id. cbv zeta. rewrite Htr. set (w2 := snd (draw_id w1)). set (id := fst (draw_id w1)).
  assert (Hu2 : unmoved w w2) by (etrans; [exact Hu1|apply draw_id_unmoved]).
  assert (Hc2 : lh_correlations (ww_hooks w2) = lh_correlations (ww_hooks w)) by exact Hc1.
  rewrite run_then. change (TouchEvidence_ id _ _ _ _ _ _) with (quote_of id e m).
  rewrite (open_existing id e m _ c w2); [|done|rewrite Hc2; apply Hh|by rewrite Hc2|done|apply Hsame]. rewrite Hs. cbn [bool_decide negb].
  rewrite bool_decide_eq_false_2, bool_decide_eq_true_2 by done. cbn [negb run ret fst snd].
  destruct (completed_runs owner e w2) as (b3 & w3 & Hr3 & Hl3 & Hc3 & Hend); [rewrite (um_inbox _ _ Hu2); apply Hh|].
  rewrite run_then, Hr3. eexists _, w3. split; [reflexivity|]. rewrite Hl3, Hc3, (um_governance _ _ Hu2), (um_deliveries _ _ Hu2), Hc2. cbn.
  split; [lia|]. split; [lia|]. split_and?; try done. apply Hend. by rewrite (um_inbox _ _ Hu2).
Qed.
End Left.

Lemma bound_attempt c : correlation_check c = true -> tk_state c = CORRELATION_BOUND -> exists a, tk_attemptId c = Some a.
Proof.
  unfold correlation_check. intros Hck Hs. rewrite Hs, !andb_true_iff in Hck. destruct Hck as (_ & ((_ & Ha) & _) & _). apply bool_decide_eq_true in Ha as [a ->]. eauto.
Qed.

(** Once an attempt is bound no correlation takes it again. *)
Lemma bound_takes_no_more w c a id d at_ b w' : List.NoDup (map tk_id (lh_correlations (ww_hooks w))) ->
  In c (lh_correlations (ww_hooks w)) -> tk_state c = CORRELATION_BOUND -> tk_attemptId c = Some a ->
  bindCorrelation id d a at_ w = Ok (b, w') -> b = None /\ ww_line w' = ww_line w.
Proof.
  intros Hn Hc Hs Ha Hok. unfold bindCorrelation, refuse_if in Hok. open_bind Hok u Hu. destruct u as [n rows]. apply bind_throw_if_ok in Hok as [Hno Hok].
  apply bind_throw_if_ok in Hok as [_ [= <- <-]]. split; [|done]. apply update_guarded_ok in Hu as (-> & _ & _).
  destruct (js_some (bindable id d) (lh_correlations (ww_hooks w))) eqn:Et; cbn [andb] in Hno.
  - pose proof (some_none _ _ c Hno Hc) as Hx. cbn in Hx. unfold bindable in Hx.
    rewrite Hs, Ha, (bool_decide_eq_false_2 (CORRELATION_BOUND = CORRELATION_PENDING)) in Hx by done. rewrite andb_false_r in Hx. cbn in Hx.
    by rewrite !bool_decide_eq_true_2 in Hx.
  - assert (count_where (bindable id d) (lh_correlations (ww_hooks w)) = 0) as ->; [|done].
    pose proof (count_where_pos (bindable id d) (lh_correlations (ww_hooks w))) as [Hp _].
    destruct (Z.lt_trichotomy (count_where (bindable id d) (lh_correlations (ww_hooks w))) 0) as [Hz|[Hz|Hz]]; [unfold count_where in Hz; lia|done|].
    destruct (Hp Hz) as (x & Hx & Hb). by rewrite (some_none _ _ x Et Hx) in Hb.
Qed.

(** Where its binding takes no row a touch is not committed. *)
Lemma commit_unbound id ref kind att p e w :
  (forall d at_ b w', bindCorrelation id d (la_attemptId att) at_ w = Ok (b, w') -> b = None /\ ww_line w' = ww_line w) ->
  exists r w', run (commitTouch tenantId id ref kind att p e) w = (r, w') /\ r <> Ok true /\ ww_line w' = ww_line w.
Proof.
  intros Hb.
  assert (Hun : exists r w', run (unbound id) w = (r, w') /\ r <> Ok true /\ ww_line w' = ww_line w).
  { unfold unbound, worker_now. rewrite run_then_query, run_then, run_transact. unfold quarantineCorrelation.
    destruct (update_guarded _ _ _ _); by eexists _, _. }
  unfold commitTouch. destruct (negb _); [done|]. destruct (_ <? _); [done|]. unfold worker_now. rewrite run_then_query, run_then, run_transact.
  destruct (bindCorrelation _ _ _ _ w) as [[b w1]|x] eqn:Eb; [|by eexists _, _]. apply Hb in Eb as [-> Hl]. by eexists _, _.
Qed.

Lemma list_pending_In n c w : In c (listPendingCorrelations n w) -> In c (lh_correlations (ww_hooks w)) /\ tk_state c = CORRELATION_PENDING.
Proof.
  unfold listPendingCorrelations. intros Hc. apply list_elem_of_In, elem_of_take in Hc as (i & Hi & _).
  apply list_elem_of_lookup_2, list_elem_of_In, sort_by_In, filter_In in Hi as [Hi Hp]. by bool_prop.
Qed.


(** C35: a touch is lost where its worker dies. Take any history and a response to a quoted message that is
    bound to its attempt with its worker gone: so it is left by one that died between the binding and the
    call to Governance, and nothing in the tables of LINE tells whether the call was made. Whoever's turn is
    next at the entry counts a touch, completes the entry if it has the lease, and tells no one: Governance,
    the deliveries with their events, and the correlations are as they were. And from then on, whatever
    starts and moves: no response of the entry is listed among those that wait; no binding of the attempt
    takes a row, of any correlation; and so no [commitTouch] of it ends in a touch, or changes Governance or
    the deliveries. *)
Theorem crashed_touch_is_lost w e p m c : history w -> left_bound w e p m c ->
  (forall owner postbacks r, exists r' w',
     run (process tenantId owner keyring postbacks e r) w = (Ok r', w') /\ wr_touches r' = wr_touches r + 1 /\ wr_pending r' = wr_pending r /\
     lw_governance (ww_line w') = lw_governance (ww_line w) /\ lw_deliveries (ww_line w') = lw_deliveries (ww_line w) /\
     lh_correlations (ww_hooks w') = lh_correlations (ww_hooks w) /\
     (in_state e = INBOX_PROCESSING -> fst <$> in_lease e = Some owner ->
      exists at_, In (ended INBOX_COMPLETED WEBHOOK_ACCEPTED at_ e) (lh_inbox (ww_hooks w')))) /\
  (forall w2, webhook_reaches tenantId content_source keyring w w2 ->
     (forall n c2, In c2 (listPendingCorrelations n w2) -> te_inboxEntryId (tk_evidence c2) <> in_id e) /\
     exists a, tk_attemptId c = Some a /\
       (forall id d at_ b w3, bindCorrelation id d a at_ w2 = Ok (b, w3) -> b = None /\ ww_line w3 = ww_line w2) /\
       forall id ref kind att p2 e2, la_attemptId att = a -> exists r w3, run (commitTouch tenantId id ref kind att p2 e2) w2 = (r, w3) /\
         r <> Ok true /\ ww_line w3 = ww_line w2).
Proof.
  intros Hh Hlb. pose proof (webhook_history_ok _ _ _ w Hh) as Hok. split; [intros; by apply (left_process w e p m c Hok Hlb)|].
  intros w2 Hr. destruct (webhook_reaches_ok _ _ _ w w2 Hok Hr) as [[_ Hh2] [_ Hm2]]. destruct (lb_bound _ _ _ _ _ Hlb) as (Hc & Hent & Hs).
  destruct (hm_correlations _ _ Hm2 c Hc) as (c' & Hc2 & _ & Hsame). assert (c' = c) as -> by (apply Hsame; congruence).
  split.
  - intros n c3 Hl He3. apply list_pending_In in Hl as [Hin Hpend].
    assert (c3 = c) as ->; [|congruence]. apply (NoDup_map_inj (fun c => te_inboxEntryId (tk_evidence c)) (lh_correlations (ww_hooks w2))); [apply Hh2|done..|congruence].
  - destruct (bound_attempt c) as [a Ha]; [by destruct Hok as [_ Hh0]; apply (hk_correlations _ _ Hh0)|done|]. exists a. split; [done|].
    assert (Hnone : forall id d at_ b w3, bindCorrelation id d a at_ w2 = Ok (b, w3) -> (b = None /\ ww_line w3 = ww_line w2)).
    { intros id d at_ b w3 Hb. apply (bound_takes_no_more w2 c a id d at_ b w3 (hk_correlation_ids _ _ Hh2)); done. }
    split; [done|]. intros id ref kind att p2 e2 <-. apply commit_unbound. intros d at_ b w3. apply Hnone.
Qed.
End Faults.
