(* ===== verification/LineWebhookScenario.v ===== *)
(** * LineWebhookScenario: a person answers a delivery

    The delivery of LineScenario is answered: the response comes in signed, a worker reads it and a touch is
    recorded. The theorems of LineWebhookTheorems at it, those of LineWebhookFaults where its worker dies once
    it is bound and where the person answers twice, and what becomes of a response that comes through a
    token, of one that comes days later, and of an event whose identifier the ingress takes and the table
    does not. *)
From stdpp Require Import base tactics list strings relations.
From Stdlib Require Import ZArith Lia.
From S2P Require Import Prelude JsMap Text JsDate JsValue Contracts PolicyPreview ScopeKey Persistence PolicyScenario ReservationRuntime DeliveryCommands Program LineDelivery LineControlPolicy LineTables LineStore LineLedger LineControlPlane LineAdapter LineInvariant LineTransactions LineMethods LinePool LineTheorems LineScenario LineInbox LineWebhook LineWebhookWorker LineTouches LineWebhookPool LineWebhookTheorems LineWebhookFaults.

Open Scope string_scope.
Open Scope Z_scope.
Open Scope list_scope.

#[local] Existing Instance two_zone_host.
#[local] Existing Instance hex_host.

(** ** Events *)

(** A message of a person that quotes another, and an event with the token of a button. *)
Definition event_of (id type : string) (t : Z) (details : list (string * jsval)) : list (string * jsval) :=
  [("type", JStr type); ("mode", JStr "active"); ("webhookEventId", JStr id); ("timestamp", JNum (NInt (monday + minutes t)));
   ("source", JObj [("type", JStr "user"); ("userId", JStr "U-ann")]);
   ("deliveryContext", JObj [("isRedelivery", JBool false)])] ++ details.
Definition reply (id message : string) (t : Z) : list (string * jsval) :=
  event_of id "message" t [("message", JObj [("id", JStr message); ("type", JStr "text"); ("quotedMessageId", JStr "100")])].
Definition pressed (id token : string) (t : Z) : list (string * jsval) :=
  event_of id "postback" t [("postback", JObj [("data", JStr token)])].
Definition body_of (event : list (string * jsval)) : jsval := JObj [("destination", JStr "bot-1"); ("events", JArr [JObj event])].

Definition first_reply : list (string * jsval) := reply "ev-1" "201" 5.
Definition late_reply : list (string * jsval) := reply "ev-2" "202" 14400.
Definition first_press : list (string * jsval) := pressed "ev-3" "token-1" 5.
Definition dotted_reply : list (string * jsval) := reply "ev.4" "204" 5.
Definition second_reply : list (string * jsval) := reply "ev-5" "205" 7.
Definition follows : list (string * jsval) := event_of "ev-6" "follow" 8 [].
Definition said : list jsval :=
  flat_map (fun e => [JObj e; body_of e]) [first_reply; late_reply; first_press; dotted_reply; second_reply; follows].

(** The texts of these values, and what they say. *)
Definition texts : list (string * jsval) := Eval vm_compute in map (fun v => (json_print v, v)) said.

(** A cipher that only keeps the key beside the text. *)
Definition plain_host : WebhookHost :=
  {| hmac_sha256_base64 secret body := hex_digits 43 (checksum (secret +:+ "." +:+ body) 11);
     aes_gcm_seal key iv text := (text, key);
     aes_gcm_open key iv tag ciphertext := if bool_decide (tag = key) then Some ciphertext else None;
     random_iv n := show (Z.of_nat n);
     JSON_parse s := map_get s texts |}.
#[local] Existing Instance plain_host.

Definition keyring : string -> option string := fun ref => if bool_decide (ref = "key-1") then Some "secret key" else None.
Definition channel_binding : LineWebhookBinding := WebhookBinding "oa-1" "bot-1" "channel secret" "key-1" "secret key".
Definition request (event : list (string * jsval)) (t : Z) : LineWebhookRequest :=
  let body := json_print (body_of event) in
  WebhookRequest body (Some (hmac_sha256_base64 "channel secret" body)) (monday + minutes t).

(** ** Stages *)

Definition hook_calls {A} (n : nat) (q : wprog A) (w : WebhookWorld) : WebhookWorld := run_until n (bind (fun _ => ret tt) q) w.
Definition at_minute (t : Z) (w : WebhookWorld) : WebhookWorld := with_line (outside (monday + minutes t) [] (ww_line w)) w.

Definition takes_in (event : list (string * jsval)) (t : Z) : wprog LineWebhookIngressResult := handle "t" channel_binding (request event t).
Definition works (owner : string) (postbacks : bool) : wprog WorkerResult := runOnce "t" owner keyring postbacks 60000 10.

Definition before : WebhookWorld := WebhookWorld_ fresh_world (LineWebhooks_ [] [] [] [] [("token-1", "100")]).
Definition delivered : WebhookWorld := with_line accepted_world before.

(** The response in the inbox, and worked on. *)
Definition answered_world : WebhookWorld := Eval vm_compute in hook_calls 10 (takes_in first_reply 5) delivered.
Definition touched_world : WebhookWorld := Eval vm_compute in hook_calls 200 (works "worker-1" true) (at_minute 6 answered_world).

Abbreviation hook_reaches := (webhook_reaches "t" None keyring).
Abbreviation hook_history := (webhook_history "t" None keyring).

Lemma hook_calls_reach {A} w0 n (q : wprog A) w w' : w' = hook_calls n q w -> webhook_method "t" keyring q -> hook_reaches w0 w -> hook_reaches w0 w'.
Proof. intros -> Hq Hr. apply run_until_reaches; [|exact Hr]. left. exists A, q. split; [exact Hq|reflexivity]. Qed.

Lemma at_minute_reaches w0 t w : hook_reaches w0 w -> hook_reaches w0 (at_minute t w).
Proof. intros Hr. eapply pool_reaches_other; [exact Hr|]. apply WO_line, Others_outside. reflexivity. Qed.

Lemma delivered_reached : hook_reaches before delivered.
Proof.
  unfold delivered. apply (line_reaches_lift "t" None keyring before before fresh_world); [|apply pool_reaches_refl].
  sent 200%nat 1 [taken] ready. exact ready_reached.
Qed.

Lemma reached_hook_history w : hook_reaches before w -> hook_history w.
Proof. intros Hr. exists before. split; [|exact Hr]. split; [exact fresh_is_fresh|]. eexists. reflexivity. Qed.

(** What a worker does, and what comes in. *)
Ltac worked owner n t w := refine (hook_calls_reach _ n (works owner true) (at_minute t w) _ _ (W_runOnce _ _ _ _ _ _) (at_minute_reaches _ _ _ _)); [vm_compute; reflexivity|].
Ltac came event t w := refine (hook_calls_reach _ 10 (takes_in event t) w _ _ (W_handle _ _ _ _) _); [vm_compute; reflexivity|].

Lemma answered_reached : hook_reaches before answered_world.
Proof. came first_reply 5 delivered. exact delivered_reached. Qed.
Lemma touched_from_answered : hook_reaches answered_world touched_world.
Proof. worked "worker-1" 200%nat 6 answered_world. apply pool_reaches_refl. Qed.
Lemma touched_reached : hook_reaches before touched_world.
Proof. worked "worker-1" 200%nat 6 answered_world. exact answered_reached. Qed.

(** ** Witnesses *)

Lemma touch_answers_delivery_witness : exists c r, lh_correlations (ww_hooks touched_world) = [c] /\
  In r (ld_attempts (lw_deliveries (ww_line touched_world))) /\ In "100" (sa_sentMessageIds r) /\ tk_deliveryId c = Some (sa_deliveryId r).
Proof.
  destruct (lh_correlations (ww_hooks touched_world)) as [|c [|]] eqn:E; try (vm_compute in E; discriminate E). exists c.
  assert (Hc : In c (lh_correlations (ww_hooks touched_world))) by (rewrite E; left; reflexivity).
  assert (Hs : tk_state c = CORRELATION_BOUND) by (vm_compute in E; injection E as <-; reflexivity).
  assert (Hk : te_evidenceKind (tk_evidence c) = USER_QUOTED_RESPONSE /\ te_inboxEntryId (tk_evidence c) = default "" (in_id <$> head (lh_inbox (ww_hooks touched_world))))
    by (vm_compute in E; injection E as <-; split; vm_compute; reflexivity).
  destruct (touch_answers_delivery "t" None keyring touched_world c (reached_hook_history _ touched_reached) Hc Hs)
    as (e & p & m & r & u & g & f & ru & He & Hi & Hp & _ & Hq & Hr & _ & Hm & Hd & _).
  exists r. split; [reflexivity|]. split; [exact Hr|]. split; [|exact Hd].
  specialize (Hq (proj1 Hk)). destruct (lh_inbox (ww_hooks touched_world)) as [|x [|]] eqn:Ei; try (vm_compute in Ei; discriminate Ei).
  destruct He as [->|[]]. vm_compute in Ei. injection Ei as <-. vm_compute in Hp. injection Hp as <-. vm_compute in Hq. injection Hq as <-. exact Hm.
Defined.

Lemma events_kept_once_witness : exists e e', lh_inbox (ww_hooks answered_world) = [e] /\ lh_inbox (ww_hooks touched_world) = [e'] /\
  in_state e = INBOX_PENDING /\ in_state e' = INBOX_COMPLETED /\ in_event e' = in_event e.
Proof.
  destruct (lh_inbox (ww_hooks answered_world)) as [|e [|]] eqn:E; try (vm_compute in E; discriminate E).
  destruct (lh_inbox (ww_hooks touched_world)) as [|e' [|]] eqn:E'; try (vm_compute in E'; discriminate E').
  exists e, e'. split; [reflexivity|]. split; [reflexivity|].
  destruct (events_kept_once "t" None keyring answered_world touched_world (reached_hook_history _ answered_reached) touched_from_answered) as [He _].
  destruct (He e) as [_ (x & Hx & Hv & _)]; [rewrite E; left; reflexivity|]. rewrite E' in Hx. destruct Hx as [->|[]].
  split; [vm_compute in E; injection E as <-; reflexivity|]. split; [vm_compute in E'; injection E' as <-; reflexivity|exact Hv].
Defined.

Lemma answers_are_durable_witness : exists a w', Program.run (takes_in first_reply 5) delivered = (Ok a, w') /\ ir_accepted a = 1 /\
  signed channel_binding (request first_reply 5).
Proof.
  destruct (answers_are_durable "t" None keyring channel_binding (request first_reply 5) delivered (reached_hook_history _ delivered_reached))
    as (a & w' & Hrun & _ & Hs & _).
  assert (Ha : a = IngressResult 200 WEBHOOK_ACCEPTED 1 0 0).
  { assert (Hc : fst (Program.run (takes_in first_reply 5) delivered) = Ok (IngressResult 200 WEBHOOK_ACCEPTED 1 0 0)) by (vm_compute; reflexivity).
    unfold takes_in in Hc. rewrite Hrun in Hc. injection Hc as ->. reflexivity. }
  exists a, w'. split; [exact Hrun|]. rewrite Ha in Hs |- *. split; [reflexivity|]. apply Hs; discriminate.
Defined.

(** A worker has made its claim and goes on. *)
Definition working : wprog unit := bind (fun _ => ret tt) (works "worker-1" true).
Definition at_six : WebhookWorld := at_minute 6 answered_world.

Lemma claims_are_exclusive_witness : exists e e2 ev x,
  lh_inbox (ww_hooks (fst (after 2 working at_six))) = [e] /\ lh_inbox (ww_hooks touched_world) = [e2] /\
  entry_step ev e x /\ rtc entry_moves x e2 /\ ends_lease "worker-1" (monday + minutes 6) 60000 ev.
Proof.
  destruct (claim "worker-1" (monday + minutes 6) 60000 10 at_six) as [[l w1]|x] eqn:E; [|vm_compute in E; discriminate E].
  assert (Hw : fst (after 2 working at_six) = w1) by (vm_compute in E; injection E as _ <-; vm_compute; reflexivity).
  destruct (lh_inbox (ww_hooks w1)) as [|e [|]] eqn:Ei; try (vm_compute in E; injection E as _ <-; discriminate Ei).
  assert (Hl : In e l) by (vm_compute in E; injection E as <- <-; injection Ei as <-; left; reflexivity).
  assert (Hp : in_state e = INBOX_PROCESSING) by (vm_compute in E; injection E as _ <-; injection Ei as <-; reflexivity).
  destruct (at_minute_reaches before 6 answered_world answered_reached) as [ps0 Hr0]. fold at_six in Hr0.
  assert (Hr1 : webhook_runs "t" None keyring (before, []) (w1, snd (after 2 working at_six) :: ps0)).
  { rewrite <- Hw. etrans; [exact Hr0|]. eapply rtc_l; [|apply after_steps]. apply Pool_start. left.
    exists WorkerResult, (works "worker-1" true). split; [exact (W_runOnce _ _ _ _ _ _)|reflexivity]. }
  destruct (claims_are_exclusive "t" None keyring at_six "worker-1" (monday + minutes 6) 60000 10 l w1
    (snd (after 2 working at_six) :: ps0)
    (fst (after 200 (snd (after 2 working at_six)) w1), snd (after 200 (snd (after 2 working at_six)) w1) :: ps0) e) as (e2 & He2 & _ & Hor).
  - apply reached_hook_history. exists ps0. exact Hr0.
  - exact E.
  - exists before. split; [split; [exact fresh_is_fresh|eexists; reflexivity]|exact Hr1].
  - apply after_steps.
  - exact Hl.
  - assert (Ht : fst (after 200 (snd (after 2 working at_six)) w1) = touched_world) by (rewrite <- Hw; vm_compute; reflexivity).
    cbn [fst] in He2. rewrite Ht in He2.
    destruct (lh_inbox (ww_hooks touched_world)) as [|y [|]] eqn:Et; try (vm_compute in Et; discriminate Et). destruct He2 as [->|[]].
    assert (Hd : in_state e2 = INBOX_COMPLETED) by (vm_compute in Et; injection Et as <-; reflexivity).
    destruct Hor as [(He & _)|(ev & x & Hx & Hs & He)]; [subst e2; congruence|]. exists e, e2, ev, x.
    split; [rewrite Hw; exact Ei|]. split; [reflexivity|]. split; [exact Hx|]. split; [exact Hs|exact He].
Defined.

Definition first_event : ParsedLineEvent :=
  ParsedEvent "ev-1" "message" false false (Some (monday + minutes 5)) first_reply.

Lemma payload_round_trip_witness : exists w' e, persist_event "t" channel_binding first_event (monday + minutes 5) delivered = Ok (EVENT_ACCEPTED, w') /\
  In e (lh_inbox (ww_hooks w')) /\ vault_read keyring e w' = Ok (projection_of "oa-1" first_reply).
Proof.
  destruct (persist_event "t" channel_binding first_event (monday + minutes 5) delivered) as [[a w']|x] eqn:E; [|vm_compute in E; discriminate E].
  assert (Ha : a = EVENT_ACCEPTED) by (vm_compute in E; injection E as <- _; reflexivity). subst a. exists w'.
  destruct (payload_round_trip "t" keyring channel_binding first_event (monday + minutes 5) delivered w') as (e & He & _ & _ & Hv & _).
  - intros key iv text. cbn. rewrite bool_decide_eq_true_2; reflexivity.
  - vm_compute. reflexivity.
  - reflexivity.
  - intros x [].
  - exact E.
  - exists e. split; [reflexivity|]. split; [exact He|exact Hv].
Defined.

(** ** What goes wrong *)

(** The worker died once the response was bound; two minutes later another does the rest. *)
Definition bound_world : WebhookWorld := Eval vm_compute in hook_calls 12 (works "worker-1" true) (at_minute 6 answered_world).
Definition worked_again : WebhookWorld := Eval vm_compute in hook_calls 200 (works "worker-2" true) (at_minute 8 bound_world).
Definition resolved_after : WebhookWorld := Eval vm_compute in hook_calls 200 (resolvePending "t" keyring 50) worked_again.

Lemma bound_reached : hook_reaches before bound_world.
Proof. worked "worker-1" 12%nat 6 answered_world. exact answered_reached. Qed.
Lemma resolved_from w : hook_reaches w bound_world -> hook_reaches w resolved_after.
Proof.
  intros Hw. refine (hook_calls_reach _ 200 (resolvePending "t" keyring 50) worked_again _ _ (W_resolvePending _ _ _) _); [vm_compute; reflexivity|].
  worked "worker-2" 200%nat 8 bound_world. exact Hw.
Qed.
Lemma resolved_after_reached : hook_reaches before resolved_after.
Proof. apply resolved_from. exact bound_reached. Qed.
Lemma bound_to_resolved : hook_reaches bound_world resolved_after.
Proof. apply resolved_from. apply pool_reaches_refl. Qed.

Definition touches_of (w : WebhookWorld) : list TouchRow := df_touches (rt_facts (lw_governance (ww_line w))).

(** It had its correlation bound and died; the next found it bound, counted a touch and completed the entry;
    nothing waits, and neither a touch nor its event is there. Without the death both are. *)
Lemma crash_leaves_bound :
  length (touches_of touched_world) = 1%nat /\
  hook_history resolved_after /\
  fst (Program.run (works "worker-2" true) (at_minute 8 bound_world)) = Ok (WorkerResult_ 1 0 1 0 0) /\
  map in_state (lh_inbox (ww_hooks resolved_after)) = [INBOX_COMPLETED] /\
  map tk_state (lh_correlations (ww_hooks resolved_after)) = [CORRELATION_BOUND] /\
  touches_of resolved_after = [] /\ listPendingCorrelations 50 resolved_after = [] /\
  (length (ld_events (lw_deliveries (ww_line resolved_after))) < length (ld_events (lw_deliveries (ww_line touched_world))))%nat.
Proof.
  split; [vm_compute; reflexivity|]. split; [exact (reached_hook_history _ resolved_after_reached)|].
  split; [vm_compute; reflexivity|]. split; [vm_compute; reflexivity|]. split; [vm_compute; reflexivity|]. split; [vm_compute; reflexivity|].
  split; [vm_compute; reflexivity|]. vm_compute. lia.
Qed.

(** The death at work: the entry is completed by the next worker, and no later binding of its attempt takes a row. *)
Lemma crashed_touch_is_lost_witness : exists e c a, lh_inbox (ww_hooks bound_world) = [e] /\ lh_correlations (ww_hooks bound_world) = [c] /\
  tk_attemptId c = Some a /\ touches_of bound_world = [] /\
  (exists r w', Program.run (process "t" "worker-2" keyring true e no_work) bound_world = (Ok r, w') /\ wr_touches r = 1 /\ touches_of w' = []) /\
  forall id d at_ b w3, bindCorrelation id d a at_ resolved_after = Ok (b, w3) -> b = None.
Proof.
  destruct (lh_inbox (ww_hooks bound_world)) as [|e [|]] eqn:Ei; try (vm_compute in Ei; discriminate Ei).
  destruct (lh_correlations (ww_hooks bound_world)) as [|c [|]] eqn:Ec; try (vm_compute in Ec; discriminate Ec).
  assert (Hp : exists p, projection_of "oa-1" first_reply = Some p) by (eexists; vm_compute; reflexivity). destruct Hp as [p Hp].
  destruct (crashed_touch_is_lost "t" None keyring bound_world e p "100" c) as [Hturn Hlater].
  - exact (reached_hook_history _ bound_reached).
  - constructor.
    + rewrite Ei. left. reflexivity.
    + rewrite <- Hp. vm_compute in Ei. injection Ei as <-. vm_compute. reflexivity.
    + vm_compute in Hp. injection Hp as <-. split; [intros m [= <-]|]; vm_compute; reflexivity.
    + vm_compute in Ei. injection Ei as <-. eexists. vm_compute. reflexivity.
    + rewrite Ec. split; [left; reflexivity|]. vm_compute in Ei, Ec. injection Ei as <-. injection Ec as <-. split; vm_compute; reflexivity.
    + vm_compute in Ec. injection Ec as <-. reflexivity.
  - destruct (Hlater resolved_after bound_to_resolved) as [_ (a & Ha & Hnone & _)]. destruct (Hturn "worker-2" true no_work) as (r & w' & Hrun & Ht & _ & Hg & _).
    exists e, c, a. split; [reflexivity|]. split; [reflexivity|]. split; [exact Ha|]. split; [vm_compute; reflexivity|]. split.
    + exists r, w'. split; [exact Hrun|]. split; [exact Ht|]. unfold touches_of. rewrite Hg. vm_compute. reflexivity.
    + intros id d at_ b w3 Hb. exact (proj1 (Hnone id d at_ b w3 Hb)).
Defined.

(** The person answers the same message once more, and someone follows the channel. *)
Definition answered_twice : WebhookWorld := Eval vm_compute in hook_calls 10 (takes_in second_reply 7) touched_world.
Definition followed : WebhookWorld := Eval vm_compute in hook_calls 10 (takes_in follows 8) answered_twice.
Definition stuck_world : WebhookWorld := Eval vm_compute in hook_calls 200 (works "worker-1" true) (at_minute 9 followed).
Definition stuck_again : WebhookWorld := Eval vm_compute in hook_calls 200 (works "worker-2" true) (at_minute 11 stuck_world).

Lemma stuck_again_reached : hook_reaches before stuck_again.
Proof.
  worked "worker-2" 200%nat 11 stuck_world. worked "worker-1" 200%nat 9 followed. came follows 8 answered_twice. came second_reply 7 touched_world.
  exact touched_reached.
Qed.

Definition at_instant (t : Z) (w : WebhookWorld) : WebhookWorld := with_line (outside t [] (ww_line w)) w.

(** The second response finds the attempt taken, and the worker throws: at this batch, with the entries
    behind it left in their lease, at the next one when the lease ran out, and in the round that would let
    the response run out at its window, at every instant. *)
Lemma answered_twice_stops : hook_history stuck_again /\
  fst (Program.run (works "worker-1" true) (at_minute 9 followed)) = Err second_response /\
  fst (Program.run (works "worker-2" true) (at_minute 11 stuck_world)) = Err second_response /\
  map in_state (lh_inbox (ww_hooks stuck_again)) = [INBOX_COMPLETED; INBOX_PROCESSING; INBOX_PROCESSING] /\
  map in_attempts (lh_inbox (ww_hooks stuck_again)) = [1; 2; 2] /\
  map tk_state (lh_correlations (ww_hooks stuck_again)) = [CORRELATION_BOUND; CORRELATION_PENDING] /\
  forall t, fst (Program.run (resolvePending "t" keyring 50) (at_instant t stuck_again)) = Err second_response.
Proof.
  split; [exact (reached_hook_history _ stuck_again_reached)|]. split; [vm_compute; reflexivity|]. split; [vm_compute; reflexivity|].
  split; [vm_compute; reflexivity|]. split; [vm_compute; reflexivity|]. split; [vm_compute; reflexivity|]. intros t. vm_compute. reflexivity.
Qed.


(** An event can be refused for ever. The ingress takes an identifier with a dot, the table does not: in
    every world a request with such an event is answered that it could not be stored, so LINE may send it
    again and again, and nothing of it is ever kept, not even its refusal. *)
Theorem dotted_event_is_never_kept : WEBHOOK_EVENT_ID "ev.4" = true /\
  forall w, Program.run (takes_in dotted_reply 5) w = (Ok (answered 503 WEBHOOK_DURABILITY_UNAVAILABLE), w).
Proof. split; [reflexivity|]. intros w. vm_compute. reflexivity. Qed.

(** A response ten days after the delivery, when its window is long over by the worker's comment. *)
Definition late_world : WebhookWorld := Eval vm_compute in hook_calls 10 (takes_in late_reply 14400) delivered.

Lemma late_reply_touches : LINE_TOUCH_WINDOW_MS < minutes 14400 - minutes 1 /\
  fst (Program.run (works "worker-1" true) (at_minute 14401 late_world)) = Ok (WorkerResult_ 1 1 1 0 0).
Proof. split; vm_compute; reflexivity. Qed.

(** A token whose delivery is not accepted yet: it is used up, its correlation waits, and once the
    delivery is accepted no one asks for it. *)
Definition pressed_world : WebhookWorld := Eval vm_compute in hook_calls 10 (takes_in first_press 5) before.
Definition press_worked : WebhookWorld := Eval vm_compute in hook_calls 200 (works "worker-1" true) (at_minute 6 pressed_world).
Definition press_delivered : WebhookWorld := at_minute 7 (with_line accepted_world press_worked).

Lemma early_press_is_lost :
  lh_tokens (ww_hooks press_worked) = [] /\ map tk_state (lh_correlations (ww_hooks press_worked)) = [CORRELATION_PENDING] /\
  fst (Program.run (resolvePending "t" keyring 50) press_delivered) = Ok (WorkerResult_ 1 0 0 1 0) /\
  map tk_state (lh_correlations (ww_hooks (snd (Program.run (resolvePending "t" keyring 50) (at_minute 1446 press_delivered))))) = [CORRELATION_QUARANTINED].
Proof. repeat split; vm_compute; reflexivity. Qed.
